(* ===== verification/_CoqProject ===== *)
-Q . S2P
Prelude.v
Ebpf.v
InstValid.v
Mem.v
Vm.v
Validate.v
Load.v
Alu.v
Checks.v
Interp.v
InterpSound.v
SafeAlu.v
SafeTags.v
Safe.v
SafeSound.v
SafeRefine.v
JitSupport.v
JitAsm.v
JitLink.v
JitProg.v
X86Emit.v
X86Trans.v
X86Cost.v
X86Sound.v
X86Link.v
X86Correct.v
X86Result.v
Arm64Emit.v
Arm64Trans.v
Arm64Isa.v
Arm64Move.v
Arm64Cost.v
Arm64Run.v
Arm64Mem.v
Arm64Code.v
Arm64Sound.v
Arm64Correct.v
Arm64Link.v
Arm64Cpu.v
Arm64Stack.v
Arm64Result.v
Arm64Sim.v
Arm64Local.v
Arm64Call.v
Jit.v
Elf.v
ElfSound.v
ElfLink.v
Lifecycle.v
Plugin.v
Fuzz.v
Runner.v
