(* ===== verification/Prelude.v ===== *)
(** * A verification of uBPF

    uBPF is a user-space virtual machine for eBPF bytecode.  An embedder creates
    a VM, registers helper functions, loads a program and runs it in an
    interpreter or compiles it to machine code.  This library models the virtual
    machine of src/vm/ and the three embedders of the repository (the command-line
    runner, the conformance plugin and the fuzzing harness), and proves the
    properties an embedder relies on and those the three embedders have.

    ** The program and the files that model it

    - vm/ebpf.h, the instruction set: [Ebpf].  The instruction record with its
      bit layout, the 119 operations, the decoding of an opcode byte.
    - vm/ubpf_instruction_valid.c: [InstValid].  The table of field filters, the
      lookup table the first call builds, [ubpf_is_valid_instruction].
    - vm/ubpf_int.h and the API of vm/ubpf_vm.c: [Vm].  [struct ubpf_vm] is a
      record with a setter per field; one definition per configuration call;
      helper and dispatcher registration with the update of the compiled code;
      the XOR-encoded instruction store; the cache of local-function stack
      usage; unloading.
    - [validate] and [check_for_self_contained_sub_programs] of vm/ubpf_vm.c:
      [Validate].
    - [ubpf_load] of vm/ubpf_vm.c: [Load].
    - The memory accessors of vm/ubpf_vm.c: [Mem], over a map from addresses to
      bytes.
    - The interpreter [ubpf_exec_ex] of vm/ubpf_vm.c: [Alu] (arithmetic, byte
      order, conditions), [Checks] (bounds check, effective address, shadow
      stack, shadow registers), [Interp] (loads, stores, atomics, calls, the
      turn of the loop and the loop), [InterpSound] (its invariant and the
      theorems on whole executions).
    - The safe execution profile of vm/ubpf_safe.c: [SafeAlu] (the arithmetic of
      its own switch), [SafeTags] (tags, checked access, spill slots, the tables
      of helpers and regions with their registration), [Safe] (the interpreter
      [ubpf_exec_ex_safe], and the entry points [ubpf_exec_ex] and [ubpf_exec]
      that choose between the two), [SafeSound] (provenance and safety),
      [SafeRefine] (comparison with the legacy profile, spilling).
    - vm/ubpf_jit_support.[ch], the state of a translation: [JitSupport].  The
      buffer, the positions of the instructions and the tables of displacements
      to fill in; a state monad whose failure is undefined behaviour.  What the
      proofs on both back ends share: [JitAsm], an abstract assembler (a list of
      [item]s) against which emitters are specified, parametric in the [Target];
      [JitLink], the passes that fill in displacements against the interface
      [Linker]; [JitProg], what a back end uses of a loaded program.
    - vm/ubpf_jit_x86_64.c, the back end for x86-64: [X86Emit] (the emitters, up
      to multiplication and division), [X86Trans] (local calls, retpoline, the
      loop of [translate] with its switch, the patching pass
      [resolve_patchable_relatives], [ubpf_translate_x86_64]), [X86Cost] (how much
      an instruction emits), [X86Sound] (what one instruction emits), [X86Link]
      (the patching pass), [X86Correct] (the image of a whole program),
      [X86Result] (the theorems).
    - vm/ubpf_jit_arm64.c, the back end for arm64: [Arm64Emit] (the encoders, the
      choice of MOVZ/MOVN/MOVK sequences, constant blinding, prologue, epilogue,
      calls, atomic operations), [Arm64Trans] (the opcode tables, the loop of
      [translate] with its switch, the four resolution passes,
      [ubpf_translate_arm64]); [Arm64Isa] (a decoder and the effect of the A64
      instructions it computes with, after the Arm Architecture Reference Manual),
      [Arm64Move] (constants), [Arm64Cost] (how much an instruction emits),
      [Arm64Run] (what the code of an ALU instruction, byte swap or comparison
      does when it runs), [Arm64Mem] (the same for loads and stores),
      [Arm64Code] and [Arm64Sound] (the code of one instruction), [Arm64Correct]
      (the image of a whole program), [Arm64Link] (the resolution passes),
      [Arm64Cpu] (the processor with a program counter on the linked code),
      [Arm64Stack] (code that uses the host stack), [Arm64Result] (what is
      compiled and where it is linked), [Arm64Sim] (one instruction after the
      other), [Arm64Local] (local calls) and [Arm64Call] (the whole code, called as
      a C function).
    - vm/ubpf_jit.c, the driver: [Jit].  Translation into a buffer of the caller,
      compilation with its mappings, the cache, the copy, and how registrations
      update compiled code; proved against the interface [BackEnd], of which the
      two back ends are instances.
    - vm/ubpf_loader.c, the loader of object files: [Elf] (over the bytes of the
      file; the header, the sections, the symbols, the linked program and its
      relocations, then [ubpf_load]), [ElfSound] (layout and relocations) and
      [ElfLink] (the link as a whole, and what a VM is loaded with).
    - The public calls together, as a step relation on VMs: [Lifecycle].
    - ubpf_plugin/ubpf_plugin.cc and ubpf_plugin/test_helpers.h, the plugin that
      conformance suites run: [Plugin].  The text format of programs and memory,
      the arguments, the helpers and the dispatcher as a host, [main].
    - libfuzzer/libfuzz_harness.cc, the fuzzing harness: [Fuzz].  The split of the
      input, the context, the bounds check, the VM and its runs, the exchange with
      an external VM, [LLVMFuzzerTestOneInput].
    - vm/test.c, the command-line runner: [Runner].  The relocation and bounds
      functions of its map, the map helpers, their registration, loading,
      unloading and running.

    This file has what the others share: machine-width integers, little-endian
    byte strings, results of fallible code, tactics and hint databases.

    ** How the code is translated

    An N-bit integer is a [Z]; conversions are written out with [wrap] and
    [sext].  A pointer is its address and what it points to is a field of its
    own.  An error message is a constructor of an error type, and a function
    that can fail returns [result].  The interpreter's locals are a record and
    one turn of its loop is a function; a turn gives a value, an error, or
    [Undefined].  [Undefined] stands for a read or write outside mapped memory,
    an index outside an array, a failed assertion, a call through NULL and the
    overflow of a signed negation.  Functions of the embedder (helpers,
    dispatcher and its validator, bounds check, stack-usage calculator, debug
    function) are the class [HostEnv]; what the theorems ask of them is the
    class [HostSound]: helpers keep mapped memory mapped and bytes bytes, and an
    access that the bounds function accepts and that does not wrap around lies in
    [host_granted], addresses the embedder keeps mapped.  A helper may do something
    undefined itself (it is given what the program has in its registers): its result
    is then [None] and the turn [Undefined].  Theorems that exclude undefined
    behaviour ask for [calls_defined], that the functions the program calls are defined
    on any arguments.  [Plugin] and [Runner] give instances of both classes from the
    code of the tools.  The operating system's
    answers to [ubpf_load] are the record [os_calls]; [os_sound] says that
    allocations are not NULL and that the page size is a power of two.  The
    answers to [ubpf_compile_ex] are [jit_os], those to the object-file loader
    [elf_allocs].  The stack-usage table of a VM is NULL ([None]) after an unload whose
    [calloc] failed, which the code does not check.  In the code generator and the object-file loader undefined
    behaviour is [None]: a write past the buffer or a table, a read outside the
    file, a failed assertion.

    ** What the theorems show

    - Validation: the filter table is what the ISA document prescribes for the bits of
      an opcode, but for the immediates of four opcodes, where the theorem states the
      difference; an accepted program's jumps go to instruction starts and never cross the
      start of a local function; the in-place compaction of the array of starts
      is correct.
    - Loading: [ubpf_load] always returns; on success the VM satisfies the
      invariant [loaded], the interface the interpreter is verified against; on
      failure it has no code; unloading gives the VM back, its stack-usage table apart
      when that cannot be allocated.
    - Execution: every arithmetic instruction and condition computes what the
      bits of its opcode define; with bounds checks on, a loaded program runs
      without undefined behaviour (but for one case of the 32-bit NEG and what the
      functions of the embedder do), writes only to its memory and stack when it calls
      none of those, and ends under an instruction limit; local calls return
      to their caller with the callee-saved registers restored.
    - The safe profile: every pointer tag of a reachable state lies inside a
      region that was granted, the checked access is exact, a program cannot
      write outside writable granted memory nor do anything undefined (again but for
      the 32-bit NEG), whatever the bounds-check setting; what the safe profile returns, the legacy one
      returns; registration and lookup of regions agree; a spilled pointer comes
      back as a pointer.
    - The JIT: on both targets a loaded program is always compiled when the
      buffer is large enough (and, on arm64, below a megabyte); in the code that
      results every jump is a jump of the processor, of its condition, to the position of
      its target instruction, and every local call to the start of an instruction a
      call of the code that opens its function; the dispatcher slot and
      helper table hold what the VM holds, and still do after later registrations;
      compilation leaks no mapping on any path; compiled code is cached and copied
      faithfully.
    - The machine code: the arm64 code of arithmetic, byte-order, LDDW, load, store
      and jump instructions, run by the processor model, does what the interpreter
      does to registers and memory, a forward simulation from turns of the
      interpreter's loop to runs of linked code, with and without constant blinding.
      Called as a C function, the code of a program of such instructions, local calls
      and exits returns what [ubpf_exec_ex] returns and leaves the same memory, with
      the registers and the stack of the caller restored.  (64-bit stores of a
      negative immediate, where the code differs, are left out.)
    - The calls of the library in any order: every VM reached from [ubpf_create]
      has its type, and what [ubpf_load] accepts on it [ubpf_compile_ex] compiles
      (outside of the safe profile).
    - Object files: the functions of the symbol table are laid out one after the other
      with the main function first, whatever its place in the table; a relocated call goes to where its function landed, or to
      the helper of its name; a relocated LDDW has the value of the data
      relocation function; a VM the loader succeeds on holds every instruction of every
      function, changed in its immediate at most.
    - The tools: a program the runner interprets that calls no helper but those that
      touch no memory does nothing undefined, its accesses kept to its memory, its maps
      and its global data; the map helpers implement an array of values; a
      program the runner unloads and loads again runs as it did; calls through the
      dispatcher of the plugin and calls through the table of helpers do the same; the program text the fuzzer sends to an
      external VM is read back by the plugin as the program and memory of the
      input; the fuzzer splits its input exactly and every run it starts ends.
    - Several theorems state where the code departs from its documentation or
      its intent: a shadow array that is too small, a limit that turns negative,
      a sub-program check that looks at the wrong instruction, a frame pointer
      that can be overwritten, a cache that survives a failed load, a helper slot
      that cannot be updated, a spilled pointer that loses its tag, a truncated
      translation reported as a success, a compiled call that leaves the buffer, a
      translation that spoils the record of compiled code, object files on which
      the loader reads outside its data, regions of the fuzzing harness whose ends a
      program can move, addresses of maps that go stale when the table of maps grows,
      a plugin that copies a partial instruction past the end of its vector, an unload
      that can leave a VM on which the next load is undefined.

    ** Bounds and fuel

    The loop of an interpreter runs on fuel.  With an instruction limit of [n],
    [n + 1] units are enough ([exec_loop_limit], [safe_loop_limit]); without a
    limit a program may loop for ever, and the safety theorems then hold for every amount of fuel
    ([exec_loop_more]: more fuel never changes a result).  The loop of
    [translate] has one unit more than the program has instructions, and every
    turn advances ([translate_image], [arm_translate_image] give its result).  On
    x86-64 one instruction emits at most 160 bytes and five displacements, the
    rest of the code 672 bytes; on arm64 it is 232 bytes and six displacements, and
    612 bytes.  The tables of displacements have UBPF_MAX_INSTS entries, which is
    why the theorems on x86-64 ask for 3 + 5 displacements per instruction to fit;
    on arm64 the limit of 2^20 - 4 bytes ([ARM_CODE_LIMIT], the reach of a
    conditional branch) implies it.  The other loops are structural.

    ** What is not modelled

    The Windows variant of the x86-64 back end and its build without retpolines;
    what the machine code does when it runs, on x86-64 altogether and on arm64 for
    atomic operations and calls of helpers; the formatting of error messages and what the tools print; the files the runner
    reads ([readfile]); the comparison of a fuzzed run with the invariants of an
    external verifier and the options of the harness; the platform shims, unit
    tests and sample programs.  Atomic operations are modelled for one thread, and
    misaligned atomic operands are given the value the hardware gives them.
    Helpers change memory but not the VM: a helper that registers regions while
    it is called is not modelled. *)

From Stdlib Require Import ZArith Lia Bool.
From stdpp Require Import base list gmap strings numbers.

Local Open Scope Z_scope.

(** ** Machine-width integers

    A w-bit C integer is a [Z].  [wrap w x] is the conversion to the unsigned
    w-bit type, [sext w x] the conversion to the signed one (two's complement). *)

Definition wrap (w x : Z) : Z := x mod 2 ^ w.

Definition sext (w x : Z) : Z :=
  let y := wrap w x in if y <? 2 ^ (w - 1) then y else y - 2 ^ w.

Abbreviation u8 := (wrap 8).
Abbreviation u16 := (wrap 16).
Abbreviation u32 := (wrap 32).
Abbreviation u64 := (wrap 64).
Abbreviation s8 := (sext 8).
Abbreviation s16 := (sext 16).
Abbreviation s32 := (sext 32).
Abbreviation s64 := (sext 64).

Definition UINT32_MAX : Z := 4294967295.
Definition UINT64_MAX : Z := 18446744073709551615.
Definition INT16_MIN : Z := -32768.
Definition INT16_MAX : Z := 32767.
Definition INT32_MIN : Z := -2147483648.
Definition INT32_MAX : Z := 2147483647.
Definition INT64_MIN : Z := -9223372036854775808.
Definition INT64_MAX : Z := 9223372036854775807.

(** Width predicates, decidable by computation. *)
Definition unsigned_fits (w x : Z) : Prop := 0 <= x < 2 ^ w.
Definition signed_fits (w x : Z) : Prop := - 2 ^ (w - 1) <= x < 2 ^ (w - 1).

(** C's bitwise operators, in a scope of their own. *)
Declare Scope cbits_scope.
Delimit Scope cbits_scope with cbits.
Infix ".&" := Z.land (at level 40, left associativity) : cbits_scope.
Infix ".|" := Z.lor (at level 50, left associativity) : cbits_scope.
Infix ".^" := Z.lxor (at level 45, left associativity) : cbits_scope.
Infix ".<<" := Z.shiftl (at level 33, left associativity) : cbits_scope.
Infix ".>>" := Z.shiftr (at level 33, left associativity) : cbits_scope.

(** ** Little-endian byte strings *)

Fixpoint le_decode (bs : list Z) : Z :=
  match bs with
  | [] => 0
  | b :: bs' => b + 256 * le_decode bs'
  end.

Fixpoint le_encode (n : nat) (v : Z) : list Z :=
  match n with
  | O => []
  | S n' => v mod 256 :: le_encode n' (v / 256)
  end.

Definition byte_ok (b : Z) : Prop := 0 <= b < 256.

(** ** Results of fallible code *)

Inductive result (A E : Type) : Type :=
| Ok (a : A)
| Err (e : E).
Arguments Ok {A E} a.
Arguments Err {A E} e.

Definition bind_result {A B E} (r : result A E) (k : A -> result B E) : result B E :=
  match r with
  | Ok a => k a
  | Err e => Err e
  end.

Declare Scope result_scope.
Delimit Scope result_scope with result.
Notation "'let*' x := r 'in' k" := (bind_result r (fun x => k))
  (at level 10, x name, r at level 100, k at level 200) : result_scope.

(** [guard c e]: an early return with error [e] when [c] fails. *)
Definition guard {E} (c : bool) (e : E) : result unit E :=
  if c then Ok tt else Err e.

(** ** Automation *)

Create HintDb ubpf.
Create HintDb widths.
Create Rewrite HintDb widths.

(** Destructs the booleans a test of the code is built from. *)
Ltac bools :=
  repeat match goal with
  | H : _ && _ = true |- _ => apply andb_true_iff in H; destruct H
  | H : _ || _ = false |- _ => apply orb_false_iff in H; destruct H
  | H : negb _ = true |- _ => apply negb_true_iff in H
  | H : negb _ = false |- _ => apply negb_false_iff in H
  | H : (_ =? _) = true |- _ => apply Z.eqb_eq in H
  | H : (_ =? _) = false |- _ => apply Z.eqb_neq in H
  | H : (_ <? _) = true |- _ => apply Z.ltb_lt in H
  | H : (_ <? _) = false |- _ => apply Z.ltb_ge in H
  | H : (_ <=? _) = true |- _ => apply Z.leb_le in H
  | H : (_ <=? _) = false |- _ => apply Z.leb_gt in H
  | H : bool_decide _ = true |- _ => apply bool_decide_eq_true in H
  | H : bool_decide _ = false |- _ => apply bool_decide_eq_false in H
  end.

(** Case analysis on the tests of a guarded computation in hypothesis [H]. *)
Ltac split_ifs H :=
  repeat match type of H with
  | context [if ?b then _ else _] => let E := fresh "E" in destruct b eqn:E; try discriminate H
  end.

(** [simp_guard]: case analysis on the early returns of a guarded computation. *)
Lemma bind_ok_inv {A B E} (r : result A E) (k : A -> result B E) b :
  bind_result r k = Ok b -> exists a, r = Ok a /\ k a = Ok b.
Proof. destruct r; simpl; [eauto | discriminate]. Qed.

Lemma guard_ok_inv {E} c (e : E) u : guard c e = Ok u -> c = true.
Proof. destruct c; [done | discriminate]. Qed.

Lemma guard_ok_iff {E} c (e : E) : guard c e = Ok tt <-> c = true.
Proof. destruct c; simpl; split; congruence. Qed.

Lemma bind_guard_ok {A E} c (e : E) (k : unit -> result A E) (a : A) :
  bind_result (guard c e) k = Ok a <-> c = true /\ k tt = Ok a.
Proof. destruct c; simpl; naive_solver. Qed.

Ltac inv_result H :=
  repeat match type of H with
  | bind_result _ _ = Ok _ =>
      let a := fresh "a" in let H1 := fresh "Hr" in
      apply bind_ok_inv in H; destruct H as (a & H1 & H);
      try (apply guard_ok_inv in H1; clear a)
  end.

(** ** Lemmas on widths *)

Lemma wrap_range w x : 0 <= w -> 0 <= wrap w x < 2 ^ w.
Proof. intros. apply Z.mod_pos_bound, Z.pow_pos_nonneg; lia. Qed.

Lemma wrap_id w x : 0 <= x < 2 ^ w -> wrap w x = x.
Proof. apply Z.mod_small. Qed.

Lemma wrap_wrap w x : 0 <= w -> wrap w (wrap w x) = wrap w x.
Proof. intros. apply wrap_id, wrap_range, H. Qed.

Lemma wrap_wrap_le v w x : 0 <= v <= w -> wrap v (wrap w x) = wrap v x.
Proof.
  intros. unfold wrap. replace w with (v + (w - v)) by lia.
  rewrite Z.pow_add_r, Z.rem_mul_r by (try apply Z.pow_nonzero; try apply Z.pow_pos_nonneg; lia).
  rewrite (Z.mul_comm (2 ^ v)), Z.mod_add by (apply Z.pow_nonzero; lia).
  apply Z.mod_mod, Z.pow_nonzero; lia.
Qed.

Lemma wrap_add_l w x y : wrap w (wrap w x + y) = wrap w (x + y).
Proof. apply Zplus_mod_idemp_l. Qed.
Lemma wrap_add_r w x y : wrap w (x + wrap w y) = wrap w (x + y).
Proof. apply Zplus_mod_idemp_r. Qed.
Lemma wrap_sub_l w x y : wrap w (wrap w x - y) = wrap w (x - y).
Proof. apply Zminus_mod_idemp_l. Qed.
Lemma wrap_sub_r w x y : wrap w (x - wrap w y) = wrap w (x - y).
Proof. apply Zminus_mod_idemp_r. Qed.
Lemma wrap_mul_l w x y : wrap w (wrap w x * y) = wrap w (x * y).
Proof. apply Zmult_mod_idemp_l. Qed.
Lemma wrap_mul_r w x y : wrap w (x * wrap w y) = wrap w (x * y).
Proof. apply Zmult_mod_idemp_r. Qed.

(** A wider wrap inside a narrower one disappears. *)
Lemma wrap_add_wide_l v w x y : 0 <= v <= w -> wrap v (wrap w x + y) = wrap v (x + y).
Proof. intros. by rewrite <- wrap_add_l, wrap_wrap_le, wrap_add_l. Qed.
Lemma wrap_add_wide_r v w x y : 0 <= v <= w -> wrap v (x + wrap w y) = wrap v (x + y).
Proof. intros. by rewrite <- wrap_add_r, wrap_wrap_le, wrap_add_r. Qed.
Lemma wrap_sub_wide_l v w x y : 0 <= v <= w -> wrap v (wrap w x - y) = wrap v (x - y).
Proof. intros. by rewrite <- wrap_sub_l, wrap_wrap_le, wrap_sub_l. Qed.
Lemma wrap_sub_wide_r v w x y : 0 <= v <= w -> wrap v (x - wrap w y) = wrap v (x - y).
Proof. intros. by rewrite <- wrap_sub_r, wrap_wrap_le, wrap_sub_r. Qed.
Lemma wrap_mul_wide_l v w x y : 0 <= v <= w -> wrap v (wrap w x * y) = wrap v (x * y).
Proof. intros. by rewrite <- wrap_mul_l, wrap_wrap_le, wrap_mul_l. Qed.
Lemma wrap_mul_wide_r v w x y : 0 <= v <= w -> wrap v (x * wrap w y) = wrap v (x * y).
Proof. intros. by rewrite <- wrap_mul_r, wrap_wrap_le, wrap_mul_r. Qed.

Lemma land_ones_wrap w x : 0 <= w -> Z.land x (Z.ones w) = wrap w x.
Proof. intros. apply Z.land_ones; lia. Qed.

Lemma land_u32max x : Z.land x UINT32_MAX = u32 x.
Proof. exact (land_ones_wrap 32 x ltac:(lia)). Qed.

Lemma wrap_lor w x y : 0 <= w -> wrap w (Z.lor x y) = Z.lor (wrap w x) (wrap w y).
Proof. intros. rewrite <- !land_ones_wrap by lia. apply Z.land_lor_distr_l. Qed.

Lemma testbit_wrap w x i :
  0 <= w -> Z.testbit (wrap w x) i = (i <? w) && Z.testbit x i.
Proof.
  intros. rewrite <- land_ones_wrap, Z.land_spec by lia.
  destruct (Z.ltb_spec i w).
  - destruct (Z.ltb_spec i 0); [rewrite !Z.testbit_neg_r by lia; done |].
    rewrite Z.ones_spec_low, andb_true_r by lia. done.
  - rewrite Z.ones_spec_high, andb_false_r by lia. done.
Qed.

Lemma wrap_land w x y : 0 <= w -> wrap w (Z.land x y) = Z.land (wrap w x) (wrap w y).
Proof.
  intros. apply Z.bits_inj'. intros i _.
  rewrite testbit_wrap, !Z.land_spec, !testbit_wrap by lia.
  by destruct (i <? w).
Qed.

Lemma wrap_lxor w x y : 0 <= w -> wrap w (Z.lxor x y) = Z.lxor (wrap w x) (wrap w y).
Proof.
  intros. apply Z.bits_inj'. intros i _.
  rewrite testbit_wrap, !Z.lxor_spec, !testbit_wrap by lia.
  destruct (i <? w); [done|]. by rewrite xorb_false_r.
Qed.

Lemma bit_range w x :
  0 <= w -> 0 <= x -> (forall i, w <= i -> Z.testbit x i = false) -> x < 2 ^ w.
Proof.
  intros Hw Hx Hb. assert (x = wrap w x) as ->; [| apply wrap_range; lia].
  apply Z.bits_inj'. intros i Hi. rewrite testbit_wrap by lia.
  destruct (Z.ltb_spec i w); [done|]. by rewrite Hb.
Qed.

Lemma land_fits w x y : 0 <= w -> 0 <= x < 2 ^ w -> 0 <= y -> 0 <= Z.land x y < 2 ^ w.
Proof.
  intros Hw [Hx Hx'] Hy. split; [apply Z.land_nonneg; lia|].
  apply bit_range; [lia | apply Z.land_nonneg; lia |].
  intros i Hi. rewrite Z.land_spec, <- (wrap_id w x), testbit_wrap by lia.
  destruct (Z.ltb_spec i w); [lia | done].
Qed.

Lemma lor_fits w x y :
  0 <= w -> 0 <= x < 2 ^ w -> 0 <= y < 2 ^ w -> 0 <= Z.lor x y < 2 ^ w.
Proof.
  intros Hw Hx Hy. rewrite <- (wrap_id w x), <- (wrap_id w y), <- wrap_lor by lia.
  apply wrap_range; lia.
Qed.

Lemma lxor_fits w x y :
  0 <= w -> 0 <= x < 2 ^ w -> 0 <= y < 2 ^ w -> 0 <= Z.lxor x y < 2 ^ w.
Proof.
  intros Hw Hx Hy. rewrite <- (wrap_id w x), <- (wrap_id w y), <- wrap_lxor by lia.
  apply wrap_range; lia.
Qed.

Lemma testbit_small w x i : 0 <= x < 2 ^ w -> w <= i -> Z.testbit x i = false.
Proof.
  intros Hx Hi. rewrite <- (wrap_id w x) by lia. destruct (Z.ltb_spec w 0); [rewrite Z.pow_neg_r in Hx by lia; lia |].
  rewrite testbit_wrap by lia. destruct (Z.ltb_spec i w); [lia | done].
Qed.

(** Disjoint fields of a word add up. *)
Lemma lor_field k x y : 0 <= k -> x mod 2 ^ k = 0 -> 0 <= y < 2 ^ k -> Z.lor x y = x + y.
Proof.
  intros Hk Hx Hy. rewrite <- Z.add_lor_land. assert (Z.land x y = 0) as ->; [| lia].
  apply Z.bits_inj'. intros i Hi. rewrite Z.land_spec, Z.bits_0. destruct (Z.ltb_spec i k).
  - rewrite (Z.div_mod x (2 ^ k)), Hx, Z.add_0_r, Z.mul_comm, Z.mul_pow2_bits_low by lia. done.
  - by rewrite (testbit_small k y), andb_false_r by lia.
Qed.

Lemma shiftr_fits w x n : 0 <= n -> 0 <= x < 2 ^ w -> 0 <= Z.shiftr x n < 2 ^ w.
Proof.
  intros Hn Hx. rewrite Z.shiftr_div_pow2 by lia.
  assert (0 < 2 ^ n) by (apply Z.pow_pos_nonneg; lia).
  split; [apply Z.div_pos; lia |]. apply Z.div_lt_upper_bound; nia.
Qed.

Lemma sext_range w x : 0 < w -> - 2 ^ (w - 1) <= sext w x < 2 ^ (w - 1).
Proof.
  intros. unfold sext. pose proof (wrap_range w x ltac:(lia)).
  assert (2 ^ w = 2 * 2 ^ (w - 1)) by (rewrite <- Z.pow_succ_r by lia; f_equal; lia).
  destruct (Z.ltb_spec (wrap w x) (2 ^ (w - 1))); lia.
Qed.

Lemma wrap_sext w x : 0 < w -> wrap w (sext w x) = wrap w x.
Proof.
  intros. unfold sext. destruct (_ <? _); [apply wrap_wrap; lia |].
  unfold wrap. rewrite <- (Z.mul_1_l (2 ^ w)) at 2.
  rewrite Zminus_mod, Z.mod_mul, Z.sub_0_r by (apply Z.pow_nonzero; lia).
  rewrite !Z.mod_mod by (apply Z.pow_nonzero; lia). done.
Qed.

Lemma sext_wrap w x : 0 <= w -> sext w (wrap w x) = sext w x.
Proof. intros. unfold sext. by rewrite wrap_wrap. Qed.

Lemma sext_wrap_le v w x : 0 <= v <= w -> sext v (wrap w x) = sext v x.
Proof. intros. unfold sext. by rewrite wrap_wrap_le. Qed.

Lemma sext_zero_iff w x : 0 < w -> sext w x = 0 <-> wrap w x = 0.
Proof.
  intros Hw. unfold sext. pose proof (wrap_range w x ltac:(lia)).
  destruct (Z.ltb_spec (wrap w x) (2 ^ (w - 1))); [done |].
  assert (0 < 2 ^ (w - 1)) by (apply Z.pow_pos_nonneg; lia). lia.
Qed.

Lemma sext_id w x : 0 < w -> signed_fits w x -> sext w x = x.
Proof.
  unfold signed_fits. intros Hw Hx.
  assert (2 ^ w = 2 * 2 ^ (w - 1)) as E by (rewrite <- Z.pow_succ_r by lia; f_equal; lia).
  unfold sext. destruct (Z.ltb_spec x 0).
  - replace (wrap w x) with (x + 2 ^ w).
    + destruct (Z.ltb_spec (x + 2 ^ w) (2 ^ (w - 1))); lia.
    + unfold wrap. rewrite <- (Z.mod_small (x + 2 ^ w) (2 ^ w)) by lia.
      rewrite <- (Z.mul_1_l (2 ^ w)) at 1. apply Z.mod_add, Z.pow_nonzero; lia.
  - rewrite wrap_id by lia. destruct (Z.ltb_spec x (2 ^ (w - 1))); lia.
Qed.

#[export] Hint Rewrite land_u32max : widths.
#[export] Hint Resolve wrap_range land_fits lor_fits lxor_fits shiftr_fits : widths.

(** ** Lemmas on byte strings *)

Lemma length_le_encode n v : length (le_encode n v) = n.
Proof. revert v; induction n; simpl; auto. Qed.

Lemma le_encode_bytes n v : Forall byte_ok (le_encode n v).
Proof.
  revert v; induction n; simpl; intros; constructor; auto.
  apply Z.mod_pos_bound; lia.
Qed.

Lemma le_decode_encode n v : le_decode (le_encode n v) = wrap (8 * Z.of_nat n) v.
Proof.
  revert v; induction n as [| n IH]; intros v; simpl le_encode; simpl le_decode.
  - unfold wrap. by rewrite Z.mod_1_r.
  - rewrite IH. unfold wrap. replace (8 * Z.of_nat (S n)) with (8 + 8 * Z.of_nat n) by lia.
    rewrite Z.pow_add_r by lia. change (2 ^ 8) with 256.
    rewrite Z.rem_mul_r by (try apply Z.pow_pos_nonneg; lia). lia.
Qed.

Lemma le_decode_range bs :
  Forall byte_ok bs -> 0 <= le_decode bs < 2 ^ (8 * Z.of_nat (length bs)).
Proof.
  unfold byte_ok. induction 1 as [| b bs Hb _ IH]; simpl le_decode; simpl length; [lia |].
  replace (8 * Z.of_nat (S (length bs))) with (8 + 8 * Z.of_nat (length bs)) by lia.
  rewrite Z.pow_add_r by lia. change (2 ^ 8) with 256. lia.
Qed.

Lemma le_encode_decode bs :
  Forall byte_ok bs -> le_encode (length bs) (le_decode bs) = bs.
Proof.
  unfold byte_ok. induction 1 as [| b bs Hb _ IH]; simpl; [done |]. f_equal.
  - rewrite Z.mul_comm, Z.mod_add by lia. apply Z.mod_small; lia.
  - rewrite Z.mul_comm, Z.div_add, Z.div_small by lia. by rewrite Z.add_0_l.
Qed.

Lemma le_decode_app_zeros bs n : le_decode (bs ++ replicate n 0) = le_decode bs.
Proof.
  induction bs as [| b bs IH]; simpl; [| by rewrite IH].
  induction n; simpl; lia.
Qed.

Lemma le_decode_app a b : le_decode (a ++ b) = le_decode a + 2 ^ (8 * Z.of_nat (length a)) * le_decode b.
Proof.
  induction a as [| x a IH]; [cbn; lia |]. cbn [app le_decode length]. rewrite IH.
  replace (8 * Z.of_nat (S (length a))) with (8 + 8 * Z.of_nat (length a)) by lia.
  rewrite Z.pow_add_r by lia. lia.
Qed.

(** ** Lemmas on lists *)

Lemma find_app {A} (f : A -> bool) (l1 l2 : list A) :
  List.find f (l1 ++ l2) =
  match List.find f l1 with
  | Some x => Some x
  | None => List.find f l2
  end.
Proof. induction l1 as [| x l1 IH]; simpl; [done |]. by destruct (f x). Qed.
