(* ===== verification/Ebpf.v ===== *)
(** * Ebpf: the eBPF instruction set (vm/ebpf.h)

    The opcode constants, [struct ebpf_inst] and its 64-bit encoding, the
    enumeration [ebpf_op] of the opcodes the interpreters switch on, and the
    layout and decoding lemmas the other files use. *)

From Stdlib Require Import ZArith Lia Bool.
From stdpp Require Import base list gmap strings numbers.
From S2P Require Import Prelude.

Local Open Scope Z_scope.
Local Open Scope cbits_scope.

(** ** Field constants *)

Definition EBPF_CLS_MASK : Z := 0x07.
Definition EBPF_ALU_OP_MASK : Z := 0xf0.
Definition EBPF_JMP_OP_MASK : Z := 0xf0.
Definition EBPF_CLS_LD : Z := 0x00.
Definition EBPF_CLS_LDX : Z := 0x01.
Definition EBPF_CLS_ST : Z := 0x02.
Definition EBPF_CLS_STX : Z := 0x03.
Definition EBPF_CLS_ALU : Z := 0x04.
Definition EBPF_CLS_JMP : Z := 0x05.
Definition EBPF_CLS_JMP32 : Z := 0x06.
Definition EBPF_CLS_ALU64 : Z := 0x07.
Definition EBPF_SRC_IMM : Z := 0x00.
Definition EBPF_SRC_REG : Z := 0x08.
Definition EBPF_SIZE_W : Z := 0x00.
Definition EBPF_SIZE_H : Z := 0x08.
Definition EBPF_SIZE_B : Z := 0x10.
Definition EBPF_SIZE_DW : Z := 0x18.
Definition EBPF_MODE_ATOMIC : Z := 0xc0.
Definition EBPF_ATOMIC_OP_FETCH : Z := 0x01.
Definition EBPF_ATOMIC_OP_XCHG : Z := (0xe0 .| EBPF_ATOMIC_OP_FETCH).
Definition EBPF_ATOMIC_OP_CMPXCHG : Z := (0xf0 .| EBPF_ATOMIC_OP_FETCH).
Definition EBPF_MODE_IMM : Z := 0x00.
Definition EBPF_MODE_MEM : Z := 0x60.
Definition EBPF_MODE_MEMSX : Z := 0x80.
Definition EBPF_ALU_OP_ADD : Z := 0x00.
Definition EBPF_ALU_OP_SUB : Z := 0x10.
Definition EBPF_ALU_OP_MUL : Z := 0x20.
Definition EBPF_ALU_OP_DIV : Z := 0x30.
Definition EBPF_ALU_OP_OR : Z := 0x40.
Definition EBPF_ALU_OP_AND : Z := 0x50.
Definition EBPF_ALU_OP_LSH : Z := 0x60.
Definition EBPF_ALU_OP_RSH : Z := 0x70.
Definition EBPF_ALU_OP_NEG : Z := 0x80.
Definition EBPF_ALU_OP_MOD : Z := 0x90.
Definition EBPF_ALU_OP_XOR : Z := 0xa0.
Definition EBPF_ALU_OP_MOV : Z := 0xb0.
Definition EBPF_ALU_OP_ARSH : Z := 0xc0.
Definition EBPF_ALU_OP_END : Z := 0xd0.
Definition EBPF_MODE_JA : Z := 0x00.
Definition EBPF_MODE_JEQ : Z := 0x10.
Definition EBPF_MODE_JGT : Z := 0x20.
Definition EBPF_MODE_JGE : Z := 0x30.
Definition EBPF_MODE_JSET : Z := 0x40.
Definition EBPF_MODE_JNE : Z := 0x50.
Definition EBPF_MODE_JSGT : Z := 0x60.
Definition EBPF_MODE_JSGE : Z := 0x70.
Definition EBPF_MODE_CALL : Z := 0x80.
Definition EBPF_MODE_EXIT : Z := 0x90.
Definition EBPF_MODE_JLT : Z := 0xa0.
Definition EBPF_MODE_JLE : Z := 0xb0.
Definition EBPF_MODE_JSLT : Z := 0xc0.
Definition EBPF_MODE_JSLE : Z := 0xd0.

Definition BPF_REG_0 : Z := 0.
Definition BPF_REG_1 : Z := 1.
Definition BPF_REG_2 : Z := 2.
Definition BPF_REG_3 : Z := 3.
Definition BPF_REG_4 : Z := 4.
Definition BPF_REG_5 : Z := 5.
Definition BPF_REG_6 : Z := 6.
Definition BPF_REG_7 : Z := 7.
Definition BPF_REG_8 : Z := 8.
Definition BPF_REG_9 : Z := 9.
Definition BPF_REG_10 : Z := 10.

(** ** Instructions *)

Record ebpf_inst : Type := Inst {
  opcode : Z;  (* uint8_t *)
  dst : Z;     (* 4 bits *)
  src : Z;     (* 4 bits *)
  offset : Z;  (* int16_t *)
  imm : Z;     (* int32_t *)
}.

(** The field widths of [struct ebpf_inst]. *)
Definition inst_ok (i : ebpf_inst) : Prop :=
  unsigned_fits 8 i.(opcode) /\ unsigned_fits 4 i.(dst) /\ unsigned_fits 4 i.(src) /\
  signed_fits 16 i.(offset) /\ signed_fits 32 i.(imm).

(** The opcodes of ebpf.h, one constructor per [EBPF_OP_*] macro. *)
Inductive ebpf_op : Type :=
| EBPF_OP_ADD_IMM
| EBPF_OP_ADD_REG
| EBPF_OP_SUB_IMM
| EBPF_OP_SUB_REG
| EBPF_OP_MUL_IMM
| EBPF_OP_MUL_REG
| EBPF_OP_DIV_IMM
| EBPF_OP_DIV_REG
| EBPF_OP_OR_IMM
| EBPF_OP_OR_REG
| EBPF_OP_AND_IMM
| EBPF_OP_AND_REG
| EBPF_OP_LSH_IMM
| EBPF_OP_LSH_REG
| EBPF_OP_RSH_IMM
| EBPF_OP_RSH_REG
| EBPF_OP_NEG
| EBPF_OP_MOD_IMM
| EBPF_OP_MOD_REG
| EBPF_OP_XOR_IMM
| EBPF_OP_XOR_REG
| EBPF_OP_MOV_IMM
| EBPF_OP_MOV_REG
| EBPF_OP_ARSH_IMM
| EBPF_OP_ARSH_REG
| EBPF_OP_LE
| EBPF_OP_BE
| EBPF_OP_ADD64_IMM
| EBPF_OP_ADD64_REG
| EBPF_OP_SUB64_IMM
| EBPF_OP_SUB64_REG
| EBPF_OP_MUL64_IMM
| EBPF_OP_MUL64_REG
| EBPF_OP_DIV64_IMM
| EBPF_OP_DIV64_REG
| EBPF_OP_OR64_IMM
| EBPF_OP_OR64_REG
| EBPF_OP_AND64_IMM
| EBPF_OP_AND64_REG
| EBPF_OP_LSH64_IMM
| EBPF_OP_LSH64_REG
| EBPF_OP_RSH64_IMM
| EBPF_OP_RSH64_REG
| EBPF_OP_NEG64
| EBPF_OP_MOD64_IMM
| EBPF_OP_MOD64_REG
| EBPF_OP_XOR64_IMM
| EBPF_OP_XOR64_REG
| EBPF_OP_MOV64_IMM
| EBPF_OP_MOV64_REG
| EBPF_OP_ARSH64_IMM
| EBPF_OP_ARSH64_REG
| EBPF_OP_BSWAP
| EBPF_OP_LDXW
| EBPF_OP_LDXH
| EBPF_OP_LDXB
| EBPF_OP_LDXDW
| EBPF_OP_LDXWSX
| EBPF_OP_LDXHSX
| EBPF_OP_LDXBSX
| EBPF_OP_STW
| EBPF_OP_STH
| EBPF_OP_STB
| EBPF_OP_STDW
| EBPF_OP_STXW
| EBPF_OP_STXH
| EBPF_OP_STXB
| EBPF_OP_STXDW
| EBPF_OP_LDDW
| EBPF_OP_JA
| EBPF_OP_JEQ_IMM
| EBPF_OP_JEQ_REG
| EBPF_OP_JGT_IMM
| EBPF_OP_JGT_REG
| EBPF_OP_JGE_IMM
| EBPF_OP_JGE_REG
| EBPF_OP_JSET_REG
| EBPF_OP_JSET_IMM
| EBPF_OP_JNE_IMM
| EBPF_OP_JNE_REG
| EBPF_OP_JSGT_IMM
| EBPF_OP_JSGT_REG
| EBPF_OP_JSGE_IMM
| EBPF_OP_JSGE_REG
| EBPF_OP_CALL
| EBPF_OP_EXIT
| EBPF_OP_JLT_IMM
| EBPF_OP_JLT_REG
| EBPF_OP_JLE_IMM
| EBPF_OP_JLE_REG
| EBPF_OP_JSLT_IMM
| EBPF_OP_JSLT_REG
| EBPF_OP_JSLE_IMM
| EBPF_OP_JSLE_REG
| EBPF_OP_JA32
| EBPF_OP_JEQ32_IMM
| EBPF_OP_JEQ32_REG
| EBPF_OP_JGT32_IMM
| EBPF_OP_JGT32_REG
| EBPF_OP_JGE32_IMM
| EBPF_OP_JGE32_REG
| EBPF_OP_JSET32_REG
| EBPF_OP_JSET32_IMM
| EBPF_OP_JNE32_IMM
| EBPF_OP_JNE32_REG
| EBPF_OP_JSGT32_IMM
| EBPF_OP_JSGT32_REG
| EBPF_OP_JSGE32_IMM
| EBPF_OP_JSGE32_REG
| EBPF_OP_JLT32_IMM
| EBPF_OP_JLT32_REG
| EBPF_OP_JLE32_IMM
| EBPF_OP_JLE32_REG
| EBPF_OP_JSLT32_IMM
| EBPF_OP_JSLT32_REG
| EBPF_OP_JSLE32_IMM
| EBPF_OP_JSLE32_REG
| EBPF_OP_ATOMIC32_STORE
| EBPF_OP_ATOMIC_STORE.

(** The value of each macro. *)
Definition opcode_of (o : ebpf_op) : Z :=
  match o with
  | EBPF_OP_ADD_IMM => EBPF_CLS_ALU .| EBPF_SRC_IMM .| EBPF_ALU_OP_ADD
  | EBPF_OP_ADD_REG => EBPF_CLS_ALU .| EBPF_SRC_REG .| EBPF_ALU_OP_ADD
  | EBPF_OP_SUB_IMM => EBPF_CLS_ALU .| EBPF_SRC_IMM .| EBPF_ALU_OP_SUB
  | EBPF_OP_SUB_REG => EBPF_CLS_ALU .| EBPF_SRC_REG .| EBPF_ALU_OP_SUB
  | EBPF_OP_MUL_IMM => EBPF_CLS_ALU .| EBPF_SRC_IMM .| EBPF_ALU_OP_MUL
  | EBPF_OP_MUL_REG => EBPF_CLS_ALU .| EBPF_SRC_REG .| EBPF_ALU_OP_MUL
  | EBPF_OP_DIV_IMM => EBPF_CLS_ALU .| EBPF_SRC_IMM .| EBPF_ALU_OP_DIV
  | EBPF_OP_DIV_REG => EBPF_CLS_ALU .| EBPF_SRC_REG .| EBPF_ALU_OP_DIV
  | EBPF_OP_OR_IMM => EBPF_CLS_ALU .| EBPF_SRC_IMM .| EBPF_ALU_OP_OR
  | EBPF_OP_OR_REG => EBPF_CLS_ALU .| EBPF_SRC_REG .| EBPF_ALU_OP_OR
  | EBPF_OP_AND_IMM => EBPF_CLS_ALU .| EBPF_SRC_IMM .| EBPF_ALU_OP_AND
  | EBPF_OP_AND_REG => EBPF_CLS_ALU .| EBPF_SRC_REG .| EBPF_ALU_OP_AND
  | EBPF_OP_LSH_IMM => EBPF_CLS_ALU .| EBPF_SRC_IMM .| EBPF_ALU_OP_LSH
  | EBPF_OP_LSH_REG => EBPF_CLS_ALU .| EBPF_SRC_REG .| EBPF_ALU_OP_LSH
  | EBPF_OP_RSH_IMM => EBPF_CLS_ALU .| EBPF_SRC_IMM .| EBPF_ALU_OP_RSH
  | EBPF_OP_RSH_REG => EBPF_CLS_ALU .| EBPF_SRC_REG .| EBPF_ALU_OP_RSH
  | EBPF_OP_NEG => EBPF_CLS_ALU .| EBPF_ALU_OP_NEG
  | EBPF_OP_MOD_IMM => EBPF_CLS_ALU .| EBPF_SRC_IMM .| EBPF_ALU_OP_MOD
  | EBPF_OP_MOD_REG => EBPF_CLS_ALU .| EBPF_SRC_REG .| EBPF_ALU_OP_MOD
  | EBPF_OP_XOR_IMM => EBPF_CLS_ALU .| EBPF_SRC_IMM .| EBPF_ALU_OP_XOR
  | EBPF_OP_XOR_REG => EBPF_CLS_ALU .| EBPF_SRC_REG .| EBPF_ALU_OP_XOR
  | EBPF_OP_MOV_IMM => EBPF_CLS_ALU .| EBPF_SRC_IMM .| EBPF_ALU_OP_MOV
  | EBPF_OP_MOV_REG => EBPF_CLS_ALU .| EBPF_SRC_REG .| EBPF_ALU_OP_MOV
  | EBPF_OP_ARSH_IMM => EBPF_CLS_ALU .| EBPF_SRC_IMM .| EBPF_ALU_OP_ARSH
  | EBPF_OP_ARSH_REG => EBPF_CLS_ALU .| EBPF_SRC_REG .| EBPF_ALU_OP_ARSH
  | EBPF_OP_LE => EBPF_CLS_ALU .| EBPF_SRC_IMM .| EBPF_ALU_OP_END
  | EBPF_OP_BE => EBPF_CLS_ALU .| EBPF_SRC_REG .| EBPF_ALU_OP_END
  | EBPF_OP_ADD64_IMM => EBPF_CLS_ALU64 .| EBPF_SRC_IMM .| EBPF_ALU_OP_ADD
  | EBPF_OP_ADD64_REG => EBPF_CLS_ALU64 .| EBPF_SRC_REG .| EBPF_ALU_OP_ADD
  | EBPF_OP_SUB64_IMM => EBPF_CLS_ALU64 .| EBPF_SRC_IMM .| EBPF_ALU_OP_SUB
  | EBPF_OP_SUB64_REG => EBPF_CLS_ALU64 .| EBPF_SRC_REG .| EBPF_ALU_OP_SUB
  | EBPF_OP_MUL64_IMM => EBPF_CLS_ALU64 .| EBPF_SRC_IMM .| EBPF_ALU_OP_MUL
  | EBPF_OP_MUL64_REG => EBPF_CLS_ALU64 .| EBPF_SRC_REG .| EBPF_ALU_OP_MUL
  | EBPF_OP_DIV64_IMM => EBPF_CLS_ALU64 .| EBPF_SRC_IMM .| EBPF_ALU_OP_DIV
  | EBPF_OP_DIV64_REG => EBPF_CLS_ALU64 .| EBPF_SRC_REG .| EBPF_ALU_OP_DIV
  | EBPF_OP_OR64_IMM => EBPF_CLS_ALU64 .| EBPF_SRC_IMM .| EBPF_ALU_OP_OR
  | EBPF_OP_OR64_REG => EBPF_CLS_ALU64 .| EBPF_SRC_REG .| EBPF_ALU_OP_OR
  | EBPF_OP_AND64_IMM => EBPF_CLS_ALU64 .| EBPF_SRC_IMM .| EBPF_ALU_OP_AND
  | EBPF_OP_AND64_REG => EBPF_CLS_ALU64 .| EBPF_SRC_REG .| EBPF_ALU_OP_AND
  | EBPF_OP_LSH64_IMM => EBPF_CLS_ALU64 .| EBPF_SRC_IMM .| EBPF_ALU_OP_LSH
  | EBPF_OP_LSH64_REG => EBPF_CLS_ALU64 .| EBPF_SRC_REG .| EBPF_ALU_OP_LSH
  | EBPF_OP_RSH64_IMM => EBPF_CLS_ALU64 .| EBPF_SRC_IMM .| EBPF_ALU_OP_RSH
  | EBPF_OP_RSH64_REG => EBPF_CLS_ALU64 .| EBPF_SRC_REG .| EBPF_ALU_OP_RSH
  | EBPF_OP_NEG64 => EBPF_CLS_ALU64 .| EBPF_ALU_OP_NEG
  | EBPF_OP_MOD64_IMM => EBPF_CLS_ALU64 .| EBPF_SRC_IMM .| EBPF_ALU_OP_MOD
  | EBPF_OP_MOD64_REG => EBPF_CLS_ALU64 .| EBPF_SRC_REG .| EBPF_ALU_OP_MOD
  | EBPF_OP_XOR64_IMM => EBPF_CLS_ALU64 .| EBPF_SRC_IMM .| EBPF_ALU_OP_XOR
  | EBPF_OP_XOR64_REG => EBPF_CLS_ALU64 .| EBPF_SRC_REG .| EBPF_ALU_OP_XOR
  | EBPF_OP_MOV64_IMM => EBPF_CLS_ALU64 .| EBPF_SRC_IMM .| EBPF_ALU_OP_MOV
  | EBPF_OP_MOV64_REG => EBPF_CLS_ALU64 .| EBPF_SRC_REG .| EBPF_ALU_OP_MOV
  | EBPF_OP_ARSH64_IMM => EBPF_CLS_ALU64 .| EBPF_SRC_IMM .| EBPF_ALU_OP_ARSH
  | EBPF_OP_ARSH64_REG => EBPF_CLS_ALU64 .| EBPF_SRC_REG .| EBPF_ALU_OP_ARSH
  | EBPF_OP_BSWAP => EBPF_CLS_ALU64 .| EBPF_SRC_IMM .| EBPF_ALU_OP_END
  | EBPF_OP_LDXW => EBPF_CLS_LDX .| EBPF_MODE_MEM .| EBPF_SIZE_W
  | EBPF_OP_LDXH => EBPF_CLS_LDX .| EBPF_MODE_MEM .| EBPF_SIZE_H
  | EBPF_OP_LDXB => EBPF_CLS_LDX .| EBPF_MODE_MEM .| EBPF_SIZE_B
  | EBPF_OP_LDXDW => EBPF_CLS_LDX .| EBPF_MODE_MEM .| EBPF_SIZE_DW
  | EBPF_OP_LDXWSX => EBPF_CLS_LDX .| EBPF_MODE_MEMSX .| EBPF_SIZE_W
  | EBPF_OP_LDXHSX => EBPF_CLS_LDX .| EBPF_MODE_MEMSX .| EBPF_SIZE_H
  | EBPF_OP_LDXBSX => EBPF_CLS_LDX .| EBPF_MODE_MEMSX .| EBPF_SIZE_B
  | EBPF_OP_STW => EBPF_CLS_ST .| EBPF_MODE_MEM .| EBPF_SIZE_W
  | EBPF_OP_STH => EBPF_CLS_ST .| EBPF_MODE_MEM .| EBPF_SIZE_H
  | EBPF_OP_STB => EBPF_CLS_ST .| EBPF_MODE_MEM .| EBPF_SIZE_B
  | EBPF_OP_STDW => EBPF_CLS_ST .| EBPF_MODE_MEM .| EBPF_SIZE_DW
  | EBPF_OP_STXW => EBPF_CLS_STX .| EBPF_MODE_MEM .| EBPF_SIZE_W
  | EBPF_OP_STXH => EBPF_CLS_STX .| EBPF_MODE_MEM .| EBPF_SIZE_H
  | EBPF_OP_STXB => EBPF_CLS_STX .| EBPF_MODE_MEM .| EBPF_SIZE_B
  | EBPF_OP_STXDW => EBPF_CLS_STX .| EBPF_MODE_MEM .| EBPF_SIZE_DW
  | EBPF_OP_LDDW => EBPF_CLS_LD .| EBPF_MODE_IMM .| EBPF_SIZE_DW
  | EBPF_OP_JA => EBPF_CLS_JMP .| EBPF_MODE_JA
  | EBPF_OP_JEQ_IMM => EBPF_CLS_JMP .| EBPF_SRC_IMM .| EBPF_MODE_JEQ
  | EBPF_OP_JEQ_REG => EBPF_CLS_JMP .| EBPF_SRC_REG .| EBPF_MODE_JEQ
  | EBPF_OP_JGT_IMM => EBPF_CLS_JMP .| EBPF_SRC_IMM .| EBPF_MODE_JGT
  | EBPF_OP_JGT_REG => EBPF_CLS_JMP .| EBPF_SRC_REG .| EBPF_MODE_JGT
  | EBPF_OP_JGE_IMM => EBPF_CLS_JMP .| EBPF_SRC_IMM .| EBPF_MODE_JGE
  | EBPF_OP_JGE_REG => EBPF_CLS_JMP .| EBPF_SRC_REG .| EBPF_MODE_JGE
  | EBPF_OP_JSET_REG => EBPF_CLS_JMP .| EBPF_SRC_REG .| EBPF_MODE_JSET
  | EBPF_OP_JSET_IMM => EBPF_CLS_JMP .| EBPF_SRC_IMM .| EBPF_MODE_JSET
  | EBPF_OP_JNE_IMM => EBPF_CLS_JMP .| EBPF_SRC_IMM .| EBPF_MODE_JNE
  | EBPF_OP_JNE_REG => EBPF_CLS_JMP .| EBPF_SRC_REG .| EBPF_MODE_JNE
  | EBPF_OP_JSGT_IMM => EBPF_CLS_JMP .| EBPF_SRC_IMM .| EBPF_MODE_JSGT
  | EBPF_OP_JSGT_REG => EBPF_CLS_JMP .| EBPF_SRC_REG .| EBPF_MODE_JSGT
  | EBPF_OP_JSGE_IMM => EBPF_CLS_JMP .| EBPF_SRC_IMM .| EBPF_MODE_JSGE
  | EBPF_OP_JSGE_REG => EBPF_CLS_JMP .| EBPF_SRC_REG .| EBPF_MODE_JSGE
  | EBPF_OP_CALL => EBPF_CLS_JMP .| EBPF_MODE_CALL
  | EBPF_OP_EXIT => EBPF_CLS_JMP .| EBPF_MODE_EXIT
  | EBPF_OP_JLT_IMM => EBPF_CLS_JMP .| EBPF_SRC_IMM .| EBPF_MODE_JLT
  | EBPF_OP_JLT_REG => EBPF_CLS_JMP .| EBPF_SRC_REG .| EBPF_MODE_JLT
  | EBPF_OP_JLE_IMM => EBPF_CLS_JMP .| EBPF_SRC_IMM .| EBPF_MODE_JLE
  | EBPF_OP_JLE_REG => EBPF_CLS_JMP .| EBPF_SRC_REG .| EBPF_MODE_JLE
  | EBPF_OP_JSLT_IMM => EBPF_CLS_JMP .| EBPF_SRC_IMM .| EBPF_MODE_JSLT
  | EBPF_OP_JSLT_REG => EBPF_CLS_JMP .| EBPF_SRC_REG .| EBPF_MODE_JSLT
  | EBPF_OP_JSLE_IMM => EBPF_CLS_JMP .| EBPF_SRC_IMM .| EBPF_MODE_JSLE
  | EBPF_OP_JSLE_REG => EBPF_CLS_JMP .| EBPF_SRC_REG .| EBPF_MODE_JSLE
  | EBPF_OP_JA32 => EBPF_CLS_JMP32 .| EBPF_MODE_JA
  | EBPF_OP_JEQ32_IMM => EBPF_CLS_JMP32 .| EBPF_SRC_IMM .| EBPF_MODE_JEQ
  | EBPF_OP_JEQ32_REG => EBPF_CLS_JMP32 .| EBPF_SRC_REG .| EBPF_MODE_JEQ
  | EBPF_OP_JGT32_IMM => EBPF_CLS_JMP32 .| EBPF_SRC_IMM .| EBPF_MODE_JGT
  | EBPF_OP_JGT32_REG => EBPF_CLS_JMP32 .| EBPF_SRC_REG .| EBPF_MODE_JGT
  | EBPF_OP_JGE32_IMM => EBPF_CLS_JMP32 .| EBPF_SRC_IMM .| EBPF_MODE_JGE
  | EBPF_OP_JGE32_REG => EBPF_CLS_JMP32 .| EBPF_SRC_REG .| EBPF_MODE_JGE
  | EBPF_OP_JSET32_REG => EBPF_CLS_JMP32 .| EBPF_SRC_REG .| EBPF_MODE_JSET
  | EBPF_OP_JSET32_IMM => EBPF_CLS_JMP32 .| EBPF_SRC_IMM .| EBPF_MODE_JSET
  | EBPF_OP_JNE32_IMM => EBPF_CLS_JMP32 .| EBPF_SRC_IMM .| EBPF_MODE_JNE
  | EBPF_OP_JNE32_REG => EBPF_CLS_JMP32 .| EBPF_SRC_REG .| EBPF_MODE_JNE
  | EBPF_OP_JSGT32_IMM => EBPF_CLS_JMP32 .| EBPF_SRC_IMM .| EBPF_MODE_JSGT
  | EBPF_OP_JSGT32_REG => EBPF_CLS_JMP32 .| EBPF_SRC_REG .| EBPF_MODE_JSGT
  | EBPF_OP_JSGE32_IMM => EBPF_CLS_JMP32 .| EBPF_SRC_IMM .| EBPF_MODE_JSGE
  | EBPF_OP_JSGE32_REG => EBPF_CLS_JMP32 .| EBPF_SRC_REG .| EBPF_MODE_JSGE
  | EBPF_OP_JLT32_IMM => EBPF_CLS_JMP32 .| EBPF_SRC_IMM .| EBPF_MODE_JLT
  | EBPF_OP_JLT32_REG => EBPF_CLS_JMP32 .| EBPF_SRC_REG .| EBPF_MODE_JLT
  | EBPF_OP_JLE32_IMM => EBPF_CLS_JMP32 .| EBPF_SRC_IMM .| EBPF_MODE_JLE
  | EBPF_OP_JLE32_REG => EBPF_CLS_JMP32 .| EBPF_SRC_REG .| EBPF_MODE_JLE
  | EBPF_OP_JSLT32_IMM => EBPF_CLS_JMP32 .| EBPF_SRC_IMM .| EBPF_MODE_JSLT
  | EBPF_OP_JSLT32_REG => EBPF_CLS_JMP32 .| EBPF_SRC_REG .| EBPF_MODE_JSLT
  | EBPF_OP_JSLE32_IMM => EBPF_CLS_JMP32 .| EBPF_SRC_IMM .| EBPF_MODE_JSLE
  | EBPF_OP_JSLE32_REG => EBPF_CLS_JMP32 .| EBPF_SRC_REG .| EBPF_MODE_JSLE
  | EBPF_OP_ATOMIC32_STORE => EBPF_CLS_STX .| EBPF_MODE_ATOMIC .| EBPF_SIZE_W
  | EBPF_OP_ATOMIC_STORE => EBPF_CLS_STX .| EBPF_MODE_ATOMIC .| EBPF_SIZE_DW
  end.

Definition all_ops : list ebpf_op :=
  [ EBPF_OP_ADD_IMM;
    EBPF_OP_ADD_REG;
    EBPF_OP_SUB_IMM;
    EBPF_OP_SUB_REG;
    EBPF_OP_MUL_IMM;
    EBPF_OP_MUL_REG;
    EBPF_OP_DIV_IMM;
    EBPF_OP_DIV_REG;
    EBPF_OP_OR_IMM;
    EBPF_OP_OR_REG;
    EBPF_OP_AND_IMM;
    EBPF_OP_AND_REG;
    EBPF_OP_LSH_IMM;
    EBPF_OP_LSH_REG;
    EBPF_OP_RSH_IMM;
    EBPF_OP_RSH_REG;
    EBPF_OP_NEG;
    EBPF_OP_MOD_IMM;
    EBPF_OP_MOD_REG;
    EBPF_OP_XOR_IMM;
    EBPF_OP_XOR_REG;
    EBPF_OP_MOV_IMM;
    EBPF_OP_MOV_REG;
    EBPF_OP_ARSH_IMM;
    EBPF_OP_ARSH_REG;
    EBPF_OP_LE;
    EBPF_OP_BE;
    EBPF_OP_ADD64_IMM;
    EBPF_OP_ADD64_REG;
    EBPF_OP_SUB64_IMM;
    EBPF_OP_SUB64_REG;
    EBPF_OP_MUL64_IMM;
    EBPF_OP_MUL64_REG;
    EBPF_OP_DIV64_IMM;
    EBPF_OP_DIV64_REG;
    EBPF_OP_OR64_IMM;
    EBPF_OP_OR64_REG;
    EBPF_OP_AND64_IMM;
    EBPF_OP_AND64_REG;
    EBPF_OP_LSH64_IMM;
    EBPF_OP_LSH64_REG;
    EBPF_OP_RSH64_IMM;
    EBPF_OP_RSH64_REG;
    EBPF_OP_NEG64;
    EBPF_OP_MOD64_IMM;
    EBPF_OP_MOD64_REG;
    EBPF_OP_XOR64_IMM;
    EBPF_OP_XOR64_REG;
    EBPF_OP_MOV64_IMM;
    EBPF_OP_MOV64_REG;
    EBPF_OP_ARSH64_IMM;
    EBPF_OP_ARSH64_REG;
    EBPF_OP_BSWAP;
    EBPF_OP_LDXW;
    EBPF_OP_LDXH;
    EBPF_OP_LDXB;
    EBPF_OP_LDXDW;
    EBPF_OP_LDXWSX;
    EBPF_OP_LDXHSX;
    EBPF_OP_LDXBSX;
    EBPF_OP_STW;
    EBPF_OP_STH;
    EBPF_OP_STB;
    EBPF_OP_STDW;
    EBPF_OP_STXW;
    EBPF_OP_STXH;
    EBPF_OP_STXB;
    EBPF_OP_STXDW;
    EBPF_OP_LDDW;
    EBPF_OP_JA;
    EBPF_OP_JEQ_IMM;
    EBPF_OP_JEQ_REG;
    EBPF_OP_JGT_IMM;
    EBPF_OP_JGT_REG;
    EBPF_OP_JGE_IMM;
    EBPF_OP_JGE_REG;
    EBPF_OP_JSET_REG;
    EBPF_OP_JSET_IMM;
    EBPF_OP_JNE_IMM;
    EBPF_OP_JNE_REG;
    EBPF_OP_JSGT_IMM;
    EBPF_OP_JSGT_REG;
    EBPF_OP_JSGE_IMM;
    EBPF_OP_JSGE_REG;
    EBPF_OP_CALL;
    EBPF_OP_EXIT;
    EBPF_OP_JLT_IMM;
    EBPF_OP_JLT_REG;
    EBPF_OP_JLE_IMM;
    EBPF_OP_JLE_REG;
    EBPF_OP_JSLT_IMM;
    EBPF_OP_JSLT_REG;
    EBPF_OP_JSLE_IMM;
    EBPF_OP_JSLE_REG;
    EBPF_OP_JA32;
    EBPF_OP_JEQ32_IMM;
    EBPF_OP_JEQ32_REG;
    EBPF_OP_JGT32_IMM;
    EBPF_OP_JGT32_REG;
    EBPF_OP_JGE32_IMM;
    EBPF_OP_JGE32_REG;
    EBPF_OP_JSET32_REG;
    EBPF_OP_JSET32_IMM;
    EBPF_OP_JNE32_IMM;
    EBPF_OP_JNE32_REG;
    EBPF_OP_JSGT32_IMM;
    EBPF_OP_JSGT32_REG;
    EBPF_OP_JSGE32_IMM;
    EBPF_OP_JSGE32_REG;
    EBPF_OP_JLT32_IMM;
    EBPF_OP_JLT32_REG;
    EBPF_OP_JLE32_IMM;
    EBPF_OP_JLE32_REG;
    EBPF_OP_JSLT32_IMM;
    EBPF_OP_JSLT32_REG;
    EBPF_OP_JSLE32_IMM;
    EBPF_OP_JSLE32_REG;
    EBPF_OP_ATOMIC32_STORE;
    EBPF_OP_ATOMIC_STORE ].

(** [switch (inst.opcode)]: the label an opcode byte selects, [None] for [default]. *)
Definition switch_op (c : Z) : option ebpf_op :=
  List.find (fun o => opcode_of o =? c) all_ops.
(** ** Encoding

    [union { uint64_t value; struct ebpf_inst inst; }] on a little-endian host. *)

Definition u64_of_inst (i : ebpf_inst) : Z :=
  i.(opcode) + 2 ^ 8 * i.(dst) + 2 ^ 12 * i.(src) + 2 ^ 16 * u16 i.(offset) + 2 ^ 32 * u32 i.(imm).

Definition inst_of_u64 (v : Z) : ebpf_inst :=
  Inst (v mod 2 ^ 8) (v / 2 ^ 8 mod 2 ^ 4) (v / 2 ^ 12 mod 2 ^ 4)
       (s16 (v / 2 ^ 16)) (s32 (v / 2 ^ 32)).

(** [const struct ebpf_inst* source_inst = code]: the byte buffer read as an
    array of instructions; a tail shorter than 8 bytes is not an instruction. *)
Fixpoint insts_of_bytes (code : list Z) : list ebpf_inst :=
  match code with
  | b0 :: b1 :: b2 :: b3 :: b4 :: b5 :: b6 :: b7 :: rest =>
      inst_of_u64 (le_decode [b0; b1; b2; b3; b4; b5; b6; b7]) :: insts_of_bytes rest
  | _ => []
  end.

Definition bytes_of_insts (prog : list ebpf_inst) : list Z :=
  concat (map (fun i => le_encode 8 (u64_of_inst i)) prog).

(** ** Decoding lemmas *)

Lemma switch_op_sound c o : switch_op c = Some o -> opcode_of o = c.
Proof. intros H. apply List.find_some in H as [_ H]. by apply Z.eqb_eq. Qed.

Lemma switch_op_complete o : switch_op (opcode_of o) = Some o.
Proof. destruct o; vm_compute; reflexivity. Qed.

Lemma opcode_of_inj o1 o2 : opcode_of o1 = opcode_of o2 -> o1 = o2.
Proof.
  intros H. pose proof (switch_op_complete o1) as H1.
  rewrite H, switch_op_complete in H1. congruence.
Qed.

#[export] Instance ebpf_op_eq_dec : EqDecision ebpf_op.
Proof.
  refine (fun o1 o2 => match decide (opcode_of o1 = opcode_of o2) with
                       | left H => left (opcode_of_inj o1 o2 H)
                       | right H => right (fun E => H (f_equal opcode_of E))
                       end).
Defined.

#[export] Instance ebpf_inst_eq_dec : EqDecision ebpf_inst.
Proof. solve_decision. Defined.

Lemma opcode_of_range o : 0 <= opcode_of o < 256.
Proof. destruct o; vm_compute; split; congruence. Qed.

(** ** Layout lemmas *)

Lemma u64_of_inst_range i : inst_ok i -> 0 <= u64_of_inst i < 2 ^ 64.
Proof.
  unfold inst_ok, unsigned_fits, u64_of_inst. intros (H1 & H2 & H3 & _).
  pose proof (wrap_range 16 i.(offset)). pose proof (wrap_range 32 i.(imm)). lia.
Qed.

Lemma inst_of_u64_ok v : inst_ok (inst_of_u64 v).
Proof.
  unfold inst_ok, unsigned_fits, signed_fits, inst_of_u64; simpl.
  repeat split; try (apply Z.mod_pos_bound; lia); apply sext_range; lia.
Qed.

Lemma sext_of_wrap w x q : 0 < w -> signed_fits w x -> sext w (wrap w x + 2 ^ w * q) = x.
Proof.
  intros Hw Hx. rewrite <- (sext_id w x) at 2 by auto.
  rewrite <- (sext_wrap w), <- (sext_wrap w x) by lia. f_equal.
  unfold wrap. rewrite Z.mul_comm, Z.mod_add by (apply Z.pow_nonzero; lia).
  apply Z.mod_mod, Z.pow_nonzero; lia.
Qed.

Lemma inst_u64_roundtrip i : inst_ok i -> inst_of_u64 (u64_of_inst i) = i.
Proof.
  intros (H1 & H2 & H3 & H4 & H5). unfold unsigned_fits in *.
  pose proof (wrap_range 16 i.(offset) ltac:(lia)).
  pose proof (wrap_range 32 i.(imm) ltac:(lia)).
  destruct i as [op d s o im]; unfold inst_of_u64, u64_of_inst; simpl opcode in *;
    simpl dst in *; simpl src in *; simpl offset in *; simpl imm in *.
  f_equal; [Z.div_mod_to_equations; lia .. | |].
  - transitivity (s16 (u16 o + 2 ^ 16 * u32 im)); [| apply sext_of_wrap; auto; lia].
    f_equal. Z.div_mod_to_equations; lia.
  - transitivity (s32 (u32 im + 2 ^ 32 * 0)); [| apply sext_of_wrap; auto; lia].
    f_equal. Z.div_mod_to_equations; lia.
Qed.

Lemma u64_inst_roundtrip v : 0 <= v < 2 ^ 64 -> u64_of_inst (inst_of_u64 v) = v.
Proof.
  intros Hv. unfold u64_of_inst, inst_of_u64; simpl opcode; simpl dst; simpl src;
    simpl offset; simpl imm. rewrite !wrap_sext by lia. unfold wrap.
  Z.div_mod_to_equations; lia.
Qed.
