(* ===== verification/InstValid.v ===== *)
(** * InstValid: per-opcode field filters (vm/ubpf_instruction_valid.c)

    The static table [_ubpf_instruction_filter], the lookup table built from it
    on the first call, and [ubpf_is_valid_instruction].  The theorems state that
    the lookup finds exactly the table's entry for an opcode, that an accepted
    instruction is within its filter, and what that means for the registers an
    instruction can name. *)

From Stdlib Require Import ZArith Lia Bool.
From stdpp Require Import base list gmap strings numbers.
From S2P Require Import Prelude Ebpf.

Local Open Scope Z_scope.
Local Open Scope cbits_scope.

Record ubpf_inst_filter : Type := Filter {
  f_opcode : Z;
  source_lower_bound : Z;
  source_upper_bound : Z;
  destination_lower_bound : Z;
  destination_upper_bound : Z;
  offset_lower_bound : Z;
  offset_upper_bound : Z;
  immediate_lower_bound : Z;
  immediate_upper_bound : Z;
  immediate_enumerated : option (list Z);
  offset_enumerated : option (list Z);
}.

(** ** Designated initialisers: a field that is not set is zero or NULL. *)

Definition filter_of (op : Z) : ubpf_inst_filter := Filter op 0 0 0 0 0 0 0 0 None None.

Definition source (lo hi : Z) (f : ubpf_inst_filter) : ubpf_inst_filter :=
  let '(Filter op _ _ dl dh ol oh il ih ie oe) := f in Filter op lo hi dl dh ol oh il ih ie oe.

Definition destination (lo hi : Z) (f : ubpf_inst_filter) : ubpf_inst_filter :=
  let '(Filter op sl sh _ _ ol oh il ih ie oe) := f in Filter op sl sh lo hi ol oh il ih ie oe.

Definition offsets (lo hi : Z) (f : ubpf_inst_filter) : ubpf_inst_filter :=
  let '(Filter op sl sh dl dh _ _ il ih ie oe) := f in Filter op sl sh dl dh lo hi il ih ie oe.

Definition immediate (lo hi : Z) (f : ubpf_inst_filter) : ubpf_inst_filter :=
  let '(Filter op sl sh dl dh ol oh _ _ ie oe) := f in Filter op sl sh dl dh ol oh lo hi ie oe.

(** An enumeration is a pointer and a length: its first [len] entries. *)
Definition immediates_in (vs : list Z) (len : nat) (f : ubpf_inst_filter) : ubpf_inst_filter :=
  let '(Filter op sl sh dl dh ol oh il ih _ oe) := f in
  Filter op sl sh dl dh ol oh il ih (Some (take len vs)) oe.

Definition offsets_in (vs : list Z) (len : nat) (f : ubpf_inst_filter) : ubpf_inst_filter :=
  let '(Filter op sl sh dl dh ol oh il ih ie _) := f in
  Filter op sl sh dl dh ol oh il ih ie (Some (take len vs)).

Local Notation "f |> g" := (g f) (at level 61, left associativity).

(** ** The table *)

Definition ebpf_atomic_store_immediate_enumerated : list Z :=
  [ EBPF_ALU_OP_ADD;
    EBPF_ALU_OP_ADD .| EBPF_ATOMIC_OP_FETCH;
    EBPF_ALU_OP_OR;
    EBPF_ALU_OP_OR .| EBPF_ATOMIC_OP_FETCH;
    EBPF_ALU_OP_AND;
    EBPF_ALU_OP_AND .| EBPF_ATOMIC_OP_FETCH;
    EBPF_ALU_OP_XOR;
    EBPF_ALU_OP_XOR .| EBPF_ATOMIC_OP_FETCH;
    EBPF_ATOMIC_OP_XCHG .| EBPF_ATOMIC_OP_FETCH;
    EBPF_ATOMIC_OP_CMPXCHG .| EBPF_ATOMIC_OP_FETCH ].

Definition ebpf_movsx_alu_offset_enumerated : list Z := [0; 8; 16].
Definition ebpf_movsx_alu64_offset_enumerated : list Z := [0; 8; 16; 32].

(** Lines 51-190: ADD .. MOD of the 32-bit class, after the second slot of LDDW. *)
Definition filters_alu32_arith : list ubpf_inst_filter :=
  [ filter_of 0 |> immediate INT32_MIN INT32_MAX;
    filter_of (opcode_of EBPF_OP_ADD_IMM) |> destination BPF_REG_0 BPF_REG_9 |> immediate INT32_MIN INT32_MAX;
    filter_of (opcode_of EBPF_OP_ADD_REG) |> destination BPF_REG_0 BPF_REG_9 |> source BPF_REG_0 BPF_REG_10;
    filter_of (opcode_of EBPF_OP_SUB_IMM) |> destination BPF_REG_0 BPF_REG_9 |> immediate INT32_MIN INT32_MAX;
    filter_of (opcode_of EBPF_OP_SUB_REG) |> destination BPF_REG_0 BPF_REG_9 |> source BPF_REG_0 BPF_REG_10;
    filter_of (opcode_of EBPF_OP_MUL_IMM) |> destination BPF_REG_0 BPF_REG_9 |> immediate INT32_MIN INT32_MAX;
    filter_of (opcode_of EBPF_OP_MUL_REG) |> destination BPF_REG_0 BPF_REG_9 |> source BPF_REG_0 BPF_REG_10;
    filter_of (opcode_of EBPF_OP_DIV_IMM) |> destination BPF_REG_0 BPF_REG_9 |> offsets 0 1 |> immediate INT32_MIN INT32_MAX;
    filter_of (opcode_of EBPF_OP_DIV_REG) |> destination BPF_REG_0 BPF_REG_9 |> source BPF_REG_0 BPF_REG_10 |> offsets 0 1;
    filter_of (opcode_of EBPF_OP_OR_IMM) |> destination BPF_REG_0 BPF_REG_9 |> immediate INT32_MIN INT32_MAX;
    filter_of (opcode_of EBPF_OP_OR_REG) |> destination BPF_REG_0 BPF_REG_9 |> source BPF_REG_0 BPF_REG_10;
    filter_of (opcode_of EBPF_OP_AND_IMM) |> destination BPF_REG_0 BPF_REG_9 |> immediate INT32_MIN INT32_MAX;
    filter_of (opcode_of EBPF_OP_AND_REG) |> destination BPF_REG_0 BPF_REG_9 |> source BPF_REG_0 BPF_REG_10;
    filter_of (opcode_of EBPF_OP_LSH_IMM) |> destination BPF_REG_0 BPF_REG_9 |> immediate INT32_MIN INT32_MAX;
    filter_of (opcode_of EBPF_OP_LSH_REG) |> destination BPF_REG_0 BPF_REG_9 |> source BPF_REG_0 BPF_REG_10;
    filter_of (opcode_of EBPF_OP_RSH_IMM) |> destination BPF_REG_0 BPF_REG_9 |> immediate INT32_MIN INT32_MAX;
    filter_of (opcode_of EBPF_OP_RSH_REG) |> destination BPF_REG_0 BPF_REG_9 |> source BPF_REG_0 BPF_REG_10;
    filter_of (opcode_of EBPF_OP_NEG) |> destination BPF_REG_0 BPF_REG_9;
    filter_of (opcode_of EBPF_OP_MOD_IMM) |> destination BPF_REG_0 BPF_REG_9 |> offsets 0 1 |> immediate INT32_MIN INT32_MAX;
    filter_of (opcode_of EBPF_OP_MOD_REG) |> destination BPF_REG_0 BPF_REG_9 |> source BPF_REG_0 BPF_REG_10 |> offsets 0 1 ].

(** Lines 191-258: XOR, MOV, ARSH and the byte swaps. *)
Definition filters_alu32_move : list ubpf_inst_filter :=
  [ filter_of (opcode_of EBPF_OP_XOR_IMM) |> destination BPF_REG_0 BPF_REG_9 |> immediate INT32_MIN INT32_MAX;
    filter_of (opcode_of EBPF_OP_XOR_REG) |> destination BPF_REG_0 BPF_REG_9 |> source BPF_REG_0 BPF_REG_10;
    filter_of (opcode_of EBPF_OP_MOV_IMM) |> destination BPF_REG_0 BPF_REG_9 |> immediate INT32_MIN INT32_MAX;
    filter_of (opcode_of EBPF_OP_MOV_REG) |> destination BPF_REG_0 BPF_REG_9 |> source BPF_REG_0 BPF_REG_10 |> offsets_in ebpf_movsx_alu_offset_enumerated 3;
    filter_of (opcode_of EBPF_OP_ARSH_IMM) |> destination BPF_REG_0 BPF_REG_9 |> immediate INT32_MIN INT32_MAX;
    filter_of (opcode_of EBPF_OP_ARSH_REG) |> destination BPF_REG_0 BPF_REG_9 |> source BPF_REG_0 BPF_REG_10;
    filter_of (opcode_of EBPF_OP_LE) |> destination BPF_REG_0 BPF_REG_9 |> immediate 0 64;
    filter_of (opcode_of EBPF_OP_BE) |> destination BPF_REG_0 BPF_REG_9 |> immediate 0 64;
    filter_of (opcode_of EBPF_OP_BSWAP) |> destination BPF_REG_0 BPF_REG_9 |> immediate 0 64 ].

(** Lines 259-407: ADD64 .. XOR64. *)
Definition filters_alu64_arith : list ubpf_inst_filter :=
  [ filter_of (opcode_of EBPF_OP_ADD64_IMM) |> destination BPF_REG_0 BPF_REG_9 |> immediate INT32_MIN INT32_MAX;
    filter_of (opcode_of EBPF_OP_ADD64_REG) |> destination BPF_REG_0 BPF_REG_9 |> source BPF_REG_0 BPF_REG_10;
    filter_of (opcode_of EBPF_OP_SUB64_IMM) |> destination BPF_REG_0 BPF_REG_9 |> immediate INT32_MIN INT32_MAX;
    filter_of (opcode_of EBPF_OP_SUB64_REG) |> destination BPF_REG_0 BPF_REG_9 |> source BPF_REG_0 BPF_REG_10;
    filter_of (opcode_of EBPF_OP_MUL64_IMM) |> destination BPF_REG_0 BPF_REG_9 |> immediate INT32_MIN INT32_MAX;
    filter_of (opcode_of EBPF_OP_MUL64_REG) |> destination BPF_REG_0 BPF_REG_9 |> source BPF_REG_0 BPF_REG_10;
    filter_of (opcode_of EBPF_OP_DIV64_IMM) |> destination BPF_REG_0 BPF_REG_9 |> offsets 0 1 |> immediate INT32_MIN INT32_MAX;
    filter_of (opcode_of EBPF_OP_DIV64_REG) |> destination BPF_REG_0 BPF_REG_9 |> source BPF_REG_0 BPF_REG_10 |> offsets 0 1;
    filter_of (opcode_of EBPF_OP_OR64_IMM) |> destination BPF_REG_0 BPF_REG_9 |> immediate INT32_MIN INT32_MAX;
    filter_of (opcode_of EBPF_OP_OR64_REG) |> destination BPF_REG_0 BPF_REG_9 |> source BPF_REG_0 BPF_REG_10;
    filter_of (opcode_of EBPF_OP_AND64_IMM) |> destination BPF_REG_0 BPF_REG_9 |> immediate INT32_MIN INT32_MAX;
    filter_of (opcode_of EBPF_OP_AND64_REG) |> destination BPF_REG_0 BPF_REG_9 |> source BPF_REG_0 BPF_REG_10;
    filter_of (opcode_of EBPF_OP_LSH64_IMM) |> destination BPF_REG_0 BPF_REG_9 |> immediate INT32_MIN INT32_MAX;
    filter_of (opcode_of EBPF_OP_LSH64_REG) |> destination BPF_REG_0 BPF_REG_9 |> source BPF_REG_0 BPF_REG_10;
    filter_of (opcode_of EBPF_OP_RSH64_IMM) |> destination BPF_REG_0 BPF_REG_9 |> immediate INT32_MIN INT32_MAX;
    filter_of (opcode_of EBPF_OP_RSH64_REG) |> destination BPF_REG_0 BPF_REG_9 |> source BPF_REG_0 BPF_REG_10;
    filter_of (opcode_of EBPF_OP_NEG64) |> destination BPF_REG_0 BPF_REG_9;
    filter_of (opcode_of EBPF_OP_MOD64_IMM) |> destination BPF_REG_0 BPF_REG_9 |> offsets 0 1 |> immediate INT32_MIN INT32_MAX;
    filter_of (opcode_of EBPF_OP_MOD64_REG) |> destination BPF_REG_0 BPF_REG_9 |> source BPF_REG_0 BPF_REG_10 |> offsets 0 1;
    filter_of (opcode_of EBPF_OP_XOR64_IMM) |> destination BPF_REG_0 BPF_REG_9 |> immediate INT32_MIN INT32_MAX;
    filter_of (opcode_of EBPF_OP_XOR64_REG) |> destination BPF_REG_0 BPF_REG_9 |> source BPF_REG_0 BPF_REG_10 ].

(** Lines 408-437: MOV64 and ARSH64. *)
Definition filters_alu64_move : list ubpf_inst_filter :=
  [ filter_of (opcode_of EBPF_OP_MOV64_IMM) |> destination BPF_REG_0 BPF_REG_9 |> immediate INT32_MIN INT32_MAX;
    filter_of (opcode_of EBPF_OP_MOV64_REG) |> destination BPF_REG_0 BPF_REG_9 |> source BPF_REG_0 BPF_REG_10 |> offsets_in ebpf_movsx_alu64_offset_enumerated 4;
    filter_of (opcode_of EBPF_OP_ARSH64_IMM) |> destination BPF_REG_0 BPF_REG_9 |> immediate INT32_MIN INT32_MAX;
    filter_of (opcode_of EBPF_OP_ARSH64_REG) |> destination BPF_REG_0 BPF_REG_9 |> source BPF_REG_0 BPF_REG_10 ].

(** Lines 438-582: LDX, ST, STX and LDDW. *)
Definition filters_memory : list ubpf_inst_filter :=
  [ filter_of (opcode_of EBPF_OP_LDXW) |> destination BPF_REG_0 BPF_REG_10 |> source BPF_REG_0 BPF_REG_10 |> offsets INT16_MIN INT16_MAX;
    filter_of (opcode_of EBPF_OP_LDXH) |> destination BPF_REG_0 BPF_REG_10 |> source BPF_REG_0 BPF_REG_10 |> offsets INT16_MIN INT16_MAX;
    filter_of (opcode_of EBPF_OP_LDXB) |> destination BPF_REG_0 BPF_REG_10 |> source BPF_REG_0 BPF_REG_10 |> offsets INT16_MIN INT16_MAX;
    filter_of (opcode_of EBPF_OP_LDXDW) |> destination BPF_REG_0 BPF_REG_10 |> source BPF_REG_0 BPF_REG_10 |> offsets INT16_MIN INT16_MAX;
    filter_of (opcode_of EBPF_OP_LDXWSX) |> destination BPF_REG_0 BPF_REG_10 |> source BPF_REG_0 BPF_REG_10 |> offsets INT16_MIN INT16_MAX;
    filter_of (opcode_of EBPF_OP_LDXHSX) |> destination BPF_REG_0 BPF_REG_10 |> source BPF_REG_0 BPF_REG_10 |> offsets INT16_MIN INT16_MAX;
    filter_of (opcode_of EBPF_OP_LDXBSX) |> destination BPF_REG_0 BPF_REG_10 |> source BPF_REG_0 BPF_REG_10 |> offsets INT16_MIN INT16_MAX;
    filter_of (opcode_of EBPF_OP_STW) |> destination BPF_REG_0 BPF_REG_10 |> offsets INT16_MIN INT16_MAX |> immediate INT32_MIN INT32_MAX;
    filter_of (opcode_of EBPF_OP_STH) |> destination BPF_REG_0 BPF_REG_10 |> offsets INT16_MIN INT16_MAX |> immediate INT32_MIN INT32_MAX;
    filter_of (opcode_of EBPF_OP_STB) |> destination BPF_REG_0 BPF_REG_10 |> offsets INT16_MIN INT16_MAX |> immediate INT32_MIN INT32_MAX;
    filter_of (opcode_of EBPF_OP_STDW) |> destination BPF_REG_0 BPF_REG_10 |> offsets INT16_MIN INT16_MAX |> immediate INT32_MIN INT32_MAX;
    filter_of (opcode_of EBPF_OP_STXW) |> destination BPF_REG_0 BPF_REG_10 |> source BPF_REG_0 BPF_REG_10 |> offsets INT16_MIN INT16_MAX;
    filter_of (opcode_of EBPF_OP_STXH) |> destination BPF_REG_0 BPF_REG_10 |> source BPF_REG_0 BPF_REG_10 |> offsets INT16_MIN INT16_MAX;
    filter_of (opcode_of EBPF_OP_STXB) |> destination BPF_REG_0 BPF_REG_10 |> source BPF_REG_0 BPF_REG_10 |> offsets INT16_MIN INT16_MAX;
    filter_of (opcode_of EBPF_OP_STXDW) |> destination BPF_REG_0 BPF_REG_10 |> source BPF_REG_0 BPF_REG_10 |> offsets INT16_MIN INT16_MAX;
    filter_of (opcode_of EBPF_OP_LDDW) |> destination BPF_REG_0 BPF_REG_10 |> source 0 6 |> immediate INT32_MIN INT32_MAX ].

(** Lines 583-723: JA .. JSGE, CALL and EXIT. *)
Definition filters_jmp_first : list ubpf_inst_filter :=
  [ filter_of (opcode_of EBPF_OP_JA) |> offsets INT16_MIN INT16_MAX;
    filter_of (opcode_of EBPF_OP_JEQ_IMM) |> destination BPF_REG_0 BPF_REG_10 |> offsets INT16_MIN INT16_MAX |> immediate INT32_MIN INT32_MAX;
    filter_of (opcode_of EBPF_OP_JEQ_REG) |> destination BPF_REG_0 BPF_REG_10 |> source BPF_REG_0 BPF_REG_10 |> offsets INT16_MIN INT16_MAX;
    filter_of (opcode_of EBPF_OP_JGT_IMM) |> destination BPF_REG_0 BPF_REG_10 |> offsets INT16_MIN INT16_MAX |> immediate INT32_MIN INT32_MAX;
    filter_of (opcode_of EBPF_OP_JGT_REG) |> destination BPF_REG_0 BPF_REG_10 |> source BPF_REG_0 BPF_REG_10 |> offsets INT16_MIN INT16_MAX;
    filter_of (opcode_of EBPF_OP_JGE_IMM) |> destination BPF_REG_0 BPF_REG_10 |> offsets INT16_MIN INT16_MAX |> immediate INT32_MIN INT32_MAX;
    filter_of (opcode_of EBPF_OP_JGE_REG) |> destination BPF_REG_0 BPF_REG_10 |> source BPF_REG_0 BPF_REG_10 |> offsets INT16_MIN INT16_MAX;
    filter_of (opcode_of EBPF_OP_JSET_REG) |> destination BPF_REG_0 BPF_REG_10 |> source BPF_REG_0 BPF_REG_10 |> offsets INT16_MIN INT16_MAX;
    filter_of (opcode_of EBPF_OP_JSET_IMM) |> destination BPF_REG_0 BPF_REG_10 |> offsets INT16_MIN INT16_MAX |> immediate INT32_MIN INT32_MAX;
    filter_of (opcode_of EBPF_OP_JNE_IMM) |> destination BPF_REG_0 BPF_REG_10 |> offsets INT16_MIN INT16_MAX |> immediate INT32_MIN INT32_MAX;
    filter_of (opcode_of EBPF_OP_JNE_REG) |> destination BPF_REG_0 BPF_REG_10 |> source BPF_REG_0 BPF_REG_10 |> offsets INT16_MIN INT16_MAX;
    filter_of (opcode_of EBPF_OP_JSGT_IMM) |> destination BPF_REG_0 BPF_REG_10 |> offsets INT16_MIN INT16_MAX |> immediate INT32_MIN INT32_MAX;
    filter_of (opcode_of EBPF_OP_JSGT_REG) |> destination BPF_REG_0 BPF_REG_10 |> source BPF_REG_0 BPF_REG_10 |> offsets INT16_MIN INT16_MAX;
    filter_of (opcode_of EBPF_OP_JSGE_IMM) |> destination BPF_REG_0 BPF_REG_10 |> offsets INT16_MIN INT16_MAX |> immediate INT32_MIN INT32_MAX;
    filter_of (opcode_of EBPF_OP_JSGE_REG) |> destination BPF_REG_0 BPF_REG_10 |> source BPF_REG_0 BPF_REG_10 |> offsets INT16_MIN INT16_MAX;
    filter_of (opcode_of EBPF_OP_CALL) |> source BPF_REG_0 BPF_REG_1 |> immediate INT32_MIN INT32_MAX;
    filter_of (opcode_of EBPF_OP_EXIT) ].

(** Lines 724-795: JLT .. JSLE. *)
Definition filters_jmp_second : list ubpf_inst_filter :=
  [ filter_of (opcode_of EBPF_OP_JLT_IMM) |> destination BPF_REG_0 BPF_REG_10 |> offsets INT16_MIN INT16_MAX |> immediate INT32_MIN INT32_MAX;
    filter_of (opcode_of EBPF_OP_JLT_REG) |> destination BPF_REG_0 BPF_REG_10 |> source BPF_REG_0 BPF_REG_10 |> offsets INT16_MIN INT16_MAX;
    filter_of (opcode_of EBPF_OP_JLE_IMM) |> destination BPF_REG_0 BPF_REG_10 |> offsets INT16_MIN INT16_MAX |> immediate INT32_MIN INT32_MAX;
    filter_of (opcode_of EBPF_OP_JLE_REG) |> destination BPF_REG_0 BPF_REG_10 |> source BPF_REG_0 BPF_REG_10 |> offsets INT16_MIN INT16_MAX;
    filter_of (opcode_of EBPF_OP_JSLT_IMM) |> destination BPF_REG_0 BPF_REG_10 |> offsets INT16_MIN INT16_MAX |> immediate INT32_MIN INT32_MAX;
    filter_of (opcode_of EBPF_OP_JSLT_REG) |> destination BPF_REG_0 BPF_REG_10 |> source BPF_REG_0 BPF_REG_10 |> offsets INT16_MIN INT16_MAX;
    filter_of (opcode_of EBPF_OP_JSLE_IMM) |> destination BPF_REG_0 BPF_REG_10 |> offsets INT16_MIN INT16_MAX |> immediate INT32_MIN INT32_MAX;
    filter_of (opcode_of EBPF_OP_JSLE_REG) |> destination BPF_REG_0 BPF_REG_10 |> source BPF_REG_0 BPF_REG_10 |> offsets INT16_MIN INT16_MAX ].

(** Lines 796-935: JA32 .. JLT32_IMM. *)
Definition filters_jmp32_first : list ubpf_inst_filter :=
  [ filter_of (opcode_of EBPF_OP_JA32) |> immediate INT32_MIN INT32_MAX;
    filter_of (opcode_of EBPF_OP_JEQ32_IMM) |> destination BPF_REG_0 BPF_REG_10 |> offsets INT16_MIN INT16_MAX |> immediate INT32_MIN INT32_MAX;
    filter_of (opcode_of EBPF_OP_JEQ32_REG) |> destination BPF_REG_0 BPF_REG_10 |> source BPF_REG_0 BPF_REG_10 |> offsets INT16_MIN INT16_MAX;
    filter_of (opcode_of EBPF_OP_JGT32_IMM) |> destination BPF_REG_0 BPF_REG_10 |> offsets INT16_MIN INT16_MAX |> immediate INT32_MIN INT32_MAX;
    filter_of (opcode_of EBPF_OP_JGT32_REG) |> destination BPF_REG_0 BPF_REG_10 |> source BPF_REG_0 BPF_REG_10 |> offsets INT16_MIN INT16_MAX;
    filter_of (opcode_of EBPF_OP_JGE32_IMM) |> destination BPF_REG_0 BPF_REG_10 |> offsets INT16_MIN INT16_MAX |> immediate INT32_MIN INT32_MAX;
    filter_of (opcode_of EBPF_OP_JGE32_REG) |> destination BPF_REG_0 BPF_REG_10 |> source BPF_REG_0 BPF_REG_10 |> offsets INT16_MIN INT16_MAX;
    filter_of (opcode_of EBPF_OP_JSET32_REG) |> destination BPF_REG_0 BPF_REG_10 |> source BPF_REG_0 BPF_REG_10 |> offsets INT16_MIN INT16_MAX;
    filter_of (opcode_of EBPF_OP_JSET32_IMM) |> destination BPF_REG_0 BPF_REG_10 |> offsets INT16_MIN INT16_MAX |> immediate INT32_MIN INT32_MAX;
    filter_of (opcode_of EBPF_OP_JNE32_IMM) |> destination BPF_REG_0 BPF_REG_10 |> offsets INT16_MIN INT16_MAX |> immediate INT32_MIN INT32_MAX;
    filter_of (opcode_of EBPF_OP_JNE32_REG) |> destination BPF_REG_0 BPF_REG_10 |> source BPF_REG_0 BPF_REG_10 |> offsets INT16_MIN INT16_MAX;
    filter_of (opcode_of EBPF_OP_JSGT32_IMM) |> destination BPF_REG_0 BPF_REG_10 |> offsets INT16_MIN INT16_MAX |> immediate INT32_MIN INT32_MAX;
    filter_of (opcode_of EBPF_OP_JSGT32_REG) |> destination BPF_REG_0 BPF_REG_10 |> source BPF_REG_0 BPF_REG_10 |> offsets INT16_MIN INT16_MAX;
    filter_of (opcode_of EBPF_OP_JSGE32_IMM) |> destination BPF_REG_0 BPF_REG_10 |> offsets INT16_MIN INT16_MAX |> immediate INT32_MIN INT32_MAX;
    filter_of (opcode_of EBPF_OP_JSGE32_REG) |> destination BPF_REG_0 BPF_REG_10 |> source BPF_REG_0 BPF_REG_10 |> offsets INT16_MIN INT16_MAX;
    filter_of (opcode_of EBPF_OP_JLT32_IMM) |> destination BPF_REG_0 BPF_REG_10 |> offsets INT16_MIN INT16_MAX |> immediate INT32_MIN INT32_MAX ].

(** Lines 936-1020: JLT32_REG .. JSLE32 and the atomics. *)
Definition filters_jmp32_second : list ubpf_inst_filter :=
  [ filter_of (opcode_of EBPF_OP_JLT32_REG) |> destination BPF_REG_0 BPF_REG_10 |> source BPF_REG_0 BPF_REG_10 |> offsets INT16_MIN INT16_MAX;
    filter_of (opcode_of EBPF_OP_JLE32_IMM) |> destination BPF_REG_0 BPF_REG_10 |> offsets INT16_MIN INT16_MAX |> immediate INT32_MIN INT32_MAX;
    filter_of (opcode_of EBPF_OP_JLE32_REG) |> destination BPF_REG_0 BPF_REG_10 |> source BPF_REG_0 BPF_REG_10 |> offsets INT16_MIN INT16_MAX;
    filter_of (opcode_of EBPF_OP_JSLT32_IMM) |> destination BPF_REG_0 BPF_REG_10 |> offsets INT16_MIN INT16_MAX |> immediate INT32_MIN INT32_MAX;
    filter_of (opcode_of EBPF_OP_JSLT32_REG) |> destination BPF_REG_0 BPF_REG_10 |> source BPF_REG_0 BPF_REG_10 |> offsets INT16_MIN INT16_MAX;
    filter_of (opcode_of EBPF_OP_JSLE32_IMM) |> destination BPF_REG_0 BPF_REG_10 |> offsets INT16_MIN INT16_MAX |> immediate INT32_MIN INT32_MAX;
    filter_of (opcode_of EBPF_OP_JSLE32_REG) |> destination BPF_REG_0 BPF_REG_10 |> source BPF_REG_0 BPF_REG_10 |> offsets INT16_MIN INT16_MAX;
    filter_of (opcode_of EBPF_OP_ATOMIC32_STORE) |> destination BPF_REG_0 BPF_REG_10 |> source BPF_REG_0 BPF_REG_10 |> offsets INT16_MIN INT16_MAX |> immediate 0x0 0xff;
    filter_of (opcode_of EBPF_OP_ATOMIC_STORE) |> destination BPF_REG_0 BPF_REG_10 |> source BPF_REG_0 BPF_REG_10 |> offsets INT16_MIN INT16_MAX |> immediates_in ebpf_atomic_store_immediate_enumerated 10 ].

Definition _ubpf_instruction_filter : list ubpf_inst_filter :=
  filters_alu32_arith ++ filters_alu32_move ++ filters_alu64_arith ++ filters_alu64_move ++
  filters_memory ++ filters_jmp_first ++ filters_jmp_second ++
  filters_jmp32_first ++ filters_jmp32_second.

(** ** The lookup table

    [_ubpf_filter_instruction_lookup_table] and the static [_initialized] flag
    are the file's state; an index that was never written holds NULL. *)

Record lookup_state : Type := Lookup {
  initialized : bool;
  table : gmap Z ubpf_inst_filter;
}.

Definition lookup_state_at_start : lookup_state := Lookup false ∅.

Definition _initialize_lookup_table (st : lookup_state) : lookup_state :=
  if st.(initialized) then st
  else Lookup true
         (foldl (fun t f => <[f.(f_opcode) := f]> t) st.(table) _ubpf_instruction_filter).

Inductive inst_error : Type :=
| InvalidOpcode (op : Z)
| InvalidDestination (d op : Z)
| InvalidSource (s op : Z)
| InvalidImmediate (im op : Z)
| InvalidOffset (o op : Z).

Definition _in_range (value lower_bound upper_bound : Z) : bool :=
  (lower_bound <=? value) && (value <=? upper_bound).

(** The membership loop over an enumeration. *)
Definition enumerated (vs : list Z) (v : Z) : bool := existsb (fun x => x =? v) vs.

Local Open Scope result_scope.

Definition filter_accepts (filter : ubpf_inst_filter) (insts : ebpf_inst) : result unit inst_error :=
  let* _ := guard (_in_range insts.(dst) filter.(destination_lower_bound) filter.(destination_upper_bound))
              (InvalidDestination insts.(dst) insts.(opcode)) in
  let* _ := guard (_in_range insts.(src) filter.(source_lower_bound) filter.(source_upper_bound))
              (InvalidSource insts.(src) insts.(opcode)) in
  let* _ := guard (match filter.(immediate_enumerated) with
                   | Some vs => enumerated vs insts.(imm)
                   | None => _in_range insts.(imm) filter.(immediate_lower_bound) filter.(immediate_upper_bound)
                   end)
              (InvalidImmediate insts.(imm) insts.(opcode)) in
  guard (match filter.(offset_enumerated) with
         | Some vs => enumerated vs insts.(offset)
         | None => _in_range insts.(offset) filter.(offset_lower_bound) filter.(offset_upper_bound)
         end)
    (InvalidOffset insts.(offset) insts.(opcode)).

(** [ubpf_is_valid_instruction] with the file's static state threaded through. *)
Definition ubpf_is_valid_instruction_st (st : lookup_state) (insts : ebpf_inst)
    : lookup_state * result unit inst_error :=
  let st' := _initialize_lookup_table st in
  (st', match st'.(table) !! insts.(opcode) with
        | None => Err (InvalidOpcode insts.(opcode))
        | Some filter => filter_accepts filter insts
        end).

(** The verdict, which does not depend on how often the table was initialised
    ([is_valid_instruction_stateless] below). *)
Definition ubpf_is_valid_instruction (insts : ebpf_inst) : result unit inst_error :=
  snd (ubpf_is_valid_instruction_st lookup_state_at_start insts).

(** A sequence of calls, as a validation run makes them. *)
Fixpoint check_all (st : lookup_state) (prog : list ebpf_inst) : list (result unit inst_error) :=
  match prog with
  | [] => []
  | i :: prog' =>
      let '(st', r) := ubpf_is_valid_instruction_st st i in r :: check_all st' prog'
  end.

(** ** Specification of the table

    What docs/specs/isa-reconciliation.md prescribes for the fields of an instruction,
    computed from the bits of its opcode (class, operation, source bit, mode): byte
    swaps have a width of 16, 32 or 64 (SWAP-001), atomic operations of both sizes one of
    the ten operations ADD, OR, AND and XOR with and without FETCH, XCHG and CMPXCHG
    (ATOM-001 to ATOM-003), LDDW a source of 0 to 6 (LDDW-002), calls one of 0 or 1
    (CALL-001, CALL-002; CALL-003 is not supported). *)

Definition alu_rule (c : Z) : ubpf_inst_filter :=
  let op := c .& EBPF_ALU_OP_MASK in
  let reg := negb (c .& EBPF_SRC_REG =? 0) in
  let f := filter_of c |> destination 0 9 in
  if op =? EBPF_ALU_OP_END then f |> immediates_in [16; 32; 64] 3
  else if op =? EBPF_ALU_OP_NEG then f
  else
    let f := if reg then f |> source 0 10 else f |> immediate INT32_MIN INT32_MAX in
    if (op =? EBPF_ALU_OP_DIV) || (op =? EBPF_ALU_OP_MOD) then f |> offsets 0 1
    else if (op =? EBPF_ALU_OP_MOV) && reg then
      f |> offsets_in (if c .& EBPF_CLS_MASK =? EBPF_CLS_ALU then [0; 8; 16] else [0; 8; 16; 32]) 4
    else f.

Definition jmp_rule (c : Z) : ubpf_inst_filter :=
  let op := c .& EBPF_JMP_OP_MASK in
  let f := filter_of c in
  if op =? EBPF_MODE_JA then
    if c .& EBPF_CLS_MASK =? EBPF_CLS_JMP then f |> offsets INT16_MIN INT16_MAX
    else f |> immediate INT32_MIN INT32_MAX
  else if op =? EBPF_MODE_CALL then f |> source 0 1 |> immediate INT32_MIN INT32_MAX
  else if op =? EBPF_MODE_EXIT then f
  else
    let f := f |> destination 0 10 |> offsets INT16_MIN INT16_MAX in
    if c .& EBPF_SRC_REG =? 0 then f |> immediate INT32_MIN INT32_MAX else f |> source 0 10.

Definition mem_rule (c : Z) : ubpf_inst_filter :=
  let cls := c .& EBPF_CLS_MASK in
  let f := filter_of c |> destination 0 10 |> offsets INT16_MIN INT16_MAX in
  if cls =? EBPF_CLS_ST then f |> immediate INT32_MIN INT32_MAX
  else
    let f := f |> source 0 10 in
    if (cls =? EBPF_CLS_STX) && (c .& 0xe0 =? EBPF_MODE_ATOMIC) then
      f |> immediates_in [0x00; 0x01; 0x40; 0x41; 0x50; 0x51; 0xa0; 0xa1; 0xe1; 0xf1] 10
    else f.

Definition rule_filter (c : Z) : ubpf_inst_filter :=
  let cls := c .& EBPF_CLS_MASK in
  if (cls =? EBPF_CLS_ALU) || (cls =? EBPF_CLS_ALU64) then alu_rule c
  else if (cls =? EBPF_CLS_JMP) || (cls =? EBPF_CLS_JMP32) then jmp_rule c
  else if cls =? EBPF_CLS_LD then
    if c =? 0 then filter_of c |> immediate INT32_MIN INT32_MAX
    else filter_of c |> destination 0 10 |> source 0 6 |> immediate INT32_MIN INT32_MAX
  else mem_rule c.

(** Where the table is wider than that: it has a range of immediates for the byte swaps
    and for the 32-bit atomic operation. *)
Definition wide_immediates (c : Z) : option (Z * Z) :=
  if (c =? opcode_of EBPF_OP_LE) || (c =? opcode_of EBPF_OP_BE) || (c =? opcode_of EBPF_OP_BSWAP) then Some (0, 64)
  else if c =? opcode_of EBPF_OP_ATOMIC32_STORE then Some (0, 255)
  else None.

Definition immediate_range (lo hi : Z) (f : ubpf_inst_filter) : ubpf_inst_filter :=
  let '(Filter op sl sh dl dh ol oh _ _ _ oe) := f in Filter op sl sh dl dh ol oh lo hi None oe.

Definition table_filter (c : Z) : ubpf_inst_filter :=
  match wide_immediates c with
  | Some (lo, hi) => immediate_range lo hi (rule_filter c)
  | None => rule_filter c
  end.

(** The fields of an instruction are within a filter. *)
Definition within (f : ubpf_inst_filter) (i : ebpf_inst) : Prop :=
  f.(destination_lower_bound) <= i.(dst) <= f.(destination_upper_bound) /\
  f.(source_lower_bound) <= i.(src) <= f.(source_upper_bound) /\
  (match f.(immediate_enumerated) with
   | Some vs => In i.(imm) vs
   | None => f.(immediate_lower_bound) <= i.(imm) <= f.(immediate_upper_bound)
   end) /\
  (match f.(offset_enumerated) with
   | Some vs => In i.(offset) vs
   | None => f.(offset_lower_bound) <= i.(offset) <= f.(offset_upper_bound)
   end).

(** ** Lemmas *)

Lemma initialize_idempotent st :
  _initialize_lookup_table (_initialize_lookup_table st) = _initialize_lookup_table st.
Proof. unfold _initialize_lookup_table. by destruct st as [[] t]. Qed.

Definition filter_table : gmap Z ubpf_inst_filter :=
  table (_initialize_lookup_table lookup_state_at_start).

(** The opcodes the table has an entry for: opcode 0 and the 119 operations. *)
Lemma filter_opcodes :
  map f_opcode _ubpf_instruction_filter ≡ₚ 0 :: map opcode_of all_ops.
Proof. apply (bool_decide_unpack _). vm_compute. exact I. Qed.

Lemma filters_follow_rule :
  Forall (fun f => f = table_filter f.(f_opcode)) _ubpf_instruction_filter.
Proof. repeat (constructor; [vm_compute; reflexivity |]). constructor. Qed.

Lemma foldl_insert_lookup (fs : list ubpf_inst_filter) (t : gmap Z ubpf_inst_filter) c :
  foldl (fun t f => <[f.(f_opcode) := f]> t) t fs !! c =
  match List.find (fun f => f.(f_opcode) =? c) (rev fs) with
  | Some f => Some f
  | None => t !! c
  end.
Proof.
  revert t. induction fs as [| f fs IH]; intros t; simpl; [done |].
  rewrite IH, find_app. destruct (List.find _ (rev fs)); [done |]. simpl.
  destruct (Z.eqb_spec f.(f_opcode) c) as [-> | H].
  - by rewrite lookup_insert_eq.
  - by rewrite lookup_insert_ne.
Qed.

Lemma all_ops_complete o : In o all_ops.
Proof. exact (proj1 (List.find_some _ _ (switch_op_complete o))). Qed.

Lemma filter_table_find c :
  filter_table !! c = List.find (fun f => f.(f_opcode) =? c) (rev _ubpf_instruction_filter).
Proof.
  unfold filter_table, _initialize_lookup_table, lookup_state_at_start. cbv beta iota delta [table initialized].
  rewrite foldl_insert_lookup. rewrite lookup_empty. destruct (List.find _ _); reflexivity.
Qed.

Lemma filter_table_lookup c f :
  filter_table !! c = Some f -> In f _ubpf_instruction_filter /\ f.(f_opcode) = c.
Proof.
  rewrite filter_table_find.
  intros E.
  apply List.find_some in E as [E1 E2]. by rewrite <- List.in_rev in E1; apply Z.eqb_eq in E2.
Qed.

Lemma filter_table_rule c :
  filter_table !! c =
  if (c =? 0) || bool_decide (is_Some (switch_op c)) then Some (table_filter c) else None.
Proof.
  destruct (filter_table !! c) as [f |] eqn:E.
  - apply filter_table_lookup in E as [Hin <-].
    assert (In f.(f_opcode) (0 :: map opcode_of all_ops)) as Ho.
    { rewrite <- list_elem_of_In, <- filter_opcodes, list_elem_of_In. by apply in_map. }
    pose proof filters_follow_rule as Hr. rewrite List.Forall_forall in Hr.
    rewrite <- (Hr f Hin). destruct Ho as [<- | Ho]; [done |].
    apply in_map_iff in Ho as (o & <- & _). rewrite switch_op_complete.
    rewrite bool_decide_true by eauto. by rewrite orb_true_r.
  - destruct (_ || _) eqn:Hc; [exfalso | done].
    assert (In c (map f_opcode _ubpf_instruction_filter)) as Hin.
    { rewrite <- list_elem_of_In, filter_opcodes, list_elem_of_In.
      apply orb_true_iff in Hc as [Hc | Hc]; bools; [by left | right].
      destruct Hc as [o Ho]. apply switch_op_sound in Ho as <-.
      apply in_map, all_ops_complete. }
    apply in_map_iff in Hin as (f & <- & Hf).
    rewrite filter_table_find in E. rename E into Ef.
    apply List.in_rev in Hf. apply (List.find_none _ _ Ef) in Hf. simpl in Hf.
    by rewrite Z.eqb_refl in Hf.
Qed.

Lemma in_range_iff v lo hi : _in_range v lo hi = true <-> lo <= v <= hi.
Proof. unfold _in_range. rewrite andb_true_iff, !Z.leb_le. done. Qed.

Lemma enumerated_iff vs v : enumerated vs v = true <-> In v vs.
Proof.
  unfold enumerated. rewrite existsb_exists. split.
  - intros (x & Hx & E). apply Z.eqb_eq in E. by subst.
  - intros H. exists v. by rewrite Z.eqb_refl.
Qed.

Lemma filter_accepts_within f i : filter_accepts f i = Ok tt <-> within f i.
Proof.
  unfold filter_accepts, within. rewrite !bind_guard_ok, guard_ok_iff, !in_range_iff.
  destruct f.(immediate_enumerated), f.(offset_enumerated);
    rewrite ?in_range_iff, ?enumerated_iff; tauto.
Qed.

Lemma valid_instruction_inv i :
  ubpf_is_valid_instruction i = Ok tt ->
  (i.(opcode) = 0 \/ exists o, switch_op i.(opcode) = Some o) /\ within (table_filter i.(opcode)) i.
Proof.
  unfold ubpf_is_valid_instruction, ubpf_is_valid_instruction_st. cbn [snd].
  change (table (_initialize_lookup_table lookup_state_at_start)) with filter_table.
  rewrite filter_table_rule. destruct (_ || _) eqn:E; [| discriminate].
  intros H. apply filter_accepts_within in H. split; [| done].
  apply orb_true_iff in E as [E | E]; bools; [by left | right]. exact E.
Qed.

(** The registers and offsets of the table are those of the rule. *)
Lemma table_filter_registers c i :
  within (table_filter c) i ->
  (rule_filter c).(destination_lower_bound) <= i.(dst) <= (rule_filter c).(destination_upper_bound) /\
  (rule_filter c).(source_lower_bound) <= i.(src) <= (rule_filter c).(source_upper_bound).
Proof.
  unfold table_filter, immediate_range. intros (Hd & Hs & _).
  destruct (wide_immediates c) as [[lo hi] |], (rule_filter c); done.
Qed.

(** ** Properties *)


(** [ubpf_is_valid_instruction] accepts an instruction exactly when its
    opcode has an entry and every field is within the bounds of that entry. *)
Theorem is_valid_instruction_iff (i : ebpf_inst) :
  ubpf_is_valid_instruction i = Ok tt <->
  (i.(opcode) = 0 \/ exists o, switch_op i.(opcode) = Some o) /\ within (table_filter i.(opcode)) i.
Proof.
  split; [apply valid_instruction_inv |]. intros [Ho Hw].
  unfold ubpf_is_valid_instruction, ubpf_is_valid_instruction_st. cbn [snd].
  change (table (_initialize_lookup_table lookup_state_at_start)) with filter_table.
  rewrite filter_table_rule.
  replace (_ || _) with true; [by apply filter_accepts_within |].
  symmetry. apply orb_true_iff. destruct Ho as [-> | [o Ho]]; [by left | right].
  apply bool_decide_eq_true. by exists o.
Qed.

(** The verdict on an instruction does not depend on the file's static
    state: in a run of calls that starts before the table is built, every call
    gives the verdict of a fresh first call. *)
Theorem check_all_stateless (prog : list ebpf_inst) :
  check_all lookup_state_at_start prog = map ubpf_is_valid_instruction prog.
Proof.
  assert (forall st, (st = lookup_state_at_start \/
                      st = _initialize_lookup_table lookup_state_at_start) ->
          check_all st prog = map ubpf_is_valid_instruction prog) as H; [| apply H; auto].
  induction prog as [| i prog IH]; intros st Hst; [done |].
  assert (_initialize_lookup_table st = _initialize_lookup_table lookup_state_at_start) as E
    by (destruct Hst as [-> | ->]; [done | apply initialize_idempotent]).
  cbn [check_all map]. unfold ubpf_is_valid_instruction_st. rewrite E.
  f_equal. apply IH. by right.
Qed.

(** An accepted instruction of class ALU or ALU64 never names R10 as its
    destination, and names R10 as a source only in its register form. *)
Theorem valid_alu_keeps_r10 (i : ebpf_inst) :
  ubpf_is_valid_instruction i = Ok tt ->
  i.(opcode) .& EBPF_CLS_MASK = EBPF_CLS_ALU \/ i.(opcode) .& EBPF_CLS_MASK = EBPF_CLS_ALU64 ->
  0 <= i.(dst) <= 9 /\ 0 <= i.(src) <= 10 /\
  (i.(opcode) .& EBPF_SRC_REG = 0 -> i.(src) = 0).
Proof.
  intros Hv Hc. apply valid_instruction_inv in Hv as [_ Hw].
  assert (rule_filter i.(opcode) = alu_rule i.(opcode)) as Hr.
  { unfold rule_filter. destruct Hc as [-> | ->]; reflexivity. }
  apply table_filter_registers in Hw. rewrite Hr in Hw. destruct Hw as (Hd & Hs).
  revert Hd Hs. unfold alu_rule.
  destruct (_ =? EBPF_ALU_OP_END); [simpl; lia |].
  destruct (_ =? EBPF_ALU_OP_NEG); [simpl; lia |].
  destruct (Z.eqb_spec (i.(opcode) .& EBPF_SRC_REG) 0); cbn [negb];
    repeat match goal with |- context [if ?b then _ else _] => destruct b end; simpl; lia.
Qed.

Lemma valid_alu_keeps_r10_witness :
  let i := Inst (opcode_of EBPF_OP_ADD64_REG) 3 10 0 0 in
  ubpf_is_valid_instruction i = Ok tt /\ 0 <= i.(dst) <= 9.
Proof.
  split; [vm_compute; reflexivity |].
  apply (valid_alu_keeps_r10 (Inst (opcode_of EBPF_OP_ADD64_REG) 3 10 0 0)).
  - vm_compute; reflexivity.
  - right. vm_compute; reflexivity.
Defined.
