(* ===== verification/Mem.v ===== *)
(** * Mem: the address space and the interpreter's loads and stores

    The C code reads and writes a flat address space.  A [memory] maps the
    addresses that are mapped to their bytes; reading or writing an address that
    is not mapped is undefined behaviour, and gives [None].  The host is
    little-endian, as the targets of the JIT are.  [ubpf_mem_load],
    [ubpf_mem_load_sx] and [ubpf_mem_store] are those of vm/ubpf_vm.c; vm/ubpf_safe.c has
    the same text. *)

From Stdlib Require Import ZArith Lia Bool.
From stdpp Require Import base list gmap strings numbers.
From S2P Require Import Prelude.

Local Open Scope Z_scope.
Local Open Scope cbits_scope.

Abbreviation memory := (gmap Z Z).

(** ** Bytes *)

Fixpoint load_bytes (m : memory) (a : Z) (n : nat) : option (list Z) :=
  match n with
  | O => Some []
  | S n' =>
      match m !! a, load_bytes m (a + 1) n' with
      | Some b, Some bs => Some (b :: bs)
      | _, _ => None
      end
  end.

(** Writes succeed only when every byte is mapped. *)
Fixpoint store_bytes (m : memory) (a : Z) (bs : list Z) : option memory :=
  match bs with
  | [] => Some m
  | b :: bs' =>
      match m !! a with
      | Some _ => store_bytes (<[a := b]> m) (a + 1) bs'
      | None => None
      end
  end.

(** ** The code's accessors *)

Definition IS_ALIGNED (x a : Z) : bool := x .& (a - 1) =? 0.

(** A typed access [*(uintN_t* )address]. *)
Definition deref (m : memory) (address : Z) (size : nat) : option Z :=
  le_decode <$> load_bytes m address size.

(** [memcpy(&value, address, size)] into a zeroed [uint64_t]. *)
Definition memcpy_to_u64 (m : memory) (address : Z) (size : nat) : option Z :=
  (fun bs => le_decode (bs ++ replicate (8 - size) 0)) <$> load_bytes m address size.

Definition ubpf_mem_load (m : memory) (address size : Z) : option Z :=
  if negb (IS_ALIGNED address size) then memcpy_to_u64 m address (Z.to_nat size)
  else if size =? 1 then deref m address 1
  else if size =? 2 then deref m address 2
  else if size =? 4 then deref m address 4
  else if size =? 8 then deref m address 8
  else None.

Definition ubpf_mem_load_sx (m : memory) (address size : Z) : option Z :=
  if negb (IS_ALIGNED address size) then
    value ← memcpy_to_u64 m address (Z.to_nat size);
    if size =? 1 then Some (u64 (s8 (u8 value)))
    else if size =? 2 then Some (u64 (s16 (u16 value)))
    else if size =? 4 then Some (u64 (s32 (u32 value)))
    else None
  else if size =? 1 then (fun v => u64 (s8 v)) <$> deref m address 1
  else if size =? 2 then (fun v => u64 (s16 v)) <$> deref m address 2
  else if size =? 4 then (fun v => u64 (s32 v)) <$> deref m address 4
  else None.

Definition ubpf_mem_store (m : memory) (address value size : Z) : option memory :=
  if negb (IS_ALIGNED address size) then
    store_bytes m address (take (Z.to_nat size) (le_encode 8 value))
  else if size =? 1 then store_bytes m address (le_encode 1 (u8 value))
  else if size =? 2 then store_bytes m address (le_encode 2 (u16 value))
  else if size =? 4 then store_bytes m address (le_encode 4 (u32 value))
  else if size =? 8 then store_bytes m address (le_encode 8 value)
  else None.

(** ** Specification vocabulary *)

(** The bytes [a, a + n) are mapped. *)
Definition mapped (m : memory) (a n : Z) : Prop :=
  forall i, a <= i < a + n -> is_Some (m !! i).

(** Every mapped cell holds a byte. *)
Definition mem_ok (m : memory) : Prop := map_Forall (fun _ b => byte_ok b) m.

(** [m'] differs from [m] at most inside [a, a + n), and maps the same addresses. *)
Definition changes_only (a n : Z) (m m' : memory) : Prop :=
  dom m' = dom m /\ forall i, ~ (a <= i < a + n) -> m' !! i = m !! i.

(** The sizes of the eBPF memory instructions. *)
Definition access_size (size : Z) : Prop := size = 1 \/ size = 2 \/ size = 4 \/ size = 8.

(** ** Lemmas *)

Lemma load_bytes_length m a n bs : load_bytes m a n = Some bs -> length bs = n.
Proof.
  revert a bs. induction n as [| n IH]; simpl; intros a bs.
  - by intros [= <-].
  - destruct (m !! a), (load_bytes m (a + 1) n) eqn:E; try discriminate.
    intros [= <-]. simpl. f_equal. by eapply IH.
Qed.

Lemma load_bytes_ok m a n bs : mem_ok m -> load_bytes m a n = Some bs -> Forall byte_ok bs.
Proof.
  intros Hm. revert a bs. induction n as [| n IH]; simpl; intros a bs.
  - by intros [= <-].
  - destruct (m !! a) eqn:Ea, (load_bytes m (a + 1) n) eqn:E; try discriminate.
    intros [= <-]. constructor; [by apply (Hm _ _ Ea) | by eapply IH].
Qed.

Lemma load_bytes_mapped m a n :
  is_Some (load_bytes m a n) <-> mapped m a (Z.of_nat n).
Proof.
  revert a. induction n as [| n IH]; intros a; simpl.
  - split; [intros _ i Hi; lia | by eexists].
  - specialize (IH (a + 1)). split.
    + destruct (m !! a) eqn:Ea; [| by intros []].
      destruct (load_bytes m (a + 1) n); [| by intros []].
      intros _ i Hi. destruct (decide (i = a)) as [-> | Hne]; [by rewrite Ea |].
      apply IH; [done | lia].
    + intros H. destruct (H a ltac:(lia)) as [b ->].
      destruct (proj2 IH) as [bs ->]; [| done]. intros i Hi. apply H. lia.
Qed.

Lemma load_bytes_frame m m' a n :
  (forall i, a <= i < a + Z.of_nat n -> m' !! i = m !! i) ->
  load_bytes m' a n = load_bytes m a n.
Proof.
  revert a. induction n as [| n IH]; intros a H; simpl; [done |].
  rewrite (H a) by lia. rewrite (IH (a + 1)) by (intros; apply H; lia). done.
Qed.

Lemma store_bytes_spec m a bs m' :
  store_bytes m a bs = Some m' ->
  changes_only a (Z.of_nat (length bs)) m m' /\ load_bytes m' a (length bs) = Some bs.
Proof.
  revert m a m'. induction bs as [| b bs IH]; simpl; intros m a m'.
  - intros [= <-]. by split; [split |].
  - destruct (m !! a) eqn:Ea; [| discriminate]. intros H.
    apply IH in H as [[Hd Hf] Hl]. split; [split |].
    + rewrite Hd, dom_insert_lookup_L; eauto.
    + intros i Hi. rewrite Hf by lia. apply lookup_insert_ne. lia.
    + rewrite Hl, (Hf a) by lia. by rewrite lookup_insert_eq.
Qed.

Lemma store_bytes_mapped m a bs :
  mapped m a (Z.of_nat (length bs)) -> is_Some (store_bytes m a bs).
Proof.
  revert m a. induction bs as [| b bs IH]; simpl; intros m a H; [by eexists |].
  destruct (H a ltac:(lia)) as [x ->]. apply IH. intros i Hi.
  destruct (decide (i = a)) as [-> | Hne]; [rewrite lookup_insert_eq; by eexists |].
  rewrite lookup_insert_ne by done. apply H. lia.
Qed.

Lemma store_bytes_ok m a bs m' :
  mem_ok m -> Forall byte_ok bs -> store_bytes m a bs = Some m' -> mem_ok m'.
Proof.
  revert m a. induction bs as [| b bs IH]; simpl; intros m a Hm Hb.
  - by intros [= <-].
  - inversion Hb; subst. destruct (m !! a); [| discriminate]. apply IH; [| done].
    by apply map_Forall_insert_2.
Qed.

Lemma le_encode_wrap n v w :
  8 * Z.of_nat n <= w -> le_encode n (wrap w v) = le_encode n v.
Proof.
  revert v w. induction n as [| n IH]; intros v w H; simpl; [done |]. f_equal.
  - change 256 with (2 ^ 8). change (wrap 8 (wrap w v) = wrap 8 v). apply wrap_wrap_le. lia.
  - replace (wrap w v / 256) with (wrap (w - 8) (v / 256)); [apply IH; lia |].
    unfold wrap. replace (2 ^ w) with (256 * 2 ^ (w - 8)).
    + rewrite Z.rem_mul_r by (try apply Z.pow_pos_nonneg; lia).
      rewrite (Z.add_comm (v mod 256)), (Z.mul_comm 256), Z.div_add_l by lia.
      rewrite (Z.div_small (v mod 256)) by (apply Z.mod_pos_bound; lia). lia.
    + change 256 with (2 ^ 8). rewrite <- Z.pow_add_r by lia. f_equal. lia.
Qed.

Lemma take_le_encode k n v : (k <= n)%nat -> take k (le_encode n v) = le_encode k v.
Proof.
  revert n v. induction k as [| k IH]; intros [| n] v H; simpl; try done; [lia |].
  f_equal. apply IH. lia.
Qed.

(** The aligned and the [memcpy] path compute the same value. *)
Lemma mem_load_eq m a size :
  access_size size -> ubpf_mem_load m a size = deref m a (Z.to_nat size).
Proof.
  intros Hs. unfold ubpf_mem_load.
  assert (memcpy_to_u64 m a (Z.to_nat size) = deref m a (Z.to_nat size)) as ->.
  { unfold memcpy_to_u64, deref. destruct (load_bytes _ _ _); simpl; [| done].
    by rewrite le_decode_app_zeros. }
  destruct (negb _); [done |]. by destruct Hs as [-> | [-> | [-> | ->]]].
Qed.

Lemma mem_store_eq m a v size :
  access_size size -> ubpf_mem_store m a v size = store_bytes m a (le_encode (Z.to_nat size) v).
Proof.
  intros Hs. unfold ubpf_mem_store.
  destruct Hs as [-> | [-> | [-> | ->]]]; simpl Z.to_nat; simpl Z.eqb; cbv iota;
    rewrite ?le_encode_wrap, ?take_le_encode by lia; by destruct (negb _).
Qed.

Lemma mem_load_sx_eq m a size :
  access_size size -> size <> 8 ->
  ubpf_mem_load_sx m a size = (fun v => u64 (sext (8 * size) v)) <$> deref m a (Z.to_nat size).
Proof.
  intros Hs H8. unfold ubpf_mem_load_sx.
  assert (memcpy_to_u64 m a (Z.to_nat size) = deref m a (Z.to_nat size)) as ->.
  { unfold memcpy_to_u64, deref. destruct (load_bytes _ _ _); simpl; [| done].
    by rewrite le_decode_app_zeros. }
  destruct Hs as [-> | [-> | [-> | ->]]]; try done; simpl Z.eqb; cbv iota;
    (destruct (negb _); [| done]); simpl Z.to_nat;
    (destruct (deref m a _); simpl; [| done]); by rewrite sext_wrap by lia.
Qed.

Lemma deref_range m a n v : mem_ok m -> deref m a n = Some v -> 0 <= v < 2 ^ (8 * Z.of_nat n).
Proof.
  unfold deref. destruct (load_bytes m a n) eqn:E; [| discriminate]. simpl. intros Hm [= <-].
  erewrite <- (load_bytes_length _ _ _ _ E). apply le_decode_range. by eapply load_bytes_ok.
Qed.

Lemma deref_mapped m a n : is_Some (deref m a n) <-> mapped m a (Z.of_nat n).
Proof. unfold deref. rewrite fmap_is_Some. apply load_bytes_mapped. Qed.

Lemma mem_store_mapped m a v size :
  access_size size -> mapped m a size -> is_Some (ubpf_mem_store m a v size).
Proof.
  intros Hs Hm. rewrite mem_store_eq by done. apply store_bytes_mapped.
  rewrite length_le_encode, Z2Nat.id; [done |]. destruct Hs as [-> | [-> | [-> | ->]]]; lia.
Qed.

Lemma mem_store_spec m a v size m' :
  access_size size -> ubpf_mem_store m a v size = Some m' ->
  changes_only a size m m' /\ load_bytes m' a (Z.to_nat size) = Some (le_encode (Z.to_nat size) v).
Proof.
  intros Hs H. rewrite mem_store_eq in H by done. apply store_bytes_spec in H as [Hc Hl].
  rewrite length_le_encode in *. split; [| done].
  rewrite Z2Nat.id in Hc; [done |]. destruct Hs as [-> | [-> | [-> | ->]]]; lia.
Qed.

Lemma mem_store_ok m a v size m' :
  access_size size -> mem_ok m -> ubpf_mem_store m a v size = Some m' -> mem_ok m'.
Proof.
  intros Hs Hm H. rewrite mem_store_eq in H by done.
  eapply store_bytes_ok; eauto using le_encode_bytes.
Qed.

Lemma changes_only_refl a n m : changes_only a n m m.
Proof. by split. Qed.

Lemma changes_only_trans a n m1 m2 m3 :
  changes_only a n m1 m2 -> changes_only a n m2 m3 -> changes_only a n m1 m3.
Proof. intros [H1 H2] [H3 H4]. split; [congruence |]. intros i Hi. rewrite H4, H2; auto. Qed.

Lemma changes_only_mapped a n b k m m' :
  changes_only a n m m' -> mapped m b k -> mapped m' b k.
Proof.
  intros [Hd _] H i Hi. apply elem_of_dom. rewrite Hd. by apply elem_of_dom, H.
Qed.

Lemma mem_load_stored m m' a v size :
  access_size size -> ubpf_mem_store m a v size = Some m' -> ubpf_mem_load m' a size = Some (wrap (8 * size) v).
Proof.
  intros Hs H. destruct (mem_store_spec m a v size m' Hs H) as [_ Hl].
  rewrite mem_load_eq by done. unfold deref. rewrite Hl. simpl. rewrite le_decode_encode.
  rewrite Z2Nat.id; [done |]. destruct Hs as [-> | [-> | [-> | ->]]]; lia.
Qed.

(** ** Properties *)

(** Reading back what was stored gives the low bytes of the value, whatever
    the alignment of the two accesses: [ubpf_mem_load] after [ubpf_mem_store]
    at the same address and size is the value truncated to that size, and every
    byte outside the stored range is unchanged. *)
Theorem mem_load_after_store (m m' : memory) (a v size : Z) :
  access_size size -> ubpf_mem_store m a v size = Some m' ->
  ubpf_mem_load m' a size = Some (wrap (8 * size) v) /\ changes_only a size m m'.
Proof.
  intros Hs H. split; [by apply (mem_load_stored m) | apply (mem_store_spec m a v size m' Hs H)].
Qed.

Lemma mem_load_after_store_witness :
  exists m', ubpf_mem_store {[ 11 := 0; 12 := 0; 13 := 0 ]} 11 0x12345 2 = Some m' /\
             ubpf_mem_load m' 11 2 = Some 0x2345.
Proof.
  eexists. split; [vm_compute; reflexivity |].
  exact (proj1 (mem_load_after_store {[ 11 := 0; 12 := 0; 13 := 0 ]} _ 11 0x12345 2
    (or_intror (or_introl eq_refl)) eq_refl)).
Defined.

(** [ubpf_mem_load_sx] returns the sign extension to 64 bits of what
    [ubpf_mem_load] returns, for the three sizes the MEMSX opcodes use. *)
Theorem mem_load_sx_sign_extends (m : memory) (a size : Z) :
  access_size size -> size <> 8 ->
  ubpf_mem_load_sx m a size = (fun v => u64 (sext (8 * size) v)) <$> ubpf_mem_load m a size.
Proof. intros. rewrite mem_load_sx_eq, mem_load_eq by done. done. Qed.

Lemma mem_load_sx_sign_extends_witness :
  ubpf_mem_load_sx {[ 7 := 0x80 ]} 7 1 = Some (UINT64_MAX - 127).
Proof.
  rewrite (mem_load_sx_sign_extends {[ 7 := 0x80 ]} 7 1); [vm_compute; reflexivity | by left | lia].
Defined.
