(* ===== verification/Vm.v ===== *)
(** * Vm: the virtual machine object and its API (vm/ubpf_int.h, vm/ubpf_vm.c)

    [struct ubpf_vm] as a record, the configuration calls, helper and dispatcher
    registration (with the update of the compiled code), the instruction store
    with its XOR encoding, the local-function stack-usage cache and
    [ubpf_unload_code].  A pointer is its address, NULL is 0; what a pointer
    points to is a field of its own ([insts_data], [jitted_code]).  Calls into
    the operating system are arguments of the operations ([alloc], [mprotect]). *)

From Stdlib Require Import ZArith Lia Bool.
From stdpp Require Import base list gmap strings numbers.
From S2P Require Import Prelude Ebpf.

Local Open Scope Z_scope.
Local Open Scope cbits_scope.

(** ** Constants (vm/inc/ubpf.h, vm/ubpf_int.h) *)

Definition UBPF_MAX_INSTS : Z := 65536.
Definition UBPF_MAX_CALL_DEPTH : Z := 8.
Definition UBPF_EBPF_STACK_SIZE : Z := UBPF_MAX_CALL_DEPTH * 512.
Definition UBPF_EBPF_LOCAL_FUNCTION_STACK_SIZE : Z := 256.
Definition MAX_EXT_FUNCS : Z := 64.
Definition UBPF_MAX_SAFE_REGIONS : Z := 64.
Definition DEFAULT_JITTER_BUFFER_SIZE : Z := 65536.

(** ** Data *)

Inductive ubpf_execution_profile : Type :=
| UBPF_EXECUTION_PROFILE_LEGACY
| UBPF_EXECUTION_PROFILE_SAFE.

Inductive JitMode : Type := ExtendedJitMode | BasicJitMode.

Inductive upbf_jit_result_t : Type := UBPF_JIT_COMPILE_SUCCESS | UBPF_JIT_COMPILE_FAILURE.

Record ubpf_jit_result : Type := JitResult {
  external_dispatcher_offset : Z;
  external_helper_offset : Z;
  compile_result : upbf_jit_result_t;
  jit_mode : JitMode;
}.

Inductive ubpf_stack_usage_calculation_status_t : Type :=
| UBPF_STACK_USAGE_UNKNOWN
| UBPF_STACK_USAGE_CUSTOM
| UBPF_STACK_USAGE_DEFAULT.

Record ubpf_stack_usage : Type := StackUsage {
  stack_usage_calculated : ubpf_stack_usage_calculation_status_t;
  stack_usage : Z;  (* uint16_t *)
}.

Inductive ubpf_safe_region_kind : Type := UBPF_SAFE_REGION_POINTER | UBPF_SAFE_REGION_HANDLE.

Record ubpf_safe_region_internal : Type := SafeRegionSlot {
  region_in_use : bool;
  slot_id : Z;
  slot_base : Z;
  slot_end : Z;
  slot_kind : ubpf_safe_region_kind;
  slot_permissions : Z;
}.

Inductive ubpf_safe_helper_result_kind : Type :=
| UBPF_SAFE_HELPER_RESULT_SCALAR
| UBPF_SAFE_HELPER_RESULT_POINTER
| UBPF_SAFE_HELPER_RESULT_HANDLE.

Record ubpf_safe_helper_metadata : Type := SafeHelper {
  helper_in_use : bool;
  helper_result_kind : ubpf_safe_helper_result_kind;
  helper_region_id : Z;
  helper_region_size : Z;
}.

(** The two sources of the instruction array: [mmap] in read-only mode, [malloc] otherwise. *)
Inductive allocator : Type := FromMmap | FromMalloc.

(** [vm->error_printf]: fprintf or a function of the embedder. *)
Inductive error_sink : Type := Fprintf | CustomPrintf (f : Z).

(** The three JIT function pointers [ubpf_create] sets together. *)
Inductive jit_target : Type := JitX86_64 | JitArm64 | JitNull.

Record ubpf_vm : Type := Vm {
  insts : Z;  (* struct ebpf_inst*; 0 is NULL *)
  insts_data : list Z;  (* the array insts points to, each entry as the 64-bit word of the union *)
  insts_owner : allocator;  (* which allocator the array came from *)
  num_insts : Z;  (* uint16_t *)
  insts_alloc_size : Z;  (* size_t *)
  readonly_bytecode_enabled : bool;
  jitted : Z;  (* ubpf_jit_ex_fn; 0 is NULL *)
  jitted_code : list Z;  (* the bytes jitted points to *)
  jitted_size : Z;  (* size_t *)
  jitter_buffer_size : Z;  (* size_t *)
  jitted_result : ubpf_jit_result;
  ext_funcs : list Z;  (* MAX_EXT_FUNCS function pointers *)
  int_funcs : option (list bool);  (* None is NULL *)
  ext_func_names : list (option string);  (* MAX_EXT_FUNCS names *)
  local_func_stack_usage : option (gmap Z ubpf_stack_usage);  (* None: NULL; UBPF_MAX_INSTS entries, absent: all zero *)
  stack_usage_calculator_cookie : Z;
  stack_usage_calculator : Z;  (* function pointer *)
  dispatcher : Z;  (* function pointer *)
  dispatcher_validate : Z;  (* function pointer *)
  bounds_check_enabled : bool;
  undefined_behavior_check_enabled : bool;
  constant_blinding_enabled : bool;
  execution_profile : ubpf_execution_profile;
  execution_started : bool;
  error_printf : error_sink;
  jit_functions : jit_target;  (* jit_translate, jit_update_dispatcher, jit_update_helper *)
  unwind_stack_extension_index : Z;  (* int *)
  pointer_secret : Z;  (* uint64_t *)
  data_relocation_function : Z;  (* function pointer *)
  data_relocation_user_data : Z;
  bounds_check_function : Z;  (* function pointer *)
  bounds_check_user_data : Z;
  safe_regions : list ubpf_safe_region_internal;  (* UBPF_MAX_SAFE_REGIONS slots *)
  safe_helpers : list ubpf_safe_helper_metadata;  (* MAX_EXT_FUNCS slots *)
  instruction_limit : Z;  (* int *)
  debug_function_context : Z;
  debug_function : Z;  (* function pointer *)
}.

#[export] Instance profile_eq_dec : EqDecision ubpf_execution_profile.
Proof. solve_decision. Defined.
#[export] Instance jit_mode_eq_dec : EqDecision JitMode.
Proof. solve_decision. Defined.
#[export] Instance compile_result_eq_dec : EqDecision upbf_jit_result_t.
Proof. solve_decision. Defined.
#[export] Instance usage_status_eq_dec : EqDecision ubpf_stack_usage_calculation_status_t.
Proof. solve_decision. Defined.
#[export] Instance region_kind_eq_dec : EqDecision ubpf_safe_region_kind.
Proof. solve_decision. Defined.
#[export] Instance helper_kind_eq_dec : EqDecision ubpf_safe_helper_result_kind.
Proof. solve_decision. Defined.

(** ** Assignment to a field: [vm->f = v] is [set_f v vm]. *)

Definition set_insts (v : Z) (vm : ubpf_vm) : ubpf_vm :=
  Vm v vm.(insts_data) vm.(insts_owner) vm.(num_insts) vm.(insts_alloc_size) vm.(readonly_bytecode_enabled)
    vm.(jitted) vm.(jitted_code) vm.(jitted_size) vm.(jitter_buffer_size) vm.(jitted_result) vm.(ext_funcs)
    vm.(int_funcs) vm.(ext_func_names) vm.(local_func_stack_usage) vm.(stack_usage_calculator_cookie)
    vm.(stack_usage_calculator) vm.(dispatcher) vm.(dispatcher_validate) vm.(bounds_check_enabled)
    vm.(undefined_behavior_check_enabled) vm.(constant_blinding_enabled) vm.(execution_profile)
    vm.(execution_started) vm.(error_printf) vm.(jit_functions) vm.(unwind_stack_extension_index)
    vm.(pointer_secret) vm.(data_relocation_function) vm.(data_relocation_user_data)
    vm.(bounds_check_function) vm.(bounds_check_user_data) vm.(safe_regions) vm.(safe_helpers)
    vm.(instruction_limit) vm.(debug_function_context) vm.(debug_function).
Definition set_insts_data (v : list Z) (vm : ubpf_vm) : ubpf_vm :=
  Vm vm.(insts) v vm.(insts_owner) vm.(num_insts) vm.(insts_alloc_size) vm.(readonly_bytecode_enabled)
    vm.(jitted) vm.(jitted_code) vm.(jitted_size) vm.(jitter_buffer_size) vm.(jitted_result) vm.(ext_funcs)
    vm.(int_funcs) vm.(ext_func_names) vm.(local_func_stack_usage) vm.(stack_usage_calculator_cookie)
    vm.(stack_usage_calculator) vm.(dispatcher) vm.(dispatcher_validate) vm.(bounds_check_enabled)
    vm.(undefined_behavior_check_enabled) vm.(constant_blinding_enabled) vm.(execution_profile)
    vm.(execution_started) vm.(error_printf) vm.(jit_functions) vm.(unwind_stack_extension_index)
    vm.(pointer_secret) vm.(data_relocation_function) vm.(data_relocation_user_data)
    vm.(bounds_check_function) vm.(bounds_check_user_data) vm.(safe_regions) vm.(safe_helpers)
    vm.(instruction_limit) vm.(debug_function_context) vm.(debug_function).
Definition set_insts_owner (v : allocator) (vm : ubpf_vm) : ubpf_vm :=
  Vm vm.(insts) vm.(insts_data) v vm.(num_insts) vm.(insts_alloc_size) vm.(readonly_bytecode_enabled)
    vm.(jitted) vm.(jitted_code) vm.(jitted_size) vm.(jitter_buffer_size) vm.(jitted_result) vm.(ext_funcs)
    vm.(int_funcs) vm.(ext_func_names) vm.(local_func_stack_usage) vm.(stack_usage_calculator_cookie)
    vm.(stack_usage_calculator) vm.(dispatcher) vm.(dispatcher_validate) vm.(bounds_check_enabled)
    vm.(undefined_behavior_check_enabled) vm.(constant_blinding_enabled) vm.(execution_profile)
    vm.(execution_started) vm.(error_printf) vm.(jit_functions) vm.(unwind_stack_extension_index)
    vm.(pointer_secret) vm.(data_relocation_function) vm.(data_relocation_user_data)
    vm.(bounds_check_function) vm.(bounds_check_user_data) vm.(safe_regions) vm.(safe_helpers)
    vm.(instruction_limit) vm.(debug_function_context) vm.(debug_function).
Definition set_num_insts (v : Z) (vm : ubpf_vm) : ubpf_vm :=
  Vm vm.(insts) vm.(insts_data) vm.(insts_owner) v vm.(insts_alloc_size) vm.(readonly_bytecode_enabled)
    vm.(jitted) vm.(jitted_code) vm.(jitted_size) vm.(jitter_buffer_size) vm.(jitted_result) vm.(ext_funcs)
    vm.(int_funcs) vm.(ext_func_names) vm.(local_func_stack_usage) vm.(stack_usage_calculator_cookie)
    vm.(stack_usage_calculator) vm.(dispatcher) vm.(dispatcher_validate) vm.(bounds_check_enabled)
    vm.(undefined_behavior_check_enabled) vm.(constant_blinding_enabled) vm.(execution_profile)
    vm.(execution_started) vm.(error_printf) vm.(jit_functions) vm.(unwind_stack_extension_index)
    vm.(pointer_secret) vm.(data_relocation_function) vm.(data_relocation_user_data)
    vm.(bounds_check_function) vm.(bounds_check_user_data) vm.(safe_regions) vm.(safe_helpers)
    vm.(instruction_limit) vm.(debug_function_context) vm.(debug_function).
Definition set_insts_alloc_size (v : Z) (vm : ubpf_vm) : ubpf_vm :=
  Vm vm.(insts) vm.(insts_data) vm.(insts_owner) vm.(num_insts) v vm.(readonly_bytecode_enabled) vm.(jitted)
    vm.(jitted_code) vm.(jitted_size) vm.(jitter_buffer_size) vm.(jitted_result) vm.(ext_funcs) vm.(int_funcs)
    vm.(ext_func_names) vm.(local_func_stack_usage) vm.(stack_usage_calculator_cookie)
    vm.(stack_usage_calculator) vm.(dispatcher) vm.(dispatcher_validate) vm.(bounds_check_enabled)
    vm.(undefined_behavior_check_enabled) vm.(constant_blinding_enabled) vm.(execution_profile)
    vm.(execution_started) vm.(error_printf) vm.(jit_functions) vm.(unwind_stack_extension_index)
    vm.(pointer_secret) vm.(data_relocation_function) vm.(data_relocation_user_data)
    vm.(bounds_check_function) vm.(bounds_check_user_data) vm.(safe_regions) vm.(safe_helpers)
    vm.(instruction_limit) vm.(debug_function_context) vm.(debug_function).
Definition set_readonly_bytecode_enabled (v : bool) (vm : ubpf_vm) : ubpf_vm :=
  Vm vm.(insts) vm.(insts_data) vm.(insts_owner) vm.(num_insts) vm.(insts_alloc_size) v vm.(jitted)
    vm.(jitted_code) vm.(jitted_size) vm.(jitter_buffer_size) vm.(jitted_result) vm.(ext_funcs) vm.(int_funcs)
    vm.(ext_func_names) vm.(local_func_stack_usage) vm.(stack_usage_calculator_cookie)
    vm.(stack_usage_calculator) vm.(dispatcher) vm.(dispatcher_validate) vm.(bounds_check_enabled)
    vm.(undefined_behavior_check_enabled) vm.(constant_blinding_enabled) vm.(execution_profile)
    vm.(execution_started) vm.(error_printf) vm.(jit_functions) vm.(unwind_stack_extension_index)
    vm.(pointer_secret) vm.(data_relocation_function) vm.(data_relocation_user_data)
    vm.(bounds_check_function) vm.(bounds_check_user_data) vm.(safe_regions) vm.(safe_helpers)
    vm.(instruction_limit) vm.(debug_function_context) vm.(debug_function).
Definition set_jitted (v : Z) (vm : ubpf_vm) : ubpf_vm :=
  Vm vm.(insts) vm.(insts_data) vm.(insts_owner) vm.(num_insts) vm.(insts_alloc_size)
    vm.(readonly_bytecode_enabled) v vm.(jitted_code) vm.(jitted_size) vm.(jitter_buffer_size)
    vm.(jitted_result) vm.(ext_funcs) vm.(int_funcs) vm.(ext_func_names) vm.(local_func_stack_usage)
    vm.(stack_usage_calculator_cookie) vm.(stack_usage_calculator) vm.(dispatcher) vm.(dispatcher_validate)
    vm.(bounds_check_enabled) vm.(undefined_behavior_check_enabled) vm.(constant_blinding_enabled)
    vm.(execution_profile) vm.(execution_started) vm.(error_printf) vm.(jit_functions)
    vm.(unwind_stack_extension_index) vm.(pointer_secret) vm.(data_relocation_function)
    vm.(data_relocation_user_data) vm.(bounds_check_function) vm.(bounds_check_user_data) vm.(safe_regions)
    vm.(safe_helpers) vm.(instruction_limit) vm.(debug_function_context) vm.(debug_function).
Definition set_jitted_code (v : list Z) (vm : ubpf_vm) : ubpf_vm :=
  Vm vm.(insts) vm.(insts_data) vm.(insts_owner) vm.(num_insts) vm.(insts_alloc_size)
    vm.(readonly_bytecode_enabled) vm.(jitted) v vm.(jitted_size) vm.(jitter_buffer_size) vm.(jitted_result)
    vm.(ext_funcs) vm.(int_funcs) vm.(ext_func_names) vm.(local_func_stack_usage)
    vm.(stack_usage_calculator_cookie) vm.(stack_usage_calculator) vm.(dispatcher) vm.(dispatcher_validate)
    vm.(bounds_check_enabled) vm.(undefined_behavior_check_enabled) vm.(constant_blinding_enabled)
    vm.(execution_profile) vm.(execution_started) vm.(error_printf) vm.(jit_functions)
    vm.(unwind_stack_extension_index) vm.(pointer_secret) vm.(data_relocation_function)
    vm.(data_relocation_user_data) vm.(bounds_check_function) vm.(bounds_check_user_data) vm.(safe_regions)
    vm.(safe_helpers) vm.(instruction_limit) vm.(debug_function_context) vm.(debug_function).
Definition set_jitted_size (v : Z) (vm : ubpf_vm) : ubpf_vm :=
  Vm vm.(insts) vm.(insts_data) vm.(insts_owner) vm.(num_insts) vm.(insts_alloc_size)
    vm.(readonly_bytecode_enabled) vm.(jitted) vm.(jitted_code) v vm.(jitter_buffer_size) vm.(jitted_result)
    vm.(ext_funcs) vm.(int_funcs) vm.(ext_func_names) vm.(local_func_stack_usage)
    vm.(stack_usage_calculator_cookie) vm.(stack_usage_calculator) vm.(dispatcher) vm.(dispatcher_validate)
    vm.(bounds_check_enabled) vm.(undefined_behavior_check_enabled) vm.(constant_blinding_enabled)
    vm.(execution_profile) vm.(execution_started) vm.(error_printf) vm.(jit_functions)
    vm.(unwind_stack_extension_index) vm.(pointer_secret) vm.(data_relocation_function)
    vm.(data_relocation_user_data) vm.(bounds_check_function) vm.(bounds_check_user_data) vm.(safe_regions)
    vm.(safe_helpers) vm.(instruction_limit) vm.(debug_function_context) vm.(debug_function).
Definition set_jitter_buffer_size (v : Z) (vm : ubpf_vm) : ubpf_vm :=
  Vm vm.(insts) vm.(insts_data) vm.(insts_owner) vm.(num_insts) vm.(insts_alloc_size)
    vm.(readonly_bytecode_enabled) vm.(jitted) vm.(jitted_code) vm.(jitted_size) v vm.(jitted_result)
    vm.(ext_funcs) vm.(int_funcs) vm.(ext_func_names) vm.(local_func_stack_usage)
    vm.(stack_usage_calculator_cookie) vm.(stack_usage_calculator) vm.(dispatcher) vm.(dispatcher_validate)
    vm.(bounds_check_enabled) vm.(undefined_behavior_check_enabled) vm.(constant_blinding_enabled)
    vm.(execution_profile) vm.(execution_started) vm.(error_printf) vm.(jit_functions)
    vm.(unwind_stack_extension_index) vm.(pointer_secret) vm.(data_relocation_function)
    vm.(data_relocation_user_data) vm.(bounds_check_function) vm.(bounds_check_user_data) vm.(safe_regions)
    vm.(safe_helpers) vm.(instruction_limit) vm.(debug_function_context) vm.(debug_function).
Definition set_jitted_result (v : ubpf_jit_result) (vm : ubpf_vm) : ubpf_vm :=
  Vm vm.(insts) vm.(insts_data) vm.(insts_owner) vm.(num_insts) vm.(insts_alloc_size)
    vm.(readonly_bytecode_enabled) vm.(jitted) vm.(jitted_code) vm.(jitted_size) vm.(jitter_buffer_size) v
    vm.(ext_funcs) vm.(int_funcs) vm.(ext_func_names) vm.(local_func_stack_usage)
    vm.(stack_usage_calculator_cookie) vm.(stack_usage_calculator) vm.(dispatcher) vm.(dispatcher_validate)
    vm.(bounds_check_enabled) vm.(undefined_behavior_check_enabled) vm.(constant_blinding_enabled)
    vm.(execution_profile) vm.(execution_started) vm.(error_printf) vm.(jit_functions)
    vm.(unwind_stack_extension_index) vm.(pointer_secret) vm.(data_relocation_function)
    vm.(data_relocation_user_data) vm.(bounds_check_function) vm.(bounds_check_user_data) vm.(safe_regions)
    vm.(safe_helpers) vm.(instruction_limit) vm.(debug_function_context) vm.(debug_function).
Definition set_ext_funcs (v : list Z) (vm : ubpf_vm) : ubpf_vm :=
  Vm vm.(insts) vm.(insts_data) vm.(insts_owner) vm.(num_insts) vm.(insts_alloc_size)
    vm.(readonly_bytecode_enabled) vm.(jitted) vm.(jitted_code) vm.(jitted_size) vm.(jitter_buffer_size)
    vm.(jitted_result) v vm.(int_funcs) vm.(ext_func_names) vm.(local_func_stack_usage)
    vm.(stack_usage_calculator_cookie) vm.(stack_usage_calculator) vm.(dispatcher) vm.(dispatcher_validate)
    vm.(bounds_check_enabled) vm.(undefined_behavior_check_enabled) vm.(constant_blinding_enabled)
    vm.(execution_profile) vm.(execution_started) vm.(error_printf) vm.(jit_functions)
    vm.(unwind_stack_extension_index) vm.(pointer_secret) vm.(data_relocation_function)
    vm.(data_relocation_user_data) vm.(bounds_check_function) vm.(bounds_check_user_data) vm.(safe_regions)
    vm.(safe_helpers) vm.(instruction_limit) vm.(debug_function_context) vm.(debug_function).
Definition set_int_funcs (v : option (list bool)) (vm : ubpf_vm) : ubpf_vm :=
  Vm vm.(insts) vm.(insts_data) vm.(insts_owner) vm.(num_insts) vm.(insts_alloc_size)
    vm.(readonly_bytecode_enabled) vm.(jitted) vm.(jitted_code) vm.(jitted_size) vm.(jitter_buffer_size)
    vm.(jitted_result) vm.(ext_funcs) v vm.(ext_func_names) vm.(local_func_stack_usage)
    vm.(stack_usage_calculator_cookie) vm.(stack_usage_calculator) vm.(dispatcher) vm.(dispatcher_validate)
    vm.(bounds_check_enabled) vm.(undefined_behavior_check_enabled) vm.(constant_blinding_enabled)
    vm.(execution_profile) vm.(execution_started) vm.(error_printf) vm.(jit_functions)
    vm.(unwind_stack_extension_index) vm.(pointer_secret) vm.(data_relocation_function)
    vm.(data_relocation_user_data) vm.(bounds_check_function) vm.(bounds_check_user_data) vm.(safe_regions)
    vm.(safe_helpers) vm.(instruction_limit) vm.(debug_function_context) vm.(debug_function).
Definition set_ext_func_names (v : list (option string)) (vm : ubpf_vm) : ubpf_vm :=
  Vm vm.(insts) vm.(insts_data) vm.(insts_owner) vm.(num_insts) vm.(insts_alloc_size)
    vm.(readonly_bytecode_enabled) vm.(jitted) vm.(jitted_code) vm.(jitted_size) vm.(jitter_buffer_size)
    vm.(jitted_result) vm.(ext_funcs) vm.(int_funcs) v vm.(local_func_stack_usage)
    vm.(stack_usage_calculator_cookie) vm.(stack_usage_calculator) vm.(dispatcher) vm.(dispatcher_validate)
    vm.(bounds_check_enabled) vm.(undefined_behavior_check_enabled) vm.(constant_blinding_enabled)
    vm.(execution_profile) vm.(execution_started) vm.(error_printf) vm.(jit_functions)
    vm.(unwind_stack_extension_index) vm.(pointer_secret) vm.(data_relocation_function)
    vm.(data_relocation_user_data) vm.(bounds_check_function) vm.(bounds_check_user_data) vm.(safe_regions)
    vm.(safe_helpers) vm.(instruction_limit) vm.(debug_function_context) vm.(debug_function).
Definition set_local_func_stack_usage (v : option (gmap Z ubpf_stack_usage)) (vm : ubpf_vm) : ubpf_vm :=
  Vm vm.(insts) vm.(insts_data) vm.(insts_owner) vm.(num_insts) vm.(insts_alloc_size)
    vm.(readonly_bytecode_enabled) vm.(jitted) vm.(jitted_code) vm.(jitted_size) vm.(jitter_buffer_size)
    vm.(jitted_result) vm.(ext_funcs) vm.(int_funcs) vm.(ext_func_names) v vm.(stack_usage_calculator_cookie)
    vm.(stack_usage_calculator) vm.(dispatcher) vm.(dispatcher_validate) vm.(bounds_check_enabled)
    vm.(undefined_behavior_check_enabled) vm.(constant_blinding_enabled) vm.(execution_profile)
    vm.(execution_started) vm.(error_printf) vm.(jit_functions) vm.(unwind_stack_extension_index)
    vm.(pointer_secret) vm.(data_relocation_function) vm.(data_relocation_user_data)
    vm.(bounds_check_function) vm.(bounds_check_user_data) vm.(safe_regions) vm.(safe_helpers)
    vm.(instruction_limit) vm.(debug_function_context) vm.(debug_function).
Definition set_stack_usage_calculator_cookie (v : Z) (vm : ubpf_vm) : ubpf_vm :=
  Vm vm.(insts) vm.(insts_data) vm.(insts_owner) vm.(num_insts) vm.(insts_alloc_size)
    vm.(readonly_bytecode_enabled) vm.(jitted) vm.(jitted_code) vm.(jitted_size) vm.(jitter_buffer_size)
    vm.(jitted_result) vm.(ext_funcs) vm.(int_funcs) vm.(ext_func_names) vm.(local_func_stack_usage) v
    vm.(stack_usage_calculator) vm.(dispatcher) vm.(dispatcher_validate) vm.(bounds_check_enabled)
    vm.(undefined_behavior_check_enabled) vm.(constant_blinding_enabled) vm.(execution_profile)
    vm.(execution_started) vm.(error_printf) vm.(jit_functions) vm.(unwind_stack_extension_index)
    vm.(pointer_secret) vm.(data_relocation_function) vm.(data_relocation_user_data)
    vm.(bounds_check_function) vm.(bounds_check_user_data) vm.(safe_regions) vm.(safe_helpers)
    vm.(instruction_limit) vm.(debug_function_context) vm.(debug_function).
Definition set_stack_usage_calculator (v : Z) (vm : ubpf_vm) : ubpf_vm :=
  Vm vm.(insts) vm.(insts_data) vm.(insts_owner) vm.(num_insts) vm.(insts_alloc_size)
    vm.(readonly_bytecode_enabled) vm.(jitted) vm.(jitted_code) vm.(jitted_size) vm.(jitter_buffer_size)
    vm.(jitted_result) vm.(ext_funcs) vm.(int_funcs) vm.(ext_func_names) vm.(local_func_stack_usage)
    vm.(stack_usage_calculator_cookie) v vm.(dispatcher) vm.(dispatcher_validate) vm.(bounds_check_enabled)
    vm.(undefined_behavior_check_enabled) vm.(constant_blinding_enabled) vm.(execution_profile)
    vm.(execution_started) vm.(error_printf) vm.(jit_functions) vm.(unwind_stack_extension_index)
    vm.(pointer_secret) vm.(data_relocation_function) vm.(data_relocation_user_data)
    vm.(bounds_check_function) vm.(bounds_check_user_data) vm.(safe_regions) vm.(safe_helpers)
    vm.(instruction_limit) vm.(debug_function_context) vm.(debug_function).
Definition set_dispatcher (v : Z) (vm : ubpf_vm) : ubpf_vm :=
  Vm vm.(insts) vm.(insts_data) vm.(insts_owner) vm.(num_insts) vm.(insts_alloc_size)
    vm.(readonly_bytecode_enabled) vm.(jitted) vm.(jitted_code) vm.(jitted_size) vm.(jitter_buffer_size)
    vm.(jitted_result) vm.(ext_funcs) vm.(int_funcs) vm.(ext_func_names) vm.(local_func_stack_usage)
    vm.(stack_usage_calculator_cookie) vm.(stack_usage_calculator) v vm.(dispatcher_validate)
    vm.(bounds_check_enabled) vm.(undefined_behavior_check_enabled) vm.(constant_blinding_enabled)
    vm.(execution_profile) vm.(execution_started) vm.(error_printf) vm.(jit_functions)
    vm.(unwind_stack_extension_index) vm.(pointer_secret) vm.(data_relocation_function)
    vm.(data_relocation_user_data) vm.(bounds_check_function) vm.(bounds_check_user_data) vm.(safe_regions)
    vm.(safe_helpers) vm.(instruction_limit) vm.(debug_function_context) vm.(debug_function).
Definition set_dispatcher_validate (v : Z) (vm : ubpf_vm) : ubpf_vm :=
  Vm vm.(insts) vm.(insts_data) vm.(insts_owner) vm.(num_insts) vm.(insts_alloc_size)
    vm.(readonly_bytecode_enabled) vm.(jitted) vm.(jitted_code) vm.(jitted_size) vm.(jitter_buffer_size)
    vm.(jitted_result) vm.(ext_funcs) vm.(int_funcs) vm.(ext_func_names) vm.(local_func_stack_usage)
    vm.(stack_usage_calculator_cookie) vm.(stack_usage_calculator) vm.(dispatcher) v vm.(bounds_check_enabled)
    vm.(undefined_behavior_check_enabled) vm.(constant_blinding_enabled) vm.(execution_profile)
    vm.(execution_started) vm.(error_printf) vm.(jit_functions) vm.(unwind_stack_extension_index)
    vm.(pointer_secret) vm.(data_relocation_function) vm.(data_relocation_user_data)
    vm.(bounds_check_function) vm.(bounds_check_user_data) vm.(safe_regions) vm.(safe_helpers)
    vm.(instruction_limit) vm.(debug_function_context) vm.(debug_function).
Definition set_bounds_check_enabled (v : bool) (vm : ubpf_vm) : ubpf_vm :=
  Vm vm.(insts) vm.(insts_data) vm.(insts_owner) vm.(num_insts) vm.(insts_alloc_size)
    vm.(readonly_bytecode_enabled) vm.(jitted) vm.(jitted_code) vm.(jitted_size) vm.(jitter_buffer_size)
    vm.(jitted_result) vm.(ext_funcs) vm.(int_funcs) vm.(ext_func_names) vm.(local_func_stack_usage)
    vm.(stack_usage_calculator_cookie) vm.(stack_usage_calculator) vm.(dispatcher) vm.(dispatcher_validate) v
    vm.(undefined_behavior_check_enabled) vm.(constant_blinding_enabled) vm.(execution_profile)
    vm.(execution_started) vm.(error_printf) vm.(jit_functions) vm.(unwind_stack_extension_index)
    vm.(pointer_secret) vm.(data_relocation_function) vm.(data_relocation_user_data)
    vm.(bounds_check_function) vm.(bounds_check_user_data) vm.(safe_regions) vm.(safe_helpers)
    vm.(instruction_limit) vm.(debug_function_context) vm.(debug_function).
Definition set_undefined_behavior_check_enabled (v : bool) (vm : ubpf_vm) : ubpf_vm :=
  Vm vm.(insts) vm.(insts_data) vm.(insts_owner) vm.(num_insts) vm.(insts_alloc_size)
    vm.(readonly_bytecode_enabled) vm.(jitted) vm.(jitted_code) vm.(jitted_size) vm.(jitter_buffer_size)
    vm.(jitted_result) vm.(ext_funcs) vm.(int_funcs) vm.(ext_func_names) vm.(local_func_stack_usage)
    vm.(stack_usage_calculator_cookie) vm.(stack_usage_calculator) vm.(dispatcher) vm.(dispatcher_validate)
    vm.(bounds_check_enabled) v vm.(constant_blinding_enabled) vm.(execution_profile) vm.(execution_started)
    vm.(error_printf) vm.(jit_functions) vm.(unwind_stack_extension_index) vm.(pointer_secret)
    vm.(data_relocation_function) vm.(data_relocation_user_data) vm.(bounds_check_function)
    vm.(bounds_check_user_data) vm.(safe_regions) vm.(safe_helpers) vm.(instruction_limit)
    vm.(debug_function_context) vm.(debug_function).
Definition set_constant_blinding_enabled (v : bool) (vm : ubpf_vm) : ubpf_vm :=
  Vm vm.(insts) vm.(insts_data) vm.(insts_owner) vm.(num_insts) vm.(insts_alloc_size)
    vm.(readonly_bytecode_enabled) vm.(jitted) vm.(jitted_code) vm.(jitted_size) vm.(jitter_buffer_size)
    vm.(jitted_result) vm.(ext_funcs) vm.(int_funcs) vm.(ext_func_names) vm.(local_func_stack_usage)
    vm.(stack_usage_calculator_cookie) vm.(stack_usage_calculator) vm.(dispatcher) vm.(dispatcher_validate)
    vm.(bounds_check_enabled) vm.(undefined_behavior_check_enabled) v vm.(execution_profile)
    vm.(execution_started) vm.(error_printf) vm.(jit_functions) vm.(unwind_stack_extension_index)
    vm.(pointer_secret) vm.(data_relocation_function) vm.(data_relocation_user_data)
    vm.(bounds_check_function) vm.(bounds_check_user_data) vm.(safe_regions) vm.(safe_helpers)
    vm.(instruction_limit) vm.(debug_function_context) vm.(debug_function).
Definition set_execution_profile (v : ubpf_execution_profile) (vm : ubpf_vm) : ubpf_vm :=
  Vm vm.(insts) vm.(insts_data) vm.(insts_owner) vm.(num_insts) vm.(insts_alloc_size)
    vm.(readonly_bytecode_enabled) vm.(jitted) vm.(jitted_code) vm.(jitted_size) vm.(jitter_buffer_size)
    vm.(jitted_result) vm.(ext_funcs) vm.(int_funcs) vm.(ext_func_names) vm.(local_func_stack_usage)
    vm.(stack_usage_calculator_cookie) vm.(stack_usage_calculator) vm.(dispatcher) vm.(dispatcher_validate)
    vm.(bounds_check_enabled) vm.(undefined_behavior_check_enabled) vm.(constant_blinding_enabled) v
    vm.(execution_started) vm.(error_printf) vm.(jit_functions) vm.(unwind_stack_extension_index)
    vm.(pointer_secret) vm.(data_relocation_function) vm.(data_relocation_user_data)
    vm.(bounds_check_function) vm.(bounds_check_user_data) vm.(safe_regions) vm.(safe_helpers)
    vm.(instruction_limit) vm.(debug_function_context) vm.(debug_function).
Definition set_execution_started (v : bool) (vm : ubpf_vm) : ubpf_vm :=
  Vm vm.(insts) vm.(insts_data) vm.(insts_owner) vm.(num_insts) vm.(insts_alloc_size)
    vm.(readonly_bytecode_enabled) vm.(jitted) vm.(jitted_code) vm.(jitted_size) vm.(jitter_buffer_size)
    vm.(jitted_result) vm.(ext_funcs) vm.(int_funcs) vm.(ext_func_names) vm.(local_func_stack_usage)
    vm.(stack_usage_calculator_cookie) vm.(stack_usage_calculator) vm.(dispatcher) vm.(dispatcher_validate)
    vm.(bounds_check_enabled) vm.(undefined_behavior_check_enabled) vm.(constant_blinding_enabled)
    vm.(execution_profile) v vm.(error_printf) vm.(jit_functions) vm.(unwind_stack_extension_index)
    vm.(pointer_secret) vm.(data_relocation_function) vm.(data_relocation_user_data)
    vm.(bounds_check_function) vm.(bounds_check_user_data) vm.(safe_regions) vm.(safe_helpers)
    vm.(instruction_limit) vm.(debug_function_context) vm.(debug_function).
Definition set_error_printf (v : error_sink) (vm : ubpf_vm) : ubpf_vm :=
  Vm vm.(insts) vm.(insts_data) vm.(insts_owner) vm.(num_insts) vm.(insts_alloc_size)
    vm.(readonly_bytecode_enabled) vm.(jitted) vm.(jitted_code) vm.(jitted_size) vm.(jitter_buffer_size)
    vm.(jitted_result) vm.(ext_funcs) vm.(int_funcs) vm.(ext_func_names) vm.(local_func_stack_usage)
    vm.(stack_usage_calculator_cookie) vm.(stack_usage_calculator) vm.(dispatcher) vm.(dispatcher_validate)
    vm.(bounds_check_enabled) vm.(undefined_behavior_check_enabled) vm.(constant_blinding_enabled)
    vm.(execution_profile) vm.(execution_started) v vm.(jit_functions) vm.(unwind_stack_extension_index)
    vm.(pointer_secret) vm.(data_relocation_function) vm.(data_relocation_user_data)
    vm.(bounds_check_function) vm.(bounds_check_user_data) vm.(safe_regions) vm.(safe_helpers)
    vm.(instruction_limit) vm.(debug_function_context) vm.(debug_function).
Definition set_unwind_stack_extension_index (v : Z) (vm : ubpf_vm) : ubpf_vm :=
  Vm vm.(insts) vm.(insts_data) vm.(insts_owner) vm.(num_insts) vm.(insts_alloc_size)
    vm.(readonly_bytecode_enabled) vm.(jitted) vm.(jitted_code) vm.(jitted_size) vm.(jitter_buffer_size)
    vm.(jitted_result) vm.(ext_funcs) vm.(int_funcs) vm.(ext_func_names) vm.(local_func_stack_usage)
    vm.(stack_usage_calculator_cookie) vm.(stack_usage_calculator) vm.(dispatcher) vm.(dispatcher_validate)
    vm.(bounds_check_enabled) vm.(undefined_behavior_check_enabled) vm.(constant_blinding_enabled)
    vm.(execution_profile) vm.(execution_started) vm.(error_printf) vm.(jit_functions) v vm.(pointer_secret)
    vm.(data_relocation_function) vm.(data_relocation_user_data) vm.(bounds_check_function)
    vm.(bounds_check_user_data) vm.(safe_regions) vm.(safe_helpers) vm.(instruction_limit)
    vm.(debug_function_context) vm.(debug_function).
Definition set_pointer_secret (v : Z) (vm : ubpf_vm) : ubpf_vm :=
  Vm vm.(insts) vm.(insts_data) vm.(insts_owner) vm.(num_insts) vm.(insts_alloc_size)
    vm.(readonly_bytecode_enabled) vm.(jitted) vm.(jitted_code) vm.(jitted_size) vm.(jitter_buffer_size)
    vm.(jitted_result) vm.(ext_funcs) vm.(int_funcs) vm.(ext_func_names) vm.(local_func_stack_usage)
    vm.(stack_usage_calculator_cookie) vm.(stack_usage_calculator) vm.(dispatcher) vm.(dispatcher_validate)
    vm.(bounds_check_enabled) vm.(undefined_behavior_check_enabled) vm.(constant_blinding_enabled)
    vm.(execution_profile) vm.(execution_started) vm.(error_printf) vm.(jit_functions)
    vm.(unwind_stack_extension_index) v vm.(data_relocation_function) vm.(data_relocation_user_data)
    vm.(bounds_check_function) vm.(bounds_check_user_data) vm.(safe_regions) vm.(safe_helpers)
    vm.(instruction_limit) vm.(debug_function_context) vm.(debug_function).
Definition set_data_relocation_function (v : Z) (vm : ubpf_vm) : ubpf_vm :=
  Vm vm.(insts) vm.(insts_data) vm.(insts_owner) vm.(num_insts) vm.(insts_alloc_size)
    vm.(readonly_bytecode_enabled) vm.(jitted) vm.(jitted_code) vm.(jitted_size) vm.(jitter_buffer_size)
    vm.(jitted_result) vm.(ext_funcs) vm.(int_funcs) vm.(ext_func_names) vm.(local_func_stack_usage)
    vm.(stack_usage_calculator_cookie) vm.(stack_usage_calculator) vm.(dispatcher) vm.(dispatcher_validate)
    vm.(bounds_check_enabled) vm.(undefined_behavior_check_enabled) vm.(constant_blinding_enabled)
    vm.(execution_profile) vm.(execution_started) vm.(error_printf) vm.(jit_functions)
    vm.(unwind_stack_extension_index) vm.(pointer_secret) v vm.(data_relocation_user_data)
    vm.(bounds_check_function) vm.(bounds_check_user_data) vm.(safe_regions) vm.(safe_helpers)
    vm.(instruction_limit) vm.(debug_function_context) vm.(debug_function).
Definition set_data_relocation_user_data (v : Z) (vm : ubpf_vm) : ubpf_vm :=
  Vm vm.(insts) vm.(insts_data) vm.(insts_owner) vm.(num_insts) vm.(insts_alloc_size)
    vm.(readonly_bytecode_enabled) vm.(jitted) vm.(jitted_code) vm.(jitted_size) vm.(jitter_buffer_size)
    vm.(jitted_result) vm.(ext_funcs) vm.(int_funcs) vm.(ext_func_names) vm.(local_func_stack_usage)
    vm.(stack_usage_calculator_cookie) vm.(stack_usage_calculator) vm.(dispatcher) vm.(dispatcher_validate)
    vm.(bounds_check_enabled) vm.(undefined_behavior_check_enabled) vm.(constant_blinding_enabled)
    vm.(execution_profile) vm.(execution_started) vm.(error_printf) vm.(jit_functions)
    vm.(unwind_stack_extension_index) vm.(pointer_secret) vm.(data_relocation_function) v
    vm.(bounds_check_function) vm.(bounds_check_user_data) vm.(safe_regions) vm.(safe_helpers)
    vm.(instruction_limit) vm.(debug_function_context) vm.(debug_function).
Definition set_bounds_check_function (v : Z) (vm : ubpf_vm) : ubpf_vm :=
  Vm vm.(insts) vm.(insts_data) vm.(insts_owner) vm.(num_insts) vm.(insts_alloc_size)
    vm.(readonly_bytecode_enabled) vm.(jitted) vm.(jitted_code) vm.(jitted_size) vm.(jitter_buffer_size)
    vm.(jitted_result) vm.(ext_funcs) vm.(int_funcs) vm.(ext_func_names) vm.(local_func_stack_usage)
    vm.(stack_usage_calculator_cookie) vm.(stack_usage_calculator) vm.(dispatcher) vm.(dispatcher_validate)
    vm.(bounds_check_enabled) vm.(undefined_behavior_check_enabled) vm.(constant_blinding_enabled)
    vm.(execution_profile) vm.(execution_started) vm.(error_printf) vm.(jit_functions)
    vm.(unwind_stack_extension_index) vm.(pointer_secret) vm.(data_relocation_function)
    vm.(data_relocation_user_data) v vm.(bounds_check_user_data) vm.(safe_regions) vm.(safe_helpers)
    vm.(instruction_limit) vm.(debug_function_context) vm.(debug_function).
Definition set_bounds_check_user_data (v : Z) (vm : ubpf_vm) : ubpf_vm :=
  Vm vm.(insts) vm.(insts_data) vm.(insts_owner) vm.(num_insts) vm.(insts_alloc_size)
    vm.(readonly_bytecode_enabled) vm.(jitted) vm.(jitted_code) vm.(jitted_size) vm.(jitter_buffer_size)
    vm.(jitted_result) vm.(ext_funcs) vm.(int_funcs) vm.(ext_func_names) vm.(local_func_stack_usage)
    vm.(stack_usage_calculator_cookie) vm.(stack_usage_calculator) vm.(dispatcher) vm.(dispatcher_validate)
    vm.(bounds_check_enabled) vm.(undefined_behavior_check_enabled) vm.(constant_blinding_enabled)
    vm.(execution_profile) vm.(execution_started) vm.(error_printf) vm.(jit_functions)
    vm.(unwind_stack_extension_index) vm.(pointer_secret) vm.(data_relocation_function)
    vm.(data_relocation_user_data) vm.(bounds_check_function) v vm.(safe_regions) vm.(safe_helpers)
    vm.(instruction_limit) vm.(debug_function_context) vm.(debug_function).
Definition set_safe_regions (v : list ubpf_safe_region_internal) (vm : ubpf_vm) : ubpf_vm :=
  Vm vm.(insts) vm.(insts_data) vm.(insts_owner) vm.(num_insts) vm.(insts_alloc_size)
    vm.(readonly_bytecode_enabled) vm.(jitted) vm.(jitted_code) vm.(jitted_size) vm.(jitter_buffer_size)
    vm.(jitted_result) vm.(ext_funcs) vm.(int_funcs) vm.(ext_func_names) vm.(local_func_stack_usage)
    vm.(stack_usage_calculator_cookie) vm.(stack_usage_calculator) vm.(dispatcher) vm.(dispatcher_validate)
    vm.(bounds_check_enabled) vm.(undefined_behavior_check_enabled) vm.(constant_blinding_enabled)
    vm.(execution_profile) vm.(execution_started) vm.(error_printf) vm.(jit_functions)
    vm.(unwind_stack_extension_index) vm.(pointer_secret) vm.(data_relocation_function)
    vm.(data_relocation_user_data) vm.(bounds_check_function) vm.(bounds_check_user_data) v vm.(safe_helpers)
    vm.(instruction_limit) vm.(debug_function_context) vm.(debug_function).
Definition set_safe_helpers (v : list ubpf_safe_helper_metadata) (vm : ubpf_vm) : ubpf_vm :=
  Vm vm.(insts) vm.(insts_data) vm.(insts_owner) vm.(num_insts) vm.(insts_alloc_size)
    vm.(readonly_bytecode_enabled) vm.(jitted) vm.(jitted_code) vm.(jitted_size) vm.(jitter_buffer_size)
    vm.(jitted_result) vm.(ext_funcs) vm.(int_funcs) vm.(ext_func_names) vm.(local_func_stack_usage)
    vm.(stack_usage_calculator_cookie) vm.(stack_usage_calculator) vm.(dispatcher) vm.(dispatcher_validate)
    vm.(bounds_check_enabled) vm.(undefined_behavior_check_enabled) vm.(constant_blinding_enabled)
    vm.(execution_profile) vm.(execution_started) vm.(error_printf) vm.(jit_functions)
    vm.(unwind_stack_extension_index) vm.(pointer_secret) vm.(data_relocation_function)
    vm.(data_relocation_user_data) vm.(bounds_check_function) vm.(bounds_check_user_data) vm.(safe_regions) v
    vm.(instruction_limit) vm.(debug_function_context) vm.(debug_function).
Definition set_instruction_limit (v : Z) (vm : ubpf_vm) : ubpf_vm :=
  Vm vm.(insts) vm.(insts_data) vm.(insts_owner) vm.(num_insts) vm.(insts_alloc_size)
    vm.(readonly_bytecode_enabled) vm.(jitted) vm.(jitted_code) vm.(jitted_size) vm.(jitter_buffer_size)
    vm.(jitted_result) vm.(ext_funcs) vm.(int_funcs) vm.(ext_func_names) vm.(local_func_stack_usage)
    vm.(stack_usage_calculator_cookie) vm.(stack_usage_calculator) vm.(dispatcher) vm.(dispatcher_validate)
    vm.(bounds_check_enabled) vm.(undefined_behavior_check_enabled) vm.(constant_blinding_enabled)
    vm.(execution_profile) vm.(execution_started) vm.(error_printf) vm.(jit_functions)
    vm.(unwind_stack_extension_index) vm.(pointer_secret) vm.(data_relocation_function)
    vm.(data_relocation_user_data) vm.(bounds_check_function) vm.(bounds_check_user_data) vm.(safe_regions)
    vm.(safe_helpers) v vm.(debug_function_context) vm.(debug_function).
Definition set_debug_function_context (v : Z) (vm : ubpf_vm) : ubpf_vm :=
  Vm vm.(insts) vm.(insts_data) vm.(insts_owner) vm.(num_insts) vm.(insts_alloc_size)
    vm.(readonly_bytecode_enabled) vm.(jitted) vm.(jitted_code) vm.(jitted_size) vm.(jitter_buffer_size)
    vm.(jitted_result) vm.(ext_funcs) vm.(int_funcs) vm.(ext_func_names) vm.(local_func_stack_usage)
    vm.(stack_usage_calculator_cookie) vm.(stack_usage_calculator) vm.(dispatcher) vm.(dispatcher_validate)
    vm.(bounds_check_enabled) vm.(undefined_behavior_check_enabled) vm.(constant_blinding_enabled)
    vm.(execution_profile) vm.(execution_started) vm.(error_printf) vm.(jit_functions)
    vm.(unwind_stack_extension_index) vm.(pointer_secret) vm.(data_relocation_function)
    vm.(data_relocation_user_data) vm.(bounds_check_function) vm.(bounds_check_user_data) vm.(safe_regions)
    vm.(safe_helpers) vm.(instruction_limit) v vm.(debug_function).
Definition set_debug_function (v : Z) (vm : ubpf_vm) : ubpf_vm :=
  Vm vm.(insts) vm.(insts_data) vm.(insts_owner) vm.(num_insts) vm.(insts_alloc_size)
    vm.(readonly_bytecode_enabled) vm.(jitted) vm.(jitted_code) vm.(jitted_size) vm.(jitter_buffer_size)
    vm.(jitted_result) vm.(ext_funcs) vm.(int_funcs) vm.(ext_func_names) vm.(local_func_stack_usage)
    vm.(stack_usage_calculator_cookie) vm.(stack_usage_calculator) vm.(dispatcher) vm.(dispatcher_validate)
    vm.(bounds_check_enabled) vm.(undefined_behavior_check_enabled) vm.(constant_blinding_enabled)
    vm.(execution_profile) vm.(execution_started) vm.(error_printf) vm.(jit_functions)
    vm.(unwind_stack_extension_index) vm.(pointer_secret) vm.(data_relocation_function)
    vm.(data_relocation_user_data) vm.(bounds_check_function) vm.(bounds_check_user_data) vm.(safe_regions)
    vm.(safe_helpers) vm.(instruction_limit) vm.(debug_function_context) v.

(** ** The embedder's and the operating system's side

    Functions the VM calls through a pointer are the embedder's, not the
    repository's.  [HostEnv] gives, for each kind of callback, what calling the
    pointer does; helpers and the debug function may also write memory.  A helper
    gets addresses from the program: [None] is its undefined behaviour, as the access
    to an address that is not mapped. *)

Class HostEnv : Type := {
  (* external_function_t, with the cookie as sixth argument *)
  call_helper : Z -> Z -> Z -> Z -> Z -> Z -> Z -> gmap Z Z -> option (Z * gmap Z Z);
  (* external_function_dispatcher_t: five arguments, index, cookie *)
  call_dispatcher : Z -> Z -> Z -> Z -> Z -> Z -> Z -> Z -> gmap Z Z -> option (Z * gmap Z Z);
  (* external_function_validate_t *)
  call_validate : Z -> Z -> ubpf_vm -> bool;
  (* ubpf_bounds_check: context, address, size *)
  call_bounds_check : Z -> Z -> Z -> Z -> gmap Z Z -> bool;
  (* stack_usage_calculator_t: vm, pc, cookie *)
  call_stack_usage : Z -> ubpf_vm -> Z -> Z -> Z;
  (* ubpf_debug_fn: context, pc, registers, stack, its length, register mask, stack mask *)
  call_debug : Z -> Z -> Z -> list Z -> Z -> Z -> Z -> list Z -> gmap Z Z -> gmap Z Z;
  (* the addresses the bounds-check function is there to grant: the embedder
     keeps them mapped while the program runs *)
  host_granted : Z -> Prop;
}.

(** A host whose functions do nothing, to evaluate the model with. *)
Definition null_host : HostEnv := {|
  call_helper _ _ _ _ _ _ _ m := Some (0, m);
  call_dispatcher _ _ _ _ _ _ _ _ m := Some (0, m);
  call_validate _ _ _ := false;
  call_bounds_check _ _ _ _ _ := false;
  call_stack_usage _ _ _ _ := 0;
  call_debug _ _ _ _ _ _ _ _ m := m;
  host_granted _ := False;
|}.

(** Memory protections the code asks [mprotect] for. *)
Inductive prot : Type := PROT_R | PROT_RW | PROT_RX.

(** ** Configuration *)

Definition ubpf_toggle_bounds_check (vm : ubpf_vm) (enable : bool) : ubpf_vm * bool :=
  (set_bounds_check_enabled enable vm, vm.(bounds_check_enabled)).

Definition ubpf_toggle_constant_blinding (vm : ubpf_vm) (enable : bool) : ubpf_vm * bool :=
  (set_constant_blinding_enabled enable vm, vm.(constant_blinding_enabled)).

Definition ubpf_toggle_undefined_behavior_check (vm : ubpf_vm) (enable : bool) : ubpf_vm * bool :=
  (set_undefined_behavior_check_enabled enable vm, vm.(undefined_behavior_check_enabled)).

Definition ubpf_toggle_readonly_bytecode (vm : ubpf_vm) (enable : bool) : ubpf_vm * bool :=
  (set_readonly_bytecode_enabled enable vm, vm.(readonly_bytecode_enabled)).

Definition ubpf_set_error_print (vm : ubpf_vm) (error_printf : Z) : ubpf_vm :=
  if negb (error_printf =? 0) then set_error_printf (CustomPrintf error_printf) vm
  else set_error_printf Fprintf vm.

Definition ubpf_set_unwind_function_index (vm : ubpf_vm) (idx : Z) : ubpf_vm * Z :=
  if negb (vm.(unwind_stack_extension_index) =? -1) then (vm, -1)
  else (set_unwind_stack_extension_index (s32 idx) vm, 0).

Definition ubpf_set_pointer_secret (vm : ubpf_vm) (secret : Z) : ubpf_vm * Z :=
  if negb (vm.(insts) =? 0) then (vm, -1) else (set_pointer_secret secret vm, 0).

Definition ubpf_register_data_relocation (vm : ubpf_vm) (user_context relocation : Z) : ubpf_vm * Z :=
  if negb (vm.(data_relocation_function) =? 0) then (vm, -1)
  else (set_data_relocation_user_data user_context (set_data_relocation_function relocation vm), 0).

Definition ubpf_register_data_bounds_check (vm : ubpf_vm) (user_context bounds_check : Z) : ubpf_vm * Z :=
  if negb (vm.(bounds_check_function) =? 0) then (vm, -1)
  else (set_bounds_check_user_data user_context (set_bounds_check_function bounds_check vm), 0).

(** [limit] is a [uint32_t], the field an [int]; the second result is what
    [*previous_limit] receives, the third the return value. *)
Definition ubpf_set_instruction_limit (vm : ubpf_vm) (limit : Z) : ubpf_vm * Z * Z :=
  (set_instruction_limit (s32 limit) vm, u32 vm.(instruction_limit), 0).

Definition ubpf_register_stack_usage_calculator (vm : ubpf_vm) (calculator cookie : Z) : ubpf_vm * Z :=
  (set_stack_usage_calculator calculator (set_stack_usage_calculator_cookie cookie vm), 0).

Definition ubpf_register_debug_fn (vm : ubpf_vm) (context debug_function : Z) : ubpf_vm * Z :=
  if (negb (vm.(Vm.debug_function) =? 0) && negb (debug_function =? 0)) ||
     ((vm.(Vm.debug_function) =? 0) && (debug_function =? 0))
  then (vm, -1)
  else (set_debug_function_context context (set_debug_function debug_function vm), 0).

Definition ubpf_set_jit_code_size (vm : ubpf_vm) (code_size : Z) : ubpf_vm * Z :=
  (set_jitter_buffer_size code_size vm, 0).

(** Release builds do not expose the registers: a warning, and NULL. *)
Definition ubpf_set_registers (vm : ubpf_vm) (regs : Z) : ubpf_vm := vm.
Definition ubpf_get_registers (vm : ubpf_vm) : Z := 0.

(** An [enum ubpf_execution_profile] argument is any integer the caller passes. *)
Definition profile_of (profile : Z) : option ubpf_execution_profile :=
  if profile =? 0 then Some UBPF_EXECUTION_PROFILE_LEGACY
  else if profile =? 1 then Some UBPF_EXECUTION_PROFILE_SAFE
  else None.

Definition ubpf_set_execution_profile_impl (vm : ubpf_vm) (profile : Z) : ubpf_vm * Z :=
  match profile_of profile with
  | None => (vm, -1)
  | Some p =>
      if negb (vm.(insts) =? 0) || negb (vm.(jitted) =? 0) || vm.(execution_started) then (vm, -1)
      else (set_execution_profile p vm, 0)
  end.

(** ** Creation *)

Definition safe_region_zero : ubpf_safe_region_internal :=
  SafeRegionSlot false 0 0 0 UBPF_SAFE_REGION_POINTER 0.

Definition safe_helper_zero : ubpf_safe_helper_metadata :=
  SafeHelper false UBPF_SAFE_HELPER_RESULT_SCALAR 0 0.

(** [calloc(1, sizeof( *vm))]: every field zero, every pointer NULL. *)
Definition zeroed_vm (target : jit_target) : ubpf_vm :=
  Vm 0 [] FromMmap 0 0 false 0 [] 0 0 (JitResult 0 0 UBPF_JIT_COMPILE_SUCCESS ExtendedJitMode)
     [] None [] None 0 0 0 0 false false false UBPF_EXECUTION_PROFILE_LEGACY false Fprintf target
     0 0 0 0 0 0
     (replicate (Z.to_nat UBPF_MAX_SAFE_REGIONS) safe_region_zero)
     (replicate (Z.to_nat MAX_EXT_FUNCS) safe_helper_zero) 0 0 0.

(** A VM with its stack-usage table and nothing else. *)
Definition empty_vm (target : jit_target) : ubpf_vm := set_local_func_stack_usage (Some ∅) (zeroed_vm target).

(** [ubpf_create] for the target the preprocessor selects; [alloc n] says
    whether the n-th allocation of the call succeeds. *)
Definition ubpf_create (target : jit_target) (alloc : nat -> bool) : option ubpf_vm :=
  if negb (alloc 0%nat) then None else
  let vm := zeroed_vm target in
  if negb (alloc 1%nat) then None else
  let vm := set_ext_funcs (replicate (Z.to_nat MAX_EXT_FUNCS) 0) vm in
  if negb (alloc 2%nat) then None else
  let vm := set_ext_func_names (replicate (Z.to_nat MAX_EXT_FUNCS) None) vm in
  if negb (alloc 3%nat) then None else
  let vm := set_local_func_stack_usage (Some ∅) vm in
  let vm := set_bounds_check_enabled true vm in
  let vm := set_undefined_behavior_check_enabled false vm in
  let vm := set_readonly_bytecode_enabled true vm in
  let vm := set_constant_blinding_enabled false vm in
  let vm := set_execution_profile UBPF_EXECUTION_PROFILE_LEGACY vm in
  let vm := set_error_printf Fprintf vm in
  let vm := set_unwind_stack_extension_index (-1) vm in
  let r := vm.(jitted_result) in
  let vm := set_jitted_result
              (JitResult r.(external_dispatcher_offset) r.(external_helper_offset)
                 UBPF_JIT_COMPILE_FAILURE r.(jit_mode)) vm in
  Some (set_jitter_buffer_size DEFAULT_JITTER_BUFFER_SIZE vm).

(** ** Helper and dispatcher registration *)

(** [ubpf_jit_update_helper_x86_64] and its arm64 twin: the new code bytes, or
    [None] when the slot does not fit.  [size] is the size of the code. *)
Definition ubpf_jit_update_helper_x86_64 (new_helper idx buffer : Z) (code : list Z) (size offset : Z)
    : option (list Z) :=
  let jit_upper_bound := u64 (buffer + size) in
  let dispatcher_address := u64 (buffer + offset + u32 (8 * idx)) in
  if u64 (dispatcher_address + 8) <? jit_upper_bound
  then Some (list_inserts (Z.to_nat (dispatcher_address - buffer)) (le_encode 8 new_helper) code)
  else None.

Definition ubpf_jit_update_helper_arm64 (new_helper idx buffer : Z) (code : list Z) (size offset : Z)
    : option (list Z) :=
  let jit_upper_bound := u64 (buffer + size) in
  let dispatcher_address := u64 (buffer + offset + u32 (8 * idx)) in
  if u64 (dispatcher_address + 8) <? jit_upper_bound
  then Some (list_inserts (Z.to_nat (dispatcher_address - buffer)) (le_encode 8 new_helper) code)
  else None.

Definition ubpf_jit_update_helper_null (new_helper idx buffer : Z) (code : list Z) (size offset : Z)
    : option (list Z) := None.

Definition jit_update_helper (t : jit_target) :=
  match t with
  | JitX86_64 => ubpf_jit_update_helper_x86_64
  | JitArm64 => ubpf_jit_update_helper_arm64
  | JitNull => ubpf_jit_update_helper_null
  end.

Definition ubpf_jit_update_dispatcher_x86_64 (new_dispatcher buffer : Z) (code : list Z) (size offset : Z)
    : option (list Z) :=
  let jit_upper_bound := u64 (buffer + size) in
  let dispatcher_address := u64 (buffer + offset) in
  if u64 (dispatcher_address + 8) <? jit_upper_bound
  then Some (list_inserts (Z.to_nat (dispatcher_address - buffer)) (le_encode 8 new_dispatcher) code)
  else None.

Definition ubpf_jit_update_dispatcher_arm64 (new_dispatcher buffer : Z) (code : list Z) (size offset : Z)
    : option (list Z) :=
  let jit_upper_bound := u64 (buffer + size) in
  let dispatcher_address := u64 (buffer + offset) in
  if u64 (dispatcher_address + 8) <? jit_upper_bound
  then Some (list_inserts (Z.to_nat (dispatcher_address - buffer)) (le_encode 8 new_dispatcher) code)
  else None.

Definition ubpf_jit_update_dispatcher_null (new_dispatcher buffer : Z) (code : list Z) (size offset : Z)
    : option (list Z) := None.

Definition jit_update_dispatcher (t : jit_target) :=
  match t with
  | JitX86_64 => ubpf_jit_update_dispatcher_x86_64
  | JitArm64 => ubpf_jit_update_dispatcher_arm64
  | JitNull => ubpf_jit_update_dispatcher_null
  end.

(** The tail both registration calls share: unprotect, update, protect again. *)
Definition update_jitted (vm : ubpf_vm) (mprotect : Z -> Z -> prot -> bool)
    (update : list Z -> option (list Z)) : ubpf_vm * Z :=
  if decide (vm.(jitted_result).(compile_result) = UBPF_JIT_COMPILE_SUCCESS) then
    if negb (mprotect vm.(jitted) vm.(jitted_size) PROT_RW) then (vm, -1) else
    let '(vm, success) :=
      match update vm.(jitted_code) with
      | Some code => (set_jitted_code code vm, 0)
      | None => (vm, -1)
      end in
    if negb (mprotect vm.(jitted) vm.(jitted_size) PROT_RX) then (vm, -1) else (vm, success)
  else (vm, 0).

Definition ubpf_register (vm : ubpf_vm) (mprotect : Z -> Z -> prot -> bool)
    (idx : Z) (name : option string) (fn : Z) : ubpf_vm * Z :=
  if MAX_EXT_FUNCS <=? idx then (vm, -1) else
  let vm := set_ext_funcs (<[Z.to_nat idx := fn]> vm.(ext_funcs)) vm in
  let vm := set_ext_func_names (<[Z.to_nat idx := name]> vm.(ext_func_names)) vm in
  update_jitted vm mprotect (fun code =>
    jit_update_helper vm.(jit_functions) fn idx vm.(jitted) code vm.(jitted_size)
      vm.(jitted_result).(external_helper_offset)).

Definition ubpf_register_external_dispatcher (vm : ubpf_vm) (mprotect : Z -> Z -> prot -> bool)
    (dispatcher validater : Z) : ubpf_vm * Z :=
  let vm := set_dispatcher dispatcher vm in
  let vm := set_dispatcher_validate validater vm in
  update_jitted vm mprotect (fun code =>
    jit_update_dispatcher vm.(jit_functions) dispatcher vm.(jitted) code vm.(jitted_size)
      vm.(jitted_result).(external_dispatcher_offset)).

(** [strcmp] against each name in turn; [unsigned int] -1 when none matches. *)
Fixpoint lookup_name_from (i : Z) (names : list (option string)) (name : string) : Z :=
  match names with
  | [] => UINT32_MAX
  | other :: names' =>
      if bool_decide (other = Some name) then i else lookup_name_from (i + 1) names' name
  end.

Definition ubpf_lookup_registered_function (vm : ubpf_vm) (name : string) : Z :=
  lookup_name_from 0 vm.(ext_func_names) name.

(** ** The instruction store *)

(** [encode_inst.value ^= (uint64_t)vm->insts; encode_inst.value ^= vm->pointer_secret] *)
Definition encode_word (vm : ubpf_vm) (value : Z) : Z :=
  value .^ vm.(insts) .^ vm.(pointer_secret).

(** [None]: a read past the array. *)
Definition ubpf_fetch_instruction (vm : ubpf_vm) (pc : Z) : option ebpf_inst :=
  (fun w => inst_of_u64 (encode_word vm w)) <$> vm.(insts_data) !! Z.to_nat pc.

Definition ubpf_store_instruction (vm : ubpf_vm) (pc : Z) (inst : ebpf_inst) : ubpf_vm :=
  set_insts_data (<[Z.to_nat pc := encode_word vm (u64_of_inst inst)]> vm.(insts_data)) vm.

(** ** Local-function stack usage *)

(** The entries of the table.  A NULL table has none: reading one is undefined,
    which [ubpf_stack_usage_for_local_func] below gives for an unknown entry in any
    case, and [ubpf_load] before it validates. *)
Definition usage_table (vm : ubpf_vm) : gmap Z ubpf_stack_usage := default ∅ vm.(local_func_stack_usage).

Definition usage_at (vm : ubpf_vm) (pc : Z) : ubpf_stack_usage :=
  default (StackUsage UBPF_STACK_USAGE_UNKNOWN 0) (usage_table vm !! pc).

(** [None]: the assertion fails, or the table is NULL. *)
Definition ubpf_stack_usage_for_local_func (vm : ubpf_vm) (pc : Z) : option Z :=
  match (usage_at vm pc).(stack_usage_calculated) with
  | UBPF_STACK_USAGE_UNKNOWN => None
  | UBPF_STACK_USAGE_CUSTOM => Some (usage_at vm pc).(stack_usage)
  | UBPF_STACK_USAGE_DEFAULT => Some UBPF_EBPF_LOCAL_FUNCTION_STACK_SIZE
  end.

Definition set_usage (vm : ubpf_vm) (pc : Z) (u : ubpf_stack_usage) : ubpf_vm :=
  set_local_func_stack_usage (Some (<[pc := u]> (usage_table vm))) vm.

Section StackUsage.
Context `{HostEnv}.

(** Fills the cache entry of [pc] if it is unknown, then checks the alignment:
    the flag is the return value. *)
Definition ubpf_calculate_stack_usage_for_local_func (vm : ubpf_vm) (pc : Z) : ubpf_vm * bool :=
  let pc := u16 pc in
  let vm :=
    if decide ((usage_at vm pc).(stack_usage_calculated) = UBPF_STACK_USAGE_UNKNOWN) then
      let vm := set_usage vm pc (StackUsage UBPF_STACK_USAGE_DEFAULT (usage_at vm pc).(stack_usage)) in
      if negb (vm.(stack_usage_calculator) =? 0) then
        set_usage vm pc
          (StackUsage UBPF_STACK_USAGE_CUSTOM
             (u16 (call_stack_usage vm.(stack_usage_calculator) vm pc vm.(stack_usage_calculator_cookie))))
      else vm
    else vm in
  (vm, match ubpf_stack_usage_for_local_func vm pc with
       | Some usage => usage mod 16 =? 0
       | None => false
       end).

End StackUsage.

(** ** Unloading

    [calloc_ok] says whether the [calloc] of the new stack-usage table succeeds;
    its result is not checked, and is NULL when it does not.
    [None]: the instruction array is handed to the deallocator of the other
    allocator, [free] of a mapping or [munmap] of a heap block. *)
Definition ubpf_unload_code (vm : ubpf_vm) (calloc_ok : bool) : option ubpf_vm :=
  let vm := set_local_func_stack_usage (if calloc_ok then Some ∅ else None) vm in
  let vm :=
    if negb (vm.(jitted) =? 0) then set_jitted_size 0 (set_jitted_code [] (set_jitted 0 vm))
    else vm in
  vm ←
    (if negb (vm.(insts) =? 0) then
       let releaser := if vm.(readonly_bytecode_enabled) then FromMmap else FromMalloc in
       match vm.(insts_owner), releaser with
       | FromMmap, FromMmap | FromMalloc, FromMalloc =>
           Some (set_insts_alloc_size 0 (set_num_insts 0 (set_insts_data [] (set_insts 0 vm))))
       | _, _ => None
       end
     else Some vm);
  Some (set_int_funcs None vm).

(** The code is unloaded, then the tables and the VM are released; [None] as for
    [ubpf_unload_code]. *)
Definition ubpf_destroy (vm : ubpf_vm) (calloc_ok : bool) : option unit :=
  vm ← ubpf_unload_code vm calloc_ok;
  Some tt.

(** ** Lemmas *)

Lemma encode_word_involutive vm v : encode_word vm (encode_word vm v) = v.
Proof.
  unfold encode_word. generalize vm.(insts) vm.(pointer_secret). intros a b.
  apply Z.bits_inj'. intros i _. rewrite !Z.lxor_spec.
  by destruct (Z.testbit v i), (Z.testbit a i), (Z.testbit b i).
Qed.

Lemma fetch_store_same vm pc i :
  inst_ok i -> (Z.to_nat pc < length vm.(insts_data))%nat ->
  ubpf_fetch_instruction (ubpf_store_instruction vm pc i) pc = Some i.
Proof.
  intros Hi Hpc. unfold ubpf_fetch_instruction, ubpf_store_instruction. cbn [insts_data set_insts_data].
  rewrite list_lookup_insert_eq by done. simpl. f_equal.
  change (encode_word (set_insts_data _ vm)) with (encode_word vm).
  rewrite encode_word_involutive. by apply inst_u64_roundtrip.
Qed.

Lemma fetch_store_other vm pc pc' i :
  Z.to_nat pc <> Z.to_nat pc' ->
  ubpf_fetch_instruction (ubpf_store_instruction vm pc i) pc' = ubpf_fetch_instruction vm pc'.
Proof.
  intros H. unfold ubpf_fetch_instruction, ubpf_store_instruction. cbn [insts_data set_insts_data].
  rewrite list_lookup_insert_ne by done. done.
Qed.

Lemma usage_at_set vm pc u : usage_at (set_usage vm pc u) pc = u.
Proof. unfold usage_at, usage_table, set_usage. cbn. by rewrite lookup_insert_eq. Qed.

Lemma usage_at_set_ne vm pc pc' u : pc <> pc' -> usage_at (set_usage vm pc u) pc' = usage_at vm pc'.
Proof. intros. unfold usage_at, set_usage. cbn. by rewrite lookup_insert_ne. Qed.

Definition usage_known (vm : ubpf_vm) (pc : Z) : Prop :=
  (usage_at vm pc).(stack_usage_calculated) <> UBPF_STACK_USAGE_UNKNOWN.

Lemma usage_known_some vm pc : usage_known vm pc -> is_Some (ubpf_stack_usage_for_local_func vm pc).
Proof.
  unfold usage_known, ubpf_stack_usage_for_local_func.
  destruct (stack_usage_calculated _); [congruence | eauto ..].
Qed.

(** Every entry of the cache is a [uint16_t]. *)
Definition usages_typed (vm : ubpf_vm) : Prop :=
  map_Forall (fun _ u => 0 <= u.(stack_usage) < 2 ^ 16) (usage_table vm).

Lemma usage_at_typed vm pc : usages_typed vm -> 0 <= (usage_at vm pc).(stack_usage) < 2 ^ 16.
Proof.
  intros H. unfold usage_at. destruct (usage_table vm !! pc) as [u |] eqn:E; [by apply (H pc) | cbn; lia].
Qed.

Lemma usage_typed vm pc u : usages_typed vm -> ubpf_stack_usage_for_local_func vm pc = Some u -> 0 <= u < 2 ^ 16.
Proof.
  intros H. unfold ubpf_stack_usage_for_local_func. pose proof (usage_at_typed vm pc H).
  destruct (stack_usage_calculated _); intros [= <-]; [done |]. by vm_compute.
Qed.

Lemma set_usage_typed vm pc u : 0 <= u.(stack_usage) < 2 ^ 16 -> usages_typed vm -> usages_typed (set_usage vm pc u).
Proof. intros Hu H. by apply map_Forall_insert_2. Qed.

(** [ubpf_calculate_stack_usage_for_local_func] changes the cache entry of its
    function only, and leaves it known. *)
Lemma calculate_usage_known `{HostEnv} vm pc :
  usage_known (ubpf_calculate_stack_usage_for_local_func vm pc).1 (u16 pc).
Proof.
  unfold ubpf_calculate_stack_usage_for_local_func, usage_known. cbn [fst].
  case_decide as Hd; [| done]. destruct (negb _); rewrite usage_at_set; discriminate.
Qed.

Lemma calculate_usage_typed `{HostEnv} vm pc :
  usages_typed vm -> usages_typed (ubpf_calculate_stack_usage_for_local_func vm pc).1.
Proof.
  intros Ht. unfold ubpf_calculate_stack_usage_for_local_func. cbn [fst]. case_decide; [| done].
  assert (usages_typed (set_usage vm (u16 pc) (StackUsage UBPF_STACK_USAGE_DEFAULT (usage_at vm (u16 pc)).(stack_usage))))
    by (apply set_usage_typed; [by apply usage_at_typed | done]).
  destruct (negb _); [| done]. apply set_usage_typed; [by apply wrap_range | done].
Qed.

Lemma calculate_usage_other `{HostEnv} vm pc pc' :
  u16 pc <> pc' ->
  usage_at (ubpf_calculate_stack_usage_for_local_func vm pc).1 pc' = usage_at vm pc'.
Proof.
  intros Hne. unfold ubpf_calculate_stack_usage_for_local_func. cbn [fst].
  case_decide; [| done]. destruct (negb _); by rewrite ?usage_at_set_ne.
Qed.

Lemma calculate_usage_stable `{HostEnv} vm pc :
  usage_known vm (u16 pc) -> (ubpf_calculate_stack_usage_for_local_func vm pc).1 = vm.
Proof.
  intros Hk. unfold ubpf_calculate_stack_usage_for_local_func. cbn [fst].
  by rewrite decide_False.
Qed.

Lemma calculate_usage_frame `{HostEnv} vm pc :
  (ubpf_calculate_stack_usage_for_local_func vm pc).1 =
  set_local_func_stack_usage
    (ubpf_calculate_stack_usage_for_local_func vm pc).1.(local_func_stack_usage) vm.
Proof.
  unfold ubpf_calculate_stack_usage_for_local_func. cbn [fst].
  case_decide; [destruct (negb _) |]; by destruct vm.
Qed.

Lemma list_inserts_slot (l k : list Z) i :
  (i + length k <= length l)%nat -> take (length k) (drop i (list_inserts i k l)) = k.
Proof.
  intros H. apply list_eq. intros j. destruct (decide (j < length k)%nat) as [Hj | Hj].
  - rewrite lookup_take_lt, lookup_drop by done.
    rewrite list_lookup_inserts by (rewrite ?length_inserts; lia). f_equal. lia.
  - rewrite lookup_take_ge by lia. symmetry. apply lookup_ge_None. lia.
Qed.

(** ** Properties *)

(** An instruction stored in the VM is fetched back unchanged through the
    XOR encoding with the array's address and the pointer secret, and storing
    it leaves every other slot as it was. *)
Theorem fetch_after_store (vm : ubpf_vm) (pc pc' : Z) (i : ebpf_inst) :
  inst_ok i -> 0 <= pc < Z.of_nat (length vm.(insts_data)) -> 0 <= pc' ->
  ubpf_fetch_instruction (ubpf_store_instruction vm pc i) pc' =
  if pc' =? pc then Some i else ubpf_fetch_instruction vm pc'.
Proof.
  intros Hi Hpc Hpc'. destruct (Z.eqb_spec pc' pc) as [-> | Hne].
  - apply fetch_store_same; [done | lia].
  - apply fetch_store_other. lia.
Qed.

Lemma fetch_after_store_witness :
  let vm := set_insts_data [0; 0] (set_pointer_secret 99 (set_insts 4096 (zeroed_vm JitNull))) in
  ubpf_fetch_instruction (ubpf_store_instruction vm 1 (Inst 0x95 0 0 (-1) (-5))) 1 =
  Some (Inst 0x95 0 0 (-1) (-5)).
Proof.
  intros vm. rewrite (fetch_after_store vm 1 1 (Inst 0x95 0 0 (-1) (-5))).
  - reflexivity.
  - repeat split; vm_compute; congruence.
  - vm_compute; split; congruence.
  - lia.
Defined.

(** Registering a helper on a VM whose program is compiled updates the slot
    of the helper in the compiled code, for every slot that ends before the end
    of the code: the call returns 0, the helper table entry is the new function,
    and the eight bytes of the slot in the code are its address. *)
Theorem register_updates_compiled_slot (vm : ubpf_vm) (mprotect : Z -> Z -> prot -> bool)
    (idx fn : Z) (name : option string) :
  vm.(jitted_result).(compile_result) = UBPF_JIT_COMPILE_SUCCESS ->
  vm.(jit_functions) = JitX86_64 \/ vm.(jit_functions) = JitArm64 ->
  (forall p, mprotect vm.(jitted) vm.(jitted_size) p = true) ->
  length vm.(ext_funcs) = 64%nat -> 0 <= idx < 64 -> unsigned_fits 64 fn ->
  vm.(jitted_size) = Z.of_nat (length vm.(jitted_code)) ->
  0 <= vm.(jitted) -> vm.(jitted) + vm.(jitted_size) < 2 ^ 64 ->
  let slot := vm.(jitted_result).(external_helper_offset) + 8 * idx in
  0 <= vm.(jitted_result).(external_helper_offset) -> slot + 8 < vm.(jitted_size) ->
  let '(vm', r) := ubpf_register vm mprotect idx name fn in
  r = 0 /\ vm'.(ext_funcs) !! Z.to_nat idx = Some fn /\
  le_decode (take 8 (drop (Z.to_nat slot) vm'.(jitted_code))) = fn.
Proof.
  intros Hc Ht Hp Hl Hi Hf Hs Hb Hb' slot Ho Hslot. unfold ubpf_register, update_jitted.
  destruct (Z.leb_spec MAX_EXT_FUNCS idx) as [Hx | _]; [unfold MAX_EXT_FUNCS in Hx; lia |].
  cbn [jitted_result jitted jitted_size jit_functions jitted_code set_ext_func_names set_ext_funcs].
  rewrite decide_True by done. rewrite Hp. cbn [negb].
  assert (jit_update_helper (jit_functions vm) fn idx (jitted vm) (jitted_code vm) (jitted_size vm)
            (external_helper_offset (jitted_result vm)) =
          Some (list_inserts (Z.to_nat slot) (le_encode 8 fn) vm.(jitted_code))) as ->.
  { destruct Ht as [-> | ->]; cbn [jit_update_helper];
      unfold ubpf_jit_update_helper_x86_64, ubpf_jit_update_helper_arm64, wrap;
      rewrite (Z.mod_small (8 * idx)) by lia; rewrite (Z.mod_small (_ + 8 * idx)) by lia;
      rewrite (Z.mod_small (_ + 8)), (Z.mod_small (_ + jitted_size vm)) by lia;
      rewrite (proj2 (Z.ltb_lt _ _)) by lia; do 2 f_equal; lia. }
  cbn. rewrite Hp. cbn. split; [done |]. split.
  - apply list_lookup_insert_eq. lia.
  - change (le_decode (take (length (le_encode 8 fn)) (drop (Z.to_nat slot)
      (list_inserts (Z.to_nat slot) (le_encode 8 fn) vm.(jitted_code)))) = fn).
    rewrite list_inserts_slot.
    + rewrite le_decode_encode. by apply wrap_id.
    + rewrite length_le_encode. lia.
Qed.

Lemma register_updates_compiled_slot_witness :
  let vm := set_ext_funcs (replicate 64 0) (set_jitted 4096 (set_jitted_size 600
              (set_jitted_code (replicate 600 0) (set_jitted_result
                (JitResult 0 8 UBPF_JIT_COMPILE_SUCCESS BasicJitMode) (zeroed_vm JitX86_64))))) in
  (ubpf_register vm (fun _ _ _ => true) 5 None 777).2 = 0.
Proof.
  intros vm.
  pose proof (register_updates_compiled_slot vm (fun _ _ _ => true) 5 777 None) as H.
  unfold unsigned_fits in H.
  specialize (H eq_refl (or_introl eq_refl) (fun _ => eq_refl) eq_refl ltac:(lia) ltac:(lia)
                eq_refl ltac:(cbn; lia) ltac:(cbn; lia) ltac:(cbn; lia) ltac:(cbn; lia)).
  destruct (ubpf_register vm (fun _ _ _ => true) 5 None 777) as [vm' r]. apply H.
Defined.

(** When the helper table is the last thing in the compiled code, as
    [translate] lays it out, registering the last helper (index 63) after
    compilation fails: the helper table of the VM has the new function, the
    compiled code keeps the old one, and the call returns -1. *)
Theorem register_last_helper_refused (vm : ubpf_vm) (mprotect : Z -> Z -> prot -> bool)
    (fn : Z) (name : option string) :
  vm.(jitted_result).(compile_result) = UBPF_JIT_COMPILE_SUCCESS ->
  vm.(jit_functions) = JitX86_64 \/ vm.(jit_functions) = JitArm64 ->
  (forall p, mprotect vm.(jitted) vm.(jitted_size) p = true) ->
  length vm.(ext_funcs) = 64%nat ->
  0 <= vm.(jitted) -> vm.(jitted) + vm.(jitted_size) < 2 ^ 64 ->
  0 <= vm.(jitted_result).(external_helper_offset) ->
  vm.(jitted_size) = vm.(jitted_result).(external_helper_offset) + 8 * MAX_EXT_FUNCS ->
  let '(vm', r) := ubpf_register vm mprotect 63 name fn in
  r = -1 /\ vm'.(ext_funcs) !! 63%nat = Some fn /\ vm'.(jitted_code) = vm.(jitted_code).
Proof.
  unfold MAX_EXT_FUNCS. intros Hc Ht Hp Hl Hb Hb' Ho Hs. unfold ubpf_register, update_jitted.
  change (MAX_EXT_FUNCS <=? 63) with false. cbv iota.
  cbn [jitted_result jitted jitted_size jit_functions jitted_code set_ext_func_names set_ext_funcs].
  rewrite decide_True by done. rewrite Hp. cbn [negb].
  assert (jit_update_helper (jit_functions vm) fn 63 (jitted vm) (jitted_code vm) (jitted_size vm)
            (external_helper_offset (jitted_result vm)) = None) as ->.
  { destruct Ht as [-> | ->]; cbn [jit_update_helper];
      unfold ubpf_jit_update_helper_x86_64, ubpf_jit_update_helper_arm64, wrap;
      rewrite (Z.mod_small (8 * 63)) by lia; rewrite (Z.mod_small (_ + 8 * 63)) by lia;
      rewrite (Z.mod_small (_ + 8)), (Z.mod_small (_ + jitted_size vm)) by lia;
      rewrite (proj2 (Z.ltb_ge _ _)) by lia; done. }
  cbn. rewrite Hp. cbn. split; [done |]. split; [| done].
  apply list_lookup_insert_eq. lia.
Qed.

Lemma register_last_helper_refused_witness :
  let vm := set_ext_funcs (replicate 64 0) (set_jitted 4096 (set_jitted_size 520
              (set_jitted_code (replicate 520 0) (set_jitted_result
                (JitResult 0 8 UBPF_JIT_COMPILE_SUCCESS BasicJitMode) (zeroed_vm JitX86_64))))) in
  (ubpf_register vm (fun _ _ _ => true) 63 None 777).2 = -1.
Proof.
  intros vm.
  pose proof (register_last_helper_refused vm (fun _ _ _ => true) 777 None
    eq_refl (or_introl eq_refl) (fun _ => eq_refl) eq_refl ltac:(cbn; lia) ltac:(cbn; lia)
    ltac:(cbn; lia) eq_refl) as H.
  destruct (ubpf_register vm (fun _ _ _ => true) 63 None 777) as [vm' r]. apply H.
Defined.

(** The stack usage of a local function is computed once: after the first
    call the entry is known, every later call leaves the VM as it is whatever
    calculator is registered, and no other function's entry was touched. *)
Theorem stack_usage_computed_once (h1 h2 : HostEnv) (vm : ubpf_vm) (pc pc' calculator cookie : Z) :
  let vm1 := (@ubpf_calculate_stack_usage_for_local_func h1 vm pc).1 in
  let vm2 := (ubpf_register_stack_usage_calculator vm1 calculator cookie).1 in
  usage_known vm1 (u16 pc) /\
  (@ubpf_calculate_stack_usage_for_local_func h2 vm2 pc).1 = vm2 /\
  (u16 pc <> pc' -> usage_at vm1 pc' = usage_at vm pc').
Proof.
  intros vm1 vm2. pose proof (@calculate_usage_known h1 vm pc) as Hk. split; [exact Hk |].
  split; [by apply calculate_usage_stable | apply (@calculate_usage_other h1)].
Qed.

(** [ubpf_toggle_readonly_bytecode] is not without effect on loaded code: a
    VM whose array was allocated under the current setting can be unloaded,
    and after the setting is flipped [ubpf_unload_code] hands the array to the
    wrong deallocator. *)
Theorem toggle_readonly_breaks_unload (vm : ubpf_vm) (ok : bool) :
  vm.(insts) <> 0 ->
  vm.(insts_owner) = (if vm.(readonly_bytecode_enabled) then FromMmap else FromMalloc) ->
  is_Some (ubpf_unload_code vm ok) /\
  ubpf_unload_code (ubpf_toggle_readonly_bytecode vm (negb vm.(readonly_bytecode_enabled))).1 ok = None.
Proof.
  intros Hi Ho. apply Z.eqb_neq in Hi. unfold ubpf_unload_code, ubpf_toggle_readonly_bytecode.
  cbn -[Z.eqb]. destruct (jitted vm =? 0) eqn:Ej; cbn -[Z.eqb]; rewrite Hi; cbn; rewrite Ho;
    destruct vm.(readonly_bytecode_enabled); split; cbn; eauto.
Qed.

Lemma toggle_readonly_breaks_unload_witness :
  let vm := set_insts 4096 (set_readonly_bytecode_enabled true (zeroed_vm JitNull)) in
  ubpf_unload_code (ubpf_toggle_readonly_bytecode vm false).1 true = None.
Proof.
  intros vm. apply (toggle_readonly_breaks_unload vm true); [discriminate | reflexivity].
Defined.
