(* ===== verification/Validate.v ===== *)
(** * Validate: program validation (vm/ubpf_vm.c, [validate] and
    [check_for_self_contained_sub_programs])

    The validator as the code runs it: an error stops it at the first bad
    instruction, and the stack-usage cache of the VM is filled on the way (also
    when validation fails later).  The theorems state what an accepted program
    guarantees to the interpreters, and where the sub-program check stops short
    of its comment. *)

From Stdlib Require Import ZArith Lia Bool.
From stdpp Require Import base list gmap strings numbers sorting.
From S2P Require Import Prelude Ebpf InstValid Mem Vm.

Local Open Scope Z_scope.
Local Open Scope cbits_scope.

(** ** Errors: one constructor per message *)

Inductive load_error : Type :=
| StackSizeNotMultipleOf8
| AlreadyLoaded
| CodeLenNotMultipleOf8
| OutOfMemory
| ReadOnlyFailed
| TooManyInstructions
| ImproperStackUse (pc : Z)
| InvalidNegSrc (pc : Z)
| InvalidEndianImmediate (pc : Z)
| InvalidLddwSource (pc : Z)
| IncompleteLddw (pc : Z)
| InvalidLddwSecondHalf (pc : Z)
| InfiniteLoop (pc : Z)
| JumpOutOfBounds (pc : Z)
| JumpToMiddleOfLddw (pc : Z)
| InvalidCallImmediate (pc : Z)
| CallToNonexistent (fn pc : Z)
| LocalCallOutOfBounds (pc target : Z)
| CallByBtfId (pc : Z)
| InvalidCallType (pc : Z)
| InvalidAtomic (pc : Z)
| UnknownOpcode (op pc : Z)
| InvalidSourceRegister (pc : Z)
| InvalidDestinationRegister (pc : Z)
| InvalidFields (e : inst_error)
| SubProgramAllocation
| SubProgramJump (pc : Z)
| SubProgramEnd (pc : Z).

Definition no_inst : ebpf_inst := Inst 0 0 0 0 0.

(** [insts[k]], for an index the caller has checked. *)
Definition inst_at (prog : list ebpf_inst) (k : Z) : ebpf_inst :=
  default no_inst (prog !! Z.to_nat k).

Local Open Scope result_scope.

(** ** The cases of the switch *)

(** The target of a jump: the immediate for JA32, the offset for the others. *)
Definition jump_offset (inst : ebpf_inst) : Z :=
  if inst.(opcode) =? opcode_of EBPF_OP_JA32 then inst.(imm) else inst.(offset).

Definition validate_jump (prog : list ebpf_inst) (num_insts i : Z) (inst : ebpf_inst)
    : result unit load_error :=
  let jo := jump_offset inst in
  let* _ := guard (negb (jo =? -1)) (InfiniteLoop i) in
  let new_pc := i + 1 + jo in
  let* _ := guard ((0 <=? new_pc) && (new_pc <? num_insts)) (JumpOutOfBounds i) in
  guard (negb ((inst_at prog new_pc).(opcode) =? 0)) (JumpToMiddleOfLddw i).

(** [inst.imm & EBPF_ALU_OP_MASK] of an atomic operation, for both widths. *)
Definition validate_atomic (i : Z) (inst : ebpf_inst) : result unit load_error :=
  let op := inst.(imm) .& EBPF_ALU_OP_MASK in
  let fetch := negb (inst.(imm) .& EBPF_ATOMIC_OP_FETCH =? 0) in
  if (op =? EBPF_ALU_OP_ADD) || (op =? EBPF_ALU_OP_OR) || (op =? EBPF_ALU_OP_AND) ||
     (op =? EBPF_ALU_OP_XOR) then Ok tt
  else if op =? EBPF_ATOMIC_OP_XCHG .& Z.lnot EBPF_ATOMIC_OP_FETCH then
    guard fetch (InvalidAtomic i)
  else if op =? EBPF_ATOMIC_OP_CMPXCHG .& Z.lnot EBPF_ATOMIC_OP_FETCH then
    guard fetch (InvalidAtomic i)
  else Err (InvalidAtomic i).

Definition validate_lddw (prog : list ebpf_inst) (num_insts i : Z) (inst : ebpf_inst)
    : result unit load_error :=
  let next := inst_at prog (i + 1) in
  let* _ := guard (inst.(src) =? 0) (InvalidLddwSource i) in
  let* _ := guard (negb ((num_insts <=? i + 1) || negb (next.(opcode) =? 0))) (IncompleteLddw i) in
  guard (negb (negb (next.(dst) =? 0) || negb (next.(src) =? 0) || negb (next.(offset) =? 0)))
    (InvalidLddwSecondHalf (i + 1)).

Section Validate.
Context `{HostEnv}.

(** [int call_target = i + (inst.imm + 1)].  For an immediate within [i + 1] of
    INT_MAX the addition overflows an [int]; the value here is then the wrapped one,
    which is negative and refused as the exact one would be. *)
Definition call_target (i : Z) (inst : ebpf_inst) : Z := s32 (i + s32 (inst.(imm) + 1)).

Definition validate_call (vm : ubpf_vm) (num_insts i : Z) (inst : ebpf_inst)
    : ubpf_vm * result unit load_error :=
  if inst.(src) =? 0 then
    (vm,
     let* _ := guard (negb (inst.(imm) <? 0)) (InvalidCallImmediate i) in
     guard (negb ((negb (vm.(dispatcher) =? 0) &&
                   negb (call_validate vm.(dispatcher_validate) inst.(imm) vm)) ||
                  ((vm.(dispatcher) =? 0) &&
                   ((MAX_EXT_FUNCS <=? inst.(imm)) ||
                    (default 0 (vm.(ext_funcs) !! Z.to_nat inst.(imm)) =? 0)))))
       (CallToNonexistent inst.(imm) i))
  else if inst.(src) =? 1 then
    let target := call_target i inst in
    if (target <? 0) || (num_insts <=? target) then (vm, Err (LocalCallOutOfBounds i target))
    else
      let '(vm, ok) := ubpf_calculate_stack_usage_for_local_func vm target in
      (vm, guard ok (ImproperStackUse target))
  else if inst.(src) =? 2 then (vm, Err (CallByBtfId i))
  else (vm, Err (InvalidCallType i)).

(** The groups of labels of the switch. *)
Inductive check_group : Type :=
| GroupPlain (store : bool)
| GroupNeg
| GroupEndian
| GroupLddw
| GroupJump
| GroupCall
| GroupAtomic.

Definition group_of (op : ebpf_op) : check_group :=
  match op with
  | EBPF_OP_NEG | EBPF_OP_NEG64 => GroupNeg
  | EBPF_OP_LE | EBPF_OP_BE | EBPF_OP_BSWAP => GroupEndian
  | EBPF_OP_MOV64_IMM | EBPF_OP_MOV64_REG => GroupPlain true
  | EBPF_OP_STW | EBPF_OP_STH | EBPF_OP_STB | EBPF_OP_STDW
  | EBPF_OP_STXW | EBPF_OP_STXH | EBPF_OP_STXB | EBPF_OP_STXDW => GroupPlain true
  | EBPF_OP_LDDW => GroupLddw
  | EBPF_OP_JA | EBPF_OP_JA32
  | EBPF_OP_JEQ_REG | EBPF_OP_JEQ_IMM | EBPF_OP_JGT_REG | EBPF_OP_JGT_IMM
  | EBPF_OP_JGE_REG | EBPF_OP_JGE_IMM | EBPF_OP_JLT_REG | EBPF_OP_JLT_IMM
  | EBPF_OP_JLE_REG | EBPF_OP_JLE_IMM | EBPF_OP_JSET_REG | EBPF_OP_JSET_IMM
  | EBPF_OP_JNE_REG | EBPF_OP_JNE_IMM | EBPF_OP_JSGT_IMM | EBPF_OP_JSGT_REG
  | EBPF_OP_JSGE_IMM | EBPF_OP_JSGE_REG | EBPF_OP_JSLT_IMM | EBPF_OP_JSLT_REG
  | EBPF_OP_JSLE_IMM | EBPF_OP_JSLE_REG
  | EBPF_OP_JEQ32_IMM | EBPF_OP_JEQ32_REG | EBPF_OP_JGT32_IMM | EBPF_OP_JGT32_REG
  | EBPF_OP_JGE32_IMM | EBPF_OP_JGE32_REG | EBPF_OP_JSET32_REG | EBPF_OP_JSET32_IMM
  | EBPF_OP_JNE32_IMM | EBPF_OP_JNE32_REG | EBPF_OP_JSGT32_IMM | EBPF_OP_JSGT32_REG
  | EBPF_OP_JSGE32_IMM | EBPF_OP_JSGE32_REG | EBPF_OP_JLT32_IMM | EBPF_OP_JLT32_REG
  | EBPF_OP_JLE32_IMM | EBPF_OP_JLE32_REG | EBPF_OP_JSLT32_IMM | EBPF_OP_JSLT32_REG
  | EBPF_OP_JSLE32_IMM | EBPF_OP_JSLE32_REG => GroupJump
  | EBPF_OP_CALL => GroupCall
  | EBPF_OP_ATOMIC_STORE | EBPF_OP_ATOMIC32_STORE => GroupAtomic
  | EBPF_OP_EXIT => GroupPlain false
  | EBPF_OP_DIV_IMM | EBPF_OP_MOD_IMM | EBPF_OP_DIV64_IMM | EBPF_OP_MOD64_IMM => GroupPlain false
  | EBPF_OP_ADD_IMM | EBPF_OP_ADD_REG | EBPF_OP_SUB_IMM | EBPF_OP_SUB_REG | EBPF_OP_MUL_IMM
  | EBPF_OP_MUL_REG | EBPF_OP_DIV_REG | EBPF_OP_OR_IMM | EBPF_OP_OR_REG | EBPF_OP_AND_IMM
  | EBPF_OP_AND_REG | EBPF_OP_LSH_IMM | EBPF_OP_LSH_REG | EBPF_OP_RSH_IMM | EBPF_OP_RSH_REG
  | EBPF_OP_MOD_REG | EBPF_OP_XOR_IMM | EBPF_OP_XOR_REG | EBPF_OP_MOV_IMM | EBPF_OP_MOV_REG
  | EBPF_OP_ARSH_IMM | EBPF_OP_ARSH_REG => GroupPlain false
  | EBPF_OP_ADD64_IMM | EBPF_OP_ADD64_REG | EBPF_OP_SUB64_IMM | EBPF_OP_SUB64_REG
  | EBPF_OP_MUL64_IMM | EBPF_OP_MUL64_REG | EBPF_OP_DIV64_REG | EBPF_OP_OR64_IMM
  | EBPF_OP_OR64_REG | EBPF_OP_AND64_IMM | EBPF_OP_AND64_REG | EBPF_OP_LSH64_IMM
  | EBPF_OP_LSH64_REG | EBPF_OP_RSH64_IMM | EBPF_OP_RSH64_REG | EBPF_OP_MOD64_REG
  | EBPF_OP_XOR64_IMM | EBPF_OP_XOR64_REG => GroupPlain false
  | EBPF_OP_ARSH64_IMM | EBPF_OP_ARSH64_REG => GroupPlain false
  | EBPF_OP_LDXW | EBPF_OP_LDXH | EBPF_OP_LDXB | EBPF_OP_LDXDW | EBPF_OP_LDXWSX | EBPF_OP_LDXHSX
  | EBPF_OP_LDXBSX => GroupPlain false
  end.

(** The switch: on success the flags [store] and "skip the next slot". *)
Definition validate_switch (vm : ubpf_vm) (prog : list ebpf_inst) (num_insts i : Z) (inst : ebpf_inst)
    : ubpf_vm * result (bool * bool) load_error :=
  match switch_op inst.(opcode) with
  | None => (vm, Err (UnknownOpcode inst.(opcode) i))
  | Some op =>
      match group_of op with
      | GroupPlain store => (vm, Ok (store, false))
      | GroupNeg => (vm, let* _ := guard (inst.(src) =? 0) (InvalidNegSrc i) in Ok (false, false))
      | GroupEndian =>
          (vm, let* _ := guard ((inst.(imm) =? 16) || (inst.(imm) =? 32) || (inst.(imm) =? 64))
                           (InvalidEndianImmediate i) in Ok (false, false))
      | GroupLddw => (vm, let* _ := validate_lddw prog num_insts i inst in Ok (false, true))
      | GroupJump => (vm, let* _ := validate_jump prog num_insts i inst in Ok (false, false))
      | GroupCall =>
          let '(vm, r) := validate_call vm num_insts i inst in
          (vm, let* _ := r in Ok (false, false))
      | GroupAtomic => (vm, let* _ := validate_atomic i inst in Ok (true, false))
      end
  end.

(** The checks after the switch. *)
Definition validate_registers (i : Z) (inst : ebpf_inst) (store : bool) : result unit load_error :=
  let* _ := guard (negb (10 <? inst.(src))) (InvalidSourceRegister i) in
  let* _ := guard (negb ((9 <? inst.(dst)) && negb (store && (inst.(dst) =? 10))))
              (InvalidDestinationRegister i) in
  match ubpf_is_valid_instruction inst with
  | Ok _ => Ok tt
  | Err e => Err (InvalidFields e)
  end.

(** The loop from index [i], where [rest] is the array from [i] on. *)
Fixpoint validate_loop (vm : ubpf_vm) (prog : list ebpf_inst) (num_insts i : Z) (rest : list ebpf_inst)
    : ubpf_vm * result unit load_error :=
  match rest with
  | [] => (vm, Ok tt)
  | inst :: rest' =>
      let '(vm, r) := validate_switch vm prog num_insts i inst in
      match r with
      | Err e => (vm, Err e)
      | Ok (store, skip) =>
          let i := if skip then i + 1 else i in
          match validate_registers i inst store with
          | Err e => (vm, Err e)
          | Ok _ =>
              match skip, rest' with
              | true, _ :: rest'' => validate_loop vm prog num_insts (i + 1) rest''
              | true, [] => (vm, Ok tt)
              | false, _ => validate_loop vm prog num_insts (i + 1) rest'
              end
          end
      end
  end.

End Validate.

(** ** Self-contained sub-programs *)

Definition is_local_call (inst : ebpf_inst) : bool :=
  (inst.(opcode) =? opcode_of EBPF_OP_CALL) && (inst.(src) =? 1).

(** [uint32_t jump_target = i + 1 + insts[i].imm], for each local call in order. *)
Fixpoint call_targets (i : Z) (prog : list ebpf_inst) : list Z :=
  match prog with
  | [] => []
  | inst :: prog' =>
      if is_local_call inst then u32 (i + 1 + inst.(imm)) :: call_targets (i + 1) prog'
      else call_targets (i + 1) prog'
  end.

(** [qsort] with [compare_uint32_t]. *)
Definition sort_uint32 (array : list Z) : list Z := merge_sort Z.le array.

(** The compaction loop over the sorted array, [n] iterations from [read_index]. *)
Fixpoint dedup_loop (n read_index write_index : nat) (array : list Z) : list Z * nat :=
  match n with
  | O => (array, write_index)
  | S n' =>
      let v := default 0 (array !! read_index) in
      if negb (v =? default 0 (array !! write_index)) then
        dedup_loop n' (S read_index) (S write_index) (<[S write_index := v]> array)
      else dedup_loop n' (S read_index) write_index array
  end.

(** The first [*count] entries of the array afterwards. *)
Definition deduplicate_array_of_uint32 (array : list Z) : list Z :=
  let sorted := sort_uint32 array in
  let '(array, write_index) := dedup_loop (length array - 1) 1 0 sorted in
  take (write_index + 1) array.

(** A jump other than CALL and EXIT whose target is outside [start_index, end_index). *)
Definition jump_escapes (inst : ebpf_inst) (j start_index end_index : Z) : bool :=
  let cls := inst.(opcode) .& EBPF_CLS_MASK in
  if (cls =? EBPF_CLS_JMP) || (cls =? EBPF_CLS_JMP32) then
    if (inst.(opcode) =? opcode_of EBPF_OP_CALL) || (inst.(opcode) =? opcode_of EBPF_OP_EXIT) then false
    else
      let jump_target := j + 1 + jump_offset inst in
      (jump_target <? start_index) || (u32 (end_index - 1) <? jump_target)
  else false.

Fixpoint check_jumps (prog : list ebpf_inst) (start_index end_index : Z) (js : list Z)
    : result unit load_error :=
  match js with
  | [] => Ok tt
  | j :: js' =>
      let* _ := guard (negb (jump_escapes (inst_at prog j) j start_index end_index)) (SubProgramJump j) in
      check_jumps prog start_index end_index js'
  end.

(** One sub-program: its jumps, then its end. *)
Definition check_sub_program (prog : list ebpf_inst) (start_index end_index : Z)
    : result unit load_error :=
  let* _ := check_jumps prog start_index end_index (seqZ start_index (end_index - start_index)) in
  let ends_with_exit := (inst_at prog (end_index - 1)).(opcode) =? opcode_of EBPF_OP_EXIT in
  let ends_with_jump :=
    (start_index + 2 <=? end_index) &&
    (((inst_at prog (end_index - 2)).(opcode) =? opcode_of EBPF_OP_JA) ||
     ((inst_at prog (end_index - 2)).(opcode) =? opcode_of EBPF_OP_JA32)) in
  guard (ends_with_exit || ends_with_jump) (SubProgramEnd (end_index - 1)).

(** Each start index with the next one, or [num_insts] for the last. *)
Fixpoint check_sub_programs (prog : list ebpf_inst) (num_insts : Z) (starts : list Z)
    : result unit load_error :=
  match starts with
  | [] => Ok tt
  | start_index :: starts' =>
      let end_index := match starts' with [] => num_insts | next :: _ => next end in
      let* _ := check_sub_program prog start_index end_index in
      check_sub_programs prog num_insts starts'
  end.

(** The array of start indices: the call targets and a last entry left at zero,
    the main program. *)
Definition sub_program_start_indices (prog : list ebpf_inst) : list Z :=
  deduplicate_array_of_uint32 (call_targets 0 prog ++ [0]).

Definition check_for_self_contained_sub_programs (alloc_ok : bool) (prog : list ebpf_inst)
    : result unit load_error :=
  match call_targets 0 prog with
  | [] => Ok tt
  | _ =>
      let* _ := guard alloc_ok SubProgramAllocation in
      check_sub_programs prog (Z.of_nat (length prog)) (sub_program_start_indices prog)
  end.

(** ** [validate] *)

Definition validate `{HostEnv} (vm : ubpf_vm) (alloc_ok : bool) (prog : list ebpf_inst)
    : ubpf_vm * result unit load_error :=
  let num_insts := Z.of_nat (length prog) in
  if UBPF_MAX_INSTS <=? num_insts then (vm, Err TooManyInstructions) else
  let '(vm, ok) := ubpf_calculate_stack_usage_for_local_func vm 0 in
  if negb ok then (vm, Err (ImproperStackUse 0)) else
  let '(vm, r) := validate_loop vm prog num_insts 0 prog in
  match r with
  | Err e => (vm, Err e)
  | Ok _ => (vm, check_for_self_contained_sub_programs alloc_ok prog)
  end.

(** ** What an accepted program guarantees *)

Definition is_lddw (inst : ebpf_inst) : bool := inst.(opcode) =? opcode_of EBPF_OP_LDDW.

(** [start_from prog i k]: reading instructions from slot [i] on, one starts at slot [k]. *)
Inductive start_from (prog : list ebpf_inst) (i : Z) : Z -> Prop :=
| start_here : start_from prog i i
| start_next k inst :
    start_from prog i k -> prog !! Z.to_nat k = Some inst -> is_lddw inst = false ->
    start_from prog i (k + 1)
| start_after_lddw k inst :
    start_from prog i k -> prog !! Z.to_nat k = Some inst -> is_lddw inst = true ->
    start_from prog i (k + 2).

Definition start (prog : list ebpf_inst) (k : Z) : Prop := start_from prog 0 k.

(** The second slot of an LDDW. *)
Definition second_slot (prog : list ebpf_inst) (k : Z) : Prop :=
  start prog (k - 1) /\ is_lddw (inst_at prog (k - 1)) = true.

Definition writes_memory_or_fp (op : ebpf_op) : bool :=
  match group_of op with
  | GroupPlain store => store
  | GroupAtomic => true
  | _ => false
  end.

(** The target of an external call exists: the dispatcher's validator accepted
    it (for the VM as it was then), or the helper is registered. *)
Definition external_call_ok `{HostEnv} (vm : ubpf_vm) (fn : Z) : Prop :=
  0 <= fn /\
  ((vm.(dispatcher) <> 0 /\
    exists vm0, call_validate vm.(dispatcher_validate) fn vm0 = true) \/
   (vm.(dispatcher) = 0 /\ fn < MAX_EXT_FUNCS /\ default 0 (vm.(ext_funcs) !! Z.to_nat fn) <> 0)).

Definition usage_aligned (vm : ubpf_vm) (pc : Z) : Prop :=
  exists usage, ubpf_stack_usage_for_local_func vm pc = Some usage /\ usage mod 16 = 0.

(** What the group of the switch has checked about the instruction at slot [i]. *)
Definition group_checked `{HostEnv} (vm : ubpf_vm) (prog : list ebpf_inst) (i : Z) (inst : ebpf_inst)
    (g : check_group) : Prop :=
  match g with
  | GroupPlain _ => True
  | GroupNeg => inst.(src) = 0
  | GroupEndian => inst.(imm) = 16 \/ inst.(imm) = 32 \/ inst.(imm) = 64
  | GroupLddw =>
      inst.(src) = 0 /\ i + 1 < Z.of_nat (length prog) /\
      inst_at prog (i + 1) = Inst 0 0 0 0 (inst_at prog (i + 1)).(imm)
  | GroupJump =>
      let target := i + 1 + jump_offset inst in
      target <> i /\ 0 <= target < Z.of_nat (length prog) /\ (inst_at prog target).(opcode) <> 0
  | GroupCall =>
      (inst.(src) = 0 /\ external_call_ok vm inst.(imm)) \/
      (inst.(src) = 1 /\ 0 <= call_target i inst < Z.of_nat (length prog) /\
       usage_known vm (call_target i inst) /\ usage_aligned vm (call_target i inst))
  | GroupAtomic => validate_atomic i inst = Ok tt
  end.

(** Everything [validate] has checked about the instruction at slot [i]. *)
Record inst_checked `{HostEnv} (vm : ubpf_vm) (prog : list ebpf_inst) (i : Z) (inst : ebpf_inst) (op : ebpf_op)
    : Prop := InstChecked {
  ck_op : switch_op inst.(opcode) = Some op;
  ck_fields : ubpf_is_valid_instruction inst = Ok tt;
  ck_src : inst.(src) <= 10;
  ck_dst : inst.(dst) <= 9 \/ (inst.(dst) = 10 /\ writes_memory_or_fp op = true);
  ck_group : group_checked vm prog i inst (group_of op);
}.

(** ** Lemmas on the validation loop *)

(** Entries of the cache that are known stay as they are, and new ones have
    their type. *)
Definition usage_extends (vm vm' : ubpf_vm) : Prop :=
  vm' = set_local_func_stack_usage vm'.(local_func_stack_usage) vm /\
  (forall pc, usage_known vm pc -> usage_at vm' pc = usage_at vm pc) /\
  (usages_typed vm -> usages_typed vm') /\
  (vm.(local_func_stack_usage) <> None -> vm'.(local_func_stack_usage) <> None).

Lemma set_usage_map_id vm : set_local_func_stack_usage vm.(local_func_stack_usage) vm = vm.
Proof. by destruct vm. Qed.

Lemma usage_extends_refl vm : usage_extends vm vm.
Proof. split; [| done]. by rewrite set_usage_map_id. Qed.

Lemma usage_extends_trans vm1 vm2 vm3 :
  usage_extends vm1 vm2 -> usage_extends vm2 vm3 -> usage_extends vm1 vm3.
Proof.
  intros (E1 & H1 & T1 & N1) (E2 & H2 & T2 & N2). split_and!; [| | auto ..].
  - rewrite E2, E1. done.
  - intros pc Hk. rewrite H2, H1; [done | done |]. unfold usage_known. by rewrite H1.
Qed.

Lemma usage_extends_known vm vm' pc : usage_extends vm vm' -> usage_known vm pc -> usage_known vm' pc.
Proof. intros (_ & Hx & _) Hk. unfold usage_known. by rewrite Hx. Qed.

Lemma usage_extends_aligned vm vm' pc :
  usage_extends vm vm' -> usage_known vm pc -> usage_aligned vm pc -> usage_aligned vm' pc.
Proof.
  intros (_ & Hx & _) Hk (u & Hu & Ha). exists u. split; [| done].
  unfold ubpf_stack_usage_for_local_func in *. by rewrite Hx.
Qed.

#[export] Hint Resolve usage_extends_refl usage_extends_trans : ubpf.

Section ValidateLemmas.
Context `{HostEnv}.

Lemma calculate_usage_extends vm pc :
  usage_extends vm (ubpf_calculate_stack_usage_for_local_func vm pc).1.
Proof.
  split; [apply calculate_usage_frame |]. split; [| split; [apply calculate_usage_typed |]].
  2: { unfold ubpf_calculate_stack_usage_for_local_func. cbn [fst]. by repeat case_match. }
  intros pc' Hk.
  destruct (decide (u16 pc = pc')) as [<- | Hne].
  - by rewrite calculate_usage_stable.
  - by apply calculate_usage_other.
Qed.

Lemma calculate_usage_aligned vm pc :
  (ubpf_calculate_stack_usage_for_local_func vm pc).2 = true ->
  usage_aligned (ubpf_calculate_stack_usage_for_local_func vm pc).1 (u16 pc).
Proof.
  unfold usage_aligned. unfold ubpf_calculate_stack_usage_for_local_func. cbn [fst snd].
  destruct (ubpf_stack_usage_for_local_func _ (u16 pc)) as [u |]; [| discriminate].
  intros Hu. exists u. by bools.
Qed.

Lemma external_call_ok_extends vm vm' fn :
  usage_extends vm vm' -> external_call_ok vm fn -> external_call_ok vm' fn.
Proof.
  intros [-> _]. unfold external_call_ok. cbn. intros (H0 & [(Hd & u & Hu) | Hd]); split; eauto.
Qed.

Lemma inst_checked_extends vm vm' prog i inst op :
  usage_extends vm vm' -> inst_checked vm prog i inst op -> inst_checked vm' prog i inst op.
Proof.
  intros Hx []. constructor; try done. unfold group_checked in *.
  destruct (group_of op); try done.
  destruct ck_group0 as [[? ?] | (? & ? & ? & ?)]; [left | right];
    eauto 6 using external_call_ok_extends, usage_extends_known, usage_extends_aligned.
Qed.

Lemma validate_call_extends vm n i inst : usage_extends vm (validate_call vm n i inst).1.
Proof.
  unfold validate_call. repeat case_match; simplify_eq/=; auto with ubpf.
  match goal with E : ubpf_calculate_stack_usage_for_local_func ?v ?t = _ |- _ =>
    pose proof (calculate_usage_extends v t) as X; rewrite E in X; exact X end.
Qed.

Lemma validate_call_checked vm n i inst vm' :
  n < UBPF_MAX_INSTS ->
  validate_call vm n i inst = (vm', Ok tt) ->
  (inst.(src) = 0 /\ external_call_ok vm' inst.(imm)) \/
  (inst.(src) = 1 /\ 0 <= call_target i inst < n /\
   usage_known vm' (call_target i inst) /\ usage_aligned vm' (call_target i inst)).
Proof.
  intros Hn. unfold validate_call. destruct (Z.eqb_spec inst.(src) 0) as [Hs | Hs].
  - intros [= <- Hr]. left. split; [done |]. apply bind_guard_ok in Hr as [H0 Hr].
    apply guard_ok_iff in Hr. bools. split; [lia |].
    destruct (Z.eqb_spec vm.(dispatcher) 0) as [Hd | Hd]; cbn in *.
    + right. bools. auto.
    + left. split; [done |]. bools. by exists vm.
  - destruct (Z.eqb_spec inst.(src) 1) as [Hs1 | Hs1].
    + destruct ((call_target i inst <? 0) || (n <=? call_target i inst)) eqn:Hb; [discriminate |].
      destruct (ubpf_calculate_stack_usage_for_local_func vm (call_target i inst)) as [vm1 ok] eqn:E.
      intros [= <- Hr]. apply guard_ok_iff in Hr. subst ok. bools.
      assert (u16 (call_target i inst) = call_target i inst) as Hw
        by (apply wrap_id; unfold UBPF_MAX_INSTS in Hn; lia).
      right. split; [done |]. split; [lia |].
      pose proof (calculate_usage_known vm (call_target i inst)) as Hk.
      pose proof (calculate_usage_aligned vm (call_target i inst)) as Ha.
      rewrite E, Hw in Hk, Ha. cbn in Hk, Ha. auto.
    + by destruct (inst.(src) =? 2).
Qed.

Lemma validate_jump_checked prog n i inst :
  validate_jump prog n i inst = Ok tt ->
  let target := i + 1 + jump_offset inst in
  target <> i /\ 0 <= target < n /\ (inst_at prog target).(opcode) <> 0.
Proof.
  unfold validate_jump. rewrite !bind_guard_ok, guard_ok_iff. intros (? & ? & ?). bools.
  repeat split; (lia || done).
Qed.

Lemma validate_lddw_checked prog n i inst :
  validate_lddw prog n i inst = Ok tt ->
  inst.(src) = 0 /\ i + 1 < n /\
  inst_at prog (i + 1) = Inst 0 0 0 0 (inst_at prog (i + 1)).(imm).
Proof.
  unfold validate_lddw. rewrite !bind_guard_ok, guard_ok_iff. intros (? & ? & ?). bools.
  repeat split; [done | lia |]. destruct (inst_at prog (i + 1)); cbn in *. congruence.
Qed.

Lemma validate_switch_group vm prog i inst vm' store skip :
  Z.of_nat (length prog) < UBPF_MAX_INSTS ->
  validate_switch vm prog (Z.of_nat (length prog)) i inst = (vm', Ok (store, skip)) ->
  usage_extends vm vm' /\ exists op,
    switch_op inst.(opcode) = Some op /\ store = writes_memory_or_fp op /\
    skip = (match group_of op with GroupLddw => true | _ => false end) /\
    group_checked vm' prog i inst (group_of op).
Proof.
  intros Hn. unfold validate_switch, writes_memory_or_fp.
  destruct (switch_op inst.(opcode)) as [op |]; [| discriminate].
  destruct (group_of op) eqn:Eg.
  6: { pose proof (validate_call_extends vm (Z.of_nat (length prog)) i inst) as Hx.
       destruct (validate_call _ _ _ _) as [vm1 r] eqn:E. intros [= <- Hr].
       destruct r as [[] |]; [| discriminate]. injection Hr as <- <-. split; [exact Hx |].
       exists op. rewrite Eg. repeat split. by apply (validate_call_checked vm). }
  all: intros [= <- Hr]; try (apply bind_ok_inv in Hr as ([] & Hck & Hr); injection Hr as <- <-);
    (split; [apply usage_extends_refl |]); exists op; rewrite Eg; subst; (do 3 (split; [done |])); try done.
  - apply guard_ok_iff in Hck. by bools.
  - apply guard_ok_iff in Hck. cbn. destruct (Z.eqb_spec inst.(imm) 16), (Z.eqb_spec inst.(imm) 32),
      (Z.eqb_spec inst.(imm) 64); auto; discriminate.
  - by apply validate_lddw_checked.
  - by apply validate_jump_checked.
Qed.

Lemma validate_registers_checked i inst store :
  validate_registers i inst store = Ok tt ->
  ubpf_is_valid_instruction inst = Ok tt /\ inst.(src) <= 10 /\
  (inst.(dst) <= 9 \/ (inst.(dst) = 10 /\ store = true)).
Proof.
  unfold validate_registers. rewrite !bind_guard_ok. intros (Hs & Hd & Hv).
  destruct (ubpf_is_valid_instruction inst) as [[] |]; [| discriminate]. bools.
  repeat split; [lia |]. apply andb_false_iff in Hd as [Hd | Hd]; bools; [left; lia | by right].
Qed.

Lemma lddw_group inst op :
  switch_op inst.(opcode) = Some op ->
  is_lddw inst = match group_of op with GroupLddw => true | _ => false end.
Proof. intros Hop. unfold is_lddw. apply switch_op_sound in Hop as <-. by destruct op. Qed.

(** One iteration: the facts about the instruction at [i]. *)
Lemma validate_step_checked vm prog i j inst vm' store skip :
  Z.of_nat (length prog) < UBPF_MAX_INSTS ->
  validate_switch vm prog (Z.of_nat (length prog)) i inst = (vm', Ok (store, skip)) ->
  validate_registers j inst store = Ok tt ->
  usage_extends vm vm' /\ skip = is_lddw inst /\ exists op, inst_checked vm' prog i inst op.
Proof.
  intros Hn Hsw Hreg. apply validate_switch_group in Hsw as (Hx & op & Hop & -> & -> & Hg); [| done].
  apply validate_registers_checked in Hreg as (? & ? & ?).
  split; [done |]. split; [by rewrite (lddw_group _ op) |]. by exists op.
Qed.

Lemma start_from_unfold prog i k inst :
  start_from prog i k -> prog !! Z.to_nat i = Some inst ->
  k = i \/ start_from prog (if is_lddw inst then i + 2 else i + 1) k.
Proof.
  intros Hs Hi. induction Hs as [| k inst' _ IH Hk Hl | k inst' _ IH Hk Hl]; [by left | |]; right;
    (destruct IH as [-> | IH]; [| eauto using start_from]); simplify_eq; rewrite Hl; constructor.
Qed.

Lemma start_from_ge prog i k : start_from prog i k -> i <= k.
Proof. induction 1; lia. Qed.

Lemma validate_loop_checked n rest vm prog i vm' :
  (length rest <= n)%nat -> Z.of_nat (length prog) < UBPF_MAX_INSTS ->
  0 <= i -> rest = drop (Z.to_nat i) prog ->
  validate_loop vm prog (Z.of_nat (length prog)) i rest = (vm', Ok tt) ->
  usage_extends vm vm' /\
  forall k inst, start_from prog i k -> prog !! Z.to_nat k = Some inst ->
    exists op, inst_checked vm' prog k inst op.
Proof.
  intros Hle Hn. revert rest vm i Hle. induction n as [| n IH]; intros rest vm i Hle Hi Hrest Hloop.
  - destruct rest; [| simpl in Hle; lia]. injection Hloop as <-. split; [auto with ubpf |].
    intros k inst Hs Hk. apply start_from_ge in Hs. apply lookup_lt_Some in Hk.
    symmetry in Hrest. apply (f_equal length) in Hrest. rewrite length_drop in Hrest. simpl in Hrest. lia.
  - destruct rest as [| inst rest]; [apply (IH [] vm i); [simpl; lia | done ..] |].
    assert (prog !! Z.to_nat i = Some inst) as Hinst
      by (rewrite <- (Nat.add_0_r (Z.to_nat i)), <- lookup_drop, <- Hrest; done).
    assert (drop (Z.to_nat (i + 1)) prog = rest) as Hrest1
      by (replace (Z.to_nat (i + 1)) with (Z.to_nat i + 1)%nat by lia; by rewrite <- drop_drop, <- Hrest).
    cbn [validate_loop] in Hloop.
    destruct (validate_switch _ _ _ _ _) as [vm1 r] eqn:Hsw. destruct r as [[store skip] |]; [| discriminate].
    destruct (validate_registers _ _ _) as [[] |] eqn:Hreg; [| discriminate].
    destruct (validate_step_checked _ _ _ _ _ _ _ _ Hn Hsw Hreg) as (Hx & -> & op & Hck).
    assert (usage_extends vm1 vm' /\ forall k inst', 
      start_from prog (if is_lddw inst then i + 2 else i + 1) k -> prog !! Z.to_nat k = Some inst' ->
      exists op, inst_checked vm' prog k inst' op) as [Hx' Hall].
    { simpl in Hle. destruct (is_lddw inst); [destruct rest as [| second rest]; simpl in Hle |].
      - apply (IH [] vm1 (i + 2)); [simpl; lia .. | | done].
        replace (Z.to_nat (i + 2)) with (Z.to_nat (i + 1) + 1)%nat by lia. by rewrite <- drop_drop, Hrest1.
      - apply (IH rest vm1 (i + 2)); [lia .. | | by replace (i + 2) with (i + 1 + 1) by lia].
        replace (Z.to_nat (i + 2)) with (Z.to_nat (i + 1) + 1)%nat by lia. by rewrite <- drop_drop, Hrest1.
      - by apply (IH rest vm1 (i + 1)); [lia | lia | | ]. }
    split; [eauto with ubpf |]. intros k inst' Hs Hk.
    destruct (start_from_unfold _ _ _ _ Hs Hinst) as [-> | Hs']; [| eauto].
    simplify_eq. eauto using inst_checked_extends.
Qed.

(** Every slot starts an instruction or is the second half of an LDDW. *)
Lemma slot_start_or_second prog k :
  0 <= k < Z.of_nat (length prog) -> start prog k \/ second_slot prog k.
Proof.
  intros [Hk Hlt]. revert Hlt. pattern k. apply natlike_ind; [left; constructor | | done].
  clear k Hk. intros k Hk IH Hlt. unfold Z.succ in *.
  destruct (lookup_lt_is_Some_2 prog (Z.to_nat k)) as [inst Hinst]; [lia |].
  destruct IH as [Hs | [Hs Hl]]; [lia | |].
  - destruct (is_lddw inst) eqn:Hl; [right | left; by eapply start_next].
    unfold second_slot, inst_at. replace (k + 1 - 1) with k by lia. by rewrite Hinst.
  - left. destruct (prog !! Z.to_nat (k - 1)) as [inst' |] eqn:E.
    + replace (k + 1) with (k - 1 + 2) by lia. eapply start_after_lddw; [done .. |].
      unfold inst_at in Hl. by rewrite E in Hl.
    + unfold inst_at in Hl. rewrite E in Hl. discriminate.
Qed.

End ValidateLemmas.

(** ** Lemmas on the sub-program check *)

Definition increasing (l : list Z) : Prop :=
  forall i j x y, (i < j)%nat -> l !! i = Some x -> l !! j = Some y -> x < y.

Lemma increasing_sorted l : increasing l -> StronglySorted Z.lt l.
Proof.
  induction l as [| x l IH]; intros Hl; constructor.
  - apply IH. intros i j a b Hij Ha Hb. apply (Hl (S i) (S j)); [lia | done ..].
  - apply Forall_lookup. intros i y Hy. by apply (Hl 0%nat (S i)); [lia | ..].
Qed.

Lemma sorted_lookup_le (l : list Z) i j x y :
  StronglySorted Z.le l -> (i <= j)%nat -> l !! i = Some x -> l !! j = Some y -> x <= y.
Proof.
  intros Hs. revert i j. induction Hs as [| a l Hs IH Ha]; intros i j Hij Hx Hy; [done |].
  destruct i as [| i], j as [| j]; simplify_eq/=; try lia.
  - by apply (Forall_lookup_1 _ _ _ _ Ha Hy).
  - apply (IH i j); [lia | done ..].
Qed.

(** The state of the compaction loop: [arr[0..w]] holds the distinct values of
    [orig[0..r)] in order, and the part from [r] on is untouched. *)
Record dedup_inv (orig : list Z) (r w : nat) (arr : list Z) : Prop := DedupInv {
  di_index : (w < r <= length orig)%nat;
  di_length : length arr = length orig;
  di_rest : forall k, (r <= k)%nat -> arr !! k = orig !! k;
  di_last : arr !! w = orig !! (r - 1)%nat;
  di_increasing : increasing (take (S w) arr);
  di_values : forall x, x ∈ take (S w) arr <-> x ∈ take r orig;
}.

Lemma take_insert_last (arr : list Z) w v :
  (w < length arr)%nat -> take (S w) (<[w := v]> arr) = take w arr ++ [v].
Proof.
  intros Hw. rewrite (take_S_r _ _ v) by (apply list_lookup_insert_eq; lia).
  by rewrite take_insert_ge.
Qed.

Lemma increasing_snoc l last v :
  increasing (l ++ [last]) -> last < v -> increasing ((l ++ [last]) ++ [v]).
Proof.
  intros Hl Hlast i j x y Hij Hx Hy.
  assert (forall k z, (l ++ [last]) !! k = Some z -> z <= last) as Hmax.
  { intros k z Hz. pose proof (lookup_lt_Some _ _ _ Hz) as Hk. rewrite length_app in Hk. simpl in Hk.
    destruct (decide (k = length l)) as [-> | Hne].
    - rewrite list_lookup_middle in Hz by done. injection Hz as <-. lia.
    - apply Z.lt_le_incl. apply (Hl k (length l)); [lia | done |]. by apply list_lookup_middle. }
  destruct (decide (j < length (l ++ [last]))%nat) as [Hj | Hj].
  - rewrite lookup_app_l in Hx, Hy by lia. by apply (Hl i j).
  - pose proof (lookup_lt_Some _ _ _ Hy) as Hj'. rewrite length_app in Hj'. simpl in Hj'.
    rewrite lookup_app_r in Hy by lia.
    replace (j - length (l ++ [last]))%nat with 0%nat in Hy by lia. injection Hy as <-.
    rewrite lookup_app_l in Hx by lia. apply Hmax in Hx. lia.
Qed.

Lemma dedup_step_new orig r w arr v :
  StronglySorted Z.le orig -> dedup_inv orig r w arr -> orig !! r = Some v -> arr !! w <> Some v ->
  dedup_inv orig (S r) (S w) (<[S w := v]> arr).
Proof.
  intros Hs [] Hv Hne. pose proof (lookup_lt_Some _ _ _ Hv) as Hr.
  destruct (lookup_lt_is_Some_2 arr w) as [last Hlast]; [lia |].
  rewrite Hlast in Hne, di_last0.
  assert (last < v).
  { assert (last <= v) by (eapply (sorted_lookup_le _ (r - 1) r); [done | lia | done ..]).
    assert (last <> v) by congruence. lia. }
  constructor.
  - lia.
  - by rewrite length_insert.
  - intros k Hk. rewrite list_lookup_insert_ne by lia. apply di_rest0. lia.
  - rewrite list_lookup_insert_eq by lia. by replace (S r - 1)%nat with r by lia.
  - rewrite take_insert_last by lia. rewrite (take_S_r _ _ last) in * by done.
    by apply increasing_snoc.
  - intros x. rewrite take_insert_last by lia. rewrite (take_S_r _ r v) by done.
    rewrite !elem_of_app. by rewrite di_values0.
Qed.

Lemma dedup_step_same orig r w arr v :
  dedup_inv orig r w arr -> orig !! r = Some v -> arr !! w = Some v ->
  dedup_inv orig (S r) w arr.
Proof.
  intros [] Hv Hw. pose proof (lookup_lt_Some _ _ _ Hv) as Hr. constructor; try done.
  - lia.
  - intros k Hk. apply di_rest0. lia.
  - replace (S r - 1)%nat with r by lia. congruence.
  - intros x. rewrite (take_S_r _ r v), elem_of_app, <- di_values0 by done.
    split; [by left |]. intros [Hx | Hx]; [done |]. apply list_elem_of_singleton in Hx as ->.
    apply list_elem_of_lookup. exists w. by rewrite lookup_take_lt by lia.
Qed.

Lemma dedup_loop_inv n orig r w arr :
  StronglySorted Z.le orig -> dedup_inv orig r w arr -> (r + n = length orig)%nat ->
  let '(arr', w') := dedup_loop n r w arr in dedup_inv orig (length orig) w' arr'.
Proof.
  intros Hs. revert r w arr. induction n as [| n IH]; intros r w arr Hinv Hn; simpl.
  - by replace (length orig) with r by lia.
  - destruct (lookup_lt_is_Some_2 orig r) as [v Hv]; [lia |].
    rewrite (di_rest _ _ _ _ Hinv r), Hv by lia. simpl.
    destruct (lookup_lt_is_Some_2 arr w) as [last Hlast]; [destruct Hinv; lia |]. rewrite Hlast. simpl.
    destruct (Z.eqb_spec v last) as [-> | Hne]; simpl; apply IH; try lia.
    + by eapply dedup_step_same.
    + eapply dedup_step_new; [done .. |]. congruence.
Qed.

Lemma deduplicate_spec array :
  increasing (deduplicate_array_of_uint32 array) /\
  forall x, x ∈ deduplicate_array_of_uint32 array <-> x ∈ array.
Proof.
  unfold deduplicate_array_of_uint32, sort_uint32.
  pose proof (merge_sort_Permutation Z.le array) as Hp.
  pose proof (StronglySorted_merge_sort Z.le array) as Hs.
  pose proof (Permutation_length Hp) as Hl.
  destruct (merge_sort Z.le array) as [| a sorted] eqn:E.
  { symmetry in Hl. apply nil_length_inv in Hl. subst. simpl. split; [intros ????? [=] | done]. }
  pose proof (dedup_loop_inv (length array - 1) (a :: sorted) 1 0 (a :: sorted) Hs) as Hd.
  destruct (dedup_loop _ _ _ _) as [arr w]. destruct Hd.
  - split; try done; [simpl; lia |]. intros i j x y Hij Hx Hy.
    apply lookup_lt_Some in Hy. simpl in Hy. lia.
  - simpl in *. lia.
  - rewrite Nat.add_1_r. split; [done |]. intros x.
    by rewrite di_values0, firstn_all, Hp.
Qed.

(** A jump other than CALL and EXIT, by its class. *)
Definition is_jump (inst : ebpf_inst) : bool :=
  let cls := inst.(opcode) .& EBPF_CLS_MASK in
  ((cls =? EBPF_CLS_JMP) || (cls =? EBPF_CLS_JMP32)) &&
  negb ((inst.(opcode) =? opcode_of EBPF_OP_CALL) || (inst.(opcode) =? opcode_of EBPF_OP_EXIT)).

(** No jump of the program crosses the boundary [s], in either direction. *)
Definition jumps_respect (prog : list ebpf_inst) (s : Z) : Prop :=
  forall k, 0 <= k < Z.of_nat (length prog) -> is_jump (inst_at prog k) = true ->
    (s <= k <-> s <= k + 1 + jump_offset (inst_at prog k)).

Lemma jump_escapes_false inst j s e :
  0 <= s < e -> e < 2 ^ 32 -> is_jump inst = true -> jump_escapes inst j s e = false ->
  s <= j + 1 + jump_offset inst < e.
Proof.
  intros Hse He Hj. unfold is_jump in Hj. apply andb_true_iff in Hj as [Hc Hx].
  unfold jump_escapes. rewrite Hc. apply negb_true_iff in Hx. rewrite Hx.
  rewrite wrap_id by lia. intros H. bools. lia.
Qed.

Lemma check_jumps_all prog s e js :
  check_jumps prog s e js = Ok tt -> forall j, j ∈ js -> jump_escapes (inst_at prog j) j s e = false.
Proof.
  induction js as [| j' js IH]; simpl.
  - intros _ j Hj. by apply not_elem_of_nil in Hj.
  - rewrite bind_guard_ok. intros [H1 H2] j [-> | Hj]%elem_of_cons; [by bools | by apply IH].
Qed.

Lemma check_sub_program_jumps prog s e :
  0 <= s < e -> e < 2 ^ 32 -> check_sub_program prog s e = Ok tt ->
  forall k, s <= k < e -> is_jump (inst_at prog k) = true -> s <= k + 1 + jump_offset (inst_at prog k) < e.
Proof.
  intros Hse He Hck k Hk Hj. apply bind_ok_inv in Hck as ([] & Hck & _).
  apply jump_escapes_false; try done. eapply check_jumps_all; [done |].
  apply elem_of_seqZ. lia.
Qed.

Lemma check_sub_programs_jumps prog starts s :
  let n := Z.of_nat (length prog) in
  n < 2 ^ 32 -> increasing (s :: starts) -> 0 <= s -> (forall x, x ∈ s :: starts -> x < n) ->
  check_sub_programs prog n (s :: starts) = Ok tt ->
  forall k, s <= k < n -> is_jump (inst_at prog k) = true ->
  forall x, x ∈ s :: starts -> (x <= k <-> x <= k + 1 + jump_offset (inst_at prog k)).
Proof.
  intros n Hn. revert s. induction starts as [| e starts IH]; intros s Hinc Hs Hlt Hck k Hk Hj.
  - intros x ->%list_elem_of_singleton. simpl in Hck. apply bind_ok_inv in Hck as ([] & Hck & _).
    eapply (check_sub_program_jumps _ _ _) in Hck; [| | | done | done]; lia.
  - cbn [check_sub_programs] in Hck. apply bind_ok_inv in Hck as ([] & Hck & Hrest).
    assert (s < e) as Hse by (by apply (Hinc 0%nat 1%nat); [lia | ..]).
    assert (e < n) as Hen by (apply Hlt; set_solver).
    assert (increasing (e :: starts)) as Hinc'
      by (intros i j x y Hij Hx Hy; by apply (Hinc (S i) (S j)); [lia | ..]).
    assert (forall x, x ∈ e :: starts -> e <= x) as Hge.
    { intros x [-> | Hx]%elem_of_cons; [lia |]. apply list_elem_of_lookup in Hx as [i Hx].
      apply Z.lt_le_incl. by apply (Hinc' 0%nat (S i)); [lia | ..]. }
    destruct (Z.ltb_spec k e).
    + eapply (check_sub_program_jumps _ _ _ _ _ Hck k) in Hj; [| lia].
      intros x [-> | Hx]%elem_of_cons; [lia |]. apply Hge in Hx. lia.
    + assert (forall x, x ∈ e :: starts -> x <= k <-> x <= k + 1 + jump_offset (inst_at prog k)) as Hx.
      { apply (IH e); try done; [lia | | lia]. intros x Hx. apply Hlt. set_solver. }
      intros x [-> | Hin]%elem_of_cons; [| by apply Hx].
      assert (e <= k + 1 + jump_offset (inst_at prog k)) by (apply Hx; [set_solver | lia]). lia.
  Unshelve. all: lia.
Qed.

Lemma elem_of_call_targets prog i x :
  x ∈ call_targets i prog <->
  exists k inst, prog !! k = Some inst /\ is_local_call inst = true /\
    x = u32 (i + Z.of_nat k + 1 + inst.(imm)).
Proof.
  revert i. induction prog as [| inst prog IH]; intros i; cbn [call_targets].
  - split; [by intros ?%not_elem_of_nil |]. by intros (k & ? & ? & _).
  - transitivity ((is_local_call inst = true /\ x = u32 (i + 1 + inst.(imm))) \/
                  x ∈ call_targets (i + 1) prog).
    + destruct (is_local_call inst); [rewrite elem_of_cons |]; naive_solver.
    + rewrite IH. split.
      * intros [[H1 ->] | (k & inst' & Hk & H1 & ->)].
        -- exists 0%nat, inst. repeat split; [done |]. f_equal. lia.
        -- exists (S k), inst'. repeat split; [done .. |]. f_equal. lia.
      * intros ([| k] & inst' & Hk & H1 & ->); simplify_eq/=; [left | right].
        -- split; [done |]. f_equal. lia.
        -- exists k, inst'. repeat split; [done .. |]. f_equal. lia.
Qed.

(** ** What [validate] establishes for the interpreters *)

Record validated `{HostEnv} (vm : ubpf_vm) (prog : list ebpf_inst) : Prop := Validated {
  vd_length : Z.of_nat (length prog) < UBPF_MAX_INSTS;
  vd_main_known : usage_known vm 0;
  vd_main_aligned : usage_aligned vm 0;
  vd_checked : forall k inst, start prog k -> prog !! Z.to_nat k = Some inst ->
    exists op, inst_checked vm prog k inst op;
}.

Section ValidateResults.
Context `{HostEnv}.

Lemma validate_ok_inv vm alloc_ok prog vm' :
  validate vm alloc_ok prog = (vm', Ok tt) ->
  usage_extends vm vm' /\ validated vm' prog /\
  check_for_self_contained_sub_programs alloc_ok prog = Ok tt.
Proof.
  unfold validate. destruct (Z.leb_spec UBPF_MAX_INSTS (Z.of_nat (length prog))) as [| Hn]; [discriminate |].
  pose proof (calculate_usage_extends vm 0) as Hx. pose proof (calculate_usage_known vm 0) as Hk.
  pose proof (calculate_usage_aligned vm 0) as Ha.
  destruct (ubpf_calculate_stack_usage_for_local_func vm 0) as [vm1 ok]. cbn [fst snd] in *.
  change (u16 0) with 0 in *.
  destruct ok; [| discriminate]. cbn [negb].
  destruct (validate_loop _ _ _ _ _) as [vm2 r] eqn:Hloop. destruct r as [[] |]; [| discriminate].
  intros [= <- Hsub]. apply (validate_loop_checked (length prog)) in Hloop as [Hx' Hall]; try done.
  split; [eauto with ubpf |]. split; [| done]. constructor; try done.
  - by eapply usage_extends_known.
  - eapply usage_extends_aligned; [done .. |]. by apply Ha.
Qed.

Lemma validated_local_call vm prog k inst :
  validated vm prog -> start prog k -> prog !! Z.to_nat k = Some inst -> is_local_call inst = true ->
  0 <= call_target k inst < Z.of_nat (length prog) /\
  usage_known vm (call_target k inst) /\ usage_aligned vm (call_target k inst).
Proof.
  intros Hv Hs Hk Hc. destruct (vd_checked _ _ Hv k inst Hs Hk) as [op Hck].
  unfold is_local_call in Hc. bools. pose proof (ck_op _ _ _ _ _ Hck) as Hop.
  pose proof (ck_group _ _ _ _ _ Hck) as Hg.
  replace (opcode inst) with (opcode_of EBPF_OP_CALL) in Hop. rewrite switch_op_complete in Hop.
  injection Hop as <-. destruct Hg as [[? _] | (_ & ? & ? & ?)]; [lia | done].
Qed.

(** A slot whose opcode is not zero starts an instruction. *)
Lemma validated_nonzero_start vm prog k :
  validated vm prog -> 0 <= k < Z.of_nat (length prog) -> (inst_at prog k).(opcode) <> 0 -> start prog k.
Proof.
  intros Hv Hk Hne. destruct (slot_start_or_second prog k Hk) as [| [Hs Hl]]; [done |].
  assert (0 <= k - 1) by (by apply start_from_ge in Hs).
  destruct (lookup_lt_is_Some_2 prog (Z.to_nat (k - 1))) as [inst Hinst]; [lia |].
  destruct (vd_checked _ _ Hv _ _ Hs Hinst) as [op Hck].
  unfold inst_at in Hl. rewrite Hinst in Hl. cbn in Hl. rewrite (lddw_group _ op (ck_op _ _ _ _ _ Hck)) in Hl.
  pose proof (ck_group _ _ _ _ _ Hck) as Hg. destruct (group_of op); try discriminate.
  destruct Hg as (_ & _ & Hg). replace (k - 1 + 1) with k in Hg by lia. by rewrite Hg in Hne.
Qed.

Lemma u32_call_target k inst :
  0 <= call_target k inst -> u32 (k + 1 + inst.(imm)) = call_target k inst.
Proof.
  intros Hc. pose proof (sext_range 32 (k + s32 (inst.(imm) + 1)) ltac:(lia)) as Hr.
  unfold call_target in *. change (2 ^ (32 - 1)) with 2147483648 in Hr.
  rewrite <- (wrap_id 32 (s32 _)) by lia. rewrite wrap_sext by lia.
  symmetry. rewrite <- wrap_add_r, wrap_sext, wrap_add_r by lia. f_equal. lia.
Qed.

(** The targets of the local calls are slots of the program. *)
Lemma validated_call_targets vm prog x :
  validated vm prog -> x ∈ call_targets 0 prog ->
  0 <= x < Z.of_nat (length prog) /\ usage_known vm x /\ usage_aligned vm x.
Proof.
  intros Hv (k & inst & Hk & Hc & ->)%elem_of_call_targets. pose proof (lookup_lt_Some _ _ _ Hk) as Hlt.
  assert (start prog (Z.of_nat k)) as Hs.
  { eapply validated_nonzero_start; [done | lia |]. unfold inst_at. rewrite Nat2Z.id, Hk. cbn.
    unfold is_local_call in Hc. bools. replace (opcode inst) with (opcode_of EBPF_OP_CALL). done. }
  destruct (validated_local_call vm prog (Z.of_nat k) inst) as (Ht & Hu); try done; [by rewrite Nat2Z.id |].
  rewrite Z.add_0_l, u32_call_target by lia. done.
Qed.

(** [validated] depends on the VM through the helper tables and the cache. *)
Lemma validated_frame vm vm' prog :
  vm'.(local_func_stack_usage) = vm.(local_func_stack_usage) ->
  vm'.(dispatcher) = vm.(dispatcher) -> vm'.(dispatcher_validate) = vm.(dispatcher_validate) ->
  vm'.(ext_funcs) = vm.(ext_funcs) -> validated vm prog -> validated vm' prog.
Proof.
  intros Hu Hd Hdv He [].
  assert (forall pc, usage_at vm' pc = usage_at vm pc) as Hat by (intros; unfold usage_at, usage_table; by rewrite Hu).
  assert (forall pc, usage_known vm pc -> usage_known vm' pc) as Hk
    by (intros; unfold usage_known; by rewrite Hat).
  assert (forall pc, usage_aligned vm pc -> usage_aligned vm' pc) as Ha.
  { intros pc (u & ? & ?). exists u. unfold ubpf_stack_usage_for_local_func in *. by rewrite Hat. }
  assert (forall fn, external_call_ok vm fn -> external_call_ok vm' fn) as Hx
    by (intros fn; unfold external_call_ok; by rewrite Hd, Hdv, He).
  constructor; auto. intros k inst Hs Hi. destruct (vd_checked0 k inst Hs Hi) as [op []].
  exists op. constructor; auto. unfold group_checked in *. destruct (group_of op); try done.
  destruct ck_group0 as [[? ?] | (? & ? & ? & ?)]; auto 6.
Qed.

Lemma validate_switch_extends vm prog n i inst : usage_extends vm (validate_switch vm prog n i inst).1.
Proof.
  unfold validate_switch. destruct (switch_op _) as [op |]; [| apply usage_extends_refl].
  destruct (group_of op); try apply usage_extends_refl.
  pose proof (validate_call_extends vm n i inst) as Hx. by destruct (validate_call _ _ _ _).
Qed.

Lemma validate_loop_extends n rest vm prog len i :
  (length rest <= n)%nat -> usage_extends vm (validate_loop vm prog len i rest).1.
Proof.
  revert rest vm i. induction n as [| n IH]; intros [| inst rest] vm i Hn; try apply usage_extends_refl;
    simpl in Hn; [lia |].
  cbn [validate_loop]. pose proof (validate_switch_extends vm prog len i inst) as Hx.
  destruct (validate_switch _ _ _ _ _) as [vm1 [[store skip] | e]]; cbn [fst] in Hx; [| done].
  destruct (validate_registers _ _ _); [| done].
  destruct skip; [destruct rest as [| second rest]; [done |] |];
    (eapply usage_extends_trans; [exact Hx |]; apply IH; simpl in Hn; lia).
Qed.

(** Whatever the verdict, [validate] changes the cache only. *)
Lemma validate_extends vm alloc_ok prog : usage_extends vm (validate vm alloc_ok prog).1.
Proof.
  unfold validate. destruct (_ <=? _); [apply usage_extends_refl |].
  pose proof (calculate_usage_extends vm 0) as Hx.
  destruct (ubpf_calculate_stack_usage_for_local_func vm 0) as [vm1 ok]. cbn [fst] in Hx.
  destruct ok; cbn [negb]; [| done].
  pose proof (validate_loop_extends (length prog) prog vm1 prog (Z.of_nat (length prog)) 0 ltac:(done)) as Hy.
  destruct (validate_loop _ _ _ _ _) as [vm2 [? | ?]]; eauto with ubpf.
Qed.

End ValidateResults.

(** ** Properties *)

(** C31: in an accepted program, every jump goes to a slot where an instruction
    starts, inside the program, never into the second half of an LDDW and never
    to itself. *)
Theorem validate_jump_targets `{HostEnv} (vm vm' : ubpf_vm) (alloc_ok : bool) (prog : list ebpf_inst)
    (k : Z) (inst : ebpf_inst) (op : ebpf_op) :
  validate vm alloc_ok prog = (vm', Ok tt) ->
  start prog k -> prog !! Z.to_nat k = Some inst -> switch_op inst.(opcode) = Some op ->
  group_of op = GroupJump ->
  let target := k + 1 + jump_offset inst in
  target <> k /\ 0 <= target < Z.of_nat (length prog) /\ start prog target.
Proof.
  intros (_ & Hv & _)%validate_ok_inv Hs Hk Hop Hg.
  destruct (vd_checked _ _ Hv k inst Hs Hk) as [op' Hck].
  pose proof (ck_op _ _ _ _ _ Hck). simplify_eq. apply ck_group in Hck. rewrite Hg in Hck.
  destruct Hck as (? & ? & ?). repeat split; try lia. by eapply validated_nonzero_start.
Qed.

Lemma validate_jump_targets_witness :
  let prog := [Inst 0x15 1 0 1 7; Inst 0xb7 0 0 0 1; Inst 0x95 0 0 0 0] in
  start prog 2.
Proof.
  intros prog.
  apply (@validate_jump_targets null_host (empty_vm JitNull)
           (@validate null_host (empty_vm JitNull) true prog).1 true prog 0 (Inst 0x15 1 0 1 7)
           EBPF_OP_JEQ_IMM);
    [vm_compute; reflexivity | constructor | reflexivity ..].
Defined.

(** C30: in an accepted program with local calls, the main program and every
    local function are closed under jumps: no jump crosses the start of a
    sub-program, from either side. *)
Theorem validate_sub_programs_closed `{HostEnv} (vm vm' : ubpf_vm) (alloc_ok : bool)
    (prog : list ebpf_inst) (s : Z) :
  validate vm alloc_ok prog = (vm', Ok tt) -> s ∈ call_targets 0 prog ->
  jumps_respect prog s.
Proof.
  intros (_ & Hv & Hsub)%validate_ok_inv Hs k Hk Hj.
  unfold check_for_self_contained_sub_programs in Hsub.
  destruct (deduplicate_spec (call_targets 0 prog ++ [0])) as [Hinc Hel].
  fold (sub_program_start_indices prog) in Hinc, Hel.
  assert (check_sub_programs prog (Z.of_nat (length prog)) (sub_program_start_indices prog) = Ok tt) as Hck.
  { destruct (call_targets 0 prog); [by apply not_elem_of_nil in Hs |].
    by apply bind_ok_inv in Hsub as ([] & _ & Hsub). }
  pose proof (vd_length _ _ Hv) as Hlen. unfold UBPF_MAX_INSTS in Hlen.
  assert (forall x, x ∈ sub_program_start_indices prog -> 0 <= x < Z.of_nat (length prog)) as Hrange.
  { intros x [Hx | ->%list_elem_of_singleton]%Hel%elem_of_app; [| lia].
    by eapply validated_call_targets. }
  assert (0 ∈ sub_program_start_indices prog) as H0 by (apply Hel; set_solver).
  assert (s ∈ sub_program_start_indices prog) as Hsin by (apply Hel; set_solver).
  destruct (sub_program_start_indices prog) as [| s0 starts]; [by apply not_elem_of_nil in H0 |].
  assert (0 <= s0) by (apply Hrange; set_solver).
  assert (s0 <= 0) as Hs0.
  { apply elem_of_cons in H0 as [<- | Hi]; [done |]. apply list_elem_of_lookup in Hi as [i Hi].
    apply Z.lt_le_incl. by apply (Hinc 0%nat (S i)); [lia | ..]. }
  apply (check_sub_programs_jumps prog starts s0); try done; [lia | | lia].
  intros x Hx. by apply Hrange.
Qed.

Lemma validate_sub_programs_closed_witness :
  let prog := [Inst 0x85 0 1 0 1; Inst 0x95 0 0 0 0; Inst 0x15 1 0 1 7; Inst 0xb7 0 0 0 1; Inst 0x95 0 0 0 0] in
  jumps_respect prog 2.
Proof.
  intros prog.
  apply (@validate_sub_programs_closed null_host (empty_vm JitNull)
           (@validate null_host (empty_vm JitNull) true prog).1 true prog 2);
    [vm_compute; reflexivity |].
  vm_compute. left.
Defined.

(** The list of sub-program starts the check works with, after sorting and
    compacting in place, is strictly increasing and has exactly the entries of
    the input array. *)
Theorem deduplicate_correct (array : list Z) :
  StronglySorted Z.lt (deduplicate_array_of_uint32 array) /\
  forall x, x ∈ deduplicate_array_of_uint32 array <-> x ∈ array.
Proof.
  destruct (deduplicate_spec array) as [Hinc Hel]. split; [| done]. by apply increasing_sorted.
Qed.

(** The check of the end of a sub-program looks one slot too early: a
    program whose main part runs off its end into the local function (its last
    but one instruction is a jump, its last a move) is accepted, and a local
    function that ends with an unconditional jump is rejected. *)
Theorem sub_program_end_misjudged :
  let falls_through :=
    [Inst 0x85 0 1 0 2; Inst 0x05 0 0 0 0; Inst 0xb7 0 0 0 1; Inst 0x95 0 0 0 0] in
  let ends_with_jump :=
    [Inst 0x85 0 1 0 1; Inst 0x95 0 0 0 0; Inst 0x95 0 0 0 0; Inst 0xb7 0 0 0 1; Inst 0x05 0 0 (-3) 0] in
  (@validate null_host (empty_vm JitNull) true falls_through).2 = Ok tt /\
  start falls_through 2 /\
  switch_op (inst_at falls_through 2).(opcode) = Some EBPF_OP_MOV64_IMM /\
  call_targets 0 falls_through = [3] /\
  switch_op (inst_at ends_with_jump 4).(opcode) = Some EBPF_OP_JA /\
  (@validate null_host (empty_vm JitNull) true ends_with_jump).2 = Err (SubProgramEnd 4).
Proof.
  intros p1 p2. repeat split; try (vm_compute; reflexivity).
  apply (start_next _ _ 1 (Inst 0x05 0 0 0 0)); [| reflexivity ..].
  by apply (start_next _ _ 0 (Inst 0x85 0 1 0 2)); [constructor | ..].
Qed.

(** A local call may enter the second half of an LDDW, which a jump may not:
    the program that calls slot 3, the second half of the LDDW at slot 2, is
    accepted, and the same program with a jump there is rejected. *)
Theorem local_call_into_lddw_accepted :
  let lddw := [Inst 0x18 0 0 0 5; Inst 0 0 0 0 0; Inst 0x95 0 0 0 0] in
  let caller := Inst 0x85 0 1 0 2 :: Inst 0x05 0 0 0 0 :: lddw in
  let jumper := Inst 0x05 0 0 2 0 :: Inst 0x05 0 0 0 0 :: lddw in
  second_slot caller 3 /\ call_targets 0 caller = [3] /\
  (@validate null_host (empty_vm JitNull) true caller).2 = Ok tt /\
  (@validate null_host (empty_vm JitNull) true jumper).2 = Err (JumpToMiddleOfLddw 0).
Proof.
  intros lddw caller jumper. repeat split; try (vm_compute; reflexivity).
  apply (start_next _ _ 1 (Inst 0x05 0 0 0 0)); [| reflexivity ..].
  by apply (start_next _ _ 0 (Inst 0x85 0 1 0 2)); [constructor | ..].
Qed.

(** The instructions of an accepted program have the fields the ISA document
    prescribes, the immediate of the 32-bit atomic operation apart: where the filter
    table is wider, for the byte swaps, the switch of [validate] makes up for it. *)
Theorem validated_follows_encoding `{HostEnv} (vm : ubpf_vm) (prog : list ebpf_inst) (k : Z) (inst : ebpf_inst) :
  validated vm prog -> start prog k -> prog !! Z.to_nat k = Some inst ->
  inst.(opcode) <> opcode_of EBPF_OP_ATOMIC32_STORE -> within (rule_filter inst.(opcode)) inst.
Proof.
  intros Hv Hs Hk Hne. destruct (vd_checked _ _ Hv k inst Hs Hk) as [op [Hop Hf _ _ Hg]].
  apply valid_instruction_inv in Hf as [_ Hw]. apply switch_op_sound in Hop. unfold table_filter, wide_immediates in Hw.
  rewrite (proj2 (Z.eqb_neq _ _) Hne) in Hw. destruct (_ || _) eqn:E; [| exact Hw].
  rewrite <- Hop in E, Hw |- *. destruct op; try (vm_compute in E; discriminate E);
    destruct Hw as (Hd & Hsrc & _ & Ho); (split; [exact Hd |]; split; [exact Hsrc |]; split; [| exact Ho]);
    cbn in Hg |- *; naive_solver.
Qed.

(** A program with a 32-bit atomic operation whose immediate names no operation is
    accepted; the same with the 64-bit operation is rejected. *)
Theorem atomic32_immediate_not_checked :
  let with_op c := [Inst c 10 1 (-8) 2; Inst 0x95 0 0 0 0] in
  (@validate null_host (empty_vm JitNull) true (with_op (opcode_of EBPF_OP_ATOMIC32_STORE))).2 = Ok tt /\
  (@validate null_host (empty_vm JitNull) true (with_op (opcode_of EBPF_OP_ATOMIC_STORE))).2 <> Ok tt.
Proof. split; [vm_compute; reflexivity | vm_compute; discriminate]. Qed.
