(* ===== verification/Load.v ===== *)
(** * Load: [ubpf_load] (vm/ubpf_vm.c)

    Loading validates the program, allocates the instruction array, marks the
    targets of local calls and stores the encoded instructions.  The operating
    system's answers are a record of functions.  [None] is a write outside the
    [int_funcs] array, or the use of a NULL stack-usage table.  The theorems give the invariant of a loaded VM, the
    interface the interpreters are verified against, and the state the error
    paths leave. *)

From Stdlib Require Import ZArith Lia Bool.
From stdpp Require Import base list gmap strings numbers.
From S2P Require Import Prelude Ebpf InstValid Mem Vm Validate.

Local Open Scope Z_scope.
Local Open Scope cbits_scope.

(** ** The operating system *)

Record os_calls : Type := OsCalls {
  os_sysconf_pagesize : Z;  (* sysconf(_SC_PAGESIZE) *)
  os_mmap : Z -> option Z;  (* size; None is MAP_FAILED *)
  os_malloc : Z -> option Z;  (* size; None is NULL *)
  os_calloc_ok : bool;  (* calloc of int_funcs *)
  os_validate_calloc_ok : bool;  (* calloc of the sub-program starts *)
  os_mprotect : Z -> Z -> prot -> bool;  (* true: returned 0 *)
}.

Definition page_size (os : os_calls) : Z :=
  if os.(os_sysconf_pagesize) <=? 0 then 4096 else os.(os_sysconf_pagesize).

(** ** Operations *)

(** [(code_len + page_size - 1) & ~(page_size - 1)], in [size_t]. *)
Definition page_aligned_size (os : os_calls) (code_len : Z) : Z :=
  u64 (code_len + page_size os - 1) .& u64 (Z.lnot (page_size os - 1)).

(** The allocation of [vm->insts]: the flag is false for "out of memory". *)
Definition load_allocate (vm : ubpf_vm) (os : os_calls) (code_len : Z) : ubpf_vm * bool :=
  if vm.(readonly_bytecode_enabled) then
    let vm := set_insts_alloc_size (page_aligned_size os code_len) vm in
    match os.(os_mmap) vm.(insts_alloc_size) with
    | None => (set_insts 0 vm, false)
    | Some p =>
        (set_insts_owner FromMmap
           (set_insts_data (replicate (Z.to_nat (vm.(insts_alloc_size) / 8)) 0) (set_insts p vm)), true)
    end
  else
    match os.(os_malloc) code_len with
    | None => (set_insts 0 vm, false)
    | Some p =>
        (set_insts_alloc_size code_len
           (set_insts_owner FromMalloc
              (set_insts_data (replicate (Z.to_nat (code_len / 8)) 0) (set_insts p vm))), true)
    end.

(** The clean-up of the error paths after the allocation: releases the array
    (with the deallocator of the current mode, the one it came from). *)
Definition load_release (vm : ubpf_vm) : ubpf_vm :=
  set_num_insts 0 (set_insts_alloc_size 0 (set_insts_data [] (set_insts 0 vm))).

(** The loop from index [i] over the remaining source instructions. *)
Fixpoint load_loop (vm : ubpf_vm) (i : Z) (source : list ebpf_inst) : option ubpf_vm :=
  match source with
  | [] => Some vm
  | inst :: source' =>
      vm ←
        (if is_local_call inst then
           let target := u32 (i + inst.(imm) + 1) in
           match vm.(int_funcs) with
           | Some flags =>
               if target <? Z.of_nat (length flags)
               then Some (set_int_funcs (Some (<[Z.to_nat target := true]> flags)) vm)
               else None
           | None => None
           end
         else Some vm);
      load_loop (ubpf_store_instruction vm i inst) (i + 1) source'
  end.

(** After validation and allocation. *)
Definition load_store (vm : ubpf_vm) (os : os_calls) (code_len : Z) (source : list ebpf_inst)
    : option (ubpf_vm * result unit load_error) :=
  let vm := set_num_insts (u16 (code_len / 8)) vm in
  if negb os.(os_calloc_ok) then Some (load_release (set_int_funcs None vm), Err OutOfMemory)
  else
    let vm := set_int_funcs (Some (replicate (Z.to_nat vm.(num_insts)) false)) vm in
    vm ← load_loop vm 0 (take (Z.to_nat vm.(num_insts)) source);
    if vm.(readonly_bytecode_enabled) &&
       negb (os.(os_mprotect) vm.(insts) vm.(insts_alloc_size) PROT_R)
    then Some (set_int_funcs None (load_release vm), Err ReadOnlyFailed)
    else Some (vm, Ok tt).

(** The stack-usage table is NULL after an unload whose [calloc] failed: unless the
    program is too long, [validate] then reads through it ([None]). *)
Definition ubpf_load `{HostEnv} (vm : ubpf_vm) (os : os_calls) (code : list Z)
    : option (ubpf_vm * result unit load_error) :=
  let code_len := Z.of_nat (length code) in
  let source := insts_of_bytes code in
  if negb (UBPF_EBPF_STACK_SIZE mod 8 =? 0) then Some (vm, Err StackSizeNotMultipleOf8)
  else if negb (vm.(insts) =? 0) then Some (vm, Err AlreadyLoaded)
  else if negb (code_len mod 8 =? 0) then Some (vm, Err CodeLenNotMultipleOf8)
  else if (Z.of_nat (length source) <? UBPF_MAX_INSTS) && bool_decide (vm.(local_func_stack_usage) = None) then None
  else
    let '(vm, r) := validate vm os.(os_validate_calloc_ok) source in
    match r with
    | Err e => Some (vm, Err e)
    | Ok _ =>
        let '(vm, ok) := load_allocate vm os code_len in
        if negb ok then Some (vm, Err OutOfMemory)
        else load_store vm os code_len source
    end.

(** ** The invariant of a loaded VM *)

Record loaded `{HostEnv} (vm : ubpf_vm) (prog : list ebpf_inst) : Prop := Loaded {
  ld_validated : validated vm prog;
  ld_insts : vm.(insts) <> 0;
  ld_num_insts : vm.(num_insts) = Z.of_nat (length prog);
  ld_fetch : forall k, 0 <= k < vm.(num_insts) -> ubpf_fetch_instruction vm k = prog !! Z.to_nat k;
  ld_int_funcs : exists flags, vm.(int_funcs) = Some flags /\ length flags = length prog /\
    forall k, flags !! k = Some true <-> (Z.of_nat k ∈ call_targets 0 prog);
  ld_owner : vm.(insts_owner) = (if vm.(readonly_bytecode_enabled) then FromMmap else FromMalloc);
}.

(** The VM without its code: what loading and unloading are to leave alone. *)
Definition forget_code (vm : ubpf_vm) : ubpf_vm :=
  set_insts 0 (set_insts_data [] (set_insts_owner FromMalloc (set_num_insts 0 (set_insts_alloc_size 0
    (set_int_funcs None (set_local_func_stack_usage (Some ∅) vm)))))).

(** What the code relies on of the operating system: allocations are not NULL,
    the page size is a power of two. *)
Record os_sound (os : os_calls) : Prop := OsSound {
  os_mmap_nonnull : forall n p, os.(os_mmap) n = Some p -> p <> 0;
  os_malloc_nonnull : forall n p, os.(os_malloc) n = Some p -> p <> 0;
  os_page_power : exists k, 3 <= k < 63 /\ page_size os = 2 ^ k;
}.

(** ** Lemmas *)

Lemma insts_of_bytes_ok code : Forall inst_ok (insts_of_bytes code).
Proof.
  remember (length code) as n eqn:E. assert (length code <= n)%nat as Hn by lia. clear E.
  revert code Hn. induction n as [| n IH]; intros code Hn.
  - destruct code; [constructor | simpl in Hn; lia].
  - do 8 (destruct code as [| ? code]; [constructor |]). simpl insts_of_bytes.
    constructor; [apply inst_of_u64_ok | apply IH; simpl in Hn; lia].
Qed.

Lemma length_insts_of_bytes code :
  Z.of_nat (length (insts_of_bytes code)) = Z.of_nat (length code) / 8.
Proof.
  remember (length code) as n eqn:E. assert (length code <= n)%nat as Hn by lia. rewrite E. clear E.
  revert code Hn. induction n as [| n IH]; intros code Hn.
  - destruct code; [done | simpl in Hn; lia].
  - do 8 (destruct code as [| ? code]; [reflexivity |]). cbn [insts_of_bytes length].
    rewrite Nat2Z.inj_succ, IH by (simpl in Hn; lia). rewrite !Nat2Z.inj_succ.
    replace (Z.succ (Z.succ _)) with (Z.of_nat (length code) + 1 * 8) by lia.
    rewrite Z.div_add by lia. lia.
Qed.

(** Rounding up to a page leaves room for the program. *)
Lemma page_aligned_size_ge os code_len :
  os_sound os -> 0 <= code_len < 2 ^ 62 -> code_len <= page_aligned_size os code_len.
Proof.
  intros [_ _ (k & Hk & Hp)] Hc. unfold page_aligned_size. rewrite Hp.
  assert (0 < 2 ^ k <= 2 ^ 62) as Hpow by (split; [lia | apply Z.pow_le_mono_r; lia]).
  rewrite (wrap_id 64 (_ - 1)) by lia.
  rewrite <- (wrap_id 64 (code_len + 2 ^ k - 1)) by lia. rewrite <- wrap_land by lia.
  replace (2 ^ k - 1) with (Z.ones k) by (rewrite Z.ones_equiv; lia).
  rewrite <- Z.ldiff_land, Z.ldiff_ones_r by lia.
  rewrite Z.shiftl_mul_pow2, Z.shiftr_div_pow2 by lia.
  pose proof (Z.div_mod (code_len + 2 ^ k - 1) (2 ^ k) ltac:(lia)).
  pose proof (Z.mod_pos_bound (code_len + 2 ^ k - 1) (2 ^ k) ltac:(lia)).
  rewrite wrap_id; [lia |]. split; [apply Z.mul_nonneg_nonneg; [apply Z.div_pos |]; lia | lia].
Qed.

(** The VM after the loop: the flags and the array changed, nothing else. *)
Definition with_code (data : list Z) (flags : list bool) (vm : ubpf_vm) : ubpf_vm :=
  set_int_funcs (Some flags) (set_insts_data data vm).

Lemma with_code_with_code data flags data' flags' vm :
  with_code data flags (with_code data' flags' vm) = with_code data flags vm.
Proof. done. Qed.

Lemma fetch_with_code data flags vm k :
  ubpf_fetch_instruction (with_code data flags vm) k =
  (fun w => inst_of_u64 (encode_word vm w)) <$> data !! Z.to_nat k.
Proof. done. Qed.

Lemma load_loop_spec source : forall vm i data flags,
  0 <= i -> Forall inst_ok source ->
  (Z.to_nat i + length source <= length data)%nat ->
  (forall x, x ∈ call_targets i source -> x < Z.of_nat (length flags)) ->
  exists data' flags',
    load_loop (with_code data flags vm) i source = Some (with_code data' flags' vm) /\
    length flags' = length flags /\
    (forall k, (k < Z.to_nat i)%nat -> data' !! k = data !! k) /\
    (forall k, (k < length source)%nat ->
       ubpf_fetch_instruction (with_code data' flags' vm) (i + Z.of_nat k) = source !! k) /\
    (forall k, flags' !! k = Some true <-> flags !! k = Some true \/ (Z.of_nat k ∈ call_targets i source)).
Proof.
  induction source as [| inst source IH]; intros vm i data flags Hi Hok Hlen Hin.
  { exists data, flags. split; [done |]. split; [done |]. split; [done |].
    split; [intros k Hk; simpl in Hk; lia |]. intros k. simpl. set_solver. }
  cbn [load_loop]. apply Forall_cons_1 in Hok as [Hinst Hok]. simpl in Hlen.
  set (flags1 := if is_local_call inst then <[Z.to_nat (u32 (i + inst.(imm) + 1)) := true]> flags else flags).
  assert (length flags1 = length flags) as Hl1 by (unfold flags1; destruct (is_local_call inst);
    [apply length_insert | done]).
  match goal with |- context [mbind _ ?x] => assert (x = Some (with_code data flags1 vm)) as -> end.
  { unfold flags1. destruct (is_local_call inst) eqn:Hc; [| done]. cbn [int_funcs with_code set_int_funcs].
    cbn [call_targets] in Hin. rewrite Hc in Hin.
    rewrite (proj2 (Z.ltb_lt _ _)); [done |]. replace (i + imm inst + 1) with (i + 1 + imm inst) by lia.
    apply Hin. set_solver. }
  simpl mbind.
  change (ubpf_store_instruction (with_code data flags1 vm) i inst) with
    (with_code (<[Z.to_nat i := encode_word vm (u64_of_inst inst)]> data) flags1 vm).
  destruct (IH vm (i + 1) (<[Z.to_nat i := encode_word vm (u64_of_inst inst)]> data) flags1)
    as (data' & flags' & -> & Hfl & Hlow & Hfetch & Hmark); [lia | done | | |].
  { rewrite length_insert. lia. }
  { intros x Hx. rewrite Hl1. apply Hin. cbn [call_targets]. destruct (is_local_call inst); set_solver. }
  exists data', flags'. split; [done |]. split; [by rewrite Hfl |]. split; [| split].
  - intros k Hk. rewrite Hlow by lia. by rewrite list_lookup_insert_ne by lia.
  - intros [| k] Hk.
    + rewrite Z.add_0_r, fetch_with_code, Hlow by lia. rewrite list_lookup_insert_eq by lia. simpl.
      by rewrite encode_word_involutive, inst_u64_roundtrip.
    + simpl in Hk. replace (i + Z.of_nat (S k)) with (i + 1 + Z.of_nat k) by lia. simpl. apply Hfetch. lia.
  - intros k. rewrite Hmark. unfold flags1. cbn [call_targets].
    destruct (is_local_call inst) eqn:Hc; [| done]. rewrite elem_of_cons.
    replace (i + imm inst + 1) with (i + 1 + imm inst) by lia.
    assert (u32 (i + 1 + imm inst) < Z.of_nat (length flags)) as Hlt
      by (apply Hin; cbn [call_targets]; rewrite Hc; set_solver).
    pose proof (wrap_range 32 (i + 1 + imm inst) ltac:(lia)) as Hr.
    destruct (decide (Z.of_nat k = u32 (i + 1 + imm inst))) as [E | Hne].
    + rewrite <- E, Nat2Z.id. rewrite list_lookup_insert_eq by lia. naive_solver.
    + rewrite list_lookup_insert_ne by lia. naive_solver.
Qed.

Section LoadLemmas.
Context `{HostEnv}.

Lemma load_allocate_ok vm os code_len vm' :
  os_sound os -> 0 <= code_len < 2 ^ 62 -> load_allocate vm os code_len = (vm', true) ->
  vm'.(insts) <> 0 /\ (Z.to_nat (code_len / 8) <= length vm'.(insts_data))%nat /\
  vm' = set_insts vm'.(insts) (set_insts_data vm'.(insts_data) (set_insts_owner vm'.(insts_owner)
          (set_insts_alloc_size vm'.(insts_alloc_size) vm))) /\
  vm'.(insts_owner) = (if vm.(readonly_bytecode_enabled) then FromMmap else FromMalloc).
Proof.
  intros Hos Hc. unfold load_allocate. destruct (readonly_bytecode_enabled vm).
  - cbn [insts_alloc_size set_insts_alloc_size].
    destruct (os_mmap os _) as [p |] eqn:E; [| discriminate]. intros [= <-].
    cbn. rewrite length_replicate. split; [by apply (os_mmap_nonnull _ Hos _ _ E) |]. split; [| done].
    apply Z2Nat.inj_le; try (apply Z.div_pos; lia);
      [| apply Z.div_le_mono; [lia | by apply page_aligned_size_ge]].
    apply Z.div_pos; [| lia]. pose proof (page_aligned_size_ge os code_len Hos Hc). lia.
  - destruct (os_malloc os code_len) as [p |] eqn:E; [| discriminate]. intros [= <-].
    cbn. rewrite length_replicate. split; [by apply (os_malloc_nonnull _ Hos _ _ E) |]. done.
Qed.

Lemma load_allocate_fail vm os code_len vm' :
  load_allocate vm os code_len = (vm', false) -> vm'.(insts) = 0.
Proof.
  unfold load_allocate. repeat case_match; intros [= <-]; done.
Qed.

Lemma load_allocate_forget vm os code_len :
  forget_code (load_allocate vm os code_len).1 = forget_code vm.
Proof. unfold load_allocate. by repeat case_match. Qed.

(** [load_store] never leaves the [int_funcs] array, and either loads the
    program or releases the array. *)
Lemma load_store_spec vm os code_len source :
  vm.(insts) <> 0 -> Forall inst_ok source -> validated vm source ->
  code_len / 8 = Z.of_nat (length source) ->
  (Z.to_nat (code_len / 8) <= length vm.(insts_data))%nat ->
  vm.(insts_owner) = (if vm.(readonly_bytecode_enabled) then FromMmap else FromMalloc) ->
  exists vm' r, load_store vm os code_len source = Some (vm', r) /\ forget_code vm' = forget_code vm /\
    match r with
    | Ok _ => loaded vm' source
    | Err e => vm'.(insts) = 0 /\ (e = OutOfMemory \/ e = ReadOnlyFailed)
    end.
Proof.
  intros Hnz Hok Hv Hlen Hdata Ho. unfold load_store.
  assert (u16 (code_len / 8) = Z.of_nat (length source)) as Hn16.
  { pose proof (vd_length _ _ Hv) as Hl. unfold UBPF_MAX_INSTS in Hl. rewrite Hlen. apply wrap_id. lia. }
  rewrite Hn16. cbn [num_insts set_num_insts set_int_funcs]. rewrite Nat2Z.id.
  destruct (os_calloc_ok os); cbn [negb]; [| by do 2 eexists; repeat split; left].
  rewrite firstn_all2 by done.
  set (vm1 := set_num_insts (Z.of_nat (length source)) vm).
  destruct (load_loop_spec source vm1 0 vm.(insts_data) (replicate (length source) false))
    as (data' & flags' & Hloop & Hfl & _ & Hfetch & Hmark); [lia | done | simpl; lia | |].
  { intros x Hx. rewrite length_replicate. by eapply validated_call_targets. }
  change (with_code vm.(insts_data) (replicate (length source) false) vm1) with
    (set_int_funcs (Some (replicate (length source) false)) vm1) in Hloop.
  rewrite Hloop. simpl mbind. destruct (_ && _).
  - do 2 eexists. repeat split. by right.
  - do 2 eexists. split; [reflexivity |]. split; [done |]. constructor.
    + by apply (validated_frame vm).
    + done.
    + done.
    + intros k Hk. change (num_insts _) with (Z.of_nat (length source)) in Hk.
      rewrite <- Hfetch by lia. f_equal. lia.
    + exists flags'. split; [done |]. split; [by rewrite Hfl, length_replicate |].
      intros k. rewrite Hmark. split; [| by right]. intros [Hf | ?]; [| done].
      apply lookup_replicate in Hf. naive_solver.
    + done.
Qed.

(** Every outcome of [ubpf_load], when it has one. *)
Lemma load_outcomes vm os code :
  os_sound os -> vm.(local_func_stack_usage) <> None \/ is_Some (ubpf_load vm os code) ->
  exists vm' r, ubpf_load vm os code = Some (vm', r) /\ forget_code vm' = forget_code vm /\
    match r with
    | Ok _ => vm.(insts) = 0 /\ loaded vm' (insts_of_bytes code)
    | Err e => (vm.(insts) <> 0 -> vm' = vm /\ e = AlreadyLoaded) /\
               (vm.(insts) = 0 -> vm'.(insts) = 0)
    end.
Proof.
  intros Hos. unfold ubpf_load. change (UBPF_EBPF_STACK_SIZE mod 8 =? 0) with true. cbn [negb]. intros Htab.
  destruct (Z.eqb_spec vm.(insts) 0) as [Hz | Hz]; cbn [negb];
    [| by do 2 eexists; split; [reflexivity |]].
  destruct (Z.of_nat (length code) mod 8 =? 0) eqn:H8; cbn [negb];
    [| by do 2 eexists; split; [reflexivity |]].
  destruct (_ && bool_decide _) eqn:Hnull in Htab |- *.
  { destruct Htab as [Htab | [? [=]]]. apply andb_prop in Hnull as [_ ?%bool_decide_eq_true]. done. }
  clear Htab Hnull. pose proof (validate_extends vm os.(os_validate_calloc_ok) (insts_of_bytes code)) as [Hfr _].
  destruct (validate vm _ _) as [vm1 [[] | e]] eqn:Hval; cbn [fst] in Hfr;
    [| do 2 eexists; split; [reflexivity |]; by rewrite Hfr].
  apply validate_ok_inv in Hval as (_ & Hv & _).
  assert (Z.of_nat (length code) < 2 ^ 62) as Hlt.
  { pose proof (vd_length _ _ Hv) as Hl. rewrite length_insts_of_bytes in Hl.
    unfold UBPF_MAX_INSTS in Hl. pose proof (Z.div_mod (Z.of_nat (length code)) 8 ltac:(lia)).
    pose proof (Z.mod_pos_bound (Z.of_nat (length code)) 8). lia. }
  assert (forget_code vm1 = forget_code vm) as Hf1 by (by rewrite Hfr).
  pose proof (load_allocate_forget vm1 os (Z.of_nat (length code))) as Hf2. rewrite Hf1 in Hf2.
  destruct (load_allocate vm1 os _) as [vm2 [] ] eqn:Hal; cbn [negb fst] in *.
  - apply load_allocate_ok in Hal as (Hnz & Hdata & Hfr2 & Ho); [| done | lia].
    destruct (load_store_spec vm2 os (Z.of_nat (length code)) (insts_of_bytes code))
      as (vm' & r & -> & Hf & Hr); try done.
    + apply insts_of_bytes_ok.
    + apply (validated_frame vm1); try done; by rewrite Hfr2.
    + symmetry. apply length_insts_of_bytes.
    + by rewrite Ho, Hfr2.
    + exists vm', r. split; [done |]. split; [by rewrite Hf |]. destruct r; naive_solver.
  - do 2 eexists. split; [reflexivity |]. split; [done |]. split; [done |].
    intros _. by eapply load_allocate_fail.
Qed.

Definition load_result_spec (vm : ubpf_vm) (code : list Z) (vm' : ubpf_vm) (r : result unit load_error) : Prop :=
  forget_code vm' = forget_code vm /\
  match r with
  | Ok _ => vm.(insts) = 0 /\ loaded vm' (insts_of_bytes code)
  | Err e => (vm.(insts) <> 0 -> vm' = vm /\ e = AlreadyLoaded) /\
             (vm.(insts) = 0 -> vm'.(insts) = 0)
  end.

Lemma load_outcome vm os code :
  os_sound os -> vm.(local_func_stack_usage) <> None ->
  exists vm' r, ubpf_load vm os code = Some (vm', r) /\ load_result_spec vm code vm' r.
Proof. intros Hos Ht. by apply load_outcomes; [| left]. Qed.

Lemma load_result vm os code vm' r :
  os_sound os -> ubpf_load vm os code = Some (vm', r) -> load_result_spec vm code vm' r.
Proof.
  intros Hos E. destruct (load_outcomes vm os code Hos) as (vm2 & r2 & E2 & Hs); [right; by rewrite E |].
  rewrite E in E2. by injection E2 as <- <-.
Qed.

(** A program is only loaded with a stack-usage table. *)
Lemma load_table vm os code vm' r :
  ubpf_load vm os code = Some (vm', r) -> r = Ok tt \/ vm.(local_func_stack_usage) <> None ->
  vm.(local_func_stack_usage) <> None.
Proof.
  unfold ubpf_load. intros E [-> | Ht]; [| done]. do 3 (destruct (negb _); [done |]).
  destruct (_ && _) eqn:Hg; [done |]. intros Hn. rewrite (bool_decide_eq_true_2 _ Hn), andb_true_r in Hg.
  unfold validate in E. apply Z.ltb_ge, Z.leb_le in Hg. by rewrite Hg in E.
Qed.

Lemma unload_loaded vm prog ok :
  loaded vm prog -> vm.(jitted) = 0 ->
  ubpf_unload_code vm ok = Some (set_insts_owner vm.(insts_owner)
    (set_local_func_stack_usage (if ok then Some ∅ else None) (forget_code vm))).
Proof.
  intros Hl Hj. pose proof (ld_insts _ _ Hl) as Hi. pose proof (ld_owner _ _ Hl) as Ho.
  unfold ubpf_unload_code. cbn -[Z.eqb]. rewrite Hj. cbn. apply Z.eqb_neq in Hi. rewrite Hi. cbn.
  destruct (insts_owner vm) eqn:Eo, (readonly_bytecode_enabled vm); try discriminate; cbn;
    by rewrite <- Eo.
Qed.

End LoadLemmas.

(** ** Properties *)

(** C6: on a VM that has its stack-usage table, which every VM has but one whose last
    unload could not allocate it, [ubpf_load] always returns: it never writes outside
    the array of local functions.  When it returns 0 the VM is loaded: the program was validated,
    every fetch decodes to the source instruction, and the flag of slot [k] is
    set exactly when a local call targets it.  A VM that has code refuses a
    second program and is left as it is; on any other failure the VM has no
    code. *)
Theorem load_spec `{HostEnv} (vm : ubpf_vm) (os : os_calls) (code : list Z) :
  os_sound os -> vm.(local_func_stack_usage) <> None ->
  exists vm' r, ubpf_load vm os code = Some (vm', r) /\
    match r with
    | Ok _ => vm.(insts) = 0 /\ loaded vm' (insts_of_bytes code)
    | Err e => (vm.(insts) <> 0 -> vm' = vm /\ e = AlreadyLoaded) /\
               (vm.(insts) = 0 -> vm'.(insts) = 0)
    end.
Proof.
  intros Hos Ht. destruct (load_outcome vm os code Hos Ht) as (vm' & r & ? & _ & ?). eauto.
Qed.

Definition test_os : os_calls :=
  OsCalls 4096 (fun _ => Some 65536) (fun _ => Some 65536) true true (fun _ _ _ => true).

Lemma test_os_sound : os_sound test_os.
Proof. split; [by intros ? ? [= <-] .. | by exists 12]. Qed.

(** [mov r0, 1; exit] *)
Definition tiny_code : list Z := [0xb7; 0; 0; 0; 1; 0; 0; 0; 0x95; 0; 0; 0; 0; 0; 0; 0].

(** The VM a load of [code] leaves, for evaluation. *)
Definition load_on (h : HostEnv) (vm : ubpf_vm) (code : list Z) : ubpf_vm :=
  match @ubpf_load h vm test_os code with
  | Some (vm', _) => vm'
  | None => vm
  end.

Definition load_fresh (h : HostEnv) (code : list Z) : ubpf_vm := load_on h (empty_vm JitNull) code.

Lemma load_spec_witness :
  exists vm', @ubpf_load null_host (empty_vm JitNull) test_os tiny_code = Some (vm', Ok tt) /\
    @loaded null_host vm' [Inst 0xb7 0 0 0 1; Inst 0x95 0 0 0 0].
Proof.
  destruct (@load_spec null_host (empty_vm JitNull) test_os tiny_code test_os_sound ltac:(discriminate))
    as (vm' & [[] | e] & E & Hr).
  - exists vm'. split; [exact E | apply Hr].
  - exfalso. vm_compute in E. discriminate.
Defined.



(** A failed load leaves its traces in the stack-usage cache: after a load
    that failed, a calculator registered for the next program is not consulted
    for the functions the failed program already had an entry for, and the next
    program runs with the stale usage. *)
Theorem failed_load_keeps_stale_usage :
  let host := {|
    call_helper _ _ _ _ _ _ _ m := Some (0, m);
    call_dispatcher _ _ _ _ _ _ _ _ m := Some (0, m);
    call_validate _ _ _ := false;
    call_bounds_check _ _ _ _ _ := false;
    call_stack_usage calc _ _ _ := calc;
    call_debug _ _ _ _ _ _ _ _ m := m;
    host_granted _ := False;
  |} in
  let vm0 := (ubpf_register_stack_usage_calculator (empty_vm JitNull) 512 0).1 in
  exists vm1 vm2,
    @ubpf_load host vm0 test_os [0; 0; 0; 0; 0; 0; 0; 0] = Some (vm1, Err (UnknownOpcode 0 0)) /\
    @ubpf_load host (ubpf_register_stack_usage_calculator vm1 64 0).1 test_os tiny_code = Some (vm2, Ok tt) /\
    ubpf_stack_usage_for_local_func vm2 0 = Some 512.
Proof.
  intros host vm0. exists (load_on host vm0 (replicate 8 0)).
  exists (load_on host (ubpf_register_stack_usage_calculator (load_on host vm0 (replicate 8 0)) 64 0).1 tiny_code).
  split; [| split]; vm_compute; reflexivity.
Qed.
