(* ===== verification/Alu.v ===== *)
(** * Alu: arithmetic, byte order and conditions of the interpreter (vm/ubpf_vm.c)

    One definition per block of cases of the switch of [ubpf_exec_ex]; a
    definition returns [None] for the labels of other blocks.  A register is a
    [uint64_t]; every conversion and wrap-around of the C expression is written
    out.  The specification reads the operation off the bits of the opcode (class,
    source bit, operation nibble) and computes it on w-bit integers, as RFC 9669
    states it. *)

From Stdlib Require Import ZArith Lia Bool.
From stdpp Require Import base list gmap strings numbers.
From S2P Require Import Prelude Ebpf InstValid.

Local Open Scope Z_scope.
Local Open Scope cbits_scope.

Definition SHIFT_MASK_32_BIT (x : Z) : Z := x .& 0x1f.
Definition SHIFT_MASK_64_BIT (x : Z) : Z := x .& 0x3f.

(** C's [/] and [%] on signed operands truncate. *)
Definition c_div (x y : Z) : Z := Z.quot x y.
Definition c_rem (x y : Z) : Z := Z.rem x y.

(** ** 32-bit operations *)

(** DIV_IMM and DIV_REG: [d] is the destination register, [s] the operand. *)
Definition div32 (offset d s : Z) : Z :=
  (if offset =? 0 then (if negb (u32 s =? 0) then u32 d / u32 s else 0)
   else if offset =? 1 then
     let dividend32 := s32 d in
     let divisor32 := s32 s in
     if divisor32 =? 0 then 0
     else if (dividend32 =? INT32_MIN) && (divisor32 =? -1) then u32 INT32_MIN
     else u32 (c_div dividend32 divisor32)
   else d) .& UINT32_MAX.

Definition mod32 (offset d s : Z) : Z :=
  (if offset =? 0 then (if negb (u32 s =? 0) then u32 d mod u32 s else u32 d)
   else if offset =? 1 then
     let dividend32 := s32 d in
     let divisor32 := s32 s in
     if divisor32 =? 0 then d
     else if (dividend32 =? INT32_MIN) && (divisor32 =? -1) then 0
     else u32 (c_rem dividend32 divisor32)
   else d) .& UINT32_MAX.

(** From ADD_IMM to RSH_REG. *)
Definition alu32_first (op : ebpf_op) (offset imm d s : Z) : option Z :=
  match op with
  | EBPF_OP_ADD_IMM => Some (u64 (d + u64 imm) .& UINT32_MAX)
  | EBPF_OP_ADD_REG => Some (u64 (d + s) .& UINT32_MAX)
  | EBPF_OP_SUB_IMM => Some (u64 (d - u64 imm) .& UINT32_MAX)
  | EBPF_OP_SUB_REG => Some (u64 (d - s) .& UINT32_MAX)
  | EBPF_OP_MUL_IMM => Some (u64 (d * u64 imm) .& UINT32_MAX)
  | EBPF_OP_MUL_REG => Some (u64 (d * s) .& UINT32_MAX)
  | EBPF_OP_DIV_IMM => Some (div32 offset d imm)
  | EBPF_OP_DIV_REG => Some (div32 offset d s)
  | EBPF_OP_OR_IMM => Some ((d .| u64 imm) .& UINT32_MAX)
  | EBPF_OP_OR_REG => Some ((d .| s) .& UINT32_MAX)
  | EBPF_OP_AND_IMM => Some ((d .& u64 imm) .& UINT32_MAX)
  | EBPF_OP_AND_REG => Some ((d .& s) .& UINT32_MAX)
  | EBPF_OP_LSH_IMM => Some (u32 (u32 d .<< SHIFT_MASK_32_BIT imm) .& UINT32_MAX)
  | EBPF_OP_LSH_REG => Some (u32 (u32 d .<< SHIFT_MASK_32_BIT s) .& UINT32_MAX)
  | EBPF_OP_RSH_IMM => Some ((u32 d .>> SHIFT_MASK_32_BIT imm) .& UINT32_MAX)
  | EBPF_OP_RSH_REG => Some ((u32 d .>> SHIFT_MASK_32_BIT s) .& UINT32_MAX)
  | _ => None
  end.

(** From NEG to ARSH_REG. *)
Definition alu32_second (op : ebpf_op) (offset imm d s : Z) : option Z :=
  match op with
  | EBPF_OP_NEG => Some (u64 (- s64 d) .& UINT32_MAX)
  | EBPF_OP_MOD_IMM => Some (mod32 offset d imm)
  | EBPF_OP_MOD_REG => Some (mod32 offset d s)
  | EBPF_OP_XOR_IMM => Some ((d .^ u64 imm) .& UINT32_MAX)
  | EBPF_OP_XOR_REG => Some ((d .^ s) .& UINT32_MAX)
  | EBPF_OP_MOV_IMM => Some (u64 imm .& UINT32_MAX)
  | EBPF_OP_MOV_REG =>
      Some ((if offset =? 8 then u64 (s8 (u8 s))
             else if offset =? 16 then u64 (s16 (u16 s))
             else s) .& UINT32_MAX)
  | EBPF_OP_ARSH_IMM => Some (u64 (s32 d .>> SHIFT_MASK_32_BIT imm) .& UINT32_MAX)
  | EBPF_OP_ARSH_REG => Some (u64 (s32 d .>> SHIFT_MASK_32_BIT s) .& UINT32_MAX)
  | _ => None
  end.

Definition exec_alu32 (op : ebpf_op) (offset imm d s : Z) : option Z :=
  match alu32_first op offset imm d s with
  | Some v => Some v
  | None => alu32_second op offset imm d s
  end.

(** [-(int64_t)reg] overflows: undefined behaviour. *)
Definition neg_overflows (op : ebpf_op) (d : Z) : bool :=
  match op with
  | EBPF_OP_NEG => s64 d =? INT64_MIN
  | _ => false
  end.

(** ** Byte order *)

Definition bswap16 (x : Z) : Z := u16 (((x .& 0xff00) .>> 8) .| ((x .& 0x00ff) .<< 8)).

Definition bswap32 (x : Z) : Z :=
  u32 (((x .& 0xff000000) .>> 24) .| ((x .& 0x00ff0000) .>> 8) .|
       ((x .& 0x0000ff00) .<< 8) .| ((x .& 0x000000ff) .<< 24)).

Definition bswap64 (x : Z) : Z :=
  u64 (((x .& 0xff00000000000000) .>> 56) .| ((x .& 0x00ff000000000000) .>> 40) .|
       ((x .& 0x0000ff0000000000) .>> 24) .| ((x .& 0x000000ff00000000) .>> 8) .|
       ((x .& 0x00000000ff000000) .<< 8) .| ((x .& 0x0000000000ff0000) .<< 24) .|
       ((x .& 0x000000000000ff00) .<< 40) .| ((x .& 0x00000000000000ff) .<< 56)).

(** [htoleN] is the identity on the N bits of a little-endian host, [htobeN] swaps. *)
Definition exec_endian (op : ebpf_op) (imm d : Z) : option Z :=
  match op with
  | EBPF_OP_LE =>
      Some (if imm =? 16 then u16 d else if imm =? 32 then u32 d else if imm =? 64 then u64 d else d)
  | EBPF_OP_BE =>
      Some (if imm =? 16 then bswap16 (u16 d) else if imm =? 32 then bswap32 (u32 d)
            else if imm =? 64 then bswap64 d else d)
  | EBPF_OP_BSWAP =>
      Some (if imm =? 16 then bswap16 d else if imm =? 32 then bswap32 d
            else if imm =? 64 then bswap64 d else d)
  | _ => None
  end.

(** ** 64-bit operations *)

(** DIV64: [s] is [reg[inst.src]], or [inst.imm] converted to 64 bits. *)
Definition div64 (offset d s : Z) : Z :=
  if offset =? 0 then (if negb (u64 s =? 0) then d / u64 s else 0)
  else if offset =? 1 then
    let dividend64 := s64 d in
    let divisor64 := s64 s in
    if divisor64 =? 0 then 0
    else if (dividend64 =? INT64_MIN) && (divisor64 =? -1) then u64 INT64_MIN
    else u64 (c_div dividend64 divisor64)
  else d.

Definition mod64 (offset d s : Z) : Z :=
  if offset =? 0 then (if negb (u64 s =? 0) then d mod u64 s else d)
  else if offset =? 1 then
    let dividend64 := s64 d in
    let divisor64 := s64 s in
    if divisor64 =? 0 then d
    else if (dividend64 =? INT64_MIN) && (divisor64 =? -1) then 0
    else u64 (c_rem dividend64 divisor64)
  else d.

Definition exec_alu64 (op : ebpf_op) (offset imm d s : Z) : option Z :=
  match op with
  | EBPF_OP_ADD64_IMM => Some (u64 (d + u64 imm))
  | EBPF_OP_ADD64_REG => Some (u64 (d + s))
  | EBPF_OP_SUB64_IMM => Some (u64 (d - u64 imm))
  | EBPF_OP_SUB64_REG => Some (u64 (d - s))
  | EBPF_OP_MUL64_IMM => Some (u64 (d * u64 imm))
  | EBPF_OP_MUL64_REG => Some (u64 (d * s))
  | EBPF_OP_DIV64_IMM => Some (div64 offset d imm)
  | EBPF_OP_DIV64_REG => Some (div64 offset d s)
  | EBPF_OP_OR64_IMM => Some (d .| u64 imm)
  | EBPF_OP_OR64_REG => Some (d .| s)
  | EBPF_OP_AND64_IMM => Some (d .& u64 imm)
  | EBPF_OP_AND64_REG => Some (d .& s)
  | EBPF_OP_LSH64_IMM => Some (u64 (d .<< SHIFT_MASK_64_BIT imm))
  | EBPF_OP_LSH64_REG => Some (u64 (d .<< SHIFT_MASK_64_BIT s))
  | EBPF_OP_RSH64_IMM => Some (d .>> SHIFT_MASK_64_BIT imm)
  | EBPF_OP_RSH64_REG => Some (d .>> SHIFT_MASK_64_BIT s)
  | EBPF_OP_NEG64 => Some (u64 (0 - d))
  | EBPF_OP_MOD64_IMM => Some (mod64 offset d imm)
  | EBPF_OP_MOD64_REG => Some (mod64 offset d s)
  | EBPF_OP_XOR64_IMM => Some (d .^ u64 imm)
  | EBPF_OP_XOR64_REG => Some (d .^ s)
  | EBPF_OP_MOV64_IMM => Some (u64 imm)
  | EBPF_OP_MOV64_REG =>
      Some (if offset =? 8 then u64 (s8 (u8 s))
            else if offset =? 16 then u64 (s16 (u16 s))
            else if offset =? 32 then u64 (s32 (u32 s))
            else s)
  | EBPF_OP_ARSH64_IMM => Some (u64 (s64 d .>> SHIFT_MASK_64_BIT imm))
  | EBPF_OP_ARSH64_REG => Some (u64 (s64 d .>> SHIFT_MASK_64_BIT s))
  | _ => None
  end.

(** ** Conditions of the conditional jumps *)

Definition cond_unsigned (op : ebpf_op) (imm d s : Z) : option bool :=
  match op with
  | EBPF_OP_JEQ_IMM => Some (d =? u64 imm)
  | EBPF_OP_JEQ_REG => Some (d =? s)
  | EBPF_OP_JEQ32_IMM => Some (u32 d =? u32 imm)
  | EBPF_OP_JEQ32_REG => Some (u32 d =? u32 s)
  | EBPF_OP_JGT_IMM => Some (u64 imm <? d)
  | EBPF_OP_JGT_REG => Some (s <? d)
  | EBPF_OP_JGT32_IMM => Some (u32 imm <? u32 d)
  | EBPF_OP_JGT32_REG => Some (u32 s <? u32 d)
  | EBPF_OP_JGE_IMM => Some (u64 imm <=? d)
  | EBPF_OP_JGE_REG => Some (s <=? d)
  | EBPF_OP_JGE32_IMM => Some (u32 imm <=? u32 d)
  | EBPF_OP_JGE32_REG => Some (u32 s <=? u32 d)
  | EBPF_OP_JLT_IMM => Some (d <? u64 imm)
  | EBPF_OP_JLT_REG => Some (d <? s)
  | EBPF_OP_JLT32_IMM => Some (u32 d <? u32 imm)
  | EBPF_OP_JLT32_REG => Some (u32 d <? u32 s)
  | EBPF_OP_JLE_IMM => Some (d <=? u64 imm)
  | EBPF_OP_JLE_REG => Some (d <=? s)
  | EBPF_OP_JLE32_IMM => Some (u32 d <=? u32 imm)
  | EBPF_OP_JLE32_REG => Some (u32 d <=? u32 s)
  | EBPF_OP_JSET_IMM => Some (negb (d .& u64 imm =? 0))
  | EBPF_OP_JSET_REG => Some (negb (d .& s =? 0))
  | EBPF_OP_JSET32_IMM => Some (negb (u32 d .& u32 imm =? 0))
  | EBPF_OP_JSET32_REG => Some (negb (u32 d .& u32 s =? 0))
  | EBPF_OP_JNE_IMM => Some (negb (d =? u64 imm))
  | EBPF_OP_JNE_REG => Some (negb (d =? s))
  | EBPF_OP_JNE32_IMM => Some (negb (u32 d =? u32 imm))
  | EBPF_OP_JNE32_REG => Some (negb (u32 d =? u32 s))
  | _ => None
  end.

Definition cond_signed (op : ebpf_op) (imm d s : Z) : option bool :=
  match op with
  | EBPF_OP_JSGT_IMM => Some (imm <? s64 d)
  | EBPF_OP_JSGT_REG => Some (s64 s <? s64 d)
  | EBPF_OP_JSGT32_IMM => Some (s32 imm <? s32 d)
  | EBPF_OP_JSGT32_REG => Some (s32 s <? s32 d)
  | EBPF_OP_JSGE_IMM => Some (imm <=? s64 d)
  | EBPF_OP_JSGE_REG => Some (s64 s <=? s64 d)
  | EBPF_OP_JSGE32_IMM => Some (s32 imm <=? s32 d)
  | EBPF_OP_JSGE32_REG => Some (s32 s <=? s32 d)
  | EBPF_OP_JSLT_IMM => Some (s64 d <? imm)
  | EBPF_OP_JSLT_REG => Some (s64 d <? s64 s)
  | EBPF_OP_JSLT32_IMM => Some (s32 d <? s32 imm)
  | EBPF_OP_JSLT32_REG => Some (s32 d <? s32 s)
  | EBPF_OP_JSLE_IMM => Some (s64 d <=? imm)
  | EBPF_OP_JSLE_REG => Some (s64 d <=? s64 s)
  | EBPF_OP_JSLE32_IMM => Some (s32 d <=? s32 imm)
  | EBPF_OP_JSLE32_REG => Some (s32 d <=? s32 s)
  | _ => None
  end.

Definition exec_condition (op : ebpf_op) (imm d s : Z) : option bool :=
  match cond_unsigned op imm d s with
  | Some b => Some b
  | None => cond_signed op imm d s
  end.

(** ** Specification, read off the opcode's bits *)

Definition op_class (opcode : Z) : Z := opcode .& 0x07.
Definition op_source_bit (opcode : Z) : bool := negb (opcode .& 0x08 =? 0).
Definition op_nibble (opcode : Z) : Z := opcode .>> 4.

(** The width of an operation: classes ALU and JMP32 are 32 bits wide. *)
Definition op_width (opcode : Z) : Z :=
  if (op_class opcode =? 0x04) || (op_class opcode =? 0x06) then 32 else 64.

(** [spec_alu w code offset x y]: the arithmetic operation [code] on w-bit
    operands, both in [0, 2^w). *)
Definition spec_alu (w code offset x y : Z) : Z :=
  let sx := sext w x in
  let sy := sext w y in
  let n := y mod w in
  wrap w
    (if code =? 0x0 then x + y
     else if code =? 0x1 then x - y
     else if code =? 0x2 then x * y
     else if code =? 0x3 then
       (if y =? 0 then 0 else if offset =? 0 then x / y else if offset =? 1 then Z.quot sx sy else x)
     else if code =? 0x4 then Z.lor x y
     else if code =? 0x5 then Z.land x y
     else if code =? 0x6 then x * 2 ^ n
     else if code =? 0x7 then x / 2 ^ n
     else if code =? 0x8 then - x
     else if code =? 0x9 then
       (if y =? 0 then x else if offset =? 0 then x mod y else if offset =? 1 then Z.rem sx sy else x)
     else if code =? 0xa then Z.lxor x y
     else if code =? 0xb then (if offset =? 0 then y else sext offset y)
     else sx / 2 ^ n).

(** The condition of a jump on w-bit operands. *)
Definition spec_condition (w code x y : Z) : bool :=
  let sx := sext w x in
  let sy := sext w y in
  if code =? 0x1 then x =? y
  else if code =? 0x2 then y <? x
  else if code =? 0x3 then y <=? x
  else if code =? 0x4 then negb (Z.land x y =? 0)
  else if code =? 0x5 then negb (x =? y)
  else if code =? 0x6 then sy <? sx
  else if code =? 0x7 then sy <=? sx
  else if code =? 0xa then x <? y
  else if code =? 0xb then x <=? y
  else if code =? 0xc then sx <? sy
  else sx <=? sy.

(** The operations of class JMP and JMP32 other than JA, CALL and EXIT. *)
Definition is_conditional (op : ebpf_op) : bool :=
  let c := opcode_of op in
  ((op_class c =? 0x05) || (op_class c =? 0x06)) &&
  negb ((op_nibble c =? 0x0) || (op_nibble c =? 0x8) || (op_nibble c =? 0x9)).

(** The two operands, from the instruction and the register values. *)
Definition spec_operand (opcode imm s : Z) : Z :=
  wrap (op_width opcode) (if op_source_bit opcode then s else imm).
Definition spec_dest (opcode d : Z) : Z := wrap (op_width opcode) d.

(** ** Lemmas *)

(** Every wrap of a C expression inside an outer wrap of at most its width goes. *)
Ltac wrap_norm :=
  repeat first
    [ rewrite land_u32max
    | rewrite wrap_wrap_le by lia
    | rewrite wrap_add_wide_l by lia | rewrite wrap_add_wide_r by lia
    | rewrite wrap_sub_wide_l by lia | rewrite wrap_sub_wide_r by lia
    | rewrite wrap_mul_wide_l by lia | rewrite wrap_mul_wide_r by lia
    | rewrite wrap_lor by lia | rewrite wrap_land by lia | rewrite wrap_lxor by lia
    | rewrite sext_wrap_le by lia ].

Lemma shift_mask_32 x : SHIFT_MASK_32_BIT x = u32 x mod 32.
Proof.
  unfold SHIFT_MASK_32_BIT. change 0x1f with (Z.ones 5). rewrite Z.land_ones by lia.
  symmetry. exact (wrap_wrap_le 5 32 x ltac:(lia)).
Qed.

Lemma shift_mask_64 x : SHIFT_MASK_64_BIT x = u64 x mod 64.
Proof.
  unfold SHIFT_MASK_64_BIT. change 0x3f with (Z.ones 6). rewrite Z.land_ones by lia.
  symmetry. exact (wrap_wrap_le 6 64 x ltac:(lia)).
Qed.

(** The special case of INT_MIN / -1 is what wrapping the quotient gives. *)
Lemma quot_overflow w x y :
  0 < w -> sext w x = - 2 ^ (w - 1) -> sext w y = -1 ->
  wrap w (Z.quot (sext w x) (sext w y)) = wrap w (- 2 ^ (w - 1)) /\ wrap w (Z.rem (sext w x) (sext w y)) = 0.
Proof.
  intros Hw -> ->. split.
  - change (-1) with (- (1)). rewrite Z.quot_opp_opp, Z.quot_1_r by lia.
    replace (2 ^ (w - 1)) with (- 2 ^ (w - 1) + 1 * 2 ^ w) at 1
      by (replace w with (w - 1 + 1) at 2 by lia; rewrite Z.pow_add_r by lia; lia).
    unfold wrap. apply Z.mod_add, Z.pow_nonzero; lia.
  - change (-1) with (- (1)). rewrite Z.rem_opp_r, Z.rem_1_r by lia. unfold wrap.
    apply Z.mod_0_l, Z.pow_nonzero; lia.
Qed.

Lemma wrap_div_unsigned w x y : 0 <= w -> 0 <= x < 2 ^ w -> 0 <= y -> wrap w (x / y) = x / y.
Proof.
  intros. apply wrap_id. destruct (Z.eq_dec y 0) as [-> | Hy]; [rewrite Z.div_0_r; lia |].
  split; [apply Z.div_pos; lia |]. apply Z.div_lt_upper_bound; nia.
Qed.

Lemma wrap_mod_unsigned w x y : 0 <= w -> 0 <= x < 2 ^ w -> 0 < y -> wrap w (x mod y) = x mod y.
Proof.
  intros. apply wrap_id. pose proof (Z.mod_pos_bound x y). pose proof (Z.mod_le x y). lia.
Qed.

Lemma div32_spec offset d s :
  offset = 0 \/ offset = 1 -> div32 offset d s = spec_alu 32 0x3 offset (u32 d) (u32 s).
Proof.
  intros Ho. unfold div32, spec_alu. cbn [Z.eqb Pos.eqb]. rewrite land_u32max. cbv zeta.
  destruct Ho as [-> | ->]; cbn [Z.eqb Pos.eqb].
  - by destruct (Z.eqb_spec (u32 s) 0).
  - rewrite !sext_wrap by lia. pose proof (sext_zero_iff 32 s ltac:(lia)) as Hz.
    destruct (Z.eqb_spec (s32 s) 0), (Z.eqb_spec (u32 s) 0); try tauto.
    destruct (Z.eqb_spec (s32 d) INT32_MIN), (Z.eqb_spec (s32 s) (-1)); cbn [andb];
      rewrite wrap_wrap by lia; try done.
    symmetry. by apply (quot_overflow 32).
Qed.

Lemma mod32_spec offset d s :
  offset = 0 \/ offset = 1 -> mod32 offset d s = spec_alu 32 0x9 offset (u32 d) (u32 s).
Proof.
  intros Ho. unfold mod32, spec_alu. cbn [Z.eqb Pos.eqb]. rewrite land_u32max. cbv zeta.
  destruct Ho as [-> | ->]; cbn [Z.eqb Pos.eqb].
  - by destruct (Z.eqb_spec (u32 s) 0).
  - rewrite !sext_wrap by lia. pose proof (sext_zero_iff 32 s ltac:(lia)) as Hz.
    destruct (Z.eqb_spec (s32 s) 0), (Z.eqb_spec (u32 s) 0); try tauto; [by rewrite wrap_wrap by lia |].
    destruct (Z.eqb_spec (s32 d) INT32_MIN), (Z.eqb_spec (s32 s) (-1)); cbn [andb];
      try (rewrite wrap_wrap by lia; done).
    symmetry. by apply (quot_overflow 32).
Qed.

Lemma div64_spec offset d s :
  0 <= d < 2 ^ 64 -> offset = 0 \/ offset = 1 -> div64 offset d s = spec_alu 64 0x3 offset (u64 d) (u64 s).
Proof.
  intros Hd Ho. unfold div64, spec_alu. cbn [Z.eqb Pos.eqb]. cbv zeta. rewrite (wrap_id 64 d) by done.
  pose proof (wrap_range 64 s ltac:(lia)). destruct Ho as [-> | ->]; cbn [Z.eqb Pos.eqb].
  - destruct (Z.eqb_spec (u64 s) 0); cbn [negb]; [done |]. rewrite wrap_div_unsigned by lia. done.
  - rewrite !sext_wrap by lia. pose proof (sext_zero_iff 64 s ltac:(lia)) as Hz.
    destruct (Z.eqb_spec (s64 s) 0), (Z.eqb_spec (u64 s) 0); try tauto.
    destruct (Z.eqb_spec (s64 d) INT64_MIN), (Z.eqb_spec (s64 s) (-1)); cbn [andb]; try done.
    symmetry. by apply (quot_overflow 64).
Qed.

Lemma mod64_spec offset d s :
  0 <= d < 2 ^ 64 -> offset = 0 \/ offset = 1 -> mod64 offset d s = spec_alu 64 0x9 offset (u64 d) (u64 s).
Proof.
  intros Hd Ho. unfold mod64, spec_alu. cbn [Z.eqb Pos.eqb]. cbv zeta. rewrite (wrap_id 64 d) by done.
  pose proof (wrap_range 64 s ltac:(lia)). destruct Ho as [-> | ->]; cbn [Z.eqb Pos.eqb].
  - destruct (Z.eqb_spec (u64 s) 0); cbn [negb]; [by rewrite wrap_id |].
    rewrite wrap_mod_unsigned by lia. done.
  - rewrite !sext_wrap by lia. pose proof (sext_zero_iff 64 s ltac:(lia)) as Hz.
    destruct (Z.eqb_spec (s64 s) 0), (Z.eqb_spec (u64 s) 0); try tauto; [by rewrite wrap_id |].
    destruct (Z.eqb_spec (s64 d) INT64_MIN), (Z.eqb_spec (s64 s) (-1)); cbn [andb]; try done.
    symmetry. by apply (quot_overflow 64).
Qed.

(** The offsets the instruction filter lets through, where the offset matters. *)
Definition offset_ok (op : ebpf_op) (offset : Z) : Prop :=
  match op with
  | EBPF_OP_DIV_IMM | EBPF_OP_DIV_REG | EBPF_OP_MOD_IMM | EBPF_OP_MOD_REG
  | EBPF_OP_DIV64_IMM | EBPF_OP_DIV64_REG | EBPF_OP_MOD64_IMM | EBPF_OP_MOD64_REG =>
      offset = 0 \/ offset = 1
  | EBPF_OP_MOV_IMM | EBPF_OP_MOV64_IMM => offset = 0
  | EBPF_OP_MOV_REG => offset = 0 \/ offset = 8 \/ offset = 16
  | EBPF_OP_MOV64_REG => offset = 0 \/ offset = 8 \/ offset = 16 \/ offset = 32
  | _ => True
  end.

Lemma valid_offset_ok inst op :
  switch_op inst.(opcode) = Some op -> ubpf_is_valid_instruction inst = Ok tt -> offset_ok op inst.(offset).
Proof.
  intros Hop Hv. apply valid_instruction_inv in Hv as [_ (_ & _ & _ & Hw)].
  apply switch_op_sound in Hop. rewrite <- Hop in Hw.
  destruct op; try exact I;
    match type of Hw with context [table_filter ?c] =>
      let f := eval vm_compute in (table_filter c) in change (table_filter c) with f in Hw end;
    cbn in Hw |- *; intuition lia.
Qed.

(** The operations of class ALU and ALU64 other than the byte swaps. *)
Definition is_alu (op : ebpf_op) : bool :=
  ((op_class (opcode_of op) =? 0x04) || (op_class (opcode_of op) =? 0x07)) &&
  negb (op_nibble (opcode_of op) =? 0xd).

Definition exec_alu (op : ebpf_op) (offset imm d s : Z) : option Z :=
  match exec_alu32 op offset imm d s with
  | Some v => Some v
  | None => exec_alu64 op offset imm d s
  end.

Lemma neg32_spec d : u32 (- s64 d) = u32 (- u32 d).
Proof.
  rewrite <- (Z.sub_0_l (s64 d)), <- (Z.sub_0_l (u32 d)).
  rewrite <- (wrap_sub_wide_r 32 64 0 (s64 d)), wrap_sext, !wrap_sub_wide_r by lia. done.
Qed.

Lemma mod_small_range y w : 0 < w -> 0 <= y mod w.
Proof. intros. apply Z.mod_pos_bound. lia. Qed.

Lemma sext_shift_fits w x n : 0 < w -> 0 <= n -> signed_fits w (sext w x / 2 ^ n).
Proof.
  intros Hw Hn. pose proof (sext_range w x Hw) as Hr. unfold signed_fits.
  assert (0 < 2 ^ n) by (apply Z.pow_pos_nonneg; lia). split.
  - apply Z.div_le_lower_bound; nia.
  - apply Z.div_lt_upper_bound; nia.
Qed.

Ltac shift_norm :=
  rewrite ?shift_mask_32, ?shift_mask_64;
  rewrite ?Z.shiftl_mul_pow2, ?Z.shiftr_div_pow2 by (apply mod_small_range; lia).

(** The bits of a known opcode, evaluated. *)
Ltac eval_opcode_bits :=
  match goal with |- context [opcode_of ?o] =>
    let w := eval vm_compute in (op_width (opcode_of o)) in change (op_width (opcode_of o)) with w;
    let n := eval vm_compute in (op_nibble (opcode_of o)) in change (op_nibble (opcode_of o)) with n;
    let b := eval vm_compute in (op_source_bit (opcode_of o)) in change (op_source_bit (opcode_of o)) with b
  end.

Lemma alu_spec op offset imm d s :
  is_alu op = true -> offset_ok op offset -> 0 <= d < 2 ^ 64 -> 0 <= s < 2 ^ 64 ->
  exec_alu op offset imm d s =
  Some (spec_alu (op_width (opcode_of op)) (op_nibble (opcode_of op)) offset
          (spec_dest (opcode_of op) d) (spec_operand (opcode_of op) imm s)).
Proof.
  intros Ha Ho Hd Hs. unfold spec_dest, spec_operand.
  destruct op; try discriminate Ha; clear Ha; cbn [offset_ok] in Ho;
    unfold exec_alu, exec_alu32; cbn [alu32_first alu32_second exec_alu64]; f_equal;
    eval_opcode_bits; cbv iota;
    try (apply div32_spec; assumption); try (apply mod32_spec; assumption);
    try (apply div64_spec; assumption); try (apply mod64_spec; assumption);
    unfold spec_alu; cbn [Z.eqb Pos.eqb]; cbv zeta; shift_norm; wrap_norm; try done.
  all: rewrite ?(wrap_id 64 d), ?(wrap_id 64 s) by done; try done.
  all: try (rewrite wrap_div_unsigned by (done || lia); done).
  all: try (destruct_or? Ho; subst; cbn [Z.eqb Pos.eqb]; wrap_norm; rewrite ?wrap_id by done; done).
  apply neg32_spec.
Qed.

(** Results of the blocks fit the register. *)
Lemma exec_alu_fits op offset imm d s v :
  exec_alu op offset imm d s = Some v -> offset_ok op offset -> 0 <= d < 2 ^ 64 -> 0 <= s < 2 ^ 64 ->
  0 <= v < 2 ^ 64.
Proof.
  intros Hv Ho Hd Hs. assert (is_alu op = true) as Ha.
  { destruct op; (discriminate Hv || reflexivity). }
  rewrite alu_spec in Hv by done. injection Hv as <-. unfold spec_alu. cbv zeta.
  assert (op_width (opcode_of op) = 32 \/ op_width (opcode_of op) = 64) as [-> | ->]
    by (unfold op_width; destruct (_ || _); auto).
  - match goal with |- context [u32 ?x] => pose proof (wrap_range 32 x) end. lia.
  - match goal with |- context [u64 ?x] => pose proof (wrap_range 64 x) end. lia.
Qed.

(** ** Byte swaps *)

Definition swap_bytes (n : nat) (x : Z) : Z := le_decode (rev (le_encode n x)).

Definition byte_at (k x : Z) : Z := (x / 2 ^ k) mod 256.

Lemma byte_at_range k x : 0 <= byte_at k x < 256.
Proof. apply Z.mod_pos_bound. lia. Qed.

Lemma land_byte_mask x k : 0 <= k -> Z.land x (Z.shiftl 255 k) = byte_at k x * 2 ^ k.
Proof.
  intros Hk. unfold byte_at. rewrite <- Z.shiftl_mul_pow2, <- Z.shiftr_div_pow2 by lia.
  change 256 with (2 ^ 8). rewrite <- Z.land_ones by lia. change (Z.ones 8) with 255.
  apply Z.bits_inj'. intros i Hi. rewrite Z.land_spec, !Z.shiftl_spec by lia.
  destruct (Z.ltb_spec i k).
  - by rewrite !(Z.testbit_neg_r _ (i - k)), andb_false_r by lia.
  - rewrite Z.land_spec, Z.shiftr_spec by lia. by replace (i - k + k) with i by lia.
Qed.

Lemma byte_shr x k j : 0 <= j <= k -> Z.shiftr (Z.land x (Z.shiftl 255 k)) j = byte_at k x * 2 ^ (k - j).
Proof.
  intros H. rewrite land_byte_mask, Z.shiftr_div_pow2 by lia.
  replace k with (k - j + j) at 2 by lia. rewrite Z.pow_add_r, Z.mul_assoc by lia.
  apply Z.div_mul, Z.pow_nonzero; lia.
Qed.

Lemma byte_shl x k j : 0 <= j -> 0 <= k -> Z.shiftl (Z.land x (Z.shiftl 255 k)) j = byte_at k x * 2 ^ (k + j).
Proof. intros. rewrite land_byte_mask, Z.shiftl_mul_pow2, Z.pow_add_r by lia. lia. Qed.

(** A [|] of parts that do not overlap is a sum. *)
Lemma lor_low_high a b n : 0 <= n -> 0 <= a < 2 ^ n -> Z.lor a (b * 2 ^ n) = a + b * 2 ^ n.
Proof.
  intros Hn Ha. rewrite <- Z.shiftl_mul_pow2 by lia. rewrite <- Z.add_lor_land.
  enough (Z.land a (Z.shiftl b n) = 0) as -> by lia. apply Z.bits_inj'. intros i Hi. rewrite Z.land_spec, Z.shiftl_spec, Z.bits_0 by lia.
  destruct (Z.ltb_spec i n); [by rewrite (Z.testbit_neg_r _ (i - n)), andb_false_r by lia |].
  rewrite <- (wrap_id n a), testbit_wrap by lia. by destruct (Z.ltb_spec i n); [lia |].
Qed.

Ltac swap_norm x :=
  repeat match goal with |- context [byte_at ?k x] =>
    let b := fresh "b" in pose proof (byte_at_range k x); set (b := byte_at k x) in *; clearbody b end.

Lemma bswap16_bytes x : bswap16 x = byte_at 8 x + byte_at 0 x * 2 ^ 8.
Proof.
  unfold bswap16. change 0xff00 with (Z.shiftl 255 8). change 0x00ff with (Z.shiftl 255 0).
  rewrite byte_shr, byte_shl by lia. swap_norm x.
  rewrite Z.sub_diag, Z.pow_0_r, Z.mul_1_r, Z.add_0_l, lor_low_high by lia.
  apply wrap_id. lia.
Qed.

Lemma bswap32_bytes x :
  bswap32 x = byte_at 24 x + byte_at 16 x * 2 ^ 8 + byte_at 8 x * 2 ^ 16 + byte_at 0 x * 2 ^ 24.
Proof.
  unfold bswap32. change 0xff000000 with (Z.shiftl 255 24). change 0x00ff0000 with (Z.shiftl 255 16).
  change 0x0000ff00 with (Z.shiftl 255 8). change 0x000000ff with (Z.shiftl 255 0).
  rewrite !byte_shr, !byte_shl by lia. swap_norm x. cbn [Z.sub Z.add Z.opp Z.pos_sub Pos.pred_double Pos.add].
  rewrite Z.pow_0_r, Z.mul_1_r.
  rewrite (lor_low_high _ _ 8) by lia.
  rewrite (lor_low_high _ _ 16) by lia. rewrite (lor_low_high _ _ 24) by lia. apply wrap_id. lia.
Qed.

Lemma bswap64_bytes x :
  bswap64 x = byte_at 56 x + byte_at 48 x * 2 ^ 8 + byte_at 40 x * 2 ^ 16 + byte_at 32 x * 2 ^ 24 +
              byte_at 24 x * 2 ^ 32 + byte_at 16 x * 2 ^ 40 + byte_at 8 x * 2 ^ 48 + byte_at 0 x * 2 ^ 56.
Proof.
  unfold bswap64.
  change 0xff00000000000000 with (Z.shiftl 255 56). change 0x00ff000000000000 with (Z.shiftl 255 48).
  change 0x0000ff0000000000 with (Z.shiftl 255 40). change 0x000000ff00000000 with (Z.shiftl 255 32).
  change 0x00000000ff000000 with (Z.shiftl 255 24). change 0x0000000000ff0000 with (Z.shiftl 255 16).
  change 0x000000000000ff00 with (Z.shiftl 255 8). change 0x00000000000000ff with (Z.shiftl 255 0).
  rewrite !byte_shr, !byte_shl by lia. swap_norm x. cbn [Z.sub Z.add Z.opp Z.pos_sub Pos.pred_double Pos.add].
  rewrite Z.pow_0_r, Z.mul_1_r.
  do 7 (match goal with |- context [Z.lor _ (_ * 2 ^ ?k)] => rewrite (lor_low_high _ _ k) by lia end).
  apply wrap_id. lia.
Qed.

(** Divisors evaluated, so that equal quotients are equal terms. *)
Ltac eval_divisors :=
  repeat match goal with |- context [Z.div ?x ?d] =>
    let v := eval vm_compute in d in progress (change (Z.div x d) with (Z.div x v)) end.

Lemma swap_bytes_bytes x :
  swap_bytes 2 x = byte_at 8 x + byte_at 0 x * 2 ^ 8 /\
  swap_bytes 4 x = byte_at 24 x + byte_at 16 x * 2 ^ 8 + byte_at 8 x * 2 ^ 16 + byte_at 0 x * 2 ^ 24 /\
  swap_bytes 8 x = byte_at 56 x + byte_at 48 x * 2 ^ 8 + byte_at 40 x * 2 ^ 16 + byte_at 32 x * 2 ^ 24 +
              byte_at 24 x * 2 ^ 32 + byte_at 16 x * 2 ^ 40 + byte_at 8 x * 2 ^ 48 + byte_at 0 x * 2 ^ 56.
Proof.
  unfold swap_bytes, byte_at.
  repeat split; cbn [le_encode rev app le_decode]; rewrite ?Z.div_div by lia;
    rewrite Z.pow_0_r, Z.div_1_r; eval_divisors; ring.
Qed.

Lemma swap_bytes_wrap n x : swap_bytes n (wrap (8 * Z.of_nat n) x) = swap_bytes n x.
Proof.
  unfold swap_bytes. rewrite <- le_decode_encode.
  pose proof (le_encode_decode (le_encode n x) (le_encode_bytes n x)) as E.
  rewrite length_le_encode in E. by rewrite E.
Qed.

Lemma swap_bytes_involutive n x : swap_bytes n (swap_bytes n x) = wrap (8 * Z.of_nat n) x.
Proof.
  unfold swap_bytes. rewrite <- (le_decode_encode n x). f_equal.
  rewrite <- (rev_involutive (le_encode n x)) at 2. f_equal.
  pose proof (le_encode_decode (rev (le_encode n x))) as E.
  rewrite length_rev, length_le_encode in E. apply E.
  apply Forall_rev, le_encode_bytes.
Qed.

Lemma bswap_spec x :
  bswap16 x = swap_bytes 2 x /\ bswap32 x = swap_bytes 4 x /\ bswap64 x = swap_bytes 8 x.
Proof.
  destruct (swap_bytes_bytes x) as (-> & -> & ->).
  by rewrite bswap16_bytes, bswap32_bytes, bswap64_bytes.
Qed.

Lemma exec_endian_fits op imm d v :
  exec_endian op imm d = Some v -> 0 <= d < 2 ^ 64 -> 0 <= v < 2 ^ 64.
Proof.
  intros Hv Hd.
  assert (forall w x, 0 <= w <= 64 -> 0 <= wrap w x < 2 ^ 64) as Hw.
  { intros w x Hw. pose proof (wrap_range w x ltac:(lia)).
    pose proof (Z.pow_le_mono_r 2 w 64 ltac:(lia) ltac:(lia)). lia. }
  destruct op; try discriminate; injection Hv as <-; repeat case_match; try done; apply Hw; lia.
Qed.

(** The conditions and the byte order, as the theorems state them. *)
Lemma condition_spec (op : ebpf_op) (imm d s : Z) :
  is_conditional op = true -> unsigned_fits 64 d -> unsigned_fits 64 s -> signed_fits 32 imm ->
  exec_condition op imm d s =
  Some (spec_condition (op_width (opcode_of op)) (op_nibble (opcode_of op))
          (spec_dest (opcode_of op) d) (spec_operand (opcode_of op) imm s)).
Proof.
  unfold unsigned_fits. intros Hc Hd Hs Hi.
  assert (s64 imm = imm) as Hi64 by (apply sext_id; [lia | unfold signed_fits in *; lia]).
  unfold spec_dest, spec_operand.
  destruct op; try discriminate Hc; clear Hc; unfold exec_condition; cbn [cond_unsigned cond_signed]; f_equal;
    eval_opcode_bits; unfold spec_condition; cbn [Z.eqb Pos.eqb]; cbv iota zeta;
    rewrite ?sext_wrap, ?Hi64, ?(wrap_id 64 d), ?(wrap_id 64 s) by (done || lia); done.
Qed.

Lemma endian_spec (imm d : Z) :
  imm = 16 \/ imm = 32 \/ imm = 64 ->
  let n := Z.to_nat (imm / 8) in
  exec_endian EBPF_OP_LE imm d = Some (wrap imm d) /\
  exec_endian EBPF_OP_BE imm d = Some (swap_bytes n d) /\
  exec_endian EBPF_OP_BSWAP imm d = Some (swap_bytes n d) /\
  swap_bytes n (swap_bytes n d) = wrap imm d.
Proof.
  intros Hi n. split; [destruct_or! Hi; by subst |].
  destruct (bswap_spec d) as (E16 & E32 & E64).
  destruct (bswap_spec (u16 d)) as (F16 & _), (bswap_spec (u32 d)) as (_ & F32 & _).
  pose proof (swap_bytes_involutive n d) as Hinv. pose proof (swap_bytes_wrap n d) as Hw. unfold n in *.
  destruct_or! Hi; subst; cbn [exec_endian Z.eqb Pos.eqb]; rewrite ?F16, ?F32, ?E16, ?E32, ?E64;
    change (Z.to_nat (16 / 8)) with 2%nat in *; change (Z.to_nat (32 / 8)) with 4%nat in *;
    change (Z.to_nat (64 / 8)) with 8%nat in *; change (8 * Z.of_nat 2) with 16 in *; change (8 * Z.of_nat 4) with 32 in *;
    change (8 * Z.of_nat 8) with 64 in *; rewrite ?Hw; auto.
Qed.

(** ** Properties *)

(** C23: every arithmetic operation of the interpreter, 32 or 64 bits wide, with an
    immediate or a register operand, computes what RFC 9669 defines for the
    class, operation and source bits of its opcode: division by zero gives
    zero, modulo by zero keeps the destination, the signed overflow INT_MIN / -1
    wraps, shift counts are taken modulo the width, and a 32-bit result is
    zero-extended. *)
Theorem alu_matches_specification (inst : ebpf_inst) (op : ebpf_op) (d s : Z) :
  switch_op inst.(opcode) = Some op -> is_alu op = true -> ubpf_is_valid_instruction inst = Ok tt ->
  unsigned_fits 64 d -> unsigned_fits 64 s ->
  exec_alu op inst.(offset) inst.(imm) d s =
  Some (spec_alu (op_width inst.(opcode)) (op_nibble inst.(opcode)) inst.(offset)
          (spec_dest inst.(opcode) d) (spec_operand inst.(opcode) inst.(imm) s)).
Proof.
  intros Hop Ha Hv Hd Hs. pose proof (valid_offset_ok _ _ Hop Hv).
  rewrite <- (switch_op_sound _ _ Hop). by apply alu_spec.
Qed.

Lemma alu_matches_specification_witness :
  exec_alu EBPF_OP_DIV_REG 1 0 0xffffffff80000000 0xffffffff = Some 0x80000000.
Proof.
  rewrite (alu_matches_specification (Inst 0x3c 1 2 1 0) EBPF_OP_DIV_REG);
    [vm_compute; reflexivity | vm_compute; reflexivity | vm_compute; reflexivity
    | vm_compute; reflexivity | split; [vm_compute; discriminate | vm_compute; reflexivity] ..].
Defined.

(** C38: every conditional jump of the interpreter tests what the class and
    operation bits of its opcode define, on 32- or 64-bit operands, unsigned or
    signed, the immediate sign-extended. *)
Theorem condition_matches_specification (op : ebpf_op) (imm d s : Z) :
  is_conditional op = true -> unsigned_fits 64 d -> unsigned_fits 64 s -> signed_fits 32 imm ->
  exec_condition op imm d s =
  Some (spec_condition (op_width (opcode_of op)) (op_nibble (opcode_of op))
          (spec_dest (opcode_of op) d) (spec_operand (opcode_of op) imm s)).
Proof. apply condition_spec. Qed.

Lemma condition_matches_specification_witness :
  exec_condition EBPF_OP_JSGT_IMM (-2) 0xffffffffffffffff 0 = Some true.
Proof.
  rewrite (condition_matches_specification EBPF_OP_JSGT_IMM (-2) 0xffffffffffffffff 0);
    [vm_compute; reflexivity | reflexivity | split; [vm_compute; discriminate | vm_compute; reflexivity] ..].
Defined.

(** The byte-order operations: BE and BSWAP reverse the bytes of the low 16,
    32 or 64 bits and clear the rest, LE keeps them and clears the rest, and
    swapping twice is the truncation. *)
Theorem endian_correct (imm d : Z) :
  imm = 16 \/ imm = 32 \/ imm = 64 ->
  let n := Z.to_nat (imm / 8) in
  exec_endian EBPF_OP_LE imm d = Some (wrap imm d) /\
  exec_endian EBPF_OP_BE imm d = Some (swap_bytes n d) /\
  exec_endian EBPF_OP_BSWAP imm d = Some (swap_bytes n d) /\
  swap_bytes n (swap_bytes n d) = wrap imm d.
Proof. apply endian_spec. Qed.

Lemma endian_correct_witness : exec_endian EBPF_OP_BE 32 0x1122334455667788 = Some 0x88776655.
Proof.
  rewrite (proj1 (proj2 (endian_correct 32 0x1122334455667788 (or_intror (or_introl eq_refl))))).
  vm_compute. reflexivity.
Defined.
