(* ===== verification/Checks.v ===== *)
(** * Checks: the run-time checks of the interpreter (vm/ubpf_vm.c)

    The bounds check of memory accesses, the effective address with its overflow
    test, the shadow stack (one bit per stack byte) and the shadow registers.
    [None] is an access outside the shadow array. *)

From Stdlib Require Import ZArith Lia Bool.
From stdpp Require Import base list gmap strings numbers.
From S2P Require Import Prelude Ebpf Mem Vm.

Local Open Scope Z_scope.
Local Open Scope cbits_scope.

(** ** Errors an execution reports *)

(** What the safe profile reports, besides the errors of both interpreters. *)
Inductive safe_error : Type :=
| RequiresPointer
| NotPermitted
| OffsetOverflow
| OffsetUnderflow
| InvalidRegion
| OutsideRegion
| OverrunsRegion
| PointerEscaped
| SignExtendsPointer
| InvalidAddOperand
| InvalidSubOperand
| ScalarOperandsRequired
| HelperMetadataMissing
| UnknownRegion
| ResultKindMismatch
| ResultOutOfRange.

Inductive exec_error : Type :=
| NoCode
| ShadowStackAllocation
| SpillSlotAllocation
| SafeMode (e : safe_error) (pc : Z)
| PcOutOfRange
| InstructionLimitExceeded
| UninitializedRegister (pc : Z)
| AddressOverflow (pc : Z)
| AddressUnderflow (pc : Z)
| OutOfBounds (pc : Z)
| CallDepthExceeded (pc : Z)
| CallByBtf (pc : Z)
| UnknownAtomic (pc : Z)
| UnknownOpcodeAt (pc : Z).

(** ** The effective address *)

(** [COMPUTE_EFFECTIVE_ADDR]: the base register and the signed offset. *)
Definition compute_effective_addr (pc base offset : Z) : result Z exec_error :=
  if 0 <=? offset then
    if UINT64_MAX - offset <? base then Err (AddressOverflow pc) else Ok (u64 (base + offset))
  else if base <? u64 (- offset) then Err (AddressUnderflow pc)
  else Ok (u64 (base - u64 (- offset))).

(** ** The bounds check *)

Section BoundsCheck.
Context `{HostEnv}.

(** [UINTPTR_MAX] is [UINT64_MAX].  [valid] flags and ends of the two regions. *)
Definition region_valid (start len : Z) : bool := negb (UINT64_MAX - start <? len).

Definition bounds_check (vm : ubpf_vm) (m : memory) (addr size mem mem_len stack stack_len : Z) : bool :=
  if negb vm.(bounds_check_enabled) then true
  else if size <? 0 then false
  else if UINT64_MAX - addr <? size then false
  else
    let access_end := addr + size in
    let stack_valid := region_valid stack stack_len in
    let stack_end := if stack_valid then stack + stack_len else 0 in
    let mem_valid := negb (mem =? 0) && region_valid mem mem_len in
    let mem_end := if mem_valid then mem + mem_len else 0 in
    if mem_valid && (mem <=? addr) && (access_end <=? mem_end) then true
    else if stack_valid && (stack <=? addr) && (access_end <=? stack_end) then true
    else if negb (vm.(bounds_check_function) =? 0) &&
            call_bounds_check vm.(bounds_check_function) vm.(bounds_check_user_data) addr size m then true
    else false.

End BoundsCheck.

(** ** The shadow stack *)

(** [for (test_bit = offset; test_bit < offset + size; test_bit++)], [n] iterations. *)
Fixpoint mark_bits (shadow_stack : list Z) (test_bit : Z) (n : nat) : option (list Z) :=
  match n with
  | O => Some shadow_stack
  | S n' =>
      let bit_offset := test_bit / 8 in
      let bit_mask := 1 .<< (test_bit mod 8) in
      match shadow_stack !! Z.to_nat bit_offset with
      | Some b => mark_bits (<[Z.to_nat bit_offset := u8 (b .| bit_mask)]> shadow_stack) (test_bit + 1) n'
      | None => None
      end
  end.

Definition ubpf_mark_shadow_stack (vm : ubpf_vm) (stack stack_length : Z) (shadow_stack : list Z)
    (address size : Z) : option (list Z) :=
  if negb vm.(undefined_behavior_check_enabled) then Some shadow_stack
  else
    let access_end := u64 (address + size) in
    let stack_end := u64 (stack + stack_length) in
    if access_end <? address then Some shadow_stack
    else if (stack <=? address) && (access_end <=? stack_end)
    then mark_bits shadow_stack (address - stack) (Z.to_nat size)
    else Some shadow_stack.

Fixpoint check_bits (shadow_stack : list Z) (test_bit : Z) (n : nat) : option bool :=
  match n with
  | O => Some true
  | S n' =>
      let bit_offset := test_bit / 8 in
      let bit_mask := 1 .<< (test_bit mod 8) in
      match shadow_stack !! Z.to_nat bit_offset with
      | Some b => if b .& bit_mask =? 0 then Some false else check_bits shadow_stack (test_bit + 1) n'
      | None => None
      end
  end.

Definition ubpf_check_shadow_stack (vm : ubpf_vm) (stack stack_length : Z) (shadow_stack : list Z)
    (address size : Z) : option bool :=
  if negb vm.(undefined_behavior_check_enabled) then Some true
  else
    let access_end := u64 (address + size) in
    let stack_end := u64 (stack + stack_length) in
    if access_end <? address then Some true
    else if (stack <=? address) && (access_end <=? stack_end)
    then check_bits shadow_stack (address - stack) (Z.to_nat size)
    else Some true.

(** ** The shadow registers *)

Definition REGISTER_TO_SHADOW_MASK (reg : Z) : Z := 1 .<< reg.

Definition is_marked (shadow_registers reg : Z) : bool :=
  negb (shadow_registers .& REGISTER_TO_SHADOW_MASK reg =? 0).

Definition mark (shadow_registers reg : Z) : Z := shadow_registers .| REGISTER_TO_SHADOW_MASK reg.
Definition unmark (shadow_registers reg : Z) : Z := shadow_registers .& Z.lnot (REGISTER_TO_SHADOW_MASK reg).

Definition unmark_r1_to_r5 (shadow_registers : Z) : Z :=
  shadow_registers .& Z.lnot (REGISTER_TO_SHADOW_MASK 1 .| REGISTER_TO_SHADOW_MASK 2 .|
    REGISTER_TO_SHADOW_MASK 3 .| REGISTER_TO_SHADOW_MASK 4 .| REGISTER_TO_SHADOW_MASK 5).

(** The switch on the class: whether the destination is valid after the
    instruction, or an error. *)
Definition shadow_after (pc : Z) (inst : ebpf_inst) (src_valid dst_valid : bool) : result bool exec_error :=
  let bad := Err (UninitializedRegister pc) in
  let cls := inst.(opcode) .& EBPF_CLS_MASK in
  let reg_form := negb (inst.(opcode) .& EBPF_SRC_REG =? 0) in
  if cls =? EBPF_CLS_LD then Ok true
  else if cls =? EBPF_CLS_LDX then if negb src_valid then bad else Ok true
  else if cls =? EBPF_CLS_ST then
    if negb (inst.(dst) =? BPF_REG_10) && negb dst_valid then bad else Ok dst_valid
  else if cls =? EBPF_CLS_STX then
    if negb (inst.(dst) =? BPF_REG_10) && negb src_valid then bad
    else if negb (inst.(dst) =? BPF_REG_10) && negb dst_valid then bad
    else Ok dst_valid
  else if (cls =? EBPF_CLS_ALU) || (cls =? EBPF_CLS_ALU64) then
    let code := inst.(opcode) .& EBPF_ALU_OP_MASK in
    if existsb (Z.eqb code) [0x00; 0x10; 0x20; 0x30; 0x40; 0x50; 0x60; 0x70; 0x90; 0xa0; 0xc0; 0xb0]
    then Ok (if reg_form then src_valid else true)
    else if existsb (Z.eqb code) [0x80; 0xd0] then Ok dst_valid
    else bad
  else if (cls =? EBPF_CLS_JMP) || (cls =? EBPF_CLS_JMP32) then
    let code := inst.(opcode) .& EBPF_JMP_OP_MASK in
    if existsb (Z.eqb code) [EBPF_MODE_CALL; EBPF_MODE_JA; EBPF_MODE_EXIT] then Ok dst_valid
    else if existsb (Z.eqb code)
              [EBPF_MODE_JEQ; EBPF_MODE_JGT; EBPF_MODE_JGE; EBPF_MODE_JSET; EBPF_MODE_JNE; EBPF_MODE_JSGT;
               EBPF_MODE_JSGE; EBPF_MODE_JLT; EBPF_MODE_JLE; EBPF_MODE_JSLT; EBPF_MODE_JSLE]
    then
      if inst.(offset) =? 0 then Ok dst_valid
      else if negb dst_valid then bad
      else if reg_form && negb src_valid then bad
      else Ok dst_valid
    else bad
  else bad.

Local Open Scope result_scope.

Definition ubpf_validate_shadow_register (vm : ubpf_vm) (pc shadow_registers : Z) (inst : ebpf_inst)
    : result Z exec_error :=
  if negb vm.(undefined_behavior_check_enabled) then Ok shadow_registers
  else
    let* dst_valid_after :=
      shadow_after pc inst (is_marked shadow_registers inst.(src)) (is_marked shadow_registers inst.(dst)) in
    let s := if dst_valid_after then mark shadow_registers inst.(dst) else unmark shadow_registers inst.(dst) in
    let s :=
      if inst.(opcode) =? opcode_of EBPF_OP_CALL then
        if inst.(src) =? 0 then unmark_r1_to_r5 (mark s 0) else s
      else s in
    if inst.(opcode) =? opcode_of EBPF_OP_EXIT then
      if negb (is_marked s 0) then Err (UninitializedRegister pc) else Ok (unmark_r1_to_r5 s)
    else Ok s.

Local Close Scope result_scope.

(** ** Specification vocabulary *)

(** Stack byte [k] is marked in the shadow array. *)
Definition initialized (shadow_stack : list Z) (k : Z) : bool :=
  Z.testbit (default 0 (shadow_stack !! Z.to_nat (k / 8))) (k mod 8).

(** The array has a bit for each of [len] stack bytes. *)
Definition shadow_covers (shadow_stack : list Z) (len : Z) : Prop :=
  Forall byte_ok shadow_stack /\ len <= 8 * Z.of_nat (length shadow_stack).

(** [addr, addr + size) is inside the region [start, start + len). *)
Definition inside (addr size start len : Z) : Prop := start <= addr /\ addr + size <= start + len.

(** ** Lemmas *)

Lemma byte_bit_set b j k :
  byte_ok b -> 0 <= j < 8 -> 0 <= k < 8 ->
  Z.testbit (u8 (Z.lor b (Z.shiftl 1 j))) k = Z.testbit b k || (k =? j).
Proof.
  intros Hb Hj Hk. rewrite testbit_wrap, Z.lor_spec, Z.shiftl_spec by lia.
  rewrite (proj2 (Z.ltb_lt k 8)) by lia. cbn [andb]. f_equal.
  destruct (Z.eqb_spec k j) as [-> | Hne]; [by rewrite Z.sub_diag |].
  destruct (Z.ltb_spec k j); [by rewrite Z.testbit_neg_r by lia |].
  change 1 with (Z.ones 1). apply Z.ones_spec_high. lia.
Qed.

Lemma byte_bit_test b j : 0 <= j -> (Z.land b (Z.shiftl 1 j) =? 0) = negb (Z.testbit b j).
Proof.
  intros Hj. rewrite Z.shiftl_1_l. destruct (Z.testbit b j) eqn:E; cbn [negb].
  - apply Z.eqb_neq. intros H. assert (Z.testbit (Z.land b (2 ^ j)) j = false) as H1 by (by rewrite H, Z.bits_0).
    rewrite Z.land_spec, E, Z.pow2_bits_true in H1 by lia. discriminate.
  - apply Z.eqb_eq, Z.bits_inj'. intros i Hi. rewrite Z.land_spec, Z.bits_0.
    destruct (Z.eq_dec i j) as [-> | Hne]; [by rewrite E |].
    by rewrite Z.pow2_bits_false, andb_false_r by lia.
Qed.

Lemma initialized_insert shadow b j k :
  Forall byte_ok shadow -> 0 <= j -> 0 <= k -> shadow !! Z.to_nat (j / 8) = Some b ->
  initialized (<[Z.to_nat (j / 8) := u8 (Z.lor b (Z.shiftl 1 (j mod 8)))]> shadow) k =
  initialized shadow k || (k =? j).
Proof.
  intros Hf Hj Hk Hb. unfold initialized.
  pose proof (Z.mod_pos_bound j 8). pose proof (Z.mod_pos_bound k 8).
  pose proof (Z.div_mod j 8). pose proof (Z.div_mod k 8).
  assert (0 <= j / 8) by (apply Z.div_pos; lia). assert (0 <= k / 8) by (apply Z.div_pos; lia).
  destruct (decide (k / 8 = j / 8)) as [E | Hne].
  - rewrite E, list_lookup_insert_eq by (by apply lookup_lt_Some in Hb).
    rewrite Hb. cbn [from_option id]. rewrite byte_bit_set by (lia || by eapply Forall_lookup_1).
    f_equal. destruct (Z.eqb_spec (k mod 8) (j mod 8)), (Z.eqb_spec k j); (done || lia).
  - rewrite list_lookup_insert_ne by lia.
    destruct (Z.eqb_spec k j); [congruence | by rewrite orb_false_r].
Qed.

Lemma shadow_slot (shadow : list Z) t :
  0 <= t < 8 * Z.of_nat (length shadow) -> is_Some (shadow !! Z.to_nat (t / 8)).
Proof.
  intros Ht. apply lookup_lt_is_Some_2. pose proof (Z.div_lt_upper_bound t 8 (Z.of_nat (length shadow))).
  assert (0 <= t / 8) by (apply Z.div_pos; lia). lia.
Qed.

Lemma mark_bits_spec n : forall shadow t,
  Forall byte_ok shadow -> 0 <= t -> t + Z.of_nat n <= 8 * Z.of_nat (length shadow) ->
  exists shadow', mark_bits shadow t n = Some shadow' /\ length shadow' = length shadow /\
    Forall byte_ok shadow' /\
    forall k, 0 <= k ->
      initialized shadow' k = initialized shadow k || ((t <=? k) && (k <? t + Z.of_nat n)).
Proof.
  induction n as [| n IH]; intros shadow t Hf Ht Hn.
  - exists shadow. repeat split; try done. intros k Hk.
    destruct (Z.leb_spec t k), (Z.ltb_spec k (t + Z.of_nat 0)); cbn; try lia; by rewrite orb_false_r.
  - cbn [mark_bits]. destruct (shadow_slot shadow t) as [b Hb]; [lia |]. rewrite Hb.
    destruct (IH (<[Z.to_nat (t / 8):=u8 (b .| (1 .<< (t mod 8)))]> shadow) (t + 1))
      as (shadow' & -> & Hl & Hf' & Hk'); [| lia | rewrite length_insert; lia |].
    { apply Forall_insert; [done |]. apply wrap_range. lia. }
    exists shadow'. rewrite length_insert in Hl. repeat split; try done. intros k Hk.
    rewrite Hk', initialized_insert by done. rewrite <- orb_assoc. f_equal.
    destruct (Z.eqb_spec k t), (Z.leb_spec (t + 1) k), (Z.ltb_spec k (t + 1 + Z.of_nat n)),
      (Z.leb_spec t k), (Z.ltb_spec k (t + Z.of_nat (S n))); cbn; (done || lia).
Qed.

Lemma check_bits_spec n : forall shadow t,
  0 <= t -> t + Z.of_nat n <= 8 * Z.of_nat (length shadow) ->
  exists b, check_bits shadow t n = Some b /\
    (b = true <-> forall k, t <= k < t + Z.of_nat n -> initialized shadow k = true).
Proof.
  induction n as [| n IH]; intros shadow t Ht Hn; cbn [check_bits].
  - exists true. repeat split; try done. intros _ k Hk. lia.
  - destruct (shadow_slot shadow t) as [b Hb]; [lia |]. rewrite Hb.
    assert (initialized shadow t = Z.testbit b (t mod 8)) as Hi by (unfold initialized; by rewrite Hb).
    rewrite byte_bit_test, <- Hi by (apply Z.mod_pos_bound; lia).
    destruct (initialized shadow t) eqn:E; cbn [negb].
    + destruct (IH shadow (t + 1)) as (r & Hr & Hiff); [lia .. |]. exists r. split; [done |]. rewrite Hiff.
      split; intros H k Hk.
      * destruct (decide (k = t)) as [-> | ?]; [done | apply H; lia].
      * apply H. lia.
    + exists false. split; [done |]. split; [discriminate |]. intros H. rewrite H in E by lia. discriminate.
Qed.

Lemma effective_addr_ok pc base offset a :
  unsigned_fits 64 base -> signed_fits 16 offset ->
  compute_effective_addr pc base offset = Ok a <-> a = base + offset /\ 0 <= base + offset < 2 ^ 64.
Proof.
  unfold unsigned_fits, signed_fits, compute_effective_addr, UINT64_MAX. intros Hb Ho.
  destruct (Z.leb_spec 0 offset).
  - destruct (Z.ltb_spec (18446744073709551615 - offset) base).
    + split; [discriminate | lia].
    + rewrite wrap_id by lia. split; [intros [= <-]; lia | by intros [-> _]].
  - rewrite (wrap_id 64 (- offset)) by lia. destruct (Z.ltb_spec base (- offset)).
    + split; [discriminate | lia].
    + rewrite wrap_id by lia. split; [intros [= <-]; lia | intros [-> _]; f_equal; lia].
Qed.

Section CheckLemmas.
Context `{HostEnv}.

Lemma bounds_check_true vm m addr size mem mem_len stack stack_len :
  vm.(bounds_check_enabled) = true ->
  bounds_check vm m addr size mem mem_len stack stack_len = true <->
  0 <= size /\ addr + size <= UINT64_MAX /\
  ((mem <> 0 /\ mem + mem_len <= UINT64_MAX /\ inside addr size mem mem_len) \/
   (stack + stack_len <= UINT64_MAX /\ inside addr size stack stack_len) \/
   (vm.(bounds_check_function) <> 0 /\
    call_bounds_check vm.(bounds_check_function) vm.(bounds_check_user_data) addr size m = true)).
Proof.
  intros He. unfold bounds_check, region_valid, inside. rewrite He. cbn [negb].
  destruct (Z.ltb_spec size 0); [split; [discriminate | lia] |].
  destruct (Z.ltb_spec (UINT64_MAX - addr) size); [split; [discriminate | lia] |].
  destruct (call_bounds_check _ _ _ _ _);
    destruct (Z.eqb_spec mem 0), (Z.ltb_spec (UINT64_MAX - mem) mem_len),
      (Z.ltb_spec (UINT64_MAX - stack) stack_len), (Z.eqb_spec vm.(bounds_check_function) 0); cbn [negb andb];
    repeat match goal with |- context [?x <=? ?y] => destruct (Z.leb_spec x y) end; cbn [andb];
    intuition (discriminate || lia).
Qed.

End CheckLemmas.

(** ** Properties *)

(** C32: with bounds checking on, an access passes exactly when it does not wrap
    around and lies inside the program's memory, inside the stack (regions that
    do not wrap around themselves), or is accepted by the registered bounds
    function: no other address is ever let through. *)
Theorem bounds_check_exact `{HostEnv} (vm : ubpf_vm) (m : memory)
    (addr size mem mem_len stack stack_len : Z) :
  vm.(bounds_check_enabled) = true ->
  bounds_check vm m addr size mem mem_len stack stack_len = true <->
  0 <= size /\ addr + size <= UINT64_MAX /\
  ((mem <> 0 /\ mem + mem_len <= UINT64_MAX /\ inside addr size mem mem_len) \/
   (stack + stack_len <= UINT64_MAX /\ inside addr size stack stack_len) \/
   (vm.(bounds_check_function) <> 0 /\
    call_bounds_check vm.(bounds_check_function) vm.(bounds_check_user_data) addr size m = true)).
Proof. apply bounds_check_true. Qed.

Lemma bounds_check_exact_witness :
  @bounds_check null_host (set_bounds_check_enabled true (zeroed_vm JitNull)) ∅ 4104 8 4096 16 8192 512 = true.
Proof.
  apply (@bounds_check_exact null_host (set_bounds_check_enabled true (zeroed_vm JitNull)) ∅
           4104 8 4096 16 8192 512 eq_refl).
  unfold UINT64_MAX, inside. lia.
Defined.

(** The effective address of an access is the base plus the signed offset
    exactly when that sum is an address; when it is not, the access is an
    error and nothing is read or written. *)
Theorem effective_address_exact (pc base offset a : Z) :
  unsigned_fits 64 base -> signed_fits 16 offset ->
  compute_effective_addr pc base offset = Ok a <-> a = base + offset /\ 0 <= base + offset < 2 ^ 64.
Proof. apply effective_addr_ok. Qed.

Lemma effective_address_exact_witness : compute_effective_addr 0 8192 (-512) = Ok 7680.
Proof.
  apply (effective_address_exact 0 8192 (-512) 7680);
    [split; [vm_compute; discriminate | vm_compute; reflexivity] .. |].
  split; [reflexivity | split; [vm_compute; discriminate | vm_compute; reflexivity]].
Defined.

(** The shadow stack records exactly the stack bytes that were stored to: a
    store inside the stack stays inside the shadow array (when the array has a
    bit for every stack byte), marks the bytes of the access and no other, and
    a later load is reported as initialized exactly when each of its bytes was
    marked. *)
Theorem shadow_stack_exact (vm : ubpf_vm) (stack stack_length : Z) (shadow : list Z)
    (address size address' size' : Z) :
  vm.(undefined_behavior_check_enabled) = true -> shadow_covers shadow stack_length ->
  0 <= stack -> stack + stack_length < 2 ^ 64 ->
  inside address size stack stack_length -> 0 <= size ->
  inside address' size' stack stack_length -> 0 <= size' ->
  exists shadow' b,
    ubpf_mark_shadow_stack vm stack stack_length shadow address size = Some shadow' /\
    shadow_covers shadow' stack_length /\
    (forall k, 0 <= k -> initialized shadow' k =
       initialized shadow k || ((address - stack <=? k) && (k <? address - stack + size))) /\
    ubpf_check_shadow_stack vm stack stack_length shadow' address' size' = Some b /\
    (b = true <-> forall k, address' <= k < address' + size' -> initialized shadow' (k - stack) = true).
Proof.
  intros He [Hf Hc] Hs Hw [Hi1 Hi2] Hn [Hj1 Hj2] Hn'.
  unfold ubpf_mark_shadow_stack, ubpf_check_shadow_stack. rewrite He. cbn [negb].
  rewrite (wrap_id 64 (address + size)), (wrap_id 64 (stack + stack_length)),
    (wrap_id 64 (address' + size')) by lia.
  rewrite !(proj2 (Z.ltb_ge _ _)) by lia. rewrite !(proj2 (Z.leb_le _ _)) by lia. cbn [andb].
  destruct (mark_bits_spec (Z.to_nat size) shadow (address - stack)) as (shadow' & -> & Hl & Hf' & Hk);
    [done | lia | lia |].
  destruct (check_bits_spec (Z.to_nat size') shadow' (address' - stack)) as (b & Hcb & Hb); [lia | lia |].
  exists shadow', b. split; [done |]. split; [split; [done | lia] |]. split; [| split; [done |]].
  - intros k Hk0. rewrite Hk by done. by rewrite Z2Nat.id by lia.
  - rewrite Hb, Z2Nat.id by lia. split; intros H0 k Hk0.
    + apply H0. lia.
    + replace k with (k + stack - stack) by lia. apply H0. lia.
Qed.

Lemma shadow_stack_exact_witness :
  let vm := set_undefined_behavior_check_enabled true (zeroed_vm JitNull) in
  exists shadow, ubpf_mark_shadow_stack vm 4096 16 [0; 0] 4100 4 = Some shadow /\ initialized shadow 5 = true.
Proof.
  intros vm. destruct (shadow_stack_exact vm 4096 16 [0; 0] 4100 4 4100 2 eq_refl)
    as (s & b & Hm & _ & Hk & _); [split; [repeat constructor; lia | simpl; lia] | lia | lia
    | split; lia | lia | split; lia | lia |].
  exists s. split; [exact Hm |]. rewrite Hk by lia. reflexivity.
Defined.

(** The shadow array [ubpf_exec_ex] allocates has [stack_length / 8] bytes,
    which rounds down: for a stack whose length is not a multiple of eight, a
    store to its last byte, which the bounds check accepts, goes outside the
    array. *)
Theorem shadow_stack_too_small (h : HostEnv) (vm : ubpf_vm) (stack stack_length : Z) :
  vm.(undefined_behavior_check_enabled) = true ->
  0 < stack -> 0 < stack_length -> stack + stack_length < 2 ^ 64 -> stack_length mod 8 <> 0 ->
  let shadow := replicate (Z.to_nat (stack_length / 8)) 0 in
  let address := stack + stack_length - 1 in
  @bounds_check h vm ∅ address 1 0 0 stack stack_length = true /\
  ubpf_mark_shadow_stack vm stack stack_length shadow address 1 = None.
Proof.
  intros He Hs Hl Hw Hm shadow address. split.
  - destruct vm.(bounds_check_enabled) eqn:E; [| unfold bounds_check; by rewrite E].
    apply (@bounds_check_true h); [done |]. unfold UINT64_MAX, inside, address. lia.
  - unfold ubpf_mark_shadow_stack. rewrite He. cbn [negb]. unfold address.
    rewrite (wrap_id 64 (_ + 1)), (wrap_id 64 (stack + stack_length)) by lia.
    rewrite (proj2 (Z.ltb_ge _ _)) by lia. rewrite !(proj2 (Z.leb_le _ _)) by lia. cbn [andb].
    change (Z.to_nat 1) with 1%nat. cbn [mark_bits].
    replace (shadow !! _) with (@None Z); [done |]. symmetry. apply lookup_ge_None.
    unfold shadow. rewrite length_replicate.
    assert (stack_length / 8 <= (stack + stack_length - 1 - stack) / 8); [| lia].
    pose proof (Z.div_mod stack_length 8). pose proof (Z.mod_pos_bound stack_length 8).
    apply Z.div_le_lower_bound; lia.
Qed.

Lemma shadow_stack_too_small_witness :
  let vm := set_undefined_behavior_check_enabled true (zeroed_vm JitNull) in
  ubpf_mark_shadow_stack vm 4096 12 [0] 4107 1 = None.
Proof.
  intros vm. apply (shadow_stack_too_small null_host vm 4096 12); (reflexivity || lia || discriminate).
Defined.
