(* ===== verification/Interp.v ===== *)
(** * Interp: the interpreter (vm/ubpf_vm.c, [ubpf_exec_ex] and [ubpf_exec])

    The local variables of [ubpf_exec_ex] are a record; one turn of the loop is
    the function [step], whose blocks are definitions of their own.  A turn
    continues, returns, reports an error, or is undefined behaviour: a read or
    write outside mapped memory, an index outside an array, a failed assertion,
    or the overflow of a signed negation. *)

From Stdlib Require Import ZArith Lia Bool.
From stdpp Require Import base list gmap strings numbers.
From S2P Require Import Prelude Ebpf InstValid Mem Vm Validate Load Alu Checks.

Local Open Scope Z_scope.
Local Open Scope cbits_scope.

(** ** State *)

Record ubpf_stack_frame : Type := Frame {
  frame_stack_usage : Z;  (* uint16_t *)
  return_address : Z;  (* uint16_t *)
  saved_registers : list Z;  (* R6 to R9 *)
}.

(** The arguments of the call. *)
Record exec_args : Type := ExecArgs {
  arg_mem : Z;
  arg_mem_len : Z;
  stack_start : Z;
  stack_length : Z;
}.

Record exec_state : Type := ExecState {
  pc : Z;  (* uint16_t *)
  reg : list Z;  (* _reg[16] *)
  stack_frames : list ubpf_stack_frame;  (* UBPF_MAX_CALL_DEPTH of them *)
  stack_frame_index : Z;
  shadow_registers : Z;  (* uint16_t *)
  shadow_stack : list Z;  (* [] for NULL *)
  limit : Z;  (* int instruction_limit *)
  mem : memory;
}.

Definition set_pc (v : Z) (st : exec_state) : exec_state :=
  ExecState v st.(reg) st.(stack_frames) st.(stack_frame_index) st.(shadow_registers) st.(shadow_stack)
    st.(limit) st.(mem).
Definition set_regs (v : list Z) (st : exec_state) : exec_state :=
  ExecState st.(pc) v st.(stack_frames) st.(stack_frame_index) st.(shadow_registers) st.(shadow_stack)
    st.(limit) st.(mem).
Definition set_frames (v : list ubpf_stack_frame) (i : Z) (st : exec_state) : exec_state :=
  ExecState st.(pc) st.(reg) v i st.(shadow_registers) st.(shadow_stack) st.(limit) st.(mem).
Definition set_shadow_registers (v : Z) (st : exec_state) : exec_state :=
  ExecState st.(pc) st.(reg) st.(stack_frames) st.(stack_frame_index) v st.(shadow_stack) st.(limit) st.(mem).
Definition set_shadow_stack (v : list Z) (st : exec_state) : exec_state :=
  ExecState st.(pc) st.(reg) st.(stack_frames) st.(stack_frame_index) st.(shadow_registers) v st.(limit)
    st.(mem).
Definition set_limit (v : Z) (st : exec_state) : exec_state :=
  ExecState st.(pc) st.(reg) st.(stack_frames) st.(stack_frame_index) st.(shadow_registers) st.(shadow_stack)
    v st.(mem).
Definition set_mem (v : memory) (st : exec_state) : exec_state :=
  ExecState st.(pc) st.(reg) st.(stack_frames) st.(stack_frame_index) st.(shadow_registers) st.(shadow_stack)
    st.(limit) v.

(** [reg[i]] and [reg[i] = v]; the index is a four-bit field, always in range. *)
Definition get_reg (st : exec_state) (i : Z) : Z := default 0 (st.(reg) !! Z.to_nat i).
Definition set_reg (i v : Z) (st : exec_state) : exec_state := set_regs (<[Z.to_nat i := v]> st.(reg)) st.

(** ** Outcomes of a piece of the loop body *)

Inductive outcome (A : Type) : Type :=
| Value (a : A)
| Failed (e : exec_error)
| Undefined.
Arguments Value {A} a.
Arguments Failed {A} e.
Arguments Undefined {A}.

Definition bind_outcome {A B} (x : outcome A) (k : A -> outcome B) : outcome B :=
  match x with
  | Value a => k a
  | Failed e => Failed e
  | Undefined => Undefined
  end.

Declare Scope outcome_scope.
Delimit Scope outcome_scope with outcome.
Notation "'let!' x := r 'in' k" := (bind_outcome r (fun x => k))
  (at level 10, x name, r at level 100, k at level 200) : outcome_scope.
Local Open Scope outcome_scope.

Definition of_result {A} (r : result A exec_error) : outcome A :=
  match r with Ok a => Value a | Err e => Failed e end.
Definition of_option {A} (o : option A) : outcome A :=
  match o with Some a => Value a | None => Undefined end.
Definition require (c : bool) (e : exec_error) : outcome unit := if c then Value tt else Failed e.

(** What the switch does: go on to the next turn, or [goto cleanup] with the
    value written to [*bpf_return_value]. *)
Inductive action : Type :=
| Continue (st : exec_state)
| ExitWith (value : Z) (st : exec_state).

(** ** Loads and stores *)

(** Size and sign extension of the LDX labels. *)
Definition load_shape (op : ebpf_op) : option (Z * bool) :=
  match op with
  | EBPF_OP_LDXW => Some (4, false)
  | EBPF_OP_LDXH => Some (2, false)
  | EBPF_OP_LDXB => Some (1, false)
  | EBPF_OP_LDXDW => Some (8, false)
  | EBPF_OP_LDXWSX => Some (4, true)
  | EBPF_OP_LDXHSX => Some (2, true)
  | EBPF_OP_LDXBSX => Some (1, true)
  | _ => None
  end.

(** Size and operand (immediate or register) of the ST and STX labels. *)
Definition store_shape (op : ebpf_op) : option (Z * bool) :=
  match op with
  | EBPF_OP_STW => Some (4, false)
  | EBPF_OP_STH => Some (2, false)
  | EBPF_OP_STB => Some (1, false)
  | EBPF_OP_STDW => Some (8, false)
  | EBPF_OP_STXW => Some (4, true)
  | EBPF_OP_STXH => Some (2, true)
  | EBPF_OP_STXB => Some (1, true)
  | EBPF_OP_STXDW => Some (8, true)
  | _ => None
  end.

Section Interp.
Context `{HostEnv}.
Variable vm : ubpf_vm.
Variable args : exec_args.

(** [BOUNDS_CHECK_LOAD(size)]: the address, and the state with the destination
    unmarked when it would receive uninitialized stack bytes. *)
Definition bounds_check_load (cur_pc : Z) (inst : ebpf_inst) (size : Z) (st : exec_state)
    : outcome (Z * exec_state) :=
  let! addr := of_result (compute_effective_addr cur_pc (get_reg st inst.(src)) inst.(offset)) in
  let! init := of_option (ubpf_check_shadow_stack vm args.(stack_start) args.(stack_length)
                            st.(shadow_stack) addr size) in
  let st := if init then st else set_shadow_registers (unmark st.(shadow_registers) inst.(dst)) st in
  let! _ := require (bounds_check vm st.(mem) addr size args.(arg_mem) args.(arg_mem_len)
                       args.(stack_start) args.(stack_length)) (OutOfBounds cur_pc) in
  Value (addr, st).

(** [BOUNDS_CHECK_STORE(size)]: the address, and the state with the stack bytes marked. *)
Definition bounds_check_store (cur_pc : Z) (inst : ebpf_inst) (size : Z) (st : exec_state)
    : outcome (Z * exec_state) :=
  let! addr := of_result (compute_effective_addr cur_pc (get_reg st inst.(dst)) inst.(offset)) in
  let! _ := require (bounds_check vm st.(mem) addr size args.(arg_mem) args.(arg_mem_len)
                       args.(stack_start) args.(stack_length)) (OutOfBounds cur_pc) in
  let! shadow := of_option (ubpf_mark_shadow_stack vm args.(stack_start) args.(stack_length)
                              st.(shadow_stack) addr size) in
  Value (addr, set_shadow_stack shadow st).

Definition exec_load (cur_pc : Z) (inst : ebpf_inst) (size : Z) (sx : bool) (st : exec_state)
    : outcome action :=
  let! p := bounds_check_load cur_pc inst size st in
  let '(addr, st) := p in
  let! v := of_option (if sx then ubpf_mem_load_sx st.(mem) addr size else ubpf_mem_load st.(mem) addr size) in
  Value (Continue (set_reg inst.(dst) v st)).

Definition exec_store (cur_pc : Z) (inst : ebpf_inst) (size : Z) (from_reg : bool) (st : exec_state)
    : outcome action :=
  let! p := bounds_check_store cur_pc inst size st in
  let '(addr, st) := p in
  let! m := of_option (ubpf_mem_store st.(mem) addr
                         (if from_reg then get_reg st inst.(src) else u64 inst.(imm)) size) in
  Value (Continue (set_mem m st)).

(** ** Atomic operations *)

(** The new contents of the cell: [None] for an unknown operation.  The
    interlocked primitives all return the old contents. *)
Definition atomic_new_value (w code old val r0 : Z) : option Z :=
  if code =? EBPF_ALU_OP_ADD then Some (wrap w (old + val))
  else if code =? EBPF_ALU_OP_OR then Some (old .| val)
  else if code =? EBPF_ALU_OP_AND then Some (old .& val)
  else if code =? EBPF_ALU_OP_XOR then Some (old .^ val)
  else if code =? EBPF_ATOMIC_OP_XCHG .& Z.lnot EBPF_ATOMIC_OP_FETCH then Some val
  else if code =? EBPF_ATOMIC_OP_CMPXCHG .& Z.lnot EBPF_ATOMIC_OP_FETCH then
    Some (if old =? r0 then val else old)
  else None.

Definition is_cmpxchg (code : Z) : bool := code =? EBPF_ATOMIC_OP_CMPXCHG .& Z.lnot EBPF_ATOMIC_OP_FETCH.

(** ATOMIC_STORE. *)
Definition exec_atomic64 (cur_pc : Z) (inst : ebpf_inst) (st : exec_state) : outcome action :=
  let! p := bounds_check_store cur_pc inst 8 st in
  let '(addr, st) := p in
  let atomic_fetch := negb (inst.(imm) .& EBPF_ATOMIC_OP_FETCH =? 0) in
  let code := inst.(imm) .& EBPF_ALU_OP_MASK in
  let atomic_fetch_index := if is_cmpxchg code then 0 else inst.(src) in
  match atomic_new_value 64 code 0 0 0 with
  | None => Failed (UnknownAtomic cur_pc)
  | Some _ =>
      let! old := of_option (deref st.(mem) addr 8) in
      let new := default 0 (atomic_new_value 64 code old (get_reg st inst.(src)) (get_reg st 0)) in
      let! m := of_option (store_bytes st.(mem) addr (le_encode 8 new)) in
      let st := set_mem m st in
      Value (Continue (if atomic_fetch then set_reg atomic_fetch_index old st else st))
  end.

(** ATOMIC32_STORE. *)
Definition exec_atomic32 (cur_pc : Z) (inst : ebpf_inst) (st : exec_state) : outcome action :=
  let! p := bounds_check_store cur_pc inst 4 st in
  let '(addr, st) := p in
  let atomic_fetch :=
    negb (inst.(imm) .& EBPF_ATOMIC_OP_FETCH =? 0) || (inst.(imm) =? EBPF_ATOMIC_OP_CMPXCHG) ||
    (inst.(imm) =? EBPF_ATOMIC_OP_XCHG) in
  let code := inst.(imm) .& EBPF_ALU_OP_MASK in
  let atomic_fetch_index := if is_cmpxchg code then 0 else inst.(src) in
  match atomic_new_value 32 code 0 0 0 with
  | None => Failed (UnknownAtomic cur_pc)
  | Some _ =>
      let! old := of_option (deref st.(mem) addr 4) in
      let new := default 0 (atomic_new_value 32 code old (u32 (get_reg st inst.(src))) (u32 (get_reg st 0))) in
      let! m := of_option (store_bytes st.(mem) addr (le_encode 4 new)) in
      let st := set_mem m st in
      Value (Continue (if atomic_fetch then set_reg atomic_fetch_index old st else st))
  end.

(** ** Calls and returns *)

Definition no_frame : ubpf_stack_frame := Frame 0 0 [0; 0; 0; 0].
Definition frame_at (st : exec_state) (i : Z) : ubpf_stack_frame :=
  default no_frame (st.(stack_frames) !! Z.to_nat i).

Definition saved (f : ubpf_stack_frame) (i : nat) : Z := default 0 (f.(saved_registers) !! i).

Definition exec_exit (st : exec_state) : outcome action :=
  if 0 <? st.(stack_frame_index) then
    let i := st.(stack_frame_index) - 1 in
    let f := frame_at st i in
    let st := set_frames st.(stack_frames) i st in
    let st := set_pc f.(return_address) st in
    let st := set_reg BPF_REG_6 (saved f 0) st in
    let st := set_reg BPF_REG_7 (saved f 1) st in
    let st := set_reg BPF_REG_8 (saved f 2) st in
    let st := set_reg BPF_REG_9 (saved f 3) st in
    Value (Continue (set_reg BPF_REG_10 (u64 (get_reg st BPF_REG_10 + f.(frame_stack_usage))) st))
  else Value (ExitWith (get_reg st 0) st).

(** CALL with [src == 0]: the dispatcher, or the registered helper.  An index
    outside [ext_funcs] or a NULL entry is undefined, and the function may be. *)
Definition exec_external_call (inst : ebpf_inst) (st : exec_state) : outcome action :=
  let a := get_reg st in
  let cookie := args.(arg_mem) in
  let! p :=
    (if negb (vm.(dispatcher) =? 0) then
       of_option (call_dispatcher vm.(dispatcher) (a 1) (a 2) (a 3) (a 4) (a 5) inst.(imm) cookie st.(mem))
     else if inst.(imm) <? 0 then Undefined
     else
       let! fn := of_option (vm.(ext_funcs) !! Z.to_nat inst.(imm)) in
       if fn =? 0 then Undefined
       else of_option (call_helper fn (a 1) (a 2) (a 3) (a 4) (a 5) cookie st.(mem))) in
  let '(r0, m) := p in
  let st := set_mem m (set_reg 0 (u64 r0) st) in
  if (inst.(imm) =? vm.(unwind_stack_extension_index)) && (get_reg st 0 =? 0)
  then Value (ExitWith (get_reg st 0) st)
  else Value (Continue st).

(** CALL with [src == 1]. *)
Definition exec_local_call (cur_pc : Z) (inst : ebpf_inst) (st : exec_state) : outcome action :=
  let i := st.(stack_frame_index) in
  if UBPF_MAX_CALL_DEPTH <=? i then Failed (CallDepthExceeded cur_pc)
  else
    let f := frame_at st i in
    let f' := Frame f.(frame_stack_usage) st.(pc)
                [get_reg st BPF_REG_6; get_reg st BPF_REG_7; get_reg st BPF_REG_8; get_reg st BPF_REG_9] in
    let st := set_frames (<[Z.to_nat i := f']> st.(stack_frames)) (i + 1) st in
    let st := set_reg BPF_REG_10 (u64 (get_reg st BPF_REG_10 - f'.(frame_stack_usage))) st in
    Value (Continue (set_pc (u16 (st.(pc) + inst.(imm))) st)).

Definition exec_call (cur_pc : Z) (inst : ebpf_inst) (st : exec_state) : outcome action :=
  if inst.(src) =? 0 then exec_external_call inst st
  else if inst.(src) =? 1 then exec_local_call cur_pc inst st
  else if inst.(src) =? 2 then Failed (CallByBtf cur_pc)
  else Value (Continue st).

(** ** The switch *)

(** [reg[inst.dst] = u32(inst.imm) | ((uint64_t)fetch(pc++).imm << 32)] *)
Definition exec_lddw (inst : ebpf_inst) (st : exec_state) : outcome action :=
  let! second := of_option (ubpf_fetch_instruction vm st.(pc)) in
  let v := u32 inst.(imm) .| u64 (u64 second.(imm) .<< 32) in
  Value (Continue (set_reg inst.(dst) v (set_pc (u16 (st.(pc) + 1)) st))).

(** [pc += delta] *)
Definition jump (delta : Z) (st : exec_state) : exec_state := set_pc (u16 (st.(pc) + delta)) st.

(** The labels that are not arithmetic, byte swaps or conditions. *)
Definition exec_other (cur_pc : Z) (op : ebpf_op) (inst : ebpf_inst) (st : exec_state) : outcome action :=
  match load_shape op, store_shape op with
  | Some (size, sx), _ => exec_load cur_pc inst size sx st
  | None, Some (size, from_reg) => exec_store cur_pc inst size from_reg st
  | None, None =>
      match op with
      | EBPF_OP_LDDW => exec_lddw inst st
      | EBPF_OP_JA => Value (Continue (jump inst.(offset) st))
      | EBPF_OP_JA32 => Value (Continue (jump inst.(imm) st))
      | EBPF_OP_EXIT => exec_exit st
      | EBPF_OP_CALL => exec_call cur_pc inst st
      | EBPF_OP_ATOMIC_STORE => exec_atomic64 cur_pc inst st
      | EBPF_OP_ATOMIC32_STORE => exec_atomic32 cur_pc inst st
      | _ => Failed (UnknownOpcodeAt cur_pc)
      end
  end.

Definition exec_switch (cur_pc : Z) (inst : ebpf_inst) (st : exec_state) : outcome action :=
  match switch_op inst.(opcode) with
  | None => Failed (UnknownOpcodeAt cur_pc)
  | Some op =>
      let d := get_reg st inst.(dst) in
      let s := get_reg st inst.(src) in
      if neg_overflows op d then Undefined
      else
        match exec_alu op inst.(offset) inst.(imm) d s, exec_endian op inst.(imm) d,
              exec_condition op inst.(imm) d s with
        | Some v, _, _ => Value (Continue (set_reg inst.(dst) v st))
        | None, Some v, _ => Value (Continue (set_reg inst.(dst) v st))
        | None, None, Some taken => Value (Continue (if taken then jump inst.(offset) st else st))
        | None, None, None => exec_other cur_pc op inst st
        end
  end.

(** The statement after the switch: 32-bit results are truncated once more. *)
Definition truncate_alu32 (inst : ebpf_inst) (st : exec_state) : exec_state :=
  if (inst.(opcode) .& EBPF_CLS_MASK =? EBPF_CLS_ALU) && negb (inst.(opcode) .& EBPF_ALU_OP_MASK =? 0xd0)
  then set_reg inst.(dst) (get_reg st inst.(dst) .& UINT32_MAX) st
  else st.

(** ** One turn of the loop *)

(** [if ((pc == 0 || vm->int_funcs[pc]) && stack_frame_index < UBPF_MAX_CALL_DEPTH)] *)
Definition enter_function (st : exec_state) : outcome exec_state :=
  let! marked :=
    (if st.(pc) =? 0 then Value true
     else match vm.(int_funcs) with
          | None => Undefined
          | Some flags => of_option (flags !! Z.to_nat st.(pc))
          end) in
  if marked && (st.(stack_frame_index) <? UBPF_MAX_CALL_DEPTH) then
    let! usage := of_option (ubpf_stack_usage_for_local_func vm st.(pc)) in
    let f := frame_at st st.(stack_frame_index) in
    Value (set_frames (<[Z.to_nat st.(stack_frame_index) := Frame usage f.(return_address) f.(saved_registers)]>
                         st.(stack_frames)) st.(stack_frame_index) st)
  else Value st.

Definition count_instruction (st : exec_state) : outcome exec_state :=
  if negb (vm.(instruction_limit) =? 0) then
    if st.(limit) <=? 0 then Failed InstructionLimitExceeded
    else Value (set_limit (st.(limit) - 1) st)
  else Value st.

Definition call_debug_function (cur_pc : Z) (st : exec_state) : exec_state :=
  if negb (vm.(debug_function) =? 0) then
    set_mem (call_debug vm.(debug_function) vm.(debug_function_context) cur_pc st.(reg) args.(stack_start)
               args.(stack_length) st.(shadow_registers) st.(shadow_stack) st.(mem)) st
  else st.

Definition step (st : exec_state) : outcome action :=
  let cur_pc := st.(pc) in
  let! _ := require (negb (vm.(num_insts) <=? cur_pc)) PcOutOfRange in
  let! st := count_instruction st in
  let! st := enter_function st in
  let! inst := of_option (ubpf_fetch_instruction vm cur_pc) in
  let st := set_pc (u16 (cur_pc + 1)) st in
  let! shadow := of_result (ubpf_validate_shadow_register vm cur_pc st.(shadow_registers) inst) in
  let st := call_debug_function cur_pc (set_shadow_registers shadow st) in
  let! act := exec_switch cur_pc inst st in
  match act with
  | Continue st => Value (Continue (truncate_alu32 inst st))
  | ExitWith v st => Value (ExitWith v st)
  end.

(** ** The loop *)

(** How an execution ends; [None] below means that the fuel ran out. *)
Inductive exec_end : Type :=
| Returned (value : Z) (m : memory)
| Error (e : exec_error)
| UndefinedBehaviour.

Fixpoint exec_loop (fuel : nat) (st : exec_state) : option exec_end :=
  match fuel with
  | O => None
  | S fuel' =>
      match step st with
      | Value (Continue st') => exec_loop fuel' st'
      | Value (ExitWith v st') => Some (Returned v st'.(mem))
      | Failed e => Some (Error e)
      | Undefined => Some UndefinedBehaviour
      end
  end.

(** The locals at the start of the loop, on the register contents found there. *)
Definition initial_state (garbage : list Z) (m : memory) : exec_state :=
  let st := ExecState 0 garbage (replicate 8 no_frame) 0
              (REGISTER_TO_SHADOW_MASK 1 .| REGISTER_TO_SHADOW_MASK 2 .| REGISTER_TO_SHADOW_MASK 10)
              (if vm.(undefined_behavior_check_enabled)
               then replicate (Z.to_nat (args.(stack_length) / 8)) 0 else [])
              vm.(instruction_limit) m in
  set_reg 10 (u64 (args.(stack_start) + args.(stack_length)))
    (set_reg 2 args.(arg_mem_len) (set_reg 1 args.(arg_mem) st)).

End Interp.

(** [ubpf_exec_ex] on a VM with the legacy profile; the first component is the
    VM with [execution_started] set. *)
Definition ubpf_exec_ex_legacy `{HostEnv} (fuel : nat) (vm : ubpf_vm) (args : exec_args) (calloc_ok : bool)
    (garbage : list Z) (m : memory) : ubpf_vm * option exec_end :=
  if vm.(insts) =? 0 then (vm, Some (Error NoCode))
  else
    let vm := set_execution_started true vm in
    if vm.(undefined_behavior_check_enabled) && negb calloc_ok then (vm, Some (Error ShadowStackAllocation))
    else (vm, exec_loop vm args fuel (initial_state vm args garbage m)).
