(* ===== verification/InterpSound.v ===== *)
(** * InterpSound: what the interpreter guarantees for a loaded program

    The invariant of the interpreter's state, its preservation by every turn of
    the loop, the absence of undefined behaviour, the confinement of memory
    writes, termination under an instruction limit, and the discipline of local
    calls.  The interface to the embedder is [HostSound]: what its helpers, its
    bounds function and its debug function promise. *)

From Stdlib Require Import ZArith Lia Bool.
From stdpp Require Import base list gmap strings numbers.
From S2P Require Import Prelude Ebpf InstValid Mem Vm Validate Load Alu Checks Interp.

Local Open Scope Z_scope.
Local Open Scope cbits_scope.

(** ** The embedder's side *)

(** [m'] is a memory a well-behaved callee may leave: bytes stay bytes, and
    what was mapped stays mapped. *)
Definition mem_extends (m m' : memory) : Prop := mem_ok m' /\ dom m ⊆ dom m'.

Class HostSound (h : HostEnv) : Prop := {
  hs_helper fn a1 a2 a3 a4 a5 cookie m r m' :
    call_helper fn a1 a2 a3 a4 a5 cookie m = Some (r, m') -> mem_ok m -> mem_extends m m';
  hs_dispatcher fn a1 a2 a3 a4 a5 idx cookie m r m' :
    call_dispatcher fn a1 a2 a3 a4 a5 idx cookie m = Some (r, m') -> mem_ok m -> mem_extends m m';
  hs_debug fn ctx pc regs stk len mask shadow m :
    mem_ok m -> mem_extends m (call_debug fn ctx pc regs stk len mask shadow m);
  hs_bounds fn ctx addr size m i :
    call_bounds_check fn ctx addr size m = true -> 0 <= size -> addr + size <= UINT64_MAX ->
    addr <= i < addr + size -> host_granted i;
}.

#[export] Instance null_host_sound : HostSound null_host.
Proof. constructor; [by intros ? ? ? ? ? ? ? ? ? ? [= <- <-] | by intros ? ? ? ? ? ? ? ? ? ? ? [= <- <-] | done ..]. Qed.

(** ** The invariant *)

Definition fits64 (v : Z) : Prop := 0 <= v < 2 ^ 64.

Definition frame_ok (f : ubpf_stack_frame) : Prop :=
  0 <= f.(return_address) < 65536 /\ Forall fits64 f.(saved_registers).

(** The caller's arguments: addresses and lengths, a stack that does not wrap
    around. *)
Record args_fit (args : exec_args) : Prop := ArgsFit {
  ao_mem : fits64 args.(arg_mem);
  ao_mem_len : fits64 args.(arg_mem_len);
  ao_stack : 0 <= args.(stack_start) /\ 0 <= args.(stack_length) /\
             args.(stack_start) + args.(stack_length) < 2 ^ 64;
}.

(** This interpreter also needs a stack length that is a multiple of eight. *)
Record args_ok (args : exec_args) : Prop := ArgsOk {
  ao_fit : args_fit args;
  ao_multiple : args.(stack_length) mod 8 = 0;
}.

Section State.
Context `{HostEnv}.

(** The two regions of the program are mapped, and what the embedder grants. *)
Definition regions_mapped (args : exec_args) (m : memory) : Prop :=
  (args.(arg_mem) <> 0 -> args.(arg_mem) + args.(arg_mem_len) <= UINT64_MAX ->
   mapped m args.(arg_mem) args.(arg_mem_len)) /\
  mapped m args.(stack_start) args.(stack_length) /\
  forall i, host_granted i -> is_Some (m !! i).

Record state_ok (vm : ubpf_vm) (args : exec_args) (st : exec_state) : Prop := StateOk {
  so_pc : 0 <= st.(pc) < 65536;
  so_reg_length : length st.(reg) = 16%nat;
  so_reg_fits : Forall fits64 st.(reg);
  so_frames_length : length st.(stack_frames) = 8%nat;
  so_frames : Forall frame_ok st.(stack_frames);
  so_index : 0 <= st.(stack_frame_index) <= UBPF_MAX_CALL_DEPTH;
  so_mem : mem_ok st.(mem);
  so_mapped : regions_mapped args st.(mem);
  so_shadow : vm.(undefined_behavior_check_enabled) = true -> shadow_covers st.(shadow_stack) args.(stack_length);
}.

(** [x] is not undefined, and its value satisfies [P]. *)
Definition safely {A} (P : A -> Prop) (x : outcome A) : Prop :=
  match x with
  | Value a => P a
  | Failed _ => True
  | Undefined => False
  end.

(** ** Outcomes *)

Lemma safely_bind {A B} (P : A -> Prop) (Q : B -> Prop) (x : outcome A) (k : A -> outcome B) :
  safely P x -> (forall a, P a -> safely Q (k a)) -> safely Q (bind_outcome x k).
Proof. destruct x; simpl; auto. Qed.

Lemma safely_bind_eq {A B} (Q : B -> Prop) (x : outcome A) (k : A -> outcome B) :
  x <> Undefined -> (forall a, x = Value a -> safely Q (k a)) -> safely Q (bind_outcome x k).
Proof. destruct x; simpl; auto. Qed.

Lemma safely_of_option {A} (P : A -> Prop) (o : option A) :
  is_Some o -> (forall a, o = Some a -> P a) -> safely P (of_option o).
Proof. intros [a ->]. simpl. auto. Qed.

Lemma safely_of_result {A} (P : A -> Prop) (r : result A exec_error) :
  (forall a, r = Ok a -> P a) -> safely P (of_result r).
Proof. destruct r; simpl; auto. Qed.

(** The value of [x], when there is one, satisfies [P], and [x] is not undefined when
    [D] holds. *)
Definition safely_if {A} (D : Prop) (P : A -> Prop) (x : outcome A) : Prop :=
  match x with
  | Value a => P a
  | Failed _ => True
  | Undefined => ~ D
  end.

Lemma safely_if_of {A} (D : Prop) (P : A -> Prop) (x : outcome A) : safely P x -> safely_if D P x.
Proof. by destruct x. Qed.

Lemma safely_if_bind {A B} (D : Prop) (P : A -> Prop) (Q : B -> Prop) (x : outcome A) (k : A -> outcome B) :
  safely_if D P x -> (forall a, P a -> safely_if D Q (k a)) -> safely_if D Q (bind_outcome x k).
Proof. destruct x; simpl; auto. Qed.

Lemma safely_if_of_option {A} (D : Prop) (P : A -> Prop) (o : option A) :
  (D -> is_Some o) -> (forall a, o = Some a -> P a) -> safely_if D P (of_option o).
Proof. destruct o; simpl; [by auto |]. intros Ho _ [? [=]]%Ho. Qed.

Lemma safely_require (P : unit -> Prop) c e : (c = true -> P tt) -> safely P (require c e).
Proof. destruct c; simpl; auto. Qed.

(** ** Registers *)

Lemma get_reg_fits vm args st i : state_ok vm args st -> fits64 (get_reg st i).
Proof.
  intros Hst. unfold get_reg. destruct (st.(reg) !! Z.to_nat i) as [v |] eqn:E; simpl; [| by split].
  by apply (Forall_lookup_1 _ _ _ _ (so_reg_fits _ _ _ Hst) E).
Qed.

Lemma get_set_reg st i j v :
  (Z.to_nat i < length st.(reg))%nat -> 0 <= i -> 0 <= j ->
  get_reg (set_reg i v st) j = if j =? i then v else get_reg st j.
Proof.
  intros Hi H0 Hj. unfold get_reg, set_reg. cbn. destruct (Z.eqb_spec j i) as [-> | Hne].
  - by rewrite list_lookup_insert_eq.
  - by rewrite list_lookup_insert_ne by lia.
Qed.

Lemma state_ok_set_pc vm args st v : 0 <= v < 65536 -> state_ok vm args st -> state_ok vm args (set_pc v st).
Proof. intros Hv []. by constructor. Qed.

Lemma state_ok_jump vm args st d : state_ok vm args st -> state_ok vm args (jump d st).
Proof. apply state_ok_set_pc, (wrap_range 16). lia. Qed.

Lemma state_ok_set_reg vm args st i v : fits64 v -> state_ok vm args st -> state_ok vm args (set_reg i v st).
Proof.
  intros Hv []. constructor; try done; cbn.
  - by rewrite length_insert.
  - by apply Forall_insert.
Qed.

Lemma state_ok_set_shadow_registers vm args st v :
  state_ok vm args st -> state_ok vm args (set_shadow_registers v st).
Proof. intros []. by constructor. Qed.

Lemma state_ok_set_limit vm args st v : state_ok vm args st -> state_ok vm args (set_limit v st).
Proof. intros []. by constructor. Qed.

Lemma state_ok_set_shadow_stack vm args st v :
  (vm.(undefined_behavior_check_enabled) = true -> shadow_covers v args.(stack_length)) ->
  state_ok vm args st -> state_ok vm args (set_shadow_stack v st).
Proof. intros Hv []. by constructor. Qed.

Lemma state_ok_set_frame vm args st i f j :
  frame_ok f -> 0 <= j <= UBPF_MAX_CALL_DEPTH -> state_ok vm args st ->
  state_ok vm args (set_frames (<[i := f]> st.(stack_frames)) j st).
Proof.
  intros Hf Hj []. constructor; try done; cbn.
  - by rewrite length_insert.
  - by apply Forall_insert.
Qed.

Lemma mapped_dom m m' a n : dom m ⊆ dom m' -> mapped m a n -> mapped m' a n.
Proof. intros Hd Hm i Hi. apply elem_of_dom, Hd, elem_of_dom, Hm, Hi. Qed.

Lemma state_ok_set_mem vm args st m :
  mem_extends st.(mem) m -> state_ok vm args st -> state_ok vm args (set_mem m st).
Proof.
  intros [Hm Hd] []. constructor; try done. destruct so_mapped0 as (H1 & H2 & H3).
  split; [| split].
  - intros ? ?. apply (mapped_dom _ _ _ _ Hd). auto.
  - by apply (mapped_dom _ _ _ _ Hd).
  - intros i Hi. apply elem_of_dom, Hd, elem_of_dom, H3, Hi.
Qed.

Lemma frame_at_ok vm args st i : state_ok vm args st -> frame_ok (frame_at st i).
Proof.
  intros Hst. unfold frame_at. destruct (st.(stack_frames) !! Z.to_nat i) as [f |] eqn:E; simpl.
  - by apply (Forall_lookup_1 _ _ _ _ (so_frames _ _ _ Hst) E).
  - split; simpl; [lia |]. repeat constructor; lia.
Qed.

Lemma saved_fits f i : frame_ok f -> fits64 (saved f i).
Proof.
  intros [_ Hs]. unfold saved. destruct (f.(saved_registers) !! i) eqn:E; simpl; [| by split].
  by apply (Forall_lookup_1 _ _ _ _ Hs E).
Qed.

End State.

#[export] Hint Resolve state_ok_set_pc state_ok_jump state_ok_set_reg state_ok_set_shadow_registers
  state_ok_set_limit state_ok_set_mem get_reg_fits frame_at_ok saved_fits : ubpf.

(** ** Memory accesses *)

Lemma mapped_inside m a n start len : mapped m start len -> inside a n start len -> mapped m a n.
Proof. intros Hm [H1 H2] i Hi. apply Hm. lia. Qed.

Lemma effective_addr_fits pc base offset a : compute_effective_addr pc base offset = Ok a -> fits64 a.
Proof.
  unfold compute_effective_addr. repeat case_match; intros [= <-]; apply (wrap_range 64); lia.
Qed.

(** An access whose computed end is not below its start did not wrap around. *)
Lemma access_no_wrap a size :
  fits64 a -> 0 <= size < 2 ^ 63 -> a <= u64 (a + size) -> u64 (a + size) = a + size.
Proof.
  unfold fits64. intros Ha Hs Hle. destruct (Z.ltb_spec (a + size) (2 ^ 64)); [apply wrap_id; lia |].
  exfalso. replace (a + size) with (a + size - 2 ^ 64 + 1 * 2 ^ 64) in Hle by lia.
  unfold wrap in Hle. rewrite Z.mod_add, Z.mod_small in Hle by lia. lia.
Qed.

Lemma check_shadow_some vm args shadow a size :
  args_fit args -> (vm.(undefined_behavior_check_enabled) = true -> shadow_covers shadow args.(stack_length)) ->
  fits64 a -> 0 <= size < 2 ^ 63 ->
  is_Some (ubpf_check_shadow_stack vm args.(stack_start) args.(stack_length) shadow a size).
Proof.
  intros [_ _ (H1 & H2 & H3)] Hsh Ha Hs. unfold ubpf_check_shadow_stack, fits64 in *.
  destruct (undefined_behavior_check_enabled vm); cbn [negb]; [| eauto].
  destruct (Hsh eq_refl) as [Hf Hc]. rewrite (wrap_id 64 (stack_start args + _)) by lia.
  destruct (Z.ltb_spec (u64 (a + size)) a); [eauto |].
  destruct (Z.leb_spec (stack_start args) a); cbn [andb]; [| eauto].
  destruct (Z.leb_spec (u64 (a + size)) (stack_start args + stack_length args)); [| eauto].
  rewrite access_no_wrap in * by done.
  destruct (check_bits_spec (Z.to_nat size) shadow (a - stack_start args)) as (b & -> & _); [lia .. | eauto].
Qed.

Lemma mark_shadow_some vm args shadow a size :
  args_fit args -> (vm.(undefined_behavior_check_enabled) = true -> shadow_covers shadow args.(stack_length)) ->
  fits64 a -> 0 <= size < 2 ^ 63 ->
  exists shadow', ubpf_mark_shadow_stack vm args.(stack_start) args.(stack_length) shadow a size = Some shadow' /\
    (vm.(undefined_behavior_check_enabled) = true -> shadow_covers shadow' args.(stack_length)).
Proof.
  intros [_ _ (H1 & H2 & H3)] Hsh Ha Hs. unfold ubpf_mark_shadow_stack, fits64 in *.
  destruct (undefined_behavior_check_enabled vm); cbn [negb]; [| eauto].
  destruct (Hsh eq_refl) as [Hf Hc]. rewrite (wrap_id 64 (stack_start args + _)) by lia.
  destruct (Z.ltb_spec (u64 (a + size)) a); [eauto |].
  destruct (Z.leb_spec (stack_start args) a); cbn [andb]; [| eauto].
  destruct (Z.leb_spec (u64 (a + size)) (stack_start args + stack_length args)); [| eauto].
  rewrite access_no_wrap in * by done.
  destruct (mark_bits_spec (Z.to_nat size) shadow (a - stack_start args)) as (s & -> & Hl & Hs' & _);
    [done | lia .. |]. exists s. split; [done |]. split; [done | lia].
Qed.

Section Access.
Context (h : HostEnv) {HS : HostSound h}.
Variables (vm : ubpf_vm) (args : exec_args).
Hypothesis Hargs : args_ok args.
Hypothesis Hbounds : vm.(bounds_check_enabled) = true.

Lemma bounds_check_mapped m a size :
  regions_mapped args m ->
  bounds_check vm m a size args.(arg_mem) args.(arg_mem_len) args.(stack_start) args.(stack_length) = true ->
  mapped m a size.
Proof using HS Hbounds.
  intros (Hm & Hs & Hg) Hb.
  apply bounds_check_true in Hb as (? & ? & [(? & ? & ?) | [(? & ?) | (_ & ?)]]); [| | | done].
  - eapply mapped_inside; [by apply Hm | done].
  - by eapply mapped_inside.
  - intros i Hi. apply Hg. by eapply hs_bounds.
Qed.

(** After a passed check: the access is mapped, memory and registers are as before. *)
Definition access_ok (st : exec_state) (size : Z) (p : Z * exec_state) : Prop :=
  state_ok vm args p.2 /\ mapped p.2.(mem) p.1 size /\ p.2.(mem) = st.(mem) /\ p.2.(reg) = st.(reg) /\
  p.2.(pc) = st.(pc) /\ p.2.(stack_frames) = st.(stack_frames) /\
  p.2.(stack_frame_index) = st.(stack_frame_index) /\
  bounds_check vm st.(mem) p.1 size args.(arg_mem) args.(arg_mem_len) args.(stack_start) args.(stack_length) = true.

Lemma bounds_check_load_ok cur_pc inst size st :
  0 <= size < 2 ^ 63 -> state_ok vm args st ->
  safely (access_ok st size) (bounds_check_load vm args cur_pc inst size st).
Proof using All.
  intros Hsize Hst. unfold bounds_check_load.
  apply safely_bind_eq; [by destruct (compute_effective_addr _ _ _) |]. intros a Ha.
  destruct (compute_effective_addr _ _ _) eqn:E in Ha; [| discriminate]. injection Ha as ->.
  apply effective_addr_fits in E.
  destruct (check_shadow_some vm args st.(shadow_stack) a size) as [b ->]; [apply Hargs | apply Hst | done | done |].
  cbn [of_option bind_outcome].
  set (st1 := if b then st else _). assert (state_ok vm args st1) as Hst1 by (unfold st1; destruct b; auto with ubpf).
  assert (mem st1 = mem st /\ reg st1 = reg st /\ pc st1 = pc st /\ stack_frames st1 = stack_frames st /\
          stack_frame_index st1 = stack_frame_index st) as (Em & Er & Ep & Ef & Ei) by (unfold st1; by destruct b).
  rewrite Em. destruct (bounds_check _ _ _ _ _ _ _ _) eqn:Hb; simpl; [| done].
  unfold access_ok. cbn [fst snd]. rewrite Em, Hb. repeat (split; [done |]). split; [| done].
  eapply bounds_check_mapped; [apply Hst | done].
Qed.

Lemma bounds_check_store_ok cur_pc inst size st :
  0 <= size < 2 ^ 63 -> state_ok vm args st ->
  safely (access_ok st size) (bounds_check_store vm args cur_pc inst size st).
Proof using All.
  intros Hsize Hst. unfold bounds_check_store.
  apply safely_bind_eq; [by destruct (compute_effective_addr _ _ _) |]. intros a Ha.
  destruct (compute_effective_addr _ _ _) eqn:E in Ha; [| discriminate]. injection Ha as ->.
  apply effective_addr_fits in E.
  destruct (bounds_check _ _ _ _ _ _ _ _) eqn:Hb; simpl; [| done].
  destruct (mark_shadow_some vm args st.(shadow_stack) a size) as (s & -> & Hs); [apply Hargs | apply Hst | done | done |].
  unfold access_ok. cbn [fst snd bind_outcome of_option safely]. rewrite Hb.
  split; [by apply state_ok_set_shadow_stack |]. split; [| done].
  eapply bounds_check_mapped; [apply Hst | done].
Qed.

(** What one instruction may do to memory: nothing, or a write the bounds check
    has let through. *)
Definition mem_step (m m' : memory) : Prop :=
  m' = m \/
  exists a n, 0 <= n /\ changes_only a n m m' /\
    bounds_check vm m a n args.(arg_mem) args.(arg_mem_len) args.(stack_start) args.(stack_length) = true.

Definition next_state (act : action) : exec_state :=
  match act with Continue st' | ExitWith _ st' => st' end.

(** The result of an instruction that does not call out. *)
Definition act_ok (m : memory) (act : action) : Prop :=
  state_ok vm args (next_state act) /\ mem_step m (next_state act).(mem).

Lemma load_value_ok m a size (sx : bool) :
  access_size size -> (sx = true -> size <> 8) -> mem_ok m -> mapped m a size ->
  safely fits64 (of_option (if sx then ubpf_mem_load_sx m a size else ubpf_mem_load m a size)).
Proof.
  intros Hs Hsx Hm Hmap.
  assert (is_Some (deref m a (Z.to_nat size))) as [v Hv].
  { apply deref_mapped. rewrite Z2Nat.id; [done |]. destruct_or! Hs; lia. }
  destruct sx.
  - rewrite mem_load_sx_eq, Hv by auto. apply (wrap_range 64). lia.
  - rewrite mem_load_eq, Hv by auto. simpl. apply deref_range in Hv; [| done].
    rewrite Z2Nat.id in Hv by (destruct_or! Hs; lia). unfold fits64.
    assert (2 ^ (8 * size) <= 2 ^ 64) by (apply Z.pow_le_mono_r; destruct_or! Hs; lia). lia.
Qed.

Lemma exec_load_ok cur_pc inst size sx st :
  access_size size -> (sx = true -> size <> 8) -> state_ok vm args st ->
  safely (act_ok st.(mem)) (exec_load vm args cur_pc inst size sx st).
Proof using All.
  intros Hs Hsx Hst. unfold exec_load.
  eapply safely_bind; [apply bounds_check_load_ok; [destruct_or! Hs; lia | done] |].
  intros [a st1] (Hst1 & Hmap & Em & _). cbn [fst snd] in *.
  eapply safely_bind; [apply load_value_ok; [done | done | apply Hst1 | done] |].
  intros v Hv. split; [by apply state_ok_set_reg |]. left. exact Em.
Qed.

Lemma exec_store_ok cur_pc inst size from_reg st :
  access_size size -> state_ok vm args st ->
  safely (act_ok st.(mem)) (exec_store vm args cur_pc inst size from_reg st).
Proof using All.
  intros Hs Hst. unfold exec_store.
  eapply safely_bind; [apply bounds_check_store_ok; [destruct_or! Hs; lia | done] |].
  intros [a st1] (Hst1 & Hmap & Em & _ & _ & _ & _ & Hb). cbn [fst snd] in *.
  set (v := if from_reg then _ else _).
  destruct (mem_store_mapped (mem st1) a v size Hs Hmap) as [m Hm]. rewrite Hm. simpl.
  pose proof (mem_store_spec _ _ _ _ _ Hs Hm) as [Hc _]. split.
  - apply state_ok_set_mem; [| done]. split; [| by destruct Hc as [-> _]].
    eapply mem_store_ok; [done | apply Hst1 | done].
  - right. exists a, size. rewrite <- Em. rewrite <- Em in Hb. split; [destruct_or! Hs; lia | done].
Qed.

Lemma atomic_new_value_fits w code old val r0 new :
  0 <= w -> 0 <= old < 2 ^ w -> 0 <= val < 2 ^ w -> atomic_new_value w code old val r0 = Some new ->
  0 <= new < 2 ^ w.
Proof.
  intros Hw Ho Hv. unfold atomic_new_value.
  repeat case_match; intros [= <-]; auto using wrap_range, lor_fits, lxor_fits with lia.
  apply land_fits; lia.
Qed.

Lemma atomic_rmw_ok st a (n : nat) new :
  state_ok vm args st -> mapped st.(mem) a (Z.of_nat n) ->
  bounds_check vm st.(mem) a (Z.of_nat n) args.(arg_mem) args.(arg_mem_len) args.(stack_start)
    args.(stack_length) = true ->
  safely (fun m => mem_extends st.(mem) m /\ mem_step st.(mem) m)
    (of_option (store_bytes st.(mem) a (le_encode n new))).
Proof.
  intros Hst Hmap Hb. destruct (store_bytes_mapped st.(mem) a (le_encode n new)) as [m Hm];
    [by rewrite length_le_encode |].
  rewrite Hm. simpl. pose proof (store_bytes_spec _ _ _ _ Hm) as [Hc _]. rewrite length_le_encode in Hc. split.
  - split; [| by destruct Hc as [-> _]]. eapply store_bytes_ok; [apply Hst | apply le_encode_bytes | done].
  - right. exists a, (Z.of_nat n). split; [lia | done].
Qed.

Lemma exec_atomic64_ok cur_pc inst st :
  state_ok vm args st -> safely (act_ok st.(mem)) (exec_atomic64 vm args cur_pc inst st).
Proof using All.
  intros Hst. unfold exec_atomic64.
  eapply safely_bind; [apply bounds_check_store_ok; [lia | done] |].
  intros [a st1] (Hst1 & Hmap & Em & _ & _ & _ & _ & Hb). cbn [fst snd] in *. rewrite <- Em in Hb |- *.
  destruct (atomic_new_value 64 _ 0 0 0); [| exact I].
  destruct (proj2 (deref_mapped (mem st1) a 8)) as [old Hold]; [done |]. rewrite Hold.
  cbn [of_option bind_outcome]. eapply safely_bind; [by apply (atomic_rmw_ok st1 a 8) |].
  intros m [Hext Hstep]. apply deref_range in Hold; [| apply Hst1].
  split; [| by destruct (negb _)]. destruct (negb _); simpl; auto with ubpf.
Qed.

Lemma exec_atomic32_ok cur_pc inst st :
  state_ok vm args st -> safely (act_ok st.(mem)) (exec_atomic32 vm args cur_pc inst st).
Proof using All.
  intros Hst. unfold exec_atomic32.
  eapply safely_bind; [apply bounds_check_store_ok; [lia | done] |].
  intros [a st1] (Hst1 & Hmap & Em & _ & _ & _ & _ & Hb). cbn [fst snd] in *. rewrite <- Em in Hb |- *.
  destruct (atomic_new_value 32 _ 0 0 0); [| exact I].
  destruct (proj2 (deref_mapped (mem st1) a 4)) as [old Hold]; [done |]. rewrite Hold.
  cbn [of_option bind_outcome]. eapply safely_bind; [by apply (atomic_rmw_ok st1 a 4) |].
  intros m [Hext Hstep]. apply deref_range in Hold; [| apply Hst1].
  assert (fits64 old) by (unfold fits64; lia).
  split; [| by destruct (_ || _)]. destruct (_ || _); simpl; auto with ubpf.
Qed.

(** ** Control flow *)

Lemma mem_step_refl m : mem_step m m.
Proof. by left. Qed.

Lemma exec_exit_ok st : state_ok vm args st -> safely (act_ok st.(mem)) (exec_exit st).
Proof.
  intros Hst. unfold exec_exit. destruct (Z.ltb_spec 0 st.(stack_frame_index)) as [Hi | Hi].
  - pose proof (frame_at_ok vm args st (stack_frame_index st - 1) Hst) as Hf.
    split; [| by left]. simpl. apply state_ok_set_reg; [apply (wrap_range 64); lia |].
    do 4 (apply state_ok_set_reg; [by apply saved_fits |]).
    apply state_ok_set_pc; [apply Hf |]. destruct Hst. constructor; try done. cbn. unfold UBPF_MAX_CALL_DEPTH in *. lia.
  - split; [done | by left].
Qed.

Lemma exec_local_call_ok cur_pc inst st :
  state_ok vm args st -> safely (act_ok st.(mem)) (exec_local_call cur_pc inst st).
Proof.
  intros Hst. unfold exec_local_call.
  destruct (Z.leb_spec UBPF_MAX_CALL_DEPTH st.(stack_frame_index)) as [| Hi]; [exact I |].
  split; [| by left]. simpl. apply state_ok_set_pc; [apply (wrap_range 16); lia |].
  apply state_ok_set_reg; [apply (wrap_range 64); lia |].
  pose proof (so_index _ _ _ Hst). apply state_ok_set_frame; [| lia | done].
  split; [apply Hst |]. repeat constructor; by eapply get_reg_fits.
Qed.

(** What the dispatcher or the helper an external call leads to does. *)
Definition helper_outcome (inst : ebpf_inst) (st : exec_state) : option (Z * memory) :=
  let a := get_reg st in
  if negb (vm.(dispatcher) =? 0) then
    call_dispatcher vm.(dispatcher) (a 1) (a 2) (a 3) (a 4) (a 5) inst.(imm) args.(arg_mem) st.(mem)
  else
    fn ← vm.(ext_funcs) !! Z.to_nat inst.(imm);
    call_helper fn (a 1) (a 2) (a 3) (a 4) (a 5) args.(arg_mem) st.(mem).

Lemma helper_outcome_extends inst st p : mem_ok st.(mem) -> helper_outcome inst st = Some p -> mem_extends st.(mem) p.2.
Proof using HS.
  destruct p as [r m]. intros Hm. unfold helper_outcome. cbv zeta. destruct (negb _).
  - intros E. by apply (hs_dispatcher _ _ _ _ _ _ _ _ _ _ _ E).
  - destruct (ext_funcs vm !! _); [| done]. cbn [mbind option_bind]. intros E. by apply (hs_helper _ _ _ _ _ _ _ _ _ _ E).
Qed.

(** An external call the validator let through calls a function that exists. *)
Lemma exec_external_call_ok inst st :
  external_call_ok vm inst.(imm) -> state_ok vm args st ->
  safely_if (is_Some (helper_outcome inst st)) (fun act => state_ok vm args (next_state act))
    (exec_external_call vm args inst st).
Proof using HS.
  intros (H0 & Hx) Hst. unfold exec_external_call.
  eapply (safely_if_bind _ (fun p => mem_extends st.(mem) p.2)).
  - pose proof (helper_outcome_extends inst st) as Hext. unfold helper_outcome in *. cbv zeta in *.
    destruct Hx as [[Hd _] | (Hd & Hlt & Hfn)].
    + apply Z.eqb_neq in Hd. rewrite Hd in *. cbn [negb] in *. apply safely_if_of_option; [done |]. intros p. apply Hext, Hst.
    + apply Z.eqb_eq in Hd. rewrite Hd in *. cbn [negb] in *.
      destruct (Z.ltb_spec inst.(imm) 0); [lia |].
      destruct (ext_funcs vm !! Z.to_nat inst.(imm)) as [fn |]; cbn in Hfn; [| done].
      cbn [of_option bind_outcome mbind option_bind] in *. apply Z.eqb_neq in Hfn. rewrite Hfn.
      apply safely_if_of_option; [done |]. intros p. apply Hext, Hst.
  - intros [r0 m] Hm. cbn [snd] in Hm.
    assert (state_ok vm args (set_mem m (set_reg 0 (u64 r0) st))) as Hst'.
    { apply state_ok_set_mem; [done |]. apply state_ok_set_reg; [apply (wrap_range 64); lia | done]. }
    by destruct (_ && _).
Qed.

Lemma exec_lddw_ok inst st :
  is_Some (ubpf_fetch_instruction vm st.(pc)) -> state_ok vm args st ->
  safely (act_ok st.(mem)) (exec_lddw vm inst st).
Proof.
  intros [second Hs] Hst. unfold exec_lddw. rewrite Hs. split; [| by left]. simpl.
  apply state_ok_set_reg; [| apply state_ok_set_pc; [apply (wrap_range 16); lia | done]].
  pose proof (wrap_range 32 inst.(imm) ltac:(lia)).
  apply (lor_fits 64); [lia | lia | apply wrap_range; lia].
Qed.

Lemma load_shape_ok op size sx : load_shape op = Some (size, sx) -> access_size size /\ (sx = true -> size <> 8).
Proof. destruct op; intros [= <- <-]; unfold access_size; split; (lia || congruence). Qed.

Lemma store_shape_ok op size fr : store_shape op = Some (size, fr) -> access_size size.
Proof. destruct op; intros [= <- <-]; unfold access_size; lia. Qed.

(** ** The switch *)

Variable prog : list ebpf_inst.
Hypothesis Hld : loaded vm prog.

(** An instruction that leaves the interpreter. *)
Definition calls_out (inst : ebpf_inst) : bool :=
  (inst.(opcode) =? opcode_of EBPF_OP_CALL) && (inst.(src) =? 0).

Definition inst_ok_after (inst : ebpf_inst) (m : memory) (act : action) : Prop :=
  state_ok vm args (next_state act) /\ (calls_out inst = false -> mem_step m (next_state act).(mem)).

Lemma act_inst_ok D inst m x : safely (act_ok m) x -> safely_if D (inst_ok_after inst m) x.
Proof. destruct x; simpl; [| done ..]. intros [? ?]. by split. Qed.

Lemma exec_other_ok cur_pc op inst st :
  inst_checked vm prog cur_pc inst op -> 0 <= cur_pc < vm.(num_insts) -> st.(pc) = u16 (cur_pc + 1) ->
  state_ok vm args st ->
  safely_if (calls_out inst = true -> is_Some (helper_outcome inst st))
    (inst_ok_after inst st.(mem)) (exec_other vm args cur_pc op inst st).
Proof using All.
  intros Hck Hpc Epc Hst. unfold exec_other.
  destruct (load_shape op) as [[size sx] |] eqn:El.
  { apply load_shape_ok in El as [? ?]. by apply act_inst_ok, exec_load_ok. }
  destruct (store_shape op) as [[size fr] |] eqn:Es.
  { apply store_shape_ok in Es. by apply act_inst_ok, exec_store_ok. }
  pose proof (ck_group _ _ _ _ _ Hck) as Hg. pose proof (switch_op_sound _ _ (ck_op _ _ _ _ _ Hck)) as Hop.
  destruct op; try exact I; cbn [group_of group_checked] in Hg;
    try (split; [by apply state_ok_jump | by left]);
    try (apply act_inst_ok; by apply exec_atomic64_ok); try (apply act_inst_ok; by apply exec_atomic32_ok);
    try (apply act_inst_ok; by apply exec_exit_ok).
  - (* LDDW *)
    apply act_inst_ok, exec_lddw_ok; [| done]. rewrite Epc.
    pose proof (vd_length _ _ (ld_validated _ _ Hld)) as Hlen. unfold UBPF_MAX_INSTS in Hlen.
    rewrite (ld_num_insts _ _ Hld) in Hpc. rewrite wrap_id by lia.
    rewrite (ld_fetch _ _ Hld) by (rewrite (ld_num_insts _ _ Hld); lia). apply lookup_lt_is_Some_2. lia.
  - (* CALL *)
    unfold exec_call. destruct Hg as [[Hs Hx] | (Hs & _)]; rewrite Hs; cbn [Z.eqb].
    + pose proof (exec_external_call_ok inst st Hx Hst) as Hsafe.
      assert (calls_out inst = true) as Hout by (unfold calls_out; by rewrite <- Hop, Hs).
      destruct (exec_external_call _ _ _ _); [| done |]; [| by intros Hdef; apply Hsafe, Hdef].
      split; [done |]. by rewrite Hout.
    + by apply act_inst_ok, exec_local_call_ok.
Qed.

Lemma exec_switch_ok cur_pc op inst st :
  inst_checked vm prog cur_pc inst op -> 0 <= cur_pc < vm.(num_insts) -> st.(pc) = u16 (cur_pc + 1) ->
  state_ok vm args st ->
  safely_if (neg_overflows op (get_reg st inst.(dst)) = false /\ (calls_out inst = true -> is_Some (helper_outcome inst st)))
    (inst_ok_after inst st.(mem)) (exec_switch vm args cur_pc inst st).
Proof using All.
  intros Hck Hpc Epc Hst. unfold exec_switch. rewrite (ck_op _ _ _ _ _ Hck).
  destruct (neg_overflows _ _); [by intros [? _] |].
  pose proof (get_reg_fits _ _ _ inst.(dst) Hst) as Hd. pose proof (get_reg_fits _ _ _ inst.(src) Hst) as Hs.
  destruct (exec_alu _ _ _ _ _) as [v |] eqn:Ha.
  { apply exec_alu_fits in Ha; [| eapply valid_offset_ok; apply Hck | done | done].
    split; [by apply state_ok_set_reg | by left]. }
  destruct (exec_endian _ _ _) as [v |] eqn:He.
  { apply exec_endian_fits in He; [| done]. split; [by apply state_ok_set_reg | by left]. }
  destruct (exec_condition _ _ _ _) as [[] |].
  - split; [by apply state_ok_jump | by left].
  - split; [done | by left].
  - pose proof (exec_other_ok cur_pc op inst st Hck Hpc Epc Hst) as Hx.
    destruct (exec_other _ _ _ _ _ _); [done .. |]. intros [_ Hdef]. by apply Hx.
Qed.

Lemma truncate_alu32_ok inst st : state_ok vm args st -> state_ok vm args (truncate_alu32 inst st).
Proof.
  intros Hst. unfold truncate_alu32. destruct (_ && _); [| done].
  apply state_ok_set_reg; [| done]. rewrite land_u32max.
  pose proof (wrap_range 32 (get_reg st inst.(dst)) ltac:(lia)). unfold fits64. lia.
Qed.

Lemma truncate_alu32_mem inst st : (truncate_alu32 inst st).(mem) = st.(mem).
Proof. unfold truncate_alu32. by destruct (_ && _). Qed.

(** What the loop body does before the switch leaves alone. *)
Definition same_view (st st' : exec_state) : Prop :=
  st'.(pc) = st.(pc) /\ st'.(reg) = st.(reg) /\ st'.(mem) = st.(mem).

Lemma count_instruction_ok st :
  state_ok vm args st -> safely (fun st' => state_ok vm args st' /\ same_view st st') (count_instruction vm st).
Proof.
  intros Hst. unfold count_instruction. destruct (negb _); [| done].
  destruct (_ <=? _); [done |]. split; [by apply state_ok_set_limit | done].
Qed.

Lemma int_func_usage k flags :
  vm.(int_funcs) = Some flags -> flags !! k = Some true ->
  is_Some (ubpf_stack_usage_for_local_func vm (Z.of_nat k)).
Proof using Hld.
  intros Ef Hk. destruct (ld_int_funcs _ _ Hld) as (flags' & Ef' & _ & Hmark). simplify_eq.
  apply Hmark in Hk. apply usage_known_some.
  by destruct (validated_call_targets _ _ _ (ld_validated _ _ Hld) Hk) as (_ & ? & _).
Qed.

Lemma enter_function_ok st :
  st.(pc) < vm.(num_insts) -> state_ok vm args st ->
  safely (fun st' => state_ok vm args st' /\ same_view st st') (enter_function vm st).
Proof using Hld.
  intros Hpc Hst. pose proof (so_pc _ _ _ Hst) as Hpc0. unfold enter_function.
  destruct (ld_int_funcs _ _ Hld) as (flags & Ef & Hl & _).
  apply (safely_bind (fun b => b = true -> is_Some (ubpf_stack_usage_for_local_func vm st.(pc)))).
  - destruct (Z.eqb_spec st.(pc) 0) as [-> | Hne].
    + intros _. apply usage_known_some, (vd_main_known _ _ (ld_validated _ _ Hld)).
    + rewrite Ef. destruct (lookup_lt_is_Some_2 flags (Z.to_nat st.(pc))) as [b Hb].
      { rewrite (ld_num_insts _ _ Hld) in Hpc. lia. }
      rewrite Hb. intros ->. rewrite <- (Z2Nat.id st.(pc)) by lia. by eapply int_func_usage.
  - intros marked Hm. destruct marked; [| done]. cbn [andb].
    destruct (Z.ltb_spec st.(stack_frame_index) UBPF_MAX_CALL_DEPTH); [| done].
    destruct (Hm eq_refl) as [usage ->]. cbn [of_option bind_outcome]. split; [| done].
    pose proof (so_index _ _ _ Hst). apply state_ok_set_frame; [| lia | done].
    by apply (frame_at_ok vm args).
Qed.

Lemma call_debug_ok cur_pc st :
  state_ok vm args st -> state_ok vm args (call_debug_function vm args cur_pc st).
Proof using HS.
  intros Hst. unfold call_debug_function. destruct (negb _); [| done].
  apply state_ok_set_mem; [apply hs_debug, Hst | done].
Qed.

(** The only instruction whose arithmetic is undefined, on one operand. *)
Definition neg_safe (st : exec_state) : Prop :=
  forall inst, prog !! Z.to_nat st.(pc) = Some inst -> inst.(opcode) = opcode_of EBPF_OP_NEG ->
    get_reg st inst.(dst) <> 2 ^ 63.

(** The external function the instruction calls, if it calls one, is defined on the
    registers. *)
Definition helper_safe (st : exec_state) : Prop :=
  forall inst st', prog !! Z.to_nat st.(pc) = Some inst -> calls_out inst = true -> state_ok vm args st' ->
    st'.(reg) = st.(reg) -> is_Some (helper_outcome inst st').

Definition turn_defined (st : exec_state) : Prop := neg_safe st /\ helper_safe st.

Definition step_ok_after (st : exec_state) (act : action) : Prop :=
  state_ok vm args (next_state act) /\
  (vm.(debug_function) = 0 ->
   (forall inst, prog !! Z.to_nat st.(pc) = Some inst -> calls_out inst = false) ->
   mem_step st.(mem) (next_state act).(mem)).

(** Outside that operand the negation does not overflow. *)
Lemma neg_not_overflow op inst st :
  switch_op inst.(opcode) = Some op -> state_ok vm args st ->
  (inst.(opcode) = opcode_of EBPF_OP_NEG -> get_reg st inst.(dst) <> 2 ^ 63) ->
  neg_overflows op (get_reg st inst.(dst)) = false.
Proof.
  intros Hop Hst Hneg. apply switch_op_sound in Hop. destruct op; try done. apply Z.eqb_neq. intros E.
  apply Hneg; [done |]. pose proof (get_reg_fits _ _ _ inst.(dst) Hst) as Hf. revert E.
  unfold sext, INT64_MIN, fits64 in *. rewrite wrap_id by lia. change (2 ^ (64 - 1)) with (2 ^ 63).
  destruct (Z.ltb_spec (get_reg st inst.(dst)) (2 ^ 63)); lia.
Qed.

(** The switch on whatever sits at the program counter: a slot with opcode zero
    is an error, any other slot holds a checked instruction. *)
Lemma switch_at_pc cur_pc inst st :
  0 <= cur_pc < vm.(num_insts) -> prog !! Z.to_nat cur_pc = Some inst -> st.(pc) = u16 (cur_pc + 1) ->
  state_ok vm args st ->
  safely_if ((inst.(opcode) = opcode_of EBPF_OP_NEG -> get_reg st inst.(dst) <> 2 ^ 63) /\
             (calls_out inst = true -> is_Some (helper_outcome inst st)))
    (inst_ok_after inst st.(mem)) (exec_switch vm args cur_pc inst st).
Proof using All.
  intros Hpc Hinst Epc Hst. destruct (Z.eq_dec (opcode inst) 0) as [H0 | H0].
  { unfold exec_switch. rewrite H0. change (switch_op 0) with (@None ebpf_op). exact I. }
  assert (start prog cur_pc) as Hs.
  { eapply validated_nonzero_start; [apply Hld | rewrite (ld_num_insts _ _ Hld) in Hpc; lia |].
    unfold inst_at. by rewrite Hinst. }
  destruct (vd_checked _ _ (ld_validated _ _ Hld) _ _ Hs Hinst) as [op Hck].
  pose proof (exec_switch_ok cur_pc op inst st Hck Hpc Epc Hst) as Hx.
  destruct (exec_switch _ _ _ _ _); [done .. |]. intros [Hneg Hd]. apply Hx. split; [| done].
  eapply neg_not_overflow; [apply Hck | done | done].
Qed.

Lemma step_safely st :
  state_ok vm args st -> safely_if (turn_defined st) (step_ok_after st) (step vm args st).
Proof using All.
  intros Hst. unfold step. destruct (Z.leb_spec vm.(num_insts) st.(pc)) as [| Hpc]; [exact I |].
  cbn [negb require bind_outcome]. pose proof (so_pc _ _ _ Hst) as Hpc0.
  eapply safely_if_bind; [by apply safely_if_of, count_instruction_ok |]. intros st1 (Hst1 & E1p & E1r & E1m).
  eapply safely_if_bind; [apply safely_if_of, enter_function_ok; [by rewrite E1p | done] |].
  intros st2 (Hst2 & E2p & E2r & E2m).
  destruct (lookup_lt_is_Some_2 prog (Z.to_nat st.(pc))) as [inst Hinst].
  { rewrite (ld_num_insts _ _ Hld) in Hpc. lia. }
  rewrite (ld_fetch _ _ Hld), Hinst by lia. cbn [of_option bind_outcome].
  apply (safely_if_bind _ (fun _ => True)); [by destruct (ubpf_validate_shadow_register _ _ _ _) |]. intros shadow _.
  set (st3 := call_debug_function _ _ _ _).
  assert (state_ok vm args st3) as Hst3.
  { apply call_debug_ok. apply state_ok_set_shadow_registers, state_ok_set_pc; [apply (wrap_range 16); lia | done]. }
  assert (pc st3 = u16 (pc st + 1) /\ reg st3 = reg st /\ (vm.(debug_function) = 0 -> mem st3 = mem st))
    as (E3p & E3r & E3m).
  { unfold st3, call_debug_function. destruct (Z.eqb_spec (debug_function vm) 0); cbn;
      rewrite E2r, E1r, ?E2m, ?E1m; done. }
  eapply (safely_if_bind _ (inst_ok_after inst st3.(mem))).
  - pose proof (switch_at_pc (pc st) inst st3 ltac:(lia) Hinst E3p Hst3) as Hx.
    destruct (exec_switch _ _ _ _ _); [done .. |]. intros [Hneg Hd]. apply Hx. split.
    + intros Hop. unfold get_reg. rewrite E3r. by apply Hneg.
    + intros Hout. by apply (Hd inst).
  - intros act [Hok Hmem]. destruct act as [st' | v st']; (split; simpl in *;
      [auto using truncate_alu32_ok | intros Hdbg Hno; rewrite ?truncate_alu32_mem, <- E3m; auto]).
Qed.

End Access.

(** ** Whole executions *)

Section Runs.
Context `{HostEnv}.

(** A turn of the loop that goes on. *)
Definition steps (vm : ubpf_vm) (args : exec_args) (st st' : exec_state) : Prop :=
  step vm args st = Value (Continue st').

Definition reaches (vm : ubpf_vm) (args : exec_args) : exec_state -> exec_state -> Prop :=
  rtc (steps vm args).

(** How the loop ends, in terms of the states it reaches. *)
Lemma exec_loop_reaches vm args fuel st r :
  exec_loop vm args fuel st = Some r ->
  exists st', reaches vm args st st' /\
    match r with
    | Returned v m => exists st'', step vm args st' = Value (ExitWith v st'') /\ m = st''.(mem)
    | Error e => step vm args st' = Failed e
    | UndefinedBehaviour => step vm args st' = Undefined
    end.
Proof.
  revert st. induction fuel as [| fuel IH]; intros st; simpl; [discriminate |].
  destruct (step vm args st) as [[st' | v st'] | e |] eqn:E.
  - intros Hr. destruct (IH st' Hr) as (st'' & Hreach & Hend). exists st''. split; [| done].
    by eapply rtc_l.
  - intros [= <-]. exists st. split; [constructor | eauto].
  - intros [= <-]. exists st. by split; [constructor |].
  - intros [= <-]. exists st. by split; [constructor |].
Qed.

(** More fuel does not change the result. *)
Lemma exec_loop_more vm args fuel fuel' st r :
  (fuel <= fuel')%nat -> exec_loop vm args fuel st = Some r -> exec_loop vm args fuel' st = Some r.
Proof.
  revert fuel' st. induction fuel as [| fuel IH]; intros fuel' st Hle; simpl; [discriminate |].
  destruct fuel' as [| fuel']; [lia |]. simpl.
  destruct (step vm args st) as [[st' | v st'] | e |]; try done. apply IH. lia.
Qed.

(** *** Control state: the frames and the limit *)

(** The value of [x], when there is one, satisfies [P]. *)
Definition whenever {A} (P : A -> Prop) (x : outcome A) : Prop := forall a, x = Value a -> P a.

Lemma whenever_bind {A B} (P : A -> Prop) (Q : B -> Prop) (x : outcome A) (k : A -> outcome B) :
  whenever P x -> (forall a, P a -> whenever Q (k a)) -> whenever Q (bind_outcome x k).
Proof. intros Hx Hk b Hb. destruct x as [a | |]; [| discriminate ..]. by apply (Hk a (Hx a eq_refl)). Qed.

Lemma whenever_any {A} (x : outcome A) : whenever (fun _ => True) x.
Proof. by intros a _. Qed.

Lemma whenever_value {A} (P : A -> Prop) a : P a -> whenever P (Value a).
Proof. by intros Ha b [= <-]. Qed.

Definition keeps_control (st st' : exec_state) : Prop :=
  st'.(limit) = st.(limit) /\ st'.(stack_frames) = st.(stack_frames) /\
  st'.(stack_frame_index) = st.(stack_frame_index).

(** The value an execution returns is the register r0 at its end. *)
Definition exit_is_r0 (act : action) : Prop :=
  match act with Continue _ => True | ExitWith v st' => v = get_reg st' 0 end.

Definition act_keeps (st : exec_state) (act : action) : Prop :=
  keeps_control st (next_state act) /\ exit_is_r0 act.

Ltac any_then := eapply whenever_bind; [apply whenever_any |]; intros ? _.

Lemma bounds_check_load_keeps vm args k inst size st :
  whenever (fun p => keeps_control st p.2) (bounds_check_load vm args k inst size st).
Proof.
  unfold bounds_check_load. any_then. any_then. any_then. apply whenever_value. by destruct a0.
Qed.

Lemma bounds_check_store_keeps vm args k inst size st :
  whenever (fun p => keeps_control st p.2) (bounds_check_store vm args k inst size st).
Proof. unfold bounds_check_store. any_then. any_then. any_then. by apply whenever_value. Qed.

Lemma exec_load_keeps vm args k inst size sx st :
  whenever (act_keeps st) (exec_load vm args k inst size sx st).
Proof.
  unfold exec_load. eapply whenever_bind; [apply bounds_check_load_keeps |]. intros [a st1] Hk.
  any_then. by apply whenever_value.
Qed.

Lemma exec_store_keeps vm args k inst size fr st :
  whenever (act_keeps st) (exec_store vm args k inst size fr st).
Proof.
  unfold exec_store. eapply whenever_bind; [apply bounds_check_store_keeps |]. intros [a st1] Hk.
  any_then. by apply whenever_value.
Qed.

Lemma exec_atomic64_keeps vm args k inst st : whenever (act_keeps st) (exec_atomic64 vm args k inst st).
Proof.
  unfold exec_atomic64. eapply whenever_bind; [apply bounds_check_store_keeps |]. intros [a st1] Hk.
  destruct (atomic_new_value _ _ _ _ _); [| done]. any_then. any_then. apply whenever_value.
  by destruct (negb _).
Qed.

Lemma exec_atomic32_keeps vm args k inst st : whenever (act_keeps st) (exec_atomic32 vm args k inst st).
Proof.
  unfold exec_atomic32. eapply whenever_bind; [apply bounds_check_store_keeps |]. intros [a st1] Hk.
  destruct (atomic_new_value _ _ _ _ _); [| done]. any_then. any_then. apply whenever_value.
  by destruct (_ || _).
Qed.

Lemma exec_external_call_keeps vm args inst st : whenever (act_keeps st) (exec_external_call vm args inst st).
Proof.
  unfold exec_external_call. any_then. destruct a as [r0 m]. by destruct (_ && _); apply whenever_value.
Qed.

Lemma exec_lddw_keeps vm inst st : whenever (act_keeps st) (exec_lddw vm inst st).
Proof. unfold exec_lddw. any_then. by apply whenever_value. Qed.

(** How an instruction changes the control state. *)
Inductive flow (st : exec_state) (inst : ebpf_inst) : action -> Prop :=
| flow_same act : act_keeps st act -> flow st inst act
| flow_call k st' :
    is_local_call inst = true -> exec_local_call k inst st = Value (Continue st') -> flow st inst (Continue st')
| flow_exit act :
    inst.(opcode) = opcode_of EBPF_OP_EXIT -> exec_exit st = Value act -> flow st inst act.

Lemma exec_switch_flow vm args k inst st : whenever (flow st inst) (exec_switch vm args k inst st).
Proof.
  assert (forall x, whenever (act_keeps st) x -> whenever (flow st inst) x) as Hsame.
  { intros x Hx act Hact. apply flow_same, Hx, Hact. }
  unfold exec_switch. destruct (switch_op inst.(opcode)) as [op |] eqn:Hop; [| done].
  apply switch_op_sound in Hop. destruct (neg_overflows _ _); [done |].
  destruct (exec_alu _ _ _ _ _); [by apply Hsame, whenever_value |].
  destruct (exec_endian _ _ _); [by apply Hsame, whenever_value |].
  destruct (exec_condition _ _ _ _) as [[] |]; [by apply Hsame, whenever_value .. |].
  unfold exec_other. destruct (load_shape op) as [[size sx] |]; [apply Hsame, exec_load_keeps |].
  destruct (store_shape op) as [[size fr] |]; [apply Hsame, exec_store_keeps |].
  destruct op; try done; try (by apply Hsame, whenever_value).
  - apply Hsame, exec_lddw_keeps.
  - unfold exec_call. destruct (inst.(src) =? 0); [apply Hsame, exec_external_call_keeps |].
    destruct (inst.(src) =? 1) eqn:Hs; [| destruct (_ =? 2); [done | by apply Hsame, whenever_value]].
    intros act Hact. pose proof Hact as Hact'. unfold exec_local_call in Hact.
    destruct (_ <=? _); [discriminate |]. injection Hact as <-. eapply flow_call; [| exact Hact'].
    unfold is_local_call. rewrite <- Hop, Hs. done.
  - intros act Hact. by apply flow_exit.
  - apply Hsame, exec_atomic32_keeps.
  - apply Hsame, exec_atomic64_keeps.
Qed.

(** The state the switch starts from. *)
Record before_switch (vm : ubpf_vm) (st st3 : exec_state) : Prop := BeforeSwitch {
  bs_pc : st3.(pc) = u16 (st.(pc) + 1);
  bs_reg : st3.(reg) = st.(reg);
  bs_index : st3.(stack_frame_index) = st.(stack_frame_index);
  bs_frames : forall j, j <> Z.to_nat st.(stack_frame_index) -> st3.(stack_frames) !! j = st.(stack_frames) !! j;
  bs_frames_length : length st3.(stack_frames) = length st.(stack_frames);
  bs_limit : vm.(instruction_limit) <> 0 -> 0 < st.(limit) /\ st3.(limit) = st.(limit) - 1;
  bs_mem : vm.(debug_function) = 0 -> st3.(mem) = st.(mem);
  bs_entered : exists st2, enter_function vm st = Value st2 /\ st3.(stack_frames) = st2.(stack_frames);
}.

(** [enter_function] has nothing to do with the limit. *)
Lemma enter_function_same vm st st1 st2 :
  enter_function vm st1 = Value st2 -> st1.(pc) = st.(pc) -> st1.(stack_frame_index) = st.(stack_frame_index) ->
  st1.(stack_frames) = st.(stack_frames) -> exists st2', enter_function vm st = Value st2' /\ st2.(stack_frames) = st2'.(stack_frames).
Proof.
  unfold enter_function, frame_at. intros E Ep Ei Ef. rewrite Ep, Ei, Ef in E. destruct (if _ =? 0 then _ else _) as [marked | |]; [| done ..].
  cbn [bind_outcome] in *. destruct (_ && _); [| injection E as <-; by exists st].
  destruct (ubpf_stack_usage_for_local_func vm _); [| done]. cbn [of_option bind_outcome] in *. injection E as <-. by eexists.
Qed.

Lemma enter_function_before vm st st2 :
  enter_function vm st = Value st2 ->
  st2.(pc) = st.(pc) /\ st2.(reg) = st.(reg) /\ st2.(mem) = st.(mem) /\ st2.(limit) = st.(limit) /\
  st2.(stack_frame_index) = st.(stack_frame_index) /\
  (forall j, j <> Z.to_nat st.(stack_frame_index) -> st2.(stack_frames) !! j = st.(stack_frames) !! j) /\
  length st2.(stack_frames) = length st.(stack_frames).
Proof.
  unfold enter_function. destruct (if _ =? 0 then _ else _) as [marked | |]; [| discriminate ..].
  cbn [bind_outcome]. destruct (_ && _); [| by intros [= <-]].
  destruct (ubpf_stack_usage_for_local_func vm _); [| discriminate]. cbn [of_option bind_outcome].
  intros [= <-]. cbn. rewrite length_insert. repeat split. intros j Hj. by rewrite list_lookup_insert_ne.
Qed.

Lemma prologue_before vm args st st1 st2 shadow :
  count_instruction vm st = Value st1 -> enter_function vm st1 = Value st2 ->
  before_switch vm st
    (call_debug_function vm args st.(pc) (set_shadow_registers shadow (set_pc (u16 (st.(pc) + 1)) st2))).
Proof.
  intros E1 E2. pose proof E2 as E2'. apply enter_function_before in E2 as (P2 & R2 & M2 & L2 & I2 & F2 & N2).
  assert (pc st1 = pc st /\ reg st1 = reg st /\ mem st1 = mem st /\ stack_frames st1 = stack_frames st /\
          stack_frame_index st1 = stack_frame_index st /\
          (vm.(instruction_limit) <> 0 -> 0 < st.(limit) /\ st1.(limit) = st.(limit) - 1))
    as (P1 & R1 & M1 & F1 & I1 & L1).
  { revert E1. unfold count_instruction. destruct (Z.eqb_spec (instruction_limit vm) 0); cbn [negb].
    - by intros [= <-].
    - destruct (Z.leb_spec (limit st) 0); [discriminate |]. intros [= <-]. done. }
  set (st3 := call_debug_function _ _ _ _).
  assert (pc st3 = u16 (pc st + 1) /\ reg st3 = reg st2 /\ stack_frames st3 = stack_frames st2 /\
          stack_frame_index st3 = stack_frame_index st2 /\ limit st3 = limit st2 /\
          (vm.(debug_function) = 0 -> mem st3 = mem st2)) as (P3 & R3 & F3 & I3 & L3 & M3).
  { unfold st3, call_debug_function. destruct (Z.eqb_spec (debug_function vm) 0); cbn [negb]; split_and!; done. }
  constructor; rewrite ?R3, ?I3, ?F3, ?L3, ?R2, ?I2, ?L2, ?N2; try congruence; auto.
  - intros j Hj. rewrite F2, F1 by congruence. done.
  - intros Hd. rewrite (M3 Hd). congruence.
  - by eapply enter_function_same.
Qed.

Lemma step_inv vm args st act :
  step vm args st = Value act ->
  exists inst st3 act3,
    ubpf_fetch_instruction vm st.(pc) = Some inst /\ before_switch vm st st3 /\
    exec_switch vm args st.(pc) inst st3 = Value act3 /\
    act = match act3 with Continue st' => Continue (truncate_alu32 inst st') | ExitWith v st' => ExitWith v st' end.
Proof.
  unfold step. destruct (negb _); [| discriminate]. cbn [require bind_outcome].
  destruct (count_instruction vm st) as [st1 | |] eqn:E1; [| discriminate ..]. cbn [bind_outcome].
  destruct (enter_function vm st1) as [st2 | |] eqn:E2; [| discriminate ..]. cbn [bind_outcome].
  destruct (ubpf_fetch_instruction vm st.(pc)) as [inst |]; [| discriminate]. cbn [of_option bind_outcome].
  destruct (ubpf_validate_shadow_register _ _ _ _) as [shadow |]; [| discriminate].
  cbn [of_result bind_outcome]. set (st3 := call_debug_function _ _ _ _).
  destruct (exec_switch _ _ _ _ _) as [act3 | |] eqn:E3; [| discriminate ..]. cbn [bind_outcome].
  intros Hact. exists inst, st3, act3. split; [done |]. split; [by eapply prologue_before |]. split; [done |].
  destruct act3; by injection Hact as <-.
Qed.

Lemma truncate_keeps inst st : keeps_control st (truncate_alu32 inst st).
Proof. unfold truncate_alu32. by destruct (_ && _). Qed.

Lemma local_call_fields k inst st st' :
  exec_local_call k inst st = Value (Continue st') ->
  st'.(limit) = st.(limit) /\ st'.(stack_frame_index) = st.(stack_frame_index) + 1 /\
  st.(stack_frame_index) < UBPF_MAX_CALL_DEPTH /\
  st'.(stack_frames) =
    <[Z.to_nat st.(stack_frame_index) :=
        Frame (frame_at st st.(stack_frame_index)).(frame_stack_usage) st.(pc)
          [get_reg st BPF_REG_6; get_reg st BPF_REG_7; get_reg st BPF_REG_8; get_reg st BPF_REG_9]]>
      st.(stack_frames) /\
  st'.(reg) = <[10%nat := u64 (get_reg st BPF_REG_10 -
                               (frame_at st st.(stack_frame_index)).(frame_stack_usage))]> st.(reg) /\
  st'.(pc) = u16 (st.(pc) + inst.(imm)).
Proof.
  unfold exec_local_call. destruct (Z.leb_spec UBPF_MAX_CALL_DEPTH (stack_frame_index st)); [discriminate |].
  intros [= <-]. done.
Qed.

Lemma exit_limit st act : exec_exit st = Value act -> (next_state act).(limit) = st.(limit).
Proof. unfold exec_exit. destruct (_ <? _); by intros [= <-]. Qed.

(** Each turn spends one unit of the limit, and none is left when it is zero. *)
Lemma step_limit vm args st st' :
  vm.(instruction_limit) <> 0 -> steps vm args st st' -> 0 < st.(limit) /\ st'.(limit) = st.(limit) - 1.
Proof.
  intros Hl Hs. apply step_inv in Hs as (inst & st3 & act3 & _ & Hb & Hsw & Hact).
  destruct (bs_limit _ _ _ Hb Hl) as [H0 H1]. split; [done |].
  destruct act3 as [st4 |]; [| discriminate]. injection Hact as ->.
  destruct (truncate_keeps inst st4) as [-> _]. rewrite <- H1.
  apply exec_switch_flow in Hsw. inversion Hsw as [? [[Hk _] _] | k ? _ Hc | ? _ He]; subst.
  - exact Hk.
  - by apply local_call_fields in Hc as [? _].
  - by apply exit_limit in He.
Qed.

Lemma step_exit_is_r0 vm args st act : step vm args st = Value act -> exit_is_r0 act.
Proof.
  intros Hs. apply step_inv in Hs as (inst & st3 & act3 & _ & _ & Hsw & ->).
  destruct act3 as [| v st4]; [done |]. apply exec_switch_flow in Hsw.
  inversion Hsw as [? [_ Hv] | | ? _ He]; subst; [exact Hv |].
  revert He. unfold exec_exit. destruct (_ <? _); by intros [= <- <-].
Qed.

(** With a limit of [n], the loop ends within [n + 1] turns. *)
Lemma exec_loop_limit vm args (n : nat) st :
  vm.(instruction_limit) <> 0 -> st.(limit) <= Z.of_nat n -> is_Some (exec_loop vm args (S n) st).
Proof.
  intros Hl. revert st. induction n as [| n IH]; intros st Hn; cbn [exec_loop].
  - destruct (step vm args st) as [[st' |] | |] eqn:E; eauto.
    apply step_limit in E as [? _]; [lia | done].
  - destruct (step vm args st) as [[st' |] | |] eqn:E; eauto.
    apply IH. apply step_limit in E as [? ->]; [lia | done].
Qed.

End Runs.

(** ** Safety of whole executions *)

Section WholeRuns.
Context (h : HostEnv) {HS : HostSound h}.
Variables (vm : ubpf_vm) (args : exec_args) (prog : list ebpf_inst).
Hypothesis Hargs : args_ok args.
Hypothesis Hbounds : vm.(bounds_check_enabled) = true.
Hypothesis Hld : loaded vm prog.

Definition has_no_neg32 : Prop := Forall (fun inst => inst.(opcode) <> opcode_of EBPF_OP_NEG) prog.

Lemma no_neg_safe st : has_no_neg32 -> neg_safe prog st.
Proof. intros Hn inst Hi Hop. by destruct (Forall_lookup_1 _ _ _ _ Hn Hi). Qed.

(** Every external function the program calls is defined on whatever registers and
    memory it is called with. *)
Definition calls_defined : Prop :=
  forall inst st, inst ∈ prog -> calls_out inst = true -> state_ok vm args st -> is_Some (helper_outcome h vm args inst st).

Lemma no_calls_defined : Forall (fun inst => calls_out inst = false) prog -> calls_defined.
Proof.
  intros Hno inst st Hi Hc _. rewrite list.Forall_forall in Hno. rewrite (Hno inst Hi) in Hc. discriminate.
Qed.

Lemma turns_defined st : has_no_neg32 -> calls_defined -> turn_defined h vm args prog st.
Proof.
  intros Hn Hd. split; [by apply no_neg_safe |]. intros inst st' Hi Hc Hst' _.
  apply Hd; [by eapply list_elem_of_lookup_2 | done | done].
Qed.

Lemma reaches_ok st st' : reaches vm args st st' -> state_ok vm args st -> state_ok vm args st'.
Proof using All.
  intros Hr. induction Hr as [| st st1 st' Hs _ IH]; [done |]. intros Hst. apply IH.
  pose proof (step_safely h vm args Hargs Hbounds prog Hld st Hst) as Hsafe.
  unfold steps in Hs. rewrite Hs in Hsafe. apply Hsafe.
Qed.

(** The register file the call finds: sixteen 64-bit values. *)
Definition registers_ok (garbage : list Z) : Prop := length garbage = 16%nat /\ Forall fits64 garbage.

Lemma initial_state_ok garbage m :
  registers_ok garbage -> mem_ok m -> regions_mapped args m ->
  state_ok vm args (initial_state vm args garbage m).
Proof using Hargs.
  intros [Hl Hf] Hm Hr. destruct Hargs as [[? ? (? & ? & ?)] Hmul]. unfold initial_state.
  apply state_ok_set_reg; [apply (wrap_range 64); lia |]. do 2 (apply state_ok_set_reg; [done |]).
  constructor; cbn -[replicate]; try done.
  - apply Forall_replicate. split; cbn; [lia |]. by repeat apply Forall_cons_2.
  - intros ->. split.
    + apply Forall_replicate. unfold byte_ok. lia.
    + rewrite length_replicate. pose proof (Z.div_mod args.(stack_length) 8 ltac:(lia)). lia.
Qed.

(** The bytes an accepted access touches belong to one of the two regions or are
    granted by the embedder. *)
Lemma mem_step_confined m m' i :
  mem_step h vm args m m' -> ~ host_granted i ->
  ~ (args.(arg_mem) <= i < args.(arg_mem) + args.(arg_mem_len)) ->
  ~ (args.(stack_start) <= i < args.(stack_start) + args.(stack_length)) ->
  m' !! i = m !! i.
Proof using HS Hbounds.
  intros [-> | (a & n & Hn & [_ Hc] & Hb)] Hg Hi1 Hi2; [done |]. apply Hc.
  apply bounds_check_true in Hb as (? & ? & [(_ & _ & ?) | [(_ & ?) | (_ & ?)]]); [| | | done];
    [unfold inside in *; lia .. |].
  intros Hi. apply Hg. by eapply hs_bounds.
Qed.

Lemma reaches_confined st st' i :
  ~ host_granted i -> vm.(debug_function) = 0 -> Forall (fun inst => calls_out inst = false) prog ->
  ~ (args.(arg_mem) <= i < args.(arg_mem) + args.(arg_mem_len)) ->
  ~ (args.(stack_start) <= i < args.(stack_start) + args.(stack_length)) ->
  reaches vm args st st' -> state_ok vm args st -> st'.(mem) !! i = st.(mem) !! i.
Proof using All.
  intros Hbf Hdbg Hno Hi1 Hi2 Hr. induction Hr as [| st st1 st' Hs Hr IH]; [done |]. intros Hst.
  pose proof (step_safely h vm args Hargs Hbounds prog Hld st Hst) as Hsafe.
  unfold steps in Hs. rewrite Hs in Hsafe. destruct Hsafe as [Hst1 Hmem]. rewrite (IH Hst1).
  eapply mem_step_confined; [| done ..]. apply Hmem; [done |].
  intros inst Hi. by apply (Forall_lookup_1 _ _ _ _ Hno Hi).
Qed.

(** The last turn, from a state that satisfies the invariant. *)
Lemma last_step st v st' :
  state_ok vm args st -> step vm args st = Value (ExitWith v st') ->
  state_ok vm args st' /\ step_ok_after h vm args prog st (ExitWith v st').
Proof using All.
  intros Hst Hs.
  pose proof (step_safely h vm args Hargs Hbounds prog Hld st Hst) as Hsafe.
  rewrite Hs in Hsafe. split; [apply Hsafe | exact Hsafe].
Qed.

End WholeRuns.

(** The hypotheses on calls do not depend on the mark of a started execution. *)
Lemma started_calls (h : HostEnv) vm args prog :
  calls_defined h vm args prog -> calls_defined h (set_execution_started true vm) args prog.
Proof. intros Hc inst st Hi Ho []. apply (Hc inst st Hi Ho). by constructor. Qed.

(** Whatever the fuel, the run of a loaded program is not undefined. *)
Lemma exec_never_undefined (h : HostEnv) (HS : HostSound h) vm args prog garbage m fuel :
  loaded vm prog -> vm.(bounds_check_enabled) = true -> has_no_neg32 prog -> calls_defined h vm args prog -> args_ok args ->
  registers_ok garbage -> mem_ok m -> regions_mapped args m ->
  (ubpf_exec_ex_legacy fuel vm args true garbage m).2 <> Some UndefinedBehaviour.
Proof.
  intros Hld Hb Hn Hcd%started_calls Ha Hg Hm Hr. unfold ubpf_exec_ex_legacy.
  rewrite (proj2 (Z.eqb_neq _ _) (ld_insts _ _ Hld)). rewrite andb_false_r. cbn [snd].
  set (vm' := set_execution_started true vm) in *.
  assert (loaded vm' prog) as Hld' by (destruct Hld; constructor; try done; by apply (validated_frame vm)).
  set (st := initial_state vm' args garbage m). intros Er.
  assert (state_ok vm' args st) as Hst by (by apply initial_state_ok).
  apply exec_loop_reaches in Er as (st' & Hreach & Hend).
  pose proof (reaches_ok h vm' args prog Ha Hb Hld' _ _ Hreach Hst) as Hst'.
  pose proof (step_safely h vm' args Ha Hb prog Hld' st' Hst') as Hsafe.
  rewrite Hend in Hsafe. by apply Hsafe, turns_defined.
Qed.

(** ** Local calls *)

Section Calls.
Context `{HostEnv}.

(** A turn of the loop changes the depth by at most one, and frames below the
    current depth only change when they are the current frame. *)
Lemma step_frames vm args st st' :
  0 <= st.(stack_frame_index) -> steps vm args st st' ->
  st.(stack_frame_index) - 1 <= st'.(stack_frame_index) <= st.(stack_frame_index) + 1 /\
  forall j, (j < Z.to_nat st.(stack_frame_index))%nat -> st'.(stack_frames) !! j = st.(stack_frames) !! j.
Proof.
  intros H0 Hs. apply step_inv in Hs as (inst & st3 & act3 & _ & Hb & Hsw & Hact).
  destruct act3 as [st4 |]; [| discriminate]. injection Hact as ->.
  destruct (truncate_keeps inst st4) as (_ & -> & ->).
  pose proof (bs_index _ _ _ Hb) as Ei. pose proof (bs_frames _ _ _ Hb) as Ef.
  apply exec_switch_flow in Hsw. inversion Hsw as [? [(_ & F & I) _] | k ? _ Hc | ? _ He]; subst.
  - cbn in F, I. rewrite I, F, Ei. split; [lia |]. intros j Hj. apply Ef. lia.
  - apply local_call_fields in Hc as (_ & -> & _ & -> & _). rewrite Ei. split; [lia |].
    intros j Hj. rewrite list_lookup_insert_ne by lia. apply Ef. lia.
  - revert He. unfold exec_exit. destruct (_ <? _); [| discriminate]. intros [= <-]. cbn.
    rewrite Ei. split; [lia |]. intros j Hj. apply Ef. lia.
Qed.

(** [st] reaches [st'] without the depth ever falling below [d]. *)
Inductive reaches_above (vm : ubpf_vm) (args : exec_args) (d : Z) : exec_state -> exec_state -> Prop :=
| above_refl st : d <= st.(stack_frame_index) -> reaches_above vm args d st st
| above_step st st1 st' :
    d <= st.(stack_frame_index) -> steps vm args st st1 -> reaches_above vm args d st1 st' ->
    reaches_above vm args d st st'.

Lemma reaches_above_frames vm args d st st' :
  0 <= d -> reaches_above vm args d st st' ->
  d <= st'.(stack_frame_index) /\
  forall j, (j < Z.to_nat d)%nat -> st'.(stack_frames) !! j = st.(stack_frames) !! j.
Proof.
  intros Hd Hr. induction Hr as [st Hi | st st1 st' Hi Hs _ [IHd IH]]; [done |]. split; [done |].
  intros j Hj. rewrite IH by done. apply step_frames in Hs as [_ Hf]; [| lia]. apply Hf. lia.
Qed.

Lemma truncate_other inst st :
  inst.(opcode) = opcode_of EBPF_OP_CALL \/ inst.(opcode) = opcode_of EBPF_OP_EXIT ->
  truncate_alu32 inst st = st.
Proof. unfold truncate_alu32. by intros [-> | ->]. Qed.

(** A turn that raises the depth is a local call, one that lowers it an EXIT. *)
Lemma step_raises vm args st st' :
  steps vm args st st' -> st'.(stack_frame_index) = st.(stack_frame_index) + 1 ->
  (Z.to_nat st.(stack_frame_index) < length st.(stack_frames))%nat ->
  exists usage,
    st'.(reg) = <[10%nat := u64 (get_reg st 10 - usage)]> st.(reg) /\
    st'.(stack_frames) !! Z.to_nat st.(stack_frame_index) =
      Some (Frame usage (u16 (st.(pc) + 1)) [get_reg st 6; get_reg st 7; get_reg st 8; get_reg st 9]).
Proof.
  intros Hs Hi Hlen. apply step_inv in Hs as (inst & st3 & act3 & _ & Hb & Hsw & Hact).
  destruct act3 as [st4 |]; [| discriminate]. injection Hact as ->.
  pose proof (bs_index _ _ _ Hb) as Ei. pose proof (bs_reg _ _ _ Hb) as Er.
  rewrite (proj2 (proj2 (truncate_keeps inst st4))) in Hi.
  apply exec_switch_flow in Hsw. inversion Hsw as [? [(_ & F & I) _] | k ? Hl Hc | ? _ He]; subst.
  - cbn in I. lia.
  - rewrite truncate_other by (unfold is_local_call in Hl; bools; auto).
    apply local_call_fields in Hc as (_ & _ & _ & -> & -> & _). rewrite Ei.
    rewrite list_lookup_insert_eq by (by rewrite (bs_frames_length _ _ _ Hb)).
    unfold get_reg. rewrite Er, (bs_pc _ _ _ Hb). by eexists.
  - revert He. unfold exec_exit. destruct (_ <? _); [| discriminate]. intros [= <-]. cbn in Hi. lia.
Qed.

Lemma step_lowers vm args st st' f :
  steps vm args st st' -> st'.(stack_frame_index) = st.(stack_frame_index) - 1 ->
  0 <= st'.(stack_frame_index) ->
  st.(stack_frames) !! Z.to_nat st'.(stack_frame_index) = Some f ->
  st'.(pc) = f.(return_address) /\
  st'.(reg) = <[10%nat := u64 (get_reg st 10 + f.(frame_stack_usage))]> (<[9%nat := saved f 3]>
                (<[8%nat := saved f 2]> (<[7%nat := saved f 1]> (<[6%nat := saved f 0]> st.(reg))))).
Proof.
  intros Hs Hi H0 Hf. apply step_inv in Hs as (inst & st3 & act3 & _ & Hb & Hsw & Hact).
  destruct act3 as [st4 |]; [| discriminate]. injection Hact as ->.
  pose proof (bs_index _ _ _ Hb) as Ei. pose proof (bs_reg _ _ _ Hb) as Er.
  rewrite (proj2 (proj2 (truncate_keeps inst st4))) in *.
  apply exec_switch_flow in Hsw. inversion Hsw as [? [(_ & F & I) _] | k ? Hl Hc | ? Hop He]; subst.
  - cbn in I. lia.
  - apply local_call_fields in Hc as (_ & I & _). lia.
  - rewrite truncate_other by auto.
    assert (frame_at st3 (stack_frame_index st3 - 1) = f) as Hfr.
    { unfold frame_at. rewrite Hi, <- Ei in Hf. rewrite (bs_frames _ _ _ Hb) by lia. by rewrite Hf. }
    revert He. unfold exec_exit. destruct (_ <? _); [| discriminate]. rewrite Hfr. intros [= <-]. cbn.
    split; [done |]. rewrite Er. unfold get_reg. cbn. by rewrite !list_lookup_insert_ne, Er by (vm_compute; discriminate).
Qed.

End Calls.

(** ** Properties *)

(** C19: a local call and the EXIT that ends it: whatever the callee does in
    between (calls of its own included), control resumes at the instruction
    after the call, r6 to r9 have the values the caller had in them, r0 to r5
    are what the callee left, and r10 is what the callee left in it plus what the
    call had taken from it: the caller's r10 again when the callee did not change
    it. *)
Theorem local_call_returns `{HostEnv} (vm : ubpf_vm) (args : exec_args) (st st1 st2 st3 : exec_state) :
  state_ok vm args st -> state_ok vm args st2 ->
  steps vm args st st1 -> st1.(stack_frame_index) = st.(stack_frame_index) + 1 ->
  reaches_above vm args (st.(stack_frame_index) + 1) st1 st2 ->
  steps vm args st2 st3 -> st3.(stack_frame_index) = st.(stack_frame_index) ->
  st3.(pc) = u16 (st.(pc) + 1) /\
  (forall r, 6 <= r <= 9 -> get_reg st3 r = get_reg st r) /\
  (forall r, 0 <= r <= 5 -> get_reg st3 r = get_reg st2 r) /\
  get_reg st3 10 = u64 (get_reg st2 10 + (get_reg st 10 - get_reg st1 10)) /\
  (get_reg st2 10 = get_reg st1 10 -> get_reg st3 10 = get_reg st 10).
Proof.
  intros Hst Hst2 Hcall Hi1 Hrun Hexit Hi3. pose proof (so_index _ _ _ Hst) as Hidx.
  pose proof (so_index _ _ _ Hst2) as Hidx2.
  assert (st.(stack_frame_index) < 8) as Hlt8.
  { apply reaches_above_frames in Hrun as [Hd _]; [| lia]. unfold UBPF_MAX_CALL_DEPTH in *.
    apply step_frames in Hexit as [Hb _]; lia. }
  apply step_raises in Hcall as (usage & Er1 & Ef1); [| done | rewrite (so_frames_length _ _ _ Hst); lia].
  apply reaches_above_frames in Hrun as [Hd Hfr]; [| lia].
  rewrite <- (Hfr (Z.to_nat st.(stack_frame_index))) in Ef1 by lia.
  pose proof (step_frames _ _ _ _ (proj1 Hidx2) Hexit) as [Hb _].
  rewrite <- Hi3 in Ef1. apply (step_lowers _ _ _ _ _ Hexit) in Ef1 as [Hpc Er3]; [| lia | lia].
  cbn in Hpc, Er3. split; [done |].
  assert (forall r, 0 <= r <= 10 -> get_reg st3 r =
    if r =? 10 then u64 (get_reg st2 10 + usage)
    else if 6 <=? r then get_reg st r else get_reg st2 r) as Hget.
  { intros r Hr. unfold get_reg at 1. rewrite Er3.
    assert (r = 0 \/ r = 1 \/ r = 2 \/ r = 3 \/ r = 4 \/ r = 5 \/ r = 6 \/ r = 7 \/ r = 8 \/ r = 9 \/ r = 10)
      as Hcases by lia.
    pose proof (so_reg_length _ _ _ Hst2) as Hl.
    destruct_or! Hcases; subst r; cbn [Z.eqb Z.leb Pos.eqb Z.to_nat Pos.to_nat];
      repeat (rewrite list_lookup_insert_ne by (vm_compute; lia));
      rewrite ?list_lookup_insert_eq by (rewrite ?length_insert, Hl; vm_compute; lia); done. }
  assert (get_reg st1 10 = u64 (get_reg st 10 - usage)) as H1.
  { unfold get_reg at 1. rewrite Er1.
    by rewrite list_lookup_insert_eq by (rewrite (so_reg_length _ _ _ Hst); vm_compute; lia). }
  assert (get_reg st3 10 = u64 (get_reg st2 10 + (get_reg st 10 - get_reg st1 10))) as H10.
  { rewrite Hget by lia. cbn [Z.eqb Pos.eqb]. rewrite H1.
    rewrite <- (wrap_add_r 64 (get_reg st2 10) (_ - _)), wrap_sub_r, wrap_add_r. f_equal. lia. }
  split; [| split; [| split; [done |]]].
  - intros r Hr. rewrite Hget by lia. destruct (Z.eqb_spec r 10), (Z.leb_spec 6 r); (lia || done).
  - intros r Hr. rewrite Hget by lia. destruct (Z.eqb_spec r 10), (Z.leb_spec 6 r); (lia || done).
  - intros E. rewrite H10, E. replace (_ + _) with (get_reg st 10) by lia. apply wrap_id, (get_reg_fits _ _ _ 10 Hst).
Qed.

(** A VM to evaluate the theorems on: bounds checks on, a limit of 100
    instructions, loaded with [mov r6, 5; call f; exit; f: mov r6, 9; exit]. *)
Definition demo_code : list Z :=
  bytes_of_insts [Inst 0xb7 6 0 0 5; Inst 0x85 0 1 0 1; Inst 0x95 0 0 0 0; Inst 0xb7 6 0 0 9; Inst 0x95 0 0 0 0].
Definition demo_vm : ubpf_vm :=
  load_on null_host (set_instruction_limit 100 (set_bounds_check_enabled true (empty_vm JitNull))) demo_code.
Definition demo_args : exec_args := ExecArgs 0 0 4096 0.

Lemma demo_loaded : @loaded null_host demo_vm (insts_of_bytes demo_code).
Proof.
  destruct (@load_outcome null_host (set_instruction_limit 100 (set_bounds_check_enabled true (empty_vm JitNull)))
              test_os demo_code test_os_sound ltac:(discriminate)) as (vm' & r & E & _ & Hr).
  unfold demo_vm, load_on. rewrite E. destruct r as [[] | e]; [apply Hr |].
  exfalso. vm_compute in E. discriminate.
Qed.

Lemma demo_args_ok : args_ok demo_args.
Proof.
  split; [| reflexivity].
  split; unfold fits64, demo_args; cbn [arg_mem arg_mem_len stack_start stack_length]; lia.
Qed.

Lemma demo_registers : registers_ok (replicate 16 0).
Proof. split; [done |]. apply Forall_replicate. by split. Qed.

Lemma demo_memory : mem_ok ∅ /\ @regions_mapped null_host demo_args ∅.
Proof. split; [apply map_Forall_empty |]. split; [done |]. split; [| by intros i []]. intros i Hi. cbn in Hi. lia. Qed.

Lemma demo_no_neg : has_no_neg32 (insts_of_bytes demo_code).
Proof. repeat (apply Forall_cons_2; [vm_compute; discriminate |]). constructor. Qed.

Lemma demo_no_calls : Forall (fun inst => calls_out inst = false) (insts_of_bytes demo_code).
Proof. repeat (apply Forall_cons_2; [vm_compute; reflexivity |]). constructor. Qed.

(** The state after [n] turns. *)
Fixpoint after (n : nat) (vm : ubpf_vm) (args : exec_args) (st : exec_state) : exec_state :=
  match n with
  | O => st
  | S n' =>
      match @step null_host vm args st with
      | Value (Continue st') => after n' vm args st'
      | _ => st
      end
  end.

Lemma after_ok vm args prog n st :
  args_ok args -> vm.(bounds_check_enabled) = true -> @loaded null_host vm prog ->
  @state_ok null_host vm args st -> @state_ok null_host vm args (after n vm args st).
Proof.
  intros Ha Hb Hl. revert st. induction n as [| n IH]; intros st Hst; [exact Hst |]. cbn [after].
  destruct (step vm args st) as [[st' |] | |] eqn:E; [| exact Hst ..]. apply IH.
  eapply (reaches_ok null_host vm args prog Ha Hb Hl st st'); [| exact Hst]. by apply rtc_once.
Qed.

Definition demo_state (n : nat) : exec_state :=
  after n demo_vm demo_args (initial_state demo_vm demo_args (replicate 16 0) ∅).

Lemma demo_config : demo_vm.(bounds_check_enabled) = true /\ demo_vm.(instruction_limit) = 100.
Proof. split; vm_compute; reflexivity. Qed.

Lemma demo_state_ok n : @state_ok null_host demo_vm demo_args (demo_state n).
Proof.
  apply (after_ok _ _ _ _ _ demo_args_ok (proj1 demo_config) demo_loaded).
  apply (initial_state_ok null_host demo_vm demo_args demo_args_ok);
    [apply demo_registers | apply demo_memory | apply demo_memory].
Qed.

Lemma local_call_returns_witness : (demo_state 4).(pc) = 2 /\ get_reg (demo_state 4) 6 = 5.
Proof.
  destruct (@local_call_returns null_host demo_vm demo_args (demo_state 1) (demo_state 2) (demo_state 3) (demo_state 4))
    as (Hpc & H6 & _);
    [apply demo_state_ok | apply demo_state_ok | vm_compute; reflexivity | vm_compute; reflexivity | |
     vm_compute; reflexivity | vm_compute; reflexivity |].
  - apply (above_step _ _ _ _ (demo_state 3)); [vm_compute; discriminate | vm_compute; reflexivity |].
    apply above_refl. vm_compute. discriminate.
  - split; [rewrite Hpc; vm_compute; reflexivity |]. rewrite H6 by lia. vm_compute. reflexivity.
Defined.

(** C1: a loaded program without a 32-bit NEG always runs to an end when an
    instruction limit is set, bounds checks are on and the interpreter's allocation
    succeeds: within [limit + 1] turns of the loop, [ubpf_exec_ex] returns a 64-bit
    value or reports an error, and never does anything undefined (no access outside
    mapped memory, no index outside an array, no failed assertion, no call through
    NULL), provided the program's memory and stack are mapped, the length of the
    stack is a multiple of eight, and the embedder's functions behave: they keep the
    memory mapped, and those the program calls are defined on any arguments. *)
Theorem exec_safe_and_total (h : HostEnv) (HS : HostSound h) (vm : ubpf_vm) (args : exec_args)
    (prog : list ebpf_inst) (garbage : list Z) (m : memory) :
  loaded vm prog -> vm.(bounds_check_enabled) = true -> 0 < vm.(instruction_limit) ->
  has_no_neg32 prog -> calls_defined h vm args prog -> args_ok args -> registers_ok garbage -> mem_ok m ->
  regions_mapped args m ->
  exists r, (ubpf_exec_ex_legacy (S (Z.to_nat vm.(instruction_limit))) vm args true garbage m).2 = Some r /\
    match r with
    | Returned v _ => 0 <= v < 2 ^ 64
    | Error _ => True
    | UndefinedBehaviour => False
    end.
Proof.
  intros Hld Hb Hlim Hn Hcd%started_calls Ha Hg Hm Hr. unfold ubpf_exec_ex_legacy.
  rewrite (proj2 (Z.eqb_neq _ _) (ld_insts _ _ Hld)). rewrite andb_false_r. cbn [snd].
  set (vm' := set_execution_started true vm) in *.
  assert (loaded vm' prog) as Hld'.
  { destruct Hld. constructor; try done. by apply (validated_frame vm). }
  set (st := initial_state vm' args garbage m).
  assert (state_ok vm' args st) as Hst by (by apply initial_state_ok).
  destruct (exec_loop_limit vm' args (Z.to_nat vm.(instruction_limit)) st) as [r Er];
    [cbn; lia | cbn; lia |].
  exists r. split; [exact Er |]. apply exec_loop_reaches in Er as (st' & Hreach & Hend).
  pose proof (reaches_ok h vm' args prog Ha Hb Hld' _ _ Hreach Hst) as Hst'.
  pose proof (step_safely h vm' args Ha Hb prog Hld' st' Hst') as Hsafe.
  destruct r as [v m' | e |]; [| done | rewrite Hend in Hsafe; by apply Hsafe, turns_defined].
  destruct Hend as (st'' & Hs & _). pose proof (step_exit_is_r0 _ _ _ _ Hs) as Hv. cbn in Hv. subst v.
  rewrite Hs in Hsafe. destruct Hsafe as [Hst'' _]. by apply (get_reg_fits _ _ _ 0 Hst'').
Qed.

Lemma exec_safe_and_total_witness :
  exists r, (@ubpf_exec_ex_legacy null_host 101 demo_vm demo_args true (replicate 16 0) ∅).2 = Some r.
Proof.
  pose proof (exec_safe_and_total null_host null_host_sound demo_vm demo_args (insts_of_bytes demo_code)
    (replicate 16 0) ∅ demo_loaded (proj1 demo_config)) as Hx.
  rewrite (proj2 demo_config) in Hx.
  destruct (Hx eq_refl demo_no_neg (no_calls_defined _ _ _ _ demo_no_calls) demo_args_ok demo_registers (proj1 demo_memory) (proj2 demo_memory))
    as (r & Hr & _).
  exists r. exact Hr.
Defined.

(** C2: the interpreter is confined to the memory it was given: when a loaded program
    without external calls returns, with bounds checks on, no debug function
    registered and well-formed arguments (its memory and stack mapped, the length of
    the stack a multiple of eight), every byte outside the program's memory, its stack and the
    addresses the embedder's bounds function may grant has the value it had at
    the start. *)
Theorem exec_confined (h : HostEnv) (HS : HostSound h) (vm : ubpf_vm) (args : exec_args)
    (prog : list ebpf_inst) (garbage : list Z) (m m' : memory) (fuel : nat) (v i : Z) :
  loaded vm prog -> vm.(bounds_check_enabled) = true -> vm.(debug_function) = 0 ->
  Forall (fun inst => calls_out inst = false) prog ->
  args_ok args -> registers_ok garbage -> mem_ok m -> regions_mapped args m ->
  (ubpf_exec_ex_legacy fuel vm args true garbage m).2 = Some (Returned v m') ->
  ~ (args.(arg_mem) <= i < args.(arg_mem) + args.(arg_mem_len)) ->
  ~ (args.(stack_start) <= i < args.(stack_start) + args.(stack_length)) -> ~ host_granted i ->
  m' !! i = m !! i.
Proof.
  intros Hld Hb Hdbg Hno Ha Hg Hm Hr Hrun Hi1 Hi2 Hbf. revert Hrun. unfold ubpf_exec_ex_legacy.
  rewrite (proj2 (Z.eqb_neq _ _) (ld_insts _ _ Hld)). rewrite andb_false_r. cbn [snd]. intros Hrun.
  set (vm' := set_execution_started true vm) in *.
  assert (loaded vm' prog) as Hld'.
  { destruct Hld. constructor; try done. by apply (validated_frame vm). }
  set (st := initial_state vm' args garbage m) in *.
  assert (state_ok vm' args st) as Hst by (by apply initial_state_ok).
  apply exec_loop_reaches in Hrun as (st' & Hreach & st'' & Hs & ->).
  pose proof (reaches_ok h vm' args prog Ha Hb Hld' _ _ Hreach Hst) as Hst'.
  destruct (last_step h vm' args prog Ha Hb Hld' st' v st'' Hst' Hs) as [_ [_ Hmem]].
  transitivity (st'.(mem) !! i).
  - eapply (mem_step_confined h vm' args Hb); [| done ..]. apply Hmem; [done |].
    intros inst Hinst. by apply (Forall_lookup_1 _ _ _ _ Hno Hinst).
  - by rewrite (reaches_confined h vm' args prog Ha Hb Hld' st st' i Hbf Hdbg Hno Hi1 Hi2 Hreach Hst).
Qed.

(** A program that writes its memory and its stack:
    [stb [r1], 7; stdw [r10-8], 9; ldxb r0, [r1]; exit]. *)
Definition store_code : list Z :=
  bytes_of_insts [Inst 0x72 1 0 0 7; Inst 0x7a 10 0 (-8) 9; Inst 0x71 0 1 0 0; Inst 0x95 0 0 0 0].
Definition store_base : ubpf_vm := set_bounds_check_enabled true (empty_vm JitNull).
Definition store_vm : ubpf_vm := load_on null_host store_base store_code.
Definition store_args : exec_args := ExecArgs 8192 1 4096 8.
Definition store_mem : memory :=
  {[ 4096 := 0; 4097 := 0; 4098 := 0; 4099 := 0; 4100 := 0; 4101 := 0; 4102 := 0; 4103 := 0; 8192 := 42; 8193 := 1 ]}.

Lemma store_loaded : @loaded null_host store_vm (insts_of_bytes store_code).
Proof.
  destruct (@load_outcome null_host store_base test_os store_code test_os_sound ltac:(discriminate)) as (vm' & r & E & _ & Hr).
  unfold store_vm, load_on. rewrite E. destruct r as [[] | e]; [apply Hr |].
  exfalso. vm_compute in E. discriminate.
Qed.

Lemma store_args_ok : args_ok store_args.
Proof.
  split; [| reflexivity].
  split; unfold fits64, store_args; cbn [arg_mem arg_mem_len stack_start stack_length]; lia.
Qed.

Lemma store_mem_ok : mem_ok store_mem.
Proof.
  unfold store_mem, mem_ok. repeat (apply map_Forall_insert_2; [unfold byte_ok; lia |]).
  apply map_Forall_empty.
Qed.

Lemma store_mapped : @regions_mapped null_host store_args store_mem.
Proof.
  split; [intros _ _ | split; [| by intros i []]]; intros i Hi; cbn [store_args arg_mem arg_mem_len stack_start stack_length] in Hi.
  - assert (i = 8192) as -> by lia. vm_compute. eauto.
  - assert (i = 4096 \/ i = 4097 \/ i = 4098 \/ i = 4099 \/ i = 4100 \/ i = 4101 \/ i = 4102 \/ i = 4103) as Hc by lia.
    destruct_or! Hc; subst; vm_compute; eauto.
Qed.

Lemma exec_confined_witness :
  exists m', (@ubpf_exec_ex_legacy null_host 10 store_vm store_args true (replicate 16 0) store_mem).2 =
             Some (Returned 7 m') /\ m' !! 8192 = Some 7 /\ m' !! 4096 = Some 9 /\ m' !! 8193 = Some 1.
Proof.
  assert (exists m', (@ubpf_exec_ex_legacy null_host 10 store_vm store_args true (replicate 16 0) store_mem).2 =
            Some (Returned 7 m') /\ m' !! 8192 = Some 7 /\ m' !! 4096 = Some 9) as (m' & Hrun & H1 & H2)
    by (vm_compute; eexists; split; [reflexivity | split; reflexivity]).
  exists m'. split; [exact Hrun |]. split; [exact H1 |]. split; [exact H2 |].
  rewrite (exec_confined null_host null_host_sound store_vm store_args (insts_of_bytes store_code) (replicate 16 0)
           store_mem m' 10 7 8193 store_loaded);
    [reflexivity | vm_compute; reflexivity | vm_compute; reflexivity
    | repeat (apply Forall_cons_2; [vm_compute; reflexivity |]); constructor
    | apply store_args_ok | apply demo_registers | apply store_mem_ok | apply store_mapped | exact Hrun
    | cbn; lia | cbn; lia | by intros []].
Defined.

(** C35: the one instruction of the interpreter's own whose execution is undefined
    behaviour: with a loaded program and bounds checks on, in a state that satisfies
    the interpreter's invariant, with arguments that are well-formed and an embedder
    whose functions behave (the external function the instruction calls, if it calls
    one, is defined there), a turn of the loop is undefined only when the instruction
    is the 32-bit NEG and its register holds 2^63, whose negation as an [int64_t]
    overflows. *)
Theorem undefined_only_neg (h : HostEnv) (HS : HostSound h) (vm : ubpf_vm) (args : exec_args)
    (prog : list ebpf_inst) (st : exec_state) :
  loaded vm prog -> vm.(bounds_check_enabled) = true -> args_ok args -> state_ok vm args st ->
  helper_safe h vm args prog st -> step vm args st = Undefined ->
  exists inst, prog !! Z.to_nat st.(pc) = Some inst /\ inst.(opcode) = opcode_of EBPF_OP_NEG /\
    get_reg st inst.(dst) = 2 ^ 63.
Proof.
  intros Hld Hb Ha Hst Hh Hu. pose proof (step_safely h vm args Ha Hb prog Hld st Hst) as Hx. rewrite Hu in Hx.
  destruct (prog !! Z.to_nat st.(pc)) as [inst |] eqn:Hi.
  - destruct (decide (inst.(opcode) = opcode_of EBPF_OP_NEG /\ get_reg st inst.(dst) = 2 ^ 63)) as [[? ?] | Hne].
    { by exists inst. }
    exfalso. apply Hx. split; [| done]. intros inst' Hi' Hop Hr. rewrite Hi in Hi'. injection Hi' as <-. by apply Hne.
  - exfalso. apply Hx. split; [intros inst' Hi'; congruence | done].
Qed.

(** [lddw r0, 2^63; neg32 r0; exit] *)
Definition neg_code : list Z :=
  bytes_of_insts [Inst 0x18 0 0 0 0; Inst 0 0 0 0 (-2147483648); Inst 0x84 0 0 0 0; Inst 0x95 0 0 0 0].
Definition neg_vm : ubpf_vm :=
  load_on null_host (set_bounds_check_enabled true (empty_vm JitNull)) neg_code.

Lemma neg_loaded : @loaded null_host neg_vm (insts_of_bytes neg_code).
Proof.
  destruct (@load_outcome null_host (set_bounds_check_enabled true (empty_vm JitNull))
              test_os neg_code test_os_sound ltac:(discriminate)) as (vm' & r & E & _ & Hr).
  unfold neg_vm, load_on. rewrite E. destruct r as [[] | e]; [apply Hr |].
  exfalso. vm_compute in E. discriminate.
Qed.

Definition neg_state : exec_state :=
  after 1 neg_vm demo_args (initial_state neg_vm demo_args (replicate 16 0) ∅).

Lemma neg_state_ok : @state_ok null_host neg_vm demo_args neg_state.
Proof.
  set (st0 := initial_state neg_vm demo_args (replicate 16 0) ∅).
  assert (neg_state = set_reg 0 (2 ^ 63) (set_pc 2
            (set_frames (<[0%nat := Frame 256 0 [0; 0; 0; 0]]> st0.(stack_frames)) 0 st0)))
    as -> by (vm_compute; reflexivity).
  apply state_ok_set_reg; [unfold fits64; lia |]. apply state_ok_set_pc; [lia |].
  apply state_ok_set_frame; [split; cbn; [lia | by repeat apply Forall_cons_2] | unfold UBPF_MAX_CALL_DEPTH; lia |].
  apply (initial_state_ok null_host neg_vm demo_args demo_args_ok);
    [apply demo_registers | apply demo_memory | apply demo_memory].
Qed.

Lemma undefined_only_neg_witness :
  @step null_host neg_vm demo_args neg_state = Undefined /\ get_reg neg_state 0 = 2 ^ 63.
Proof.
  assert (@step null_host neg_vm demo_args neg_state = Undefined) as Hu by (vm_compute; reflexivity).
  split; [exact Hu |].
  destruct (undefined_only_neg null_host null_host_sound neg_vm demo_args (insts_of_bytes neg_code) neg_state
              neg_loaded ltac:(vm_compute; reflexivity) demo_args_ok neg_state_ok) as (inst & Hi & _ & Hr); [| exact Hu |].
  { intros inst st' Hi Hc. exfalso. vm_compute in Hi. injection Hi as <-. discriminate. }
  vm_compute in Hi. injection Hi as <-. exact Hr.
Defined.

(** An instruction limit of 2^31 or more, which the API takes as an unsigned
    count, is stored as a negative [int]: every program then fails at its first
    instruction with "instruction limit exceeded". *)
Theorem large_limit_refuses_everything (h : HostEnv) (vm : ubpf_vm) (args : exec_args) (garbage : list Z)
    (m : memory) (n : Z) (fuel : nat) :
  2 ^ 31 <= n < 2 ^ 32 -> vm.(insts) <> 0 -> 0 < vm.(num_insts) ->
  (ubpf_exec_ex_legacy (S fuel) (ubpf_set_instruction_limit vm n).1.1 args true garbage m).2 =
  Some (Error InstructionLimitExceeded).
Proof.
  intros Hn Hi Hnum. unfold ubpf_exec_ex_legacy. cbn [fst ubpf_set_instruction_limit insts set_instruction_limit].
  rewrite (proj2 (Z.eqb_neq _ _) Hi), andb_false_r. cbn [snd exec_loop].
  assert (s32 n < 0) as Hneg.
  { unfold sext. rewrite wrap_id by lia. change (2 ^ (32 - 1)) with (2 ^ 31).
    destruct (Z.ltb_spec n (2 ^ 31)); lia. }
  unfold step, count_instruction. cbn [pc num_insts initial_state set_reg set_regs set_execution_started
    instruction_limit set_instruction_limit limit].
  destruct (Z.leb_spec (num_insts vm) 0); [lia |]. cbn [negb require bind_outcome].
  destruct (Z.eqb_spec (s32 n) 0); [lia |]. cbn [negb]. destruct (Z.leb_spec (s32 n) 0); [done | lia].
Qed.

Lemma large_limit_refuses_everything_witness :
  (@ubpf_exec_ex_legacy null_host 10 (ubpf_set_instruction_limit demo_vm 0xffffffff).1.1 demo_args true
     (replicate 16 0) ∅).2 = Some (Error InstructionLimitExceeded).
Proof.
  apply (large_limit_refuses_everything null_host demo_vm demo_args (replicate 16 0) ∅ 0xffffffff 9);
    [lia | vm_compute; discriminate | vm_compute; reflexivity].
Defined.

(** The frame pointer is not read-only: an atomic fetch-and-add with r10 as
    its source is accepted by [ubpf_load] and overwrites r10 with the old
    contents of memory. *)
Theorem atomic_fetch_overwrites_r10 :
  let code := bytes_of_insts [Inst 0xdb 10 10 (-8) 0x01; Inst 0x95 0 0 0 0] in
  let vm := load_on null_host (set_bounds_check_enabled true (empty_vm JitNull)) code in
  let args := ExecArgs 0 0 4096 8 in
  let m : memory := {[ 4096 := 7; 4097 := 0; 4098 := 0; 4099 := 0; 4100 := 0; 4101 := 0; 4102 := 0; 4103 := 0 ]} in
  vm.(insts) <> 0 /\
  match @step null_host vm args (initial_state vm args (replicate 16 0) m) with
  | Value (Continue st') => get_reg st' 10 = 7
  | _ => False
  end.
Proof. intros code vm args m. split; [vm_compute; discriminate | vm_compute; reflexivity]. Qed.
