(* ===== verification/SafeAlu.v ===== *)
(** * SafeAlu: arithmetic, byte order and conditions of the safe interpreter (vm/ubpf_safe.c)

    [ubpf_exec_ex_safe] has a switch of its own.  Its blocks are translated here
    as those of vm/ubpf_vm.c are in [Alu], and shown to compute the same; the
    texts differ in the shape of the divisions and remainders. *)

From Stdlib Require Import ZArith Lia Bool.
From stdpp Require Import base list gmap strings numbers.
From S2P Require Import Prelude Ebpf InstValid Alu.

Local Open Scope Z_scope.
Local Open Scope cbits_scope.

(** ** 32-bit operations *)

(** DIV_IMM and DIV_REG; [s] is the operand. *)
Definition safe_div32 (offset d s : Z) : Z :=
  (if offset =? 0 then (if negb (u32 s =? 0) then u32 d / u32 s else 0)
   else if offset =? 1 then
     let dividend32 := s32 d in
     let divisor32 := s32 s in
     if divisor32 =? 0 then 0
     else if (dividend32 =? INT32_MIN) && (divisor32 =? -1) then u32 INT32_MIN
     else u32 (c_div dividend32 divisor32)
   else d) .& UINT32_MAX.

(** MOD_IMM and MOD_REG: the destination is left alone when the divisor is zero. *)
Definition safe_mod32 (offset d s : Z) : Z :=
  (if offset =? 0 then (if negb (u32 s =? 0) then u32 d mod u32 s else u32 d)
   else if offset =? 1 then
     let dividend32 := s32 d in
     let divisor32 := s32 s in
     if negb (divisor32 =? 0) then
       (if (dividend32 =? INT32_MIN) && (divisor32 =? -1) then 0
        else u32 (c_rem dividend32 divisor32))
     else d
   else d) .& UINT32_MAX.

Definition safe_alu32 (op : ebpf_op) (offset imm d s : Z) : option Z :=
  match op with
  | EBPF_OP_ADD_IMM => Some (u64 (d + u64 imm) .& UINT32_MAX)
  | EBPF_OP_ADD_REG => Some (u64 (d + s) .& UINT32_MAX)
  | EBPF_OP_SUB_IMM => Some (u64 (d - u64 imm) .& UINT32_MAX)
  | EBPF_OP_SUB_REG => Some (u64 (d - s) .& UINT32_MAX)
  | EBPF_OP_MUL_IMM => Some (u64 (d * u64 imm) .& UINT32_MAX)
  | EBPF_OP_MUL_REG => Some (u64 (d * s) .& UINT32_MAX)
  | EBPF_OP_DIV_IMM => Some (safe_div32 offset d imm)
  | EBPF_OP_DIV_REG => Some (safe_div32 offset d s)
  | EBPF_OP_OR_IMM => Some ((d .| u64 imm) .& UINT32_MAX)
  | EBPF_OP_OR_REG => Some ((d .| s) .& UINT32_MAX)
  | EBPF_OP_AND_IMM => Some ((d .& u64 imm) .& UINT32_MAX)
  | EBPF_OP_AND_REG => Some ((d .& s) .& UINT32_MAX)
  | EBPF_OP_LSH_IMM => Some (u32 (u32 d .<< SHIFT_MASK_32_BIT imm) .& UINT32_MAX)
  | EBPF_OP_LSH_REG => Some (u32 (u32 d .<< SHIFT_MASK_32_BIT s) .& UINT32_MAX)
  | EBPF_OP_RSH_IMM => Some ((u32 d .>> SHIFT_MASK_32_BIT imm) .& UINT32_MAX)
  | EBPF_OP_RSH_REG => Some ((u32 d .>> SHIFT_MASK_32_BIT s) .& UINT32_MAX)
  | EBPF_OP_NEG => Some (u64 (- s64 d) .& UINT32_MAX)
  | EBPF_OP_MOD_IMM => Some (safe_mod32 offset d imm)
  | EBPF_OP_MOD_REG => Some (safe_mod32 offset d s)
  | EBPF_OP_XOR_IMM => Some ((d .^ u64 imm) .& UINT32_MAX)
  | EBPF_OP_XOR_REG => Some ((d .^ s) .& UINT32_MAX)
  | EBPF_OP_MOV_IMM => Some (u64 imm .& UINT32_MAX)
  | EBPF_OP_MOV_REG =>
      Some ((if offset =? 8 then u64 (s8 (u8 s))
             else if offset =? 16 then u64 (s16 (u16 s))
             else s) .& UINT32_MAX)
  | EBPF_OP_ARSH_IMM => Some (u64 (s32 d .>> SHIFT_MASK_32_BIT imm) .& UINT32_MAX)
  | EBPF_OP_ARSH_REG => Some (u64 (s32 d .>> SHIFT_MASK_32_BIT s) .& UINT32_MAX)
  | _ => None
  end.

(** ** Byte order *)

Definition safe_endian (op : ebpf_op) (imm d : Z) : option Z :=
  match op with
  | EBPF_OP_LE =>
      Some (if imm =? 16 then u16 d else if imm =? 32 then u32 d else if imm =? 64 then u64 d else d)
  | EBPF_OP_BE =>
      Some (if imm =? 16 then bswap16 (u16 d) else if imm =? 32 then bswap32 (u32 d)
            else if imm =? 64 then bswap64 d else d)
  | EBPF_OP_BSWAP =>
      Some (if imm =? 16 then bswap16 d else if imm =? 32 then bswap32 d
            else if imm =? 64 then bswap64 d else d)
  | _ => None
  end.

(** ** 64-bit operations *)

(** The signed branches of DIV64 and MOD64, on the converted operands. *)
Definition safe_sdiv64 (dividend64 divisor64 : Z) : Z :=
  if divisor64 =? 0 then 0
  else if (dividend64 =? INT64_MIN) && (divisor64 =? -1) then u64 INT64_MIN
  else u64 (c_div dividend64 divisor64).

Definition safe_smod64 (d dividend64 divisor64 : Z) : Z :=
  if negb (divisor64 =? 0) then
    (if (dividend64 =? INT64_MIN) && (divisor64 =? -1) then 0
     else u64 (c_rem dividend64 divisor64))
  else d.

Definition safe_div64_imm (offset imm d : Z) : Z :=
  if offset =? 0 then (if negb (imm =? 0) then d / u64 imm else 0)
  else if offset =? 1 then safe_sdiv64 (s64 d) imm
  else d.
Definition safe_div64_reg (offset s d : Z) : Z :=
  if offset =? 0 then (if negb (s =? 0) then d / s else 0)
  else if offset =? 1 then safe_sdiv64 (s64 d) (s64 s)
  else d.
Definition safe_mod64_imm (offset imm d : Z) : Z :=
  if offset =? 0 then (if negb (imm =? 0) then d mod u64 imm else d)
  else if offset =? 1 then safe_smod64 d (s64 d) imm
  else d.
Definition safe_mod64_reg (offset s d : Z) : Z :=
  if offset =? 0 then (if negb (s =? 0) then d mod s else d)
  else if offset =? 1 then safe_smod64 d (s64 d) (s64 s)
  else d.

Definition safe_alu64 (op : ebpf_op) (offset imm d s : Z) : option Z :=
  match op with
  | EBPF_OP_ADD64_IMM => Some (u64 (d + u64 imm))
  | EBPF_OP_ADD64_REG => Some (u64 (d + s))
  | EBPF_OP_SUB64_IMM => Some (u64 (d - u64 imm))
  | EBPF_OP_SUB64_REG => Some (u64 (d - s))
  | EBPF_OP_MUL64_IMM => Some (u64 (d * u64 imm))
  | EBPF_OP_MUL64_REG => Some (u64 (d * s))
  | EBPF_OP_DIV64_IMM => Some (safe_div64_imm offset imm d)
  | EBPF_OP_DIV64_REG => Some (safe_div64_reg offset s d)
  | EBPF_OP_OR64_IMM => Some (d .| u64 imm)
  | EBPF_OP_OR64_REG => Some (d .| s)
  | EBPF_OP_AND64_IMM => Some (d .& u64 imm)
  | EBPF_OP_AND64_REG => Some (d .& s)
  | EBPF_OP_LSH64_IMM => Some (u64 (d .<< SHIFT_MASK_64_BIT imm))
  | EBPF_OP_LSH64_REG => Some (u64 (d .<< SHIFT_MASK_64_BIT s))
  | EBPF_OP_RSH64_IMM => Some (d .>> SHIFT_MASK_64_BIT imm)
  | EBPF_OP_RSH64_REG => Some (d .>> SHIFT_MASK_64_BIT s)
  | EBPF_OP_NEG64 => Some (u64 (- d))
  | EBPF_OP_MOD64_IMM => Some (safe_mod64_imm offset imm d)
  | EBPF_OP_MOD64_REG => Some (safe_mod64_reg offset s d)
  | EBPF_OP_XOR64_IMM => Some (d .^ u64 imm)
  | EBPF_OP_XOR64_REG => Some (d .^ s)
  | EBPF_OP_MOV64_IMM => Some (u64 imm)
  | EBPF_OP_MOV64_REG =>
      Some (if offset =? 8 then u64 (s8 (u8 s))
            else if offset =? 16 then u64 (s16 (u16 s))
            else if offset =? 32 then u64 (s32 (u32 s))
            else s)
  | EBPF_OP_ARSH64_IMM => Some (u64 (s64 d .>> SHIFT_MASK_64_BIT imm))
  | EBPF_OP_ARSH64_REG => Some (u64 (s64 d .>> SHIFT_MASK_64_BIT s))
  | _ => None
  end.

(** ** Conditions *)

Definition safe_cond_unsigned (op : ebpf_op) (imm d s : Z) : option bool :=
  match op with
  | EBPF_OP_JEQ_IMM => Some (d =? u64 imm)
  | EBPF_OP_JEQ_REG => Some (d =? s)
  | EBPF_OP_JEQ32_IMM => Some (u32 d =? u32 imm)
  | EBPF_OP_JEQ32_REG => Some (u32 d =? u32 s)
  | EBPF_OP_JGT_IMM => Some (u64 imm <? d)
  | EBPF_OP_JGT_REG => Some (s <? d)
  | EBPF_OP_JGT32_IMM => Some (u32 imm <? u32 d)
  | EBPF_OP_JGT32_REG => Some (u32 s <? u32 d)
  | EBPF_OP_JGE_IMM => Some (u64 imm <=? d)
  | EBPF_OP_JGE_REG => Some (s <=? d)
  | EBPF_OP_JGE32_IMM => Some (u32 imm <=? u32 d)
  | EBPF_OP_JGE32_REG => Some (u32 s <=? u32 d)
  | EBPF_OP_JLT_IMM => Some (d <? u64 imm)
  | EBPF_OP_JLT_REG => Some (d <? s)
  | EBPF_OP_JLT32_IMM => Some (u32 d <? u32 imm)
  | EBPF_OP_JLT32_REG => Some (u32 d <? u32 s)
  | EBPF_OP_JLE_IMM => Some (d <=? u64 imm)
  | EBPF_OP_JLE_REG => Some (d <=? s)
  | EBPF_OP_JLE32_IMM => Some (u32 d <=? u32 imm)
  | EBPF_OP_JLE32_REG => Some (u32 d <=? u32 s)
  | EBPF_OP_JSET_IMM => Some (negb (d .& u64 imm =? 0))
  | EBPF_OP_JSET_REG => Some (negb (d .& s =? 0))
  | EBPF_OP_JSET32_IMM => Some (negb (u32 d .& u32 imm =? 0))
  | EBPF_OP_JSET32_REG => Some (negb (u32 d .& u32 s =? 0))
  | EBPF_OP_JNE_IMM => Some (negb (d =? u64 imm))
  | EBPF_OP_JNE_REG => Some (negb (d =? s))
  | EBPF_OP_JNE32_IMM => Some (negb (u32 d =? u32 imm))
  | EBPF_OP_JNE32_REG => Some (negb (u32 d =? u32 s))
  | _ => None
  end.

(** [i32] takes a [uint64_t]: the immediate is first converted to it. *)
Definition safe_cond_signed (op : ebpf_op) (imm d s : Z) : option bool :=
  match op with
  | EBPF_OP_JSGT_IMM => Some (imm <? s64 d)
  | EBPF_OP_JSGT_REG => Some (s64 s <? s64 d)
  | EBPF_OP_JSGT32_IMM => Some (s32 (u64 imm) <? s32 d)
  | EBPF_OP_JSGT32_REG => Some (s32 s <? s32 d)
  | EBPF_OP_JSGE_IMM => Some (imm <=? s64 d)
  | EBPF_OP_JSGE_REG => Some (s64 s <=? s64 d)
  | EBPF_OP_JSGE32_IMM => Some (s32 (u64 imm) <=? s32 d)
  | EBPF_OP_JSGE32_REG => Some (s32 s <=? s32 d)
  | EBPF_OP_JSLT_IMM => Some (s64 d <? imm)
  | EBPF_OP_JSLT_REG => Some (s64 d <? s64 s)
  | EBPF_OP_JSLT32_IMM => Some (s32 d <? s32 (u64 imm))
  | EBPF_OP_JSLT32_REG => Some (s32 d <? s32 s)
  | EBPF_OP_JSLE_IMM => Some (s64 d <=? imm)
  | EBPF_OP_JSLE_REG => Some (s64 d <=? s64 s)
  | EBPF_OP_JSLE32_IMM => Some (s32 d <=? s32 (u64 imm))
  | EBPF_OP_JSLE32_REG => Some (s32 d <=? s32 s)
  | _ => None
  end.

(** The three blocks of arithmetic cases, and the two of jumps. *)
Definition safe_alu (op : ebpf_op) (offset imm d s : Z) : option Z :=
  match safe_alu32 op offset imm d s, safe_endian op imm d with
  | Some v, _ => Some v
  | None, Some v => Some v
  | None, None => safe_alu64 op offset imm d s
  end.

Definition safe_condition (op : ebpf_op) (imm d s : Z) : option bool :=
  match safe_cond_unsigned op imm d s with
  | Some b => Some b
  | None => safe_cond_signed op imm d s
  end.

(** ** Lemmas *)

Lemma imm_s64 imm : signed_fits 32 imm -> s64 imm = imm.
Proof. intros Hi. apply sext_id; [lia | unfold signed_fits in *; lia]. Qed.

Lemma imm_u64_zero imm : signed_fits 32 imm -> (u64 imm =? 0) = (imm =? 0).
Proof.
  intros Hi. pose proof (sext_zero_iff 64 imm ltac:(lia)) as Hz. rewrite (imm_s64 _ Hi) in Hz.
  apply eq_bool_prop_intro. rewrite !Is_true_true, !Z.eqb_eq. by symmetry.
Qed.

(** The remainders and divisions, case by case. *)
Lemma safe_mod32_eq offset d s : safe_mod32 offset d s = mod32 offset d s.
Proof. unfold safe_mod32, mod32. by destruct (offset =? 0), (offset =? 1), (s32 s =? 0). Qed.

Lemma safe_div64_imm_eq offset imm d : signed_fits 32 imm -> safe_div64_imm offset imm d = div64 offset d imm.
Proof. intros Hi. unfold safe_div64_imm, div64. rewrite imm_u64_zero, (imm_s64 imm) by done. done. Qed.

Lemma safe_mod64_imm_eq offset imm d : signed_fits 32 imm -> safe_mod64_imm offset imm d = mod64 offset d imm.
Proof.
  intros Hi. unfold safe_mod64_imm, mod64, safe_smod64. rewrite imm_u64_zero, (imm_s64 imm) by done.
  by destruct (offset =? 0), (offset =? 1), (imm =? 0).
Qed.

Lemma safe_div64_reg_eq offset s d : unsigned_fits 64 s -> safe_div64_reg offset s d = div64 offset d s.
Proof. intros Hs. unfold safe_div64_reg, div64. by rewrite (wrap_id 64 s Hs). Qed.

Lemma safe_mod64_reg_eq offset s d : unsigned_fits 64 s -> safe_mod64_reg offset s d = mod64 offset d s.
Proof.
  intros Hs. unfold safe_mod64_reg, mod64, safe_smod64. rewrite (wrap_id 64 s Hs).
  by destruct (offset =? 0), (offset =? 1), (s64 s =? 0).
Qed.

(** What the other interpreter computes, in one function. *)
Definition legacy_alu (op : ebpf_op) (offset imm d s : Z) : option Z :=
  match exec_alu op offset imm d s with
  | Some v => Some v
  | None => exec_endian op imm d
  end.

Lemma safe_alu_eq op offset imm d s :
  signed_fits 32 imm -> unsigned_fits 64 s -> safe_alu op offset imm d s = legacy_alu op offset imm d s.
Proof.
  intros Hi Hs. destruct op; try reflexivity;
    unfold safe_alu, legacy_alu, exec_alu, exec_alu32, safe_endian;
    cbn [safe_alu32 safe_alu64 alu32_first alu32_second exec_alu64]; f_equal;
    auto using safe_mod32_eq, safe_div64_imm_eq, safe_mod64_imm_eq, safe_div64_reg_eq, safe_mod64_reg_eq.
Qed.

Lemma safe_condition_eq op imm d s : safe_condition op imm d s = exec_condition op imm d s.
Proof.
  destruct op; try reflexivity;
    unfold safe_condition, exec_condition; cbn [safe_cond_unsigned safe_cond_signed cond_unsigned cond_signed];
    by rewrite sext_wrap_le.
Qed.

Lemma safe_alu_fits op offset imm d s v :
  signed_fits 32 imm -> unsigned_fits 64 d -> unsigned_fits 64 s -> offset_ok op offset ->
  safe_alu op offset imm d s = Some v -> 0 <= v < 2 ^ 64.
Proof.
  intros Hi Hd Hs Ho. rewrite safe_alu_eq by done. unfold legacy_alu.
  destruct (exec_alu _ _ _ _ _) eqn:E; [intros [= <-]; by eapply exec_alu_fits |].
  intros He. by eapply exec_endian_fits.
Qed.

(** ** Properties *)

(** The two interpreters compute the same: for every opcode, every immediate an
    instruction can hold and every register contents, the safe interpreter's
    arithmetic, byte swaps and jump conditions give the result of the legacy
    interpreter's, and cover the same opcodes. *)
Theorem safe_alu_agrees (op : ebpf_op) (offset imm d s : Z) :
  signed_fits 32 imm -> unsigned_fits 64 s ->
  safe_alu op offset imm d s = legacy_alu op offset imm d s /\
  safe_condition op imm d s = exec_condition op imm d s.
Proof. intros. split; [by apply safe_alu_eq | apply safe_condition_eq]. Qed.

Lemma safe_alu_agrees_witness :
  safe_alu EBPF_OP_MOD64_IMM 1 (-3) 0xfffffffffffffff9 0 = Some 0xffffffffffffffff.
Proof.
  rewrite (proj1 (safe_alu_agrees EBPF_OP_MOD64_IMM 1 (-3) 0xfffffffffffffff9 0
    ltac:(unfold signed_fits; lia) ltac:(unfold unsigned_fits; lia))).
  vm_compute. reflexivity.
Defined.
