(* ===== verification/SafeTags.v ===== *)
(** * SafeTags: tags, checked accesses and region tables of the safe profile (vm/ubpf_safe.c)

    Every register of the safe interpreter carries a tag: scalar, pointer into
    one region, or opaque handle.  The checked access through a tag, the tags of
    arithmetic results, the spill slots, and the tables of helpers and regions
    with their registration. *)

From Stdlib Require Import ZArith Lia Bool.
From stdpp Require Import base list gmap strings numbers.
From S2P Require Import Prelude Ebpf Mem Vm Checks.

Local Open Scope Z_scope.
Local Open Scope cbits_scope.

(** ** Constants *)

Definition UBPF_SAFE_REGION_READ : Z := 1.
Definition UBPF_SAFE_REGION_WRITE : Z := 2.
Definition UBPF_SAFE_REGION_ATOMIC : Z := 4.
Definition UBPF_SAFE_REGION_ID_INPUT : Z := 0xfffffffe.
Definition UBPF_SAFE_REGION_ID_STACK : Z := 0xffffffff.
Definition UBPF_SAFE_REGION_PERMISSIONS_MASK : Z :=
  UBPF_SAFE_REGION_READ .| UBPF_SAFE_REGION_WRITE .| UBPF_SAFE_REGION_ATOMIC.
Definition UBPF_SAFE_STACK_ADDRESS_SLACK : Z := INT16_MAX.

(** ** Tags *)

Inductive ubpf_safe_value_kind : Type :=
| UBPF_SAFE_VALUE_SCALAR
| UBPF_SAFE_VALUE_POINTER
| UBPF_SAFE_VALUE_HANDLE.

Record ubpf_safe_tag : Type := SafeTag {
  tag_kind : ubpf_safe_value_kind;
  tag_region_id : Z;  (* uint32_t *)
  tag_permissions : Z;  (* uint32_t *)
  tag_base : Z;  (* uint64_t *)
  tag_size : Z;  (* uint64_t *)
}.

Record ubpf_safe_spill_slot : Type := SpillSlot {
  spill_valid : bool;
  spill_tag : ubpf_safe_tag;
}.

Record ubpf_safe_frame_state : Type := SafeFrame {
  saved_register_tags : list ubpf_safe_tag;  (* 4 of them *)
}.

#[export] Instance value_kind_eq_dec : EqDecision ubpf_safe_value_kind.
Proof. solve_decision. Defined.
#[export] Instance safe_tag_eq_dec : EqDecision ubpf_safe_tag.
Proof. solve_decision. Defined.

Definition is_kind (k : ubpf_safe_value_kind) (t : ubpf_safe_tag) : bool := bool_decide (t.(tag_kind) = k).

Definition ubpf_safe_scalar_tag : ubpf_safe_tag := SafeTag UBPF_SAFE_VALUE_SCALAR 0 0 0 0.
Definition ubpf_safe_pointer_tag (region_id permissions base size : Z) : ubpf_safe_tag :=
  SafeTag UBPF_SAFE_VALUE_POINTER region_id permissions base size.
Definition ubpf_safe_handle_tag (region_id permissions base size : Z) : ubpf_safe_tag :=
  SafeTag UBPF_SAFE_VALUE_HANDLE region_id permissions base size.

(** The first slot in use with the id. *)
Definition ubpf_safe_find_region_by_id (vm : ubpf_vm) (region_id : Z) : option ubpf_safe_region_internal :=
  find (fun r => r.(region_in_use) && (r.(slot_id) =? region_id)) vm.(safe_regions).

Definition ubpf_safe_is_stack_pointer (tag : ubpf_safe_tag) (stack_start stack_length : Z) : bool :=
  is_kind UBPF_SAFE_VALUE_POINTER tag && (tag.(tag_region_id) =? UBPF_SAFE_REGION_ID_STACK) &&
  (tag.(tag_base) =? stack_start) && (tag.(tag_size) =? stack_length).

(** ** The checked access *)

(** The second half of the check: the effective address against the region. *)
Definition check_region (tag : ubpf_safe_tag) (access_size cur_pc effective_address : Z) : result Z exec_error :=
  let fail e := Err (SafeMode e cur_pc) in
  if UINT64_MAX - tag.(tag_size) <? tag.(tag_base) then fail InvalidRegion
  else
    let region_end := tag.(tag_base) + tag.(tag_size) in
    if (effective_address <? tag.(tag_base)) || (region_end <? effective_address) then fail OutsideRegion
    else if (tag.(tag_size) <? access_size) || (region_end - access_size <? effective_address)
    then fail OverrunsRegion
    else Ok effective_address.

(** The effective address of an access of [access_size] bytes through a register
    with this tag, or the error reported. *)
Definition ubpf_safe_compute_access (tag : ubpf_safe_tag) (current_address offset access_size cur_pc
    required_permissions : Z) : result Z exec_error :=
  let fail e := Err (SafeMode e cur_pc) in
  if negb (is_kind UBPF_SAFE_VALUE_POINTER tag) then fail RequiresPointer
  else if negb (tag.(tag_permissions) .& required_permissions =? required_permissions) then fail NotPermitted
  else if 0 <=? offset then
    if UINT64_MAX - offset <? current_address then fail OffsetOverflow
    else check_region tag access_size cur_pc (u64 (current_address + offset))
  else
    let offset_u64 := u64 (- offset) in
    if current_address <? offset_u64 then fail OffsetUnderflow
    else check_region tag access_size cur_pc (u64 (current_address - offset_u64)).

(** [for (slot = first; slot <= last; slot++) spill_slots[slot].valid = false;]
    [None] is a slot outside the array. *)
Fixpoint invalidate_slots (spill_slots : list ubpf_safe_spill_slot) (slot : Z) (n : nat)
    : option (list ubpf_safe_spill_slot) :=
  match n with
  | O => Some spill_slots
  | S n' =>
      match spill_slots !! Z.to_nat slot with
      | Some s => invalidate_slots (<[Z.to_nat slot := SpillSlot false s.(spill_tag)]> spill_slots) (slot + 1) n'
      | None => None
      end
  end.

Definition ubpf_safe_invalidate_stack_spill_tags (spill_slots : list ubpf_safe_spill_slot)
    (stack_start stack_length address size : Z) : option (list ubpf_safe_spill_slot) :=
  let stack_end := u64 (stack_start + stack_length) in
  let access_end := u64 (address + size) in
  if (address <? stack_start) || (access_end <? address) || (stack_end <? access_end) then Some spill_slots
  else
    let first_slot := (address - stack_start) / 8 in
    let last_slot := u64 (access_end - 1 - stack_start) / 8 in
    invalidate_slots spill_slots first_slot (Z.to_nat (last_slot - first_slot + 1)).

(** ** Tags of arithmetic results *)

Definition ubpf_safe_apply_pointer_offset (pointer_tag : ubpf_safe_tag) (res cur_pc : Z)
    : result ubpf_safe_tag exec_error :=
  if UINT64_MAX - pointer_tag.(tag_size) <? pointer_tag.(tag_base) then Err (SafeMode InvalidRegion cur_pc)
  else
    let region_end := pointer_tag.(tag_base) + pointer_tag.(tag_size) in
    let on_stack := pointer_tag.(tag_region_id) =? UBPF_SAFE_REGION_ID_STACK in
    let lower_bound :=
      if on_stack then
        if UBPF_SAFE_STACK_ADDRESS_SLACK <? pointer_tag.(tag_base)
        then pointer_tag.(tag_base) - UBPF_SAFE_STACK_ADDRESS_SLACK else 0
      else pointer_tag.(tag_base) in
    let upper_bound :=
      if on_stack then
        if UINT64_MAX - UBPF_SAFE_STACK_ADDRESS_SLACK <? region_end
        then UINT64_MAX else region_end + UBPF_SAFE_STACK_ADDRESS_SLACK
      else region_end in
    if (res <? lower_bound) || (upper_bound <? res) then Err (SafeMode PointerEscaped cur_pc)
    else Ok pointer_tag.

(** The operations of the group [NEG, MUL, ..., END] of the switch. *)
Definition scalar_only_op (op : Z) : bool :=
  existsb (Z.eqb op)
    [EBPF_ALU_OP_NEG; EBPF_ALU_OP_MUL; EBPF_ALU_OP_DIV; EBPF_ALU_OP_OR; EBPF_ALU_OP_AND; EBPF_ALU_OP_LSH;
     EBPF_ALU_OP_RSH; EBPF_ALU_OP_MOD; EBPF_ALU_OP_XOR; EBPF_ALU_OP_ARSH; EBPF_ALU_OP_END].

(** The tag of the destination after an arithmetic instruction. *)
Definition ubpf_safe_apply_alu (inst : ebpf_inst) (cur_pc : Z) (dst_before src_before : ubpf_safe_tag) (res : Z)
    : result ubpf_safe_tag exec_error :=
  let is_32bit := inst.(opcode) .& EBPF_CLS_MASK =? EBPF_CLS_ALU in
  let is_reg := inst.(opcode) .& EBPF_SRC_REG =? EBPF_SRC_REG in
  let op := inst.(opcode) .& EBPF_ALU_OP_MASK in
  let fail e := Err (SafeMode e cur_pc) in
  let dst_is k := is_kind k dst_before in
  let src_is k := is_kind k src_before in
  if is_32bit then Ok ubpf_safe_scalar_tag
  else if op =? EBPF_ALU_OP_MOV then
    if is_reg then
      if negb (inst.(offset) =? 0) && negb (src_is UBPF_SAFE_VALUE_SCALAR) then fail SignExtendsPointer
      else Ok (if inst.(offset) =? 0 then src_before else ubpf_safe_scalar_tag)
    else Ok ubpf_safe_scalar_tag
  else if op =? EBPF_ALU_OP_ADD then
    if negb is_reg then
      if dst_is UBPF_SAFE_VALUE_POINTER then ubpf_safe_apply_pointer_offset dst_before res cur_pc
      else if negb (dst_is UBPF_SAFE_VALUE_SCALAR) then fail InvalidAddOperand
      else Ok ubpf_safe_scalar_tag
    else if dst_is UBPF_SAFE_VALUE_POINTER && src_is UBPF_SAFE_VALUE_SCALAR
    then ubpf_safe_apply_pointer_offset dst_before res cur_pc
    else if dst_is UBPF_SAFE_VALUE_SCALAR && src_is UBPF_SAFE_VALUE_POINTER
    then ubpf_safe_apply_pointer_offset src_before res cur_pc
    else if dst_is UBPF_SAFE_VALUE_SCALAR && src_is UBPF_SAFE_VALUE_SCALAR then Ok ubpf_safe_scalar_tag
    else fail InvalidAddOperand
  else if op =? EBPF_ALU_OP_SUB then
    if negb is_reg then
      if dst_is UBPF_SAFE_VALUE_POINTER then ubpf_safe_apply_pointer_offset dst_before res cur_pc
      else if negb (dst_is UBPF_SAFE_VALUE_SCALAR) then fail InvalidSubOperand
      else Ok ubpf_safe_scalar_tag
    else if dst_is UBPF_SAFE_VALUE_POINTER && src_is UBPF_SAFE_VALUE_SCALAR
    then ubpf_safe_apply_pointer_offset dst_before res cur_pc
    else if dst_is UBPF_SAFE_VALUE_POINTER && src_is UBPF_SAFE_VALUE_POINTER &&
            (dst_before.(tag_region_id) =? src_before.(tag_region_id)) then Ok ubpf_safe_scalar_tag
    else if dst_is UBPF_SAFE_VALUE_SCALAR && src_is UBPF_SAFE_VALUE_SCALAR then Ok ubpf_safe_scalar_tag
    else fail InvalidSubOperand
  else if scalar_only_op op then
    if negb (dst_is UBPF_SAFE_VALUE_SCALAR) || (is_reg && negb (src_is UBPF_SAFE_VALUE_SCALAR))
    then fail ScalarOperandsRequired
    else Ok ubpf_safe_scalar_tag
  else Ok ubpf_safe_scalar_tag.

(** ** Registration *)

(** [struct ubpf_safe_helper_descriptor]; the enum is any integer the caller passes. *)
Record ubpf_safe_helper_descriptor : Type := HelperDescriptor {
  hd_index : Z;  (* unsigned int *)
  hd_name : option string;
  hd_fn : Z;  (* function pointer *)
  hd_result_kind : Z;
  hd_region_id : Z;  (* uint32_t *)
  hd_region_size : Z;  (* uint64_t *)
}.

Definition result_kind_of (k : Z) : option ubpf_safe_helper_result_kind :=
  if k =? 0 then Some UBPF_SAFE_HELPER_RESULT_SCALAR
  else if k =? 1 then Some UBPF_SAFE_HELPER_RESULT_POINTER
  else if k =? 2 then Some UBPF_SAFE_HELPER_RESULT_HANDLE
  else None.

Definition reserved_region_id (id : Z) : bool :=
  (id =? UBPF_SAFE_REGION_ID_INPUT) || (id =? UBPF_SAFE_REGION_ID_STACK).

Definition ubpf_register_safe_helper_impl (vm : ubpf_vm) (mprotect : Z -> Z -> prot -> bool)
    (descriptor : option ubpf_safe_helper_descriptor) : ubpf_vm * Z :=
  match descriptor with
  | None => (vm, -1)
  | Some d =>
      if (MAX_EXT_FUNCS <=? d.(hd_index)) || (d.(hd_fn) =? 0) then (vm, -1) else
      match result_kind_of d.(hd_result_kind) with
      | None => (vm, -1)
      | Some k =>
          let points := negb (bool_decide (k = UBPF_SAFE_HELPER_RESULT_SCALAR)) in
          if points && (d.(hd_region_size) =? 0) then (vm, -1)
          else if points && reserved_region_id d.(hd_region_id) then (vm, -1)
          else
            let '(vm, r) := ubpf_register vm mprotect d.(hd_index) d.(hd_name) d.(hd_fn) in
            if negb (r =? 0) then (vm, -1)
            else (set_safe_helpers
                    (<[Z.to_nat d.(hd_index) := SafeHelper true k d.(hd_region_id) d.(hd_region_size)]>
                       vm.(safe_helpers)) vm, 0)
      end
  end.

Record ubpf_safe_region : Type := SafeRegion {
  sr_id : Z;  (* uint32_t *)
  sr_base : Z;
  sr_size : Z;  (* uint64_t *)
  sr_kind : Z;  (* enum ubpf_safe_region_kind, any integer *)
  sr_permissions : Z;  (* uint32_t *)
}.

Definition region_kind_of (k : Z) : option ubpf_safe_region_kind :=
  if k =? 0 then Some UBPF_SAFE_REGION_POINTER
  else if k =? 1 then Some UBPF_SAFE_REGION_HANDLE
  else None.

(** The loop over the table: the slot in use with this id, else the first free one. *)
Fixpoint region_slot (slots : list ubpf_safe_region_internal) (i : nat) (slot : option nat) (id : Z)
    : option nat :=
  match slots with
  | [] => slot
  | r :: slots' =>
      if r.(region_in_use) && (r.(slot_id) =? id) then Some i
      else region_slot slots' (S i)
             (if negb r.(region_in_use) then match slot with None => Some i | s => s end else slot) id
  end.

Definition ubpf_register_safe_region_impl (vm : ubpf_vm) (region : option ubpf_safe_region) : ubpf_vm * Z :=
  match region with
  | None => (vm, -1)
  | Some r =>
      match region_kind_of r.(sr_kind) with
      | None => (vm, -1)
      | Some k =>
          if reserved_region_id r.(sr_id) then (vm, -1)
          else if (r.(sr_size) =? 0) || (r.(sr_base) =? 0) then (vm, -1)
          else if negb (r.(sr_permissions) .& Z.lnot UBPF_SAFE_REGION_PERMISSIONS_MASK =? 0) then (vm, -1)
          else
            let end_ := u64 (r.(sr_base) + r.(sr_size)) in
            if end_ <? r.(sr_base) then (vm, -1)
            else
              match region_slot vm.(safe_regions) 0 None r.(sr_id) with
              | None => (vm, -1)
              | Some i =>
                  (set_safe_regions
                     (<[i := SafeRegionSlot true r.(sr_id) r.(sr_base) end_ k r.(sr_permissions)]>
                        vm.(safe_regions)) vm, 0)
              end
      end
  end.

(** ** Invariant of the tables *)

Definition region_matches (id : Z) (r : ubpf_safe_region_internal) : bool :=
  r.(region_in_use) && (r.(slot_id) =? id).

Definition region_ok (r : ubpf_safe_region_internal) : Prop :=
  r.(region_in_use) = true ->
  reserved_region_id r.(slot_id) = false /\ 0 < r.(slot_base) /\ r.(slot_base) < r.(slot_end) /\
  r.(slot_end) <= UINT64_MAX /\ r.(slot_permissions) .& Z.lnot UBPF_SAFE_REGION_PERMISSIONS_MASK = 0.

Definition helper_ok (h : ubpf_safe_helper_metadata) : Prop :=
  h.(helper_in_use) = true -> h.(helper_result_kind) <> UBPF_SAFE_HELPER_RESULT_SCALAR ->
  0 < h.(helper_region_size) < 2 ^ 64 /\ reserved_region_id h.(helper_region_id) = false.

Record safe_tables_ok (vm : ubpf_vm) : Prop := SafeTablesOk {
  tb_regions_length : length vm.(safe_regions) = Z.to_nat UBPF_MAX_SAFE_REGIONS;
  tb_helpers_length : length vm.(safe_helpers) = Z.to_nat MAX_EXT_FUNCS;
  tb_regions : Forall region_ok vm.(safe_regions);
  tb_unique : forall i j r r', vm.(safe_regions) !! i = Some r -> vm.(safe_regions) !! j = Some r' ->
    r.(region_in_use) = true -> r'.(region_in_use) = true -> r.(slot_id) = r'.(slot_id) -> i = j;
  tb_helpers : Forall helper_ok vm.(safe_helpers);
}.

(** What [ubpf_register_safe_region] accepts. *)
Definition acceptable_region (r : ubpf_safe_region) : bool :=
  bool_decide (is_Some (region_kind_of r.(sr_kind))) && negb (reserved_region_id r.(sr_id)) &&
  negb (r.(sr_size) =? 0) && negb (r.(sr_base) =? 0) &&
  (r.(sr_permissions) .& Z.lnot UBPF_SAFE_REGION_PERMISSIONS_MASK =? 0) &&
  (r.(sr_base) + r.(sr_size) <=? UINT64_MAX).

(** A slot for the id: its own, or a free one. *)
Definition has_slot (slots : list ubpf_safe_region_internal) (id : Z) : bool :=
  existsb (fun r => region_matches id r || negb r.(region_in_use)) slots.

(** The descriptor's fields are machine words. *)
Definition region_fits (r : ubpf_safe_region) : Prop := unsigned_fits 64 r.(sr_base) /\ unsigned_fits 64 r.(sr_size).

(** ** Lemmas: tables *)

Lemma find_insert_first (p : ubpf_safe_region_internal -> bool) slots j r0 r1 :
  slots !! j = Some r0 -> (forall k r, (k < j)%nat -> slots !! k = Some r -> p r = false) -> p r1 = true ->
  find p (<[j := r1]> slots) = Some r1.
Proof.
  revert j. induction slots as [| r slots IH]; intros j Hj Hlt H1; [by destruct j |].
  destruct j as [| j]; cbn.
  - by rewrite H1.
  - rewrite (Hlt 0%nat r) by (lia || done). apply IH; [done | | done].
    intros k r' Hk Hr'. apply (Hlt (S k) r'); [lia | done].
Qed.

Lemma find_insert_other (p : ubpf_safe_region_internal -> bool) slots j r0 r1 :
  slots !! j = Some r0 -> p r0 = false -> p r1 = false -> find p (<[j := r1]> slots) = find p slots.
Proof.
  revert j. induction slots as [| r slots IH]; intros j Hj H0 H1; [by destruct j |].
  destruct j as [| j]; cbn in Hj.
  - injection Hj as ->. cbn. by rewrite H0, H1.
  - change (find p (r :: <[j := r1]> slots) = find p (r :: slots)). cbn [find]. by rewrite (IH j).
Qed.

(** The slot the loop settles on. *)
Lemma region_slot_spec slots i s id j :
  region_slot slots i s id = Some j ->
  (exists k r, j = (i + k)%nat /\ slots !! k = Some r /\ region_matches id r = true /\
     forall k' r', (k' < k)%nat -> slots !! k' = Some r' -> region_matches id r' = false) \/
  (Forall (fun r => region_matches id r = false) slots /\
   (s = Some j \/ (s = None /\ exists k r, j = (i + k)%nat /\ slots !! k = Some r /\ r.(region_in_use) = false))).
Proof.
  revert i s. induction slots as [| r slots IH]; intros i s; cbn; [intros ->; right; split; [constructor | by left] |].
  fold (region_matches id r). destruct (region_matches id r) eqn:Hm.
  { intros [= <-]. left. exists 0%nat, r. rewrite Nat.add_0_r. repeat split; [done ..|]. intros. lia. }
  intros Hj. apply IH in Hj as [(k & r' & -> & Hk & Hr' & Hlt) | (Hall & Hj)].
  - left. exists (S k), r'. split; [lia |]. split; [done |]. split; [done |].
    intros [| k'] r'' Hk' Hr''; [by injection Hr'' as <- |]. apply (Hlt k' r''); [lia | done].
  - right. split; [by constructor |].
    assert (forall k r', slots !! k = Some r' -> (r :: slots) !! S k = Some r') as Hshift by done.
    destruct Hj as [Hj | (Hj & k & r' & -> & Hk & Hr')].
    + destruct (region_in_use r) eqn:Hu; cbn in Hj; [by left |].
      destruct s; [by left |]. injection Hj as <-. right. split; [done |].
      exists 0%nat, r. rewrite Nat.add_0_r. by repeat split.
    + destruct (region_in_use r), s; cbn in Hj; try done; right; (split; [done |]);
        exists (S k), r'; (split; [lia |]; split; [by apply Hshift | done]).
Qed.

Lemma region_slot_some slots i s id :
  is_Some (region_slot slots i s id) <-> is_Some s \/ has_slot slots id = true.
Proof.
  revert i s. induction slots as [| r slots IH]; intros i s; cbn.
  - split; [by left |]. by intros [? |].
  - fold (region_matches id r). destruct (region_matches id r) eqn:Hm; cbn.
    + split; [by right | by eexists].
    + rewrite IH. destruct (region_in_use r), s; cbn; naive_solver.
Qed.

(** Writing a slot that belongs to the id, or to nobody, keeps the ids unique. *)
Lemma unique_insert (slots : list ubpf_safe_region_internal) (j : nat) (r0 r1 : ubpf_safe_region_internal) :
  slots !! j = Some r0 ->
  (forall i r, slots !! i = Some r -> region_matches r1.(slot_id) r = true -> i = j) ->
  (forall i k r r', slots !! i = Some r -> slots !! k = Some r' -> r.(region_in_use) = true ->
     r'.(region_in_use) = true -> r.(slot_id) = r'.(slot_id) -> i = k) ->
  forall i k r r', <[j := r1]> slots !! i = Some r -> <[j := r1]> slots !! k = Some r' ->
    r.(region_in_use) = true -> r'.(region_in_use) = true -> r.(slot_id) = r'.(slot_id) -> i = k.
Proof.
  intros Hj Hown Huniq.
  assert (forall i r, slots !! i = Some r -> r.(region_in_use) = true -> r.(slot_id) = r1.(slot_id) -> i = j) as Hown'.
  { intros i r Hi Hu Hid. apply (Hown i r Hi). unfold region_matches. by rewrite Hu, Hid, Z.eqb_refl. }
  intros i k r r' Hi Hk Hu Hu' Hid.
  rewrite list_lookup_insert_Some in Hi, Hk.
  destruct Hi as [(? & ? & ?) | (? & Hi)], Hk as [(? & ? & ?) | (? & Hk)]; subst.
  - done.
  - symmetry. by apply (Hown' k r').
  - by apply (Hown' i r).
  - by apply (Huniq i k r r').
Qed.

Lemma end_of_region r :
  region_fits r -> r.(sr_size) <> 0 ->
  (u64 (r.(sr_base) + r.(sr_size)) <? r.(sr_base)) = negb (r.(sr_base) + r.(sr_size) <=? UINT64_MAX).
Proof.
  unfold region_fits, unsigned_fits. intros [Hb Hs] H0.
  destruct (Z.leb_spec (sr_base r + sr_size r) UINT64_MAX); cbn [negb]; unfold UINT64_MAX in *.
  - rewrite wrap_id by lia. apply Z.ltb_ge. lia.
  - apply Z.ltb_lt. replace (sr_base r + sr_size r) with (sr_base r + sr_size r - 2 ^ 64 + 1 * 2 ^ 64) by lia.
    unfold wrap. rewrite Z.mod_add, Z.mod_small by lia. lia.
Qed.

(** The slot that [ubpf_register_safe_region] fills in. *)
Definition region_entry (r : ubpf_safe_region) (k : ubpf_safe_region_kind) : ubpf_safe_region_internal :=
  SafeRegionSlot true r.(sr_id) r.(sr_base) (r.(sr_base) + r.(sr_size)) k r.(sr_permissions).

(** The call in one equation. *)
Lemma register_region_eq vm r :
  region_fits r ->
  ubpf_register_safe_region_impl vm (Some r) =
  match region_kind_of r.(sr_kind), region_slot vm.(safe_regions) 0 None r.(sr_id) with
  | Some k, Some i =>
      if acceptable_region r then (set_safe_regions (<[i := region_entry r k]> vm.(safe_regions)) vm, 0)
      else (vm, -1)
  | _, _ => (vm, -1)
  end.
Proof.
  intros Hf. unfold ubpf_register_safe_region_impl, acceptable_region.
  destruct (region_kind_of (sr_kind r)) as [k |]; [| done].
  rewrite bool_decide_eq_true_2 by eauto. cbn [andb].
  destruct (reserved_region_id (sr_id r)); cbn [negb andb]; [by destruct (region_slot _ _ _ _) |].
  destruct (Z.eqb_spec (sr_size r) 0) as [| Hs]; cbn [orb negb andb]; [by destruct (region_slot _ _ _ _) |].
  destruct (Z.eqb_spec (sr_base r) 0) as [| Hb]; cbn [negb andb]; [by destruct (region_slot _ _ _ _) |].
  destruct (_ .& _ =? 0); cbn [negb andb]; [| by destruct (region_slot _ _ _ _)].
  rewrite end_of_region by done.
  destruct (Z.leb_spec (sr_base r + sr_size r) UINT64_MAX) as [He |]; cbn [negb];
    [| by destruct (region_slot _ _ _ _)].
  destruct (region_slot _ _ _ _) as [i |]; [| done].
  unfold region_entry. destruct Hf as [Hfb Hfs]. unfold unsigned_fits, UINT64_MAX in *. by rewrite wrap_id by lia.
Qed.

Lemma acceptable_entry_ok r k : region_fits r -> acceptable_region r = true -> region_ok (region_entry r k).
Proof.
  unfold acceptable_region. rewrite !andb_true_iff, !negb_true_iff, !Z.eqb_neq, Z.eqb_eq, Z.leb_le.
  intros [[Hb _] [Hs _]] (((((_ & Hid) & Hs0) & Hb0) & Hp) & He) _. cbn. repeat split; (done || lia).
Qed.

(** Where the entry goes: the slot already used for the id, or a free slot of a
    table in which the id does not occur. *)
Lemma region_slot_owner vm id j :
  safe_tables_ok vm -> region_slot vm.(safe_regions) 0 None id = Some j ->
  exists r0, vm.(safe_regions) !! j = Some r0 /\
    (forall i r, vm.(safe_regions) !! i = Some r -> region_matches id r = true -> i = j) /\
    (forall id', id' <> id -> region_matches id' r0 = false).
Proof.
  intros Htab Hj. apply region_slot_spec in Hj as [(k & r & -> & Hk & Hm & _) | (Hall & [? | (_ & k & r & -> & Hk & Hu)])];
    [| done |]; exists r; (split; [exact Hk |]); split.
  - intros i r' Hi Hm'. apply andb_true_iff in Hm as [Hu Hid], Hm' as [Hu' Hid']. apply Z.eqb_eq in Hid, Hid'.
    apply (tb_unique _ Htab i k r' r Hi Hk Hu' Hu). congruence.
  - intros id' Hne. apply andb_true_iff in Hm as [_ Hid]. apply Z.eqb_eq in Hid. unfold region_matches.
    rewrite Hid. apply andb_false_iff. right. by apply Z.eqb_neq.
  - intros i r' Hi Hm'. rewrite (Forall_lookup_1 _ _ _ _ Hall Hi) in Hm'. done.
  - intros id' _. unfold region_matches. by rewrite Hu.
Qed.

Lemma find_region_unfold vm id : ubpf_safe_find_region_by_id vm id = find (region_matches id) vm.(safe_regions).
Proof. done. Qed.

Lemma register_region_tables vm r k j :
  safe_tables_ok vm -> region_fits r -> acceptable_region r = true ->
  region_slot vm.(safe_regions) 0 None r.(sr_id) = Some j ->
  safe_tables_ok (set_safe_regions (<[j := region_entry r k]> vm.(safe_regions)) vm).
Proof.
  intros Htab Hf Ha Hj. destruct (region_slot_owner vm _ _ Htab Hj) as (r0 & Hr0 & Hown & _).
  constructor; cbn [safe_regions safe_helpers set_safe_regions].
  - rewrite length_insert. apply Htab.
  - apply Htab.
  - apply Forall_insert; [apply Htab | by apply acceptable_entry_ok].
  - apply (unique_insert _ _ r0); [done | done | apply Htab].
  - apply Htab.
Qed.

Lemma create_tables_ok target : safe_tables_ok (zeroed_vm target).
Proof.
  constructor; cbn -[replicate]; try done.
  - apply Forall_replicate. discriminate.
  - intros i j r r' Hi _ Hu. apply lookup_replicate in Hi as [-> _]. discriminate.
  - apply Forall_replicate. discriminate.
Qed.

Lemma ubpf_create_tables_ok target alloc vm : ubpf_create target alloc = Some vm -> safe_tables_ok vm.
Proof.
  intros Hc. destruct (create_tables_ok target). unfold ubpf_create in Hc.
  repeat (case_match; [discriminate |]). injection Hc as <-. by constructor.
Qed.

(** Registering a function leaves the tables of the safe profile alone. *)
Lemma register_keeps_tables vm mprotect idx name fn vm' r :
  ubpf_register vm mprotect idx name fn = (vm', r) ->
  vm'.(safe_regions) = vm.(safe_regions) /\ vm'.(safe_helpers) = vm.(safe_helpers).
Proof.
  unfold ubpf_register, update_jitted. repeat case_match; intros [= <- _]; simplify_eq; done.
Qed.

(** Registering a helper keeps the tables well formed, whatever the descriptor. *)
Lemma register_helper_tables vm mprotect d :
  (forall x, d = Some x -> unsigned_fits 64 x.(hd_region_size)) -> safe_tables_ok vm ->
  safe_tables_ok (ubpf_register_safe_helper_impl vm mprotect d).1.
Proof.
  intros Hd Htab. unfold ubpf_register_safe_helper_impl. destruct d as [x |]; [| done].
  destruct (_ || _); [done |]. destruct (result_kind_of _) as [k |]; [| done].
  case_bool_decide as Hk; cbn [negb andb].
  - destruct (ubpf_register _ _ _ _ _) as [vm1 r] eqn:E. apply register_keeps_tables in E as [Er Eh].
    destruct Htab. destruct (negb _); constructor; cbn; rewrite ?Er, ?Eh, ?length_insert; try done.
    apply Forall_insert; [done |]. intros _ Hne. by destruct Hne.
  - destruct (Z.eqb_spec (hd_region_size x) 0); [done |]. destruct (reserved_region_id _) eqn:Hres; [done |].
    destruct (ubpf_register _ _ _ _ _) as [vm1 r] eqn:E. apply register_keeps_tables in E as [Er Eh].
    destruct Htab. destruct (negb _); constructor; cbn; rewrite ?Er, ?Eh, ?length_insert; try done.
    apply Forall_insert; [done |]. intros _ _. split; [| done].
    specialize (Hd x eq_refl). unfold unsigned_fits in Hd. cbn. lia.
Qed.

(** ** Lemmas: the checked access *)

Definition pointer_tag_fits (t : ubpf_safe_tag) : Prop := 0 <= t.(tag_base) /\ 0 <= t.(tag_size).

(** What a passed check says. *)
Definition access_granted (t : ubpf_safe_tag) (a size required : Z) : Prop :=
  t.(tag_kind) = UBPF_SAFE_VALUE_POINTER /\ t.(tag_permissions) .& required = required /\
  t.(tag_base) <= a /\ a + size <= t.(tag_base) + t.(tag_size) /\ t.(tag_base) + t.(tag_size) <= UINT64_MAX.

Lemma check_region_iff t size pc e a :
  0 <= e -> 0 <= size -> pointer_tag_fits t ->
  check_region t size pc e = Ok a <->
  a = e /\ t.(tag_base) <= e /\ e + size <= t.(tag_base) + t.(tag_size) /\
  t.(tag_base) + t.(tag_size) <= UINT64_MAX.
Proof.
  intros He Hsize [Hb Hs]. unfold check_region.
  destruct (Z.ltb_spec (UINT64_MAX - tag_size t) (tag_base t)); [split; [discriminate | lia] |].
  destruct (Z.ltb_spec e (tag_base t)); cbn [orb]; [split; [discriminate | lia] |].
  destruct (Z.ltb_spec (tag_base t + tag_size t) e); [split; [discriminate | lia] |].
  destruct (Z.ltb_spec (tag_size t) size); cbn [orb]; [split; [discriminate | lia] |].
  destruct (Z.ltb_spec (tag_base t + tag_size t - size) e); [split; [discriminate | lia] |].
  split; [intros [= ->]; lia | by intros (-> & _)].
Qed.

Lemma compute_access_iff t cur offset size pc required a :
  unsigned_fits 64 cur -> signed_fits 16 offset -> pointer_tag_fits t -> 0 <= size ->
  ubpf_safe_compute_access t cur offset size pc required = Ok a <->
  a = cur + offset /\ 0 <= a <= UINT64_MAX /\ access_granted t a size required.
Proof.
  unfold unsigned_fits, signed_fits, access_granted, ubpf_safe_compute_access, is_kind.
  intros Hc Ho Ht Hsize.
  case_bool_decide as Hk; cbn [negb]; [| split; [discriminate | tauto]].
  destruct (Z.eqb_spec (tag_permissions t .& required) required) as [Hp | Hp]; cbn [negb];
    [| split; [discriminate | tauto]].
  destruct (Z.leb_spec 0 offset).
  - destruct (Z.ltb_spec (UINT64_MAX - offset) cur); [split; [discriminate | lia] |]. unfold UINT64_MAX in *.
    rewrite wrap_id, check_region_iff by (done || lia). unfold UINT64_MAX in *. intuition lia.
  - rewrite (wrap_id 64 (- offset)) by lia.
    destruct (Z.ltb_spec cur (- offset)); [split; [discriminate | lia] |].
    rewrite wrap_id, check_region_iff by (done || lia). unfold UINT64_MAX in *. intuition lia.
Qed.

(** ** Lemmas: spill slots *)

Lemma invalidate_slots_spec n slots k :
  0 <= k -> k + Z.of_nat n <= Z.of_nat (length slots) ->
  exists slots', invalidate_slots slots k n = Some slots' /\ length slots' = length slots /\
    forall j, slots' !! j =
      if decide (k <= Z.of_nat j < k + Z.of_nat n)
      then (fun s => SpillSlot false s.(spill_tag)) <$> slots !! j else slots !! j.
Proof.
  revert slots k. induction n as [| n IH]; intros slots k Hk Hn; cbn [invalidate_slots].
  { exists slots. split; [done |]. split; [done |]. intros j. destruct (decide _); [lia | done]. }
  destruct (lookup_lt_is_Some_2 slots (Z.to_nat k)) as [s Hs]; [lia |]. rewrite Hs.
  destruct (IH (<[Z.to_nat k := SpillSlot false (spill_tag s)]> slots) (k + 1)) as (slots' & -> & Hl & Hj);
    [lia | rewrite length_insert; lia |].
  exists slots'. split; [done |]. split; [by rewrite Hl, length_insert |]. intros j. rewrite Hj.
  destruct (decide (j = Z.to_nat k)) as [-> | Hne].
  - rewrite list_lookup_insert_eq by lia. destruct (decide _); [lia |]. destruct (decide _); [| lia]. by rewrite Hs.
  - rewrite list_lookup_insert_ne by done. by destruct (decide _), (decide _); try lia.
Qed.

(** The entry the call leaves is the one the lookup finds, and no other lookup
    changes. *)
Lemma register_region_lookup vm r k j :
  safe_tables_ok vm -> region_slot vm.(safe_regions) 0 None r.(sr_id) = Some j ->
  let vm' := set_safe_regions (<[j := region_entry r k]> vm.(safe_regions)) vm in
  ubpf_safe_find_region_by_id vm' r.(sr_id) = Some (region_entry r k) /\
  forall id, id <> r.(sr_id) -> ubpf_safe_find_region_by_id vm' id = ubpf_safe_find_region_by_id vm id.
Proof.
  intros Htab Hj vm'. destruct (region_slot_owner vm _ _ Htab Hj) as (r0 & Hr0 & Hown & Hother).
  rewrite !find_region_unfold. split.
  - apply (find_insert_first _ _ _ r0); [done | | unfold region_matches; cbn; by rewrite Z.eqb_refl].
    intros i r' Hlt Hi. destruct (region_matches (sr_id r) r') eqn:Hm; [| done].
    rewrite (Hown i r' Hi Hm) in Hlt. lia.
  - intros id Hne. rewrite !find_region_unfold. apply (find_insert_other _ _ _ r0); [done | by apply Hother |].
    unfold region_matches. cbn. apply Z.eqb_neq. congruence.
Qed.

(** ** Properties *)

(** C33: the checked access of the safe profile is exact: it yields an address if
    and only if the register is a pointer with every permission asked for, the
    register plus the offset does not leave the 64-bit address space, and the
    whole access lies inside the pointer's region; the address is then the
    register plus the offset. *)
Theorem safe_access_exact (t : ubpf_safe_tag) (cur offset size pc required a : Z) :
  unsigned_fits 64 cur -> signed_fits 16 offset -> pointer_tag_fits t -> 0 <= size ->
  ubpf_safe_compute_access t cur offset size pc required = Ok a <->
  a = cur + offset /\ 0 <= a <= UINT64_MAX /\
  t.(tag_kind) = UBPF_SAFE_VALUE_POINTER /\ t.(tag_permissions) .& required = required /\
  t.(tag_base) <= a /\ a + size <= t.(tag_base) + t.(tag_size) /\ t.(tag_base) + t.(tag_size) <= UINT64_MAX.
Proof. apply compute_access_iff. Qed.

Lemma safe_access_exact_witness :
  ubpf_safe_compute_access (ubpf_safe_pointer_tag 7 3 4096 16) 4112 (-8) 8 0 UBPF_SAFE_REGION_READ = Ok 4104 /\
  ubpf_safe_compute_access (ubpf_safe_pointer_tag 7 3 4096 16) 4112 (-7) 8 0 UBPF_SAFE_REGION_READ <> Ok 4105.
Proof.
  split.
  - apply (safe_access_exact (ubpf_safe_pointer_tag 7 3 4096 16) 4112 (-8) 8 0 UBPF_SAFE_REGION_READ 4104);
      unfold unsigned_fits, signed_fits, pointer_tag_fits, UINT64_MAX; cbn; repeat split; lia.
  - intros E. apply (safe_access_exact (ubpf_safe_pointer_tag 7 3 4096 16) 4112 (-7) 8 0 UBPF_SAFE_REGION_READ 4105) in E;
      unfold unsigned_fits, signed_fits, pointer_tag_fits in *; cbn in *; lia.
Defined.

(** Registering a region: with well-formed tables the call succeeds exactly
    when the descriptor is acceptable (known kind and permissions, no reserved
    id, not NULL, not empty, no wrap-around) and a slot is free or already
    holds the id; then a lookup of the id finds the registered bounds, kind and
    permissions, every other lookup is unchanged and the tables are well
    formed again (ids unique, bounds in order); otherwise nothing changes. *)
Theorem register_safe_region_correct (vm : ubpf_vm) (r : ubpf_safe_region) :
  safe_tables_ok vm -> region_fits r ->
  let '(vm', rc) := ubpf_register_safe_region_impl vm (Some r) in
  safe_tables_ok vm' /\
  (rc = 0 <-> acceptable_region r && has_slot vm.(safe_regions) r.(sr_id) = true) /\
  (rc = 0 ->
   (exists k, region_kind_of r.(sr_kind) = Some k /\
      ubpf_safe_find_region_by_id vm' r.(sr_id) = Some (region_entry r k)) /\
   forall id, id <> r.(sr_id) -> ubpf_safe_find_region_by_id vm' id = ubpf_safe_find_region_by_id vm id) /\
  (rc <> 0 -> rc = -1 /\ vm' = vm).
Proof.
  intros Htab Hf. rewrite register_region_eq by done.
  pose proof (region_slot_some vm.(safe_regions) 0 None r.(sr_id)) as Hslot.
  destruct (acceptable_region r) eqn:Ha; cbn [andb].
  - assert (exists k, region_kind_of r.(sr_kind) = Some k) as [k Hk].
    { unfold acceptable_region in Ha. rewrite !andb_true_iff, bool_decide_eq_true in Ha. apply Ha. }
    rewrite Hk. destruct (region_slot _ _ _ _) as [j |] eqn:Hj.
    + split; [by apply register_region_tables |].
      destruct Hslot as [Hslot _]. destruct (Hslot ltac:(eauto)) as [[? ?] | ->]; [done |].
      pose proof (register_region_lookup vm r k j Htab Hj) as [H1 H2]. split; [done |].
      split; [| done]. intros _. split; [by exists k | exact H2].
    + split; [done |]. destruct Hslot as [_ Hslot]. destruct (has_slot _ _).
      { destruct (Hslot (or_intror eq_refl)). discriminate. }
      repeat split; (done || discriminate).
  - destruct (region_kind_of _), (region_slot _ _ _ _); (split; [done |]); repeat split; (done || discriminate).
Qed.

Lemma register_safe_region_correct_witness :
  exists vm', ubpf_register_safe_region_impl (zeroed_vm JitNull) (Some (SafeRegion 7 4096 64 0 3)) = (vm', 0) /\
    ubpf_safe_find_region_by_id vm' 7 = Some (SafeRegionSlot true 7 4096 4160 UBPF_SAFE_REGION_POINTER 3).
Proof.
  pose proof (register_safe_region_correct (zeroed_vm JitNull) (SafeRegion 7 4096 64 0 3) (create_tables_ok JitNull)
    ltac:(split; unfold unsigned_fits; cbn; lia)) as H.
  destruct (ubpf_register_safe_region_impl _ _) as [vm' rc]. exists vm'.
  destruct H as (_ & Hrc & Hok & _). destruct Hrc as [_ Hrc].
  specialize (Hrc ltac:(vm_compute; reflexivity)). subst rc.
  destruct (Hok eq_refl) as [(k & Hk & Hfind) _]. cbn in Hk. injection Hk as <-. split; [reflexivity | exact Hfind].
Defined.
