(* ===== verification/Safe.v ===== *)
(** * Safe: the safe interpreter (vm/ubpf_safe.c, [ubpf_exec_ex_safe])

    The state of [Interp] extended with the tags of [SafeTags].  Statements that
    vm/ubpf_safe.c shares word for word with vm/ubpf_vm.c (fetching, counting,
    entering a function, the register part of calls and returns, the shadow
    checks, LDDW) are those of [Interp], [Checks] and [Mem].  At the end, the
    entry points [ubpf_exec_ex] and [ubpf_exec], which choose the interpreter. *)

From Stdlib Require Import ZArith Lia Bool.
From stdpp Require Import base list gmap strings numbers.
From S2P Require Import Prelude Ebpf InstValid Mem Vm Validate Load Alu Checks Interp SafeAlu SafeTags.

Local Open Scope Z_scope.
Local Open Scope cbits_scope.
Local Open Scope outcome_scope.

(** ** The interpreter's state *)

Record safe_state : Type := SafeState {
  core : exec_state;
  safe_tags : list ubpf_safe_tag;  (* safe_tags[16] *)
  safe_frames : list ubpf_safe_frame_state;  (* UBPF_MAX_CALL_DEPTH of them *)
  safe_spill_slots : list ubpf_safe_spill_slot;
}.

Definition set_core (c : exec_state) (st : safe_state) : safe_state :=
  SafeState c st.(safe_tags) st.(safe_frames) st.(safe_spill_slots).
Definition set_slots (s : list ubpf_safe_spill_slot) (st : safe_state) : safe_state :=
  SafeState st.(core) st.(safe_tags) st.(safe_frames) s.
Definition set_safe_frames (f : list ubpf_safe_frame_state) (st : safe_state) : safe_state :=
  SafeState st.(core) st.(safe_tags) f st.(safe_spill_slots).

(** [safe_tags[i]] and [safe_tags[i] = t]; the index is a four-bit field. *)
Definition get_tag (st : safe_state) (i : Z) : ubpf_safe_tag :=
  default ubpf_safe_scalar_tag (st.(safe_tags) !! Z.to_nat i).
Definition set_tag (i : Z) (t : ubpf_safe_tag) (st : safe_state) : safe_state :=
  SafeState st.(core) (<[Z.to_nat i := t]> st.(safe_tags)) st.(safe_frames) st.(safe_spill_slots).

Definition scalar_r1_to_r5 (st : safe_state) : safe_state :=
  let st := set_tag BPF_REG_1 ubpf_safe_scalar_tag st in
  let st := set_tag BPF_REG_2 ubpf_safe_scalar_tag st in
  let st := set_tag BPF_REG_3 ubpf_safe_scalar_tag st in
  let st := set_tag BPF_REG_4 ubpf_safe_scalar_tag st in
  set_tag BPF_REG_5 ubpf_safe_scalar_tag st.

Inductive safe_action : Type :=
| SafeContinue (st : safe_state)
| SafeExit (value : Z) (st : safe_state).

Definition no_safe_frame : ubpf_safe_frame_state := SafeFrame (replicate 4 ubpf_safe_scalar_tag).
Definition safe_frame_at (st : safe_state) (i : Z) : ubpf_safe_frame_state :=
  default no_safe_frame (st.(safe_frames) !! Z.to_nat i).
Definition saved_tag (f : ubpf_safe_frame_state) (i : nat) : ubpf_safe_tag :=
  default ubpf_safe_scalar_tag (f.(saved_register_tags) !! i).

Section SafeInterp.
Context `{HostEnv}.
Variable vm : ubpf_vm.
Variable args : exec_args.

(** ** Loads and stores *)

(** [(addr - stack) % sizeof(uint64_t) == 0], and the slot's index. *)
Definition spill_aligned (addr : Z) : bool := u64 (addr - args.(stack_start)) mod 8 =? 0.
Definition spill_index (addr : Z) : Z := u64 (addr - args.(stack_start)) / 8.

(** [SAFE_LOAD(size, sign_extend)].  The destination's tag is reset before the
    source's tag is tested. *)
Definition safe_load (cur_pc : Z) (inst : ebpf_inst) (size : Z) (sign_extend : bool) (st : safe_state)
    : outcome safe_action :=
  let! addr := of_result (ubpf_safe_compute_access (get_tag st inst.(src)) (get_reg st.(core) inst.(src))
                            inst.(offset) size cur_pc UBPF_SAFE_REGION_READ) in
  let! init := of_option (ubpf_check_shadow_stack vm args.(stack_start) args.(stack_length)
                            st.(core).(shadow_stack) addr size) in
  let c := if init then st.(core)
           else set_shadow_registers (unmark st.(core).(shadow_registers) inst.(dst)) st.(core) in
  let! v := of_option (if sign_extend then ubpf_mem_load_sx c.(mem) addr size
                       else ubpf_mem_load c.(mem) addr size) in
  let st := set_core (set_reg inst.(dst) v c) st in
  let st := set_tag inst.(dst) ubpf_safe_scalar_tag st in
  if negb sign_extend && (size =? 8) &&
     ubpf_safe_is_stack_pointer (get_tag st inst.(src)) args.(stack_start) args.(stack_length) &&
     spill_aligned addr
  then
    let! slot := of_option (st.(safe_spill_slots) !! Z.to_nat (spill_index addr)) in
    Value (SafeContinue (if slot.(spill_valid) then set_tag inst.(dst) slot.(spill_tag) st else st))
  else Value (SafeContinue st).

(** [SAFE_STORE(size, value, preserve_tag)] *)
Definition safe_store (cur_pc : Z) (inst : ebpf_inst) (size value : Z) (preserve_tag : bool) (st : safe_state)
    : outcome safe_action :=
  let! addr := of_result (ubpf_safe_compute_access (get_tag st inst.(dst)) (get_reg st.(core) inst.(dst))
                            inst.(offset) size cur_pc UBPF_SAFE_REGION_WRITE) in
  let! m := of_option (ubpf_mem_store st.(core).(mem) addr value size) in
  let! shadow := of_option (ubpf_mark_shadow_stack vm args.(stack_start) args.(stack_length)
                              st.(core).(shadow_stack) addr size) in
  let st := set_core (set_shadow_stack shadow (set_mem m st.(core))) st in
  if ubpf_safe_is_stack_pointer (get_tag st inst.(dst)) args.(stack_start) args.(stack_length) then
    let! slots := of_option (ubpf_safe_invalidate_stack_spill_tags st.(safe_spill_slots) args.(stack_start)
                               args.(stack_length) addr size) in
    if preserve_tag && (size =? 8) && spill_aligned addr then
      let! _ := of_option (slots !! Z.to_nat (spill_index addr)) in
      Value (SafeContinue
               (set_slots (<[Z.to_nat (spill_index addr) := SpillSlot true (get_tag st inst.(src))]> slots) st))
    else Value (SafeContinue (set_slots slots st))
  else Value (SafeContinue st).

(** ** Atomic operations *)

(** [reg[atomic_fetch_index] = res; safe_tags[atomic_fetch_index] = scalar] *)
Definition safe_fetch (atomic_fetch : bool) (index old : Z) (st : safe_state) : safe_state :=
  if atomic_fetch then set_tag index ubpf_safe_scalar_tag (set_core (set_reg index old st.(core)) st) else st.

Definition safe_atomic_access (cur_pc : Z) (inst : ebpf_inst) (size : Z) (st : safe_state)
    : outcome (Z * safe_state) :=
  let! addr := of_result (ubpf_safe_compute_access (get_tag st inst.(dst)) (get_reg st.(core) inst.(dst))
                            inst.(offset) size cur_pc (UBPF_SAFE_REGION_WRITE .| UBPF_SAFE_REGION_ATOMIC)) in
  let! slots := of_option (ubpf_safe_invalidate_stack_spill_tags st.(safe_spill_slots) args.(stack_start)
                             args.(stack_length) addr size) in
  Value (addr, set_slots slots st).

Definition safe_atomic64 (cur_pc : Z) (inst : ebpf_inst) (st : safe_state) : outcome safe_action :=
  let! p := safe_atomic_access cur_pc inst 8 st in
  let '(addr, st) := p in
  let c := st.(core) in
  let atomic_fetch := negb (inst.(imm) .& EBPF_ATOMIC_OP_FETCH =? 0) in
  let code := inst.(imm) .& EBPF_ALU_OP_MASK in
  let atomic_fetch_index := if is_cmpxchg code then 0 else inst.(src) in
  match atomic_new_value 64 code 0 0 0 with
  | None => Failed (UnknownAtomic cur_pc)
  | Some _ =>
      let! old := of_option (deref c.(mem) addr 8) in
      let new := default 0 (atomic_new_value 64 code old (get_reg c inst.(src)) (get_reg c 0)) in
      let! m := of_option (store_bytes c.(mem) addr (le_encode 8 new)) in
      Value (SafeContinue (safe_fetch atomic_fetch atomic_fetch_index old (set_core (set_mem m c) st)))
  end.

Definition safe_atomic32 (cur_pc : Z) (inst : ebpf_inst) (st : safe_state) : outcome safe_action :=
  let! p := safe_atomic_access cur_pc inst 4 st in
  let '(addr, st) := p in
  let c := st.(core) in
  let atomic_fetch :=
    negb (inst.(imm) .& EBPF_ATOMIC_OP_FETCH =? 0) || (inst.(imm) =? EBPF_ATOMIC_OP_CMPXCHG) ||
    (inst.(imm) =? EBPF_ATOMIC_OP_XCHG) in
  let code := inst.(imm) .& EBPF_ALU_OP_MASK in
  let atomic_fetch_index := if is_cmpxchg code then 0 else inst.(src) in
  match atomic_new_value 32 code 0 0 0 with
  | None => Failed (UnknownAtomic cur_pc)
  | Some _ =>
      let! old := of_option (deref c.(mem) addr 4) in
      let new := default 0 (atomic_new_value 32 code old (u32 (get_reg c inst.(src))) (u32 (get_reg c 0))) in
      let! m := of_option (store_bytes c.(mem) addr (le_encode 4 new)) in
      Value (SafeContinue (safe_fetch atomic_fetch atomic_fetch_index old (set_core (set_mem m c) st)))
  end.

(** ** Calls and returns *)

(** The register part is [exec_exit]; the tags of r1 to r5 are reset and those
    of r6 to r9 restored. *)
Definition safe_exit (st : safe_state) : outcome safe_action :=
  let! act := exec_exit st.(core) in
  match act with
  | Continue c =>
      let f := safe_frame_at st c.(stack_frame_index) in
      let st := scalar_r1_to_r5 (set_core c st) in
      let st := set_tag BPF_REG_6 (saved_tag f 0) st in
      let st := set_tag BPF_REG_7 (saved_tag f 1) st in
      let st := set_tag BPF_REG_8 (saved_tag f 2) st in
      Value (SafeContinue (set_tag BPF_REG_9 (saved_tag f 3) st))
  | ExitWith v c => Value (SafeExit v (set_core c st))
  end.

Definition is_scalar_result (k : ubpf_safe_helper_result_kind) : bool :=
  bool_decide (k = UBPF_SAFE_HELPER_RESULT_SCALAR).

(** [reg[0] = vm->dispatcher(...)] or [vm->ext_funcs[imm](...)]; a NULL entry is undefined. *)
Definition safe_invoke (inst : ebpf_inst) (c : exec_state) : outcome exec_state :=
  let a := get_reg c in
  let! p :=
    (if negb (vm.(dispatcher) =? 0) then
       of_option (call_dispatcher vm.(dispatcher) (a 1) (a 2) (a 3) (a 4) (a 5) inst.(imm) args.(arg_mem) c.(mem))
     else
       let! fn := of_option (vm.(ext_funcs) !! Z.to_nat inst.(imm)) in
       if fn =? 0 then Undefined
       else of_option (call_helper fn (a 1) (a 2) (a 3) (a 4) (a 5) args.(arg_mem) c.(mem))) in
  Value (set_mem p.2 (set_reg 0 (u64 p.1) c)).

(** The switch on [helper->result_kind] after the call: the tag of r0. *)
Definition result_tag (cur_pc : Z) (helper : ubpf_safe_helper_metadata) (r0 : Z) : outcome ubpf_safe_tag :=
  let fail e := Failed (SafeMode e cur_pc) in
  let k := helper.(helper_result_kind) in
  if is_scalar_result k then Value ubpf_safe_scalar_tag
  else
    match ubpf_safe_find_region_by_id vm helper.(helper_region_id) with
    | None => fail UnknownRegion
    | Some region =>
        if (bool_decide (k = UBPF_SAFE_HELPER_RESULT_POINTER) &&
            negb (bool_decide (region.(slot_kind) = UBPF_SAFE_REGION_POINTER))) ||
           (bool_decide (k = UBPF_SAFE_HELPER_RESULT_HANDLE) &&
            negb (bool_decide (region.(slot_kind) = UBPF_SAFE_REGION_HANDLE)))
        then fail ResultKindMismatch
        else if (r0 <? region.(slot_base)) || (region.(slot_end) <? r0) ||
                (region.(slot_end) - r0 <? helper.(helper_region_size))
        then fail ResultOutOfRange
        else Value ((if bool_decide (k = UBPF_SAFE_HELPER_RESULT_POINTER)
                     then ubpf_safe_pointer_tag else ubpf_safe_handle_tag)
                      helper.(helper_region_id) region.(slot_permissions) r0 helper.(helper_region_size))
    end.

Definition safe_external_call (cur_pc : Z) (inst : ebpf_inst) (st : safe_state) : outcome safe_action :=
  let fail e := Failed (SafeMode e cur_pc) in
  if (inst.(imm) <? 0) || (MAX_EXT_FUNCS <=? inst.(imm)) then fail HelperMetadataMissing
  else
    let! helper := of_option (vm.(safe_helpers) !! Z.to_nat inst.(imm)) in
    if negb helper.(helper_in_use) then fail HelperMetadataMissing
    else if negb (is_scalar_result helper.(helper_result_kind)) &&
            negb (bool_decide (is_Some (ubpf_safe_find_region_by_id vm helper.(helper_region_id))))
    then fail UnknownRegion
    else
      let! c := safe_invoke inst st.(core) in
      if (inst.(imm) =? vm.(unwind_stack_extension_index)) && (get_reg c 0 =? 0)
      then Value (SafeExit (get_reg c 0) (set_core c st))
      else
        let st := scalar_r1_to_r5 (set_core c st) in
        let! t := result_tag cur_pc helper (get_reg c 0) in
        Value (SafeContinue (set_tag 0 t st)).

(** The register part is [exec_local_call]; the tags of r6 to r9 are saved. *)
Definition safe_local_call (cur_pc : Z) (inst : ebpf_inst) (st : safe_state) : outcome safe_action :=
  let i := st.(core).(stack_frame_index) in
  let f := SafeFrame [get_tag st BPF_REG_6; get_tag st BPF_REG_7; get_tag st BPF_REG_8; get_tag st BPF_REG_9] in
  let! act := exec_local_call cur_pc inst st.(core) in
  match act with
  | Continue c => Value (SafeContinue (set_safe_frames (<[Z.to_nat i := f]> st.(safe_frames)) (set_core c st)))
  | ExitWith v c => Value (SafeExit v (set_core c st))
  end.

Definition safe_call (cur_pc : Z) (inst : ebpf_inst) (st : safe_state) : outcome safe_action :=
  if inst.(src) =? 0 then safe_external_call cur_pc inst st
  else if inst.(src) =? 1 then safe_local_call cur_pc inst st
  else if inst.(src) =? 2 then Failed (CallByBtf cur_pc)
  else Value (SafeContinue st).

(** ** The switch *)

Definition safe_lddw (inst : ebpf_inst) (st : safe_state) : outcome safe_action :=
  let! act := exec_lddw vm inst st.(core) in
  match act with
  | Continue c => Value (SafeContinue (set_tag inst.(dst) ubpf_safe_scalar_tag (set_core c st)))
  | ExitWith v c => Value (SafeExit v (set_core c st))
  end.

Definition safe_goto (delta : Z) (st : safe_state) : safe_state := set_core (jump delta st.(core)) st.

(** The labels that are not arithmetic, byte swaps or conditions. *)
Definition safe_other (cur_pc : Z) (op : ebpf_op) (inst : ebpf_inst) (st : safe_state) : outcome safe_action :=
  match load_shape op, store_shape op with
  | Some (size, sx), _ => safe_load cur_pc inst size sx st
  | None, Some (size, from_reg) =>
      safe_store cur_pc inst size (if from_reg then get_reg st.(core) inst.(src) else u64 inst.(imm))
        (from_reg && (size =? 8)) st
  | None, None =>
      match op with
      | EBPF_OP_LDDW => safe_lddw inst st
      | EBPF_OP_JA => Value (SafeContinue (safe_goto inst.(offset) st))
      | EBPF_OP_JA32 => Value (SafeContinue (safe_goto inst.(imm) st))
      | EBPF_OP_EXIT => safe_exit st
      | EBPF_OP_CALL => safe_call cur_pc inst st
      | EBPF_OP_ATOMIC_STORE => safe_atomic64 cur_pc inst st
      | EBPF_OP_ATOMIC32_STORE => safe_atomic32 cur_pc inst st
      | _ => Failed (UnknownOpcodeAt cur_pc)
      end
  end.

Definition safe_switch (cur_pc : Z) (inst : ebpf_inst) (st : safe_state) : outcome safe_action :=
  match switch_op inst.(opcode) with
  | None => Failed (UnknownOpcodeAt cur_pc)
  | Some op =>
      let d := get_reg st.(core) inst.(dst) in
      let s := get_reg st.(core) inst.(src) in
      if neg_overflows op d then Undefined
      else
        match safe_alu op inst.(offset) inst.(imm) d s, safe_condition op inst.(imm) d s with
        | Some v, _ => Value (SafeContinue (set_core (set_reg inst.(dst) v st.(core)) st))
        | None, Some taken => Value (SafeContinue (if taken then safe_goto inst.(offset) st else st))
        | None, None => safe_other cur_pc op inst st
        end
  end.

(** ** The loop *)

Definition is_alu_class (inst : ebpf_inst) : bool :=
  (inst.(opcode) .& EBPF_CLS_MASK =? EBPF_CLS_ALU) || (inst.(opcode) .& EBPF_CLS_MASK =? EBPF_CLS_ALU64).

(** The statements after the switch: the tag of an arithmetic result, from the
    tags before the instruction, and the truncation of 32-bit results. *)
Definition safe_after (cur_pc : Z) (inst : ebpf_inst) (dst_before src_before : ubpf_safe_tag) (st : safe_state)
    : outcome safe_state :=
  let! st :=
    (if is_alu_class inst then
       let! t := of_result (ubpf_safe_apply_alu inst cur_pc dst_before src_before
                              (get_reg st.(core) inst.(dst))) in
       Value (set_tag inst.(dst) t st)
     else Value st) in
  Value (set_core (truncate_alu32 inst st.(core)) st).

Definition safe_step (st : safe_state) : outcome safe_action :=
  let cur_pc := st.(core).(pc) in
  let! _ := require (negb (vm.(num_insts) <=? cur_pc)) PcOutOfRange in
  let! c := count_instruction vm st.(core) in
  let! c := enter_function vm c in
  let! inst := of_option (ubpf_fetch_instruction vm cur_pc) in
  let c := set_pc (u16 (cur_pc + 1)) c in
  let safe_dst_before := get_tag st inst.(dst) in
  let safe_src_before := get_tag st inst.(src) in
  let! shadow := of_result (ubpf_validate_shadow_register vm cur_pc c.(shadow_registers) inst) in
  let c := call_debug_function vm args cur_pc (set_shadow_registers shadow c) in
  let! act := safe_switch cur_pc inst (set_core c st) in
  match act with
  | SafeContinue st =>
      let! st := safe_after cur_pc inst safe_dst_before safe_src_before st in
      Value (SafeContinue st)
  | SafeExit v st => Value (SafeExit v st)
  end.

Fixpoint safe_loop (fuel : nat) (st : safe_state) : option exec_end :=
  match fuel with
  | O => None
  | S fuel' =>
      match safe_step st with
      | Value (SafeContinue st') => safe_loop fuel' st'
      | Value (SafeExit v st') => Some (Returned v st'.(core).(mem))
      | Failed e => Some (Error e)
      | Undefined => Some UndefinedBehaviour
      end
  end.

(** [(stack_length + 7) / 8], at least one: the size of both arrays. *)
Definition safe_array_size : nat :=
  let n := u64 (args.(stack_length) + 7) / 8 in Z.to_nat (if n =? 0 then 1 else n).

Definition all_permissions : Z :=
  UBPF_SAFE_REGION_READ .| UBPF_SAFE_REGION_WRITE .| UBPF_SAFE_REGION_ATOMIC.

(** The locals at the start of the loop. *)
Definition safe_initial (garbage : list Z) (m : memory) : safe_state :=
  let c := ExecState 0 garbage (replicate 8 no_frame) 0
             (REGISTER_TO_SHADOW_MASK 1 .| REGISTER_TO_SHADOW_MASK 2 .| REGISTER_TO_SHADOW_MASK 10)
             (if vm.(undefined_behavior_check_enabled) then replicate safe_array_size 0 else [])
             vm.(instruction_limit) m in
  let c := set_reg 10 (u64 (args.(stack_start) + args.(stack_length)))
             (set_reg 2 args.(arg_mem_len) (set_reg 1 args.(arg_mem) c)) in
  let st := SafeState c (replicate 16 ubpf_safe_scalar_tag) (replicate 8 no_safe_frame)
              (replicate safe_array_size (SpillSlot false ubpf_safe_scalar_tag)) in
  let st :=
    if negb (args.(arg_mem) =? 0) && (0 <? args.(arg_mem_len))
    then set_tag 1 (ubpf_safe_pointer_tag UBPF_SAFE_REGION_ID_INPUT all_permissions
                      args.(arg_mem) args.(arg_mem_len)) st
    else st in
  set_tag 10 (ubpf_safe_pointer_tag UBPF_SAFE_REGION_ID_STACK all_permissions
                args.(stack_start) args.(stack_length)) st.

End SafeInterp.

(** [alloc n] says whether the n-th allocation of the call succeeds: the shadow
    stack, when there is one, and the spill slots. *)
Definition ubpf_exec_ex_safe `{HostEnv} (fuel : nat) (vm : ubpf_vm) (args : exec_args) (alloc : nat -> bool)
    (garbage : list Z) (m : memory) : ubpf_vm * option exec_end :=
  if vm.(insts) =? 0 then (vm, Some (Error NoCode))
  else
    let vm := set_execution_started true vm in
    if vm.(undefined_behavior_check_enabled) && negb (alloc 0%nat) then (vm, Some (Error ShadowStackAllocation))
    else if negb (alloc 1%nat) then (vm, Some (Error SpillSlotAllocation))
    else (vm, safe_loop vm args fuel (safe_initial vm args garbage m)).

(** ** The entry points (vm/ubpf_vm.c) *)

Definition ubpf_exec_ex `{HostEnv} (fuel : nat) (vm : ubpf_vm) (args : exec_args) (alloc : nat -> bool)
    (garbage : list Z) (m : memory) : ubpf_vm * option exec_end :=
  if decide (vm.(execution_profile) = UBPF_EXECUTION_PROFILE_SAFE)
  then ubpf_exec_ex_safe fuel vm args alloc garbage m
  else ubpf_exec_ex_legacy fuel vm args (alloc 0%nat) garbage m.

(** [ubpf_exec]: the stack is a local array at [stack], mapped in [m]. *)
Definition ubpf_exec `{HostEnv} (fuel : nat) (vm : ubpf_vm) (mem mem_len stack : Z) (alloc : nat -> bool)
    (garbage : list Z) (m : memory) : ubpf_vm * option exec_end :=
  ubpf_exec_ex fuel vm (ExecArgs mem mem_len stack UBPF_EBPF_STACK_SIZE) alloc garbage m.
