(* ===== verification/SafeSound.v ===== *)
(** * SafeSound: what the safe profile guarantees

    The provenance invariant: every pointer tag of the state (registers, saved
    registers, spill slots) describes memory inside a region that was granted
    to the program, with the permissions of that region.  Every turn of the loop
    preserves it, does nothing undefined and writes only to granted, writable
    memory, whatever the bounds-check setting of the VM. *)

From Stdlib Require Import ZArith Lia Bool.
From stdpp Require Import base list gmap strings numbers.
From S2P Require Import Prelude Ebpf InstValid Mem Vm Validate Load Alu Checks Interp InterpSound SafeAlu SafeTags Safe.

Local Open Scope Z_scope.
Local Open Scope cbits_scope.

(** ** Granted memory *)

(** [granted vm args perms base size]: the program may be given a pointer with
    these permissions to [base, base + size). *)
Inductive granted (vm : ubpf_vm) (args : exec_args) : Z -> Z -> Z -> Prop :=
| granted_input :
    args.(arg_mem) <> 0 -> 0 < args.(arg_mem_len) ->
    granted vm args all_permissions args.(arg_mem) args.(arg_mem_len)
| granted_stack : granted vm args all_permissions args.(stack_start) args.(stack_length)
| granted_region r base size :
    r ∈ vm.(safe_regions) -> r.(region_in_use) = true -> r.(slot_kind) = UBPF_SAFE_REGION_POINTER ->
    0 <= size -> inside base size r.(slot_base) (r.(slot_end) - r.(slot_base)) ->
    granted vm args r.(slot_permissions) base size.

Definition tag_ok (vm : ubpf_vm) (args : exec_args) (t : ubpf_safe_tag) : Prop :=
  t.(tag_kind) = UBPF_SAFE_VALUE_POINTER -> granted vm args t.(tag_permissions) t.(tag_base) t.(tag_size).

(** The registered pointer regions are mapped. *)
Definition safe_regions_mapped (vm : ubpf_vm) (m : memory) : Prop :=
  forall r, r ∈ vm.(safe_regions) -> r.(region_in_use) = true -> r.(slot_kind) = UBPF_SAFE_REGION_POINTER ->
    mapped m r.(slot_base) (r.(slot_end) - r.(slot_base)).

Section SafeInvariant.
Context `{HostEnv}.

Record safe_ok (vm : ubpf_vm) (args : exec_args) (st : safe_state) : Prop := SafeOk {
  sf_core : state_ok vm args st.(core);
  sf_regions : safe_regions_mapped vm st.(core).(mem);
  sf_tags_length : length st.(safe_tags) = 16%nat;
  sf_tags : Forall (tag_ok vm args) st.(safe_tags);
  sf_frames : Forall (fun f => Forall (tag_ok vm args) f.(saved_register_tags)) st.(safe_frames);
  sf_slots_length : args.(stack_length) <= 8 * Z.of_nat (length st.(safe_spill_slots));
  sf_slots : Forall (fun s => tag_ok vm args s.(spill_tag)) st.(safe_spill_slots);
}.

(** ** Tags *)

Lemma scalar_tag_ok vm args : tag_ok vm args ubpf_safe_scalar_tag.
Proof. discriminate. Qed.

Lemma handle_tag_ok vm args id p b s : tag_ok vm args (ubpf_safe_handle_tag id p b s).
Proof. discriminate. Qed.

Lemma get_tag_ok vm args st i : safe_ok vm args st -> tag_ok vm args (get_tag st i).
Proof.
  intros Hst. unfold get_tag. destruct (st.(safe_tags) !! Z.to_nat i) as [t |] eqn:E; [| apply scalar_tag_ok].
  by apply (Forall_lookup_1 _ _ _ _ (sf_tags _ _ _ Hst) E).
Qed.

Lemma get_set_tag st i j t :
  (Z.to_nat i < length st.(safe_tags))%nat -> 0 <= i -> 0 <= j ->
  get_tag (set_tag i t st) j = if j =? i then t else get_tag st j.
Proof.
  intros Hi H0 Hj. unfold get_tag, set_tag. cbn. destruct (Z.eqb_spec j i) as [-> | Hne].
  - by rewrite list_lookup_insert_eq.
  - by rewrite list_lookup_insert_ne by lia.
Qed.

(** Reading the source's tag after the destination's was written. *)
Lemma get_set_tag_inst st inst t :
  length st.(safe_tags) = 16%nat -> inst_ok inst ->
  get_tag (set_tag inst.(dst) t st) inst.(src) =
  if inst.(src) =? inst.(dst) then t else get_tag st inst.(src).
Proof.
  intros Hl (_ & Hd & Hs & _). unfold unsigned_fits in *. apply get_set_tag; lia.
Qed.

Lemma safe_ok_set_tag vm args st i t : tag_ok vm args t -> safe_ok vm args st -> safe_ok vm args (set_tag i t st).
Proof.
  intros Ht []. constructor; try done; cbn; [by rewrite length_insert | by apply Forall_insert].
Qed.

Lemma safe_ok_set_core vm args st c :
  state_ok vm args c -> safe_regions_mapped vm c.(mem) -> safe_ok vm args st -> safe_ok vm args (set_core c st).
Proof. intros Hc Hr []. by constructor. Qed.

(** The register file changes, the memory does not. *)
Lemma safe_ok_same_mem vm args st c :
  state_ok vm args c -> c.(mem) = st.(core).(mem) -> safe_ok vm args st -> safe_ok vm args (set_core c st).
Proof. intros Hc E Hst. apply safe_ok_set_core; [done | rewrite E; apply Hst | done]. Qed.

Lemma safe_ok_set_slots vm args st s :
  args.(stack_length) <= 8 * Z.of_nat (length s) -> Forall (fun x => tag_ok vm args x.(spill_tag)) s ->
  safe_ok vm args st -> safe_ok vm args (set_slots s st).
Proof. intros Hl Hs []. by constructor. Qed.

Lemma scalar_r1_to_r5_ok vm args st : safe_ok vm args st -> safe_ok vm args (scalar_r1_to_r5 st).
Proof. intros. unfold scalar_r1_to_r5. do 5 (apply safe_ok_set_tag; [apply scalar_tag_ok |]). done. Qed.

Lemma safe_regions_extends vm m m' : dom m ⊆ dom m' -> safe_regions_mapped vm m -> safe_regions_mapped vm m'.
Proof. intros Hd Hm r H1 H2 H3. eapply mapped_dom; [done | by apply Hm]. Qed.

End SafeInvariant.

#[export] Hint Resolve scalar_tag_ok handle_tag_ok get_tag_ok safe_ok_set_tag scalar_r1_to_r5_ok : ubpf.

Section SafeAccess.
Context (h : HostEnv) {HS : HostSound h}.
Variables (vm : ubpf_vm) (args : exec_args).
Hypothesis Hargs : args_fit args.
Hypothesis Htab : safe_tables_ok vm.

Lemma region_in_table r :
  r ∈ vm.(safe_regions) -> r.(region_in_use) = true ->
  0 < r.(slot_base) /\ r.(slot_base) < r.(slot_end) /\ r.(slot_end) <= UINT64_MAX.
Proof using Htab.
  intros Hr Hu. apply list_elem_of_lookup in Hr as [i Hi].
  destruct (Forall_lookup_1 _ _ _ _ (tb_regions _ Htab) Hi Hu) as (_ & ? & ? & ? & _). done.
Qed.

Lemma granted_fits p b s : granted vm args p b s -> 0 <= b /\ 0 <= s.
Proof using Hargs Htab.
  destruct Hargs as [Hm Hl (? & ? & ?)]. unfold fits64 in *.
  intros [| | r base size Hr Hu _ Hs Hin]; [lia .. |].
  pose proof (region_in_table r Hr Hu). unfold inside in Hin. lia.
Qed.

Lemma granted_mapped p b s m :
  granted vm args p b s -> b + s <= UINT64_MAX -> regions_mapped args m -> safe_regions_mapped vm m -> mapped m b s.
Proof.
  intros Hg Hend (Hmem & Hstk & _) Hreg. destruct Hg as [H0 H1 | | r base size Hr Hu Hk Hs Hin].
  - by apply Hmem.
  - done.
  - eapply mapped_inside; [by apply Hreg | done].
Qed.

Lemma tag_ok_fits t : tag_ok vm args t -> t.(tag_kind) = UBPF_SAFE_VALUE_POINTER -> pointer_tag_fits t.
Proof using Hargs Htab. intros Ht Hk. apply (granted_fits _ _ _ (Ht Hk)). Qed.

(** A passed check, without a condition on the tag's numbers. *)
Lemma compute_access_ok t cur offset size pc required a :
  tag_ok vm args t -> unsigned_fits 64 cur -> signed_fits 16 offset -> 0 <= size ->
  ubpf_safe_compute_access t cur offset size pc required = Ok a ->
  a = cur + offset /\ fits64 a /\ access_granted t a size required.
Proof using Hargs Htab.
  intros Ht Hc Ho Hs E.
  destruct (decide (t.(tag_kind) = UBPF_SAFE_VALUE_POINTER)) as [Hk | Hk].
  - apply compute_access_iff in E as (-> & Hr & Hg); [| done | done | by apply tag_ok_fits | done].
    split; [done |]. split; [unfold fits64, UINT64_MAX in *; lia | done].
  - unfold ubpf_safe_compute_access, is_kind in E. by rewrite bool_decide_eq_false_2 in E.
Qed.

Lemma access_mapped t a size required m :
  tag_ok vm args t -> access_granted t a size required -> regions_mapped args m -> safe_regions_mapped vm m ->
  mapped m a size.
Proof.
  intros Ht (Hk & _ & H1 & H2 & H3) Hm Hr. eapply mapped_inside; [by eapply granted_mapped; [apply Ht | ..] |].
  split; lia.
Qed.

(** What an instruction may do to memory. *)
Definition safe_mem_step (m m' : memory) : Prop :=
  m' = m \/
  exists p b s a n, granted vm args p b s /\ p .& UBPF_SAFE_REGION_WRITE = UBPF_SAFE_REGION_WRITE /\
    inside a n b s /\ changes_only a n m m'.

Definition safe_next (act : safe_action) : safe_state :=
  match act with SafeContinue st' | SafeExit _ st' => st' end.

Definition safe_act_ok (m : memory) (act : safe_action) : Prop :=
  safe_ok vm args (safe_next act) /\ safe_mem_step m (safe_next act).(core).(mem).

(** *** Spill slots *)

Lemma invalidate_ok slots a size :
  fits64 a -> 0 < size < 2 ^ 63 -> args.(stack_length) <= 8 * Z.of_nat (length slots) ->
  exists slots', ubpf_safe_invalidate_stack_spill_tags slots args.(stack_start) args.(stack_length) a size = Some slots' /\
    length slots' = length slots /\
    forall j s, slots' !! j = Some s -> exists s0, slots !! j = Some s0 /\ s.(spill_tag) = s0.(spill_tag).
Proof using Hargs.
  intros Ha Hs Hl. destruct Hargs as [_ _ (H1 & H2 & H3)]. unfold ubpf_safe_invalidate_stack_spill_tags.
  rewrite (wrap_id 64 (stack_start args + _)) by lia.
  destruct (Z.ltb_spec a (stack_start args)); cbn [orb]; [eauto 6 |].
  destruct (Z.ltb_spec (u64 (a + size)) a); cbn [orb]; [eauto 6 |].
  destruct (Z.ltb_spec (stack_start args + stack_length args) (u64 (a + size))); [eauto 6 |].
  rewrite access_no_wrap in * by (done || lia). unfold fits64 in Ha. rewrite wrap_id by lia.
  set (f := (a - stack_start args) / 8). set (l := (a + size - 1 - stack_start args) / 8).
  assert (f <= l) by (apply Z.div_le_mono; lia).
  assert (0 <= f) by (apply Z.div_pos; lia).
  assert (l < Z.of_nat (length slots)) by (apply Z.div_lt_upper_bound; lia).
  destruct (invalidate_slots_spec (Z.to_nat (l - f + 1)) slots f) as (slots' & -> & Hlen & Hj); [lia .. |].
  exists slots'. split; [done |]. split; [done |]. intros j s Hjs. rewrite Hj in Hjs.
  destruct (decide _); [| eauto].
  apply fmap_Some in Hjs as (s0 & Hs0 & ->). eauto.
Qed.

Lemma invalidated_tags slots slots' :
  Forall (fun x => tag_ok vm args x.(spill_tag)) slots ->
  (forall j s, slots' !! j = Some s -> exists s0, slots !! j = Some s0 /\ s.(spill_tag) = s0.(spill_tag)) ->
  Forall (fun x => tag_ok vm args x.(spill_tag)) slots'.
Proof.
  intros Hf Hj. apply Forall_lookup_2. intros j s Hs. destruct (Hj j s Hs) as (s0 & Hs0 & ->).
  by apply (Forall_lookup_1 _ _ _ _ Hf Hs0).
Qed.

Lemma spill_index_lt (slots : list ubpf_safe_spill_slot) a :
  inside a 8 args.(stack_start) args.(stack_length) -> args.(stack_length) <= 8 * Z.of_nat (length slots) ->
  is_Some (slots !! Z.to_nat (spill_index args a)).
Proof using Hargs.
  destruct Hargs as [_ _ (H1 & H2 & H3)]. intros [Ha Hb] Hl. apply lookup_lt_is_Some_2. unfold spill_index.
  rewrite wrap_id by lia.
  assert ((a - stack_start args) / 8 < Z.of_nat (length slots)) by (apply Z.div_lt_upper_bound; lia).
  assert (0 <= (a - stack_start args) / 8) by (apply Z.div_pos; lia). lia.
Qed.

Lemma stack_pointer_inside t a size required :
  ubpf_safe_is_stack_pointer t args.(stack_start) args.(stack_length) = true -> access_granted t a size required ->
  inside a size args.(stack_start) args.(stack_length).
Proof.
  unfold ubpf_safe_is_stack_pointer. rewrite !andb_true_iff, !Z.eqb_eq.
  intros ((_ & Hb) & Hs) (_ & _ & H1 & H2 & _). rewrite <- Hb, <- Hs. by split.
Qed.

(** *** Loads *)

Lemma safe_load_ok cur_pc inst size sx st :
  inst_ok inst -> access_size size -> (sx = true -> size <> 8) -> safe_ok vm args st ->
  safely (safe_act_ok st.(core).(mem)) (safe_load vm args cur_pc inst size sx st).
Proof using Hargs Htab.
  intros Hi Hs Hsx Hst. assert (0 < size < 2 ^ 63) as Hsize by (destruct_or! Hs; lia).
  pose proof (sf_core _ _ _ Hst) as Hc. unfold safe_load.
  destruct (ubpf_safe_compute_access _ _ _ _ _ _) as [a | e] eqn:E; [| exact I]. cbn [of_result bind_outcome].
  apply compute_access_ok in E as (_ & Hfit & Hg); [| by apply get_tag_ok | by eapply get_reg_fits | apply Hi | lia].
  pose proof (access_mapped _ _ _ _ _ (get_tag_ok _ _ _ inst.(src) Hst) Hg (so_mapped _ _ _ Hc)
                (sf_regions _ _ _ Hst)) as Hmap.
  destruct (check_shadow_some vm args st.(core).(shadow_stack) a size) as [b ->]; [done | apply Hc | done | lia |].
  cbn [of_option bind_outcome].
  set (c := if b then st.(core) else _).
  assert (state_ok vm args c /\ c.(mem) = st.(core).(mem)) as [Hc' Em] by (unfold c; destruct b; auto with ubpf).
  rewrite Em. eapply safely_bind; [apply load_value_ok; [done | done | apply Hc | done] |].
  intros v Hv. cbv zeta. set (st1 := set_tag inst.(dst) ubpf_safe_scalar_tag _).
  assert (safe_ok vm args st1) as Hst1.
  { apply safe_ok_set_tag; [apply scalar_tag_ok |]. apply safe_ok_same_mem; [by apply state_ok_set_reg | done | done]. }
  assert (safe_mem_step (mem (core st)) (mem (core st1))) as Hmem by (left; done).
  destruct (_ && _) eqn:Hcond; [| by split].
  apply andb_true_iff in Hcond as [Hcond _]. apply andb_true_iff in Hcond as [Hcond Hsp].
  apply andb_true_iff in Hcond as [_ H8]. apply Z.eqb_eq in H8. subst size.
  assert (get_tag st1 (src inst) = get_tag st (src inst)) as Et.
  { revert Hsp. unfold st1. rewrite get_set_tag_inst; [| apply Hst | done].
    by destruct (src inst =? dst inst). }
  rewrite Et in Hsp. destruct (spill_index_lt st1.(safe_spill_slots) a) as [slot Hslot];
    [by eapply stack_pointer_inside | apply Hst1 |].
  rewrite Hslot. cbn [of_option bind_outcome]. split; [| by destruct (spill_valid slot)]. cbn [safe_next].
  destruct (spill_valid slot); [| done]. apply safe_ok_set_tag; [| done].
  apply (Forall_lookup_1 _ _ _ _ (sf_slots _ _ _ Hst1) Hslot).
Qed.

(** *** Stores *)

(** A write through a granted access. *)
Lemma granted_write t a size required m m' :
  tag_ok vm args t -> access_granted t a size required ->
  required .& UBPF_SAFE_REGION_WRITE = UBPF_SAFE_REGION_WRITE ->
  changes_only a size m m' -> safe_mem_step m m'.
Proof.
  intros Ht (Hk & Hp & H1 & H2 & _) Hreq Hc. right.
  exists t.(tag_permissions), t.(tag_base), t.(tag_size), a, size.
  split; [by apply Ht |]. split; [| by split; [split |]].
  rewrite <- Hreq, Z.land_assoc, Hp. done.
Qed.

Lemma safe_ok_write st m :
  mem_extends st.(core).(mem) m -> safe_ok vm args st -> safe_ok vm args (set_core (set_mem m st.(core)) st).
Proof.
  intros Hm Hst. apply safe_ok_set_core; [apply state_ok_set_mem; [done | apply Hst] | | done].
  eapply safe_regions_extends; [apply Hm | apply Hst].
Qed.

Lemma safe_store_ok cur_pc inst size value keep st :
  inst_ok inst -> access_size size -> safe_ok vm args st ->
  safely (safe_act_ok st.(core).(mem)) (safe_store vm args cur_pc inst size value keep st).
Proof using Hargs Htab.
  intros Hi Hs Hst. assert (0 < size < 2 ^ 63) as Hsize by (destruct_or! Hs; lia).
  pose proof (sf_core _ _ _ Hst) as Hc. unfold safe_store.
  destruct (ubpf_safe_compute_access _ _ _ _ _ _) as [a | e] eqn:E; [| exact I]. cbn [of_result bind_outcome].
  apply compute_access_ok in E as (_ & Hfit & Hg); [| by apply get_tag_ok | by eapply get_reg_fits | apply Hi | lia].
  pose proof (get_tag_ok _ _ _ inst.(dst) Hst) as Ht.
  pose proof (access_mapped _ _ _ _ _ Ht Hg (so_mapped _ _ _ Hc) (sf_regions _ _ _ Hst)) as Hmap.
  destruct (mem_store_mapped st.(core).(mem) a value size Hs Hmap) as [m Hm]. rewrite Hm. cbn [of_option bind_outcome].
  pose proof (mem_store_spec _ _ _ _ _ Hs Hm) as [Hch _].
  destruct (mark_shadow_some vm args st.(core).(shadow_stack) a size) as (sh & -> & Hsh); [done | apply Hc | done | lia |].
  cbn [of_option bind_outcome]. cbv zeta. set (st1 := set_core _ st).
  assert (safe_ok vm args st1) as Hst1.
  { assert (mem_extends st.(core).(mem) m) as Hext.
    { split; [eapply mem_store_ok; [done | apply Hc | done] | by destruct Hch as [-> _]]. }
    apply safe_ok_set_core; [| eapply safe_regions_extends; [apply Hext | apply Hst] | done].
    apply state_ok_set_shadow_stack; [done |]. by apply state_ok_set_mem. }
  assert (safe_mem_step (mem (core st)) (mem (core st1))) as Hmem by (by apply (granted_write _ _ _ _ _ _ Ht Hg)).
  destruct (ubpf_safe_is_stack_pointer _ _ _) eqn:Hsp; [| by split].
  destruct (invalidate_ok st1.(safe_spill_slots) a size) as (slots & -> & Hlen & Hj); [done | lia | apply Hst1 |].
  cbn [of_option bind_outcome].
  assert (stack_length args <= 8 * Z.of_nat (length slots)) as Hlen' by (rewrite Hlen; apply Hst1).
  assert (Forall (fun x => tag_ok vm args (spill_tag x)) slots) as Hslots
    by (eapply invalidated_tags; [apply Hst1 | done]).
  destruct (_ && _) eqn:Hcond.
  - apply andb_true_iff in Hcond as [Hcond _]. apply andb_true_iff in Hcond as [_ H8]. apply Z.eqb_eq in H8. subst size.
    destruct (spill_index_lt slots a) as [s0 ->]; [by eapply stack_pointer_inside | done |].
    cbn [of_option bind_outcome]. split; [| done].
    apply safe_ok_set_slots; [by rewrite length_insert | | done].
    apply Forall_insert; [done | by apply (get_tag_ok vm args st1)].
  - split; [| done]. by apply safe_ok_set_slots.
Qed.

(** *** Atomics *)

Lemma safe_atomic_access_ok cur_pc inst size st :
  inst_ok inst -> 0 < size < 2 ^ 63 -> safe_ok vm args st ->
  safely (fun p => safe_ok vm args p.2 /\ p.2.(core) = st.(core) /\ mapped st.(core).(mem) p.1 size /\
            forall m, changes_only p.1 size st.(core).(mem) m -> safe_mem_step st.(core).(mem) m)
    (safe_atomic_access args cur_pc inst size st).
Proof using Hargs Htab.
  intros Hi Hsize Hst. pose proof (sf_core _ _ _ Hst) as Hc. unfold safe_atomic_access.
  destruct (ubpf_safe_compute_access _ _ _ _ _ _) as [a | e] eqn:E; [| exact I]. cbn [of_result bind_outcome].
  apply compute_access_ok in E as (_ & Hfit & Hg); [| by apply get_tag_ok | by eapply get_reg_fits | apply Hi | lia].
  pose proof (get_tag_ok _ _ _ inst.(dst) Hst) as Ht.
  destruct (invalidate_ok st.(safe_spill_slots) a size) as (slots & -> & Hlen & Hj); [done | lia | apply Hst |].
  cbn [of_option bind_outcome safely fst snd]. split; [| split; [done | split]].
  - apply safe_ok_set_slots; [rewrite Hlen; apply Hst | eapply invalidated_tags; [apply Hst | done] | done].
  - eapply access_mapped; [done | done | apply Hc | apply Hst].
  - intros m. by apply (granted_write _ _ _ _ _ _ Ht Hg).
Qed.

(** The read-modify-write after the access was checked. *)
Lemma safe_rmw_ok st a (n : nat) new fetch index old :
  safe_ok vm args st -> mapped st.(core).(mem) a (Z.of_nat n) ->
  (forall m, changes_only a (Z.of_nat n) st.(core).(mem) m -> safe_mem_step st.(core).(mem) m) -> fits64 old ->
  safely (safe_act_ok st.(core).(mem))
    (bind_outcome (of_option (store_bytes st.(core).(mem) a (le_encode n new)))
       (fun m => Value (SafeContinue (safe_fetch fetch index old (set_core (set_mem m st.(core)) st))))).
Proof.
  intros Hst Hmap Hstep Hold.
  destruct (store_bytes_mapped st.(core).(mem) a (le_encode n new)) as [m Hm]; [by rewrite length_le_encode |].
  rewrite Hm. cbn [of_option bind_outcome]. pose proof (store_bytes_spec _ _ _ _ Hm) as [Hch _].
  rewrite length_le_encode in Hch.
  assert (safe_ok vm args (set_core (set_mem m st.(core)) st)) as Hst1.
  { apply safe_ok_write; [| done]. split; [| by destruct Hch as [-> _]].
    eapply store_bytes_ok; [apply Hst | apply le_encode_bytes | done]. }
  split; [| by destruct fetch; apply Hstep]. destruct fetch; [| done]. cbn [safe_next safe_fetch].
  apply safe_ok_set_tag; [apply scalar_tag_ok |].
  apply safe_ok_same_mem; [apply state_ok_set_reg; [done | apply Hst1] | done | done].
Qed.

Lemma safe_atomic64_ok cur_pc inst st :
  inst_ok inst -> safe_ok vm args st -> safely (safe_act_ok st.(core).(mem)) (safe_atomic64 args cur_pc inst st).
Proof using Hargs Htab.
  intros Hi Hst. unfold safe_atomic64.
  eapply safely_bind; [apply safe_atomic_access_ok; [done | lia | done] |].
  intros [a st1] (Hst1 & Ec & Hmap & Hstep). cbn [fst snd] in *. rewrite <- Ec in *.
  destruct (atomic_new_value 64 _ 0 0 0); [| exact I].
  destruct (proj2 (deref_mapped (mem (core st1)) a 8)) as [old Hold]; [done |]. rewrite Hold.
  cbn [of_option bind_outcome]. apply deref_range in Hold; [| apply Hst1]. by apply safe_rmw_ok.
Qed.

Lemma safe_atomic32_ok cur_pc inst st :
  inst_ok inst -> safe_ok vm args st -> safely (safe_act_ok st.(core).(mem)) (safe_atomic32 args cur_pc inst st).
Proof using Hargs Htab.
  intros Hi Hst. unfold safe_atomic32.
  eapply safely_bind; [apply safe_atomic_access_ok; [done | lia | done] |].
  intros [a st1] (Hst1 & Ec & Hmap & Hstep). cbn [fst snd] in *. rewrite <- Ec in *.
  destruct (atomic_new_value 32 _ 0 0 0); [| exact I].
  destruct (proj2 (deref_mapped (mem (core st1)) a 4)) as [old Hold]; [done |]. rewrite Hold.
  cbn [of_option bind_outcome]. apply deref_range in Hold; [| apply Hst1].
  apply safe_rmw_ok; [done .. |]. unfold fits64. lia.
Qed.

(** *** Control flow *)

Lemma exit_mem st act : exec_exit st = Value act -> (next_state act).(mem) = st.(mem).
Proof. unfold exec_exit. destruct (_ <? _); by intros [= <-]. Qed.

Lemma local_call_mem k inst st act : exec_local_call k inst st = Value act -> (next_state act).(mem) = st.(mem).
Proof. unfold exec_local_call. destruct (_ <=? _); [discriminate |]. by intros [= <-]. Qed.

Lemma lddw_mem inst st act : exec_lddw vm inst st = Value act -> (next_state act).(mem) = st.(mem).
Proof. unfold exec_lddw. destruct (ubpf_fetch_instruction vm _); [| discriminate]. by intros [= <-]. Qed.

Lemma saved_tag_ok st i j : safe_ok vm args st -> tag_ok vm args (saved_tag (safe_frame_at st i) j).
Proof.
  intros Hst. unfold saved_tag, safe_frame_at.
  destruct (st.(safe_frames) !! Z.to_nat i) as [f |] eqn:Ef; cbn [from_option id].
  - destruct (f.(saved_register_tags) !! j) as [t |] eqn:Et; [| apply scalar_tag_ok].
    by apply (Forall_lookup_1 _ _ _ _ (Forall_lookup_1 _ _ _ _ (sf_frames _ _ _ Hst) Ef) Et).
  - destruct (saved_register_tags no_safe_frame !! j) as [t |] eqn:Et; [| apply scalar_tag_ok].
    apply lookup_replicate in Et as [-> _]. apply scalar_tag_ok.
Qed.

Lemma safely_state m x : safely (act_ok h vm args m) x -> safely (fun act => state_ok vm args (next_state act)) x.
Proof. destruct x; [by intros [? _] | done ..]. Qed.

Lemma safe_exit_ok st : safe_ok vm args st -> safely (safe_act_ok st.(core).(mem)) (safe_exit st).
Proof.
  intros Hst. unfold safe_exit.
  pose proof (safely_state _ _ (exec_exit_ok h vm args _ (sf_core _ _ _ Hst))) as Hx.
  destruct (exec_exit (core st)) as [act | |] eqn:E; [| done ..]. apply exit_mem in E. cbn in Hx, E.
  assert (safe_ok vm args (set_core (next_state act) st)) as Hst' by (by apply safe_ok_same_mem).
  destruct act as [c | v c]; cbn [next_state] in *; (split; [| by left]); [| done]. cbn [safe_next].
  do 4 (apply safe_ok_set_tag; [by apply saved_tag_ok |]). by apply scalar_r1_to_r5_ok.
Qed.

Lemma safe_local_call_ok cur_pc inst st :
  safe_ok vm args st -> safely (safe_act_ok st.(core).(mem)) (safe_local_call cur_pc inst st).
Proof.
  intros Hst. unfold safe_local_call. cbv zeta.
  pose proof (safely_state _ _ (exec_local_call_ok h vm args cur_pc inst _ (sf_core _ _ _ Hst))) as Hx.
  destruct (exec_local_call cur_pc inst (core st)) as [act | |] eqn:E; [| done ..].
  apply local_call_mem in E. cbn in Hx, E.
  assert (safe_ok vm args (set_core (next_state act) st)) as Hst' by (by apply safe_ok_same_mem).
  destruct act as [c | v c]; cbn [next_state] in *; (split; [| by left]); [| done]. cbn [safe_next].
  destruct Hst' as [? ? ? ? Hf ? ?]. constructor; try done. cbn. apply Forall_insert; [done |]. cbn.
  repeat (apply Forall_cons_2; [by apply get_tag_ok |]). constructor.
Qed.

Lemma safe_lddw_ok inst st :
  is_Some (ubpf_fetch_instruction vm st.(core).(pc)) -> safe_ok vm args st ->
  safely (safe_act_ok st.(core).(mem)) (safe_lddw vm inst st).
Proof.
  intros Hf Hst. unfold safe_lddw.
  pose proof (safely_state _ _ (exec_lddw_ok h vm args inst _ Hf (sf_core _ _ _ Hst))) as Hx.
  destruct (exec_lddw vm inst (core st)) as [act | |] eqn:E; [| done ..]. apply lddw_mem in E. cbn in Hx, E.
  assert (safe_ok vm args (set_core (next_state act) st)) as Hst' by (by apply safe_ok_same_mem).
  destruct act as [c | v c]; cbn [next_state] in *; (split; [| by left]); [| done]. cbn [safe_next].
  by apply safe_ok_set_tag; [apply scalar_tag_ok |].
Qed.

(** *** Helper calls *)

Lemma find_region_elem id r :
  ubpf_safe_find_region_by_id vm id = Some r -> r ∈ vm.(safe_regions) /\ r.(region_in_use) = true.
Proof.
  intros Hf. apply find_some in Hf as [Hin Hm]. apply andb_true_iff in Hm as [Hu _].
  split; [by apply list_elem_of_In | done].
Qed.

Lemma result_tag_ok cur_pc i helper r0 :
  vm.(safe_helpers) !! i = Some helper -> helper.(helper_in_use) = true ->
  safely (tag_ok vm args) (result_tag vm cur_pc helper r0).
Proof using Htab.
  intros Hi Hu. pose proof (Forall_lookup_1 _ _ _ _ (tb_helpers _ Htab) Hi Hu) as Hh.
  unfold result_tag, is_scalar_result. case_bool_decide as Hk; [apply scalar_tag_ok |].
  destruct (Hh Hk) as [Hsize _].
  destruct (ubpf_safe_find_region_by_id vm _) as [r |] eqn:Hr; [| exact I].
  apply find_region_elem in Hr as [Hr Hru].
  case_bool_decide as Hp; [| case_bool_decide; cbn [andb orb]; repeat (case_match; [exact I |]); apply handle_tag_ok].
  rewrite (bool_decide_eq_false_2 (_ = UBPF_SAFE_HELPER_RESULT_HANDLE)) by (rewrite Hp; discriminate).
  case_bool_decide as Hrk; cbn [negb andb orb]; [| exact I].
  destruct (Z.ltb_spec r0 r.(slot_base)); cbn [orb]; [exact I |].
  destruct (Z.ltb_spec r.(slot_end) r0); cbn [orb]; [exact I |].
  destruct (Z.ltb_spec (r.(slot_end) - r0) helper.(helper_region_size)); [exact I |].
  intros _. cbn. apply granted_region; [done .. | lia |]. split; lia.
Qed.

Lemma safe_invoke_ok inst c :
  external_call_ok vm inst.(imm) -> state_ok vm args c ->
  safely_if (is_Some (helper_outcome h vm args inst c))
    (fun c' => state_ok vm args c' /\ dom c.(mem) ⊆ dom c'.(mem)) (safe_invoke vm args inst c).
Proof using HS.
  intros (H0 & Hx) Hc. unfold safe_invoke. cbv zeta.
  eapply (safely_if_bind _ (fun p => mem_extends c.(mem) p.2)).
  - pose proof (helper_outcome_extends h vm args inst c) as Hext. unfold helper_outcome in *. cbv zeta in *.
    destruct Hx as [[Hd _] | (Hd & Hlt & Hfn)].
    + apply Z.eqb_neq in Hd. rewrite Hd in *. cbn [negb] in *. apply safely_if_of_option; [done |]. intros p. apply Hext, Hc.
    + apply Z.eqb_eq in Hd. rewrite Hd in *. cbn [negb] in *.
      destruct (ext_funcs vm !! Z.to_nat inst.(imm)) as [fn |]; cbn in Hfn; [| done].
      cbn [of_option bind_outcome mbind option_bind] in *. apply Z.eqb_neq in Hfn. rewrite Hfn.
      apply safely_if_of_option; [done |]. intros p. apply Hext, Hc.
  - intros [r0 m] Hm. cbn [fst snd safely_if] in *. split; [| apply Hm].
    apply state_ok_set_mem; [done |]. apply state_ok_set_reg; [apply (wrap_range 64); lia | done].
Qed.

Lemma safe_external_call_ok cur_pc inst st :
  external_call_ok vm inst.(imm) -> safe_ok vm args st ->
  safely_if (is_Some (helper_outcome h vm args inst st.(core)))
    (fun act => safe_ok vm args (safe_next act)) (safe_external_call vm args cur_pc inst st).
Proof using HS Htab.
  intros Hx Hst. unfold safe_external_call. cbv zeta.
  destruct (Z.ltb_spec inst.(imm) 0); cbn [orb]; [exact I |].
  destruct (Z.leb_spec MAX_EXT_FUNCS inst.(imm)); [exact I |].
  destruct (lookup_lt_is_Some_2 vm.(safe_helpers) (Z.to_nat inst.(imm))) as [helper Hh].
  { rewrite (tb_helpers_length _ Htab). lia. }
  rewrite Hh. cbn [of_option bind_outcome]. destruct (helper_in_use helper) eqn:Hu; cbn [negb]; [| exact I].
  destruct (negb (is_scalar_result _) && _); [exact I |].
  eapply safely_if_bind; [apply safe_invoke_ok; [done | apply Hst] |]. intros c [Hc Hd].
  assert (safe_ok vm args (set_core c st)) as Hst'.
  { apply safe_ok_set_core; [done | eapply safe_regions_extends; [done | apply Hst] | done]. }
  destruct (_ && _); [exact Hst' |].
  eapply safely_if_bind; [by eapply safely_if_of, result_tag_ok |]. intros t Ht. apply safe_ok_set_tag; [done |].
  by apply scalar_r1_to_r5_ok.
Qed.

(** *** Arithmetic *)

Lemma pointer_offset_ok t res pc t' : ubpf_safe_apply_pointer_offset t res pc = Ok t' -> t' = t.
Proof.
  unfold ubpf_safe_apply_pointer_offset. destruct (_ <? _); [discriminate |].
  destruct (_ || _); [discriminate | by intros [= <-]].
Qed.

(** The tag of a result is scalar or one of the operands'. *)
Lemma apply_alu_origin inst pc d s res t :
  ubpf_safe_apply_alu inst pc d s res = Ok t -> t = ubpf_safe_scalar_tag \/ t = d \/ t = s.
Proof.
  unfold ubpf_safe_apply_alu. cbv zeta. intros E.
  repeat first [ discriminate E | injection E as <- | apply pointer_offset_ok in E | case_match ]; auto.
Qed.

Lemma safe_after_ok cur_pc inst d s st :
  tag_ok vm args d -> tag_ok vm args s -> safe_ok vm args st ->
  safely (fun st' => safe_ok vm args st' /\ st'.(core).(mem) = st.(core).(mem)) (safe_after cur_pc inst d s st).
Proof.
  intros Hd Hs Hst. unfold safe_after.
  eapply (safely_bind (fun st' => safe_ok vm args st' /\ st'.(core) = st.(core))).
  - destruct (is_alu_class inst); [| done].
    destruct (ubpf_safe_apply_alu _ _ _ _ _) as [t |] eqn:E; [| exact I]. cbn [of_result bind_outcome]. split; [| done].
    apply safe_ok_set_tag; [| done]. by apply apply_alu_origin in E as [-> | [-> | ->]]; [apply scalar_tag_ok | ..].
  - intros st' [Hst' Ec]. cbn [safely set_core core]. rewrite truncate_alu32_mem, Ec. split; [| done].
    apply safe_ok_same_mem; [apply truncate_alu32_ok; rewrite <- Ec; apply Hst' | by rewrite truncate_alu32_mem, Ec | done].
Qed.

(** ** The switch *)

Variable prog : list ebpf_inst.
Hypothesis Hld : loaded vm prog.

Definition safe_inst_after (inst : ebpf_inst) (m : memory) (act : safe_action) : Prop :=
  safe_ok vm args (safe_next act) /\ (calls_out inst = false -> safe_mem_step m (safe_next act).(core).(mem)).

Lemma safe_act_inst D inst m x : safely (safe_act_ok m) x -> safely_if D (safe_inst_after inst m) x.
Proof. destruct x; simpl; [| done ..]. intros [? ?]. by split. Qed.

Lemma safe_goto_ok d st : safe_ok vm args st -> safe_ok vm args (safe_goto d st).
Proof. intros Hst. apply safe_ok_same_mem; [apply state_ok_jump, Hst | done | done]. Qed.

Lemma safe_other_ok cur_pc op inst st :
  inst_ok inst -> inst_checked vm prog cur_pc inst op -> 0 <= cur_pc < vm.(num_insts) ->
  st.(core).(pc) = u16 (cur_pc + 1) -> safe_ok vm args st ->
  safely_if (calls_out inst = true -> is_Some (helper_outcome h vm args inst st.(core)))
    (safe_inst_after inst st.(core).(mem)) (safe_other vm args cur_pc op inst st).
Proof using All.
  intros Hi Hck Hpc Epc Hst. unfold safe_other.
  destruct (load_shape op) as [[size sx] |] eqn:El.
  { apply load_shape_ok in El as [? ?]. by apply safe_act_inst, safe_load_ok. }
  destruct (store_shape op) as [[size fr] |] eqn:Es.
  { apply store_shape_ok in Es. by apply safe_act_inst, safe_store_ok. }
  pose proof (ck_group _ _ _ _ _ Hck) as Hg. pose proof (switch_op_sound _ _ (ck_op _ _ _ _ _ Hck)) as Hop.
  destruct op; try exact I; cbn [group_of group_checked] in Hg;
    try (split; [by apply safe_goto_ok | by left]);
    try (apply safe_act_inst; by apply safe_atomic64_ok); try (apply safe_act_inst; by apply safe_atomic32_ok);
    try (apply safe_act_inst; by apply safe_exit_ok).
  - (* LDDW *)
    apply safe_act_inst, safe_lddw_ok; [| done]. rewrite Epc.
    pose proof (vd_length _ _ (ld_validated _ _ Hld)) as Hlen. unfold UBPF_MAX_INSTS in Hlen.
    rewrite (ld_num_insts _ _ Hld) in Hpc. rewrite wrap_id by lia.
    rewrite (ld_fetch _ _ Hld) by (rewrite (ld_num_insts _ _ Hld); lia). apply lookup_lt_is_Some_2. lia.
  - (* CALL *)
    unfold safe_call. destruct Hg as [[Hs Hx] | (Hs & _)]; rewrite Hs; cbn [Z.eqb].
    + pose proof (safe_external_call_ok cur_pc inst st Hx Hst) as Hsafe.
      assert (calls_out inst = true) as Hout by (unfold calls_out; by rewrite <- Hop, Hs).
      destruct (safe_external_call _ _ _ _ _); [| done |]; [| by intros Hdef; apply Hsafe, Hdef].
      split; [done |]. by rewrite Hout.
    + by apply safe_act_inst, safe_local_call_ok.
Qed.

Lemma safe_switch_ok cur_pc op inst st :
  inst_ok inst -> inst_checked vm prog cur_pc inst op -> 0 <= cur_pc < vm.(num_insts) ->
  st.(core).(pc) = u16 (cur_pc + 1) -> safe_ok vm args st ->
  safely_if (neg_overflows op (get_reg st.(core) inst.(dst)) = false /\
             (calls_out inst = true -> is_Some (helper_outcome h vm args inst st.(core))))
    (safe_inst_after inst st.(core).(mem)) (safe_switch vm args cur_pc inst st).
Proof using All.
  intros Hi Hck Hpc Epc Hst. unfold safe_switch. rewrite (ck_op _ _ _ _ _ Hck).
  destruct (neg_overflows _ _); [by intros [? _] |].
  pose proof (sf_core _ _ _ Hst) as Hc.
  pose proof (get_reg_fits _ _ _ inst.(dst) Hc) as Hd. pose proof (get_reg_fits _ _ _ inst.(src) Hc) as Hs.
  destruct (safe_alu _ _ _ _ _) as [v |] eqn:Ha.
  { apply safe_alu_fits in Ha; [| apply Hi | done | done | eapply valid_offset_ok; apply Hck].
    split; [| by left]. apply safe_ok_same_mem; [by apply state_ok_set_reg | done | done]. }
  destruct (safe_condition _ _ _ _) as [[] |].
  - split; [by apply safe_goto_ok | by left].
  - split; [done | by left].
  - pose proof (safe_other_ok cur_pc op inst st Hi Hck Hpc Epc Hst) as Hx.
    destruct (safe_other _ _ _ _ _ _); [done .. |]. intros [_ Hdef]. by apply Hx.
Qed.

Lemma fetch_inst_ok k inst : ubpf_fetch_instruction vm k = Some inst -> inst_ok inst.
Proof.
  unfold ubpf_fetch_instruction. intros Hf. apply fmap_Some in Hf as (w & _ & ->). apply inst_of_u64_ok.
Qed.

Lemma safe_switch_at_pc cur_pc inst st :
  0 <= cur_pc < vm.(num_insts) -> prog !! Z.to_nat cur_pc = Some inst -> inst_ok inst ->
  st.(core).(pc) = u16 (cur_pc + 1) -> safe_ok vm args st ->
  safely_if ((inst.(opcode) = opcode_of EBPF_OP_NEG -> get_reg st.(core) inst.(dst) <> 2 ^ 63) /\
             (calls_out inst = true -> is_Some (helper_outcome h vm args inst st.(core))))
    (safe_inst_after inst st.(core).(mem)) (safe_switch vm args cur_pc inst st).
Proof using All.
  intros Hpc Hinst Hi Epc Hst. destruct (Z.eq_dec (opcode inst) 0) as [H0 | H0].
  { unfold safe_switch. rewrite H0. change (switch_op 0) with (@None ebpf_op). exact I. }
  assert (start prog cur_pc) as Hs.
  { eapply validated_nonzero_start; [apply Hld | rewrite (ld_num_insts _ _ Hld) in Hpc; lia |].
    unfold inst_at. by rewrite Hinst. }
  destruct (vd_checked _ _ (ld_validated _ _ Hld) _ _ Hs Hinst) as [op Hck].
  pose proof (safe_switch_ok cur_pc op inst st Hi Hck Hpc Epc Hst) as Hx.
  destruct (safe_switch _ _ _ _ _); [done .. |]. intros [Hneg Hdef]. apply Hx. split; [| done].
  eapply neg_not_overflow; [apply Hck | apply Hst | done].
Qed.

(** ** One turn of the loop *)

Definition safe_step_after (st : safe_state) (act : safe_action) : Prop :=
  safe_ok vm args (safe_next act) /\
  (vm.(debug_function) = 0 ->
   (forall inst, prog !! Z.to_nat st.(core).(pc) = Some inst -> calls_out inst = false) ->
   safe_mem_step st.(core).(mem) (safe_next act).(core).(mem)).

Lemma safe_step_safely st :
  safe_ok vm args st -> safely_if (turn_defined h vm args prog st.(core)) (safe_step_after st) (safe_step vm args st).
Proof using All.
  intros Hst. unfold safe_step. pose proof (sf_core _ _ _ Hst) as Hc.
  destruct (Z.leb_spec vm.(num_insts) st.(core).(pc)) as [| Hpc]; [exact I |].
  cbn [negb require bind_outcome]. pose proof (so_pc _ _ _ Hc) as Hpc0. pose proof (proj1 Hpc0) as Hpc0'.
  eapply safely_if_bind; [by apply safely_if_of, (count_instruction_ok h vm args) |]. intros c1 (Hc1 & E1p & E1r & E1m).
  eapply safely_if_bind; [eapply safely_if_of, (enter_function_ok h vm args); [exact Hld | by rewrite E1p | done] |].
  intros c2 (Hc2 & E2p & E2r & E2m).
  destruct (lookup_lt_is_Some_2 prog (Z.to_nat st.(core).(pc))) as [inst Hinst].
  { rewrite (ld_num_insts _ _ Hld) in Hpc. lia. }
  assert (ubpf_fetch_instruction vm st.(core).(pc) = Some inst) as Hf by (by rewrite (ld_fetch _ _ Hld), Hinst by lia).
  pose proof (fetch_inst_ok _ _ Hf) as Hi. rewrite Hf. cbn [of_option bind_outcome].
  apply (safely_if_bind _ (fun _ => True)); [by destruct (ubpf_validate_shadow_register _ _ _ _) |]. intros shadow _.
  set (c3 := call_debug_function _ _ _ _).
  assert (state_ok vm args c3) as Hc3.
  { apply (call_debug_ok h). apply state_ok_set_shadow_registers, state_ok_set_pc; [apply (wrap_range 16); lia | done]. }
  assert (pc c3 = u16 (pc (core st) + 1) /\ reg c3 = reg (core st) /\
          dom (mem (core st)) ⊆ dom (mem c3) /\ (vm.(debug_function) = 0 -> mem c3 = mem (core st)))
    as (E3p & E3r & E3d & E3m).
  { unfold c3, call_debug_function. destruct (Z.eqb_spec (debug_function vm) 0); cbn;
      rewrite E2r, E1r, ?E2m, ?E1m; [done |]. split; [done |]. split; [done |]. split; [| done].
    apply hs_debug, Hc. }
  assert (safe_ok vm args (set_core c3 st)) as Hst3.
  { apply safe_ok_set_core; [done | eapply safe_regions_extends; [done | apply Hst] | done]. }
  eapply (safely_if_bind _ (safe_inst_after inst c3.(mem))).
  - pose proof (safe_switch_at_pc _ inst (set_core c3 st) (conj Hpc0' Hpc) Hinst Hi E3p Hst3) as Hx.
    destruct (safe_switch _ _ _ _ _); [done .. |]. intros [Hneg Hdef]. apply Hx. split.
    + intros Hop. unfold get_reg. cbn [core set_core]. rewrite E3r. by apply Hneg.
    + intros Hout. by apply (Hdef inst).
  - intros act [Hok Hmem]. destruct act as [st' | v st']; cbn [safe_next] in *.
    + eapply safely_if_bind; [apply safely_if_of, safe_after_ok; [by apply get_tag_ok | by apply get_tag_ok | done] |].
      intros st'' [Hst'' Em]. split; [done |]. intros Hdbg Hno. cbn [safe_next]. rewrite Em, <- E3m by done. auto.
    + split; [done |]. intros Hdbg Hno. cbn [safe_next]. rewrite <- E3m by done. auto.
Qed.

End SafeAccess.

(** ** Whole executions *)

Section SafeRuns.
Context `{HostEnv}.
Variables (vm : ubpf_vm) (args : exec_args).

Definition safe_steps (st st' : safe_state) : Prop := safe_step vm args st = Value (SafeContinue st').
Definition safe_reaches : safe_state -> safe_state -> Prop := rtc safe_steps.

Lemma safe_loop_reaches fuel st r :
  safe_loop vm args fuel st = Some r ->
  exists st', safe_reaches st st' /\
    match r with
    | Returned v m => exists st'', safe_step vm args st' = Value (SafeExit v st'') /\ m = st''.(core).(mem)
    | Error e => safe_step vm args st' = Failed e
    | UndefinedBehaviour => safe_step vm args st' = Undefined
    end.
Proof.
  revert st. induction fuel as [| fuel IH]; intros st; simpl; [discriminate |].
  destruct (safe_step vm args st) as [[st' | v st'] | e |] eqn:E.
  - intros Hr. destruct (IH st' Hr) as (st'' & Hreach & Hend). exists st''. split; [| done].
    by eapply rtc_l.
  - intros [= <-]. exists st. split; [constructor | eauto].
  - intros [= <-]. exists st. by split; [constructor |].
  - intros [= <-]. exists st. by split; [constructor |].
Qed.

(** An instruction leaves the limit alone, and an exit returns r0. *)
Definition safe_keeps (st : safe_state) (act : safe_action) : Prop :=
  (safe_next act).(core).(limit) = st.(core).(limit) /\
  match act with SafeContinue _ => True | SafeExit v st' => v = get_reg st'.(core) 0 end.

Ltac any_then := eapply whenever_bind; [apply whenever_any |]; intros ? _.

Lemma safe_load_keeps k inst size sx st : whenever (safe_keeps st) (safe_load vm args k inst size sx st).
Proof.
  unfold safe_load. any_then. any_then. any_then. cbv zeta.
  destruct (_ && _); [any_then | apply whenever_value; by destruct a0].
  apply whenever_value. by destruct (spill_valid _), a0.
Qed.

Lemma safe_store_keeps k inst size v keep st : whenever (safe_keeps st) (safe_store vm args k inst size v keep st).
Proof.
  unfold safe_store. any_then. any_then. any_then. cbv zeta.
  destruct (ubpf_safe_is_stack_pointer _ _ _); [any_then | by apply whenever_value].
  destruct (_ && _); [any_then |]; by apply whenever_value.
Qed.

Lemma safe_atomic_access_core k inst size st :
  whenever (fun p => p.2.(core) = st.(core)) (safe_atomic_access args k inst size st).
Proof. unfold safe_atomic_access. any_then. any_then. by apply whenever_value. Qed.

Lemma safe_atomic64_keeps k inst st : whenever (safe_keeps st) (safe_atomic64 args k inst st).
Proof.
  unfold safe_atomic64. eapply whenever_bind; [apply safe_atomic_access_core |]. intros [a st1] Hk. cbn [snd] in Hk.
  cbv zeta. destruct (atomic_new_value _ _ _ _ _); [| done]. any_then. any_then. apply whenever_value.
  rewrite Hk. by destruct (negb _).
Qed.

Lemma safe_atomic32_keeps k inst st : whenever (safe_keeps st) (safe_atomic32 args k inst st).
Proof.
  unfold safe_atomic32. eapply whenever_bind; [apply safe_atomic_access_core |]. intros [a st1] Hk. cbn [snd] in Hk.
  cbv zeta. destruct (atomic_new_value _ _ _ _ _); [| done]. any_then. any_then. apply whenever_value.
  rewrite Hk. by destruct (_ || _).
Qed.

Lemma safe_exit_keeps st : whenever (safe_keeps st) (safe_exit st).
Proof.
  unfold safe_exit, exec_exit. destruct (_ <? _); cbn [bind_outcome]; by apply whenever_value.
Qed.

Lemma safe_external_call_keeps k inst st : whenever (safe_keeps st) (safe_external_call vm args k inst st).
Proof.
  unfold safe_external_call. cbv zeta. destruct (_ || _); [done |]. any_then. destruct (negb _); [done |].
  destruct (_ && _); [done |].
  eapply (whenever_bind (fun c => c.(limit) = st.(core).(limit))).
  - unfold safe_invoke. any_then. by apply whenever_value.
  - intros c Hl. destruct (_ && _); [by apply whenever_value |]. any_then. by apply whenever_value.
Qed.

Lemma safe_local_call_keeps k inst st : whenever (safe_keeps st) (safe_local_call k inst st).
Proof.
  unfold safe_local_call, exec_local_call. cbv zeta. destruct (_ <=? _); [done |]. cbn [bind_outcome].
  by apply whenever_value.
Qed.

Lemma safe_lddw_keeps inst st : whenever (safe_keeps st) (safe_lddw vm inst st).
Proof.
  unfold safe_lddw, exec_lddw. destruct (ubpf_fetch_instruction _ _); [| done]. by apply whenever_value.
Qed.

Lemma safe_switch_keeps k inst st : whenever (safe_keeps st) (safe_switch vm args k inst st).
Proof.
  unfold safe_switch. destruct (switch_op inst.(opcode)) as [op |]; [| done].
  destruct (neg_overflows _ _); [done |].
  destruct (safe_alu _ _ _ _ _); [by apply whenever_value |].
  destruct (safe_condition _ _ _ _) as [[] |]; [by apply whenever_value .. |].
  unfold safe_other. destruct (load_shape op) as [[size sx] |]; [apply safe_load_keeps |].
  destruct (store_shape op) as [[size fr] |]; [apply safe_store_keeps |].
  destruct op; try done; try (by apply whenever_value);
    auto using safe_lddw_keeps, safe_exit_keeps, safe_atomic64_keeps, safe_atomic32_keeps.
  unfold safe_call. repeat case_match; auto using safe_external_call_keeps, safe_local_call_keeps;
    [done | by apply whenever_value].
Qed.

(** The state the switch starts from. *)
Lemma safe_step_inv st act :
  safe_step vm args st = Value act ->
  exists inst c3 act3,
    ubpf_fetch_instruction vm st.(core).(pc) = Some inst /\ before_switch vm st.(core) c3 /\
    safe_switch vm args st.(core).(pc) inst (set_core c3 st) = Value act3 /\
    match act3 with
    | SafeContinue st3 =>
        exists st4, safe_after st.(core).(pc) inst (get_tag st inst.(dst)) (get_tag st inst.(src)) st3 = Value st4 /\
          act = SafeContinue st4
    | SafeExit v st3 => act = SafeExit v st3
    end.
Proof.
  unfold safe_step. destruct (negb _); [| discriminate]. cbn [require bind_outcome].
  destruct (count_instruction vm _) as [c1 | |] eqn:E1; [| discriminate ..]. cbn [bind_outcome].
  destruct (enter_function vm c1) as [c2 | |] eqn:E2; [| discriminate ..]. cbn [bind_outcome].
  destruct (ubpf_fetch_instruction vm _) as [inst |]; [| discriminate]. cbn [of_option bind_outcome].
  destruct (ubpf_validate_shadow_register _ _ _ _) as [shadow |]; [| discriminate].
  cbn [of_result bind_outcome]. set (c3 := call_debug_function _ _ _ _).
  destruct (safe_switch _ _ _ _ _) as [act3 | |] eqn:E3; [| discriminate ..]. cbn [bind_outcome].
  intros Hact. exists inst, c3, act3. split; [done |]. split; [by eapply prologue_before |]. split; [done |].
  destruct act3 as [st3 | v st3]; [| by injection Hact as <-].
  destruct (safe_after _ _ _ _ _) as [st4 | |]; [| discriminate ..]. exists st4. by injection Hact as <-.
Qed.

Lemma safe_after_limit k inst d s st st' :
  safe_after k inst d s st = Value st' -> st'.(core).(limit) = st.(core).(limit).
Proof.
  unfold safe_after, truncate_alu32. destruct (is_alu_class inst).
  - destruct (ubpf_safe_apply_alu _ _ _ _ _); [| discriminate]. cbn [of_result bind_outcome].
    intros [= <-]. cbn. by destruct (_ && _).
  - intros [= <-]. cbn. by destruct (_ && _).
Qed.

Lemma safe_step_limit st st' :
  vm.(instruction_limit) <> 0 -> safe_steps st st' ->
  0 < st.(core).(limit) /\ st'.(core).(limit) = st.(core).(limit) - 1.
Proof.
  intros Hl Hs. apply safe_step_inv in Hs as (inst & c3 & act3 & _ & Hb & Hsw & Hact).
  destruct (bs_limit _ _ _ Hb Hl) as [H0 H1]. split; [done |].
  apply safe_switch_keeps in Hsw as [Hk _]. destruct act3 as [st3 | v st3]; [| discriminate].
  destruct Hact as (st4 & Hafter & [= ->]). apply safe_after_limit in Hafter. rewrite Hafter, <- H1. exact Hk.
Qed.

Lemma safe_step_returns st v st' : safe_step vm args st = Value (SafeExit v st') -> v = get_reg st'.(core) 0.
Proof.
  intros Hs. apply safe_step_inv in Hs as (inst & c3 & act3 & _ & _ & Hsw & Hact).
  apply safe_switch_keeps in Hsw as [_ Hv]. destruct act3; [| by injection Hact as <- <-].
  by destruct Hact as (? & _ & ?).
Qed.

Lemma safe_loop_limit (n : nat) st :
  vm.(instruction_limit) <> 0 -> st.(core).(limit) <= Z.of_nat n -> is_Some (safe_loop vm args (S n) st).
Proof.
  intros Hl. revert st. induction n as [| n IH]; intros st Hn; cbn [safe_loop].
  - destruct (safe_step vm args st) as [[st' |] | |] eqn:E; eauto.
    apply safe_step_limit in E as [? _]; [lia | done].
  - destruct (safe_step vm args st) as [[st' |] | |] eqn:E; eauto.
    apply IH. apply safe_step_limit in E as [? ->]; [lia | done].
Qed.

End SafeRuns.

(** ** Safety of whole executions *)

(** The caller's arguments: no object is larger than half the address space. *)
Record safe_args_ok (args : exec_args) : Prop := SafeArgsOk {
  sa_fit : args_fit args;
  sa_length : args.(stack_length) < 2 ^ 63;
}.

Section SafeWholeRuns.
Context (h : HostEnv) {HS : HostSound h}.
Variables (vm : ubpf_vm) (args : exec_args) (prog : list ebpf_inst).
Hypothesis Hargs : safe_args_ok args.
Hypothesis Htab : safe_tables_ok vm.
Hypothesis Hld : loaded vm prog.

Lemma safe_array_covers : args.(stack_length) <= 8 * Z.of_nat (safe_array_size args).
Proof using Hargs.
  destruct Hargs as [[_ _ (H1 & H2 & H3)] H4]. unfold safe_array_size. rewrite wrap_id by lia.
  pose proof (Z.div_mod (stack_length args + 7) 8 ltac:(lia)).
  pose proof (Z.mod_pos_bound (stack_length args + 7) 8 ltac:(lia)).
  assert (0 <= (stack_length args + 7) / 8) by (apply Z.div_pos; lia).
  destruct (Z.eqb_spec ((stack_length args + 7) / 8) 0); lia.
Qed.

Lemma safe_initial_ok garbage m :
  registers_ok garbage -> mem_ok m -> regions_mapped args m -> safe_regions_mapped vm m ->
  safe_ok vm args (safe_initial vm args garbage m).
Proof using Hargs.
  intros [Hl Hf] Hm Hr Hsr. pose proof safe_array_covers as Hcover. destruct Hargs as [[? ? (? & ? & ?)] _].
  unfold safe_initial. cbv zeta.
  apply safe_ok_set_tag; [intros _; apply granted_stack |].
  set (st := SafeState _ _ _ _). assert (safe_ok vm args st) as Hst.
  { constructor; unfold st; cbn [core safe_tags safe_frames safe_spill_slots]; try done.
    - apply state_ok_set_reg; [apply (wrap_range 64); lia |]. do 2 (apply state_ok_set_reg; [done |]).
      constructor; cbn -[replicate]; try done.
      + apply Forall_replicate. split; cbn; [lia |]. by repeat apply Forall_cons_2.
      + intros ->. split; [apply Forall_replicate; unfold byte_ok; lia | by rewrite length_replicate].
    - apply Forall_replicate, scalar_tag_ok.
    - apply Forall_replicate. apply Forall_replicate, scalar_tag_ok.
    - by rewrite length_replicate.
    - apply Forall_replicate, scalar_tag_ok. }
  destruct (Z.eqb_spec args.(arg_mem) 0); cbn [negb andb]; [done |].
  destruct (Z.ltb_spec 0 args.(arg_mem_len)); [| done].
  apply safe_ok_set_tag; [intros _; by apply granted_input | done].
Qed.

Lemma safe_step_ok st :
  safe_ok vm args st ->
  safely_if (turn_defined h vm args prog st.(core)) (safe_step_after h vm args prog st) (safe_step vm args st).
Proof using All. apply (safe_step_safely h vm args (sa_fit _ Hargs) Htab prog Hld st). Qed.

Lemma safe_reaches_ok st st' : safe_reaches vm args st st' -> safe_ok vm args st -> safe_ok vm args st'.
Proof using All.
  intros Hr. induction Hr as [| st st1 st' Hs _ IH]; [done |]. intros Hst. apply IH.
  pose proof (safe_step_ok st Hst) as Hsafe. unfold safe_steps in Hs. rewrite Hs in Hsafe. apply Hsafe.
Qed.

(** Address [i] lies in memory the program may write. *)
Definition writable (i : Z) : Prop :=
  exists p b s, granted vm args p b s /\ p .& UBPF_SAFE_REGION_WRITE = UBPF_SAFE_REGION_WRITE /\ b <= i < b + s.

Lemma safe_mem_step_confined m m' i : safe_mem_step vm args m m' -> ~ writable i -> m' !! i = m !! i.
Proof.
  intros [-> | (p & b & s & a & n & Hg & Hp & [H1 H2] & [_ Hc])] Hi; [done |]. apply Hc. intros Hin. apply Hi.
  exists p, b, s. split; [done |]. split; [done | lia].
Qed.

Lemma safe_reaches_confined st st' i :
  vm.(debug_function) = 0 -> Forall (fun inst => calls_out inst = false) prog -> ~ writable i ->
  safe_reaches vm args st st' -> safe_ok vm args st -> st'.(core).(mem) !! i = st.(core).(mem) !! i.
Proof using All.
  intros Hdbg Hno Hi Hr. induction Hr as [| st st1 st' Hs Hr IH]; [done |]. intros Hst.
  pose proof (safe_step_ok st Hst) as Hsafe.
  unfold safe_steps in Hs. rewrite Hs in Hsafe. destruct Hsafe as [Hst1 Hmem]. rewrite (IH Hst1).
  apply safe_mem_step_confined; [| done]. apply Hmem; [done |].
  intros inst Hinst. by apply (Forall_lookup_1 _ _ _ _ Hno Hinst).
Qed.

End SafeWholeRuns.

(** What starting an execution changes of the VM. *)
Lemma started_loaded `{HostEnv} vm prog : loaded vm prog -> loaded (set_execution_started true vm) prog.
Proof. intros Hld. destruct Hld. constructor; try done. by apply (validated_frame vm). Qed.

Lemma started_tables vm : safe_tables_ok vm -> safe_tables_ok (set_execution_started true vm).
Proof. intros []. by constructor. Qed.

(** The loop behind [ubpf_exec_ex] on a loaded VM with the safe profile. *)
Lemma exec_ex_safe_loop `{HostEnv} fuel vm args garbage m :
  vm.(execution_profile) = UBPF_EXECUTION_PROFILE_SAFE -> vm.(insts) <> 0 ->
  (ubpf_exec_ex fuel vm args (fun _ => true) garbage m).2 =
  safe_loop (set_execution_started true vm) args fuel (safe_initial (set_execution_started true vm) args garbage m).
Proof.
  intros Hp Hi. unfold ubpf_exec_ex. destruct (decide _) as [_ |]; [| done]. unfold ubpf_exec_ex_safe.
  rewrite (proj2 (Z.eqb_neq _ _) Hi). cbn [negb]. rewrite andb_false_r. done.
Qed.

Lemma started_granted vm args p b s : granted (set_execution_started true vm) args p b s -> granted vm args p b s.
Proof. intros []; by constructor. Qed.

(** A program that spills its input pointer, reloads it and reads through it:
    [stxdw [r10-8], r1; ldxdw r2, [r10-8]; ldxb r0, [r2]; exit]. *)
Definition spill_code : list Z :=
  bytes_of_insts [Inst 0x7b 10 1 (-8) 0; Inst 0x79 2 10 (-8) 0; Inst 0x71 0 2 0 0; Inst 0x95 0 0 0 0].
Definition spill_base : ubpf_vm :=
  set_instruction_limit 100 (set_execution_profile UBPF_EXECUTION_PROFILE_SAFE (empty_vm JitNull)).
Definition spill_vm : ubpf_vm := load_on null_host spill_base spill_code.
Definition spill_args : exec_args := ExecArgs 8192 1 4096 8.
Definition spill_mem : memory :=
  {[ 4096 := 0; 4097 := 0; 4098 := 0; 4099 := 0; 4100 := 0; 4101 := 0; 4102 := 0; 4103 := 0; 8192 := 42; 9000 := 1 ]}.

Lemma spill_loaded : @loaded null_host spill_vm (insts_of_bytes spill_code).
Proof.
  destruct (@load_outcome null_host spill_base test_os spill_code test_os_sound ltac:(discriminate)) as (vm' & r & E & _ & Hr).
  unfold spill_vm, load_on. rewrite E. destruct r as [[] | e]; [apply Hr |].
  exfalso. vm_compute in E. discriminate.
Qed.

Lemma spill_config :
  spill_vm.(execution_profile) = UBPF_EXECUTION_PROFILE_SAFE /\ spill_vm.(instruction_limit) = 100 /\
  spill_vm.(debug_function) = 0 /\ spill_vm.(undefined_behavior_check_enabled) = false /\
  spill_vm.(safe_regions) = (empty_vm JitNull).(safe_regions) /\
  spill_vm.(safe_helpers) = (empty_vm JitNull).(safe_helpers).
Proof. repeat (split; [vm_compute; reflexivity |]). vm_compute. reflexivity. Qed.

Lemma spill_tables : safe_tables_ok spill_vm.
Proof.
  destruct spill_config as (_ & _ & _ & _ & Er & Eh). destruct (create_tables_ok JitNull).
  constructor; rewrite ?Er, ?Eh; done.
Qed.

Lemma spill_no_neg : has_no_neg32 (insts_of_bytes spill_code).
Proof. repeat (apply Forall_cons_2; [vm_compute; discriminate |]). constructor. Qed.

Lemma spill_no_calls : Forall (fun inst => calls_out inst = false) (insts_of_bytes spill_code).
Proof. repeat (apply Forall_cons_2; [vm_compute; reflexivity |]). constructor. Qed.

Lemma spill_args_ok : safe_args_ok spill_args.
Proof.
  split; [| unfold spill_args; cbn [stack_length]; lia].
  split; unfold fits64, spill_args; cbn [arg_mem arg_mem_len stack_start stack_length]; lia.
Qed.

Lemma spill_mem_ok : mem_ok spill_mem.
Proof.
  unfold spill_mem, mem_ok. repeat (apply map_Forall_insert_2; [unfold byte_ok; lia |]).
  apply map_Forall_empty.
Qed.

Lemma spill_mapped : @regions_mapped null_host spill_args spill_mem.
Proof.
  split; [intros _ _ | split; [| by intros i []]]; intros i Hi; cbn [spill_args arg_mem arg_mem_len stack_start stack_length] in Hi.
  - assert (i = 8192) as -> by lia. vm_compute. eauto.
  - assert (i = 4096 \/ i = 4097 \/ i = 4098 \/ i = 4099 \/ i = 4100 \/ i = 4101 \/ i = 4102 \/ i = 4103) as Hc by lia.
    destruct_or! Hc; subst; vm_compute; eauto.
Qed.

Lemma no_region_used r : r ∈ (empty_vm JitNull).(safe_regions) -> r.(region_in_use) = true -> False.
Proof.
  change (safe_regions (empty_vm JitNull)) with (replicate (Z.to_nat UBPF_MAX_SAFE_REGIONS) safe_region_zero).
  intros Hr Hu. apply elem_of_replicate in Hr as [-> _]. discriminate.
Qed.

Lemma spill_regions : safe_regions_mapped spill_vm spill_mem.
Proof.
  destruct spill_config as (_ & _ & _ & _ & Er & _). intros r Hr Hu _. rewrite Er in Hr.
  by destruct (no_region_used r Hr Hu).
Qed.

(** C3: the safe profile protects against any loaded program without a 32-bit NEG:
    with an instruction limit, when the interpreter's allocations succeed,
    [ubpf_exec_ex] ends within [limit + 1] turns of the loop with a value or a
    reported error, and nothing undefined happens (no access outside mapped memory or
    an array, no call through NULL), even with the bounds checks of the legacy profile
    switched off; provided the program's memory, stack and registered regions are
    mapped and the embedder's functions behave: they keep the memory mapped, and those
    the program calls are defined on any arguments. *)
Theorem safe_exec_safe_and_total (h : HostEnv) (HS : HostSound h) (vm : ubpf_vm) (args : exec_args)
    (prog : list ebpf_inst) (garbage : list Z) (m : memory) :
  loaded vm prog -> vm.(execution_profile) = UBPF_EXECUTION_PROFILE_SAFE -> safe_tables_ok vm ->
  0 < vm.(instruction_limit) -> has_no_neg32 prog -> calls_defined h vm args prog -> safe_args_ok args ->
  registers_ok garbage -> mem_ok m -> regions_mapped args m -> safe_regions_mapped vm m ->
  exists r, (ubpf_exec_ex (S (Z.to_nat vm.(instruction_limit))) vm args (fun _ => true) garbage m).2 = Some r /\
    match r with
    | Returned v _ => 0 <= v < 2 ^ 64
    | Error _ => True
    | UndefinedBehaviour => False
    end.
Proof.
  intros Hld Hprof Htab Hlim Hn Hcd%started_calls Ha Hg Hm Hr Hsr. rewrite exec_ex_safe_loop by (done || apply Hld).
  apply started_loaded in Hld. apply started_tables in Htab. set (vm' := set_execution_started true vm) in *.
  pose proof (safe_initial_ok h vm' args Ha garbage m Hg Hm Hr Hsr) as Hst.
  set (st := safe_initial vm' args garbage m) in *.
  destruct (safe_loop_limit vm' args (Z.to_nat vm.(instruction_limit)) st) as [r Er];
    [cbn; lia | unfold st, safe_initial; case_match; cbn; lia |].
  exists r. split; [exact Er |]. apply safe_loop_reaches in Er as (st' & Hreach & Hend).
  pose proof (safe_reaches_ok h vm' args prog Ha Htab Hld _ _ Hreach Hst) as Hst'.
  pose proof (safe_step_ok h vm' args prog Ha Htab Hld st' Hst') as Hsafe.
  destruct r as [v m' | e |]; [| done | rewrite Hend in Hsafe; by apply Hsafe, turns_defined].
  destruct Hend as (st'' & Hs & _). pose proof (safe_step_returns _ _ _ _ _ Hs) as ->.
  rewrite Hs in Hsafe. destruct Hsafe as [Hst'' _]. by apply (get_reg_fits _ _ _ 0 (sf_core _ _ _ Hst'')).
Qed.

Lemma safe_exec_safe_and_total_witness :
  exists r, (@ubpf_exec_ex null_host 101 spill_vm spill_args (fun _ => true) (replicate 16 0) spill_mem).2 = Some r.
Proof.
  pose proof (safe_exec_safe_and_total null_host null_host_sound spill_vm spill_args (insts_of_bytes spill_code)
    (replicate 16 0) spill_mem spill_loaded (proj1 spill_config) spill_tables) as Hx.
  rewrite (proj1 (proj2 spill_config)) in Hx.
  destruct (Hx eq_refl spill_no_neg (no_calls_defined _ _ _ _ spill_no_calls) spill_args_ok demo_registers spill_mem_ok spill_mapped spill_regions)
    as (r & Hr & _).
  exists r. exact Hr.
Defined.

(** C4: the safe profile confines a program to what it was granted: when a program
    without helper calls returns (no debug function registered), every byte
    outside the input, the stack and the registered pointer regions with write
    permission has the value it had at the start. *)
Theorem safe_exec_confined (h : HostEnv) (HS : HostSound h) (vm : ubpf_vm) (args : exec_args)
    (prog : list ebpf_inst) (garbage : list Z) (m m' : memory) (fuel : nat) (v i : Z) :
  loaded vm prog -> vm.(execution_profile) = UBPF_EXECUTION_PROFILE_SAFE -> safe_tables_ok vm ->
  vm.(debug_function) = 0 -> Forall (fun inst => calls_out inst = false) prog ->
  safe_args_ok args -> registers_ok garbage -> mem_ok m -> regions_mapped args m -> safe_regions_mapped vm m ->
  (ubpf_exec_ex fuel vm args (fun _ => true) garbage m).2 = Some (Returned v m') ->
  ~ writable vm args i -> m' !! i = m !! i.
Proof.
  intros Hld Hprof Htab Hdbg Hno Ha Hg Hm Hr Hsr. rewrite exec_ex_safe_loop by (done || apply Hld).
  intros Hrun Hi. apply started_loaded in Hld. apply started_tables in Htab.
  set (vm' := set_execution_started true vm) in *.
  assert (~ writable vm' args i) as Hi'.
  { intros (p & b & s & Hgr & Hw). apply Hi. exists p, b, s. split; [by apply started_granted | done]. }
  pose proof (safe_initial_ok h vm' args Ha garbage m Hg Hm Hr Hsr) as Hst.
  apply safe_loop_reaches in Hrun as (st' & Hreach & st'' & Hs & ->).
  pose proof (safe_reaches_ok h vm' args prog Ha Htab Hld _ _ Hreach Hst) as Hst'.
  pose proof (safe_step_ok h vm' args prog Ha Htab Hld st' Hst') as Hsafe. rewrite Hs in Hsafe.
  transitivity (st'.(core).(mem) !! i).
  - apply (safe_mem_step_confined vm' args); [| done]. apply Hsafe; [done |].
    intros inst Hinst. by apply (Forall_lookup_1 _ _ _ _ Hno Hinst).
  - rewrite (safe_reaches_confined h vm' args prog Ha Htab Hld _ _ i Hdbg Hno Hi' Hreach Hst).
    unfold safe_initial. by case_match.
Qed.

Lemma safe_exec_confined_witness :
  exists m', (@ubpf_exec_ex null_host 101 spill_vm spill_args (fun _ => true) (replicate 16 0) spill_mem).2 =
             Some (Returned 42 m') /\ m' !! 9000 = Some 1.
Proof.
  assert (exists m', (@ubpf_exec_ex null_host 101 spill_vm spill_args (fun _ => true) (replicate 16 0) spill_mem).2 =
            Some (Returned 42 m')) as [m' Hrun] by (vm_compute; eexists; reflexivity).
  exists m'. split; [exact Hrun |].
  rewrite (safe_exec_confined null_host null_host_sound spill_vm spill_args (insts_of_bytes spill_code)
             (replicate 16 0) spill_mem m' 101 42 9000 spill_loaded (proj1 spill_config) spill_tables
             (proj1 (proj2 (proj2 spill_config))) spill_no_calls spill_args_ok demo_registers spill_mem_ok
             spill_mapped spill_regions Hrun); [reflexivity |].
  intros (p & b & s & Hg & _ & Hi). destruct Hg as [| | r b s Hr Hu _ _ _]; cbn in Hi; [lia | lia |].
  destruct spill_config as (_ & _ & _ & _ & Er & _). rewrite Er in Hr. exact (no_region_used r Hr Hu).
Defined.

(** The tags a state holds: of its registers, of saved registers, of spilled values. *)
Definition holds_tag (st : safe_state) (t : ubpf_safe_tag) : Prop :=
  t ∈ st.(safe_tags) \/ (exists f, f ∈ st.(safe_frames) /\ t ∈ f.(saved_register_tags)) \/
  (exists s, s ∈ st.(safe_spill_slots) /\ t = s.(spill_tag)).

Lemma holds_tag_ok `{HostEnv} vm args st t : safe_ok vm args st -> holds_tag st t -> tag_ok vm args t.
Proof.
  intros Hst [Ht | [(f & Hf & Ht) | (s & Hs & ->)]].
  - apply list_elem_of_lookup in Ht as [i Hi]. by apply (Forall_lookup_1 _ _ _ _ (sf_tags _ _ _ Hst) Hi).
  - apply list_elem_of_lookup in Hf as [i Hi], Ht as [j Hj].
    by apply (Forall_lookup_1 _ _ _ _ (Forall_lookup_1 _ _ _ _ (sf_frames _ _ _ Hst) Hi) Hj).
  - apply list_elem_of_lookup in Hs as [i Hi]. by apply (Forall_lookup_1 _ _ _ _ (sf_slots _ _ _ Hst) Hi).
Qed.

(** C5: provenance: in every state the safe interpreter reaches, every pointer tag,
    be it of a register, of a register saved by a call or of a value spilled to
    the stack, describes memory inside the input, the stack or one registered
    pointer region, with exactly that region's permissions; no arithmetic,
    load, call or return makes up a pointer. *)
Theorem safe_provenance (h : HostEnv) (HS : HostSound h) (vm : ubpf_vm) (args : exec_args)
    (prog : list ebpf_inst) (garbage : list Z) (m : memory) (st : safe_state) (t : ubpf_safe_tag) :
  loaded vm prog -> safe_tables_ok vm -> safe_args_ok args -> registers_ok garbage ->
  mem_ok m -> regions_mapped args m -> safe_regions_mapped vm m ->
  safe_reaches vm args (safe_initial vm args garbage m) st ->
  holds_tag st t -> t.(tag_kind) = UBPF_SAFE_VALUE_POINTER ->
  granted vm args t.(tag_permissions) t.(tag_base) t.(tag_size).
Proof.
  intros Hld Htab Ha Hg Hm Hr Hsr Hreach Ht. apply (holds_tag_ok vm args st t); [| done].
  apply (safe_reaches_ok h vm args prog Ha Htab Hld _ _ Hreach). by apply safe_initial_ok.
Qed.

Lemma safe_provenance_witness :
  granted spill_vm spill_args all_permissions 8192 1.
Proof.
  set (st0 := safe_initial spill_vm spill_args (replicate 16 0) spill_mem).
  assert (exists st, @safe_step null_host spill_vm spill_args st0 = Value (SafeContinue st) /\
            get_tag st 1 = ubpf_safe_pointer_tag UBPF_SAFE_REGION_ID_INPUT all_permissions 8192 1)
    as (st & Hs & Ht) by (vm_compute; eexists; split; reflexivity).
  apply (safe_provenance null_host null_host_sound spill_vm spill_args (insts_of_bytes spill_code) (replicate 16 0)
           spill_mem st (ubpf_safe_pointer_tag UBPF_SAFE_REGION_ID_INPUT all_permissions 8192 1)
           spill_loaded spill_tables spill_args_ok demo_registers spill_mem_ok spill_mapped spill_regions).
  - apply rtc_once. exact Hs.
  - left. unfold get_tag in Ht. destruct (safe_tags st !! Z.to_nat 1) as [t |] eqn:E; [| discriminate Ht].
    cbn [from_option id] in Ht. subst t. by eapply list_elem_of_lookup_2.
  - reflexivity.
Defined.
