(* ===== verification/SafeRefine.v ===== *)
(** * SafeRefine: the safe profile against the legacy one, and its spill tracking

    The safe interpreter only removes behaviours: whatever it returns, the legacy
    interpreter without run-time checks returns too, with the same memory.  And a
    pointer stored to the stack and loaded back keeps its tag. *)

From Stdlib Require Import ZArith Lia Bool.
From stdpp Require Import base list gmap strings numbers.
From S2P Require Import Prelude Ebpf InstValid Mem Vm Validate Load Alu Checks Interp InterpSound SafeAlu SafeTags Safe SafeSound.

Local Open Scope Z_scope.
Local Open Scope cbits_scope.

(** ** One turn *)

(** Forgetting the tags. *)
Definition erase (act : safe_action) : action :=
  match act with
  | SafeContinue st => Continue st.(core)
  | SafeExit v st => ExitWith v st.(core)
  end.

(** The VM the legacy interpreter runs on: its checks off. *)
Definition unchecked (vm : ubpf_vm) : ubpf_vm := set_bounds_check_enabled false vm.

(** [x] succeeds only where [y] does, with the same result up to tags. *)
Definition refines (x : outcome safe_action) (y : outcome action) : Prop :=
  forall act, x = Value act -> y = Value (erase act).

Lemma compute_access_effective t cur offset size pc required a :
  ubpf_safe_compute_access t cur offset size pc required = Ok a -> compute_effective_addr pc cur offset = Ok a.
Proof.
  assert (forall e, check_region t size pc e = Ok a -> e = a) as Hck.
  { intros e. unfold check_region. cbv zeta. by repeat case_match; intros [= <-]. }
  unfold ubpf_safe_compute_access, compute_effective_addr. cbv zeta.
  repeat case_match; try discriminate; intros E; by apply Hck in E as <-.
Qed.

Section Refine.
Context `{HostEnv}.
Variables (vm : ubpf_vm) (args : exec_args).
Hypothesis Hub : vm.(undefined_behavior_check_enabled) = false.

Lemma check_shadow_off stack len shadow a size : ubpf_check_shadow_stack vm stack len shadow a size = Some true.
Proof using Hub. unfold ubpf_check_shadow_stack. by rewrite Hub. Qed.

Lemma mark_shadow_off stack len shadow a size : ubpf_mark_shadow_stack vm stack len shadow a size = Some shadow.
Proof using Hub. unfold ubpf_mark_shadow_stack. by rewrite Hub. Qed.

Lemma set_same_shadow c : set_shadow_stack c.(shadow_stack) c = c.
Proof. by destruct c. Qed.

(** The legacy checks, when both are off, only compute the address. *)
Lemma unchecked_load k inst size c a :
  compute_effective_addr k (get_reg c inst.(src)) inst.(offset) = Ok a ->
  bounds_check_load (unchecked vm) args k inst size c = Value (a, c).
Proof using Hub.
  intros E. unfold bounds_check_load. rewrite E. cbn [of_result bind_outcome].
  unfold ubpf_check_shadow_stack. cbn. by rewrite Hub.
Qed.

Lemma unchecked_store k inst size c a :
  compute_effective_addr k (get_reg c inst.(dst)) inst.(offset) = Ok a ->
  bounds_check_store (unchecked vm) args k inst size c = Value (a, c).
Proof using Hub.
  intros E. unfold bounds_check_store. rewrite E. cbn [of_result bind_outcome].
  unfold ubpf_mark_shadow_stack. cbn. rewrite Hub. cbn. by rewrite set_same_shadow.
Qed.

Lemma safe_load_refines k inst size sx st :
  refines (safe_load vm args k inst size sx st) (exec_load (unchecked vm) args k inst size sx st.(core)).
Proof using Hub.
  intros act. unfold safe_load, exec_load.
  destruct (ubpf_safe_compute_access _ _ _ _ _ _) as [a |] eqn:E; [| discriminate]. cbn [of_result bind_outcome].
  rewrite (unchecked_load _ _ _ _ a) by (by eapply compute_access_effective). rewrite check_shadow_off.
  cbn [of_option bind_outcome]. destruct (if sx then _ else _) as [v |]; [| discriminate].
  cbn [of_option bind_outcome]. cbv zeta. destruct (_ && _).
  - destruct (_ !! _) as [slot |]; [| discriminate]. intros [= <-]. by destruct (spill_valid slot).
  - by intros [= <-].
Qed.

Lemma safe_store_refines k inst size (from_reg keep : bool) st :
  refines (safe_store vm args k inst size (if from_reg then get_reg st.(core) inst.(src) else u64 inst.(imm)) keep st)
    (exec_store (unchecked vm) args k inst size from_reg st.(core)).
Proof using Hub.
  intros act. unfold safe_store, exec_store.
  destruct (ubpf_safe_compute_access _ _ _ _ _ _) as [a |] eqn:E; [| discriminate]. cbn [of_result bind_outcome].
  rewrite (unchecked_store _ _ _ _ a) by (by eapply compute_access_effective). cbn [bind_outcome].
  destruct (ubpf_mem_store _ _ _ _) as [m |]; [| discriminate]. cbn [of_option bind_outcome].
  rewrite mark_shadow_off. cbn [of_option bind_outcome]. cbv zeta.
  destruct (ubpf_safe_is_stack_pointer _ _ _); [| by intros [= <-]].
  destruct (ubpf_safe_invalidate_stack_spill_tags _ _ _ _ _) as [slots |]; [| discriminate].
  cbn [of_option bind_outcome]. destruct (_ && _); [| by intros [= <-]].
  destruct (_ !! _); [| discriminate]. by intros [= <-].
Qed.

(** The access of an atomic operation. *)
Lemma safe_atomic_access_refines k inst size st a st1 :
  safe_atomic_access args k inst size st = Value (a, st1) ->
  bounds_check_store (unchecked vm) args k inst size st.(core) = Value (a, st.(core)) /\ st1.(core) = st.(core).
Proof using Hub.
  unfold safe_atomic_access.
  destruct (ubpf_safe_compute_access _ _ _ _ _ _) as [b |] eqn:E; [| discriminate]. cbn [of_result bind_outcome].
  destruct (ubpf_safe_invalidate_stack_spill_tags _ _ _ _ _) as [slots |]; [| discriminate].
  intros [= <- <-]. split; [| done]. apply unchecked_store. by eapply compute_access_effective.
Qed.

Lemma fetch_core (fetch : bool) index old st :
  (safe_fetch fetch index old st).(core) = if fetch then set_reg index old st.(core) else st.(core).
Proof. by destruct fetch. Qed.

Lemma safe_atomic64_refines k inst st :
  refines (safe_atomic64 args k inst st) (exec_atomic64 (unchecked vm) args k inst st.(core)).
Proof using Hub.
  intros act. unfold safe_atomic64, exec_atomic64.
  destruct (safe_atomic_access args k inst 8 st) as [[a st1] | |] eqn:E; [| discriminate ..].
  apply safe_atomic_access_refines in E as [-> Ec]. cbn [bind_outcome]. rewrite Ec. cbv zeta.
  destruct (atomic_new_value 64 _ 0 0 0); [| discriminate].
  destruct (deref _ _ _); [| discriminate]. cbn [of_option bind_outcome].
  destruct (store_bytes _ _ _); [| discriminate]. cbn [of_option bind_outcome].
  intros [= <-]. cbn [erase]. by rewrite fetch_core.
Qed.

Lemma safe_atomic32_refines k inst st :
  refines (safe_atomic32 args k inst st) (exec_atomic32 (unchecked vm) args k inst st.(core)).
Proof using Hub.
  intros act. unfold safe_atomic32, exec_atomic32.
  destruct (safe_atomic_access args k inst 4 st) as [[a st1] | |] eqn:E; [| discriminate ..].
  apply safe_atomic_access_refines in E as [-> Ec]. cbn [bind_outcome]. rewrite Ec. cbv zeta.
  destruct (atomic_new_value 32 _ 0 0 0); [| discriminate].
  destruct (deref _ _ _); [| discriminate]. cbn [of_option bind_outcome].
  destruct (store_bytes _ _ _); [| discriminate]. cbn [of_option bind_outcome].
  intros [= <-]. cbn [erase]. by rewrite fetch_core.
Qed.

Lemma safe_exit_refines st : refines (safe_exit st) (exec_exit st.(core)).
Proof.
  intros act. unfold safe_exit. destruct (exec_exit (core st)) as [[c | v c] | |]; [| | discriminate ..];
    by intros [= <-].
Qed.

Lemma safe_external_call_refines k inst st :
  refines (safe_external_call vm args k inst st) (exec_external_call (unchecked vm) args inst st.(core)).
Proof.
  intros act. unfold safe_external_call, exec_external_call. cbv zeta.
  destruct (Z.ltb_spec inst.(imm) 0) as [| Hi]; cbn [orb]; [discriminate |].
  destruct (_ <=? _); [discriminate |]. destruct (safe_helpers vm !! _) as [helper |]; [| discriminate].
  cbn [of_option bind_outcome]. destruct (negb (helper_in_use helper)); [discriminate |].
  destruct (negb (is_scalar_result _) && _); [discriminate |]. unfold safe_invoke. cbv zeta.
  change (dispatcher (unchecked vm)) with (dispatcher vm). change (ext_funcs (unchecked vm)) with (ext_funcs vm).
  change (unwind_stack_extension_index (unchecked vm)) with (unwind_stack_extension_index vm).
  destruct (if negb (dispatcher vm =? 0) then _ else _) as [[r0 m] | |]; [| discriminate ..].
  cbn [bind_outcome fst snd]. destruct (_ && _); [by intros [= <-] |].
  destruct (result_tag _ _ _ _) as [t | |]; [| discriminate ..]. by intros [= <-].
Qed.

Lemma safe_call_refines k inst st :
  refines (safe_call vm args k inst st) (exec_call (unchecked vm) args k inst st.(core)).
Proof.
  unfold safe_call, exec_call. destruct (inst.(src) =? 0); [apply safe_external_call_refines |].
  destruct (inst.(src) =? 1).
  - intros act. unfold safe_local_call. cbv zeta.
    destruct (exec_local_call _ _ _) as [[c | v c] | |]; [| | discriminate ..]; by intros [= <-].
  - destruct (_ =? 2); [by intros act | by intros act [= <-]].
Qed.

Lemma safe_lddw_refines inst st : refines (safe_lddw vm inst st) (exec_lddw (unchecked vm) inst st.(core)).
Proof.
  intros act. unfold safe_lddw. change (exec_lddw (unchecked vm) inst (core st)) with (exec_lddw vm inst (core st)).
  destruct (exec_lddw _ _ _) as [[c | v c] | |]; [| | discriminate ..]; by intros [= <-].
Qed.

Lemma safe_switch_refines k inst st :
  inst_ok inst -> state_ok vm args st.(core) ->
  refines (safe_switch vm args k inst st) (exec_switch (unchecked vm) args k inst st.(core)).
Proof using Hub.
  intros Hi Hst. unfold safe_switch, exec_switch. destruct (switch_op inst.(opcode)) as [op |]; [| by intros act].
  destruct (neg_overflows _ _); [by intros act |].
  rewrite safe_alu_eq, safe_condition_eq by (apply Hi || by eapply get_reg_fits). unfold legacy_alu.
  destruct (exec_alu _ _ _ _ _); [by intros act [= <-] |].
  destruct (exec_endian _ _ _); [by intros act [= <-] |].
  destruct (exec_condition _ _ _ _) as [[] |]; [by intros act [= <-] .. |].
  unfold safe_other, exec_other. destruct (load_shape op) as [[size sx] |]; [apply safe_load_refines |].
  destruct (store_shape op) as [[size fr] |]; [apply safe_store_refines |].
  destruct op; try (by intros act); try (by intros act [= <-]);
    auto using safe_lddw_refines, safe_exit_refines, safe_atomic64_refines, safe_atomic32_refines, safe_call_refines.
Qed.

End Refine.

Section RefineRuns.
Context (h : HostEnv) {HS : HostSound h}.
Variables (vm : ubpf_vm) (args : exec_args) (prog : list ebpf_inst).
Hypothesis Hub : vm.(undefined_behavior_check_enabled) = false.
Hypothesis Hargs : safe_args_ok args.
Hypothesis Htab : safe_tables_ok vm.
Hypothesis Hld : loaded vm prog.

Lemma safe_after_core k inst d s st st' :
  safe_after k inst d s st = Value st' -> st'.(core) = truncate_alu32 inst st.(core).
Proof.
  unfold safe_after. destruct (is_alu_class inst).
  - destruct (ubpf_safe_apply_alu _ _ _ _ _); [| discriminate]. by intros [= <-].
  - by intros [= <-].
Qed.

(** The state the switch starts from satisfies the invariant. *)
Lemma prologue_ok st c1 c2 k shadow :
  st.(pc) < vm.(num_insts) -> state_ok vm args st -> count_instruction vm st = Value c1 -> enter_function vm c1 = Value c2 ->
  state_ok vm args (call_debug_function vm args k (set_shadow_registers shadow (set_pc (u16 (st.(pc) + 1)) c2))).
Proof using HS Hld.
  intros Hpc Hst E1 E2. apply (call_debug_ok h). apply state_ok_set_shadow_registers, state_ok_set_pc.
  { apply (wrap_range 16). lia. }
  pose proof (count_instruction_ok h vm args st Hst) as H1. rewrite E1 in H1. destruct H1 as (H1 & Ep & _).
  pose proof (enter_function_ok h vm args prog Hld c1 ltac:(by rewrite Ep) H1) as H2. rewrite E2 in H2. apply H2.
Qed.

Lemma safe_step_refines st :
  state_ok vm args st.(core) -> refines (safe_step vm args st) (step (unchecked vm) args st.(core)).
Proof using Hub HS Hld.
  intros Hst act. unfold safe_step, step.
  change (num_insts (unchecked vm)) with (num_insts vm).
  change (count_instruction (unchecked vm) (core st)) with (count_instruction vm (core st)).
  destruct (Z.leb_spec (num_insts vm) (pc (core st))) as [| Hpc]; [discriminate |]. cbn [negb require bind_outcome].
  destruct (count_instruction vm _) as [c1 | |] eqn:E1; [| discriminate ..]. cbn [bind_outcome].
  change (enter_function (unchecked vm) c1) with (enter_function vm c1).
  destruct (enter_function vm c1) as [c2 | |] eqn:E2; [| discriminate ..]. cbn [bind_outcome].
  change (ubpf_fetch_instruction (unchecked vm)) with (ubpf_fetch_instruction vm).
  destruct (ubpf_fetch_instruction vm _) as [inst |] eqn:Ef; [| discriminate]. cbn [of_option bind_outcome].
  change (ubpf_validate_shadow_register (unchecked vm)) with (ubpf_validate_shadow_register vm).
  destruct (ubpf_validate_shadow_register _ _ _ _) as [shadow |]; [| discriminate]. cbn [of_result bind_outcome].
  change (call_debug_function (unchecked vm)) with (call_debug_function vm). set (c3 := call_debug_function _ _ _ _).
  assert (state_ok vm args c3) as Hc3 by (by eapply prologue_ok).
  pose proof (safe_switch_refines vm args Hub (pc (core st)) inst (set_core c3 st) (fetch_inst_ok _ _ _ Ef) Hc3) as Hsw.
  destruct (safe_switch _ _ _ _ _) as [act3 | |]; [| discriminate ..]. specialize (Hsw act3 eq_refl).
  cbn [core set_core] in Hsw. rewrite Hsw. cbn [bind_outcome]. destruct act3 as [st3 | v st3]; cbn [erase].
  - destruct (safe_after _ _ _ _ _) as [st4 | |] eqn:Ea; [| discriminate ..]. apply safe_after_core in Ea.
    intros [= <-]. cbn [erase]. by rewrite Ea.
  - by intros [= <-].
Qed.

Lemma safe_loop_refines fuel st v m :
  safe_ok vm args st -> safe_loop vm args fuel st = Some (Returned v m) ->
  exec_loop (unchecked vm) args fuel st.(core) = Some (Returned v m).
Proof using All.
  revert st. induction fuel as [| fuel IH]; intros st Hst; cbn [safe_loop exec_loop]; [discriminate |].
  pose proof (safe_step_refines st (sf_core _ _ _ Hst)) as Href.
  pose proof (safe_step_ok h vm args prog Hargs Htab Hld st Hst) as Hsafe.
  destruct (safe_step vm args st) as [act | |]; [| discriminate ..]. rewrite (Href act eq_refl).
  destruct act as [st' | v' st']; cbn [erase]; [| done]. apply IH. apply Hsafe.
Qed.

End RefineRuns.

(** The legacy counterpart of a VM: the other profile, checks off. *)
Definition legacy_of (vm : ubpf_vm) : ubpf_vm :=
  set_execution_profile UBPF_EXECUTION_PROFILE_LEGACY (unchecked vm).

Lemma initial_core (vm : ubpf_vm) args garbage m :
  vm.(undefined_behavior_check_enabled) = false ->
  (safe_initial vm args garbage m).(core) = initial_state vm args garbage m.
Proof. intros Hub. unfold safe_initial, initial_state. cbv zeta. rewrite Hub. by case_match. Qed.

(** The profile is not read after the dispatch. *)
Lemma step_profile `{HostEnv} vm args p st : step (set_execution_profile p vm) args st = step vm args st.
Proof. reflexivity. Qed.

Lemma exec_loop_profile `{HostEnv} vm args p fuel st :
  exec_loop (set_execution_profile p vm) args fuel st = exec_loop vm args fuel st.
Proof.
  revert st. induction fuel as [| fuel IH]; intros st; cbn [exec_loop]; [done |]. rewrite step_profile.
  destruct (step vm args st) as [[st' |] | |]; [apply IH | done ..].
Qed.

(** ** Properties *)

(** C21: the safe profile only removes behaviours: whatever value and memory
    [ubpf_exec_ex] returns in the safe profile (undefined-behaviour checks off),
    the legacy profile with bounds checks off returns too, in as many turns of
    the loop; the two interpreters agree on every program that the safe one
    accepts. *)
Theorem safe_refines_legacy (h : HostEnv) (HS : HostSound h) (vm : ubpf_vm) (args : exec_args)
    (prog : list ebpf_inst) (garbage : list Z) (m m' : memory) (fuel : nat) (v : Z) :
  loaded vm prog -> vm.(execution_profile) = UBPF_EXECUTION_PROFILE_SAFE ->
  vm.(undefined_behavior_check_enabled) = false -> safe_tables_ok vm ->
  safe_args_ok args -> registers_ok garbage -> mem_ok m -> regions_mapped args m -> safe_regions_mapped vm m ->
  (ubpf_exec_ex fuel vm args (fun _ => true) garbage m).2 = Some (Returned v m') ->
  (ubpf_exec_ex fuel (legacy_of vm) args (fun _ => true) garbage m).2 = Some (Returned v m').
Proof.
  intros Hld Hprof Hub Htab Ha Hg Hm Hr Hsr. rewrite exec_ex_safe_loop by (done || apply Hld). intros Hrun.
  pose proof (ld_insts _ _ Hld) as Hi. apply started_loaded in Hld. apply started_tables in Htab.
  pose proof (safe_initial_ok h (set_execution_started true vm) args Ha garbage m Hg Hm Hr Hsr) as Hst.
  apply (safe_loop_refines h (set_execution_started true vm) args prog Hub Ha Htab Hld) in Hrun; [| done].
  rewrite initial_core in Hrun by done. rewrite <- Hrun.
  unfold ubpf_exec_ex. destruct (decide _) as [E |]; [discriminate E |]. unfold ubpf_exec_ex_legacy.
  change (insts (legacy_of vm)) with (insts vm). rewrite (proj2 (Z.eqb_neq _ _) Hi).
  cbn [undefined_behavior_check_enabled set_execution_started legacy_of set_execution_profile unchecked
       set_bounds_check_enabled]. rewrite Hub. cbn [andb snd].
  change (set_execution_started true (legacy_of vm))
    with (set_execution_profile UBPF_EXECUTION_PROFILE_LEGACY (unchecked (set_execution_started true vm))).
  by rewrite exec_loop_profile.
Qed.

Lemma safe_refines_legacy_witness :
  exists m', (@ubpf_exec_ex null_host 101 (legacy_of spill_vm) spill_args (fun _ => true) (replicate 16 0) spill_mem).2 =
             Some (Returned 42 m').
Proof.
  assert (exists m', (@ubpf_exec_ex null_host 101 spill_vm spill_args (fun _ => true) (replicate 16 0) spill_mem).2 =
            Some (Returned 42 m')) as [m' Hrun] by (vm_compute; eexists; reflexivity).
  exists m'.
  exact (safe_refines_legacy null_host null_host_sound spill_vm spill_args (insts_of_bytes spill_code)
           (replicate 16 0) spill_mem m' 101 42 spill_loaded (proj1 spill_config)
           (proj1 (proj2 (proj2 (proj2 spill_config)))) spill_tables spill_args_ok demo_registers
           spill_mem_ok spill_mapped spill_regions Hrun).
Defined.

(** ** Spilling and reloading *)

(** The tag of the frame pointer. *)
Definition stack_tag (args : exec_args) : ubpf_safe_tag :=
  ubpf_safe_pointer_tag UBPF_SAFE_REGION_ID_STACK all_permissions args.(stack_start) args.(stack_length).

Lemma stack_tag_is_stack args : ubpf_safe_is_stack_pointer (stack_tag args) args.(stack_start) args.(stack_length) = true.
Proof. unfold ubpf_safe_is_stack_pointer. cbn. by rewrite !Z.eqb_refl. Qed.

(** What a successful eight-byte store of a register to an aligned stack slot leaves. *)
Lemma spill_store_effect `{HostEnv} vm args k inst v st st1 :
  args_fit args -> get_tag st inst.(dst) = stack_tag args -> inst_ok inst -> state_ok vm args st.(core) ->
  (get_reg st.(core) inst.(dst) + inst.(offset) - args.(stack_start)) mod 8 = 0 ->
  safe_store vm args k inst 8 v true st = Value (SafeContinue st1) ->
  let a := get_reg st.(core) inst.(dst) + inst.(offset) in
  inside a 8 args.(stack_start) args.(stack_length) /\
  ubpf_mem_store st.(core).(mem) a v 8 = Some st1.(core).(mem) /\ st1.(core).(reg) = st.(core).(reg) /\
  st1.(safe_tags) = st.(safe_tags) /\
  st1.(safe_spill_slots) !! Z.to_nat (spill_index args a) = Some (SpillSlot true (get_tag st inst.(src))).
Proof.
  intros Hargs Htag Hi Hst Hal. unfold safe_store. rewrite Htag.
  destruct (ubpf_safe_compute_access _ _ _ _ _ _) as [a |] eqn:E; [| discriminate]. cbn [of_result bind_outcome].
  apply compute_access_iff in E as (Ea & Hr & (_ & _ & H1 & H2 & _));
    [| by eapply get_reg_fits | apply Hi | destruct Hargs as [_ _ (? & ? & ?)]; split; cbn; lia | lia].
  cbn [stack_tag ubpf_safe_pointer_tag tag_base tag_size] in H1, H2. rewrite <- Ea in *.
  destruct Hargs as [_ _ (S1 & S2 & S3)].
  destruct (ubpf_mem_store _ _ _ _) as [m |] eqn:Em; [| discriminate]. cbn [of_option bind_outcome].
  destruct (ubpf_mark_shadow_stack _ _ _ _ _ _) as [sh |]; [| discriminate]. cbn [of_option bind_outcome]. cbv zeta.
  change (get_tag (set_core _ st) (dst inst)) with (get_tag st (dst inst)). rewrite Htag, stack_tag_is_stack.
  destruct (ubpf_safe_invalidate_stack_spill_tags _ _ _ _ _) as [slots |]; [| discriminate].
  cbn [of_option bind_outcome andb Z.eqb Pos.eqb]. unfold spill_aligned. rewrite wrap_id, Hal by lia. cbn [Z.eqb].
  destruct (slots !! _) as [s0 |] eqn:Es; [| discriminate]. cbn [of_option bind_outcome]. intros [= <-].
  split; [split; lia |]. cbn [core mem set_core set_slots set_shadow_stack set_mem reg safe_tags safe_spill_slots].
  split; [done |]. split; [done |]. split; [done |]. apply list_lookup_insert_eq. by eapply lookup_lt_Some.
Qed.

(** What an eight-byte load from an aligned stack slot brings back. *)
Lemma reload_effect `{HostEnv} vm args k inst v st slot :
  args_fit args -> safe_ok vm args st -> inst_ok inst -> get_tag st inst.(src) = stack_tag args ->
  let a := get_reg st.(core) inst.(src) + inst.(offset) in
  inside a 8 args.(stack_start) args.(stack_length) -> (a - args.(stack_start)) mod 8 = 0 ->
  ubpf_mem_load st.(core).(mem) a 8 = Some v ->
  st.(safe_spill_slots) !! Z.to_nat (spill_index args a) = Some (SpillSlot true slot) ->
  exists st2, safe_load vm args k inst 8 false st = Value (SafeContinue st2) /\
    get_reg st2.(core) inst.(dst) = v /\
    get_tag st2 inst.(dst) = if inst.(src) =? inst.(dst) then ubpf_safe_scalar_tag else slot.
Proof.
  intros Hargs Hst Hi Ht a [H1 H2] Hal Hload Hslot. pose proof Hargs as [_ _ (S1 & S2 & S3)].
  pose proof (sf_core _ _ _ Hst) as Hc. unfold safe_load. rewrite Ht.
  rewrite (proj2 (compute_access_iff (stack_tag args) _ _ 8 k UBPF_SAFE_REGION_READ a
             (get_reg_fits _ _ _ _ Hc) ltac:(apply Hi) ltac:(split; cbn; lia) ltac:(lia))).
  2: { split; [done |]. unfold access_granted, UINT64_MAX. split; [lia |]. split; [done |]. split; [done |]. cbn. lia. }
  cbn [of_result bind_outcome].
  destruct (check_shadow_some vm args (shadow_stack (core st)) a 8) as [b ->];
    [done | apply Hc | unfold fits64; lia | lia |].
  cbn [of_option bind_outcome]. set (c := if b then core st else _).
  assert (mem c = mem (core st) /\ length (reg c) = 16%nat) as [Ecm Ecr] by (unfold c; destruct b; (split; [done | apply Hc])).
  rewrite Ecm, Hload. cbn [of_option bind_outcome negb]. cbv zeta. change (8 =? 8) with true. cbn [andb].
  set (st2 := set_tag (dst inst) ubpf_safe_scalar_tag _).
  pose proof Hi as (_ & Hd & _). unfold unsigned_fits in Hd. pose proof (sf_tags_length _ _ _ Hst) as Htl.
  assert (get_reg (core st2) (dst inst) = v) as Hval.
  { unfold st2. cbn [core set_tag set_core]. rewrite get_set_reg by lia. by rewrite Z.eqb_refl. }
  assert (get_tag st2 (src inst) = if src inst =? dst inst then ubpf_safe_scalar_tag else stack_tag args) as ->.
  { unfold st2. rewrite get_set_tag_inst by done.
    change (get_tag (set_core _ st) (src inst)) with (get_tag st (src inst)). by rewrite Ht. }
  destruct (src inst =? dst inst).
  - exists st2. split; [done |]. split; [done |]. unfold st2.
    rewrite get_set_tag by (cbn [safe_tags set_core]; lia). by rewrite Z.eqb_refl.
  - rewrite stack_tag_is_stack. unfold spill_aligned. rewrite wrap_id, Hal by lia. cbn [andb Z.eqb].
    change (safe_spill_slots st2) with (safe_spill_slots st). rewrite Hslot. cbn [of_option bind_outcome spill_valid spill_tag].
    eexists. split; [done |]. split; [exact Hval |].
    rewrite get_set_tag by (unfold st2; cbn [safe_tags set_tag set_core]; rewrite ?length_insert; lia).
    by rewrite Z.eqb_refl.
Qed.

(** C34: spilling and reloading: a register stored with STXDW to an aligned stack
    slot and loaded back with LDXDW through a frame-pointer copy comes back with
    its value and with its tag, so that a spilled pointer is still a pointer,
    unless the load overwrites its own address register: then the tag is
    lost, since the code resets it before it looks at the address register. *)
Theorem spill_reload (h : HostEnv) (vm : ubpf_vm) (args : exec_args) (k1 k2 : Z) (i1 i2 : ebpf_inst)
    (st st1 : safe_state) :
  args_fit args -> safe_tables_ok vm -> safe_ok vm args st -> inst_ok i1 -> inst_ok i2 ->
  get_tag st i1.(dst) = stack_tag args -> get_tag st i2.(src) = stack_tag args ->
  (get_reg st.(core) i1.(dst) + i1.(offset) - args.(stack_start)) mod 8 = 0 ->
  get_reg st.(core) i2.(src) + i2.(offset) = get_reg st.(core) i1.(dst) + i1.(offset) ->
  safe_store vm args k1 i1 8 (get_reg st.(core) i1.(src)) true st = Value (SafeContinue st1) ->
  exists st2, safe_load vm args k2 i2 8 false st1 = Value (SafeContinue st2) /\
    get_reg st2.(core) i2.(dst) = get_reg st.(core) i1.(src) /\
    get_tag st2 i2.(dst) = if i2.(src) =? i2.(dst) then ubpf_safe_scalar_tag else get_tag st i1.(src).
Proof.
  intros Hargs Htab Hst Hi1 Hi2 Ht1 Ht2 Hal Eaddr Hstore. pose proof (sf_core _ _ _ Hst) as Hc.
  pose proof (safe_store_ok h vm args Hargs Htab k1 i1 8 (get_reg (core st) (src i1)) true st Hi1
                (or_intror (or_intror (or_intror eq_refl))) Hst) as Hsafe.
  rewrite Hstore in Hsafe. destruct Hsafe as [Hst1 _].
  apply (spill_store_effect vm args) in Hstore as (Hin & Hm & Hreg & Htags & Hslot); [| done ..].
  assert (forall i, get_reg (core st1) i = get_reg (core st) i) as Hget by (intros; unfold get_reg; by rewrite Hreg).
  assert (forall i, get_tag st1 i = get_tag st i) as Hgtag by (intros; unfold get_tag; by rewrite Htags).
  apply (mem_load_stored _ _ _ _ _ (or_intror (or_intror (or_intror eq_refl)))) in Hm.
  rewrite wrap_id in Hm by (by eapply get_reg_fits).
  apply reload_effect; rewrite ?Hget, ?Eaddr; [done .. | by rewrite Hgtag | done | done | done | done].
Qed.

Lemma spill_initial_ok : @safe_ok null_host spill_vm spill_args (safe_initial spill_vm spill_args (replicate 16 0) spill_mem).
Proof.
  apply (safe_initial_ok null_host spill_vm spill_args spill_args_ok);
    [apply demo_registers | apply spill_mem_ok | apply spill_mapped | apply spill_regions].
Qed.

Lemma spill_reload_witness :
  let st := safe_initial spill_vm spill_args (replicate 16 0) spill_mem in
  exists st1 st2,
    safe_store spill_vm spill_args 0 (Inst 0x7b 10 1 (-8) 0) 8 (get_reg st.(core) 1) true st = Value (SafeContinue st1) /\
    safe_load spill_vm spill_args 1 (Inst 0x79 2 10 (-8) 0) 8 false st1 = Value (SafeContinue st2) /\
    (get_tag st2 2).(tag_kind) = UBPF_SAFE_VALUE_POINTER.
Proof.
  intros st.
  assert (exists st1, safe_store spill_vm spill_args 0 (Inst 0x7b 10 1 (-8) 0) 8 (get_reg st.(core) 1) true st =
            Value (SafeContinue st1)) as [st1 Hs] by (vm_compute; eexists; reflexivity).
  destruct (spill_reload null_host spill_vm spill_args 0 1 (Inst 0x7b 10 1 (-8) 0) (Inst 0x79 2 10 (-8) 0) st st1
              (sa_fit _ spill_args_ok) spill_tables spill_initial_ok) as (st2 & Hl & _ & Ht);
    [unfold inst_ok, unsigned_fits, signed_fits; cbn; lia | unfold inst_ok, unsigned_fits, signed_fits; cbn; lia
    | vm_compute; reflexivity | vm_compute; reflexivity | vm_compute; reflexivity | vm_compute; reflexivity
    | exact Hs |].
  exists st1, st2. split; [exact Hs |]. split; [exact Hl |]. cbn [src dst Z.eqb Pos.eqb] in Ht. rewrite Ht.
  vm_compute. reflexivity.
Defined.
