(* ===== verification/JitSupport.v ===== *)
(** * JitSupport: what the code generators share (vm/ubpf_jit_support.c, .h)

    [struct jit_state] as a record, the tables of patchable relatives, and the
    monad the emitters of a back end are written in.  An emitter takes the state
    and gives a result and a new state; [None] stands for undefined behaviour: a
    write outside the output buffer or outside a table, or a failed assertion. *)

From Stdlib Require Import ZArith Lia Bool.
From stdpp Require Import base list gmap strings numbers sorting.
From S2P Require Import Prelude Ebpf Vm.

Local Open Scope Z_scope.

(** ** Data *)

Inductive JitProgress : Type :=
| NoError
| TooManyJumps
| TooManyLoads
| TooManyLeas
| TooManyLocalCalls
| NotEnoughSpace
| UnexpectedInstruction
| UnknownInstruction.

Inductive SpecialTarget : Type :=
| Exit
| Enter
| Retpoline
| ExternalDispatcher
| LoadHelperTable.

Record RegularTarget : Type := MkRegular {
  ebpf_target_pc : Z;  (* uint32_t *)
  jit_target_pc : Z;  (* uint32_t; overrides the other unless 0 *)
  near : bool;
}.

(** [is_special] and the union. *)
Inductive PatchableTarget : Type :=
| Special (special : SpecialTarget)
| Regular (regular : RegularTarget).

Record patchable_relative : Type := Patch {
  offset_loc : Z;  (* uint32_t *)
  target : PatchableTarget;
}.

#[export] Instance jit_progress_eq_dec : EqDecision JitProgress.
Proof. solve_decision. Defined.
#[export] Instance special_target_eq_dec : EqDecision SpecialTarget.
Proof. solve_decision. Defined.
#[export] Instance regular_target_eq_dec : EqDecision RegularTarget.
Proof. solve_decision. Defined.
#[export] Instance patchable_target_eq_dec : EqDecision PatchableTarget.
Proof. solve_decision. Defined.
#[export] Instance patchable_relative_eq_dec : EqDecision patchable_relative.
Proof. solve_decision. Defined.

(** The macros DECLARE_PATCHABLE_REGULAR_EBPF_TARGET and _JIT_TARGET. *)
Definition ebpf_target (tgt : Z) : PatchableTarget := Regular (MkRegular (u32 tgt) 0 false).
Definition jit_target_at (tgt : Z) : PatchableTarget := Regular (MkRegular 0 (u32 tgt) false).

Record jit_state : Type := JitState {
  buf : list Z;  (* uint8_t*: the bytes of the output buffer *)
  joffset : Z;  (* offset: uint32_t *)
  jsize : Z;  (* size: uint32_t *)
  pc_locs : gmap Z Z;  (* uint32_t[UBPF_MAX_INSTS + 1], zeroed; absent: 0 *)
  exit_loc : Z;
  entry_loc : Z;
  unwind_loc : Z;
  retpoline_loc : Z;
  dispatcher_loc : Z;
  helper_table_loc : Z;
  jit_status : JitProgress;
  state_jit_mode : JitMode;  (* jit_mode *)
  jumps : list patchable_relative;  (* the num_jumps entries written so far *)
  loads : list patchable_relative;  (* the num_loads entries *)
  leas : list patchable_relative;  (* the num_leas entries *)
  local_calls : list patchable_relative;  (* the num_local_calls entries *)
  local_calls_null : bool;  (* whether the allocation of local_calls failed *)
  jstack_size : Z;  (* stack_size: uint32_t *)
  bpf_function_prolog_size : Z;  (* size_t *)
  entropy : nat -> Z;  (* the answers of the random number generator still to come *)
}.

(** Assignment to a field of the state. *)
Definition set_buf (v : list Z) (st : jit_state) : jit_state :=
  JitState v st.(joffset) st.(jsize) st.(pc_locs) st.(exit_loc) st.(entry_loc) st.(unwind_loc)
    st.(retpoline_loc) st.(dispatcher_loc) st.(helper_table_loc) st.(jit_status) st.(state_jit_mode)
    st.(jumps) st.(loads) st.(leas) st.(local_calls) st.(local_calls_null) st.(jstack_size)
    st.(bpf_function_prolog_size) st.(entropy).
Definition set_joffset (v : Z) (st : jit_state) : jit_state :=
  JitState st.(buf) v st.(jsize) st.(pc_locs) st.(exit_loc) st.(entry_loc) st.(unwind_loc)
    st.(retpoline_loc) st.(dispatcher_loc) st.(helper_table_loc) st.(jit_status) st.(state_jit_mode)
    st.(jumps) st.(loads) st.(leas) st.(local_calls) st.(local_calls_null) st.(jstack_size)
    st.(bpf_function_prolog_size) st.(entropy).
Definition set_pc_locs (v : gmap Z Z) (st : jit_state) : jit_state :=
  JitState st.(buf) st.(joffset) st.(jsize) v st.(exit_loc) st.(entry_loc) st.(unwind_loc)
    st.(retpoline_loc) st.(dispatcher_loc) st.(helper_table_loc) st.(jit_status) st.(state_jit_mode)
    st.(jumps) st.(loads) st.(leas) st.(local_calls) st.(local_calls_null) st.(jstack_size)
    st.(bpf_function_prolog_size) st.(entropy).
Definition set_exit_loc (v : Z) (st : jit_state) : jit_state :=
  JitState st.(buf) st.(joffset) st.(jsize) st.(pc_locs) v st.(entry_loc) st.(unwind_loc)
    st.(retpoline_loc) st.(dispatcher_loc) st.(helper_table_loc) st.(jit_status) st.(state_jit_mode)
    st.(jumps) st.(loads) st.(leas) st.(local_calls) st.(local_calls_null) st.(jstack_size)
    st.(bpf_function_prolog_size) st.(entropy).
Definition set_entry_loc (v : Z) (st : jit_state) : jit_state :=
  JitState st.(buf) st.(joffset) st.(jsize) st.(pc_locs) st.(exit_loc) v st.(unwind_loc)
    st.(retpoline_loc) st.(dispatcher_loc) st.(helper_table_loc) st.(jit_status) st.(state_jit_mode)
    st.(jumps) st.(loads) st.(leas) st.(local_calls) st.(local_calls_null) st.(jstack_size)
    st.(bpf_function_prolog_size) st.(entropy).
Definition set_unwind_loc (v : Z) (st : jit_state) : jit_state :=
  JitState st.(buf) st.(joffset) st.(jsize) st.(pc_locs) st.(exit_loc) st.(entry_loc) v
    st.(retpoline_loc) st.(dispatcher_loc) st.(helper_table_loc) st.(jit_status) st.(state_jit_mode)
    st.(jumps) st.(loads) st.(leas) st.(local_calls) st.(local_calls_null) st.(jstack_size)
    st.(bpf_function_prolog_size) st.(entropy).
Definition set_retpoline_loc (v : Z) (st : jit_state) : jit_state :=
  JitState st.(buf) st.(joffset) st.(jsize) st.(pc_locs) st.(exit_loc) st.(entry_loc)
    st.(unwind_loc) v st.(dispatcher_loc) st.(helper_table_loc) st.(jit_status) st.(state_jit_mode)
    st.(jumps) st.(loads) st.(leas) st.(local_calls) st.(local_calls_null) st.(jstack_size)
    st.(bpf_function_prolog_size) st.(entropy).
Definition set_dispatcher_loc (v : Z) (st : jit_state) : jit_state :=
  JitState st.(buf) st.(joffset) st.(jsize) st.(pc_locs) st.(exit_loc) st.(entry_loc)
    st.(unwind_loc) st.(retpoline_loc) v st.(helper_table_loc) st.(jit_status) st.(state_jit_mode)
    st.(jumps) st.(loads) st.(leas) st.(local_calls) st.(local_calls_null) st.(jstack_size)
    st.(bpf_function_prolog_size) st.(entropy).
Definition set_helper_table_loc (v : Z) (st : jit_state) : jit_state :=
  JitState st.(buf) st.(joffset) st.(jsize) st.(pc_locs) st.(exit_loc) st.(entry_loc)
    st.(unwind_loc) st.(retpoline_loc) st.(dispatcher_loc) v st.(jit_status) st.(state_jit_mode)
    st.(jumps) st.(loads) st.(leas) st.(local_calls) st.(local_calls_null) st.(jstack_size)
    st.(bpf_function_prolog_size) st.(entropy).
Definition set_jit_status (v : JitProgress) (st : jit_state) : jit_state :=
  JitState st.(buf) st.(joffset) st.(jsize) st.(pc_locs) st.(exit_loc) st.(entry_loc)
    st.(unwind_loc) st.(retpoline_loc) st.(dispatcher_loc) st.(helper_table_loc) v
    st.(state_jit_mode) st.(jumps) st.(loads) st.(leas) st.(local_calls) st.(local_calls_null)
    st.(jstack_size) st.(bpf_function_prolog_size) st.(entropy).
Definition set_jumps (v : list patchable_relative) (st : jit_state) : jit_state :=
  JitState st.(buf) st.(joffset) st.(jsize) st.(pc_locs) st.(exit_loc) st.(entry_loc)
    st.(unwind_loc) st.(retpoline_loc) st.(dispatcher_loc) st.(helper_table_loc) st.(jit_status)
    st.(state_jit_mode) v st.(loads) st.(leas) st.(local_calls) st.(local_calls_null)
    st.(jstack_size) st.(bpf_function_prolog_size) st.(entropy).
Definition set_loads (v : list patchable_relative) (st : jit_state) : jit_state :=
  JitState st.(buf) st.(joffset) st.(jsize) st.(pc_locs) st.(exit_loc) st.(entry_loc)
    st.(unwind_loc) st.(retpoline_loc) st.(dispatcher_loc) st.(helper_table_loc) st.(jit_status)
    st.(state_jit_mode) st.(jumps) v st.(leas) st.(local_calls) st.(local_calls_null)
    st.(jstack_size) st.(bpf_function_prolog_size) st.(entropy).
Definition set_leas (v : list patchable_relative) (st : jit_state) : jit_state :=
  JitState st.(buf) st.(joffset) st.(jsize) st.(pc_locs) st.(exit_loc) st.(entry_loc)
    st.(unwind_loc) st.(retpoline_loc) st.(dispatcher_loc) st.(helper_table_loc) st.(jit_status)
    st.(state_jit_mode) st.(jumps) st.(loads) v st.(local_calls) st.(local_calls_null)
    st.(jstack_size) st.(bpf_function_prolog_size) st.(entropy).
Definition set_local_calls (v : list patchable_relative) (st : jit_state) : jit_state :=
  JitState st.(buf) st.(joffset) st.(jsize) st.(pc_locs) st.(exit_loc) st.(entry_loc)
    st.(unwind_loc) st.(retpoline_loc) st.(dispatcher_loc) st.(helper_table_loc) st.(jit_status)
    st.(state_jit_mode) st.(jumps) st.(loads) st.(leas) v st.(local_calls_null) st.(jstack_size)
    st.(bpf_function_prolog_size) st.(entropy).
Definition set_jstack_size (v : Z) (st : jit_state) : jit_state :=
  JitState st.(buf) st.(joffset) st.(jsize) st.(pc_locs) st.(exit_loc) st.(entry_loc)
    st.(unwind_loc) st.(retpoline_loc) st.(dispatcher_loc) st.(helper_table_loc) st.(jit_status)
    st.(state_jit_mode) st.(jumps) st.(loads) st.(leas) st.(local_calls) st.(local_calls_null) v
    st.(bpf_function_prolog_size) st.(entropy).
Definition set_bpf_function_prolog_size (v : Z) (st : jit_state) : jit_state :=
  JitState st.(buf) st.(joffset) st.(jsize) st.(pc_locs) st.(exit_loc) st.(entry_loc)
    st.(unwind_loc) st.(retpoline_loc) st.(dispatcher_loc) st.(helper_table_loc) st.(jit_status)
    st.(state_jit_mode) st.(jumps) st.(loads) st.(leas) st.(local_calls) st.(local_calls_null)
    st.(jstack_size) v st.(entropy).
Definition set_entropy (v : nat -> Z) (st : jit_state) : jit_state :=
  JitState st.(buf) st.(joffset) st.(jsize) st.(pc_locs) st.(exit_loc) st.(entry_loc)
    st.(unwind_loc) st.(retpoline_loc) st.(dispatcher_loc) st.(helper_table_loc) st.(jit_status)
    st.(state_jit_mode) st.(jumps) st.(loads) st.(leas) st.(local_calls) st.(local_calls_null)
    st.(jstack_size) st.(bpf_function_prolog_size) v.

(** ** The emitters' monad *)

Definition M (A : Type) : Type := jit_state -> option (A * jit_state).

#[export] Instance M_ret : MRet M := fun A a st => Some (a, st).
#[export] Instance M_bind : MBind M := fun A B k m st =>
  match m st with
  | Some (a, st') => k a st'
  | None => None
  end.

Definition gets {A} (f : jit_state -> A) : M A := fun st => Some (f st, st).
Definition modify (f : jit_state -> jit_state) : M unit := fun st => Some (tt, f st).
Definition undefined {A} : M A := fun _ => None.
(** [assert(b)] *)
Definition assertion (b : bool) : M unit := if b then mret tt else undefined.
Definition when (b : bool) (m : M unit) : M unit := if b then m else mret tt.
(** The value of a call that may be undefined. *)
Definition lift {A} (o : option A) : M A := fun st => (fun a => (a, st)) <$> o.

Fixpoint for_each {A} (l : list A) (body : A -> M unit) : M unit :=
  match l with
  | [] => mret tt
  | x :: l' => body x;; for_each l' body
  end.

(** The messages of the back ends and of the driver (ubpf_jit.c). *)
Inductive jit_error : Type :=
| AllocationFailed
| TooManyJumpInstructions
| TooManyLoadInstructions
| TooManyLeaCalculations
| TooManyLocalCallsError
| TargetBufferTooSmall
| UnknownInstructionAt (pc opcode : Z)
| UnknownAtomicOpcode (imm pc : Z)
| UnexpectedInstructionAt (pc opcode imm : Z)
| CannotPatch
| NotJitable
| InterpreterOnly
| NoCodeLoaded
| CallocFailed
| MmapFailed
| MprotectFailed
| CopyBeforeCompilation
| CopyBufferTooSmall.

#[export] Instance jit_error_eq_dec : EqDecision jit_error.
Proof. solve_decision. Defined.

(** ** Operations *)

(** [alloc k] is whether the k-th of the five allocations succeeds; the fifth,
    of [local_calls], is not checked. The result record keeps an unset
    [external_helper_offset], written 0 here; it is read only after a success. *)
Definition initialize_jit_state_result (alloc : nat -> bool) (buffer : list Z) (size : Z) (mode : JitMode)
    (random : nat -> Z) : option jit_state * ubpf_jit_result :=
  (if alloc 0%nat && alloc 1%nat && alloc 2%nat && alloc 3%nat then
     Some (JitState buffer 0 (u32 size) ∅ 0 0 0 0 0 0 NoError mode [] [] [] [] (negb (alloc 4%nat)) 0 0 random)
   else None,
   JitResult 0 0 UBPF_JIT_COMPILE_FAILURE mode).

(** [table[index] = ...]; [None]: past the UBPF_MAX_INSTS entries of the table. *)
Definition emit_patchable_relative (table : list patchable_relative) (off : Z) (tgt : PatchableTarget)
    (index : nat) : option (list patchable_relative) :=
  if Z.of_nat index <? UBPF_MAX_INSTS then
    Some (if (index <? length table)%nat then <[index := Patch off tgt]> table
          else table ++ [Patch off tgt])
  else None.

Definition note_load (tgt : PatchableTarget) : M unit := fun st =>
  t ← emit_patchable_relative st.(loads) st.(joffset) tgt (length st.(loads));
  Some (tt, set_loads t st).

Definition note_lea (tgt : PatchableTarget) : M unit := fun st =>
  t ← emit_patchable_relative st.(leas) st.(joffset) tgt (length st.(leas));
  Some (tt, set_leas t st).

(** The two tables the emitters write directly. *)
Definition note_jump (tgt : PatchableTarget) : M unit := fun st =>
  t ← emit_patchable_relative st.(jumps) st.(joffset) tgt (length st.(jumps));
  Some (tt, set_jumps t st).

Definition note_local_call (tgt : PatchableTarget) : M unit := fun st =>
  t ← (if st.(local_calls_null) then None else emit_patchable_relative st.(local_calls) st.(joffset) tgt (length st.(local_calls)));
  Some (tt, set_local_calls t st).

Fixpoint modify_patchable_relatives_target (table : list patchable_relative) (src_offset : Z)
    (tgt : PatchableTarget) : list patchable_relative :=
  match table with
  | [] => []
  | e :: table' =>
      (if e.(offset_loc) =? src_offset then Patch e.(offset_loc) tgt else e)
      :: modify_patchable_relatives_target table' src_offset tgt
  end.

Definition modify_jumps (src_offset : Z) (tgt : PatchableTarget) : M unit :=
  modify (fun st => set_jumps (modify_patchable_relatives_target st.(jumps) src_offset tgt) st).

Definition emit_jump_target (jump_src : Z) : M unit := fun st =>
  modify_jumps jump_src (jit_target_at st.(joffset)) st.

(** The next 64 bits of the generator. *)
Definition ubpf_generate_blinding_constant : M Z := fun st =>
  Some (u64 (st.(entropy) 0%nat), set_entropy (fun n => st.(entropy) (S n)) st).

(** [ubpf_instruction_has_fallthrough] of ubpf_int.h. *)
Definition ubpf_instruction_has_fallthrough (inst : ebpf_inst) : bool :=
  negb (inst.(opcode) =? opcode_of EBPF_OP_EXIT).

(** *** What both back ends repeat *)

(** [i + inst.offset + 1], or with the immediate for JA32. *)
Definition jump_target_pc (i : Z) (inst : ebpf_inst) : Z :=
  if inst.(opcode) =? opcode_of EBPF_OP_JA32 then i + inst.(imm) + 1 else i + inst.(offset) + 1.

Definition set_pc_loc (i : Z) : M unit :=
  modify (fun st => set_pc_locs (<[i := st.(joffset)]> st.(pc_locs)) st).

(** [state->pc_locs[k]]; [None]: past the array. *)
Definition pc_loc (st : jit_state) (k : Z) : option Z :=
  if (0 <=? k) && (k <=? UBPF_MAX_INSTS) then Some (default 0 (st.(pc_locs) !! k)) else None.

(** A loop that stops at the first [return false]. *)
Fixpoint resolve_all (f : patchable_relative -> M bool) (table : list patchable_relative) : M bool :=
  match table with
  | [] => mret true
  | e :: table' => ok ← f e; if ok : bool then resolve_all f table' else mret false
  end.

(** ** Bytes of the buffer *)

(** [memcpy] of [bs] to index [off] of a buffer. *)
Definition write_bytes (b : list Z) (off : Z) (bs : list Z) : list Z :=
  take (Z.to_nat off) b ++ bs ++ drop (Z.to_nat off + length bs) b.

(** [memcpy(state->buf + off, bs, len)]; [None]: outside the buffer. *)
Definition memcpy_buf (off : Z) (bs : list Z) : M unit := fun st =>
  if (0 <=? off) && (off + Z.of_nat (length bs) <=? Z.of_nat (length st.(buf)))
  then Some (tt, set_buf (write_bytes st.(buf) off bs) st)
  else None.

(** The [n] bytes at [off]. *)
Definition bytes_at (b : list Z) (off : Z) (n : nat) : list Z := take n (drop (Z.to_nat off) b).

Lemma bytes_at_split code off n m :
  0 <= off -> bytes_at code off (n + m) = bytes_at code off n ++ bytes_at code (off + Z.of_nat n) m.
Proof.
  intros. unfold bytes_at. replace (Z.to_nat (off + Z.of_nat n)) with (Z.to_nat off + n)%nat by lia.
  rewrite <- drop_drop. set (l := drop (Z.to_nat off) code). rewrite <- (take_drop n l) at 1.
  destruct (decide (n <= length l)%nat) as [Hn | Hn].
  - rewrite take_app_ge by (rewrite length_take; lia). rewrite length_take. do 2 f_equal. lia.
  - rewrite (take_ge l n), (drop_ge l n) by lia. rewrite app_nil_r, take_nil, app_nil_r. apply take_ge. lia.
Qed.
