(* ===== verification/JitAsm.v ===== *)
(** * JitAsm: the abstract assembler of the back ends

    The code a back end puts out as a list of items (bytes, and four-byte slots to
    be filled in later), what assembling them does to the state of a translation,
    and emitters specified by the items they assemble: exactly ([puts], [emits])
    or up to a bound ([costs], [places]).  What a back end allows in its code is
    the class [Target]. *)

From Stdlib Require Import ZArith Lia Bool.
From stdpp Require Import base list gmap strings numbers.
From S2P Require Import Prelude Ebpf Vm JitSupport.

Local Open Scope Z_scope.
Local Open Scope cbits_scope.

(** ** Items *)

Inductive slot_table : Type := Jumps | LocalCalls | Loads | Leas.

#[export] Instance slot_table_eq_dec : EqDecision slot_table.
Proof. solve_decision. Defined.

Definition table_of (t : slot_table) (st : jit_state) : list patchable_relative :=
  match t with
  | Jumps => st.(jumps)
  | LocalCalls => st.(local_calls)
  | Loads => st.(loads)
  | Leas => st.(leas)
  end.

Definition set_table (t : slot_table) (v : list patchable_relative) (st : jit_state) : jit_state :=
  match t with
  | Jumps => set_jumps v st
  | LocalCalls => set_local_calls v st
  | Loads => set_loads v st
  | Leas => set_leas v st
  end.

(** A piece of code: bytes, or a slot: a 32-bit word [w] that is completed later.
    [Draw] is not code: one answer of the random number generator is used up. *)
Inductive item : Type :=
| Bytes (bs : list Z)
| Slot (t : slot_table) (tgt : PatchableTarget) (w : Z)
| Draw.

Definition item_bytes (it : item) : list Z :=
  match it with
  | Bytes bs => bs
  | Slot _ _ w => le_encode 4 w
  | Draw => []
  end.

Definition code_len (its : list item) : Z := Z.of_nat (length (its ≫= item_bytes)).

Fixpoint slots_in (t : slot_table) (its : list item) : nat :=
  match its with
  | [] => 0
  | Bytes _ :: its' | Draw :: its' => slots_in t its'
  | Slot t' _ _ :: its' => (if decide (t = t') then 1 else 0) + slots_in t its'
  end.

Definition put (bs : list Z) (st : jit_state) : jit_state :=
  set_joffset (st.(joffset) + Z.of_nat (length bs)) (set_buf (write_bytes st.(buf) st.(joffset) bs) st).

Definition asm_item (it : item) (st : jit_state) : jit_state :=
  match it with
  | Bytes bs => put bs st
  | Slot t tgt w => put (le_encode 4 w) (set_table t (table_of t st ++ [Patch st.(joffset) tgt]) st)
  | Draw => set_entropy (fun n => st.(entropy) (S n)) st
  end.

Fixpoint asm (its : list item) (st : jit_state) : jit_state :=
  match its with
  | [] => st
  | it :: its' => asm its' (asm_item it st)
  end.

(** A state in which nothing went wrong. *)
Record jit_ok (st : jit_state) : Prop := JitOk {
  ok_status : st.(jit_status) = NoError;
  ok_offset : 0 <= st.(joffset) <= st.(jsize);
  ok_size : st.(jsize) = Z.of_nat (length st.(buf));
  ok_width : st.(jsize) + 16 < 2 ^ 32;
  ok_local_calls : st.(local_calls_null) = false;
  (* the slots lie in the emitted code and do not overlap *)
  ok_slots : forall t e, e ∈ table_of t st -> 0 <= e.(offset_loc) /\ e.(offset_loc) + 4 <= st.(joffset);
  ok_spaced : forall t i e t' i' e', table_of t st !! i = Some e -> table_of t' st !! i' = Some e' ->
    (t, i) <> (t', i') -> e.(offset_loc) + 4 <= e'.(offset_loc) \/ e'.(offset_loc) + 4 <= e.(offset_loc);
}.

(** ... with room for [its]. *)
Definition ready (its : list item) (st : jit_state) : Prop :=
  jit_ok st /\ st.(joffset) + code_len its <= st.(jsize) /\
  forall t, Z.of_nat (length (table_of t st) + slots_in t its) <= UBPF_MAX_INSTS.

(** [m] gives [f st] and assembles [its st]. *)
Definition emits {A} (m : M A) (f : jit_state -> A) (its : jit_state -> list item) : Prop :=
  forall st, ready (its st) st -> m st = Some (f st, asm (its st) st).

(** The common case of an emitter of fixed bytes. *)
Definition puts (m : M unit) (bs : list Z) : Prop :=
  forall st, jit_ok st -> st.(joffset) + Z.of_nat (length bs) <= st.(jsize) -> m st = Some (tt, put bs st).

Create HintDb emit.

(** *** Lemmas on [write_bytes] *)

Lemma length_write_bytes b off bs :
  0 <= off -> off + Z.of_nat (length bs) <= Z.of_nat (length b) -> length (write_bytes b off bs) = length b.
Proof. intros. unfold write_bytes. rewrite !length_app, length_take, length_drop. lia. Qed.

Lemma write_bytes_app b off bs cs :
  0 <= off -> off + Z.of_nat (length bs) + Z.of_nat (length cs) <= Z.of_nat (length b) ->
  write_bytes (write_bytes b off bs) (off + Z.of_nat (length bs)) cs = write_bytes b off (bs ++ cs).
Proof.
  intros. assert (length (take (Z.to_nat off) b) = Z.to_nat off) as L by (rewrite length_take; lia).
  unfold write_bytes at 1. replace (Z.to_nat (off + Z.of_nat (length bs))) with (Z.to_nat off + length bs)%nat by lia.
  unfold write_bytes. rewrite !app_assoc.
  rewrite take_app_length' by (rewrite length_app; lia).
  rewrite drop_app_ge by (rewrite length_app; lia).
  rewrite drop_drop, !length_app. do 2 f_equal. lia.
Qed.

Lemma write_bytes_nil b off : write_bytes b off [] = b.
Proof. unfold write_bytes. simpl. rewrite Nat.add_0_r. apply take_drop. Qed.

Lemma write_bytes_lookup b off bs k :
  0 <= off -> off + Z.of_nat (length bs) <= Z.of_nat (length b) ->
  write_bytes b off bs !! k =
  if decide (Z.to_nat off <= k < Z.to_nat off + length bs)%nat then bs !! (k - Z.to_nat off)%nat else b !! k.
Proof.
  intros. unfold write_bytes.
  assert (length (take (Z.to_nat off) b) = Z.to_nat off) as L by (rewrite length_take; lia).
  destruct (decide _) as [Hk | Hk].
  - rewrite lookup_app_r by lia. rewrite L. rewrite lookup_app_l by lia. done.
  - destruct (decide (k < Z.to_nat off)%nat).
    + rewrite lookup_app_l by lia. rewrite lookup_take_lt by lia. done.
    + rewrite lookup_app_r by lia. rewrite lookup_app_r by lia. rewrite L, lookup_drop. f_equal. lia.
Qed.

Lemma bytes_at_lookup b off n k :
  bytes_at b off n !! k = if decide (k < n)%nat then b !! (Z.to_nat off + k)%nat else None.
Proof.
  unfold bytes_at. destruct (decide _).
  - rewrite lookup_take_lt by lia. apply lookup_drop.
  - apply lookup_take_ge. lia.
Qed.

Lemma bytes_at_write_eq b off bs :
  0 <= off -> off + Z.of_nat (length bs) <= Z.of_nat (length b) ->
  bytes_at (write_bytes b off bs) off (length bs) = bs.
Proof.
  intros. apply list_eq. intros k. rewrite bytes_at_lookup, write_bytes_lookup by done.
  destruct (decide _).
  - rewrite decide_True by lia. f_equal. lia.
  - symmetry. apply lookup_ge_None_2. lia.
Qed.

Lemma bytes_at_write_ne b off bs off' n :
  0 <= off -> 0 <= off' -> off + Z.of_nat (length bs) <= Z.of_nat (length b) ->
  off' + Z.of_nat n <= off \/ off + Z.of_nat (length bs) <= off' ->
  bytes_at (write_bytes b off bs) off' n = bytes_at b off' n.
Proof.
  intros ? ? ? D. apply list_eq. intros k. rewrite !bytes_at_lookup, write_bytes_lookup by done.
  destruct (decide (k < n)%nat); [| done]. rewrite decide_False by lia. done.
Qed.

(** *** Lemmas on [put] and [asm] *)

Lemma table_of_put t bs st : table_of t (put bs st) = table_of t st.
Proof. by destruct t. Qed.

Lemma put_ok bs st :
  jit_ok st -> st.(joffset) + Z.of_nat (length bs) <= st.(jsize) -> jit_ok (put bs st).
Proof.
  intros [Hs Ho Hz Hw Hl Hslots Hsp] H. constructor; try done; cbn [put set_joffset set_buf joffset jsize buf].
  - lia.
  - rewrite length_write_bytes; lia.
  - intros t e. rewrite table_of_put. intros He%Hslots. lia.
Qed.

Lemma put_put bs cs st :
  jit_ok st -> st.(joffset) + Z.of_nat (length bs) + Z.of_nat (length cs) <= st.(jsize) ->
  put cs (put bs st) = put (bs ++ cs) st.
Proof.
  intros [Hs Ho Hz Hw Hl _ _] H. unfold put, set_joffset, set_buf; cbn. f_equal.
  - rewrite write_bytes_app by lia. done.
  - rewrite length_app. lia.
Qed.

Lemma put_nil st : put [] st = st.
Proof.
  destruct st; unfold put, set_joffset, set_buf; cbn. rewrite write_bytes_nil, Z.add_0_r. done.
Qed.

(** The entries the slots of [its] become when the code starts at [off]. *)
Fixpoint entries (t : slot_table) (off : Z) (its : list item) : list patchable_relative :=
  match its with
  | [] => []
  | it :: its' =>
      match it with
      | Slot t' tgt _ => if decide (t = t') then [Patch off tgt] else []
      | _ => []
      end ++ entries t (off + Z.of_nat (length (item_bytes it))) its'
  end.

Fixpoint draws (its : list item) : nat :=
  match its with
  | [] => 0
  | Draw :: its' => S (draws its')
  | _ :: its' => draws its'
  end.

Lemma code_len_cons it its : code_len (it :: its) = Z.of_nat (length (item_bytes it)) + code_len its.
Proof. unfold code_len. cbn. rewrite length_app. lia. Qed.

Lemma code_len_app its its' : code_len (its ++ its') = code_len its + code_len its'.
Proof. unfold code_len. rewrite bind_app, length_app. lia. Qed.

Lemma code_len_nonneg its : 0 <= code_len its.
Proof. unfold code_len. lia. Qed.

Lemma slots_in_app t its its' : slots_in t (its ++ its') = (slots_in t its + slots_in t its')%nat.
Proof. induction its as [| [] its IH]; cbn; rewrite ?IH; lia. Qed.

Lemma draws_app its its' : draws (its ++ its') = (draws its + draws its')%nat.
Proof. induction its as [| [] its IH]; cbn; rewrite ?IH; lia. Qed.

Lemma entries_app t off its its' :
  entries t off (its ++ its') = entries t off its ++ entries t (off + code_len its) its'.
Proof.
  revert off; induction its as [| it its IH]; intros off; cbn [app entries].
  - unfold code_len. cbn. by rewrite Z.add_0_r.
  - rewrite IH, code_len_cons, <- app_assoc. do 3 f_equal. lia.
Qed.

Lemma length_entries t off its : length (entries t off its) = slots_in t its.
Proof.
  revert off; induction its as [| [] its IH]; intros off; cbn; rewrite ?length_app, ?IH; try done.
  by destruct (decide _).
Qed.

Lemma asm_app its its' st : asm (its ++ its') st = asm its' (asm its st).
Proof. revert st; induction its as [| it its IH]; intros st; cbn; auto. Qed.

Lemma asm_item_fields it st :
  (asm_item it st).(joffset) = st.(joffset) + Z.of_nat (length (item_bytes it)) /\
  (asm_item it st).(jsize) = st.(jsize) /\
  (asm_item it st).(buf) = write_bytes st.(buf) st.(joffset) (item_bytes it) /\
  (forall t, table_of t (asm_item it st) = table_of t st ++ entries t st.(joffset) [it]).
Proof.
  destruct it as [bs | t tgt |]; cbn.
  - split_and!; try done. intros []; cbn; by rewrite app_nil_r.
  - destruct t; cbn; split_and!; try done; intros []; cbn; by rewrite ?app_nil_r.
  - rewrite Z.add_0_r, write_bytes_nil. split_and!; try done. intros []; cbn; by rewrite app_nil_r.
Qed.

Lemma table_of_set_table t t' v st :
  table_of t (set_table t' v st) = if decide (t = t') then v else table_of t st.
Proof. by destruct t, t'. Qed.

(** Recording a slot at the current position, with the four bytes it needs. *)
Lemma slot_ok t tgt w st :
  jit_ok st -> st.(joffset) + 4 <= st.(jsize) -> jit_ok (asm_item (Slot t tgt w) st).
Proof.
  intros [Hs Ho Hz Hw Hl Hslots Hsp] H. cbn [asm_item]. set (new := Patch st.(joffset) tgt).
  set (st1 := set_table t (table_of t st ++ [new]) st).
  assert (forall t', table_of t' (put (le_encode 4 w) st1) = table_of t' st ++ if decide (t' = t) then [new] else []) as Htab.
  { intros t'. rewrite table_of_put. unfold st1. rewrite table_of_set_table.
    destruct (decide _) as [-> |]; [done | by rewrite app_nil_r]. }
  assert (forall t' i e, table_of t' (put (le_encode 4 w) st1) !! i = Some e ->
            table_of t' st !! i = Some e /\ e.(offset_loc) + 4 <= st.(joffset) \/
            t' = t /\ i = length (table_of t st) /\ e = new) as Hcase.
  { intros t' i e. rewrite Htab. intros [Hi | [Hi He]]%lookup_app_Some.
    - left. split; [done |]. by apply (Hslots t'), list_elem_of_lookup; eauto.
    - right. destruct (decide (t' = t)) as [-> |]; [| done].
      apply list_lookup_singleton_Some in He as [Hz' <-]. split_and!; [done | lia | done]. }
  assert (st1.(joffset) = st.(joffset) /\ st1.(jsize) = st.(jsize) /\ st1.(buf) = st.(buf)) as (E1 & E2 & E3)
    by (unfold st1; by destruct t).
  constructor.
  - unfold st1; by destruct t.
  - cbn. rewrite E1, E2. lia.
  - cbn. rewrite E1, E2, E3. rewrite length_write_bytes; cbn; lia.
  - cbn. by rewrite E2.
  - unfold st1; by destruct t.
  - intros t' e [i Hi]%list_elem_of_lookup. cbn. rewrite E1.
    destruct (Hcase _ _ _ Hi) as [[Hold ?] | (_ & _ & ->)]; [| cbn; lia].
    destruct (Hslots t' e); [by apply list_elem_of_lookup; eauto |]. lia.
  - intros t1 i1 e1 t2 i2 e2 H1 H2 Hne.
    destruct (Hcase _ _ _ H1) as [[Hold1 ?] | (-> & -> & ->)],
      (Hcase _ _ _ H2) as [[Hold2 ?] | (-> & -> & ->)]; cbn; eauto. done.
Qed.

Lemma asm_item_ok it st :
  jit_ok st -> st.(joffset) + Z.of_nat (length (item_bytes it)) <= st.(jsize) -> jit_ok (asm_item it st).
Proof.
  intros Hok H. destruct it as [bs | t tgt |].
  - by apply put_ok.
  - apply slot_ok; [done | cbn in H; lia].
  - by destruct Hok.
Qed.

Lemma ready_cons it its st : ready (it :: its) st -> ready its (asm_item it st) /\ jit_ok (asm_item it st).
Proof.
  intros (Hok & Hlen & Ht). rewrite code_len_cons in Hlen. pose proof (code_len_nonneg its).
  assert (jit_ok (asm_item it st)) as Hok' by (apply asm_item_ok; [done | lia]).
  split; [| done]. split; [done |]. destruct (asm_item_fields it st) as (-> & -> & _ & Htab).
  split; [lia |]. intros t. specialize (Ht t). rewrite Htab, length_app, length_entries.
  destruct it; cbn in *; lia.
Qed.

Lemma ready_app its its' st : ready (its ++ its') st -> ready its st /\ ready its' (asm its st).
Proof.
  revert st; induction its as [| it its IH]; intros st Hr; cbn [app asm] in *.
  - split; [| done]. destruct Hr as (Hok & ? & Ht). split; [done |].
    unfold code_len at 1. cbn. split; [destruct Hok; lia |]. intros t. specialize (Ht t). cbn. lia.
  - destruct (ready_cons _ _ _ Hr) as [Hr' _]. destruct (IH _ Hr') as [_ H2]. split; [| done].
    destruct Hr as (Hok & Hlen & Ht). split; [done |].
    rewrite code_len_cons in *. rewrite code_len_app in Hlen. pose proof (code_len_nonneg its').
    split; [lia |]. intros t. specialize (Ht t).
    destruct it; cbn in *; rewrite slots_in_app in Ht; lia.
Qed.

(** Fields that are not the assembler's. *)
Lemma jit_ok_same st st' :
  jit_status st' = jit_status st -> joffset st' = joffset st -> jsize st' = jsize st -> buf st' = buf st ->
  local_calls_null st' = local_calls_null st -> (forall t, table_of t st' = table_of t st) ->
  jit_ok st -> jit_ok st'.
Proof.
  intros E1 E2 E3 E4 E5 E6 []. constructor; rewrite ?E1, ?E2, ?E3, ?E4, ?E5; try done.
  - intros t e. rewrite E6. apply ok_slots0.
  - intros t i e t' i' e'. rewrite !E6. apply ok_spaced0.
Qed.

(** What assembling [its] does to the state. *)
Record assembled (its : list item) (st st' : jit_state) : Prop := Assembled {
  as_ok : jit_ok st';
  as_offset : st'.(joffset) = st.(joffset) + code_len its;
  as_size : st'.(jsize) = st.(jsize);
  as_buf : st'.(buf) = write_bytes st.(buf) st.(joffset) (its ≫= item_bytes);
  as_table : forall t, table_of t st' = table_of t st ++ entries t st.(joffset) its;
  as_entropy : forall n, st'.(entropy) n = st.(entropy) (draws its + n)%nat;
  as_pc_locs : st'.(pc_locs) = st.(pc_locs);
  as_mode : st'.(state_jit_mode) = st.(state_jit_mode);
  as_prolog : st'.(bpf_function_prolog_size) = st.(bpf_function_prolog_size);
}.

Lemma asm_assembled its st : ready its st -> assembled its st (asm its st).
Proof.
  revert st; induction its as [| it its IH]; intros st Hr; cbn [asm].
  - destruct Hr as (Hok & _ & _). constructor; try done; cbn.
    + unfold code_len. cbn. lia.
    + by rewrite write_bytes_nil.
    + intros t. by rewrite app_nil_r.
  - destruct (ready_cons _ _ _ Hr) as [Hr' Hok']. destruct (IH _ Hr').
    destruct (asm_item_fields it st) as (Eo & Es & Eb & Et).
    destruct Hr as ([] & Hlen & _). rewrite code_len_cons in Hlen.
    constructor; try done.
    + rewrite as_offset0, Eo, code_len_cons. lia.
    + congruence.
    + rewrite as_buf0, Eb, Eo. cbn. apply write_bytes_app; unfold code_len in Hlen; lia.
    + intros t. rewrite as_table0, Et, Eo. cbn. rewrite app_nil_r, <- app_assoc. done.
    + intros n. rewrite as_entropy0. destruct it; try (destruct t); done.
    + rewrite as_pc_locs0. destruct it; try (destruct t); done.
    + rewrite as_mode0. destruct it; try (destruct t); done.
    + rewrite as_prolog0. destruct it; try (destruct t); done.
Qed.

(** *** Rules for emitters *)

Lemma puts_nil : puts (mret tt) [].
Proof. intros st _ _. unfold mret, M_ret. by rewrite put_nil. Qed.

Lemma puts_seq m1 m2 bs cs : puts m1 bs -> puts m2 cs -> puts (m1;; m2) (bs ++ cs).
Proof.
  intros H1 H2 st Hok Hlen. rewrite length_app in Hlen. unfold mbind, M_bind.
  rewrite H1 by (done || lia). rewrite H2; [| by apply put_ok; [| lia] | cbn; lia].
  rewrite put_put; done || lia.
Qed.

Lemma puts_eq m bs cs : puts m bs -> bs = cs -> puts m cs.
Proof. intros ? <-. done. Qed.

Lemma puts_when b m bs : puts m bs -> puts (when b m) (if b then bs else []).
Proof. destruct b; [done | intros; apply puts_nil]. Qed.

Lemma puts_assertion b : b = true -> puts (assertion b) [].
Proof. intros ->. apply puts_nil. Qed.

Lemma puts_emits m bs : puts m bs -> emits m (fun _ => tt) (fun _ => [Bytes bs]).
Proof.
  intros H st (Hok & Hlen & _). cbn. rewrite H; [done | done |].
  rewrite code_len_cons in Hlen. pose proof (code_len_nonneg []). cbn in Hlen. lia.
Qed.

Lemma emits_ret {A} (a : A) : emits (mret a) (fun _ => a) (fun _ => []).
Proof. intros st _. done. Qed.

Lemma emits_bind {A B} (m : M A) (k : A -> M B) f g its its' :
  emits m f its -> (forall a, emits (k a) (g a) (its' a)) ->
  emits (m ≫= k) (fun st => g (f st) (asm (its st) st))
    (fun st => its st ++ its' (f st) (asm (its st) st)).
Proof.
  intros H1 H2 st Hr. apply ready_app in Hr as [Hr1 Hr2]. unfold mbind, M_bind.
  rewrite H1 by done. rewrite H2 by done. by rewrite asm_app.
Qed.

Lemma emits_seq {A B} (m1 : M A) (m2 : M B) f g its its' :
  emits m1 f (fun _ => its) -> emits m2 g (fun _ => its') ->
  emits (m1;; m2) (fun st => g (asm its st)) (fun _ => its ++ its').
Proof. intros H1 H2. exact (emits_bind m1 (fun _ => m2) f (fun _ => g) _ (fun _ _ => its') H1 (fun _ => H2)). Qed.

(** *** Changing the target of a slot *)

Lemma modify_none table o tgt :
  (forall e, e ∈ table -> e.(offset_loc) <> o) -> modify_patchable_relatives_target table o tgt = table.
Proof.
  induction table as [| e table IH]; intros H; cbn; [done |].
  rewrite (proj2 (Z.eqb_neq _ _)) by (apply H; left). f_equal. apply IH. intros e' He. apply H. by right.
Qed.

Lemma modify_app t1 t2 o tgt :
  modify_patchable_relatives_target (t1 ++ t2) o tgt =
  modify_patchable_relatives_target t1 o tgt ++ modify_patchable_relatives_target t2 o tgt.
Proof. induction t1 as [| e t1 IH]; cbn; [done |]. by rewrite IH. Qed.

Lemma entries_range t off its e :
  e ∈ entries t off its -> off <= e.(offset_loc) /\ e.(offset_loc) + 4 <= off + code_len its.
Proof.
  revert off; induction its as [| it its IH]; intros off; cbn [entries]; [by intros ?%elem_of_nil |].
  rewrite code_len_cons. pose proof (code_len_nonneg its). intros [He | He]%elem_of_app.
  - destruct it as [| t' tgt |]; [by apply elem_of_nil in He | | by apply elem_of_nil in He].
    destruct (decide (t = t')); [| by apply elem_of_nil in He].
    apply list_elem_of_singleton in He as ->. cbn. lia.
  - apply IH in He. lia.
Qed.

Lemma asm_set_jumps its J st :
  asm its (set_jumps J st) = set_jumps (J ++ entries Jumps st.(joffset) its) (asm its st).
Proof.
  revert J st; induction its as [| it its IH]; intros J st; cbn [asm entries].
  - rewrite app_nil_r. done.
  - assert (asm_item it (set_jumps J st) = set_jumps (J ++ entries Jumps st.(joffset) [it]) (asm_item it st)) as ->.
    { destruct it as [| [] |]; cbn; rewrite ?app_nil_r; done. }
    rewrite IH, <- app_assoc. destruct (asm_item_fields it st) as (-> & _). cbn. by rewrite app_nil_r.
Qed.

(** A slot in the middle of assembled code gets its target. *)
Lemma retarget_asm a b tgt tgt' w st :
  ready (a ++ Slot Jumps tgt w :: b) st ->
  modify_jumps (asm a st).(joffset) tgt' (asm (a ++ Slot Jumps tgt w :: b) st) =
  Some (tt, asm (a ++ Slot Jumps tgt' w :: b) st).
Proof.
  intros Hr. rewrite !asm_app. apply ready_app in Hr as [Ha Hb]. set (A := asm a st) in *.
  assert (jit_ok A) as Hok by apply Hb. cbn [asm asm_item set_table table_of].
  set (o := A.(joffset)). set (P := put (le_encode 4 w) A).
  assert (forall t, put (le_encode 4 w) (set_jumps (A.(jumps) ++ [Patch o t]) A) =
                    set_jumps (A.(jumps) ++ [Patch o t]) P) as E by done.
  rewrite !E, !asm_set_jumps. unfold modify_jumps, modify. do 2 f_equal.
  assert (forall J J' s, set_jumps J (set_jumps J' s) = set_jumps J s) as -> by done.
  f_equal. cbn [jumps set_jumps]. rewrite <- !app_assoc, !modify_app.
  rewrite (modify_none A.(jumps)), (modify_none (entries _ _ _)).
  - cbn. by rewrite Z.eqb_refl.
  - intros e He%entries_range. unfold P in He. cbn in He. unfold o. lia.
  - intros e He. pose proof (ok_slots _ Hok Jumps e He). unfold o. lia.
Qed.

(** *** Recording a slot *)

Lemma note_jump_ok tgt st :
  Z.of_nat (length (table_of Jumps st)) < UBPF_MAX_INSTS ->
  note_jump tgt st = Some (tt, set_table Jumps (table_of Jumps st ++ [Patch st.(joffset) tgt]) st).
Proof.
  intros H. unfold note_jump, emit_patchable_relative. rewrite (proj2 (Z.ltb_lt _ _)), Nat.ltb_irrefl by done. done.
Qed.

Lemma note_local_call_ok tgt st :
  st.(local_calls_null) = false -> Z.of_nat (length (table_of LocalCalls st)) < UBPF_MAX_INSTS ->
  note_local_call tgt st = Some (tt, set_table LocalCalls (table_of LocalCalls st ++ [Patch st.(joffset) tgt]) st).
Proof.
  intros Hn H. unfold note_local_call, emit_patchable_relative.
  rewrite Hn, (proj2 (Z.ltb_lt _ _)), Nat.ltb_irrefl by done. done.
Qed.

Lemma note_load_ok tgt st :
  Z.of_nat (length (table_of Loads st)) < UBPF_MAX_INSTS ->
  note_load tgt st = Some (tt, set_table Loads (table_of Loads st ++ [Patch st.(joffset) tgt]) st).
Proof.
  intros H. unfold note_load, emit_patchable_relative. rewrite (proj2 (Z.ltb_lt _ _)), Nat.ltb_irrefl by done. done.
Qed.

Lemma note_lea_ok tgt st :
  Z.of_nat (length (table_of Leas st)) < UBPF_MAX_INSTS ->
  note_lea tgt st = Some (tt, set_table Leas (table_of Leas st ++ [Patch st.(joffset) tgt]) st).
Proof.
  intros H. unfold note_lea, emit_patchable_relative. rewrite (proj2 (Z.ltb_lt _ _)), Nat.ltb_irrefl by done. done.
Qed.

Lemma ready_slot t tgt w st :
  ready [Slot t tgt w] st ->
  jit_ok st /\ st.(joffset) + 4 <= st.(jsize) /\ Z.of_nat (length (table_of t st)) < UBPF_MAX_INSTS.
Proof.
  intros (Hok & Hlen & Ht). split; [done |]. specialize (Ht t). cbn in Hlen, Ht.
  rewrite decide_True in Ht by done. change (code_len _) with 4 in Hlen. lia.
Qed.

(** *** Bounded emitters *)

(** What a back end allows in its code: which items, that every position is a
    multiple of [code_align], and that no position is past [code_limit]. *)
Class Target := MkTarget {
  item_ok : item -> Prop;
  code_align : Z;
  code_limit : Z;
  item_aligned : forall it, item_ok it -> (code_align | Z.of_nat (length (item_bytes it)));
  draw_ok : item_ok Draw;
}.

Section Bounded.
Context {TG : Target}.

(** Room for [n] bytes and [k] slots of each table. *)
Definition room (n : Z) (k : nat) (st : jit_state) : Prop :=
  jit_ok st /\
  (st.(joffset) + n <= st.(jsize) /\ st.(joffset) + n <= code_limit /\ (code_align | st.(joffset))) /\
  forall t, Z.of_nat (length (table_of t st) + k) <= UBPF_MAX_INSTS.

(** [its] has at most [n] bytes and at most [k] slots of each table, all of them
    resolvable. *)
Definition in_budget (n : Z) (k : nat) (its : list item) : Prop :=
  code_len its <= n /\ (forall t, (slots_in t its <= k)%nat) /\ Forall item_ok its.

(** With room for them, [m] assembles such items. *)
Definition costs (n : Z) (k : nat) {A} (m : M A) : Prop :=
  forall st, room n k st -> exists a its, m st = Some (a, asm its st) /\ in_budget n k its.

Lemma room_ready n k its st : room n k st -> in_budget n k its -> ready its st.
Proof.
  intros (Hok & Hn & Hk) (? & Hs & _). split; [done |]. split; [lia |].
  intros t. specialize (Hk t). specialize (Hs t). lia.
Qed.

Lemma in_budget_app n k n' k' its its' :
  in_budget n k its -> in_budget n' k' its' -> in_budget (n + n') (k + k') (its ++ its').
Proof.
  intros (Hn & Hk & Hi) (Hn' & Hk' & Hi'). split_and!.
  - rewrite code_len_app. lia.
  - intros t. rewrite slots_in_app. specialize (Hk t). specialize (Hk' t). lia.
  - by apply Forall_app.
Qed.

Lemma in_budget_weaken n k n' k' its : in_budget n k its -> n <= n' -> (k <= k')%nat -> in_budget n' k' its.
Proof. intros (? & Hk & ?) ? ?. split_and!; [lia | intros t; specialize (Hk t); lia | done]. Qed.

Lemma room_weaken n k n' k' st : room n k st -> n' <= n -> (k' <= k)%nat -> room n' k' st.
Proof. intros (? & (? & ? & ?) & Hk) ? ?. split_and!; [done | lia | lia | done | intros t; specialize (Hk t); lia]. Qed.

Lemma room_same n k st st' :
  jit_status st' = jit_status st -> joffset st' = joffset st -> jsize st' = jsize st -> buf st' = buf st ->
  local_calls_null st' = local_calls_null st -> (forall t, table_of t st' = table_of t st) ->
  room n k st -> room n k st'.
Proof.
  intros E1 E2 E3 E4 E5 E6 (Hok & Hn & Ht). split; [by eapply jit_ok_same |]. rewrite E2, E3. split; [done |].
  intros t. by rewrite E6.
Qed.

Lemma items_aligned its : Forall item_ok its -> (code_align | code_len its).
Proof.
  induction 1 as [| it its Hit _ IH]; [apply Z.divide_0_r |]. rewrite code_len_cons.
  apply Z.divide_add_r; [by apply item_aligned | done].
Qed.

Lemma room_asm n k n' k' its st :
  room (n + n') (k + k') st -> in_budget n k its -> 0 <= n' -> room n' k' (asm its st).
Proof.
  intros Hroom Hw H0. assert (ready its st) as Hr.
  { eapply room_ready; [done |]. eapply in_budget_weaken; [done | lia | lia]. }
  destruct Hw as (Hn & Hk & Hi). destruct Hroom as (Hok & (Hlen & Hlim & Hal) & Htab). destruct (asm_assembled _ _ Hr).
  split; [done |]. rewrite as_offset0, as_size0.
  split; [split_and!; [lia | lia | apply Z.divide_add_r; [done | by apply items_aligned]] |].
  intros t. rewrite as_table0, length_app, length_entries. specialize (Hk t). specialize (Htab t). lia.
Qed.

Lemma costs_weaken n k n' k' {A} (m : M A) : costs n k m -> n <= n' -> (k <= k')%nat -> costs n' k' m.
Proof.
  intros H ? ? st Hroom. destruct (H st) as (a & its & E & Hw); [by eapply room_weaken |].
  exists a, its. split; [done |]. by eapply in_budget_weaken.
Qed.

Lemma costs_ret {A} (a : A) : costs 0 0 (mret a).
Proof. intros st _. exists a, []. split; [done |]. split_and!; done. Qed.

Lemma costs_bind n k n' k' {A B} (m : M A) (f : A -> M B) :
  costs n k m -> (forall a, costs n' k' (f a)) -> 0 <= n -> 0 <= n' -> costs (n + n') (k + k') (m ≫= f).
Proof.
  intros H1 H2 ? ? st Hroom. unfold mbind, M_bind.
  destruct (H1 st) as (a & its & -> & Hw); [eapply room_weaken; [done | lia | lia] |].
  destruct (H2 a (asm its st)) as (b & its' & -> & Hw'); [by eapply room_asm |].
  exists b, (its ++ its'). rewrite asm_app. split; [done |]. by apply in_budget_app.
Qed.

Lemma costs_bytes m bs n : puts m bs -> Z.of_nat (length bs) <= n -> item_ok (Bytes bs) -> costs n 0 m.
Proof.
  intros Hm ? Hi st (Hok & Hn & _). exists tt, [Bytes bs]. split; [apply Hm; [done | lia] |].
  split_and!; [| done | by repeat constructor]. unfold code_len. cbn. rewrite app_nil_r. lia.
Qed.

Lemma costs_emits {A} (m : M A) f its n k :
  emits m f its -> (forall st, in_budget n k (its st)) -> costs n k m.
Proof.
  intros H Hw st Hr. exists (f st), (its st). split; [| done]. apply H. by eapply room_ready.
Qed.

Lemma costs_gets {A} (f : jit_state -> A) : costs 0 0 (gets f).
Proof. intros st _. exists (f st), []. split; [done |]. split_and!; done. Qed.

Lemma costs_when n k b m : costs n k m -> 0 <= n -> costs n k (when b m).
Proof.
  intros H ?. destruct b; [done |]. eapply costs_weaken; [apply (costs_ret tt) | lia | lia].
Qed.

Lemma costs_if n k n' k' {A} (b : bool) (m1 m2 : M A) :
  costs n k m1 -> costs n' k' m2 -> costs (Z.max n n') (Nat.max k k') (if b then m1 else m2).
Proof. intros. destruct b; (eapply costs_weaken; [done | lia | lia]). Qed.

Lemma costs_decide n k n' k' {A} (P : Prop) (b : {P} + {~ P}) (m1 m2 : M A) :
  costs n k m1 -> costs n' k' m2 -> costs (Z.max n n') (Nat.max k k') (if b then m1 else m2).
Proof. intros. destruct b; (eapply costs_weaken; [done | lia | lia]). Qed.

Lemma costs_lift {A} (o : option A) a : o = Some a -> costs 0 0 (lift o).
Proof. intros -> st _. exists a, []. split; [done |]. split_and!; done. Qed.

Lemma costs_random : costs 0 0 ubpf_generate_blinding_constant.
Proof.
  intros st _. exists (u64 (st.(entropy) 0%nat)), [Draw]. split; [done |].
  split_and!; [done | done | repeat constructor; apply draw_ok].
Qed.

(** *** Emitters that leave a slot *)

(** Code with a slot for [tgt], directly after the bytes [bs] (the opcode the slot
    is the operand of). *)
Definition slot_after (bs : list Z) (t : slot_table) (tgt : PatchableTarget) (its : list item) : Prop :=
  exists a w b, its = a ++ Bytes bs :: Slot t tgt w :: b.

Lemma slot_after_l bs t tgt its its' : slot_after bs t tgt its -> slot_after bs t tgt (its ++ its').
Proof. intros (a & w & b & ->). exists a, w, (b ++ its'). by rewrite <- app_assoc. Qed.

Lemma slot_after_r bs t tgt its its' : slot_after bs t tgt its' -> slot_after bs t tgt (its ++ its').
Proof. intros (a & w & b & ->). exists (its ++ a), w, b. by rewrite <- app_assoc. Qed.

(** An emitter that, like [costs], assembles a bounded piece of code, and leaves
    in it a slot for [tgt] after the opcode [bs]. *)
Definition places (bs : list Z) (t : slot_table) (tgt : PatchableTarget) (n : Z) (k : nat) {A} (m : M A) : Prop :=
  forall st, room n k st -> exists a its, m st = Some (a, asm its st) /\ in_budget n k its /\ slot_after bs t tgt its.

Lemma places_weaken bs t tgt n k n' k' {A} (m : M A) :
  places bs t tgt n k m -> n <= n' -> (k <= k')%nat -> places bs t tgt n' k' m.
Proof.
  intros H ? ? st Hroom. destruct (H st) as (a & its & E & Hw & Hs); [by eapply room_weaken |].
  exists a, its. split; [done |]. split; [| done]. by eapply in_budget_weaken.
Qed.

Lemma places_before bs t tgt n k n' k' {A B} (m : M A) (f : A -> M B) :
  costs n k m -> (forall a, places bs t tgt n' k' (f a)) -> 0 <= n -> 0 <= n' -> places bs t tgt (n + n') (k + k') (m ≫= f).
Proof.
  intros H1 H2 ? ? st Hroom. unfold mbind, M_bind.
  destruct (H1 st) as (a & its & -> & Hw); [eapply room_weaken; [done | lia | lia] |].
  destruct (H2 a (asm its st)) as (b & its' & -> & Hw' & Hs); [by eapply room_asm |].
  exists b, (its ++ its'). rewrite asm_app. split; [done |]. split; [by apply in_budget_app | by apply slot_after_r].
Qed.

Lemma places_after bs t tgt n k n' k' {A B} (m : M A) (f : A -> M B) :
  places bs t tgt n k m -> (forall a, costs n' k' (f a)) -> 0 <= n -> 0 <= n' -> places bs t tgt (n + n') (k + k') (m ≫= f).
Proof.
  intros H1 H2 ? ? st Hroom. unfold mbind, M_bind.
  destruct (H1 st) as (a & its & -> & Hw & Hs); [eapply room_weaken; [done | lia | lia] |].
  destruct (H2 a (asm its st)) as (b & its' & -> & Hw'); [by eapply room_asm |].
  exists b, (its ++ its'). rewrite asm_app. split; [done |]. split; [by apply in_budget_app | by apply slot_after_l].
Qed.

Lemma places_emits bs t tgt n k {A} (m : M A) f its :
  emits m f (fun _ => its) -> in_budget n k its -> slot_after bs t tgt its -> places bs t tgt n k m.
Proof.
  intros H Hw Hs st Hr. exists (f st), its. split; [| done]. apply H. by eapply room_ready.
Qed.

(** *** Positions and forward jumps *)

(** A value that is known and costs nothing. *)
Lemma costs_known n k {A B} (m : M A) (a : A) (f : A -> M B) :
  (forall st, m st = Some (a, st)) -> costs n k (f a) -> costs n k (m ≫= f).
Proof. intros Hm Hf st Hroom. unfold mbind, M_bind. rewrite Hm. by apply Hf. Qed.

Lemma costs_ext n k {A} (m m' : M A) : (forall st, m st = m' st) -> costs n k m' -> costs n k m.
Proof. intros E H st Hroom. rewrite E. by apply H. Qed.

Definition position_ok (o : Z) : Prop := 0 <= o <= code_limit /\ (code_align | o).

Lemma room_position n k st : room n k st -> 0 <= n -> position_ok st.(joffset).
Proof. intros ([] & (? & ? & ?) & _) ?. split; [lia | done]. Qed.

Lemma costs_here n k {B} (f : Z -> M B) :
  (forall o, position_ok o -> costs n k (f o)) -> 0 <= n -> costs n k (gets joffset ≫= f).
Proof. intros H Hn st Hroom. apply (H st.(joffset)); [by eapply room_position | done]. Qed.

(** Code that jumps can lead into: every position can be a target. *)
Definition jumpable (branch : PatchableTarget -> M Z) (w : Z) : Prop :=
  (forall tgt, emits (branch tgt) joffset (fun _ => [Slot Jumps tgt w])) /\
  (forall o, position_ok o -> item_ok (Slot Jumps (jit_target_at o) w)).

Lemma in_budget_branch w tgt : item_ok (Slot Jumps tgt w) -> in_budget 4 1 [Slot Jumps tgt w].
Proof. intros. split_and!; [done | intros []; vm_compute; lia | by repeat constructor]. Qed.

Lemma room_after n k r q N K its st :
  room N K st -> in_budget n k its -> n + r <= N -> (k + q <= K)%nat -> 0 <= r -> room r q (asm its st).
Proof. intros Hroom Hb ? ? ?. eapply room_asm; [| done | done]. by eapply room_weaken. Qed.

Lemma ready_after n k N K its st : room N K st -> in_budget n k its -> n <= N -> (k <= K)%nat -> ready its st.
Proof. intros Hroom Hb ? ?. eapply room_ready; [exact Hroom |]. by eapply in_budget_weaken. Qed.

Lemma jump_target_run a b w tgt src st :
  ready (a ++ Slot Jumps tgt w :: b) st -> src = st.(joffset) + code_len a ->
  emit_jump_target src (asm (a ++ Slot Jumps tgt w :: b) st) =
  Some (tt, asm (a ++ Slot Jumps (jit_target_at (asm (a ++ Slot Jumps tgt w :: b) st).(joffset)) w :: b) st).
Proof.
  intros Hr ->. destruct (ready_app _ _ _ Hr) as [Ha _].
  rewrite <- (as_offset _ _ _ (asm_assembled _ _ Ha)). apply (retarget_asm a b tgt _ w st Hr).
Qed.

(** A jump over [m]. *)
Lemma costs_skip br w t0 n k n' k' {B} (m : M unit) (rest : M B) :
  jumpable br w -> item_ok (Slot Jumps t0 w) -> costs n k m -> costs n' k' rest -> 0 <= n -> 0 <= n' ->
  costs (4 + n + n') (1 + k + k') (src ← br t0; m;; emit_jump_target src;; rest).
Proof.
  intros [He Hp] I0 Cm Cr ? ? st Hroom. pose proof (in_budget_branch w) as Bb.
  destruct (Cm (asm [Slot Jumps t0 w] st)) as ([] & its & Em & Bm);
    [eapply room_after; [exact Hroom | by apply Bb | lia ..] |].
  assert (forall t, item_ok (Slot Jumps t w) -> in_budget (4 + n) (1 + k) (Slot Jumps t w :: its)) as BA
    by (intros; by apply (in_budget_app 4 1 n k [_]); [apply Bb |]).
  set (st1 := asm (Slot Jumps t0 w :: its) st).
  assert (item_ok (Slot Jumps (jit_target_at st1.(joffset)) w)) as Iq.
  { apply Hp. eapply room_position; [eapply (room_after _ _ 0 0%nat); [exact Hroom | by apply BA | lia ..] | lia]. }
  set (q := jit_target_at st1.(joffset)) in *.
  destruct (Cr (asm (Slot Jumps q w :: its) st)) as (b & its' & Er & Br);
    [eapply room_after; [exact Hroom | by apply BA | lia ..] |].
  exists b, ((Slot Jumps q w :: its) ++ its'). split.
  - unfold mbind, M_bind. rewrite He by (eapply ready_after; [exact Hroom | by apply Bb | lia | lia]). rewrite Em.
    change (asm its (asm [Slot Jumps t0 w] st)) with st1.
    pose proof (jump_target_run [] its w t0 st.(joffset) st) as Ej. cbn [app] in Ej. fold st1 in Ej. fold q in Ej.
    rewrite Ej; [rewrite Er; by rewrite <- asm_app | | change (code_len []) with 0; lia].
    eapply ready_after; [exact Hroom | by apply BA | lia | lia].
  - eapply in_budget_weaken; [apply in_budget_app; [by apply BA | exact Br] | lia | lia].
Qed.

(** Two branches that meet: a jump over [m1] into [m2], and one at the end of
    [m1] over [m2]. *)
Lemma costs_diamond b1 w1 t1 b2 w2 t2 n1 k1 n2 k2 n' k' {B} (m1 m2 : M unit) (rest : M B) :
  jumpable b1 w1 -> item_ok (Slot Jumps t1 w1) -> jumpable b2 w2 -> item_ok (Slot Jumps t2 w2) ->
  costs n1 k1 m1 -> costs n2 k2 m2 -> costs n' k' rest -> 0 <= n1 -> 0 <= n2 -> 0 <= n' ->
  costs (8 + n1 + n2 + n') (2 + k1 + k2 + k')
    (src1 ← b1 t1; m1;; src2 ← b2 t2; emit_jump_target src1;; m2;; emit_jump_target src2;; rest).
Proof.
  intros [He1 Hp1] I1 [He2 Hp2] I2 C1 C2 C3 ? ? ? st Hroom. set (A t := fun its : list item => Slot Jumps t w1 :: its).
  pose proof (in_budget_branch w1) as Bb1. pose proof (in_budget_branch w2) as Bb2.
  destruct (C1 (asm [Slot Jumps t1 w1] st)) as ([] & its1 & E1 & B1);
    [eapply room_after; [exact Hroom | by apply Bb1 | lia .. ] |].
  assert (forall t, item_ok (Slot Jumps t w1) -> in_budget (4 + n1) (1 + k1) (A t its1)) as BA
    by (intros; by apply (in_budget_app 4 1 n1 k1 [_]); [apply Bb1 |]).
  assert (forall t t', item_ok (Slot Jumps t w1) -> item_ok (Slot Jumps t' w2) ->
    in_budget (4 + n1 + 4) (1 + k1 + 1) (A t its1 ++ [Slot Jumps t' w2])) as BAB
    by (intros; apply in_budget_app; auto).
  set (st1 := asm (A t1 its1 ++ [Slot Jumps t2 w2]) st).
  assert (item_ok (Slot Jumps (jit_target_at st1.(joffset)) w1)) as Iq1.
  { apply Hp1. eapply room_position; [eapply (room_after _ _ 0 0%nat); [exact Hroom | by apply BAB | lia ..] | lia]. }
  set (q1 := jit_target_at st1.(joffset)) in *.
  destruct (C2 (asm (A q1 its1 ++ [Slot Jumps t2 w2]) st)) as ([] & its2 & E2 & B2);
    [eapply room_after; [exact Hroom | by apply BAB | lia ..] |].
  assert (forall t', item_ok (Slot Jumps t' w2) ->
    in_budget (4 + n1 + (4 + n2)) (1 + k1 + (1 + k2)) (A q1 its1 ++ Slot Jumps t' w2 :: its2)) as BF
    by (intros; apply in_budget_app; [by apply BA |]; apply (in_budget_app 4 1 n2 k2 [_]); auto).
  set (st2 := asm (A q1 its1 ++ Slot Jumps t2 w2 :: its2) st).
  assert (item_ok (Slot Jumps (jit_target_at st2.(joffset)) w2)) as Iq2.
  { apply Hp2. eapply room_position; [eapply (room_after _ _ 0 0%nat); [exact Hroom | by apply BF | lia ..] | lia]. }
  set (q2 := jit_target_at st2.(joffset)) in *.
  destruct (C3 (asm (A q1 its1 ++ Slot Jumps q2 w2 :: its2) st)) as (b & its3 & E3 & B3);
    [eapply room_after; [exact Hroom | by apply BF | lia ..] |].
  exists b, ((A q1 its1 ++ Slot Jumps q2 w2 :: its2) ++ its3). split.
  - unfold mbind, M_bind. rewrite He1 by (eapply ready_after; [exact Hroom | by apply Bb1 | lia | lia]). rewrite E1.
    change (asm its1 (asm [Slot Jumps t1 w1] st)) with (asm (A t1 its1) st).
    assert (ready (A t1 its1 ++ [Slot Jumps t2 w2]) st) as Hr1
      by (eapply ready_after; [exact Hroom | by apply BAB | lia | lia]).
    destruct (ready_app _ _ _ Hr1) as [Hr1a Hr1b]. rewrite He2 by done. rewrite <- asm_app.
    rewrite (as_offset _ _ _ (asm_assembled _ _ Hr1a)).
    assert (emit_jump_target st.(joffset) st1 = Some (tt, asm (A q1 its1 ++ [Slot Jumps t2 w2]) st)) as Ej
      by (apply (jump_target_run [] (its1 ++ [Slot Jumps t2 w2]) w1 t1 _ st Hr1); change (code_len []) with 0; lia).
    fold st1. rewrite Ej, E2.
    rewrite <- asm_app, <- app_assoc. cbn [app]. change (asm (A q1 its1 ++ Slot Jumps t2 w2 :: its2) st) with st2.
    unfold st2. rewrite jump_target_run; [| eapply ready_after; [exact Hroom | by apply BF | lia | lia] | done].
    fold st2. fold q2. rewrite E3. by rewrite <- asm_app.
  - eapply in_budget_weaken; [apply in_budget_app; [by apply BF | exact B3] | lia | lia].
Qed.

Lemma ready_bounds its n k st :
  room n k st -> code_len its <= n -> (forall t, (slots_in t its <= k)%nat) -> ready its st.
Proof.
  intros (Hok & Hn & Hk) ? Hs. split; [done |]. split; [lia |].
  intros t. specialize (Hk t). specialize (Hs t). lia.
Qed.
End Bounded.

Lemma bind_assoc {A B C} (m : M A) (f : A -> M B) (g : B -> M C) st :
  ((m ≫= f) ≫= g) st = (m ≫= fun a => f a ≫= g) st.
Proof. unfold mbind, M_bind. by destruct (m st) as [[] |]. Qed.


(** The next random value, then fixed bytes. *)
Lemma emits_random k bs :
  (forall r, puts (k r) (bs r)) ->
  emits (ubpf_generate_blinding_constant ≫= k) (fun _ => tt)
    (fun st => [Draw; Bytes (bs (u64 (st.(entropy) 0%nat)))]).
Proof.
  intros H st Hr. destruct (ready_cons _ _ _ Hr) as [Hr' Hok']. unfold mbind, M_bind, ubpf_generate_blinding_constant.
  cbn [asm]. apply H; [done |]. destruct Hr' as (_ & Hlen & _). rewrite code_len_cons in Hlen.
  pose proof (code_len_nonneg []). cbn in Hlen |- *. lia.
Qed.

Lemma puts_if (b : bool) m1 m2 bs cs : puts m1 bs -> puts m2 cs -> puts (if b then m1 else m2) (if b then bs else cs).
Proof. by destruct b. Qed.

(** *** Emitters that look at the position *)

(** [m] puts out [bs] when the code is at [o]. *)
Definition puts_at (o : Z) (m : M unit) (bs : list Z) : Prop :=
  forall st, st.(joffset) = o -> jit_ok st -> o + Z.of_nat (length bs) <= st.(jsize) -> m st = Some (tt, put bs st).

Lemma puts_of_at m bs : (forall o, puts_at o m bs) -> puts m bs.
Proof. intros H st Hok Hlen. by apply (H st.(joffset)). Qed.

Lemma puts_at_of o m bs : puts m bs -> puts_at o m bs.
Proof. intros H st <- Hok Hlen. by apply H. Qed.

Lemma puts_at_seq o m1 m2 bs cs :
  puts m1 bs -> puts_at (o + Z.of_nat (length bs)) m2 cs -> puts_at o (m1;; m2) (bs ++ cs).
Proof.
  intros H1 H2 st <- Hok Hlen. rewrite length_app in Hlen. unfold mbind, M_bind.
  rewrite H1 by (done || lia). rewrite H2; [| done | by apply put_ok; [| lia] | cbn; lia].
  rewrite put_put; done || lia.
Qed.

Lemma puts_at_gets o k bs : puts_at o (k o) bs -> puts_at o (gets joffset ≫= k) bs.
Proof. intros H st E Hok Hlen. unfold mbind, M_bind, gets. rewrite E. by apply H. Qed.

Lemma bind_ret_r (m : M unit) st : (m;; mret tt) st = m st.
Proof. unfold mbind, M_bind. by destruct (m st) as [[[] ?] |]. Qed.

(** Runs from a state in which [bs] has been put out already. *)
Lemma run_seq {A} m (k : M A) bs cs st r :
  puts m cs -> jit_ok st -> st.(joffset) + Z.of_nat (length (bs ++ cs)) <= st.(jsize) ->
  k (put (bs ++ cs) st) = r -> (m;; k) (put bs st) = r.
Proof.
  intros H Hok Hlen <-. rewrite length_app in Hlen. unfold mbind, M_bind.
  rewrite H; [| apply put_ok; [done | lia] | cbn; lia]. rewrite put_put; done || lia.
Qed.

Lemma run_gets {A} (k : Z -> M A) bs st r :
  k (st.(joffset) + Z.of_nat (length bs)) (put bs st) = r -> (gets joffset ≫= k) (put bs st) = r.
Proof. by intros <-. Qed.

(** [solve_puts] finds the bytes of an emitter built from emitters whose bytes
    are in the hint database. *)
Ltac solve_puts :=
  cbv beta zeta;
  lazymatch goal with
  | |- puts_at _ (mbind (fun _ => _) _) _ => eapply puts_at_seq; [solve_puts | solve_puts]
  | |- puts_at _ (mbind _ (gets joffset)) _ => eapply puts_at_gets; solve_puts
  | |- puts_at _ _ _ => eapply puts_at_of; solve_puts
  | |- puts (mbind (fun _ => _) _) _ => eapply puts_seq; [solve_puts | solve_puts]
  | |- puts (mret tt) _ => apply puts_nil
  | |- puts (when _ _) _ => eapply puts_when; solve_puts
  | |- puts (assertion _) _ => apply puts_assertion; first [reflexivity | assumption]
  | |- puts (if _ then _ else _) _ => eapply puts_if; [solve_puts | solve_puts]
  | |- _ => solve [eauto with emit]
  end.

(** [solve_costs] bounds an emitter by the bounds of its parts in the database. *)
Ltac solve_costs :=
  cbv beta zeta;
  lazymatch goal with
  | |- costs _ _ (mbind (fun _ => _) _) => eapply costs_bind; [solve_costs | intros ?; solve_costs | | ]
  | |- costs _ _ (mret _) => apply costs_ret
  | |- costs _ _ (gets _) => apply costs_gets
  | |- costs _ _ (when _ _) => eapply costs_when; [solve_costs |]
  | |- costs _ _ (if _ then _ else _) => first [eapply costs_if | eapply costs_decide]; [solve_costs | solve_costs]
  | |- costs _ _ ubpf_generate_blinding_constant => apply costs_random
  | |- _ => solve [eauto with emit]
  end.

(** *** Running emitters after assembled code *)

Lemma run_emits {A B} (m : M A) f its (k : A -> M B) done st r :
  emits m f (fun _ => its) -> ready (done ++ its) st ->
  k (f (asm done st)) (asm (done ++ its) st) = r -> (m ≫= k) (asm done st) = r.
Proof.
  intros H Hr <-. apply ready_app in Hr as [_ Hr]. unfold mbind, M_bind.
  rewrite H by done. by rewrite asm_app.
Qed.

Lemma run_emits_last {A} (m : M A) f its done st :
  emits m f (fun _ => its) -> ready (done ++ its) st ->
  m (asm done st) = Some (f (asm done st), asm (done ++ its) st).
Proof. intros H Hr. apply ready_app in Hr as [_ Hr]. rewrite H by done. by rewrite asm_app. Qed.

Lemma run_puts {B} (m : M unit) bs (k : M B) done st r :
  puts m bs -> ready (done ++ [Bytes bs]) st ->
  k (asm (done ++ [Bytes bs]) st) = r -> (m;; k) (asm done st) = r.
Proof. intros H Hr Hk. eapply run_emits; [by apply puts_emits | done | done]. Qed.

Lemma run_retarget {B} a b w tgt tgt' (k : M B) src st r :
  src = (asm a st).(joffset) -> ready (a ++ Slot Jumps tgt w :: b) st ->
  k (asm (a ++ Slot Jumps tgt' w :: b) st) = r ->
  (modify_jumps src tgt';; k) (asm (a ++ Slot Jumps tgt w :: b) st) = r.
Proof. intros -> Hr <-. unfold mbind, M_bind. by rewrite retarget_asm. Qed.

Lemma emits_puts_seq {B} m bs (m2 : M B) g its :
  puts m bs -> emits m2 g (fun _ => its) -> emits (m;; m2) (fun st => g (put bs st)) (fun _ => Bytes bs :: its).
Proof. intros H1 H2. exact (emits_seq m m2 _ g [Bytes bs] its (puts_emits _ _ H1) H2). Qed.

Lemma emits_ext {A} (m : M A) f its f' its' :
  emits m f its -> (forall st, f st = f' st) -> (forall st, its st = its' st) -> emits m f' its'.
Proof. intros H Hf Hi st Hr. rewrite <- Hf, <- Hi. apply H. by rewrite Hi. Qed.

Lemma emits_merge {A} (m : M A) f a b its :
  emits m f (fun _ => Bytes a :: Bytes b :: its) -> emits m f (fun _ => Bytes (a ++ b) :: its).
Proof.
  intros H st Hr. assert (ready (Bytes a :: Bytes b :: its) st) as Hr'.
  { destruct Hr as (Hok & Hlen & Ht). split; [done |]. split; [| done].
    rewrite !code_len_cons in *. cbn [item_bytes] in *. rewrite length_app in Hlen. lia. }
  rewrite H by done. cbn. do 2 f_equal. rewrite put_put; [done | apply Hr |].
  destruct Hr as (_ & Hlen & _). rewrite code_len_cons in Hlen. pose proof (code_len_nonneg its).
  cbn [item_bytes] in Hlen. rewrite length_app in Hlen. lia.
Qed.

Lemma asm_offset its st : ready its st -> (asm its st).(joffset) = st.(joffset) + code_len its.
Proof. intros Hr. apply (as_offset _ _ _ (asm_assembled _ _ Hr)). Qed.

Lemma run_jump_target {B} a b w tgt (k : M B) src o st r :
  ready (a ++ Slot Jumps tgt w :: b) st -> src = st.(joffset) + code_len a ->
  o = st.(joffset) + code_len (a ++ Slot Jumps tgt w :: b) ->
  k (asm (a ++ Slot Jumps (jit_target_at o) w :: b) st) = r ->
  (emit_jump_target src;; k) (asm (a ++ Slot Jumps tgt w :: b) st) = r.
Proof.
  intros Hr -> -> Hk. rewrite <- (asm_offset _ _ Hr) in Hk. pose proof (ready_app _ _ _ Hr) as [Ha _].
  rewrite <- (asm_offset _ _ Ha). exact (run_retarget a b w tgt _ k _ st r eq_refl Hr Hk).
Qed.

(** [split_code n] shows the code assembled so far around its [n]-th item. *)
Ltac split_code n :=
  match goal with
  | |- (_ ≫= _) (asm ?l ?s) = _ =>
      let l' := eval cbv [app] in l in
      let a := eval cbv [firstn] in (firstn n l') in
      let x := eval cbv [skipn firstn] in (firstn 1 (skipn n l')) in
      let b := eval cbv [skipn] in (skipn (S n) l') in
      match x with [?i] => change (asm l s) with (asm (a ++ i :: b) s) end
  end.

(** Computes the lengths of closed code before [lia]. *)
Ltac code_len_lia :=
  repeat match goal with
  | |- context [code_len ?l] => let n := eval vm_compute in (code_len l) in change (code_len l) with n
  end; lia.
