(* ===== verification/JitLink.v ===== *)
(** * JitLink: laying out and linking code

    The output of a back end seen as assembled code ([laid_out]) and its patching
    pass as a linker: slot by slot, the word of a slot is replaced by the one
    completed with the address it stands for, and no other byte changes
    ([resolve_table]).  What a back end does to one slot is a hypothesis of the
    section, discharged by each back end. *)

From Stdlib Require Import ZArith Lia Bool.
From stdpp Require Import base list gmap strings numbers.
From S2P Require Import Prelude Ebpf Mem Vm JitSupport JitAsm.

Local Open Scope Z_scope.

(** ** Code laid out from the beginning of a buffer *)

Record laid_out (buffer : list Z) (its : list item) (st : jit_state) : Prop := LaidOut {
  lo_ok : jit_ok st;
  lo_offset : st.(joffset) = code_len its;
  lo_length : length st.(buf) = length buffer;
  lo_buf : st.(buf) = write_bytes buffer 0 (its ≫= item_bytes);
  lo_table : forall t, table_of t st = entries t 0 its;
}.

Lemma laid_out_fits buffer its st : laid_out buffer its st -> code_len its <= Z.of_nat (length buffer).
Proof. intros [[] Eo El _ _]. rewrite <- El, <- Eo. lia. Qed.

Lemma laid_out_asm buffer its its' st :
  laid_out buffer its st -> ready its' st -> laid_out buffer (its ++ its') (asm its' st).
Proof.
  intros [Hok Eo El Eb Et] Hr. destruct (asm_assembled _ _ Hr) as [Hok' Eo' Es' Eb' Et' _ _ _ _].
  constructor; [done | | | |].
  - rewrite Eo', Eo, code_len_app. lia.
  - destruct Hok, Hok'. rewrite Es' in *. lia.
  - rewrite Eb', Eb, Eo, bind_app. apply (write_bytes_app _ 0); [lia |].
    destruct Hr as (_ & Hlen & _). destruct Hok. rewrite <- El. unfold code_len in *. lia.
  - intros t. by rewrite Et', Et, Eo, entries_app.
Qed.

(** Setting a field that is not the assembler's. *)
Lemma laid_out_set buffer its st st' :
  laid_out buffer its st ->
  jit_status st' = jit_status st -> joffset st' = joffset st -> jsize st' = jsize st -> buf st' = buf st ->
  local_calls_null st' = local_calls_null st -> (forall t, table_of t st' = table_of t st) ->
  laid_out buffer its st'.
Proof.
  intros [Hok ? ? ? Et] E1 E2 E3 E4 E5 E6.
  constructor; [by eapply jit_ok_same | | | |]; rewrite ?E2, ?E4; try done. intros t. by rewrite E6.
Qed.

Lemma laid_out_ok buffer its st : laid_out buffer its st -> jit_ok st.
Proof. by intros []. Qed.

(** A slot of the code is an entry of its table. *)
Lemma entries_slot t off a tgt w b : Patch (off + code_len a) tgt ∈ entries t off (a ++ Slot t tgt w :: b).
Proof.
  rewrite entries_app. apply elem_of_app. right. cbn [entries]. rewrite decide_True by done. by left.
Qed.

Lemma laid_out_ready buffer its its' st :
  laid_out buffer its st -> code_len (its ++ its') <= Z.of_nat (length buffer) ->
  (forall t, Z.of_nat (slots_in t (its ++ its')) <= UBPF_MAX_INSTS) -> ready its' st.
Proof.
  intros [Hok Eo El _ Et] Hn Hk. rewrite code_len_app in Hn. split; [done |]. destruct Hok. split; [lia |].
  intros t. specialize (Hk t). rewrite slots_in_app in Hk. rewrite Et, length_entries. lia.
Qed.

(** *** Room *)

Section Fits.
Context {TG : Target}.

(** There is room for [n] more bytes and [k] more slots of each table. *)
Record fits (buffer : list Z) (its : list item) (n : Z) (k : nat) : Prop := Fits {
  ft_bytes : code_len its + n <= Z.of_nat (length buffer);
  ft_limit : Z.of_nat (length buffer) <= code_limit;
  ft_align : (code_align | code_len its);
  ft_slots : forall t, Z.of_nat (slots_in t its + k) <= UBPF_MAX_INSTS;
}.

Lemma fits_weaken buffer its n k n' k' : fits buffer its n k -> n' <= n -> (k' <= k)%nat -> fits buffer its n' k'.
Proof. intros [? ? ? Hk] ? ?. split; [lia | done | done |]. intros t. specialize (Hk t). lia. Qed.

Lemma fits_room buffer its st n k n' k' :
  laid_out buffer its st -> fits buffer its n k -> n' <= n -> (k' <= k)%nat -> room n' k' st.
Proof.
  intros [Hok Eo El _ Et] [Hb Hl Ha Hk] ? ?. split; [done |]. destruct Hok. split.
  - rewrite Eo in *. split_and!; [lia | lia | done].
  - intros t. rewrite Et, length_entries. specialize (Hk t). lia.
Qed.

Lemma fits_asm buffer its its' st n k n' k' :
  laid_out buffer its st -> in_budget n k its' -> fits buffer its (n + n') (k + k') -> 0 <= n' ->
  laid_out buffer (its ++ its') (asm its' st) /\ fits buffer (its ++ its') n' k'.
Proof.
  intros Hlo (Hn & Hk & Hi) [Hl Hlim Ha Hs] ?.
  split; [apply laid_out_asm; [done |]; eapply laid_out_ready; [done | |] | constructor].
  - rewrite code_len_app. lia.
  - intros t. rewrite slots_in_app. specialize (Hs t). specialize (Hk t). lia.
  - rewrite code_len_app. lia.
  - done.
  - rewrite code_len_app. apply Z.divide_add_r; [done | by apply items_aligned].
  - intros t. rewrite slots_in_app. specialize (Hs t). specialize (Hk t). lia.
Qed.
End Fits.

(** Assembling leaves the positions alone. *)
Lemma asm_locs its st :
  (asm its st).(exit_loc) = st.(exit_loc) /\ (asm its st).(retpoline_loc) = st.(retpoline_loc) /\
  (asm its st).(dispatcher_loc) = st.(dispatcher_loc) /\ (asm its st).(helper_table_loc) = st.(helper_table_loc) /\
  (asm its st).(pc_locs) = st.(pc_locs) /\ (asm its st).(bpf_function_prolog_size) = st.(bpf_function_prolog_size).
Proof.
  revert st; induction its as [| it its IH]; intros st; [done |]. cbn [asm].
  destruct (IH (asm_item it st)) as (-> & -> & -> & -> & -> & ->). by destruct it as [| [] |].
Qed.

Lemma asm_frame its st :
  (asm its st).(jstack_size) = st.(jstack_size) /\ (asm its st).(entry_loc) = st.(entry_loc).
Proof.
  revert st; induction its as [| it its IH]; intros st; [done |]. cbn [asm].
  destruct (IH (asm_item it st)) as (-> & ->). by destruct it as [| [] |].
Qed.

(** ... and commutes with setting them. *)
Lemma asm_set_jstack_size its n st : asm its (set_jstack_size n st) = set_jstack_size n (asm its st).
Proof. revert st; induction its as [| [| [] |] its IH]; intros st; cbn; [done | ..]; by rewrite <- IH. Qed.

(** *** Overwriting *)

Lemma write_bytes_over b off x y r :
  length x = length y -> 0 <= off -> off + Z.of_nat (length (x ++ r)) <= Z.of_nat (length b) ->
  write_bytes (write_bytes b off (x ++ r)) off y = write_bytes b off (y ++ r).
Proof.
  intros Hl H0 H1. rewrite length_app in H1. apply list_eq. intros k.
  rewrite write_bytes_lookup by (rewrite ?length_write_bytes, ?length_app; rewrite ?length_app; lia).
  rewrite !write_bytes_lookup by (rewrite ?length_app; lia). rewrite !length_app.
  destruct (decide (Z.to_nat off <= k < Z.to_nat off + length y)%nat).
  - rewrite decide_True by lia. rewrite lookup_app_l by lia. done.
  - destruct (decide _); [| by rewrite decide_False by lia]. rewrite decide_True by lia.
    rewrite !lookup_app_r by lia. by rewrite Hl.
Qed.

Lemma write_bytes_same b off n x :
  0 <= off -> off + Z.of_nat n <= Z.of_nat (length b) -> bytes_at b off n = x -> write_bytes b off x = b.
Proof.
  intros H0 Hn <-. assert (length (bytes_at b off n) = n) as L.
  { unfold bytes_at. rewrite length_take, length_drop. lia. }
  apply list_eq. intros k. rewrite write_bytes_lookup by lia. rewrite L.
  destruct (decide _); [| done]. rewrite bytes_at_lookup, decide_True by lia. f_equal. lia.
Qed.

Lemma memcpy_run off bs st :
  0 <= off -> off + Z.of_nat (length bs) <= Z.of_nat (length st.(buf)) ->
  memcpy_buf off bs st = Some (tt, set_buf (write_bytes st.(buf) off bs) st).
Proof.
  intros. unfold memcpy_buf. rewrite (proj2 (Z.leb_le _ _)), (proj2 (Z.leb_le _ _)) by lia. done.
Qed.

Lemma pc_loc_in st k : 0 <= k <= UBPF_MAX_INSTS -> pc_loc st k = Some (default 0 (st.(pc_locs) !! k)).
Proof. intros. unfold pc_loc. by rewrite (proj2 (Z.leb_le _ _)), (proj2 (Z.leb_le _ _)) by lia. Qed.

(** ** The linker *)

(** How a back end completes the word [w] of a slot at [off]. *)
Definition filling : Type := slot_table -> PatchableTarget -> Z -> Z -> list Z.

(** The code [its] at [off] with its slots filled by [f]. *)
Fixpoint link (f : filling) (off : Z) (its : list item) : list Z :=
  match its with
  | [] => []
  | it :: its' =>
      match it with
      | Slot t tgt w => f t tgt w off
      | _ => item_bytes it
      end ++ link f (off + Z.of_nat (length (item_bytes it))) its'
  end.

(** The slots of the tables [ts] filled, the others not yet. *)
Definition only (ts : list slot_table) (f : filling) : filling := fun t tgt w off =>
  if decide (t ∈ ts) then f t tgt w off else le_encode 4 w.

(** Every slot satisfies [P] at its place. *)
Fixpoint items_ok (P : slot_table -> PatchableTarget -> Z -> Z -> Prop) (off : Z) (its : list item) : Prop :=
  match its with
  | [] => True
  | it :: its' =>
      match it with
      | Slot t tgt w => P t tgt w off
      | _ => True
      end /\ items_ok P (off + Z.of_nat (length (item_bytes it))) its'
  end.

Lemma items_ok_app P off a b : items_ok P off (a ++ b) <-> items_ok P off a /\ items_ok P (off + code_len a) b.
Proof.
  revert off; induction a as [| it a IH]; intros off; cbn [app items_ok].
  - unfold code_len. cbn. rewrite Z.add_0_r. tauto.
  - rewrite IH, code_len_cons, Z.add_assoc. tauto.
Qed.

Lemma items_ok_intro P off its :
  (forall a t tgt w b, its = a ++ Slot t tgt w :: b -> P t tgt w (off + code_len a)) -> items_ok P off its.
Proof.
  revert off; induction its as [| it its IH]; intros off Hp; [done |]. split.
  - destruct it as [| t tgt w |]; [done | | done]. specialize (Hp [] t tgt w its eq_refl).
    change (code_len []) with 0 in Hp. by rewrite Z.add_0_r in Hp.
  - apply IH. intros a t tgt w b ->. specialize (Hp (it :: a) t tgt w b eq_refl).
    by rewrite code_len_cons, Z.add_assoc in Hp.
Qed.

Section Link.
Context (f : filling) (Hf : forall t tgt w off, length (f t tgt w off) = 4%nat).

Lemma length_link off its : Z.of_nat (length (link f off its)) = code_len its.
Proof.
  revert off; induction its as [| it its IH]; intros off; [done |]. cbn [link].
  rewrite length_app, code_len_cons, Nat2Z.inj_add, IH. destruct it; cbn [item_bytes]; rewrite ?Hf; done.
Qed.

Lemma link_app off a b : link f off (a ++ b) = link f off a ++ link f (off + code_len a) b.
Proof.
  revert off; induction a as [| it a IH]; intros off; cbn [app link].
  - unfold code_len. cbn. by rewrite Z.add_0_r.
  - by rewrite IH, code_len_cons, Z.add_assoc, <- app_assoc.
Qed.

(** The linked code at the place of an item. *)
Lemma link_at buffer a it b :
  code_len (a ++ it :: b) <= Z.of_nat (length buffer) ->
  bytes_at (write_bytes buffer 0 (link f 0 (a ++ it :: b))) (code_len a) (length (item_bytes it)) =
  match it with
  | Slot t tgt w => f t tgt w (code_len a)
  | _ => item_bytes it
  end.
Proof.
  intros Hl. rewrite code_len_app, code_len_cons in Hl. rewrite link_app. cbn [link].
  set (x := match it with Slot t tgt w => f t tgt w (0 + code_len a) | _ => item_bytes it end).
  assert (length x = length (item_bytes it)) as Hx by (unfold x; destruct it; rewrite ?Hf; done).
  pose proof (length_link 0 a) as La.
  set (rest := link f (0 + code_len a + Z.of_nat (length (item_bytes it))) b).
  assert (Z.of_nat (length rest) = code_len b) as Lr by apply length_link.
  pose proof (code_len_nonneg a). pose proof (code_len_nonneg b).
  rewrite <- (write_bytes_app buffer 0) by (rewrite ?length_app; lia). rewrite La, Z.add_0_l.
  assert (length (write_bytes buffer 0 (link f 0 a)) = length buffer) as Lw by (apply length_write_bytes; lia).
  rewrite <- (write_bytes_app _ (code_len a) x rest) by lia.
  rewrite bytes_at_write_ne by (rewrite ?length_write_bytes; lia).
  rewrite <- Hx, bytes_at_write_eq by lia. by destruct it.
Qed.
End Link.

Lemma length_only ts (f : filling) t tgt w off : length (f t tgt w off) = 4%nat -> length (only ts f t tgt w off) = 4%nat.
Proof. unfold only. by destruct (decide _). Qed.

Lemma link_ext f g off its : (forall t tgt w o, f t tgt w o = g t tgt w o) -> link f off its = link g off its.
Proof. intros E. revert off; induction its as [| [] its IH]; intros off; cbn; rewrite ?E, ?IH; done. Qed.

Lemma link_only_nil f off its : link (only [] f) off its = its ≫= item_bytes.
Proof. revert off; induction its as [| [] its IH]; intros off; cbn; rewrite ?IH; done. Qed.

(** ** The patching passes *)

Lemma length_helper_table (fs : list Z) : length (fs ≫= le_encode 8) = (8 * length fs)%nat.
Proof. induction fs as [| f fs IH]; [done |]. rewrite bind_cons, length_app, IH, length_le_encode. cbn [length]. lia. Qed.

(** What a back end promises of one slot: which slots it can complete in a state,
    with which bytes, and that its patching function does so. *)
Class Linker := MkLinker {
  linkable : jit_state -> slot_table -> PatchableTarget -> Z -> Z -> Prop;
  filled : jit_state -> filling;
  resolve_slot : slot_table -> patchable_relative -> M bool;
  length_filled : forall st t tgt w off, length (filled st t tgt w off) = 4%nat;
  resolve_slot_ok : forall st t tgt w off b,
    linkable st t tgt w off -> 0 <= off -> off + 4 <= Z.of_nat (length b) -> Z.of_nat (length b) + 16 < 2 ^ 32 ->
    bytes_at b off 4 = le_encode 4 w ->
    resolve_slot t (Patch off tgt) (set_buf b st) = Some (true, set_buf (write_bytes b off (filled st t tgt w off)) st);
}.

Section Passes.
Context {LK : Linker}.

(** A pass fills the slots of its table and leaves the rest alone. *)
Lemma resolve_table t ts its off b st :
  t ∉ ts -> items_ok (linkable st) off its -> 0 <= off -> off + code_len its <= Z.of_nat (length b) ->
  Z.of_nat (length b) + 16 < 2 ^ 32 ->
  resolve_all (resolve_slot t) (entries t off its)
    (set_buf (write_bytes b off (link (only ts (filled st)) off its)) st) =
  Some (true, set_buf (write_bytes b off (link (only (t :: ts) (filled st)) off its)) st).
Proof.
  intros Hnot. revert off b; induction its as [| it its IH]; intros off b Hok H0 Hlen Hb; [done |].
  rewrite code_len_cons in Hlen. pose proof (code_len_nonneg its). destruct Hok as [Hit Hok].
  cbn [link entries].
  assert (forall ts0, Z.of_nat (length (link (only ts0 (filled st)) (off + Z.of_nat (length (item_bytes it))) its))
          = code_len its) as Ll by (intros; apply length_link; intros; apply length_only, length_filled).
  assert (forall ts0 x, length x = length (item_bytes it) ->
    write_bytes b off (x ++ link (only ts0 (filled st)) (off + Z.of_nat (length (item_bytes it))) its) =
    write_bytes (write_bytes b off x) (off + Z.of_nat (length (item_bytes it)))
      (link (only ts0 (filled st)) (off + Z.of_nat (length (item_bytes it))) its)) as Hsplit.
  { intros ts0 x Hx. rewrite <- Hx at 2. symmetry. apply write_bytes_app; rewrite ?Ll; lia. }
  destruct it as [bs | t' tgt w |]; cbn [item_bytes app].
  - rewrite !Hsplit by done. apply IH; rewrite ?length_write_bytes; cbn [item_bytes] in *; done || lia.
  - assert (length (only ts (filled st) t' tgt w off) = 4%nat) as L1 by apply length_only, length_filled.
    assert (length (only (t :: ts) (filled st) t' tgt w off) = 4%nat) as L2 by apply length_only, length_filled.
    assert (length (le_encode 4 w) = 4%nat) as L4 by apply length_le_encode.
    cbn [item_bytes] in *. rewrite L4 in *. destruct (decide (t = t')) as [<- | Hne]; cbn [app].
    + cbn [resolve_all]. unfold mbind, M_bind. unfold only at 1. rewrite decide_False by done.
      set (rest := link _ _ its). assert (Z.of_nat (length rest) = code_len its) as Lr by apply Ll.
      rewrite (resolve_slot_ok _ t tgt w); [| done | done | | |].
      * rewrite write_bytes_over by (rewrite ?length_app, ?length_filled; lia).
        unfold only at 1. rewrite decide_True by by left.
        unfold rest. rewrite !Hsplit by apply length_filled.
        apply IH; rewrite ?length_write_bytes; rewrite ?length_filled; done || lia.
      * rewrite length_write_bytes; rewrite ?length_app; lia.
      * rewrite length_write_bytes; rewrite ?length_app; lia.
      * rewrite <- (write_bytes_app b off (le_encode 4 w) rest) by lia.
        rewrite bytes_at_write_ne by (rewrite ?length_write_bytes; lia).
        pose proof (bytes_at_write_eq b off (le_encode 4 w)) as Hw. rewrite L4 in Hw. apply Hw; lia.
    + assert (only (t :: ts) (filled st) t' tgt w off = only ts (filled st) t' tgt w off) as ->.
      { unfold only. destruct (decide (t' ∈ t :: ts)) as [[-> | Hin]%elem_of_cons | Hn]; [done | by rewrite decide_True |].
        rewrite decide_False; [done |]. intros ?. apply Hn. by right. }
      rewrite !Hsplit by done. apply IH; rewrite ?length_write_bytes; rewrite ?L1; done || lia.
  - cbn in *. rewrite Z.add_0_r in *. apply IH; done || lia.
Qed.

Section Linked.
Context (buffer : list Z) (its : list item) (st : jit_state).
Context (Hlo : laid_out buffer its st) (Hok : items_ok (linkable st) 0 its).

(** The code with the slots of [ts] filled, and with all of them. *)
Definition linked_partly (ts : list slot_table) : list Z := write_bytes buffer 0 (link (only ts (filled st)) 0 its).
Definition linked_code : list Z := write_bytes buffer 0 (link (filled st) 0 its).

Lemma linked_none : st = set_buf (linked_partly []) st.
Proof using Hlo.
  assert (forall s, s = set_buf s.(buf) s) as E by by intros []. unfold linked_partly.
  rewrite link_only_nil, <- (lo_buf _ _ _ Hlo). apply E.
Qed.

Lemma linked_all ts : (forall t, t ∈ ts) -> linked_partly ts = linked_code.
Proof using.
  intros Hts. unfold linked_partly, linked_code. f_equal. apply link_ext. intros t tgt w o.
  unfold only. by rewrite decide_True.
Qed.

(** One pass. *)
Lemma resolve_pass t ts :
  t ∉ ts ->
  resolve_all (resolve_slot t) (table_of t st) (set_buf (linked_partly ts) st) =
  Some (true, set_buf (linked_partly (t :: ts)) st).
Proof using Hlo Hok.
  intros Hn. pose proof (laid_out_fits _ _ _ Hlo). destruct Hlo as [[] _ Hlen _ Htab].
  rewrite Htab. apply resolve_table; done || lia.
Qed.

Lemma linked_length : length linked_code = length buffer.
Proof using Hlo.
  pose proof (laid_out_fits _ _ _ Hlo). unfold linked_code.
  apply length_write_bytes; rewrite ?length_link; [lia | done | apply length_filled].
Qed.

(** Nothing is written behind the code. *)
Lemma linked_rest : drop (Z.to_nat (code_len its)) linked_code = drop (Z.to_nat (code_len its)) buffer.
Proof using.
  unfold linked_code, write_bytes. pose proof (length_link (filled st) (length_filled st) 0 its) as L.
  change (Z.to_nat 0) with 0%nat. rewrite take_0, app_nil_l, Nat.add_0_l, drop_app_ge, drop_drop by lia. f_equal. lia.
Qed.

Lemma linked_item a it b :
  its = a ++ it :: b ->
  bytes_at linked_code (code_len a) (length (item_bytes it)) =
  match it with Slot t tgt w => filled st t tgt w (code_len a) | _ => item_bytes it end.
Proof using Hlo.
  intros E. pose proof (laid_out_fits _ _ _ Hlo) as Hfit. unfold linked_code. rewrite E in Hfit |- *.
  apply link_at; [apply length_filled | done].
Qed.

(** Code without slots is in the linked code as it is. *)
Lemma linked_plain a m b :
  its = a ++ m ++ b -> Forall (fun it => match it with Slot _ _ _ => False | _ => True end) m ->
  bytes_at linked_code (code_len a) (length (m ≫= item_bytes)) = m ≫= item_bytes.
Proof using Hlo.
  revert a; induction m as [| it m IH]; intros a E Hm; [done |]. apply list.Forall_cons in Hm as [Hit Hm].
  rewrite bind_cons, length_app, bytes_at_split by apply code_len_nonneg. f_equal.
  - rewrite (linked_item a it (m ++ b) E). by destruct it.
  - rewrite <- (IH (a ++ [it])) at 2; [| rewrite E; by rewrite <- app_assoc | done]. f_equal.
    rewrite code_len_app, code_len_cons. change (code_len []) with 0. lia.
Qed.

(** The dispatcher and the helper table at the end of the code. *)
Lemma linked_data a d fs :
  its = a ++ [Bytes (le_encode 8 d); Bytes (fs ≫= le_encode 8)] -> Z.of_nat (length fs) = MAX_EXT_FUNCS ->
  code_len a + 8 + 512 = code_len its /\ 0 <= code_len a /\
  bytes_at linked_code (code_len a) 8 = le_encode 8 d /\
  bytes_at linked_code (code_len a + 8) 512 = fs ≫= le_encode 8.
Proof using Hlo.
  unfold MAX_EXT_FUNCS. intros E Hfs. pose proof (length_helper_table fs) as Lt. set (disp := le_encode 8 d) in *.
  set (tab := fs ≫= le_encode 8) in *. assert (length tab = 512%nat) as L by lia.
  assert (code_len (a ++ [Bytes disp]) = code_len a + 8) as Ea by (rewrite code_len_app; done).
  split_and!; [| apply code_len_nonneg | exact (linked_item a _ _ E) |].
  - rewrite E, code_len_app, !code_len_cons. cbn [item_bytes]. rewrite L. change (code_len []) with 0. cbn. lia.
  - rewrite <- Ea. pose proof (linked_item (a ++ [Bytes disp]) (Bytes tab) []) as Hi. rewrite <- app_assoc in Hi.
    specialize (Hi E). cbn [item_bytes] in Hi. by rewrite L in Hi.
Qed.
End Linked.
End Passes.

(** ** Data and loops *)

Lemma puts_for_each {A} (l : list A) (body : A -> M unit) (g : A -> list Z) :
  (forall x, x ∈ l -> puts (body x) (g x)) -> puts (for_each l body) (l ≫= g).
Proof.
  induction l as [| x l IH]; intros Hb; cbn [for_each].
  - apply puts_nil.
  - rewrite bind_cons. apply puts_seq; [apply Hb; by left |]. apply IH. intros y Hy. apply Hb. by right.
Qed.

Lemma bind_seqZ_lookup {A} (l : list Z) (g : Z -> list A) :
  (seqZ 0 (Z.of_nat (length l)) ≫= fun i => g (default 0 (l !! Z.to_nat i))) = l ≫= g.
Proof.
  induction l as [| x l IH] using rev_ind; [done |].
  rewrite length_app, bind_app, <- IH. cbn [length]. replace (Z.of_nat (length l + 1)) with (Z.of_nat (length l) + 1) by lia.
  rewrite seqZ_app, bind_app by lia. rewrite Z.add_0_l. f_equal.
  - apply Forall_bind_ext, list.Forall_forall. intros i Hi%elem_of_seqZ. rewrite lookup_app_l by lia. done.
  - rewrite seqZ_cons, seqZ_nil by lia. rewrite !bind_cons. cbn [mbind list_bind]. rewrite Nat2Z.id, lookup_app_r by lia.
    by rewrite Nat.sub_diag.
Qed.

Lemma run_gets_asm {B} (k : Z -> M B) done st r :
  ready done st -> k (st.(joffset) + code_len done) (asm done st) = r -> (gets joffset ≫= k) (asm done st) = r.
Proof. intros Hr <-. unfold mbind, M_bind, gets. by rewrite asm_offset. Qed.

(** The table of the helper functions. *)
Lemma puts_helper_table (vm : ubpf_vm) (emit8 : Z -> M unit) :
  (forall f, puts (emit8 f) (le_encode 8 f)) ->
  Z.of_nat (length vm.(ext_funcs)) = MAX_EXT_FUNCS ->
  puts (for_each (seqZ 0 MAX_EXT_FUNCS) (fun i => f ← lift (vm.(ext_funcs) !! Z.to_nat i); emit8 f))
    (vm.(ext_funcs) ≫= le_encode 8).
Proof.
  intros He Hl. rewrite <- bind_seqZ_lookup, Hl. apply puts_for_each. intros i Hi%elem_of_seqZ.
  destruct (lookup_lt_is_Some_2 vm.(ext_funcs) (Z.to_nat i) ltac:(lia)) as [f Hf].
  intros st Hok Hlen. unfold mbind, M_bind, lift. rewrite Hf in *. cbn in *. by apply He.
Qed.

Lemma set_dispatcher_laid buffer its o st : laid_out buffer its st -> laid_out buffer its (set_dispatcher_loc o st).
Proof. intros Hlo. eapply laid_out_set; [exact Hlo | done .. | by intros []]. Qed.

Lemma set_retpoline_laid buffer its o st : laid_out buffer its st -> laid_out buffer its (set_retpoline_loc o st).
Proof. intros Hlo. eapply laid_out_set; [exact Hlo | done .. | by intros []]. Qed.

Lemma set_helper_table_laid buffer its o st : laid_out buffer its st -> laid_out buffer its (set_helper_table_loc o st).
Proof. intros Hlo. eapply laid_out_set; [exact Hlo | done .. | by intros []]. Qed.

(** Data at the end of the code, with its position. *)
Lemma data_step {TG : Target} buffer a st bs n n' m (set : Z -> jit_state -> jit_state) :
  puts m bs -> item_ok (Bytes bs) -> laid_out buffer a st -> (forall its o st', laid_out buffer its st' -> laid_out buffer its (set o st')) ->
  Z.of_nat (length bs) <= n -> fits buffer a (n + n') 0 -> 0 <= n' ->
  (forall B (k : M B), (x ← (o ← gets joffset; m;; mret o); modify (set x);; k) st = k (set (code_len a) (put bs st))) /\
  laid_out buffer (a ++ [Bytes bs]) (set (code_len a) (put bs st)) /\ fits buffer (a ++ [Bytes bs]) n' 0.
Proof.
  intros Hm Hi Hlo Hset Hn Hfit H0.
  assert (in_budget n 0 [Bytes bs]) as Hb.
  { split_and!; [| done | by repeat constructor]. rewrite code_len_cons. cbn [item_bytes]. change (code_len []) with 0. lia. }
  destruct (fits_asm buffer a [Bytes bs] st n 0 n' 0 Hlo Hb Hfit H0) as [Hlo' Hfit']. split; [| split; [by apply Hset | done]].
  destruct Hfit as [Hl _ _ _]. pose proof Hlo as [[] Eo El _ _].
  intros B k. unfold mbind, M_bind, gets, modify, mret, M_ret. rewrite Hm by (done || lia). by rewrite Eo.
Qed.

(** *** The size of a function's prolog *)

Lemma set_prolog_id n st : st.(bpf_function_prolog_size) = n -> set_bpf_function_prolog_size n st = st.
Proof. by intros <-; destruct st. Qed.

Lemma modify_jumps_prolog o tgt n st :
  modify_jumps o tgt (set_bpf_function_prolog_size n st) =
  (fun r => (r.1, set_bpf_function_prolog_size n r.2)) <$> modify_jumps o tgt st.
Proof. reflexivity. Qed.

(** ** The state a translation starts in *)

Lemma initial_state alloc buffer random mode :
  (forall k, alloc k = true) -> Z.of_nat (length buffer) + 16 < 2 ^ 32 ->
  exists st0, initialize_jit_state_result alloc buffer (Z.of_nat (length buffer)) mode random =
    (Some st0, JitResult 0 0 UBPF_JIT_COMPILE_FAILURE mode) /\
    laid_out buffer [] st0 /\ st0.(bpf_function_prolog_size) = 0 /\ st0.(pc_locs) = ∅ /\ st0.(state_jit_mode) = mode.
Proof.
  intros Ha Hw. unfold initialize_jit_state_result. rewrite !Ha. cbn [andb negb].
  rewrite wrap_id by lia. eexists. split; [done |]. split; [| done].
  constructor; try done; [constructor; try done; cbn | by intros []].
  - lia.
  - intros [] e He; by apply elem_of_nil in He.
  - intros [] [] e t' i' e' He; discriminate He.
Qed.
