(* ===== verification/JitProg.v ===== *)
(** * JitProg: what the back ends use of a loaded program

    The slots of instructions, the targets of jumps and local calls as the code
    generators compute them, and the starts of local functions. *)

From Stdlib Require Import ZArith Lia Bool.
From stdpp Require Import base list gmap strings numbers.
From S2P Require Import Prelude Ebpf InstValid Mem Vm Validate Load JitSupport.

Local Open Scope Z_scope.
Local Open Scope cbits_scope.

#[export] Instance check_group_eq_dec : EqDecision check_group.
Proof. solve_decision. Defined.

Lemma is_lddw_op inst op : switch_op inst.(opcode) = Some op -> is_lddw inst = true <-> op = EBPF_OP_LDDW.
Proof.
  intros H%switch_op_sound. unfold is_lddw. rewrite Z.eqb_eq, <- H. split; [apply opcode_of_inj | by intros ->].
Qed.

(** The slot after the last one an instruction occupies, minus one. *)
Definition last_slot (i : Z) (inst : ebpf_inst) : Z := if is_lddw inst then i + 1 else i.

Lemma jump_target_u32 (prog : list ebpf_inst) i inst :
  Z.of_nat (length prog) < UBPF_MAX_INSTS ->
  0 <= i + 1 + jump_offset inst < Z.of_nat (length prog) ->
  u32 (jump_target_pc i inst) = i + 1 + jump_offset inst.
Proof.
  unfold UBPF_MAX_INSTS. intros Hl Ht. assert (jump_target_pc i inst = i + 1 + jump_offset inst) as E.
  { unfold jump_target_pc, jump_offset. destruct (_ =? _); lia. }
  by rewrite E, wrap_id by lia.
Qed.

Lemma call_target_u32 (prog : list ebpf_inst) i inst :
  Z.of_nat (length prog) < UBPF_MAX_INSTS -> 0 <= call_target i inst < Z.of_nat (length prog) ->
  u32 (i + inst.(imm) + 1) = call_target i inst.
Proof.
  unfold UBPF_MAX_INSTS. intros Hl Ht. rewrite <- (wrap_id 32 (call_target i inst)) by lia.
  unfold call_target. rewrite wrap_sext, <- (wrap_add_r 32 i (s32 _)), wrap_sext, wrap_add_r by lia. f_equal. lia.
Qed.

(** Whether a local function starts at [i]. *)
Definition function_start (vm : ubpf_vm) (i : Z) : bool :=
  (i =? 0) || default false (flags ← vm.(int_funcs); flags !! Z.to_nat i).

(** ** Where instructions start *)

Lemma start_from_total prog a i k :
  start_from prog a i -> start_from prog a k -> start_from prog i k \/ start_from prog k i.
Proof.
  intros Hi Hk. induction Hi as [| i inst _ IH Hinst Hl | i inst _ IH Hinst Hl]; [by left | |];
    (destruct IH as [Hs | Hs]; [| right; eauto using start_from]);
    (destruct (start_from_unfold _ _ _ _ Hs Hinst) as [-> | Hs']; [right | left]);
    rewrite ?Hl in *; eauto using start_from.
Qed.

(** No instruction starts inside another. *)
Lemma start_gap prog i k inst :
  start prog i -> prog !! Z.to_nat i = Some inst -> start prog k -> i < k -> last_slot i inst + 1 <= k.
Proof.
  intros Hi Hinst Hk Hlt. unfold last_slot.
  destruct (start_from_total _ _ _ _ Hi Hk) as [Hs | Hs%start_from_ge]; [| lia].
  destruct (start_from_unfold _ _ _ _ Hs Hinst) as [-> | Hs']; [lia |]. apply start_from_ge in Hs'.
  destruct (is_lddw inst); lia.
Qed.

Lemma start_last_slot prog i inst :
  start prog i -> prog !! Z.to_nat i = Some inst -> start prog (last_slot i inst + 1).
Proof.
  intros Hi Hinst. unfold last_slot. destruct (is_lddw inst) eqn:Hl; [| by eapply start_next].
  replace (i + 1 + 1) with (i + 2) by lia. by eapply start_after_lddw.
Qed.

(** ** Loaded programs *)

Section Loaded.
Context `{HostEnv} (vm : ubpf_vm) (prog : list ebpf_inst) (Hld : loaded vm prog).

Lemma loaded_length : Z.of_nat (length prog) < UBPF_MAX_INSTS.
Proof. apply (vd_length _ _ (ld_validated _ _ Hld)). Qed.

Lemma usage_at_start i :
  0 <= i < vm.(num_insts) -> (i = 0 \/ exists flags, vm.(int_funcs) = Some flags /\ flags !! Z.to_nat i = Some true) ->
  is_Some (ubpf_stack_usage_for_local_func vm i).
Proof.
  intros Hi [-> | (flags & Ef & Hk)]; apply usage_known_some.
  - apply (vd_main_known _ _ (ld_validated _ _ Hld)).
  - destruct (ld_int_funcs _ _ Hld) as (flags' & Ef' & _ & Hmark). simplify_eq.
    apply Hmark in Hk. rewrite Z2Nat.id in Hk by lia.
    by destruct (validated_call_targets _ _ _ (ld_validated _ _ Hld) Hk) as (_ & ? & _).
Qed.

Lemma loaded_inst i inst :
  start prog i -> prog !! Z.to_nat i = Some inst ->
  ubpf_fetch_instruction vm i = Some inst /\ 0 <= inst.(dst) < 11 /\ 0 <= inst.(src) < 11 /\
  exists op, inst_checked vm prog i inst op.
Proof.
  intros Hs Hinst. pose proof (start_from_ge _ _ _ Hs) as Hi. pose proof (lookup_lt_Some _ _ _ Hinst) as Hlt.
  assert (ubpf_fetch_instruction vm i = Some inst) as Hf
    by (rewrite (ld_fetch _ _ Hld); [done | rewrite (ld_num_insts _ _ Hld); lia]).
  destruct (vd_checked _ _ (ld_validated _ _ Hld) i inst Hs Hinst) as [op Hck].
  assert (inst_ok inst) as (_ & Hd & Hsr & _).
  { unfold ubpf_fetch_instruction in Hf. apply fmap_Some in Hf as (w & _ & ->). apply inst_of_u64_ok. }
  unfold unsigned_fits in *. destruct (ck_dst _ _ _ _ _ Hck); pose proof (ck_src _ _ _ _ _ Hck); split_and!; eauto; lia.
Qed.

Lemma next_slot_bound i inst :
  start prog i -> prog !! Z.to_nat i = Some inst -> last_slot i inst + 1 <= Z.of_nat (length prog).
Proof.
  intros Hs Hinst. pose proof (start_from_ge _ _ _ Hs). pose proof (lookup_lt_Some _ _ _ Hinst).
  destruct (loaded_inst i inst Hs Hinst) as (_ & _ & _ & op & [Hop _ _ _ Hg]).
  unfold last_slot. rewrite (lddw_group inst op Hop). destruct (group_of op); try lia. destruct Hg as (_ & Hn & _). lia.
Qed.

End Loaded.

(** What the loader and the validation have established of a local call. *)
Lemma call_slot_facts `{HostEnv} vm prog k inst :
  loaded vm prog -> start prog k -> prog !! Z.to_nat k = Some inst -> is_local_call inst = true ->
  switch_op inst.(opcode) = Some EBPF_OP_CALL /\ inst.(src) = 1 /\ u32 (k + inst.(imm) + 1) = call_target k inst /\
  function_start vm (call_target k inst) = true.
Proof.
  intros Hld Hk Hinst Hcall. pose proof (start_from_ge _ _ _ Hk).
  destruct (validated_local_call _ _ k inst (ld_validated _ _ Hld) Hk Hinst Hcall) as (Ht & _ & _).
  pose proof Hcall as Hc. unfold is_local_call in Hc. bools. split_and!; [| done | |].
  - replace (opcode inst) with (opcode_of EBPF_OP_CALL) by congruence. apply switch_op_complete.
  - by apply (call_target_u32 prog); [apply (vd_length _ _ (ld_validated _ _ Hld)) |].
  - unfold function_start. apply orb_true_iff. right. destruct (ld_int_funcs _ _ Hld) as (flags & -> & _ & Hmark).
    cbn [mbind option_bind]. rewrite (proj2 (Hmark _)); [done |]. apply elem_of_call_targets.
    exists (Z.to_nat k), inst. split; [done |]. split; [done |].
    rewrite !Z2Nat.id, Z.add_0_l, u32_call_target by lia. done.
Qed.

(** ** A program with a jump and a local call, for evaluation *)

(** [mov r1, 5; call f; jeq r0, 7, +0; exit; f: mov r0, r1; exit] *)
Definition jit_code : list Z :=
  [0xb7; 0x01; 0; 0; 5; 0; 0; 0;  0x85; 0x10; 0; 0; 2; 0; 0; 0;  0x15; 0; 0; 0; 7; 0; 0; 0;
   0x95; 0; 0; 0; 0; 0; 0; 0;  0xbf; 0x10; 0; 0; 0; 0; 0; 0;  0x95; 0; 0; 0; 0; 0; 0; 0].

Definition created_on (target : jit_target) : ubpf_vm := default (zeroed_vm target) (ubpf_create target (fun _ => true)).
Definition jit_buffer : list Z := replicate 4096 0.

Lemma jit_loaded target :
  @loaded null_host (load_on null_host (created_on target) jit_code) (insts_of_bytes jit_code).
Proof.
  destruct (@load_outcome null_host (created_on target) test_os jit_code test_os_sound ltac:(discriminate)) as (vm' & r & E & _ & Hr).
  unfold load_on. rewrite E. destruct r as [[] | e]; [apply Hr |].
  exfalso. destruct target; vm_compute in E; discriminate.
Qed.
