(* ===== verification/X86Emit.v ===== *)
(** * X86Emit: the instruction emitters of the x86-64 back end (vm/ubpf_jit_x86_64.c)

    One definition per emitter, from [emit_bytes] up to the sequences for
    atomics and helper calls.  The code is the System V build with retpolines.
    A register is its number.  The lemmas give, for each emitter, the bytes it
    puts out when there is room. *)

From Stdlib Require Import ZArith Lia Bool.
From stdpp Require Import base list gmap strings numbers.
From S2P Require Import Prelude Ebpf Vm JitSupport JitAsm.

Local Open Scope Z_scope.
Local Open Scope cbits_scope.

(** ** Registers and operand sizes *)

Definition RAX : Z := 0.
Definition RCX : Z := 1.
Definition RDX : Z := 2.
Definition RBX : Z := 3.
Definition RSP : Z := 4.
Definition RBP : Z := 5.
Definition RIP : Z := 5.
Definition RSI : Z := 6.
Definition RDI : Z := 7.
Definition R8 : Z := 8.
Definition R9 : Z := 9.
Definition R10 : Z := 10.
Definition R11 : Z := 11.
Definition R12 : Z := 12.
Definition R13 : Z := 13.
Definition R14 : Z := 14.
Definition R15 : Z := 15.
Definition VOLATILE_CTXT : Z := 11.
Definition RCX_ALT : Z := R10.

Inductive operand_size : Type := S8 | S16 | S32 | S64.

#[export] Instance operand_size_eq_dec : EqDecision operand_size.
Proof. solve_decision. Defined.

Definition REGISTER_MAP_SIZE : Z := 11.
Definition platform_nonvolatile_registers : list Z := [RBP; RBX; R12; R13; R14; R15].
Definition platform_volatile_registers : list Z := [RAX; RDI; RSI; RDX; RCX; R8; R9; R10; R11].
Definition platform_parameter_registers : list Z := [RDI; RSI; RDX; RCX; R8; R9].

(** The initial value of the array [register_map]; the array itself is an
    argument of what reads it. *)
Definition register_map : list Z := [RAX; RDI; RSI; RDX; R10; R8; RBX; R12; R13; R14; R15].

Definition _BPF_REG_MAX : Z := 11.

Definition map_register (rm : list Z) (r : Z) : M Z :=
  assertion (r <? _BPF_REG_MAX);;
  lift (rm !! Z.to_nat (r mod _BPF_REG_MAX)).

(** ** Bytes *)

Definition emit_bytes (data : list Z) : M unit := fun st =>
  if decide (st.(jit_status) <> NoError) then Some (tt, st)
  else if u32 (st.(joffset) + Z.of_nat (length data)) >? st.(jsize) then
    Some (tt, set_jit_status NotEnoughSpace st)
  else
    (memcpy_buf st.(joffset) data;;
     modify (fun st => set_joffset (st.(joffset) + Z.of_nat (length data)) st)) st.

Definition emit1 (x : Z) : M unit := emit_bytes (le_encode 1 x).
Definition emit2 (x : Z) : M unit := emit_bytes (le_encode 2 x).
Definition emit4 (x : Z) : M unit := emit_bytes (le_encode 4 x).
Definition emit8 (x : Z) : M unit := emit_bytes (le_encode 8 x).

Definition emit_4byte_offset_placeholder : M unit := emit4 0.

Definition emit_jump_address_reloc (tgt : PatchableTarget) : M Z :=
  num_jumps ← gets (fun st => length st.(jumps));
  if Z.of_nat num_jumps =? UBPF_MAX_INSTS then
    modify (set_jit_status TooManyJumps);; mret 0
  else
    target_address_offset ← gets joffset;
    note_jump tgt;;
    emit_4byte_offset_placeholder;;
    mret target_address_offset.

Definition emit_local_call_address_reloc (tgt : PatchableTarget) : M Z :=
  num_local_calls ← gets (fun st => length st.(local_calls));
  if Z.of_nat num_local_calls =? UBPF_MAX_INSTS then
    modify (set_jit_status TooManyLocalCalls);; mret 0
  else
    target_address_offset ← gets joffset;
    note_local_call tgt;;
    emit_4byte_offset_placeholder;;
    mret target_address_offset.

(** ** Prefixes and operands *)

Definition emit_modrm (mod_ r m : Z) : M unit :=
  assertion (mod_ .& Z.lnot 0xc0 =? 0);;
  emit1 ((mod_ .& 0xc0) .| ((r .& 7) .<< 3) .| (m .& 7)).

Definition emit_modrm_reg2reg (r m : Z) : M unit := emit_modrm 0xc0 r m.

Definition emit_modrm_and_displacement (reg rm d : Z) : M unit :=
  let rm := rm .& 0xf in
  let reg := reg .& 0xf in
  if (d =? 0) && negb (rm =? RSP) && negb (rm =? RBP) && negb (rm =? R12) && negb (rm =? R13) then
    emit_modrm 0x00 reg rm
  else
    let near_disp := (-128 <=? d) && (d <=? 127) in
    let mod_ := if near_disp then 0x40 else 0x80 in
    emit_modrm mod_ reg rm;;
    when (rm =? R12) (emit1 0x24);;
    (if near_disp then emit1 d else emit4 d).

Definition emit_rex (w r x b : Z) : M unit :=
  assertion (w .& Z.lnot 1 =? 0);;
  assertion (r .& Z.lnot 1 =? 0);;
  assertion (x .& Z.lnot 1 =? 0);;
  assertion (b .& Z.lnot 1 =? 0);;
  emit1 (0x40 .| (w .<< 3) .| (r .<< 2) .| (x .<< 1) .| b).

(** [!!(r & 8)] *)
Definition high_bit (r : Z) : Z := Z.b2z (negb (r .& 8 =? 0)).

Definition emit_basic_rex (w src dst : Z) : M unit :=
  when (negb (w =? 0) || negb (src .& 8 =? 0) || negb (dst .& 8 =? 0))
    (emit_rex w (high_bit src) 0 (high_bit dst)).

Definition emit_push (r : Z) : M unit :=
  emit_basic_rex 0 0 r;;
  emit1 (0x50 .| (r .& 7)).

Definition emit_pop (r : Z) : M unit :=
  emit_basic_rex 0 0 r;;
  emit1 (0x58 .| (r .& 7)).

(** ** Arithmetic *)

Definition emit_alu32 (op src dst : Z) : M unit :=
  emit_basic_rex 0 src dst;;
  emit1 op;;
  emit_modrm_reg2reg src dst.

Definition emit_alu32_imm32 (op src dst imm : Z) : M unit :=
  emit_alu32 op src dst;;
  emit4 imm.

Definition emit_alu32_imm8 (op src dst imm : Z) : M unit :=
  emit_alu32 op src dst;;
  emit1 imm.

Definition emit_truncate_u32 (destination : Z) : M unit :=
  emit_alu32_imm32 0x81 4 destination UINT32_MAX.

Definition emit_alu64 (op src dst : Z) : M unit :=
  emit_basic_rex 1 src dst;;
  emit1 op;;
  emit_modrm_reg2reg src dst.

Definition emit_alu64_imm32 (op src dst imm : Z) : M unit :=
  emit_alu64 op src dst;;
  emit4 imm.

Definition emit_alu64_imm8 (op src dst imm : Z) : M unit :=
  emit_alu64 op src dst;;
  emit1 imm.

Definition emit_mov (src dst : Z) : M unit := emit_alu64 0x89 src dst.

Definition emit_cmp_imm32 (dst imm : Z) : M unit := emit_alu64_imm32 0x81 7 dst imm.
Definition emit_cmp32_imm32 (dst imm : Z) : M unit := emit_alu32_imm32 0x81 7 dst imm.
Definition emit_cmp (src dst : Z) : M unit := emit_alu64 0x39 src dst.
Definition emit_cmp32 (src dst : Z) : M unit := emit_alu32 0x39 src dst.

Definition emit_jcc (code : Z) (tgt : PatchableTarget) : M Z :=
  emit1 0x0f;;
  emit1 code;;
  emit_jump_address_reloc tgt.

(** ** Loads and immediates *)

Definition is_s64 (size : operand_size) : Z := Z.b2z (bool_decide (size = S64)).

Definition emit_load (size : operand_size) (src dst off : Z) : M unit :=
  emit_basic_rex (is_s64 size) dst src;;
  match size with
  | S8 => emit1 0x0f;; emit1 0xb6
  | S16 => emit1 0x0f;; emit1 0xb7
  | S32 | S64 => emit1 0x8b
  end;;
  emit_modrm_and_displacement dst src off.

Definition emit_load_sx (size : operand_size) (src dst off : Z) : M unit :=
  match size with
  | S8 | S16 =>
      emit_basic_rex 1 dst src;;
      emit1 0x0f;;
      match size with
      | S8 => emit1 0xbe
      | _ => emit1 0xbf
      end;;
      emit_modrm_and_displacement dst src off
  | S32 =>
      emit_basic_rex 1 dst src;;
      emit1 0x63;;
      emit_modrm_and_displacement dst src off
  | S64 => mret tt
  end.

Definition fits_int32 (v : Z) : bool := (INT32_MIN <=? v) && (v <=? INT32_MAX).

(** [imm] is an int64_t. *)
Definition emit_load_imm (dst imm : Z) : M unit :=
  let imm := s64 imm in
  if fits_int32 imm then emit_alu64_imm32 0xc7 0 dst imm
  else
    emit_basic_rex 1 0 dst;;
    emit1 (0xb8 .| (dst .& 7));;
    emit8 imm.

(** ** Blinded immediates *)

Definition emit_load_imm_blinded (dst imm : Z) : M unit :=
  random ← ubpf_generate_blinding_constant;
  let blinded_imm := u64 imm .^ random in
  (if fits_int32 (s64 blinded_imm) then emit_alu64_imm32 0xc7 0 dst blinded_imm
   else
     emit_basic_rex 1 0 dst;;
     emit1 (0xb8 .| (dst .& 7));;
     emit8 blinded_imm);;
  if fits_int32 (s64 random) then emit_alu64_imm32 0x81 6 dst random
  else
    let temp_reg := if dst =? R11 then R10 else R11 in
    emit_basic_rex 1 0 temp_reg;;
    emit1 (0xb8 .| (temp_reg .& 7));;
    emit8 random;;
    emit_alu64 0x31 temp_reg dst.

(** The register form of an immediate operation 0x81 /src. *)
Definition reg_op_of (src : Z) : Z :=
  match src with
  | 0 => 0x01
  | 1 => 0x09
  | 4 => 0x21
  | 5 => 0x29
  | 6 => 0x31
  | 7 => 0x39
  | _ => 0x01
  end.

Definition emit_alu64_imm32_blinded (op src dst imm : Z) : M unit :=
  random64 ← ubpf_generate_blinding_constant;
  let random := u32 random64 in
  let blinded_imm := s32 (u32 imm .^ random) in
  let temp_reg := if dst =? R11 then R10 else R11 in
  emit_alu64_imm32 0xc7 0 temp_reg blinded_imm;;
  emit_alu64_imm32 0x81 6 temp_reg (s32 random);;
  if op =? 0x81 then emit_alu64 (reg_op_of src) temp_reg dst
  else if op =? 0xc7 then emit_alu64 0x89 temp_reg dst
  else emit_alu64 op temp_reg dst.

Definition emit_alu32_imm32_blinded (op src dst imm : Z) : M unit :=
  random64 ← ubpf_generate_blinding_constant;
  let random := u32 random64 in
  let blinded_imm := s32 (u32 imm .^ random) in
  let temp_reg := if dst =? R11 then R10 else R11 in
  emit_alu32_imm32 0xc7 0 temp_reg blinded_imm;;
  emit_alu32_imm32 0x81 6 temp_reg (s32 random);;
  if op =? 0x81 then emit_alu32 (reg_op_of src) temp_reg dst
  else if op =? 0xc7 then emit_alu32 0x89 temp_reg dst
  else emit_alu32 op temp_reg dst.

Definition emit_cmp_imm32_blinded (dst imm : Z) : M unit :=
  random64 ← ubpf_generate_blinding_constant;
  let random := u32 random64 in
  let blinded_imm := s32 (u32 imm .^ random) in
  let temp_reg := if dst =? R11 then R10 else R11 in
  emit_alu64_imm32 0xc7 0 temp_reg blinded_imm;;
  emit_alu64_imm32 0x81 6 temp_reg (s32 random);;
  emit_alu64 0x39 temp_reg dst.

Definition emit_cmp32_imm32_blinded (dst imm : Z) : M unit :=
  random64 ← ubpf_generate_blinding_constant;
  let random := u32 random64 in
  let blinded_imm := s32 (u32 imm .^ random) in
  let temp_reg := if dst =? R11 then R10 else R11 in
  emit_alu32_imm32 0xc7 0 temp_reg blinded_imm;;
  emit_alu32_imm32 0x81 6 temp_reg (s32 random);;
  emit_alu32 0x39 temp_reg dst.

Definition emit_test_imm32_blinded (dst imm : Z) : M unit :=
  random64 ← ubpf_generate_blinding_constant;
  let random := u32 random64 in
  let blinded_imm := s32 (u32 imm .^ random) in
  let temp_reg := if dst =? R11 then R10 else R11 in
  emit_alu64_imm32 0xc7 0 temp_reg blinded_imm;;
  emit_alu64_imm32 0x81 6 temp_reg (s32 random);;
  emit_alu64 0x85 temp_reg dst.

Definition emit_test32_imm32_blinded (dst imm : Z) : M unit :=
  random64 ← ubpf_generate_blinding_constant;
  let random := u32 random64 in
  let blinded_imm := s32 (u32 imm .^ random) in
  let temp_reg := if dst =? R11 then R10 else R11 in
  emit_alu32_imm32 0xc7 0 temp_reg blinded_imm;;
  emit_alu32_imm32 0x81 6 temp_reg (s32 random);;
  emit_alu32 0x85 temp_reg dst.

(** ** Stores *)

Definition emit_store (size : operand_size) (src dst off : Z) : M unit :=
  when (bool_decide (size = S16)) (emit1 0x66);;
  let rexw := is_s64 size in
  when (negb (rexw =? 0) || negb (src .& 8 =? 0) || negb (dst .& 8 =? 0) || bool_decide (size = S8))
    (emit_rex rexw (high_bit src) 0 (high_bit dst));;
  emit1 (if decide (size = S8) then 0x88 else 0x89);;
  emit_modrm_and_displacement src dst off.

Definition emit_store_imm32_blinded (size : operand_size) (dst off imm : Z) : M unit :=
  random64 ← ubpf_generate_blinding_constant;
  let random := u32 random64 in
  let blinded_imm := s32 (u32 imm .^ random) in
  let temp_reg := R11 in
  (if decide (size = S64) then
     emit_alu64_imm32 0xc7 0 temp_reg blinded_imm;;
     emit_alu64_imm32 0x81 6 temp_reg (s32 random)
   else
     emit_alu32_imm32 0xc7 0 temp_reg blinded_imm;;
     emit_alu32_imm32 0x81 6 temp_reg (s32 random));;
  emit_store size temp_reg dst off.

Definition emit_store_imm32 (size : operand_size) (dst off imm : Z) : M unit :=
  when (bool_decide (size = S16)) (emit1 0x66);;
  emit_basic_rex (is_s64 size) 0 dst;;
  emit1 (if decide (size = S8) then 0xc6 else 0xc7);;
  emit_modrm_and_displacement 0 dst off;;
  match size with
  | S32 | S64 => emit4 imm
  | S16 => emit2 imm
  | S8 => emit1 imm
  end.

(** ** Code positions *)

Definition emit_rip_relative_load (dst : Z) (load_tgt : PatchableTarget) : M Z :=
  num_loads ← gets (fun st => length st.(loads));
  if Z.of_nat num_loads =? UBPF_MAX_INSTS then
    modify (set_jit_status TooManyLoads);; mret 0
  else
    emit_rex 1 0 0 0;;
    emit1 0x8b;;
    emit_modrm 0 dst 0x05;;
    load_target_offset ← gets joffset;
    note_load load_tgt;;
    emit_4byte_offset_placeholder;;
    mret load_target_offset.

Definition emit_rip_relative_lea (lea_dst_reg : Z) (lea_tgt : PatchableTarget) : M unit :=
  num_leas ← gets (fun st => length st.(leas));
  if Z.of_nat num_leas =? UBPF_MAX_INSTS then modify (set_jit_status TooManyLeas)
  else
    emit_rex 1 1 0 0;;
    emit1 0x8d;;
    emit_modrm 0 lea_dst_reg 0x05;;
    note_lea lea_tgt;;
    emit_4byte_offset_placeholder.

Definition emit_ret : M unit := emit1 0xc3.

(** [!target.is_special && target.target.regular.near] *)
Definition is_near (tgt : PatchableTarget) : bool :=
  match tgt with
  | Special _ => false
  | Regular r => r.(near)
  end.

Definition emit_jmp (tgt : PatchableTarget) : M Z :=
  if is_near tgt then emit1 0xeb;; emit_jump_address_reloc tgt
  else emit1 0xe9;; emit_jump_address_reloc tgt.

Definition emit_call (tgt : PatchableTarget) : M Z :=
  emit1 0xe8;;
  call_src ← gets joffset;
  emit_jump_address_reloc tgt;;
  mret call_src.

Definition emit_pause : M unit := emit1 0xf3;; emit1 0x90.

(** ** Calls of helper functions *)

Definition emit_dispatched_external_helper_call (idx : Z) : M unit :=
  emit_push VOLATILE_CTXT;;
  emit_push VOLATILE_CTXT;;
  emit_rip_relative_load RAX (Special ExternalDispatcher);;
  emit_cmp_imm32 RAX 0;;
  skip_default_dispatcher_source ← emit_jcc 0x85 (ebpf_target 0);
  (* default dispatcher *)
  emit_alu32 0xc7 0 RAX;;
  emit4 idx;;
  emit_alu64_imm8 0xc1 4 RAX 3;;
  emit_rip_relative_lea R10 (Special LoadHelperTable);;
  emit_alu64 0x01 R10 RAX;;
  emit_load S64 RAX RAX 0;;
  emit_mov VOLATILE_CTXT R9;;
  skip_external_dispatcher_source ← emit_jmp (ebpf_target 0);
  (* external dispatcher *)
  emit_jump_target skip_default_dispatcher_source;;
  emit_load_imm R9 (u32 idx);;
  (* control flow converges *)
  emit_jump_target skip_external_dispatcher_source;;
  emit_call (Special Retpoline);;
  emit_pop VOLATILE_CTXT;;
  emit_pop VOLATILE_CTXT.

(** ** Atomics *)

Definition X64_ALU_ADD : Z := 0x01.
Definition X64_ALU_OR : Z := 0x09.
Definition X64_ALU_AND : Z := 0x21.
Definition X64_ALU_XOR : Z := 0x31.
Definition IS_64BIT : Z := 1.
Definition IS_32BIT : Z := 0.

Definition emit_atomic_alu (opcode is_64bit src dst off : Z) : M unit :=
  emit1 0xf0;;
  emit_basic_rex is_64bit src dst;;
  emit1 opcode;;
  emit_modrm_and_displacement src dst off.

Definition emit_atomic_cmp_exch_with_rax (is_64bit src dst off : Z) : M unit :=
  emit1 0xf0;;
  emit_basic_rex is_64bit src dst;;
  emit1 0x0f;;
  emit1 0xb1;;
  emit_modrm_and_displacement src dst off.

Definition emit_atomic_exchange (is_64bit src dst off : Z) : M unit :=
  emit1 0xf0;;
  emit_basic_rex is_64bit src dst;;
  emit1 0x87;;
  emit_modrm_and_displacement src dst off.

Definition emit_atomic_fetch_alu (is_64bit opcode src dst off : Z) : M unit :=
  let actual_src := if src =? RAX then (if dst =? R10 then R11 else R10) else src in
  (if negb (src =? RAX) then emit_push RAX
   else emit_push actual_src;; emit_mov src actual_src);;
  emit_load (if negb (is_64bit =? 0) then S64 else S32) dst RAX off;;
  loop_start ← gets joffset;
  emit_mov RAX RCX;;
  emit_alu64 opcode actual_src RCX;;
  emit_atomic_cmp_exch_with_rax is_64bit RCX dst off;;
  emit1 0x75;;
  here ← gets joffset;
  emit1 (loop_start - here - 1);;
  if negb (src =? RAX) then emit_mov RAX src;; emit_pop RAX
  else emit_pop actual_src.

Definition emit_atomic_add64 (src dst off : Z) : M unit := emit_atomic_alu X64_ALU_ADD IS_64BIT src dst off.
Definition emit_atomic_add32 (src dst off : Z) : M unit := emit_atomic_alu X64_ALU_ADD IS_32BIT src dst off.
Definition emit_atomic_and64 (src dst off : Z) : M unit := emit_atomic_alu X64_ALU_AND IS_64BIT src dst off.
Definition emit_atomic_and32 (src dst off : Z) : M unit := emit_atomic_alu X64_ALU_AND IS_32BIT src dst off.
Definition emit_atomic_or64 (src dst off : Z) : M unit := emit_atomic_alu X64_ALU_OR IS_64BIT src dst off.
Definition emit_atomic_or32 (src dst off : Z) : M unit := emit_atomic_alu X64_ALU_OR IS_32BIT src dst off.
Definition emit_atomic_xor64 (src dst off : Z) : M unit := emit_atomic_alu X64_ALU_XOR IS_64BIT src dst off.
Definition emit_atomic_xor32 (src dst off : Z) : M unit := emit_atomic_alu X64_ALU_XOR IS_32BIT src dst off.
Definition emit_atomic_compare_exchange64 (src dst off : Z) : M unit :=
  emit_atomic_cmp_exch_with_rax IS_64BIT src dst off.
Definition emit_atomic_compare_exchange32 (src dst off : Z) : M unit :=
  emit_atomic_cmp_exch_with_rax IS_32BIT src dst off.
Definition emit_atomic_exchange64 (src dst off : Z) : M unit := emit_atomic_exchange IS_64BIT src dst off.
Definition emit_atomic_exchange32 (src dst off : Z) : M unit := emit_atomic_exchange IS_32BIT src dst off.
Definition emit_atomic_fetch_add64 (src dst off : Z) : M unit :=
  emit_atomic_fetch_alu IS_64BIT X64_ALU_ADD src dst off.
Definition emit_atomic_fetch_add32 (src dst off : Z) : M unit :=
  emit_atomic_fetch_alu IS_32BIT X64_ALU_ADD src dst off.
Definition emit_atomic_fetch_and64 (src dst off : Z) : M unit :=
  emit_atomic_fetch_alu IS_64BIT X64_ALU_AND src dst off.
Definition emit_atomic_fetch_and32 (src dst off : Z) : M unit :=
  emit_atomic_fetch_alu IS_32BIT X64_ALU_AND src dst off.
Definition emit_atomic_fetch_or64 (src dst off : Z) : M unit :=
  emit_atomic_fetch_alu IS_64BIT X64_ALU_OR src dst off.
Definition emit_atomic_fetch_or32 (src dst off : Z) : M unit :=
  emit_atomic_fetch_alu IS_32BIT X64_ALU_OR src dst off.
Definition emit_atomic_fetch_xor64 (src dst off : Z) : M unit :=
  emit_atomic_fetch_alu IS_64BIT X64_ALU_XOR src dst off.
Definition emit_atomic_fetch_xor32 (src dst off : Z) : M unit :=
  emit_atomic_fetch_alu IS_32BIT X64_ALU_XOR src dst off.

(** ** Multiplication, division, remainder *)

(** [EMIT_LOAD_IMM] *)
Definition EMIT_LOAD_IMM (vm : ubpf_vm) (dst imm : Z) : M unit :=
  if vm.(constant_blinding_enabled) then emit_load_imm_blinded dst imm else emit_load_imm dst imm.

(** [state->buf[off] = v] *)
Definition poke (off v : Z) : M unit := memcpy_buf off (le_encode 1 v).

(** The divisor is tested, replaced by 1 if zero, and the dividend widened. *)
Definition emit_divisor_check (is64 mod_ is_signed : bool) : M unit :=
  (if is64 then emit_alu64 0x85 RCX RCX else emit_alu32 0x85 RCX RCX);;
  when mod_ (emit_push RAX);;
  emit1 0x9c;;
  emit_load_imm RDX 1;;
  emit1 0x48;;
  emit1 0x0f;;
  emit1 0x44;;
  emit1 0xca;;
  if is_signed then
    (if is64 then emit1 0x48;; emit1 0x99 else emit1 0x99)
  else emit_alu32 0x31 RDX RDX.

(** INT_MIN / -1 is kept from the IDIV; gives [overflow_jump_source]. *)
Definition emit_overflow_check (is64 div : bool) : M Z :=
  (if is64 then emit1 0x48;; emit1 0x83;; emit1 0xf9;; emit1 0xff
   else emit1 0x83;; emit1 0xf9;; emit1 0xff);;
  emit1 0x75;;
  jne_source ← gets joffset;
  emit1 0x00;;
  (if is64 then
     emit1 0x49;; emit1 0xbb;; emit8 0x8000000000000000;;
     emit1 0x4c;; emit1 0x39;; emit1 0xd8
   else emit1 0x3d;; emit4 0x80000000);;
  emit1 0x75;;
  jne2_source ← gets joffset;
  emit1 0x00;;
  when (negb div) (emit_alu32 0x31 RDX RDX);;
  emit1 0xeb;;
  overflow_jump_source ← gets joffset;
  emit1 0x00;;
  here ← gets joffset;
  poke jne_source (here - jne_source - 1);;
  poke jne2_source (here - jne2_source - 1);;
  mret overflow_jump_source.

(** The operation itself: MUL, DIV or IDIV of RCX, the latter behind the check. *)
Definition emit_operation (mul div mod_ is64 is_signed : bool) : M unit :=
  overflow_jump_source ← (if (div || mod_) && is_signed then emit_overflow_check is64 div else mret 0);
  when is64 (emit_rex 1 0 0 0);;
  emit_alu32 0xf7 (if mul then 4 else if is_signed then 7 else 6) RCX;;
  here ← gets joffset;
  when ((div || mod_) && is_signed && negb (overflow_jump_source =? 0))
    (poke overflow_jump_source (here - overflow_jump_source - 1)).

(** After the division: the result for a zero divisor. *)
Definition emit_zero_divisor_result (div : bool) : M unit :=
  emit1 0x9d;;
  if div then
    emit_load_imm RCX 0;;
    emit1 0x48;; emit1 0x0f;; emit1 0x44;; emit1 0xc1
  else
    emit_pop RCX;;
    emit1 0x48;; emit1 0x0f;; emit1 0x44;; emit1 0xd1.

Definition emit_muldivmod (vm : ubpf_vm) (opcode src dst imm off : Z) : M unit :=
  let mul := opcode .& EBPF_ALU_OP_MASK =? opcode_of EBPF_OP_MUL_IMM .& EBPF_ALU_OP_MASK in
  let div := opcode .& EBPF_ALU_OP_MASK =? opcode_of EBPF_OP_DIV_IMM .& EBPF_ALU_OP_MASK in
  let mod_ := opcode .& EBPF_ALU_OP_MASK =? opcode_of EBPF_OP_MOD_IMM .& EBPF_ALU_OP_MASK in
  let is64 := opcode .& EBPF_CLS_MASK =? EBPF_CLS_ALU64 in
  let reg := opcode .& EBPF_SRC_REG =? EBPF_SRC_REG in
  let is_signed := off =? 1 in
  if negb reg && (imm =? 0) then
    if div || mul then emit_alu32 0x31 dst dst else emit_mov dst dst
  else
    when (negb (dst =? RAX)) (emit_push RAX);;
    when (negb (dst =? RDX)) (emit_push RDX);;
    (if negb reg then EMIT_LOAD_IMM vm RCX imm else emit_mov src RCX);;
    emit_mov dst RAX;;
    when (div || mod_) (emit_divisor_check is64 mod_ is_signed);;
    emit_operation mul div mod_ is64 is_signed;;
    when (div || mod_) (emit_zero_divisor_result div);;
    when (negb (dst =? RDX)) (when mod_ (emit_mov RDX dst);; emit_pop RDX);;
    when (negb (dst =? RAX)) (when (div || mul) (emit_mov RAX dst);; emit_pop RAX).

(** ** The bytes the emitters put out *)

Definition rex_byte (w r x b : Z) : Z := 0x40 .| (w .<< 3) .| (r .<< 2) .| (x .<< 1) .| b.

Definition rex_bytes (w src dst : Z) : list Z :=
  if negb (w =? 0) || negb (src .& 8 =? 0) || negb (dst .& 8 =? 0)
  then le_encode 1 (rex_byte w (high_bit src) 0 (high_bit dst)) else [].

Definition modrm_byte (mod_ r m : Z) : Z := (mod_ .& 0xc0) .| ((r .& 7) .<< 3) .| (m .& 7).

(** A register operand and a memory operand [rm + d]. *)
Definition alu_bytes (w op src dst : Z) : list Z :=
  rex_bytes w src dst ++ le_encode 1 op ++ le_encode 1 (modrm_byte 0xc0 src dst).

Definition mem_bytes (reg rm d : Z) : list Z :=
  let rm := rm .& 0xf in
  let reg := reg .& 0xf in
  if (d =? 0) && negb (rm =? RSP) && negb (rm =? RBP) && negb (rm =? R12) && negb (rm =? R13) then
    le_encode 1 (modrm_byte 0 reg rm)
  else
    let near_disp := (-128 <=? d) && (d <=? 127) in
    le_encode 1 (modrm_byte (if near_disp then 0x40 else 0x80) reg rm) ++
    (if rm =? R12 then [0x24] else []) ++
    (if near_disp then le_encode 1 d else le_encode 4 d).

Lemma emit_bytes_run bs st :
  st.(jit_status) = NoError -> 0 <= st.(joffset) -> st.(joffset) + Z.of_nat (length bs) <= st.(jsize) ->
  st.(jsize) = Z.of_nat (length st.(buf)) -> st.(jsize) + 16 < 2 ^ 32 -> emit_bytes bs st = Some (tt, put bs st).
Proof.
  intros Hs Ho Hlen Hz Hw. unfold emit_bytes.
  rewrite decide_False by (intros H; by apply H). rewrite wrap_id by lia.
  rewrite (Z.gtb_ltb _ _), (proj2 (Z.ltb_ge _ _)) by lia.
  unfold mbind, M_bind, memcpy_buf, modify.
  rewrite (proj2 (Z.leb_le 0 _)), (proj2 (Z.leb_le _ _)) by lia. done.
Qed.

Lemma puts_emit_bytes bs : puts (emit_bytes bs) bs.
Proof. intros st [] Hlen. apply emit_bytes_run; done || lia. Qed.

Lemma puts_emit1 x : puts (emit1 x) (le_encode 1 x).
Proof. apply puts_emit_bytes. Qed.
Lemma puts_emit2 x : puts (emit2 x) (le_encode 2 x).
Proof. apply puts_emit_bytes. Qed.
Lemma puts_emit4 x : puts (emit4 x) (le_encode 4 x).
Proof. apply puts_emit_bytes. Qed.
Lemma puts_emit8 x : puts (emit8 x) (le_encode 8 x).
Proof. apply puts_emit_bytes. Qed.

#[export] Hint Resolve puts_emit_bytes puts_emit1 puts_emit2 puts_emit4 puts_emit8 : emit.

Definition is_bit (w : Z) : Prop := w = 0 \/ w = 1.

Lemma is_bit_b2z b : is_bit (Z.b2z b).
Proof. destruct b; [by right | by left]. Qed.

Lemma is_bit_0 : is_bit 0. Proof. by left. Qed.
Lemma is_bit_1 : is_bit 1. Proof. by right. Qed.
Lemma is_bit_high r : is_bit (high_bit r). Proof. apply is_bit_b2z. Qed.
Lemma is_bit_s64 s : is_bit (is_s64 s). Proof. apply is_bit_b2z. Qed.

#[export] Hint Resolve is_bit_0 is_bit_1 is_bit_b2z is_bit_high is_bit_s64 : emit.

Lemma puts_emit_modrm mod_ r m :
  mod_ = 0 \/ mod_ = 0x40 \/ mod_ = 0x80 \/ mod_ = 0xc0 ->
  puts (emit_modrm mod_ r m) (le_encode 1 (modrm_byte mod_ r m)).
Proof.
  intros H. unfold emit_modrm. eapply puts_eq; [eapply puts_seq; [| apply puts_emit1] |].
  - apply puts_assertion. by destruct H as [-> | [-> | [-> | ->]]].
  - done.
Qed.

Lemma puts_emit_modrm_reg2reg r m : puts (emit_modrm_reg2reg r m) (le_encode 1 (modrm_byte 0xc0 r m)).
Proof. apply puts_emit_modrm. auto. Qed.

Lemma puts_emit_rex w r x b :
  is_bit w -> is_bit r -> is_bit x -> is_bit b -> puts (emit_rex w r x b) (le_encode 1 (rex_byte w r x b)).
Proof.
  intros Hw Hr Hx Hb. unfold emit_rex. eapply puts_eq.
  - do 4 (eapply puts_seq; [apply puts_assertion; by destruct Hw as [-> | ->], Hr as [-> | ->], Hx as [-> | ->], Hb as [-> | ->] |]).
    apply puts_emit1.
  - done.
Qed.

Lemma puts_emit_basic_rex w src dst : is_bit w -> puts (emit_basic_rex w src dst) (rex_bytes w src dst).
Proof. intros. apply puts_when. apply puts_emit_rex; auto with emit. Qed.

Lemma puts_emit_modrm_and_displacement reg rm d : puts (emit_modrm_and_displacement reg rm d) (mem_bytes reg rm d).
Proof.
  unfold emit_modrm_and_displacement, mem_bytes. apply puts_if; [apply puts_emit_modrm; auto |].
  eapply puts_seq; [apply puts_emit_modrm; destruct (_ && _); auto |].
  eapply puts_seq; [apply puts_when, puts_emit1 |]. apply puts_if; auto with emit.
Qed.

#[export] Hint Resolve puts_emit_modrm_reg2reg puts_emit_rex puts_emit_basic_rex
  puts_emit_modrm_and_displacement : emit.
#[export] Hint Extern 1 (puts (emit_modrm _ _ _) _) => apply puts_emit_modrm; auto : emit.

Lemma puts_emit_alu32 op src dst : puts (emit_alu32 op src dst) (alu_bytes 0 op src dst).
Proof. unfold emit_alu32, alu_bytes. solve_puts. Qed.
Lemma puts_emit_alu64 op src dst : puts (emit_alu64 op src dst) (alu_bytes 1 op src dst).
Proof. unfold emit_alu64, alu_bytes. solve_puts. Qed.

#[export] Hint Resolve puts_emit_alu32 puts_emit_alu64 : emit.

Lemma puts_emit_alu32_imm32 op src dst imm :
  puts (emit_alu32_imm32 op src dst imm) (alu_bytes 0 op src dst ++ le_encode 4 imm).
Proof. unfold emit_alu32_imm32. solve_puts. Qed.
Lemma puts_emit_alu64_imm32 op src dst imm :
  puts (emit_alu64_imm32 op src dst imm) (alu_bytes 1 op src dst ++ le_encode 4 imm).
Proof. unfold emit_alu64_imm32. solve_puts. Qed.
Lemma puts_emit_alu32_imm8 op src dst imm :
  puts (emit_alu32_imm8 op src dst imm) (alu_bytes 0 op src dst ++ le_encode 1 imm).
Proof. unfold emit_alu32_imm8. solve_puts. Qed.
Lemma puts_emit_alu64_imm8 op src dst imm :
  puts (emit_alu64_imm8 op src dst imm) (alu_bytes 1 op src dst ++ le_encode 1 imm).
Proof. unfold emit_alu64_imm8. solve_puts. Qed.
Lemma puts_emit_mov src dst : puts (emit_mov src dst) (alu_bytes 1 0x89 src dst).
Proof. apply puts_emit_alu64. Qed.
Lemma puts_emit_push r : puts (emit_push r) (rex_bytes 0 0 r ++ le_encode 1 (0x50 .| (r .& 7))).
Proof. unfold emit_push. solve_puts. Qed.
Lemma puts_emit_pop r : puts (emit_pop r) (rex_bytes 0 0 r ++ le_encode 1 (0x58 .| (r .& 7))).
Proof. unfold emit_pop. solve_puts. Qed.

#[export] Hint Resolve puts_emit_alu32_imm32 puts_emit_alu64_imm32 puts_emit_alu32_imm8 puts_emit_alu64_imm8
  puts_emit_mov puts_emit_push puts_emit_pop : emit.

Lemma puts_emit_truncate_u32 dst : puts (emit_truncate_u32 dst) (alu_bytes 0 0x81 4 dst ++ le_encode 4 UINT32_MAX).
Proof. apply puts_emit_alu32_imm32. Qed.
Lemma puts_emit_cmp_imm32 dst imm : puts (emit_cmp_imm32 dst imm) (alu_bytes 1 0x81 7 dst ++ le_encode 4 imm).
Proof. apply puts_emit_alu64_imm32. Qed.
Lemma puts_emit_cmp32_imm32 dst imm : puts (emit_cmp32_imm32 dst imm) (alu_bytes 0 0x81 7 dst ++ le_encode 4 imm).
Proof. apply puts_emit_alu32_imm32. Qed.
Lemma puts_emit_cmp src dst : puts (emit_cmp src dst) (alu_bytes 1 0x39 src dst).
Proof. apply puts_emit_alu64. Qed.
Lemma puts_emit_cmp32 src dst : puts (emit_cmp32 src dst) (alu_bytes 0 0x39 src dst).
Proof. apply puts_emit_alu32. Qed.

(** [movabs] *)
Definition movabs_bytes (dst imm : Z) : list Z :=
  rex_bytes 1 0 dst ++ le_encode 1 (0xb8 .| (dst .& 7)) ++ le_encode 8 imm.

Definition load_imm_bytes (dst imm : Z) : list Z :=
  if fits_int32 (s64 imm) then alu_bytes 1 0xc7 0 dst ++ le_encode 4 (s64 imm) else movabs_bytes dst (s64 imm).

Lemma puts_emit_load_imm dst imm : puts (emit_load_imm dst imm) (load_imm_bytes dst imm).
Proof. unfold emit_load_imm, load_imm_bytes, movabs_bytes. solve_puts. Qed.

#[export] Hint Resolve puts_emit_truncate_u32 puts_emit_cmp_imm32 puts_emit_cmp32_imm32 puts_emit_cmp
  puts_emit_cmp32 puts_emit_load_imm : emit.

(** *** Loads, stores, atomics *)

Definition load_bytes (size : operand_size) (src dst off : Z) : list Z :=
  rex_bytes (is_s64 size) dst src ++
  match size with
  | S8 => [0x0f; 0xb6]
  | S16 => [0x0f; 0xb7]
  | S32 | S64 => [0x8b]
  end ++ mem_bytes dst src off.

Definition load_sx_bytes (size : operand_size) (src dst off : Z) : list Z :=
  match size with
  | S8 => rex_bytes 1 dst src ++ [0x0f; 0xbe] ++ mem_bytes dst src off
  | S16 => rex_bytes 1 dst src ++ [0x0f; 0xbf] ++ mem_bytes dst src off
  | S32 => rex_bytes 1 dst src ++ [0x63] ++ mem_bytes dst src off
  | S64 => []
  end.

Definition store_bytes (size : operand_size) (src dst off : Z) : list Z :=
  match size with
  | S8 => le_encode 1 (rex_byte 0 (high_bit src) 0 (high_bit dst)) ++ [0x88] ++ mem_bytes src dst off
  | S16 => [0x66] ++ rex_bytes 0 src dst ++ [0x89] ++ mem_bytes src dst off
  | S32 => rex_bytes 0 src dst ++ [0x89] ++ mem_bytes src dst off
  | S64 => rex_bytes 1 src dst ++ [0x89] ++ mem_bytes src dst off
  end.

Definition store_imm_bytes (size : operand_size) (dst off imm : Z) : list Z :=
  match size with
  | S8 => rex_bytes 0 0 dst ++ [0xc6] ++ mem_bytes 0 dst off ++ le_encode 1 imm
  | S16 => [0x66] ++ rex_bytes 0 0 dst ++ [0xc7] ++ mem_bytes 0 dst off ++ le_encode 2 imm
  | S32 => rex_bytes 0 0 dst ++ [0xc7] ++ mem_bytes 0 dst off ++ le_encode 4 imm
  | S64 => rex_bytes 1 0 dst ++ [0xc7] ++ mem_bytes 0 dst off ++ le_encode 4 imm
  end.

Lemma puts_emit_load size src dst off : puts (emit_load size src dst off) (load_bytes size src dst off).
Proof. unfold emit_load, load_bytes. destruct size; (eapply puts_eq; [solve_puts | reflexivity]). Qed.

Lemma puts_emit_load_sx size src dst off : puts (emit_load_sx size src dst off) (load_sx_bytes size src dst off).
Proof. unfold emit_load_sx, load_sx_bytes. destruct size; (eapply puts_eq; [solve_puts | reflexivity]). Qed.

Lemma puts_emit_store size src dst off : puts (emit_store size src dst off) (store_bytes size src dst off).
Proof.
  unfold emit_store, store_bytes, rex_bytes. destruct size; (eapply puts_eq; [solve_puts |]).
  all: unfold bool_decide; cbn -[le_encode rex_byte mem_bytes]; rewrite ?orb_true_r, ?orb_false_r; reflexivity.
Qed.

Lemma puts_emit_store_imm32 size dst off imm :
  puts (emit_store_imm32 size dst off imm) (store_imm_bytes size dst off imm).
Proof. unfold emit_store_imm32, store_imm_bytes. destruct size; (eapply puts_eq; [solve_puts | reflexivity]). Qed.

#[export] Hint Resolve puts_emit_load puts_emit_load_sx puts_emit_store puts_emit_store_imm32 : emit.

(** A locked instruction on [dst + off]. *)
Definition lock_bytes (w : Z) (op : list Z) (src dst off : Z) : list Z :=
  [0xf0] ++ rex_bytes w src dst ++ op ++ mem_bytes src dst off.

Lemma puts_emit_atomic_alu op w src dst off :
  is_bit w -> puts (emit_atomic_alu op w src dst off) (lock_bytes w (le_encode 1 op) src dst off).
Proof. intros. unfold emit_atomic_alu. solve_puts. Qed.

Lemma puts_emit_atomic_cmp_exch_with_rax w src dst off :
  is_bit w -> puts (emit_atomic_cmp_exch_with_rax w src dst off) (lock_bytes w [0x0f; 0xb1] src dst off).
Proof. intros. unfold emit_atomic_cmp_exch_with_rax. eapply puts_eq; [solve_puts | reflexivity]. Qed.

Lemma puts_emit_atomic_exchange w src dst off :
  is_bit w -> puts (emit_atomic_exchange w src dst off) (lock_bytes w [0x87] src dst off).
Proof. intros. unfold emit_atomic_exchange. eapply puts_eq; [solve_puts | reflexivity]. Qed.

#[export] Hint Resolve puts_emit_atomic_alu puts_emit_atomic_cmp_exch_with_rax puts_emit_atomic_exchange : emit.

(** The compare-exchange loop: body, then a short jump back to its start. *)
Definition fetch_loop_bytes (w op src dst off : Z) : list Z :=
  let body := alu_bytes 1 0x89 RAX RCX ++ alu_bytes 1 op src RCX ++ lock_bytes w [0x0f; 0xb1] RCX dst off in
  body ++ [0x75] ++ le_encode 1 (- (Z.of_nat (length body) + 2)).

Definition fetch_alu_bytes (w op src dst off : Z) : list Z :=
  let actual_src := if src =? RAX then (if dst =? R10 then R11 else R10) else src in
  let push r := rex_bytes 0 0 r ++ le_encode 1 (0x50 .| (r .& 7)) in
  let pop r := rex_bytes 0 0 r ++ le_encode 1 (0x58 .| (r .& 7)) in
  (if negb (src =? RAX) then push RAX else push actual_src ++ alu_bytes 1 0x89 src actual_src) ++
  load_bytes (if negb (w =? 0) then S64 else S32) dst RAX off ++
  fetch_loop_bytes w op actual_src dst off ++
  (if negb (src =? RAX) then alu_bytes 1 0x89 RAX src ++ pop RAX else pop actual_src).

Lemma puts_emit_atomic_fetch_alu w op src dst off :
  is_bit w -> puts (emit_atomic_fetch_alu w op src dst off) (fetch_alu_bytes w op src dst off).
Proof.
  intros Hw. unfold emit_atomic_fetch_alu, fetch_alu_bytes, fetch_loop_bytes. cbv zeta.
  set (actual := if src =? RAX then _ else src). eapply puts_seq; [solve_puts |].
  eapply puts_seq; [solve_puts |]. rewrite <- !app_assoc. apply puts_of_at. intros o.
  apply puts_at_gets. do 3 (apply puts_at_seq; [solve_puts |]).
  apply (puts_at_seq _ _ _ [0x75]); [apply puts_emit1 |]. apply puts_at_gets. apply puts_at_seq; [| solve_puts].
  eapply puts_eq; [apply puts_emit1 |]. f_equal. rewrite !length_app. cbn [length]. lia.
Qed.

#[export] Hint Resolve puts_emit_atomic_fetch_alu : emit.

(** *** Multiplication and division *)

Lemma poke_put {A} k v c bs st (m : M A) r :
  v = c -> jit_ok st -> (k < length bs)%nat -> st.(joffset) + Z.of_nat (length bs) <= st.(jsize) ->
  m (put (<[k := c mod 256]> bs) st) = r ->
  (poke (st.(joffset) + Z.of_nat k) v;; m) (put bs st) = r.
Proof.
  intros -> [? ? Hz ? ? _ _] Hk Hlen <-. unfold mbind, M_bind, poke, memcpy_buf. cbn [put set_joffset set_buf buf].
  rewrite length_write_bytes by lia. cbn [le_encode length].
  rewrite (proj2 (Z.leb_le 0 _)), (proj2 (Z.leb_le _ _)) by lia. cbn [andb]. f_equal.
  unfold put, set_joffset, set_buf; cbn. rewrite length_insert. f_equal.
  apply list_eq. intros j.
  rewrite !write_bytes_lookup by (rewrite ?length_write_bytes, ?length_insert; cbn; lia).
  rewrite length_insert. cbn [length]. destruct (decide (j = Z.to_nat (joffset st) + k)%nat) as [-> |].
  - rewrite !decide_True by lia. replace (_ - _)%nat with 0%nat by lia.
    replace (_ - _)%nat with k by lia. cbn. by rewrite list_lookup_insert_eq by done.
  - rewrite decide_False by lia. destruct (decide _); [| done]. rewrite list_lookup_insert_ne by lia. done.
Qed.

(** The signed overflow check: two short forward jumps to the division and one
    over it, whose displacement [skip] is filled in by [emit_operation]. *)
Definition overflow_bytes (is64 div : bool) (skip : Z) : list Z :=
  (if is64 then [0x48; 0x83; 0xf9; 0xff] else [0x83; 0xf9; 0xff]) ++
  [0x75; (if is64 then 15 else 7) + (if div then 2 else 4)] ++
  (if is64 then [0x49; 0xbb] ++ le_encode 8 0x8000000000000000 ++ [0x4c; 0x39; 0xd8]
   else [0x3d] ++ le_encode 4 0x80000000) ++
  [0x75; if div then 2 else 4] ++ (if div then [] else [0x31; 0xd2]) ++ [0xeb; skip].

(** Computes a closed length before [lia]. *)
Ltac len_lia :=
  repeat match goal with
  | |- context [length ?l] => let n := eval vm_compute in (length l) in change (length l) with n
  end; lia.

Ltac run_poke :=
  match goal with
  | |- (poke (_ + Z.of_nat (length ?l2)) (_ + Z.of_nat (length ?l1) - _ - 1);; _) _ = _ =>
      let c := eval vm_compute in (Z.of_nat (length l1) - Z.of_nat (length l2) - 1) in
      eapply (poke_put _ _ c); [len_lia | assumption | len_lia | len_lia |]
  end.

Ltac run_put := eapply run_seq; [solve_puts | assumption | len_lia |].

Lemma emit_overflow_check_puts is64 div st :
  jit_ok st -> st.(joffset) + Z.of_nat (length (overflow_bytes is64 div 0)) <= st.(jsize) ->
  emit_overflow_check is64 div st =
  Some (st.(joffset) + Z.of_nat (length (overflow_bytes is64 div 0)) - 1, put (overflow_bytes is64 div 0) st).
Proof.
  intros Hok Hlen. rewrite <- (put_nil st) at 1. unfold emit_overflow_check.
  destruct is64, div; cbn in Hlen.
  all: run_put; run_put; apply run_gets; run_put; run_put; run_put; apply run_gets; run_put; run_put; run_put.
  all: apply run_gets; run_put; apply run_gets.
  all: run_poke; run_poke; unfold mret, M_ret; do 2 f_equal; first [reflexivity | len_lia].
Qed.

(** MUL, DIV or IDIV of RCX. *)
Definition f7_bytes (is64 : bool) (ext : Z) : list Z :=
  (if is64 then [0x48] else []) ++ [0xf7; modrm_byte 0xc0 ext RCX].

Definition operation_bytes (mul div mod_ is64 is_signed : bool) : list Z :=
  (if (div || mod_) && is_signed then overflow_bytes is64 div (if is64 then 3 else 2) else []) ++
  f7_bytes is64 (if mul then 4 else if is_signed then 7 else 6).

Lemma puts_emit_operation mul div mod_ is64 is_signed :
  puts (emit_operation mul div mod_ is64 is_signed) (operation_bytes mul div mod_ is64 is_signed).
Proof.
  intros st Hok Hlen. unfold emit_operation.
  destruct ((div || mod_) && is_signed) eqn:E; unfold operation_bytes in *; rewrite E in *; cbn [andb].
  - unfold mbind at 1, M_bind at 1. rewrite length_app in Hlen.
    assert (length (overflow_bytes is64 div (if is64 then 3 else 2)) = length (overflow_bytes is64 div 0)) as El
      by (by destruct is64, div).
    rewrite emit_overflow_check_puts by (done || lia).
    destruct is64, div, is_signed, mul; try (destruct mod_; discriminate E).
    all: cbn in Hlen; run_put; run_put; apply run_gets.
    all: rewrite (proj2 (Z.eqb_neq _ _)) by (destruct Hok; len_lia); cbn [negb when].
    all: match goal with |- poke (_ + ?n - 1) (_ + Z.of_nat (length ?l1) - _ - 1) (put ?bs ?st) = _ =>
           let c := eval vm_compute in (Z.of_nat (length l1) - n) in
           let k := eval vm_compute in (Z.to_nat (n - 1)) in
           replace (joffset st + n - 1) with (joffset st + Z.of_nat k) by len_lia;
           rewrite <- bind_ret_r; eapply (poke_put k _ c); [len_lia | done | len_lia | len_lia |]
         end; reflexivity.
  - rewrite <- (put_nil st) at 1. destruct is64, is_signed, mul; cbn in Hlen; (run_put; run_put); reflexivity.
Qed.
