(* ===== verification/X86Trans.v ===== *)
(** * X86Trans: the x86-64 code generator (vm/ubpf_jit_x86_64.c)

    [translate] (prologue, the loop over the program, epilogue, retpoline, slot
    of the dispatcher, table of the helpers), the patching of the relative
    addresses and [ubpf_translate_x86_64].  System V build with retpolines. *)

From Stdlib Require Import ZArith Lia Bool.
From stdpp Require Import base list gmap strings numbers.
From S2P Require Import Prelude Ebpf Vm JitSupport X86Emit.

Local Open Scope Z_scope.
Local Open Scope cbits_scope.

(** ** Calls of local functions and trailing data *)

Definition emit_local_call (rm : list Z) (ebpf_target_pc : Z) : M unit :=
  emit1 0x4c;; emit1 0x2b;; emit1 0x3c;; emit1 0x24;;
  r6 ← map_register rm BPF_REG_6; emit_push r6;;
  r7 ← map_register rm BPF_REG_7; emit_push r7;;
  r8 ← map_register rm BPF_REG_8; emit_push r8;;
  r9 ← map_register rm BPF_REG_9; emit_push r9;;
  emit1 0xe8;;
  emit_local_call_address_reloc (ebpf_target ebpf_target_pc);;
  r9 ← map_register rm BPF_REG_9; emit_pop r9;;
  r8 ← map_register rm BPF_REG_8; emit_pop r8;;
  r7 ← map_register rm BPF_REG_7; emit_pop r7;;
  r6 ← map_register rm BPF_REG_6; emit_pop r6;;
  emit1 0x4c;; emit1 0x03;; emit1 0x3c;; emit1 0x24.

Definition emit_dispatched_external_helper_address (vm : ubpf_vm) : M Z :=
  external_helper_address_target ← gets joffset;
  emit8 vm.(dispatcher);;
  mret external_helper_address_target.

Definition emit_helper_table (vm : ubpf_vm) : M Z :=
  helper_table_address_target ← gets joffset;
  for_each (seqZ 0 MAX_EXT_FUNCS) (fun i => f ← lift (vm.(ext_funcs) !! Z.to_nat i); emit8 f);;
  mret helper_table_address_target.

Definition emit_retpoline : M Z :=
  retpoline_target ← gets joffset;
  label1_call_offset ← emit_call (ebpf_target 0);
  capture_ret_spec ← gets joffset;
  emit_pause;;
  emit_jmp (jit_target_at capture_ret_spec);;
  label1 ← gets joffset;
  emit1 0x48;; emit1 0x89;; emit1 0x04;; emit1 0x24;;
  emit_ret;;
  modify_jumps label1_call_offset (jit_target_at label1);;
  mret retpoline_target.

(** ** The register map *)

(** The exchange of two entries; [None]: an index out of range. *)
Definition swap_entries (map : list Z) (i j : Z) : option (list Z) :=
  tmp ← map !! Z.to_nat j;
  mi ← map !! Z.to_nat i;
  Some (<[Z.to_nat i := tmp]> (<[Z.to_nat j := mi]> map)).

(** [rand_r] is the C library's: from a seed, a value and the next seed. *)
Fixpoint shuffle (rand_r : Z -> Z * Z) (seed : Z) (indices : list Z) (map : list Z) : option (list Z) :=
  match indices with
  | [] => Some map
  | i :: indices' =>
      let '(v, seed) := rand_r seed in
      map' ← swap_entries map i (i + Z.rem v (REGISTER_MAP_SIZE - i));
      shuffle rand_r seed indices' map'
  end.

Definition ubpf_set_register_offset (rand_r : Z -> Z * Z) (x : Z) (map : list Z) : option (list Z) :=
  if x <? REGISTER_MAP_SIZE then
    mapM (fun i => let k := Z.rem (i + x) REGISTER_MAP_SIZE in
                   if k <? 0 then None else map !! Z.to_nat k) (seqZ 0 REGISTER_MAP_SIZE)
  else shuffle rand_r (u32 x) (seqZ 0 (REGISTER_MAP_SIZE - 1)) map.

(** ** The blinding macros *)

Definition EMIT_ALU64_IMM32 (vm : ubpf_vm) (op src dst imm : Z) : M unit :=
  if vm.(constant_blinding_enabled) then emit_alu64_imm32_blinded op src dst imm
  else emit_alu64_imm32 op src dst imm.

Definition EMIT_ALU32_IMM32 (vm : ubpf_vm) (op src dst imm : Z) : M unit :=
  if vm.(constant_blinding_enabled) then emit_alu32_imm32_blinded op src dst imm
  else emit_alu32_imm32 op src dst imm.

Definition EMIT_CMP_IMM32 (vm : ubpf_vm) (dst imm : Z) : M unit :=
  if vm.(constant_blinding_enabled) then emit_cmp_imm32_blinded dst imm else emit_cmp_imm32 dst imm.

Definition EMIT_CMP32_IMM32 (vm : ubpf_vm) (dst imm : Z) : M unit :=
  if vm.(constant_blinding_enabled) then emit_cmp32_imm32_blinded dst imm else emit_cmp32_imm32 dst imm.

Definition EMIT_TEST_IMM32 (vm : ubpf_vm) (dst imm : Z) : M unit :=
  if vm.(constant_blinding_enabled) then emit_test_imm32_blinded dst imm
  else emit_alu64_imm32 0xf7 0 dst imm.

Definition EMIT_TEST32_IMM32 (vm : ubpf_vm) (dst imm : Z) : M unit :=
  if vm.(constant_blinding_enabled) then emit_test32_imm32_blinded dst imm
  else emit_alu32_imm32 0xf7 0 dst imm.

Definition EMIT_STORE_IMM32 (vm : ubpf_vm) (size : operand_size) (dst off imm : Z) : M unit :=
  if vm.(constant_blinding_enabled) then emit_store_imm32_blinded size dst off imm
  else emit_store_imm32 size dst off imm.

(** ** The prologue *)

Definition emit_prologue (rm : list Z) : M unit :=
  for_each platform_nonvolatile_registers emit_push;;
  r1 ← map_register rm 1;
  p0 ← lift (platform_parameter_registers !! 0%nat);
  p2 ← lift (platform_parameter_registers !! 2%nat);
  p3 ← lift (platform_parameter_registers !! 3%nat);
  when (negb (r1 =? p0)) (emit_mov p0 r1);;
  emit_mov p0 VOLATILE_CTXT;;
  when (Z.of_nat (length platform_nonvolatile_registers) mod 2 =? 0) (emit_alu64_imm32 0x81 5 RSP 0x8);;
  emit_mov RSP RBP;;
  mode ← gets state_jit_mode;
  r10 ← map_register rm BPF_REG_10;
  (if decide (mode = BasicJitMode) then
     emit_mov RSP r10;;
     emit_alu64_imm32 0x81 5 RSP UBPF_EBPF_STACK_SIZE
   else
     emit_mov p2 r10;;
     emit_alu64 0x01 p3 r10);;
  emit1 0xe8;;
  emit4 5;;
  emit_jmp (Special Exit);;
  mret tt.

(** ** One instruction *)

(** The jump around the stack set-up, for a function that can be fallen into;
    gives the position of the jump's address. *)
Definition emit_fallthrough_jump (vm : ubpf_vm) (i : Z) (starts_function : bool) : M (option Z) :=
  if negb (i =? 0) && starts_function then
    prev_inst ← lift (ubpf_fetch_instruction vm (i - 1));
    if ubpf_instruction_has_fallthrough prev_inst then
      source ← emit_jmp (Regular (MkRegular 0 0 true));
      mret (Some source)
    else mret None
  else mret None.

(** The stack usage of a function goes to the top of the host stack. *)
Definition emit_function_prolog (vm : ubpf_vm) (i : Z) : M unit :=
  prolog_start ← gets joffset;
  stack_usage ← lift (ubpf_stack_usage_for_local_func vm i);
  emit_alu64_imm32 0x81 5 RSP 8;;
  emit1 0x48;;
  emit1 0xc7;;
  emit1 0x04;;
  emit1 0x24;;
  emit4 stack_usage;;
  here ← gets joffset;
  prolog_size ← gets bpf_function_prolog_size;
  if prolog_size =? 0 then modify (set_bpf_function_prolog_size (here - prolog_start))
  else assertion (prolog_size =? here - prolog_start).

Definition emit_alu32_inst (vm : ubpf_vm) (op : ebpf_op) (inst : ebpf_inst) (src dst : Z) : M unit :=
  match op with
  | EBPF_OP_ADD_IMM => EMIT_ALU32_IMM32 vm 0x81 0 dst inst.(imm)
  | EBPF_OP_ADD_REG => emit_alu32 0x01 src dst
  | EBPF_OP_SUB_IMM => EMIT_ALU32_IMM32 vm 0x81 5 dst inst.(imm)
  | EBPF_OP_SUB_REG => emit_alu32 0x29 src dst
  | EBPF_OP_MUL_IMM | EBPF_OP_MUL_REG | EBPF_OP_DIV_IMM | EBPF_OP_DIV_REG | EBPF_OP_MOD_IMM
  | EBPF_OP_MOD_REG => emit_muldivmod vm inst.(opcode) src dst inst.(imm) inst.(offset)
  | EBPF_OP_OR_IMM => EMIT_ALU32_IMM32 vm 0x81 1 dst inst.(imm)
  | EBPF_OP_OR_REG => emit_alu32 0x09 src dst
  | EBPF_OP_AND_IMM => EMIT_ALU32_IMM32 vm 0x81 4 dst inst.(imm)
  | EBPF_OP_AND_REG => emit_alu32 0x21 src dst
  | EBPF_OP_LSH_IMM => emit_alu32_imm8 0xc1 4 dst inst.(imm)
  | EBPF_OP_LSH_REG => emit_mov src RCX;; emit_alu32 0xd3 4 dst
  | EBPF_OP_RSH_IMM => emit_alu32_imm8 0xc1 5 dst inst.(imm)
  | EBPF_OP_RSH_REG => emit_mov src RCX;; emit_alu32 0xd3 5 dst
  | EBPF_OP_NEG => emit_alu32 0xf7 3 dst
  | EBPF_OP_XOR_IMM => EMIT_ALU32_IMM32 vm 0x81 6 dst inst.(imm)
  | EBPF_OP_XOR_REG => emit_alu32 0x31 src dst
  | EBPF_OP_MOV_IMM => EMIT_ALU32_IMM32 vm 0xc7 0 dst inst.(imm)
  | EBPF_OP_MOV_REG =>
      if inst.(offset) =? 8 then
        emit_rex 0 (high_bit dst) 0 (high_bit src);;
        emit1 0x0f;; emit1 0xbe;; emit_modrm_reg2reg dst src
      else if inst.(offset) =? 16 then
        emit_basic_rex 0 dst src;;
        emit1 0x0f;; emit1 0xbf;; emit_modrm_reg2reg dst src
      else emit_mov src dst
  | EBPF_OP_ARSH_IMM => emit_alu32_imm8 0xc1 7 dst inst.(imm)
  | EBPF_OP_ARSH_REG => emit_mov src RCX;; emit_alu32 0xd3 7 dst
  | _ => mret tt
  end.

Definition emit_endian_inst (op : ebpf_op) (inst : ebpf_inst) (dst : Z) : M unit :=
  match op with
  | EBPF_OP_LE =>
      if inst.(imm) =? 16 then emit_alu32_imm32 0x81 4 dst 0xffff
      else if inst.(imm) =? 32 then emit_alu32_imm32 0x81 4 dst 0xffffffff
      else mret tt
  | EBPF_OP_BE =>
      if inst.(imm) =? 16 then
        emit1 0x66;;
        emit_alu32_imm8 0xc1 0 dst 8;;
        emit_alu32_imm32 0x81 4 dst 0xffff
      else if (inst.(imm) =? 32) || (inst.(imm) =? 64) then
        emit_basic_rex (Z.b2z (inst.(imm) =? 64)) 0 dst;;
        emit1 0x0f;;
        emit1 (0xc8 .| (dst .& 7))
      else mret tt
  | EBPF_OP_BSWAP =>
      if inst.(imm) =? 16 then
        emit1 0x66;;
        emit_alu32_imm8 0xc1 0 dst 8;;
        emit_alu64_imm32 0x81 4 dst 0xffff
      else if inst.(imm) =? 32 then
        emit_basic_rex 0 0 dst;;
        emit1 0x0f;;
        emit1 (0xc8 .| (dst .& 7));;
        emit_alu32 0x89 dst dst
      else if inst.(imm) =? 64 then
        emit_basic_rex 1 0 dst;;
        emit1 0x0f;;
        emit1 (0xc8 .| (dst .& 7))
      else mret tt
  | _ => mret tt
  end.

Definition emit_alu64_inst (vm : ubpf_vm) (op : ebpf_op) (inst : ebpf_inst) (src dst : Z) : M unit :=
  match op with
  | EBPF_OP_ADD64_IMM => EMIT_ALU64_IMM32 vm 0x81 0 dst inst.(imm)
  | EBPF_OP_ADD64_REG => emit_alu64 0x01 src dst
  | EBPF_OP_SUB64_IMM => EMIT_ALU64_IMM32 vm 0x81 5 dst inst.(imm)
  | EBPF_OP_SUB64_REG => emit_alu64 0x29 src dst
  | EBPF_OP_MUL64_IMM | EBPF_OP_MUL64_REG | EBPF_OP_DIV64_IMM | EBPF_OP_DIV64_REG | EBPF_OP_MOD64_IMM
  | EBPF_OP_MOD64_REG => emit_muldivmod vm inst.(opcode) src dst inst.(imm) inst.(offset)
  | EBPF_OP_OR64_IMM => EMIT_ALU64_IMM32 vm 0x81 1 dst inst.(imm)
  | EBPF_OP_OR64_REG => emit_alu64 0x09 src dst
  | EBPF_OP_AND64_IMM => EMIT_ALU64_IMM32 vm 0x81 4 dst inst.(imm)
  | EBPF_OP_AND64_REG => emit_alu64 0x21 src dst
  | EBPF_OP_LSH64_IMM => emit_alu64_imm8 0xc1 4 dst inst.(imm)
  | EBPF_OP_LSH64_REG => emit_mov src RCX;; emit_alu64 0xd3 4 dst
  | EBPF_OP_RSH64_IMM => emit_alu64_imm8 0xc1 5 dst inst.(imm)
  | EBPF_OP_RSH64_REG => emit_mov src RCX;; emit_alu64 0xd3 5 dst
  | EBPF_OP_NEG64 => emit_alu64 0xf7 3 dst
  | EBPF_OP_XOR64_IMM => EMIT_ALU64_IMM32 vm 0x81 6 dst inst.(imm)
  | EBPF_OP_XOR64_REG => emit_alu64 0x31 src dst
  | EBPF_OP_MOV64_IMM => EMIT_LOAD_IMM vm dst inst.(imm)
  | EBPF_OP_MOV64_REG =>
      if inst.(offset) =? 8 then
        emit_basic_rex 1 dst src;;
        emit1 0x0f;; emit1 0xbe;; emit_modrm_reg2reg dst src
      else if inst.(offset) =? 16 then
        emit_basic_rex 1 dst src;;
        emit1 0x0f;; emit1 0xbf;; emit_modrm_reg2reg dst src
      else if inst.(offset) =? 32 then
        emit_basic_rex 1 dst src;;
        emit1 0x63;; emit_modrm_reg2reg dst src
      else emit_mov src dst
  | EBPF_OP_ARSH64_IMM => emit_alu64_imm8 0xc1 7 dst inst.(imm)
  | EBPF_OP_ARSH64_REG => emit_mov src RCX;; emit_alu64 0xd3 7 dst
  | _ => mret tt
  end.

(** The condition code of a conditional jump (second byte of the Jcc). *)
Definition emit_jump_inst (vm : ubpf_vm) (op : ebpf_op) (inst : ebpf_inst) (src dst : Z)
    (tgt : PatchableTarget) : M unit :=
  let cmp_imm code := EMIT_CMP_IMM32 vm dst inst.(imm);; emit_jcc code tgt;; mret tt in
  let cmp code := emit_cmp src dst;; emit_jcc code tgt;; mret tt in
  match op with
  | EBPF_OP_JA | EBPF_OP_JA32 => emit_jmp tgt;; mret tt
  | EBPF_OP_JEQ_IMM => cmp_imm 0x84
  | EBPF_OP_JEQ_REG => cmp 0x84
  | EBPF_OP_JGT_IMM => cmp_imm 0x87
  | EBPF_OP_JGT_REG => cmp 0x87
  | EBPF_OP_JGE_IMM => cmp_imm 0x83
  | EBPF_OP_JGE_REG => cmp 0x83
  | EBPF_OP_JLT_IMM => cmp_imm 0x82
  | EBPF_OP_JLT_REG => cmp 0x82
  | EBPF_OP_JLE_IMM => cmp_imm 0x86
  | EBPF_OP_JLE_REG => cmp 0x86
  | EBPF_OP_JSET_IMM => EMIT_TEST_IMM32 vm dst inst.(imm);; emit_jcc 0x85 tgt;; mret tt
  | EBPF_OP_JSET_REG => emit_alu64 0x85 src dst;; emit_jcc 0x85 tgt;; mret tt
  | EBPF_OP_JNE_IMM => cmp_imm 0x85
  | EBPF_OP_JNE_REG => cmp 0x85
  | EBPF_OP_JSGT_IMM => cmp_imm 0x8f
  | EBPF_OP_JSGT_REG => cmp 0x8f
  | EBPF_OP_JSGE_IMM => cmp_imm 0x8d
  | EBPF_OP_JSGE_REG => cmp 0x8d
  | EBPF_OP_JSLT_IMM => cmp_imm 0x8c
  | EBPF_OP_JSLT_REG => cmp 0x8c
  | EBPF_OP_JSLE_IMM => cmp_imm 0x8e
  | EBPF_OP_JSLE_REG => cmp 0x8e
  | _ => mret tt
  end.

Definition emit_jump32_inst (vm : ubpf_vm) (op : ebpf_op) (inst : ebpf_inst) (src dst : Z)
    (tgt : PatchableTarget) : M unit :=
  let cmp_imm code := EMIT_CMP32_IMM32 vm dst inst.(imm);; emit_jcc code tgt;; mret tt in
  let cmp code := emit_cmp32 src dst;; emit_jcc code tgt;; mret tt in
  match op with
  | EBPF_OP_JEQ32_IMM => cmp_imm 0x84
  | EBPF_OP_JEQ32_REG => cmp 0x84
  | EBPF_OP_JGT32_IMM => cmp_imm 0x87
  | EBPF_OP_JGT32_REG => cmp 0x87
  | EBPF_OP_JGE32_IMM => cmp_imm 0x83
  | EBPF_OP_JGE32_REG => cmp 0x83
  | EBPF_OP_JLT32_IMM => cmp_imm 0x82
  | EBPF_OP_JLT32_REG => cmp 0x82
  | EBPF_OP_JLE32_IMM => cmp_imm 0x86
  | EBPF_OP_JLE32_REG => cmp 0x86
  | EBPF_OP_JSET32_IMM => EMIT_TEST32_IMM32 vm dst inst.(imm);; emit_jcc 0x85 tgt;; mret tt
  | EBPF_OP_JSET32_REG => emit_alu32 0x85 src dst;; emit_jcc 0x85 tgt;; mret tt
  | EBPF_OP_JNE32_IMM => cmp_imm 0x85
  | EBPF_OP_JNE32_REG => cmp 0x85
  | EBPF_OP_JSGT32_IMM => cmp_imm 0x8f
  | EBPF_OP_JSGT32_REG => cmp 0x8f
  | EBPF_OP_JSGE32_IMM => cmp_imm 0x8d
  | EBPF_OP_JSGE32_REG => cmp 0x8d
  | EBPF_OP_JSLT32_IMM => cmp_imm 0x8c
  | EBPF_OP_JSLT32_REG => cmp 0x8c
  | EBPF_OP_JSLE32_IMM => cmp_imm 0x8e
  | EBPF_OP_JSLE32_REG => cmp 0x8e
  | _ => mret tt
  end.

Definition emit_call_inst (vm : ubpf_vm) (rm : list Z) (i : Z) (inst : ebpf_inst) : M unit :=
  if inst.(src) =? 0 then
    emit_mov RCX_ALT RCX;;
    emit_dispatched_external_helper_call inst.(imm);;
    when (inst.(imm) =? vm.(unwind_stack_extension_index))
      (r0 ← map_register rm BPF_REG_0;
       emit_cmp_imm32 r0 0;;
       emit_jcc 0x84 (Special Exit);;
       mret tt)
  else if inst.(src) =? 1 then emit_local_call rm (i + inst.(imm) + 1)
  else mret tt.

Definition emit_memory_inst (vm : ubpf_vm) (op : ebpf_op) (inst : ebpf_inst) (src dst : Z) : M unit :=
  match op with
  | EBPF_OP_LDXW => emit_load S32 src dst inst.(offset)
  | EBPF_OP_LDXH => emit_load S16 src dst inst.(offset)
  | EBPF_OP_LDXB => emit_load S8 src dst inst.(offset)
  | EBPF_OP_LDXDW => emit_load S64 src dst inst.(offset)
  | EBPF_OP_LDXWSX => emit_load_sx S32 src dst inst.(offset)
  | EBPF_OP_LDXHSX => emit_load_sx S16 src dst inst.(offset)
  | EBPF_OP_LDXBSX => emit_load_sx S8 src dst inst.(offset)
  | EBPF_OP_STW => EMIT_STORE_IMM32 vm S32 dst inst.(offset) inst.(imm)
  | EBPF_OP_STH => EMIT_STORE_IMM32 vm S16 dst inst.(offset) inst.(imm)
  | EBPF_OP_STB => EMIT_STORE_IMM32 vm S8 dst inst.(offset) inst.(imm)
  | EBPF_OP_STDW => EMIT_STORE_IMM32 vm S64 dst inst.(offset) inst.(imm)
  | EBPF_OP_STXW => emit_store S32 src dst inst.(offset)
  | EBPF_OP_STXH => emit_store S16 src dst inst.(offset)
  | EBPF_OP_STXB => emit_store S8 src dst inst.(offset)
  | EBPF_OP_STXDW => emit_store S64 src dst inst.(offset)
  | _ => mret tt
  end.

(** [false]: an unknown atomic operation. *)
Definition emit_atomic64_inst (inst : ebpf_inst) (src dst : Z) : M bool :=
  let fetch := negb (inst.(imm) .& EBPF_ATOMIC_OP_FETCH =? 0) in
  let op := inst.(imm) .& EBPF_ALU_OP_MASK in
  let off := inst.(offset) in
  if op =? EBPF_ALU_OP_ADD then
    (if fetch then emit_atomic_fetch_add64 src dst off else emit_atomic_add64 src dst off);; mret true
  else if op =? EBPF_ALU_OP_OR then
    (if fetch then emit_atomic_fetch_or64 src dst off else emit_atomic_or64 src dst off);; mret true
  else if op =? EBPF_ALU_OP_AND then
    (if fetch then emit_atomic_fetch_and64 src dst off else emit_atomic_and64 src dst off);; mret true
  else if op =? EBPF_ALU_OP_XOR then
    (if fetch then emit_atomic_fetch_xor64 src dst off else emit_atomic_xor64 src dst off);; mret true
  else if op =? EBPF_ATOMIC_OP_XCHG .& Z.lnot EBPF_ATOMIC_OP_FETCH then
    emit_atomic_exchange64 src dst off;; mret true
  else if op =? EBPF_ATOMIC_OP_CMPXCHG .& Z.lnot EBPF_ATOMIC_OP_FETCH then
    emit_atomic_compare_exchange64 src dst off;; mret true
  else mret false.

Definition emit_atomic32_inst (rm : list Z) (inst : ebpf_inst) (src dst : Z) : M bool :=
  let fetch := negb (inst.(imm) .& EBPF_ATOMIC_OP_FETCH =? 0) in
  let op := inst.(imm) .& EBPF_ALU_OP_MASK in
  let off := inst.(offset) in
  if op =? EBPF_ALU_OP_ADD then
    (if fetch then emit_atomic_fetch_add32 src dst off else emit_atomic_add32 src dst off);; mret true
  else if op =? EBPF_ALU_OP_OR then
    (if fetch then emit_atomic_fetch_or32 src dst off else emit_atomic_or32 src dst off);; mret true
  else if op =? EBPF_ALU_OP_AND then
    (if fetch then emit_atomic_fetch_and32 src dst off else emit_atomic_and32 src dst off);; mret true
  else if op =? EBPF_ALU_OP_XOR then
    (if fetch then emit_atomic_fetch_xor32 src dst off else emit_atomic_xor32 src dst off);; mret true
  else if op =? EBPF_ATOMIC_OP_XCHG .& Z.lnot EBPF_ATOMIC_OP_FETCH then
    emit_atomic_exchange32 src dst off;; emit_truncate_u32 src;; mret true
  else if op =? EBPF_ATOMIC_OP_CMPXCHG .& Z.lnot EBPF_ATOMIC_OP_FETCH then
    emit_atomic_compare_exchange32 src dst off;;
    r0 ← map_register rm BPF_REG_0; emit_truncate_u32 r0;; mret true
  else mret false.

(** Which part of the switch an opcode belongs to. *)
Inductive inst_class : Type :=
| ClassAlu32 | ClassEndian | ClassAlu64 | ClassJump | ClassJump32 | ClassCall | ClassExit | ClassMemory
| ClassLddw | ClassAtomic64 | ClassAtomic32.

Definition class_of (op : ebpf_op) : inst_class :=
  match op with
  | EBPF_OP_ADD_IMM | EBPF_OP_ADD_REG | EBPF_OP_SUB_IMM | EBPF_OP_SUB_REG | EBPF_OP_MUL_IMM | EBPF_OP_MUL_REG
  | EBPF_OP_DIV_IMM | EBPF_OP_DIV_REG | EBPF_OP_OR_IMM | EBPF_OP_OR_REG | EBPF_OP_AND_IMM | EBPF_OP_AND_REG
  | EBPF_OP_LSH_IMM | EBPF_OP_LSH_REG | EBPF_OP_RSH_IMM | EBPF_OP_RSH_REG | EBPF_OP_NEG | EBPF_OP_MOD_IMM
  | EBPF_OP_MOD_REG | EBPF_OP_XOR_IMM | EBPF_OP_XOR_REG | EBPF_OP_MOV_IMM | EBPF_OP_MOV_REG | EBPF_OP_ARSH_IMM
  | EBPF_OP_ARSH_REG => ClassAlu32
  | EBPF_OP_LE | EBPF_OP_BE | EBPF_OP_BSWAP => ClassEndian
  | EBPF_OP_ADD64_IMM | EBPF_OP_ADD64_REG | EBPF_OP_SUB64_IMM | EBPF_OP_SUB64_REG | EBPF_OP_MUL64_IMM
  | EBPF_OP_MUL64_REG | EBPF_OP_DIV64_IMM | EBPF_OP_DIV64_REG | EBPF_OP_OR64_IMM | EBPF_OP_OR64_REG
  | EBPF_OP_AND64_IMM | EBPF_OP_AND64_REG | EBPF_OP_LSH64_IMM | EBPF_OP_LSH64_REG | EBPF_OP_RSH64_IMM
  | EBPF_OP_RSH64_REG | EBPF_OP_NEG64 | EBPF_OP_MOD64_IMM | EBPF_OP_MOD64_REG | EBPF_OP_XOR64_IMM
  | EBPF_OP_XOR64_REG | EBPF_OP_MOV64_IMM | EBPF_OP_MOV64_REG | EBPF_OP_ARSH64_IMM | EBPF_OP_ARSH64_REG => ClassAlu64
  | EBPF_OP_CALL => ClassCall
  | EBPF_OP_EXIT => ClassExit
  | EBPF_OP_LDXW | EBPF_OP_LDXH | EBPF_OP_LDXB | EBPF_OP_LDXDW | EBPF_OP_LDXWSX | EBPF_OP_LDXHSX | EBPF_OP_LDXBSX
  | EBPF_OP_STW | EBPF_OP_STH | EBPF_OP_STB | EBPF_OP_STDW | EBPF_OP_STXW | EBPF_OP_STXH | EBPF_OP_STXB
  | EBPF_OP_STXDW => ClassMemory
  | EBPF_OP_LDDW => ClassLddw
  | EBPF_OP_ATOMIC_STORE => ClassAtomic64
  | EBPF_OP_ATOMIC32_STORE => ClassAtomic32
  | EBPF_OP_JEQ32_IMM | EBPF_OP_JEQ32_REG | EBPF_OP_JGT32_IMM | EBPF_OP_JGT32_REG | EBPF_OP_JGE32_IMM
  | EBPF_OP_JGE32_REG | EBPF_OP_JSET32_REG | EBPF_OP_JSET32_IMM | EBPF_OP_JNE32_IMM | EBPF_OP_JNE32_REG
  | EBPF_OP_JSGT32_IMM | EBPF_OP_JSGT32_REG | EBPF_OP_JSGE32_IMM | EBPF_OP_JSGE32_REG | EBPF_OP_JLT32_IMM
  | EBPF_OP_JLT32_REG | EBPF_OP_JLE32_IMM | EBPF_OP_JLE32_REG | EBPF_OP_JSLT32_IMM | EBPF_OP_JSLT32_REG
  | EBPF_OP_JSLE32_IMM | EBPF_OP_JSLE32_REG => ClassJump32
  | _ => ClassJump
  end.

(** How a turn of the loop ends: with the index [i] and the message it set, or by
    a return of -1. *)
Inductive turn : Type :=
| Continue (i : Z) (errmsg : option jit_error)
| Return (errmsg : jit_error).

Definition emit_switch (vm : ubpf_vm) (rm : list Z) (i : Z) (inst : ebpf_inst) (src dst : Z)
    (tgt : PatchableTarget) : M turn :=
  match switch_op inst.(opcode) with
  | None =>
      modify (set_jit_status UnknownInstruction);;
      mret (Continue i (Some (UnknownInstructionAt i inst.(opcode))))
  | Some op =>
      match class_of op with
      | ClassAlu32 => emit_alu32_inst vm op inst src dst;; mret (Continue i None)
      | ClassEndian => emit_endian_inst op inst dst;; mret (Continue i None)
      | ClassAlu64 => emit_alu64_inst vm op inst src dst;; mret (Continue i None)
      | ClassJump => emit_jump_inst vm op inst src dst tgt;; mret (Continue i None)
      | ClassJump32 => emit_jump32_inst vm op inst src dst tgt;; mret (Continue i None)
      | ClassCall => emit_call_inst vm rm i inst;; mret (Continue i None)
      | ClassExit => emit_alu64_imm32 0x81 0 RSP 8;; emit_ret;; mret (Continue i None)
      | ClassMemory => emit_memory_inst vm op inst src dst;; mret (Continue i None)
      | ClassLddw =>
          inst2 ← lift (ubpf_fetch_instruction vm (i + 1));
          EMIT_LOAD_IMM vm dst (u32 inst.(imm) .| u64 (u64 inst2.(imm) .<< 32));;
          mret (Continue (i + 1) None)
      | ClassAtomic64 =>
          ok ← emit_atomic64_inst inst src dst;
          mret (if ok : bool then Continue i None else Return (UnknownAtomicOpcode inst.(imm) i))
      | ClassAtomic32 =>
          ok ← emit_atomic32_inst rm inst src dst;
          mret (if ok : bool then Continue i None else Return (UnknownAtomicOpcode inst.(imm) i))
      end
  end.

Definition is_alu32 (opcode : Z) : bool :=
  (opcode .& EBPF_CLS_MASK =? EBPF_CLS_ALU) && negb (opcode .& EBPF_ALU_OP_MASK =? 0xd0).

(** What goes before the code of an instruction. *)
Definition emit_function_start (vm : ubpf_vm) (i : Z) : M unit :=
  starts_function ← (if i =? 0 then mret false
                     else lift (flags ← vm.(int_funcs); flags !! Z.to_nat i));
  fallthrough_jump_source ← emit_fallthrough_jump vm i starts_function;
  when ((i =? 0) || starts_function) (emit_function_prolog vm i);;
  match fallthrough_jump_source with
  | Some source =>
      here ← gets joffset;
      modify_jumps source (Regular (MkRegular 0 (u32 here) true))
  | None => mret tt
  end.

(** One turn of the loop: the body, the truncation, and [i++]. *)
Definition translate_inst (vm : ubpf_vm) (rm : list Z) (i : Z) : M turn :=
  inst ← lift (ubpf_fetch_instruction vm i);
  dst ← map_register rm inst.(dst);
  src ← map_register rm inst.(src);
  let tgt := ebpf_target (jump_target_pc i inst) in
  emit_function_start vm i;;
  set_pc_loc i;;
  t ← emit_switch vm rm i inst src dst tgt;
  match t with
  | Return e => mret (Return e)
  | Continue i' msg =>
      when (is_alu32 inst.(opcode)) (emit_truncate_u32 dst);;
      mret (Continue (i' + 1) msg)
  end.

(** The loop, with the last message; undefined when the fuel runs out. *)
Fixpoint translate_loop (fuel : nat) (vm : ubpf_vm) (rm : list Z) (i : Z) (errmsg : option jit_error)
    : M (result (option jit_error) jit_error) :=
  match fuel with
  | O => undefined
  | S fuel' =>
      status ← gets jit_status;
      if negb (i <? vm.(num_insts)) || bool_decide (status <> NoError) then mret (Ok errmsg)
      else
        t ← translate_inst vm rm i;
        match t with
        | Return e => mret (Err e)
        | Continue i' msg => translate_loop fuel' vm rm i' (match msg with Some e => Some e | None => errmsg end)
        end
  end.

(** The message for a status other than [NoError]. *)
Definition status_error (status : JitProgress) (errmsg : option jit_error) : option jit_error :=
  match status with
  | NoError => None
  | TooManyJumps => Some TooManyJumpInstructions
  | TooManyLoads => Some TooManyLoadInstructions
  | TooManyLeas => Some TooManyLeaCalculations
  | TooManyLocalCalls => Some TooManyLocalCallsError
  | NotEnoughSpace => Some TargetBufferTooSmall
  | UnexpectedInstruction => errmsg
  | UnknownInstruction => errmsg
  end.

Definition emit_epilogue (rm : list Z) : M unit :=
  modify (fun st => set_exit_loc st.(joffset) st);;
  r0 ← map_register rm BPF_REG_0;
  when (negb (r0 =? RAX)) (emit_mov r0 RAX);;
  emit_mov RBP RSP;;
  when (Z.of_nat (length platform_nonvolatile_registers) mod 2 =? 0) (emit_alu64_imm32 0x81 0 RSP 0x8);;
  for_each (reverse platform_nonvolatile_registers) emit_pop;;
  emit1 0xc3.

Definition translate (vm : ubpf_vm) (rm : list Z) : M (result unit jit_error) :=
  emit_prologue rm;;
  r ← translate_loop (S (Z.to_nat vm.(num_insts))) vm rm 0 None;
  match r with
  | Err e => mret (Err e)
  | Ok errmsg =>
      status ← gets jit_status;
      match status with
      | NoError =>
          emit_epilogue rm;;
          retpoline_loc ← emit_retpoline;
          modify (set_retpoline_loc retpoline_loc);;
          dispatcher_loc ← emit_dispatched_external_helper_address vm;
          modify (set_dispatcher_loc dispatcher_loc);;
          helper_table_loc ← emit_helper_table vm;
          modify (set_helper_table_loc helper_table_loc);;
          mret (Ok tt)
      | _ => e ← lift (status_error status errmsg); mret (Err e)
      end
  end.

(** ** Patching *)

(** The [target_loc] of a jump: [Some None] is [return false], [None] a read past
    [pc_locs]. *)
Definition jump_target_loc (st : jit_state) (tgt : PatchableTarget) : option (option Z) :=
  match tgt with
  | Special Exit => Some (Some st.(exit_loc))
  | Special Retpoline => Some (Some st.(retpoline_loc))
  | Special _ => Some None
  | Regular r =>
      if negb (r.(jit_target_pc) =? 0) then Some (Some r.(jit_target_pc))
      else Some <$> pc_loc st r.(ebpf_target_pc)
  end.

Definition resolve_jump (jump : patchable_relative) : M bool :=
  target_loc ← (fun st => (fun r => (r, st)) <$> jump_target_loc st jump.(target));
  match target_loc with
  | None => mret false
  | Some target_loc =>
      if is_near jump.(target) then
        let rel := s32 (target_loc - (jump.(offset_loc) + 1)) in
        if negb ((-128 <=? rel) && (rel <? 128)) then mret false
        else poke jump.(offset_loc) rel;; mret true
      else
        let rel := u32 (target_loc - (jump.(offset_loc) + 4)) in
        memcpy_buf jump.(offset_loc) (le_encode 4 rel);; mret true
  end.

Definition resolve_local_call (local_call : patchable_relative) : M bool :=
  match local_call.(target) with
  | Special _ => undefined
  | Regular r =>
      assertion (r.(jit_target_pc) =? 0);;
      target_loc ← (fun st => (fun l => (l, st)) <$> pc_loc st r.(ebpf_target_pc));
      prolog ← gets bpf_function_prolog_size;
      let rel := u32 (u32 (target_loc - (local_call.(offset_loc) + 4)) - prolog) in
      memcpy_buf local_call.(offset_loc) (le_encode 4 rel);;
      mret true
  end.

Definition resolve_load (load : patchable_relative) : M bool :=
  if decide (load.(target) = Special ExternalDispatcher) then
    target_loc ← gets dispatcher_loc;
    memcpy_buf load.(offset_loc) (le_encode 4 (u32 (target_loc - (load.(offset_loc) + 4))));;
    mret true
  else mret false.

Definition resolve_lea (lea : patchable_relative) : M bool :=
  if decide (lea.(target) = Special LoadHelperTable) then
    target_loc ← gets helper_table_loc;
    memcpy_buf lea.(offset_loc) (le_encode 4 (u32 (target_loc - (lea.(offset_loc) + 4))));;
    mret true
  else mret false.

Definition resolve_patchable_relatives : M bool :=
  js ← gets jumps;
  ok ← resolve_all resolve_jump js;
  if negb ok then mret false
  else
    cs ← gets local_calls;
    ok ← resolve_all resolve_local_call cs;
    if negb ok then mret false
    else
      ls ← gets loads;
      ok ← resolve_all resolve_load ls;
      if negb ok then mret false
      else
        es ← gets leas;
        resolve_all resolve_lea es.

(** ** The back end *)

(** Gives the result record with its message, the buffer and [*size].
    [None]: undefined behaviour. *)
Definition ubpf_translate_x86_64 (vm : ubpf_vm) (rm : list Z) (alloc : nat -> bool) (random : nat -> Z)
    (buffer : list Z) (size : Z) (mode : JitMode)
    : option (ubpf_jit_result * option jit_error * list Z * Z) :=
  let '(init, failure) := initialize_jit_state_result alloc buffer size mode random in
  match init with
  | None => Some (failure, Some AllocationFailed, buffer, size)
  | Some st =>
      '(r, st) ← translate vm rm st;
      match r with
      | Err e => Some (failure, Some e, st.(buf), size)
      | Ok _ =>
          '(ok, st) ← resolve_patchable_relatives st;
          if negb ok then Some (failure, Some CannotPatch, st.(buf), size)
          else
            Some (JitResult st.(dispatcher_loc) st.(helper_table_loc) UBPF_JIT_COMPILE_SUCCESS mode,
                  None, st.(buf), st.(joffset))
      end
  end.
