(* ===== verification/X86Cost.v ===== *)
(** * X86Cost: the code of every x86-64 emitter is bounded

    For each emitter, how many bytes and patchable slots it puts out at most
    when there is room ([costs]), up to the code of one eBPF instruction. *)

From Stdlib Require Import ZArith Lia Bool.
From stdpp Require Import base list gmap strings numbers.
From S2P Require Import Prelude Ebpf Vm JitSupport JitAsm X86Emit X86Trans.

Local Open Scope Z_scope.
Local Open Scope cbits_scope.

(** ** What the back end allows *)

(** The targets the patching pass can fill in. *)
Definition target_ok (t : slot_table) (tgt : PatchableTarget) : Prop :=
  match t, tgt with
  | Jumps, Special Exit | Jumps, Special Retpoline => True
  | Jumps, Regular r => r.(near) = false /\ (r.(jit_target_pc) <> 0 \/ 0 <= r.(ebpf_target_pc) <= UBPF_MAX_INSTS)
  | LocalCalls, Regular r => r.(near) = false /\ r.(jit_target_pc) = 0 /\ 0 <= r.(ebpf_target_pc) <= UBPF_MAX_INSTS
  | Loads, Special ExternalDispatcher | Leas, Special LoadHelperTable => True
  | _, _ => False
  end.

Definition x86_item_ok (it : item) : Prop :=
  match it with
  | Slot t tgt w => w = 0 /\ target_ok t tgt
  | _ => True
  end.

(** Code of any alignment, with slots that are empty until they are patched. *)
#[export, refine] Instance x86_target : Target := {|
  item_ok := x86_item_ok;
  code_align := 1;
  code_limit := 2 ^ 32;
|}.
Proof.
  - intros it _. apply Z.divide_1_l.
  - exact I.
Defined.

(** Fixed bytes are always allowed. *)
Lemma costs_puts m bs n : puts m bs -> Z.of_nat (length bs) <= n -> costs n 0 m.
Proof. intros. by eapply costs_bytes. Qed.

(** ** Lengths *)

Lemma length_rex_bytes w s d : (length (rex_bytes w s d) <= 1)%nat.
Proof. unfold rex_bytes. destruct (_ || _); [by rewrite length_le_encode | cbn; lia]. Qed.

Lemma length_alu_bytes w op s d : (length (alu_bytes w op s d) <= 3)%nat.
Proof. unfold alu_bytes. rewrite !length_app, !length_le_encode. pose proof (length_rex_bytes w s d). lia. Qed.

Lemma length_mem_bytes reg rm d : (length (mem_bytes reg rm d) <= 6)%nat.
Proof.
  unfold mem_bytes. destruct (_ && _); [by rewrite length_le_encode; lia |].
  rewrite !length_app, length_le_encode. destruct (_ =? R12), (_ && _); rewrite length_le_encode; cbn; lia.
Qed.

(** Bounds the length of a byte string built from the pieces above. *)
Ltac len_bound :=
  repeat first [rewrite length_app | rewrite length_le_encode | progress cbn [length app]];
  repeat match goal with
  | |- context [length (rex_bytes ?w ?s ?d)] =>
      pose proof (length_rex_bytes w s d); generalize dependent (length (rex_bytes w s d)); intros
  | |- context [length (alu_bytes ?w ?op ?s ?d)] =>
      pose proof (length_alu_bytes w op s d); generalize dependent (length (alu_bytes w op s d)); intros
  | |- context [length (mem_bytes ?w ?s ?d)] =>
      pose proof (length_mem_bytes w s d); generalize dependent (length (mem_bytes w s d)); intros
  end;
  lia.

Ltac costs_by_bytes := eapply costs_puts; [solve [eauto with emit] | len_bound].

(** ** Fixed bytes *)

Lemma costs_emit1 x : costs 1 0 (emit1 x).
Proof. costs_by_bytes. Qed.
Lemma costs_emit4 x : costs 4 0 (emit4 x).
Proof. costs_by_bytes. Qed.
Lemma costs_emit8 x : costs 8 0 (emit8 x).
Proof. costs_by_bytes. Qed.
Lemma costs_emit_basic_rex w s d : is_bit w -> costs 1 0 (emit_basic_rex w s d).
Proof. intros. costs_by_bytes. Qed.
Lemma costs_emit_rex w r x b : is_bit w -> is_bit r -> is_bit x -> is_bit b -> costs 1 0 (emit_rex w r x b).
Proof. intros. costs_by_bytes. Qed.
Lemma costs_emit_modrm_reg2reg r m : costs 1 0 (emit_modrm_reg2reg r m).
Proof. costs_by_bytes. Qed.
Lemma costs_emit_alu32 op s d : costs 3 0 (emit_alu32 op s d).
Proof. costs_by_bytes. Qed.
Lemma costs_emit_alu64 op s d : costs 3 0 (emit_alu64 op s d).
Proof. costs_by_bytes. Qed.
Lemma costs_emit_alu32_imm32 op s d i : costs 7 0 (emit_alu32_imm32 op s d i).
Proof. costs_by_bytes. Qed.
Lemma costs_emit_alu64_imm32 op s d i : costs 7 0 (emit_alu64_imm32 op s d i).
Proof. costs_by_bytes. Qed.
Lemma costs_emit_alu32_imm8 op s d i : costs 4 0 (emit_alu32_imm8 op s d i).
Proof. costs_by_bytes. Qed.
Lemma costs_emit_alu64_imm8 op s d i : costs 4 0 (emit_alu64_imm8 op s d i).
Proof. costs_by_bytes. Qed.
Lemma costs_emit_truncate_u32 d : costs 7 0 (emit_truncate_u32 d).
Proof. apply costs_emit_alu32_imm32. Qed.
Lemma costs_emit_mov s d : costs 3 0 (emit_mov s d).
Proof. apply costs_emit_alu64. Qed.
Lemma costs_emit_cmp s d : costs 3 0 (emit_cmp s d).
Proof. apply costs_emit_alu64. Qed.
Lemma costs_emit_cmp32 s d : costs 3 0 (emit_cmp32 s d).
Proof. apply costs_emit_alu32. Qed.
Lemma costs_emit_cmp_imm32 d i : costs 7 0 (emit_cmp_imm32 d i).
Proof. apply costs_emit_alu64_imm32. Qed.
Lemma costs_emit_cmp32_imm32 d i : costs 7 0 (emit_cmp32_imm32 d i).
Proof. apply costs_emit_alu32_imm32. Qed.
Lemma costs_emit_push r : costs 2 0 (emit_push r).
Proof. costs_by_bytes. Qed.
Lemma costs_emit_pop r : costs 2 0 (emit_pop r).
Proof. costs_by_bytes. Qed.

Lemma costs_emit_load_imm d i : costs 10 0 (emit_load_imm d i).
Proof.
  eapply costs_puts; [apply puts_emit_load_imm |]. unfold load_imm_bytes, movabs_bytes.
  destruct (fits_int32 _); len_bound.
Qed.

Lemma costs_emit_load size s d o : costs 9 0 (emit_load size s d o).
Proof. eapply costs_puts; [apply puts_emit_load |]. unfold load_bytes. destruct size; len_bound. Qed.
Lemma costs_emit_load_sx size s d o : costs 9 0 (emit_load_sx size s d o).
Proof. eapply costs_puts; [apply puts_emit_load_sx |]. unfold load_sx_bytes. destruct size; len_bound. Qed.
Lemma costs_emit_store size s d o : costs 9 0 (emit_store size s d o).
Proof. eapply costs_puts; [apply puts_emit_store |]. unfold store_bytes. destruct size; len_bound. Qed.
Lemma costs_emit_store_imm32 size d o i : costs 13 0 (emit_store_imm32 size d o i).
Proof. eapply costs_puts; [apply puts_emit_store_imm32 |]. unfold store_imm_bytes. destruct size; len_bound. Qed.

Lemma costs_emit_atomic_alu op w s d o : is_bit w -> costs 9 0 (emit_atomic_alu op w s d o).
Proof. intros. eapply costs_puts; [by apply puts_emit_atomic_alu |]. unfold lock_bytes. len_bound. Qed.
Lemma costs_emit_atomic_exchange w s d o : is_bit w -> costs 9 0 (emit_atomic_exchange w s d o).
Proof. intros. eapply costs_puts; [by apply puts_emit_atomic_exchange |]. unfold lock_bytes. len_bound. Qed.
Lemma costs_emit_atomic_cmp_exch w s d o : is_bit w -> costs 10 0 (emit_atomic_cmp_exch_with_rax w s d o).
Proof. intros. eapply costs_puts; [by apply puts_emit_atomic_cmp_exch_with_rax |]. unfold lock_bytes. len_bound. Qed.
Lemma costs_emit_atomic_fetch_alu w op s d o : is_bit w -> costs 40 0 (emit_atomic_fetch_alu w op s d o).
Proof.
  intros. eapply costs_puts; [by apply puts_emit_atomic_fetch_alu |].
  unfold fetch_alu_bytes, fetch_loop_bytes, lock_bytes, load_bytes. cbv zeta.
  destruct (s =? RAX), (d =? R10), (w =? 0); cbn [negb]; len_bound.
Qed.

#[export] Hint Resolve costs_emit1 costs_emit4 costs_emit8 costs_emit_basic_rex costs_emit_rex
  costs_emit_modrm_reg2reg costs_emit_alu32 costs_emit_alu64 costs_emit_alu32_imm32 costs_emit_alu64_imm32
  costs_emit_alu32_imm8 costs_emit_alu64_imm8 costs_emit_truncate_u32 costs_emit_mov costs_emit_cmp costs_emit_cmp32
  costs_emit_cmp_imm32 costs_emit_cmp32_imm32 costs_emit_push costs_emit_pop costs_emit_load_imm costs_emit_load
  costs_emit_load_sx costs_emit_store costs_emit_store_imm32 costs_emit_atomic_alu costs_emit_atomic_exchange
  costs_emit_atomic_cmp_exch costs_emit_atomic_fetch_alu : emit.
#[export] Hint Unfold is_bit : emit.

(** ** Sequences *)

(** Bounds the parts, adds up, and compares with the claimed bound. *)
Ltac costs_sum := eapply costs_weaken; [solve_costs; lia | lia | lia].

Lemma costs_emit_divisor_check is64 mod_ is_signed : costs 24 0 (emit_divisor_check is64 mod_ is_signed).
Proof. unfold emit_divisor_check. destruct is64, is_signed; costs_sum. Qed.

Lemma costs_emit_operation mul div mod_ is64 is_signed : costs 32 0 (emit_operation mul div mod_ is64 is_signed).
Proof.
  eapply costs_puts; [apply puts_emit_operation |].
  destruct mul, div, mod_, is64, is_signed; vm_compute; discriminate.
Qed.

Lemma costs_emit_zero_divisor_result div : costs 15 0 (emit_zero_divisor_result div).
Proof. unfold emit_zero_divisor_result. costs_sum. Qed.

#[export] Hint Resolve costs_emit_divisor_check costs_emit_operation costs_emit_zero_divisor_result : emit.

Lemma costs_emit_load_imm_blinded d i : costs 26 0 (emit_load_imm_blinded d i).
Proof. unfold emit_load_imm_blinded. costs_sum. Qed.
Lemma costs_emit_alu64_imm32_blinded op s d i : costs 20 0 (emit_alu64_imm32_blinded op s d i).
Proof. unfold emit_alu64_imm32_blinded. costs_sum. Qed.
Lemma costs_emit_alu32_imm32_blinded op s d i : costs 20 0 (emit_alu32_imm32_blinded op s d i).
Proof. unfold emit_alu32_imm32_blinded. costs_sum. Qed.
Lemma costs_emit_cmp_imm32_blinded d i : costs 20 0 (emit_cmp_imm32_blinded d i).
Proof. unfold emit_cmp_imm32_blinded. costs_sum. Qed.
Lemma costs_emit_cmp32_imm32_blinded d i : costs 20 0 (emit_cmp32_imm32_blinded d i).
Proof. unfold emit_cmp32_imm32_blinded. costs_sum. Qed.
Lemma costs_emit_test_imm32_blinded d i : costs 20 0 (emit_test_imm32_blinded d i).
Proof. unfold emit_test_imm32_blinded. costs_sum. Qed.
Lemma costs_emit_test32_imm32_blinded d i : costs 20 0 (emit_test32_imm32_blinded d i).
Proof. unfold emit_test32_imm32_blinded. costs_sum. Qed.
Lemma costs_emit_store_imm32_blinded size d o i : costs 26 0 (emit_store_imm32_blinded size d o i).
Proof. unfold emit_store_imm32_blinded. costs_sum. Qed.

#[export] Hint Resolve costs_emit_load_imm_blinded costs_emit_alu64_imm32_blinded costs_emit_alu32_imm32_blinded
  costs_emit_cmp_imm32_blinded costs_emit_cmp32_imm32_blinded costs_emit_test_imm32_blinded
  costs_emit_test32_imm32_blinded costs_emit_store_imm32_blinded : emit.

Lemma costs_EMIT_LOAD_IMM vm d i : costs 26 0 (EMIT_LOAD_IMM vm d i).
Proof. unfold EMIT_LOAD_IMM. costs_sum. Qed.
Lemma costs_EMIT_ALU64_IMM32 vm op s d i : costs 20 0 (EMIT_ALU64_IMM32 vm op s d i).
Proof. unfold EMIT_ALU64_IMM32. costs_sum. Qed.
Lemma costs_EMIT_ALU32_IMM32 vm op s d i : costs 20 0 (EMIT_ALU32_IMM32 vm op s d i).
Proof. unfold EMIT_ALU32_IMM32. costs_sum. Qed.
Lemma costs_EMIT_CMP_IMM32 vm d i : costs 20 0 (EMIT_CMP_IMM32 vm d i).
Proof. unfold EMIT_CMP_IMM32. costs_sum. Qed.
Lemma costs_EMIT_CMP32_IMM32 vm d i : costs 20 0 (EMIT_CMP32_IMM32 vm d i).
Proof. unfold EMIT_CMP32_IMM32. costs_sum. Qed.
Lemma costs_EMIT_TEST_IMM32 vm d i : costs 20 0 (EMIT_TEST_IMM32 vm d i).
Proof. unfold EMIT_TEST_IMM32. costs_sum. Qed.
Lemma costs_EMIT_TEST32_IMM32 vm d i : costs 20 0 (EMIT_TEST32_IMM32 vm d i).
Proof. unfold EMIT_TEST32_IMM32. costs_sum. Qed.
Lemma costs_EMIT_STORE_IMM32 vm size d o i : costs 26 0 (EMIT_STORE_IMM32 vm size d o i).
Proof. unfold EMIT_STORE_IMM32. costs_sum. Qed.

#[export] Hint Resolve costs_EMIT_LOAD_IMM costs_EMIT_ALU64_IMM32 costs_EMIT_ALU32_IMM32 costs_EMIT_CMP_IMM32
  costs_EMIT_CMP32_IMM32 costs_EMIT_TEST_IMM32 costs_EMIT_TEST32_IMM32 costs_EMIT_STORE_IMM32 : emit.

Lemma costs_emit_muldivmod vm opc s d i o : costs 128 0 (emit_muldivmod vm opc s d i o).
Proof. unfold emit_muldivmod. costs_sum. Qed.

(** ** Slots *)

(** Recording a slot and leaving room for it. *)
Lemma note_and_placeholder {A} t (note : M unit) tgt (a : A) st :
  (note st = Some (tt, set_table t (table_of t st ++ [Patch st.(joffset) tgt]) st)) ->
  jit_ok st -> st.(joffset) + 4 <= st.(jsize) ->
  (note;; emit_4byte_offset_placeholder;; mret a) st = Some (a, asm_item (Slot t tgt 0) st).
Proof.
  intros Hn [] Hlen. unfold mbind, M_bind. rewrite Hn. unfold emit_4byte_offset_placeholder, emit4.
  rewrite emit_bytes_run; destruct t; done || (cbn; lia).
Qed.

Lemma emits_jump_address_reloc tgt :
  emits (emit_jump_address_reloc tgt) joffset (fun _ => [Slot Jumps tgt 0]).
Proof.
  intros st (Hok & Hlen & Ht)%ready_slot. unfold emit_jump_address_reloc, mbind at 1, M_bind at 1, gets at 1.
  rewrite (proj2 (Z.eqb_neq _ _)) by (cbn in Ht; lia). unfold mbind at 1, M_bind at 1, gets at 1.
  apply note_and_placeholder; [by apply note_jump_ok | done | done].
Qed.

Lemma emits_local_call_address_reloc tgt :
  emits (emit_local_call_address_reloc tgt) joffset (fun _ => [Slot LocalCalls tgt 0]).
Proof.
  intros st (Hok & Hlen & Ht)%ready_slot. unfold emit_local_call_address_reloc, mbind at 1, M_bind at 1, gets at 1.
  rewrite (proj2 (Z.eqb_neq _ _)) by (cbn in Ht; lia). unfold mbind at 1, M_bind at 1, gets at 1.
  apply note_and_placeholder; [by apply note_local_call_ok; destruct Hok | done | done].
Qed.

Lemma emits_emit_jcc code tgt :
  emits (emit_jcc code tgt) (fun st => st.(joffset) + 2) (fun _ => [Bytes (0x0f :: le_encode 1 code); Slot Jumps tgt 0]).
Proof.
  apply (emits_merge _ _ [0x0f]). eapply emits_ext; [| | done].
  - apply (emits_puts_seq _ [0x0f]); [apply puts_emit1 |].
    apply emits_puts_seq; [apply puts_emit1 | apply emits_jump_address_reloc].
  - intros st. cbn. lia.
Qed.

Lemma emits_emit_jmp tgt :
  emits (emit_jmp tgt) (fun st => st.(joffset) + 1)
    (fun _ => [Bytes [if is_near tgt then 0xeb else 0xe9]; Slot Jumps tgt 0]).
Proof.
  unfold emit_jmp. destruct (is_near tgt).
  - exact (emits_puts_seq (emit1 0xeb) [0xeb] _ _ _ (puts_emit1 0xeb) (emits_jump_address_reloc tgt)).
  - exact (emits_puts_seq (emit1 0xe9) [0xe9] _ _ _ (puts_emit1 0xe9) (emits_jump_address_reloc tgt)).
Qed.

Lemma emits_emit_call tgt :
  emits (emit_call tgt) (fun st => st.(joffset) + 1) (fun _ => [Bytes [0xe8]; Slot Jumps tgt 0]).
Proof.
  apply (emits_puts_seq (emit1 0xe8) [0xe8] _ joffset [Slot Jumps tgt 0]); [apply puts_emit1 |].
  intros st Hr. unfold mbind, M_bind, gets. by rewrite emits_jump_address_reloc.
Qed.

Lemma emits_load_slot tgt :
  emits (load_target_offset ← gets joffset; note_load tgt;; emit_4byte_offset_placeholder;; mret load_target_offset)
    joffset (fun _ => [Slot Loads tgt 0]).
Proof.
  intros st (Hok & Hlen & Ht)%ready_slot. unfold mbind at 1, M_bind at 1, gets at 1.
  apply note_and_placeholder; [by apply note_load_ok | done | done].
Qed.

Lemma emits_lea_slot tgt :
  emits (note_lea tgt;; emit_4byte_offset_placeholder) (fun _ => tt) (fun _ => [Slot Leas tgt 0]).
Proof.
  intros st (Hok & Hlen & Ht)%ready_slot. rewrite <- bind_ret_r.
  assert (forall (m k : M unit) (s : jit_state), ((m;; k);; mret tt) s = (m;; k;; mret tt) s) as ->.
  { intros m k s. unfold mbind, M_bind. by destruct (m s) as [[] |]. }
  apply note_and_placeholder; [by apply note_lea_ok | done | done].
Qed.

(** The guard against a full table is not taken when there is room. *)
Lemma emits_guarded {A} t (tab : jit_state -> nat) (m1 m2 : M A) f its :
  (forall st, tab st = length (table_of t st)) -> (0 < slots_in t its)%nat ->
  emits m2 f (fun _ => its) ->
  emits (n ← gets tab; if Z.of_nat n =? UBPF_MAX_INSTS then m1 else m2) f (fun _ => its).
Proof.
  intros Ht Hn H st Hr. unfold mbind, M_bind, gets. rewrite Ht.
  rewrite (proj2 (Z.eqb_neq _ _)); [by apply H |]. destruct Hr as (_ & _ & Hs). specialize (Hs t). lia.
Qed.

Lemma emits_rip_relative_load dst tgt :
  emits (emit_rip_relative_load dst tgt) (fun st => st.(joffset) + 3)
    (fun _ => [Bytes ([0x48; 0x8b] ++ le_encode 1 (modrm_byte 0 dst 5)); Slot Loads tgt 0]).
Proof.
  apply (emits_guarded Loads); [done | vm_compute; lia |].
  apply emits_merge, (emits_merge _ _ [0x48]). eapply emits_ext; [| | done].
  - apply (emits_puts_seq _ [0x48]); [apply puts_emit_rex; auto with emit |].
    apply (emits_puts_seq _ [0x8b]); [apply puts_emit1 |].
    apply emits_puts_seq; [apply puts_emit_modrm; auto | apply emits_load_slot].
  - intros st. cbn. lia.
Qed.

Lemma emits_rip_relative_lea dst tgt :
  emits (emit_rip_relative_lea dst tgt) (fun _ => tt)
    (fun _ => [Bytes ([0x4c; 0x8d] ++ le_encode 1 (modrm_byte 0 dst 5)); Slot Leas tgt 0]).
Proof.
  apply (emits_guarded Leas); [done | vm_compute; lia |].
  apply emits_merge, (emits_merge _ _ [0x4c]). eapply emits_ext; [| | done].
  - apply (emits_puts_seq _ [0x4c]); [apply puts_emit_rex; auto with emit |].
    apply (emits_puts_seq _ [0x8d]); [apply puts_emit1 |].
    apply emits_puts_seq; [apply puts_emit_modrm; auto | apply emits_lea_slot].
  - done.
Qed.

Lemma in_budget_jump tgt bs : target_ok Jumps tgt -> (length bs <= 2)%nat -> in_budget 6 1 [Bytes bs; Slot Jumps tgt 0].
Proof.
  intros H Hl. split_and!.
  - unfold code_len. cbn. rewrite !length_app. cbn. lia.
  - intros []; vm_compute; lia.
  - repeat constructor. done.
Qed.

Lemma costs_emit_jcc code tgt : target_ok Jumps tgt -> costs 6 1 (emit_jcc code tgt).
Proof. intros. eapply costs_emits; [apply emits_emit_jcc | intros st; apply in_budget_jump; cbn; done || lia]. Qed.
Lemma costs_emit_jmp tgt : target_ok Jumps tgt -> costs 6 1 (emit_jmp tgt).
Proof. intros. eapply costs_emits; [apply emits_emit_jmp | intros st; apply in_budget_jump; cbn; done || lia]. Qed.
Lemma costs_emit_call tgt : target_ok Jumps tgt -> costs 6 1 (emit_call tgt).
Proof. intros. eapply costs_emits; [apply emits_emit_call | intros st; apply in_budget_jump; cbn; done || lia]. Qed.

#[export] Hint Resolve costs_emit_muldivmod costs_emit_jcc costs_emit_jmp costs_emit_call : emit.

(** ** Helper calls *)

(** The code of a helper call that starts at [o]: the two jumps go to the
    external-dispatcher branch and to the point where the branches meet. *)
Definition helper_call_items (idx o : Z) : list item :=
  let load_idx := load_imm_bytes R9 (u32 idx) in
  [Bytes (rex_bytes 0 0 VOLATILE_CTXT ++ le_encode 1 (0x50 .| (VOLATILE_CTXT .& 7)));
   Bytes (rex_bytes 0 0 VOLATILE_CTXT ++ le_encode 1 (0x50 .| (VOLATILE_CTXT .& 7)));
   Bytes ([0x48; 0x8b] ++ le_encode 1 (modrm_byte 0 RAX 5)); Slot Loads (Special ExternalDispatcher) 0;
   Bytes (alu_bytes 1 0x81 7 RAX ++ le_encode 4 0);
   Bytes (0x0f :: le_encode 1 0x85); Slot Jumps (jit_target_at (o + 55)) 0;
   Bytes (alu_bytes 0 0xc7 0 RAX); Bytes (le_encode 4 idx);
   Bytes (alu_bytes 1 0xc1 4 RAX ++ le_encode 1 3);
   Bytes ([0x4c; 0x8d] ++ le_encode 1 (modrm_byte 0 R10 5)); Slot Leas (Special LoadHelperTable) 0;
   Bytes (alu_bytes 1 0x01 R10 RAX);
   Bytes (load_bytes S64 RAX RAX 0);
   Bytes (alu_bytes 1 0x89 VOLATILE_CTXT R9);
   Bytes [0xe9]; Slot Jumps (jit_target_at (o + 55 + Z.of_nat (length load_idx))) 0;
   Bytes load_idx;
   Bytes [0xe8]; Slot Jumps (Special Retpoline) 0;
   Bytes (rex_bytes 0 0 VOLATILE_CTXT ++ le_encode 1 (0x58 .| (VOLATILE_CTXT .& 7)));
   Bytes (rex_bytes 0 0 VOLATILE_CTXT ++ le_encode 1 (0x58 .| (VOLATILE_CTXT .& 7)))].

Lemma length_load_imm_bytes d i : (length (load_imm_bytes d i) <= 10)%nat.
Proof. unfold load_imm_bytes, movabs_bytes. destruct (fits_int32 _); len_bound. Qed.

Ltac ready_by_room H :=
  eapply ready_bounds; [exact H | unfold code_len; cbn [app mbind list_bind item_bytes] | intros []; vm_compute; lia];
  unfold load_bytes; len_bound.

Lemma emit_helper_call_run idx st :
  room 96 3 st ->
  emit_dispatched_external_helper_call idx st = Some (tt, asm (helper_call_items idx st.(joffset)) st).
Proof.
  intros Hroom. unfold emit_dispatched_external_helper_call. change st with (asm [] st) at 1.
  pose proof (length_load_imm_bytes R9 (u32 idx)) as HL.
  set (L := load_imm_bytes R9 (u32 idx)) in *.
  eapply run_puts; [apply puts_emit_push | ready_by_room Hroom |].
  eapply run_puts; [apply puts_emit_push | ready_by_room Hroom |].
  eapply run_emits; [apply emits_rip_relative_load | ready_by_room Hroom |].
  eapply run_puts; [apply puts_emit_cmp_imm32 | ready_by_room Hroom |].
  eapply run_emits; [apply emits_emit_jcc | ready_by_room Hroom |].
  eapply run_puts; [apply puts_emit_alu32 | ready_by_room Hroom |].
  eapply run_puts; [apply puts_emit4 | ready_by_room Hroom |].
  eapply run_puts; [apply puts_emit_alu64_imm8 | ready_by_room Hroom |].
  eapply run_emits; [apply emits_rip_relative_lea | ready_by_room Hroom |].
  eapply run_puts; [apply puts_emit_alu64 | ready_by_room Hroom |].
  eapply run_puts; [apply puts_emit_load | ready_by_room Hroom |].
  eapply run_puts; [apply puts_emit_mov | ready_by_room Hroom |].
  eapply run_emits; [apply emits_emit_jmp | ready_by_room Hroom |].
  split_code 6%nat.
  eapply run_jump_target with (o := st.(joffset) + 55);
    [ready_by_room Hroom | rewrite asm_offset by (ready_by_room Hroom); code_len_lia | code_len_lia |].
  eapply run_puts; [apply puts_emit_load_imm | fold L; ready_by_room Hroom |]. fold L.
  split_code 16%nat.
  eapply run_jump_target with (o := st.(joffset) + 55 + Z.of_nat (length L));
    [ready_by_room Hroom | rewrite asm_offset by (ready_by_room Hroom); code_len_lia | |].
  { match goal with |- _ = _ + code_len ?l =>
      let a := eval cbv [app firstn] in (firstn 17 l) in change (code_len l) with (code_len (a ++ [Bytes L])) end.
    rewrite code_len_app, (code_len_cons (Bytes L)). cbn [item_bytes]. generalize (length L). intros n. code_len_lia. }
  eapply run_emits; [apply emits_emit_call | ready_by_room Hroom |].
  eapply run_puts; [apply puts_emit_pop | ready_by_room Hroom |].
  etransitivity; [eapply run_emits_last; [apply puts_emits, puts_emit_pop | ready_by_room Hroom] | reflexivity].
Qed.

(** A jump inside the code can be patched; position 0 stands for the first
    instruction. *)
Lemma jit_target_ok o : target_ok Jumps (jit_target_at o).
Proof. split; [done |]. right. unfold UBPF_MAX_INSTS. cbn. lia. Qed.

(** The items of a piece of code one by one. *)
Ltac items_allowed :=
  repeat apply Forall_cons_2; try apply Forall_nil_2; try exact I;
  (split; [reflexivity | first [exact I | apply jit_target_ok | assumption]]).

Lemma costs_helper_call idx : costs 96 3 (emit_dispatched_external_helper_call idx).
Proof.
  intros st Hroom. exists tt, (helper_call_items idx st.(joffset)). split; [by apply emit_helper_call_run |].
  pose proof (length_load_imm_bytes R9 (u32 idx)) as HL. destruct Hroom as ([_ ? _ ? _ _ _] & ? & _).
  unfold helper_call_items. cbv zeta. set (L := load_imm_bytes R9 (u32 idx)) in *. split_and!.
  - unfold code_len. cbn [app mbind list_bind item_bytes]. unfold load_bytes. len_bound.
  - intros []; vm_compute; lia.
  - items_allowed.
Qed.

#[export] Hint Resolve costs_helper_call : emit.

(** ** One eBPF instruction *)

Lemma costs_map_register rm r : length rm = 11%nat -> 0 <= r < 11 -> costs 0 0 (map_register rm r).
Proof.
  intros Hl Hr st _. unfold map_register, assertion, lift, mbind, M_bind, mret, M_ret.
  rewrite (proj2 (Z.ltb_lt _ _)) by (unfold _BPF_REG_MAX; lia). unfold _BPF_REG_MAX. rewrite Z.mod_small by lia.
  destruct (lookup_lt_is_Some_2 rm (Z.to_nat r) ltac:(lia)) as [x ->]. exists x, []. split; [done |].
  split_and!; done.
Qed.

#[export] Hint Resolve costs_map_register : emit.
#[export] Hint Extern 1 (_ <= _ < _) => (unfold BPF_REG_0, BPF_REG_1, BPF_REG_6, BPF_REG_7, BPF_REG_8, BPF_REG_9,
  BPF_REG_10; lia) : emit.

Lemma costs_alu32_inst vm op inst s d : costs 128 0 (emit_alu32_inst vm op inst s d).
Proof. unfold emit_alu32_inst. destruct op; costs_sum. Qed.

Lemma costs_alu64_inst vm op inst s d : costs 128 0 (emit_alu64_inst vm op inst s d).
Proof. unfold emit_alu64_inst. destruct op; costs_sum. Qed.

Lemma costs_endian_inst op inst d : costs 32 0 (emit_endian_inst op inst d).
Proof. unfold emit_endian_inst. destruct op; costs_sum. Qed.

Lemma costs_memory_inst vm op inst s d : costs 32 0 (emit_memory_inst vm op inst s d).
Proof. unfold emit_memory_inst. destruct op; costs_sum. Qed.

Lemma costs_jump_inst vm op inst s d tgt : target_ok Jumps tgt -> costs 32 1 (emit_jump_inst vm op inst s d tgt).
Proof. intros. unfold emit_jump_inst. cbv zeta. destruct op; costs_sum. Qed.

Lemma costs_jump32_inst vm op inst s d tgt : target_ok Jumps tgt -> costs 32 1 (emit_jump32_inst vm op inst s d tgt).
Proof. intros. unfold emit_jump32_inst. cbv zeta. destruct op; costs_sum. Qed.

Lemma costs_local_call_reloc tgt : target_ok LocalCalls tgt -> costs 4 1 (emit_local_call_address_reloc tgt).
Proof.
  intros. eapply costs_emits; [apply emits_local_call_address_reloc |]. intros st.
  split_and!; [done | intros []; vm_compute; lia | by repeat constructor].
Qed.

#[export] Hint Resolve costs_local_call_reloc : emit.

Section CallCosts.
Context (vm : ubpf_vm) (rm : list Z) (Hrm : length rm = 11%nat).

Lemma costs_local_call pc :
  0 <= u32 pc <= UBPF_MAX_INSTS -> costs 48 1 (emit_local_call rm pc).
Proof using Hrm.
  intros. assert (target_ok LocalCalls (ebpf_target pc)) by (by cbn). unfold emit_local_call. costs_sum.
Qed.

Hint Resolve costs_local_call : emit.

Lemma costs_call_inst i inst :
  (inst.(src) = 1 -> 0 <= u32 (i + inst.(imm) + 1) <= UBPF_MAX_INSTS) ->
  costs 128 4 (emit_call_inst vm rm i inst).
Proof using Hrm.
  intros Hl. assert (target_ok Jumps (Special Exit)) by done. unfold emit_call_inst.
  destruct (inst.(src) =? 0); [costs_sum |]. destruct (Z.eqb_spec inst.(src) 1); [| costs_sum].
  specialize (Hl ltac:(done)). costs_sum.
Qed.

End CallCosts.
