(* ===== verification/X86Sound.v ===== *)
(** * X86Sound: the x86-64 code generator on loaded programs

    What the code generator emits for one instruction of a program accepted by
    [ubpf_load]: how many bytes and slots, the processor's opcode and the slot of a
    jump or a local call, and what goes before the start of a local function. *)

From Stdlib Require Import ZArith Lia Bool.
From stdpp Require Import base list gmap strings numbers.
From S2P Require Import Prelude Ebpf InstValid Vm Validate Load JitSupport JitAsm JitLink JitProg X86Emit X86Trans X86Cost.

Local Open Scope Z_scope.
Local Open Scope cbits_scope.

(** ** The switch *)

Ltac unfold_atomics :=
  unfold emit_atomic_add64, emit_atomic_add32, emit_atomic_and64, emit_atomic_and32, emit_atomic_or64,
    emit_atomic_or32, emit_atomic_xor64, emit_atomic_xor32, emit_atomic_compare_exchange64,
    emit_atomic_compare_exchange32, emit_atomic_exchange64, emit_atomic_exchange32,
    emit_atomic_fetch_add64, emit_atomic_fetch_add32, emit_atomic_fetch_and64, emit_atomic_fetch_and32,
    emit_atomic_fetch_or64, emit_atomic_fetch_or32, emit_atomic_fetch_xor64, emit_atomic_fetch_xor32, IS_64BIT, IS_32BIT.

(** A valid atomic operation is known to the code generator. *)
Lemma atomic64_known i inst s d :
  validate_atomic i inst = Ok tt ->
  exists m : M unit, costs 40 0 m /\ emit_atomic64_inst inst s d = (m;; mret true).
Proof.
  unfold validate_atomic, emit_atomic64_inst. unfold_atomics. cbv zeta.
  set (f := inst.(imm) .& EBPF_ATOMIC_OP_FETCH). set (o := inst.(imm) .& EBPF_ALU_OP_MASK).
  destruct (o =? EBPF_ALU_OP_ADD); [intros _; eexists; split; [| reflexivity]; costs_sum |].
  destruct (o =? EBPF_ALU_OP_OR); [intros _; eexists; split; [| reflexivity]; costs_sum |].
  destruct (o =? EBPF_ALU_OP_AND); [intros _; eexists; split; [| reflexivity]; costs_sum |].
  destruct (o =? EBPF_ALU_OP_XOR); [intros _; eexists; split; [| reflexivity]; costs_sum |].
  cbn [orb].
  destruct (o =? EBPF_ATOMIC_OP_XCHG .& _); [intros _; eexists; split; [| reflexivity]; costs_sum |].
  destruct (o =? EBPF_ATOMIC_OP_CMPXCHG .& _); [intros _; eexists; split; [| reflexivity]; costs_sum | done].
Qed.

Lemma atomic32_known rm i inst s d :
  length rm = 11%nat -> validate_atomic i inst = Ok tt ->
  exists m : M unit, costs 40 0 m /\ forall st, emit_atomic32_inst rm inst s d st = (m;; mret true) st.
Proof.
  intros Hrm. unfold validate_atomic, emit_atomic32_inst. unfold_atomics. cbv zeta.
  set (f := inst.(imm) .& EBPF_ATOMIC_OP_FETCH). set (o := inst.(imm) .& EBPF_ALU_OP_MASK).
  destruct (o =? EBPF_ALU_OP_ADD); [intros _; eexists; split; [| reflexivity]; costs_sum |].
  destruct (o =? EBPF_ALU_OP_OR); [intros _; eexists; split; [| reflexivity]; costs_sum |].
  destruct (o =? EBPF_ALU_OP_AND); [intros _; eexists; split; [| reflexivity]; costs_sum |].
  destruct (o =? EBPF_ALU_OP_XOR); [intros _; eexists; split; [| reflexivity]; costs_sum |].
  cbn [orb].
  destruct (o =? EBPF_ATOMIC_OP_XCHG .& _).
  { intros _. exists (emit_atomic_exchange 0 s d inst.(offset);; emit_truncate_u32 s). split; [costs_sum |].
    intros st. by rewrite bind_assoc. }
  destruct (o =? EBPF_ATOMIC_OP_CMPXCHG .& _); [intros _ | done].
  exists (emit_atomic_cmp_exch_with_rax 0 s d inst.(offset);; r0 ← map_register rm BPF_REG_0; emit_truncate_u32 r0).
  split; [costs_sum |]. intros st. rewrite bind_assoc. unfold mbind, M_bind.
  destruct (emit_atomic_cmp_exch_with_rax _ _ _ _ _) as [[] |]; [| done]. by destruct (map_register _ _ _) as [[] |].
Qed.

(** What the groups of the two switches have in common. *)
Lemma class_group op :
  match class_of op with
  | ClassJump | ClassJump32 => group_of op = GroupJump
  | ClassCall => op = EBPF_OP_CALL
  | ClassLddw => op = EBPF_OP_LDDW
  | ClassAtomic64 | ClassAtomic32 => group_of op = GroupAtomic
  | _ => op <> EBPF_OP_LDDW
  end.
Proof. by destruct op. Qed.

(** ** The slots of jumps and calls *)

Lemma jump_target_ok (prog : list ebpf_inst) i inst :
  Z.of_nat (length prog) < UBPF_MAX_INSTS -> 0 <= i + 1 + jump_offset inst < Z.of_nat (length prog) ->
  target_ok Jumps (ebpf_target (jump_target_pc i inst)).
Proof.
  intros Hl Ht. cbn [target_ok ebpf_target ebpf_target_pc near]. rewrite (jump_target_u32 prog) by done.
  split; [done |]. right. lia.
Qed.

(** The processor's jump instructions by the operation bits of the eBPF opcode: a
    near relative [JMP], or the [Jcc] of the condition. *)
Definition jump_bytes (opcode : Z) : list Z :=
  let op := opcode .& EBPF_JMP_OP_MASK in
  if op =? 0x00 then [0xe9]                  (* JMP rel32 *)
  else if op =? 0x10 then [0x0f; 0x84]       (* JE *)
  else if op =? 0x20 then [0x0f; 0x87]       (* JA: unsigned > *)
  else if op =? 0x30 then [0x0f; 0x83]       (* JAE *)
  else if op =? 0x40 then [0x0f; 0x85]       (* JNZ, after a TEST *)
  else if op =? 0x50 then [0x0f; 0x85]       (* JNE *)
  else if op =? 0x60 then [0x0f; 0x8f]       (* JG: signed > *)
  else if op =? 0x70 then [0x0f; 0x8d]       (* JGE *)
  else if op =? 0xa0 then [0x0f; 0x82]       (* JB: unsigned < *)
  else if op =? 0xb0 then [0x0f; 0x86]       (* JBE *)
  else if op =? 0xc0 then [0x0f; 0x8c]       (* JL: signed < *)
  else [0x0f; 0x8e].                         (* JLE *)

(** [CALL rel32]. *)
Definition call_bytes : list Z := [0xe8].

Lemma places_emit_jcc code tgt :
  target_ok Jumps tgt -> places (0x0f :: le_encode 1 code) Jumps tgt 6 1 (emit_jcc code tgt).
Proof.
  intros. eapply places_emits; [apply emits_emit_jcc | by apply in_budget_jump; [| cbn; lia] | by exists [], 0, []].
Qed.

Lemma places_emit_jmp tgt :
  target_ok Jumps tgt -> is_near tgt = false -> places [0xe9] Jumps tgt 6 1 (emit_jmp tgt).
Proof.
  intros ? Hn. eapply places_emits; [apply emits_emit_jmp | by apply in_budget_jump; [| cbn; lia] |].
  rewrite Hn. by exists [], 0, [].
Qed.

(** A call and what follows it. *)
Lemma places_local_call tgt n k {B} (f : Z -> M B) :
  target_ok LocalCalls tgt -> (forall a, costs n k (f a)) -> 0 <= n ->
  places call_bytes LocalCalls tgt (5 + n) (1 + k) (emit1 0xe8;; a ← emit_local_call_address_reloc tgt; f a).
Proof.
  intros Ht Hf Hn st Hroom. destruct (places_after call_bytes LocalCalls tgt 5 1 n k
    (emit1 0xe8;; emit_local_call_address_reloc tgt) f) with (st := st) as (b & its & E & H1 & H2); [| done | lia | done | done |].
  - eapply places_emits; [apply (emits_puts_seq _ [0xe8]); [apply puts_emit1 | apply emits_local_call_address_reloc] | |].
    + split_and!; [done | intros []; vm_compute; lia | by repeat constructor].
    + by exists [], 0, [].
  - exists b, its. split; [| done]. rewrite <- E. symmetry. apply bind_assoc.
Qed.

#[local] Hint Resolve places_emit_jcc places_emit_jmp : emit.

(** Finds the emitter that leaves the slot; the rest is bounded by [solve_costs]. *)
Ltac solve_places :=
  cbv beta zeta;
  lazymatch goal with
  | |- places _ _ _ _ _ (mbind _ ?m) =>
      first [eapply places_local_call; [assumption | intros ?; solve_costs |]
            | eapply places_after; [solve [eauto with emit] | intros ?; solve_costs | |]
            | eapply places_before; [solve_costs | intros ?; solve_places | |]]
  | |- _ => solve [eauto with emit]
  end.

Ltac places_sum := eapply places_weaken; [solve_places | |]; cbn; lia.

Lemma places_jump_inst vm op inst s d tgt :
  class_of op = ClassJump -> target_ok Jumps tgt -> is_near tgt = false ->
  places (jump_bytes (opcode_of op)) Jumps tgt 32 1 (emit_jump_inst vm op inst s d tgt).
Proof. intros Hc Ht Hn. unfold emit_jump_inst. cbv zeta. destruct op; discriminate Hc || places_sum. Qed.

Lemma places_jump32_inst vm op inst s d tgt :
  class_of op = ClassJump32 -> target_ok Jumps tgt ->
  places (jump_bytes (opcode_of op)) Jumps tgt 32 1 (emit_jump32_inst vm op inst s d tgt).
Proof. intros Hc Ht. unfold emit_jump32_inst. cbv zeta. destruct op; discriminate Hc || places_sum. Qed.

Lemma places_call_inst vm rm i inst :
  length rm = 11%nat -> inst.(src) = 1 -> 0 <= u32 (i + inst.(imm) + 1) <= UBPF_MAX_INSTS ->
  places call_bytes LocalCalls (ebpf_target (i + inst.(imm) + 1)) 128 4 (emit_call_inst vm rm i inst).
Proof.
  intros Hrm Hs Hpc. unfold emit_call_inst. rewrite Hs. cbn [Z.eqb Pos.eqb].
  assert (target_ok LocalCalls (ebpf_target (i + inst.(imm) + 1))) by (by cbn).
  unfold emit_local_call. places_sum.
Qed.

(** *** The start of a local function *)

Definition prolog_bytes (usage : Z) : list Z :=
  (alu_bytes 1 0x81 5 RSP ++ le_encode 4 8) ++ [0x48; 0xc7; 0x04; 0x24] ++ le_encode 4 usage.

Lemma length_prolog_bytes u : length (prolog_bytes u) = 15%nat.
Proof. unfold prolog_bytes. rewrite !length_app, !length_le_encode. reflexivity. Qed.

Lemma emit_function_prolog_run vm i usage st :
  ubpf_stack_usage_for_local_func vm i = Some usage ->
  st.(bpf_function_prolog_size) = 0 \/ st.(bpf_function_prolog_size) = 15 ->
  ready [Bytes (prolog_bytes usage)] st ->
  emit_function_prolog vm i st =
  Some (tt, set_bpf_function_prolog_size 15 (asm [Bytes (prolog_bytes usage)] st)).
Proof.
  intros Hu Hp (Hok & Hlen & _). rewrite code_len_cons in Hlen. cbn [item_bytes] in Hlen.
  rewrite length_prolog_bytes in Hlen. pose proof (code_len_nonneg []).
  unfold emit_function_prolog. unfold mbind at 1, M_bind at 1, gets at 1.
  unfold mbind at 1, M_bind at 1, lift at 1. rewrite Hu. cbn [fmap option_fmap option_map].
  rewrite <- (put_nil st) at 1.
  do 6 (eapply run_seq; [solve [eauto with emit] | done | len_lia |]). apply run_gets.
  unfold mbind, M_bind, gets. cbn [put set_joffset set_buf bpf_function_prolog_size].
  match goal with |- context [put ?l st] => assert (l = prolog_bytes usage) as -> by reflexivity end.
  rewrite length_prolog_bytes. replace (joffset st + Z.of_nat 15 - joffset st) with 15 by lia.
  destruct Hp as [E | E]; rewrite E.
  - done.
  - by rewrite set_prolog_id.
Qed.

(** The code before an instruction: nothing in the middle of a function; at its
    start the set-up of the host stack, with a jump around it if the function can
    be fallen into. *)
Definition near_target (o : Z) : PatchableTarget := Regular (MkRegular 0 (u32 (o + 20)) true).

Inductive start_items (vm : ubpf_vm) (i : Z) (o : Z) : list item -> Prop :=
| StartNone : function_start vm i = false -> start_items vm i o []
| StartPlain usage :
    function_start vm i = true -> ubpf_stack_usage_for_local_func vm i = Some usage ->
    start_items vm i o [Bytes (prolog_bytes usage)]
| StartJump usage :
    function_start vm i = true -> ubpf_stack_usage_for_local_func vm i = Some usage ->
    start_items vm i o [Bytes [0xeb]; Slot Jumps (near_target o) 0; Bytes (prolog_bytes usage)].

(** ... and the state after it. *)
Definition started (st : jit_state) (pre : list item) : jit_state :=
  match pre with
  | [] => st
  | _ => set_bpf_function_prolog_size 15 (asm pre st)
  end.

Section Loaded.
Context `{HostEnv} (vm : ubpf_vm) (prog : list ebpf_inst) (rm : list Z).
Context (Hld : loaded vm prog) (Hrm : length rm = 11%nat).

(** The switch is an emitter of bounded code that leaves the slot of a jump or a
    local call after the opcode of the processor. *)
Definition switch_code (i : Z) (inst : ebpf_inst) (op : ebpf_op) (m : M unit) : Prop :=
  costs 128 4 m /\
  (group_of op = GroupJump -> places (jump_bytes (opcode_of op)) Jumps (ebpf_target (jump_target_pc i inst)) 128 4 m) /\
  (op = EBPF_OP_CALL -> inst.(src) = 1 -> places call_bytes LocalCalls (ebpf_target (i + inst.(imm) + 1)) 128 4 m).

Lemma switch_code_plain i inst op (m : M unit) n k :
  group_of op <> GroupJump -> op <> EBPF_OP_CALL -> costs n k m -> n <= 128 -> (k <= 4)%nat -> switch_code i inst op m.
Proof. intros. split_and!; [by eapply costs_weaken | done | done]. Qed.

Lemma switch_code_jump i inst op (m : M unit) :
  op <> EBPF_OP_CALL -> costs 32 1 m -> places (jump_bytes (opcode_of op)) Jumps (ebpf_target (jump_target_pc i inst)) 32 1 m ->
  switch_code i inst op m.
Proof.
  intros. split_and!; [eapply costs_weaken; [done | lia | lia] | | done].
  intros _. eapply places_weaken; [done | lia | lia].
Qed.

Lemma emit_switch_ok i inst op s d :
  0 <= i -> inst_checked vm prog i inst op ->
  exists m : M unit, switch_code i inst op m /\
    forall st, emit_switch vm rm i inst s d (ebpf_target (jump_target_pc i inst)) st =
               (m;; mret (Continue (last_slot i inst) None)) st.
Proof.
  intros Hi [Hop _ _ _ Hg]. unfold emit_switch, last_slot. rewrite Hop.
  pose proof (class_group op) as Hc. pose proof (is_lddw_op inst op Hop) as Hl.
  assert (op <> EBPF_OP_LDDW -> is_lddw inst = false) as Hnl.
  { intros Hne. destruct (is_lddw inst); [| done]. by destruct Hne; apply Hl. }
  assert (class_of op <> ClassJump -> class_of op <> ClassJump32 -> group_of op <> GroupJump) as Hnj by by destruct op.
  assert (class_of op <> ClassCall -> op <> EBPF_OP_CALL) as Hnc by by destruct op.
  pose proof (loaded_length vm prog Hld) as Hlen.
  destruct (class_of op) eqn:E; try (specialize (Hnj ltac:(done) ltac:(done)));
    try (specialize (Hnc ltac:(done))); try (rewrite Hnl by (done || (intros ->; done)); clear Hnl).
  - eexists; split; [| reflexivity]. by eapply switch_code_plain; [| | apply costs_alu32_inst | |]; try lia.
  - eexists; split; [| reflexivity]. by eapply switch_code_plain; [| | apply costs_endian_inst | |]; try lia.
  - eexists; split; [| reflexivity]. by eapply switch_code_plain; [| | apply costs_alu64_inst | |]; try lia.
  - rewrite Hc in Hg. destruct Hg as (_ & Ht & _). pose proof (jump_target_ok _ _ _ Hlen Ht).
    eexists; split; [| reflexivity]. apply switch_code_jump; [done | by apply costs_jump_inst | by apply places_jump_inst].
  - rewrite Hc in Hg. destruct Hg as (_ & Ht & _). pose proof (jump_target_ok _ _ _ Hlen Ht).
    eexists; split; [| reflexivity]. apply switch_code_jump; [done | by apply costs_jump32_inst | by apply places_jump32_inst].
  - subst op. eexists; split; [| reflexivity].
    assert (src inst = 1 -> 0 <= u32 (i + imm inst + 1) <= UBPF_MAX_INSTS) as Hpc.
    { intros Hs. destruct Hg as [[? _] | (_ & Ht & _)]; [lia |]. rewrite (call_target_u32 prog) by done. lia. }
    split_and!; [by apply costs_call_inst | done |]. intros _ Hs. apply places_call_inst; auto.
  - exists (emit_alu64_imm32 0x81 0 RSP 8;; emit_ret).
    split; [apply (switch_code_plain _ _ _ _ 128 4); [done | done | unfold emit_ret; costs_sum | lia | lia] |].
    intros st. by rewrite bind_assoc.
  - eexists; split; [| reflexivity]. by eapply switch_code_plain; [| | apply costs_memory_inst | |]; try lia.
  - subst op. rewrite (proj2 Hl) by done. destruct Hg as (_ & Hn & _).
    destruct (lookup_lt_is_Some_2 prog (Z.to_nat (i + 1)) ltac:(lia)) as [inst2 H2].
    rewrite (ld_fetch _ _ Hld) by (rewrite (ld_num_insts _ _ Hld); lia). rewrite H2.
    eexists; split; [| reflexivity]. by eapply switch_code_plain; [| | apply costs_EMIT_LOAD_IMM | |]; try lia.
  - rewrite Hc in Hg. destruct (atomic64_known i inst s d Hg) as (m & Hm & Em).
    exists m. split; [by eapply switch_code_plain; [| | exact Hm | |]; try lia |]. intros st. rewrite Em, bind_assoc. done.
  - rewrite Hc in Hg. destruct (atomic32_known rm i inst s d Hrm Hg) as (m & Hm & Em).
    exists m. split; [by eapply switch_code_plain; [| | exact Hm | |]; try lia |]. intros st.
    unfold mbind at 1, M_bind at 1. rewrite Em. unfold mbind, M_bind. by destruct (m st) as [[] |].
Qed.

(** ... that is, the code of an instruction. *)
Record inst_code (i : Z) (inst : ebpf_inst) (op : ebpf_op) (code : list item) : Prop := InstCode {
  ic_budget : in_budget 128 4 code;
  ic_jump : group_of op = GroupJump ->
    slot_after (jump_bytes (opcode_of op)) Jumps (ebpf_target (jump_target_pc i inst)) code;
  ic_call : op = EBPF_OP_CALL -> inst.(src) = 1 ->
    slot_after call_bytes LocalCalls (ebpf_target (i + inst.(imm) + 1)) code;
}.

Lemma emit_switch_run i inst op s d st :
  0 <= i -> inst_checked vm prog i inst op -> room 128 4 st ->
  exists code, inst_code i inst op code /\
    emit_switch vm rm i inst s d (ebpf_target (jump_target_pc i inst)) st =
    Some (Continue (last_slot i inst) None, asm code st).
Proof.
  intros Hi Hck Hroom. destruct (emit_switch_ok i inst op s d Hi Hck) as (m & (Hc & Hj & Hl) & E).
  rewrite E. unfold mbind, M_bind.
  destruct (decide (group_of op = GroupJump)) as [Hg |].
  { destruct (Hj Hg st Hroom) as ([] & code & -> & ? & ?). exists code.
    split; [constructor; [done | done | by intros ->] | done]. }
  destruct (decide (op = EBPF_OP_CALL /\ src inst = 1)) as [[-> Hs] |].
  { destruct (Hl eq_refl Hs st Hroom) as ([] & code & -> & ? & ?). exists code.
    split; [constructor; done | done]. }
  destruct (Hc st Hroom) as ([] & code & -> & ?). exists code. split; [| done]. constructor; [done | done | naive_solver].
Qed.

Lemma fallthrough_jump_run (v : ubpf_vm) i prev st :
  i <> 0 -> ubpf_fetch_instruction v (i - 1) = Some prev ->
  emit_fallthrough_jump v i true st =
  if ubpf_instruction_has_fallthrough prev
  then (source ← emit_jmp (Regular (MkRegular 0 0 true)); mret (Some source)) st else Some (None, st).
Proof.
  intros Hi Hf. unfold emit_fallthrough_jump. rewrite (proj2 (Z.eqb_neq i 0)) by done. cbn [negb andb].
  unfold mbind at 1, M_bind at 1, lift. rewrite Hf. cbn. by destruct (ubpf_instruction_has_fallthrough prev).
Qed.

Lemma emit_function_start_run i st :
  0 <= i < vm.(num_insts) -> room 20 1 st ->
  st.(bpf_function_prolog_size) = 0 \/ st.(bpf_function_prolog_size) = 15 ->
  exists pre, start_items vm i st.(joffset) pre /\ emit_function_start vm i st = Some (tt, started st pre).
Proof.
  intros Hi Hroom Hp. unfold emit_function_start.
  assert (forall u, ready [Bytes (prolog_bytes u)] st) as Hr.
  { intros u. eapply ready_bounds; [exact Hroom | | intros []; vm_compute; lia].
    rewrite code_len_cons. cbn [item_bytes]. rewrite length_prolog_bytes. vm_compute. discriminate. }
  destruct (Z.eqb_spec i 0) as [-> | Hne].
  { destruct (usage_at_start vm prog Hld 0 Hi) as [u Hu]; [by left |]. exists [Bytes (prolog_bytes u)]. split; [by constructor |].
    unfold mbind, M_bind. cbn [mret M_ret emit_fallthrough_jump Z.eqb negb andb orb when].
    rewrite (emit_function_prolog_run vm 0 u) by done. done. }
  destruct (ld_int_funcs _ _ Hld) as (flags & Ef & Hl & _).
  destruct (lookup_lt_is_Some_2 flags (Z.to_nat i)) as [b Hb]; [rewrite (ld_num_insts _ _ Hld) in Hi; lia |].
  assert ((lift (flags ← vm.(int_funcs); flags !! Z.to_nat i) : M bool) st = Some (b, st)) as E1
    by (unfold lift; rewrite Ef; cbn [mbind option_bind]; by rewrite Hb).
  unfold mbind at 1, M_bind at 1. rewrite E1. cbn [orb].
  assert (function_start vm i = b) as Hfs.
  { unfold function_start. rewrite (proj2 (Z.eqb_neq i 0)), Ef by done. cbn [mbind option_bind]. by rewrite Hb. }
  destruct b; [| exists []; split; [by constructor |]; unfold emit_fallthrough_jump; by rewrite andb_false_r].
  destruct (usage_at_start vm prog Hld i Hi) as [u Hu]; [eauto |].
  destruct (lookup_lt_is_Some_2 prog (Z.to_nat (i - 1))) as [prev Hprev]; [rewrite (ld_num_insts _ _ Hld) in Hi; lia |].
  unfold mbind at 1, M_bind at 1. rewrite (fallthrough_jump_run vm i prev st) by (rewrite ?(ld_fetch _ _ Hld (i - 1)); done || lia).
  destruct (ubpf_instruction_has_fallthrough prev).
  - exists [Bytes [0xeb]; Slot Jumps (near_target st.(joffset)) 0; Bytes (prolog_bytes u)]. split; [by constructor |].
    assert (forall tgt, ready [Bytes [0xeb]; Slot Jumps tgt 0; Bytes (prolog_bytes u)] st) as Hr3.
    { intros tgt. eapply ready_bounds; [exact Hroom | | intros []; vm_compute; lia].
      rewrite !code_len_cons. cbn [item_bytes]. rewrite length_prolog_bytes. vm_compute. discriminate. }
    set (n0 := Regular (MkRegular 0 0 true)) in *. destruct (ready_app [Bytes [0xeb]; Slot Jumps n0 0] _ _ (Hr3 n0)) as [Hr1 Hr2].
    assert ((source ← emit_jmp n0; mret (Some source)) st =
            Some (Some (joffset st + 1), asm [Bytes [0xeb]; Slot Jumps n0 0] st)) as ->
      by (unfold mbind, M_bind; by rewrite emits_emit_jmp).
    cbn [when orb]. unfold mbind at 1, M_bind at 1.
    rewrite (emit_function_prolog_run vm i u (asm [Bytes [0xeb]; Slot Jumps n0 0] st) Hu Hp Hr2).
    rewrite <- asm_app. cbn [app]. unfold mbind, M_bind, gets. rewrite modify_jumps_prolog.
    assert (joffset (set_bpf_function_prolog_size 15 (asm [Bytes [0xeb]; Slot Jumps n0 0; Bytes (prolog_bytes u)] st)) =
            joffset st + 20) as ->.
    { cbn [joffset set_bpf_function_prolog_size]. rewrite (asm_offset _ _ (Hr3 n0)), !code_len_cons. cbn [item_bytes].
      rewrite length_prolog_bytes. reflexivity. }
    pose proof (retarget_asm [Bytes [0xeb]] [Bytes (prolog_bytes u)] n0 (near_target (joffset st)) 0 st (Hr3 n0)) as E.
    change (joffset (asm [Bytes [0xeb]] st)) with (joffset st + 1) in E. cbn [app] in E.
    unfold near_target in E. by rewrite E.
  - exists [Bytes (prolog_bytes u)]. split; [by constructor |]. cbn [when].
    unfold mbind, M_bind. rewrite (emit_function_prolog_run vm i u) by done. done.
Qed.
End Loaded.
