(* ===== verification/X86Link.v ===== *)
(** * X86Link: the patching pass of the x86-64 back end

    The back end as an instance of [Linker], and so [resolve_patchable_relatives]
    as a linker: it replaces every slot of the code by the relative address of the
    place it stands for, and changes no other byte ([resolve_links]). *)

From Stdlib Require Import ZArith Lia Bool.
From stdpp Require Import base list gmap strings numbers.
From S2P Require Import Prelude Ebpf Mem Vm JitSupport JitAsm JitLink X86Emit X86Trans X86Cost.

Local Open Scope Z_scope.

(** ** The linker *)

(** The position a slot stands for. *)
Definition slot_target (st : jit_state) (t : slot_table) (tgt : PatchableTarget) : Z :=
  match t, tgt with
  | Jumps, Special Exit => st.(exit_loc)
  | Jumps, Special _ => st.(retpoline_loc)
  | Jumps, Regular r =>
      if r.(jit_target_pc) =? 0 then default 0 (st.(pc_locs) !! r.(ebpf_target_pc)) else r.(jit_target_pc)
  | LocalCalls, Regular r => default 0 (st.(pc_locs) !! r.(ebpf_target_pc)) - st.(bpf_function_prolog_size)
  | Loads, _ => st.(dispatcher_loc)
  | Leas, _ => st.(helper_table_loc)
  | _, _ => 0
  end.

(** The bytes of a slot at [off]: the distance from the end of the field. *)
Definition slot_bytes (st : jit_state) (t : slot_table) (tgt : PatchableTarget) (off : Z) : list Z :=
  if is_near tgt then le_encode 1 (slot_target st t tgt - (off + 1)) ++ [0; 0; 0]
  else le_encode 4 (slot_target st t tgt - (off + 4)).

(** What can be linked: an empty slot for a known target, or the jump around the
    stack set-up of a function. *)
Definition x86_linkable (t : slot_table) (tgt : PatchableTarget) (w off : Z) : Prop :=
  w = 0 /\ (target_ok t tgt \/ (t = Jumps /\ tgt = Regular (MkRegular 0 (u32 (off + 19)) true))).

Lemma items_ok_forall off its : Forall item_ok its -> items_ok x86_linkable off its.
Proof.
  intros H. apply items_ok_intro. intros a t tgt w b ->. apply Forall_app in H as [_ H].
  apply list.Forall_cons in H as [[-> Ht] _]. split; [done | by left].
Qed.

Lemma length_slot_bytes st t tgt off : length (slot_bytes st t tgt off) = 4%nat.
Proof. unfold slot_bytes. destruct (is_near _); rewrite ?length_app, !length_le_encode; done. Qed.

(** ** The four passes *)

Definition resolve_one (t : slot_table) : patchable_relative -> M bool :=
  match t with
  | Jumps => resolve_jump
  | LocalCalls => resolve_local_call
  | Loads => resolve_load
  | Leas => resolve_lea
  end.

(** A write followed by a successful return. *)
Lemma memcpy_true off v st :
  0 <= off -> off + 4 <= Z.of_nat (length st.(buf)) ->
  (memcpy_buf off (le_encode 4 v);; mret true : M bool) st = Some (true, set_buf (write_bytes st.(buf) off (le_encode 4 v)) st).
Proof. intros. unfold mbind, M_bind. rewrite memcpy_run by (rewrite ?length_le_encode; lia). done. Qed.

(** A jump to a known position. *)
Lemma resolve_jump_far tgt off loc st :
  0 <= off -> off + 4 <= Z.of_nat (length st.(buf)) -> is_near tgt = false ->
  jump_target_loc st tgt = Some (Some loc) ->
  resolve_jump (Patch off tgt) st = Some (true, set_buf (write_bytes st.(buf) off (le_encode 4 (loc - (off + 4)))) st).
Proof.
  intros H0 H4 Hn Hj. unfold resolve_jump. unfold mbind at 1, M_bind at 1. cbn [target offset_loc]. rewrite Hj.
  cbn [fmap option_fmap option_map]. rewrite Hn, le_encode_wrap by done. by apply memcpy_true.
Qed.

Lemma jump_target_loc_ok tgt st :
  target_ok Jumps tgt -> is_near tgt = false /\ jump_target_loc st tgt = Some (Some (slot_target st Jumps tgt)).
Proof.
  destruct tgt as [[] | [e j n]]; cbn; try done. intros [-> Ht]. split; [done |].
  destruct (Z.eqb_spec j 0); [| done]. destruct Ht; [done |]. cbn [negb]. by rewrite pc_loc_in by done.
Qed.

(** The jump around a function's stack set-up always fits in one byte. *)
Lemma resolve_near off st :
  0 <= off -> off + 19 < 2 ^ 32 -> off + 4 <= Z.of_nat (length st.(buf)) -> bytes_at st.(buf) off 4 = [0; 0; 0; 0] ->
  let tgt := Regular (MkRegular 0 (u32 (off + 19)) true) in
  resolve_jump (Patch off tgt) st =
  Some (true, set_buf (write_bytes st.(buf) off (slot_bytes st Jumps tgt off)) st).
Proof.
  intros H0 H19 H4 Hz tgt. unfold resolve_jump, slot_bytes. unfold mbind at 1, M_bind at 1.
  cbn [target offset_loc jump_target_loc tgt jit_target_pc slot_target is_near near]. rewrite wrap_id by lia.
  rewrite (proj2 (Z.eqb_neq _ _)) by lia. cbn [negb fmap option_fmap option_map].
  replace (off + 19 - (off + 1)) with 18 by lia. change (s32 18) with 18. change (negb _) with false. cbv iota.
  unfold mbind, M_bind, poke. rewrite memcpy_run by (cbn; lia). unfold mret, M_ret. do 3 f_equal.
  rewrite <- (write_bytes_same (buf st) off 4 [0; 0; 0; 0]) at 1 by (done || lia).
  exact (write_bytes_over (buf st) off [0] (le_encode 1 18) [0; 0; 0] eq_refl H0 ltac:(cbn; lia)).
Qed.

(** What each pass does to one of its slots. *)
Lemma resolve_one_ok t tgt w off st :
  x86_linkable t tgt w off -> 0 <= off -> off + 19 < 2 ^ 32 -> off + 4 <= Z.of_nat (length st.(buf)) ->
  bytes_at st.(buf) off 4 = le_encode 4 w ->
  resolve_one t (Patch off tgt) st = Some (true, set_buf (write_bytes st.(buf) off (slot_bytes st t tgt off)) st).
Proof.
  intros [-> [Ht | [-> ->]]] H0 H19 H4 Hz; [| by apply resolve_near].
  destruct t; cbn [resolve_one]; unfold slot_bytes.
  - destruct (jump_target_loc_ok _ st Ht) as [En Hj]. rewrite En. by apply resolve_jump_far.
  - destruct tgt as [| [e j n]]; [done |]. cbn in Ht. destruct Ht as (-> & -> & He).
    unfold resolve_local_call, mbind, M_bind, gets.
    cbn [target jit_target_pc ebpf_target_pc offset_loc Z.eqb assertion mret M_ret]. rewrite pc_loc_in by done.
    cbn [fmap option_fmap option_map is_near near slot_target ebpf_target_pc].
    rewrite wrap_sub_l, le_encode_wrap by done. rewrite memcpy_run by (rewrite ?length_le_encode; lia).
    unfold mret, M_ret. do 5 f_equal. lia.
  - destruct tgt as [[] |]; try done. unfold resolve_load. rewrite decide_True by done.
    unfold mbind at 1, M_bind at 1, gets. cbn [offset_loc]. rewrite le_encode_wrap by done. by apply memcpy_true.
  - destruct tgt as [[] |]; try done. unfold resolve_lea. rewrite decide_True by done.
    unfold mbind at 1, M_bind at 1, gets. cbn [offset_loc]. rewrite le_encode_wrap by done. by apply memcpy_true.
Qed.

#[export, refine] Instance x86_linker : Linker := {|
  linkable := fun _ => x86_linkable;
  filled := fun st t tgt _ off => slot_bytes st t tgt off;
  resolve_slot := resolve_one;
|}.
Proof.
  - intros. apply length_slot_bytes.
  - intros st t tgt w off b Hl H0 H4 Hw Hb. by rewrite (resolve_one_ok t tgt w) by (done || cbn [buf set_buf]; lia).
Defined.

(** The patching pass links the code: every slot gets the distance to the place
    it stands for, every other byte stays. *)
Lemma resolve_links buffer its st :
  laid_out buffer its st -> items_ok x86_linkable 0 its ->
  resolve_patchable_relatives st = Some (true, set_buf (linked_code buffer its st) st).
Proof.
  intros Hlo Hok. pose proof (resolve_pass buffer its st Hlo Hok) as Hpass.
  pose proof (Hpass Jumps [] ltac:(by apply (bool_decide_unpack _))) as P1.
  pose proof (Hpass LocalCalls [Jumps] ltac:(by apply (bool_decide_unpack _))) as P2.
  pose proof (Hpass Loads [LocalCalls; Jumps] ltac:(by apply (bool_decide_unpack _))) as P3.
  pose proof (Hpass Leas [Loads; LocalCalls; Jumps] ltac:(by apply (bool_decide_unpack _))) as P4.
  cbn [resolve_slot resolve_one x86_linker table_of] in *.
  unfold resolve_patchable_relatives, mbind, M_bind, gets. rewrite (linked_none buffer its st Hlo) at 1 2.
  cbn [jumps set_buf]. rewrite P1. cbn [negb local_calls set_buf]. rewrite P2. cbn [negb loads set_buf]. rewrite P3.
  cbn [negb leas set_buf]. rewrite P4. rewrite linked_all; [done |]. intros []; set_solver.
Qed.
