(* ===== verification/X86Correct.v ===== *)
(** * X86Correct: what the x86-64 back end makes of a loaded program

    The invariant of the translation loop and the image it ends with: where the code
    of every instruction lies, what it contains, and the data behind it. *)

From Stdlib Require Import ZArith Lia Bool.
From stdpp Require Import base list gmap strings numbers.
From S2P Require Import Prelude Ebpf InstValid Mem Vm Validate Load JitSupport JitAsm JitLink JitProg X86Emit X86Trans X86Cost X86Sound X86Link.

Local Open Scope Z_scope.
Local Open Scope cbits_scope.

(** ** The code of the program *)

(** The code of the instruction at [k] in [its]: what goes before it, the code
    itself and the truncation of a 32-bit result; the instructions after [k] have
    their code behind it. *)
Record placed (vm : ubpf_vm) (its : list item) (locs : gmap Z Z) (k : Z) (inst : ebpf_inst) (op : ebpf_op) : Prop :=
Placed {
  pl_code : exists a pre code trunc b,
    its = a ++ pre ++ code ++ trunc ++ b /\ locs !! k = Some (code_len (a ++ pre)) /\
    start_items vm k (code_len a) pre /\ inst_code k inst op code /\
    forall j q, k < j -> locs !! j = Some q -> code_len (a ++ pre ++ code ++ trunc) <= q;
}.

Lemma placed_app vm its its' locs k inst op :
  placed vm its locs k inst op -> placed vm (its ++ its') locs k inst op.
Proof.
  intros [(a & pre & code & trunc & b & -> & Hl & Hs & Hc & Hj)]. constructor.
  exists a, pre, code, trunc, (b ++ its'). split_and!; try done. by rewrite <- !app_assoc.
Qed.

(** The position of a later instruction is recorded. *)
Lemma placed_insert vm its its' locs k inst op i :
  placed vm its locs k inst op -> k < i -> placed vm (its ++ its') (<[i := code_len (its ++ its')]> locs) k inst op.
Proof.
  intros Hpl%(placed_app _ _ its') Hki. destruct Hpl as [(a & pre & code & trunc & b & E & Hl & Hs & Hc & Hj)]. constructor.
  exists a, pre, code, trunc, b. rewrite lookup_insert_ne by lia. split_and!; try done. intros j q Hkj.
  destruct (decide (j = i)) as [-> |]; [| rewrite lookup_insert_ne by done; by apply Hj].
  rewrite lookup_insert_eq. intros [= <-]. rewrite E, !code_len_app. pose proof (code_len_nonneg b). lia.
Qed.

(** What holds before the turn of the loop for slot [i]. *)
Record loop_inv (vm : ubpf_vm) (prog : list ebpf_inst) (buffer : list Z) (i : Z) (its : list item) (st : jit_state)
    : Prop := LoopInv {
  li_laid : laid_out buffer its st;
  li_bytes : code_len its <= 64 + 160 * i;
  li_slots : forall t, Z.of_nat (slots_in t its) <= 1 + 5 * i;
  li_ok : items_ok x86_linkable 0 its;
  li_prolog : st.(bpf_function_prolog_size) = if i =? 0 then 0 else 15;
  li_locs : forall j q, st.(pc_locs) !! j = Some q -> j < i;
  li_placed : forall k inst, start prog k -> k < i -> prog !! Z.to_nat k = Some inst ->
    exists op, switch_op inst.(opcode) = Some op /\ placed vm its st.(pc_locs) k inst op;
}.

Lemma laid_out_x86_fits buffer its st n k :
  laid_out buffer its st -> code_len its + n <= Z.of_nat (length buffer) ->
  (forall t, Z.of_nat (slots_in t its + k) <= UBPF_MAX_INSTS) -> fits buffer its n k.
Proof.
  intros [[] _ El _ _] Hn Hk. constructor; [done | cbn; lia | apply Z.divide_1_l | done].
Qed.

Lemma laid_out_room buffer its st n k :
  laid_out buffer its st -> code_len its + n <= Z.of_nat (length buffer) ->
  (forall t, Z.of_nat (slots_in t its + k) <= UBPF_MAX_INSTS) -> room n k st.
Proof. intros Hlo ? ?. eapply fits_room; [exact Hlo | by eapply laid_out_x86_fits | lia | lia]. Qed.

(** *** What goes before an instruction *)

Lemma start_items_facts vm i o pre :
  start_items vm i o pre ->
  code_len pre <= 20 /\ (forall t, (slots_in t pre <= 1)%nat) /\ items_ok x86_linkable o pre /\
  (function_start vm i = true -> pre <> []) .
Proof.
  assert (forall u, code_len [Bytes (prolog_bytes u)] = 15) as Hp by done.
  intros [Hf | u Hf Hu | u Hf Hu]; (split; [| split; [intros []; vm_compute; lia | split]]); try done; try (cbn; congruence).
  split; [done |]. split; [| done]. split; [done |]. right. split; [done |]. unfold near_target. do 3 f_equal. cbn. lia.
Qed.

Lemma started_laid_out buffer its st pre :
  laid_out buffer its st -> ready pre st -> laid_out buffer (its ++ pre) (started st pre).
Proof.
  intros Hlo Hr. pose proof (laid_out_asm _ _ _ _ Hlo Hr) as Hlo'.
  destruct pre; [by rewrite app_nil_r |]. eapply laid_out_set; [exact Hlo' | done ..| by intros []].
Qed.

Lemma started_fields st pre :
  ready pre st ->
  (started st pre).(pc_locs) = st.(pc_locs) /\
  (started st pre).(bpf_function_prolog_size) = match pre with [] => st.(bpf_function_prolog_size) | _ => 15 end.
Proof.
  intros Hr. destruct (asm_assembled _ _ Hr). by destruct pre.
Qed.

(** ** One turn of the loop *)

Section Turn.
Context `{HostEnv} (vm : ubpf_vm) (prog : list ebpf_inst) (rm : list Z) (buffer : list Z).
Context (Hld : loaded vm prog) (Hrm : length rm = 11%nat).

Lemma map_register_run r st :
  0 <= r < 11 -> exists x, map_register rm r st = Some (x, st).
Proof.
  intros Hr. unfold map_register, assertion, lift, mbind, M_bind, mret, M_ret.
  rewrite (proj2 (Z.ltb_lt _ _)) by (unfold _BPF_REG_MAX; lia). unfold _BPF_REG_MAX. rewrite Z.mod_small by lia.
  destruct (lookup_lt_is_Some_2 rm (Z.to_nat r) ltac:(lia)) as [x ->]. by exists x.
Qed.

Lemma truncation_run (b : bool) d (r : turn) st :
  room 7 0 st -> exists trunc, in_budget 7 0 trunc /\
    (when b (emit_truncate_u32 d);; mret r) st = Some (r, asm trunc st).
Proof.
  intros Hroom. assert (costs 7 0 (when b (emit_truncate_u32 d))) as Hc by (apply costs_when; [auto with emit | lia]).
  destruct (Hc st Hroom) as ([] & its & E & Hb). exists its. split; [done |]. unfold mbind, M_bind. by rewrite E.
Qed.

(** The start of a function at the front of the invariant. *)
Lemma function_start_laid i its st :
  0 <= i < vm.(num_insts) -> laid_out buffer its st -> room 20 1 st ->
  st.(bpf_function_prolog_size) = (if i =? 0 then 0 else 15) ->
  exists pre, start_items vm i (code_len its) pre /\ emit_function_start vm i st = Some (tt, started st pre) /\
    laid_out buffer (its ++ pre) (started st pre) /\ (started st pre).(pc_locs) = st.(pc_locs) /\
    (started st pre).(bpf_function_prolog_size) = 15.
Proof.
  intros Hi Hlo Hroom Hp.
  destruct (emit_function_start_run vm prog rm Hld Hrm i st Hi Hroom) as (pre & Hpre & Erun).
  { rewrite Hp. destruct (i =? 0); auto. }
  rewrite (lo_offset _ _ _ Hlo) in Hpre. destruct (start_items_facts _ _ _ _ Hpre) as (Hlen & Hsl & _ & Hne).
  assert (ready pre st) as Hr by (eapply ready_bounds; eauto). exists pre.
  destruct (started_fields st pre Hr) as [E1 E2]. split_and!; try done; [by apply started_laid_out |].
  rewrite E2, Hp. destruct pre; [| done]. destruct (Z.eqb_spec i 0) as [-> |]; [| done]. by destruct Hne.
Qed.

(** The switch and the truncation. *)
Lemma code_run i inst op its st s d :
  0 <= i -> inst_checked vm prog i inst op -> laid_out buffer its st -> room 135 4 st ->
  exists code trunc, inst_code i inst op code /\ in_budget 7 0 trunc /\
    (t ← emit_switch vm rm i inst s d (ebpf_target (jump_target_pc i inst));
     match t with
     | Return e => mret (Return e)
     | Continue i' msg => when (is_alu32 inst.(opcode)) (emit_truncate_u32 d);; mret (Continue (i' + 1) msg)
     end) st = Some (Continue (last_slot i inst + 1) None, asm (code ++ trunc) st) /\
    laid_out buffer (its ++ code ++ trunc) (asm (code ++ trunc) st) /\ ready (code ++ trunc) st.
Proof.
  intros Hi Hck Hlo Hroom.
  destruct (emit_switch_run vm prog rm Hld Hrm i inst op s d st Hi Hck) as (code & Hcode & Ecode);
    [eapply room_weaken; [exact Hroom | lia | lia] |].
  assert (room 7 0 (asm code st)) as Hroom'.
  { apply (room_asm 128 4); [done | apply Hcode | lia]. }
  destruct (truncation_run (is_alu32 inst.(opcode)) d (Continue (last_slot i inst + 1) None) _ Hroom')
    as (trunc & Htr & Etr).
  exists code, trunc. split; [done |]. split; [done |].
  assert (ready (code ++ trunc) st) as Hr.
  { eapply room_ready; [exact Hroom |]. apply (in_budget_app 128 4 7 0); [apply Hcode | done]. }
  split; [| split; [by apply laid_out_asm | done]]. unfold mbind at 1, M_bind at 1. rewrite Ecode, asm_app. exact Etr.
Qed.

Lemma translate_inst_run i inst its st :
  start prog i -> prog !! Z.to_nat i = Some inst -> loop_inv vm prog buffer i its st ->
  64 + 160 * (i + 1) <= Z.of_nat (length buffer) -> 1 + 5 * (i + 1) <= UBPF_MAX_INSTS ->
  exists its' st', translate_inst vm rm i st = Some (Continue (last_slot i inst + 1) None, st') /\
    loop_inv vm prog buffer (last_slot i inst + 1) (its ++ its') st'.
Proof.
  intros Hs Hinst [Hlo Hbytes Hslots Hok Hprolog Hlocs Hplaced] Hbuf Hmax.
  destruct (loaded_inst vm prog Hld i inst Hs Hinst) as (Hf & Hd & Hsr & op & Hck).
  pose proof (start_from_ge _ _ _ Hs) as Hi. pose proof (lookup_lt_Some _ _ _ Hinst) as Hlt.
  assert (room 160 5 st) as Hroom.
  { eapply laid_out_room; [done | lia |]. intros t. specialize (Hslots t). lia. }
  destruct (function_start_laid i its st) as (pre & Hpre & Erun & Hlo1 & Eloc & Epro); [.. | done |];
    [rewrite (ld_num_insts _ _ Hld); lia | done | eapply room_weaken; [exact Hroom | lia | lia] |].
  destruct (start_items_facts _ _ _ _ Hpre) as (Hlen & Hsl & Hokpre & _).
  set (st2 := set_pc_locs (<[i := (started st pre).(joffset)]> (started st pre).(pc_locs)) (started st pre)).
  assert (laid_out buffer (its ++ pre) st2) as Hlo2 by (eapply laid_out_set; [exact Hlo1 | done .. | by intros []]).
  assert (room 135 4 st2) as Hroom2.
  { eapply laid_out_room; [done | rewrite code_len_app; lia |].
    intros t. rewrite slots_in_app. specialize (Hslots t). specialize (Hsl t). lia. }
  destruct (map_register_run (dst inst) st Hd) as [d Ed]. destruct (map_register_run (src inst) st Hsr) as [s Es].
  destruct (code_run i inst op _ st2 s d Hi Hck Hlo2 Hroom2) as (code & trunc & Hcode & Htr & Ecode & Hlo3 & Hr3).
  exists (pre ++ code ++ trunc), (asm (code ++ trunc) st2). split.
  { unfold translate_inst. unfold mbind at 1, M_bind at 1, lift at 1. rewrite Hf. cbn [fmap option_fmap option_map].
    unfold mbind at 1, M_bind at 1. rewrite Ed. unfold mbind at 1, M_bind at 1. rewrite Es. cbv zeta.
    unfold mbind at 1, M_bind at 1. rewrite Erun. unfold mbind at 1, M_bind at 1, set_pc_loc, modify. exact Ecode. }
  destruct (asm_assembled _ _ Hr3). destruct (ic_budget _ _ _ _ Hcode) as (Hcl & Hcs & Hci). destruct Htr as (Htl & Hts & Hti).
  assert (i + 1 <= last_slot i inst + 1) as Hnext by (unfold last_slot; destruct (is_lddw inst); lia).
  constructor.
  - by rewrite app_assoc.
  - rewrite !code_len_app. pose proof (code_len_nonneg pre). pose proof (code_len_nonneg code).
    pose proof (code_len_nonneg trunc). lia.
  - intros t. rewrite !slots_in_app. specialize (Hslots t). specialize (Hsl t). specialize (Hcs t). specialize (Hts t). lia.
  - rewrite !items_ok_app. split_and!; try done; by apply items_ok_forall.
  - rewrite as_prolog, (proj2 (Z.eqb_neq _ 0)) by lia. exact Epro.
  - rewrite as_pc_locs. cbn [pc_locs st2 set_pc_locs]. rewrite Eloc. intros j q.
    destruct (decide (j = i)) as [-> | Hne]; [lia |]. rewrite lookup_insert_ne by done. intros Hq%Hlocs. lia.
  - rewrite as_pc_locs. intros k inst' Hk Hlk Hinst'. cbn [pc_locs st2 set_pc_locs]. rewrite Eloc, (lo_offset _ _ _ Hlo1).
    destruct (decide (k = i)) as [-> | Hne].
    + simplify_eq. exists op. split; [apply Hck |]. constructor. exists its, pre, code, trunc, [].
      rewrite app_nil_r, lookup_insert_eq. split_and!; try done.
      intros j q Hij. rewrite lookup_insert_ne by lia. intros Hq%Hlocs. lia.
    + destruct (decide (k < i)) as [Hki |]; [| pose proof (start_gap _ i k inst Hs Hinst Hk ltac:(lia)); lia].
      destruct (Hplaced k inst' Hk Hki Hinst') as (op' & Hop' & Hpl). exists op'. split; [done |].
      rewrite app_assoc. apply placed_app, placed_insert; [done | lia].
Qed.

(** The loop ends at the end of the program. *)
Lemma translate_loop_run fuel i its st :
  (Z.to_nat (Z.of_nat (length prog) - i) < fuel)%nat -> start prog i -> i <= Z.of_nat (length prog) ->
  loop_inv vm prog buffer i its st ->
  64 + 160 * Z.of_nat (length prog) <= Z.of_nat (length buffer) -> 1 + 5 * Z.of_nat (length prog) <= UBPF_MAX_INSTS ->
  exists its' st', translate_loop fuel vm rm i None st = Some (Ok None, st') /\
    loop_inv vm prog buffer (Z.of_nat (length prog)) (its ++ its') st'.
Proof.
  revert i its st; induction fuel as [| fuel IH]; intros i its st Hfuel Hs Hi Hinv Hbuf Hmax; [lia |].
  cbn [translate_loop]. unfold mbind at 1, M_bind at 1, gets.
  rewrite (ok_status _ (laid_out_ok _ _ _ (li_laid _ _ _ _ _ _ Hinv))), (ld_num_insts _ _ Hld).
  rewrite bool_decide_eq_false_2 by (intros Hne; by apply Hne).
  destruct (Z.ltb_spec i (Z.of_nat (length prog))) as [Hlt |]; cbn [negb orb].
  - pose proof (start_from_ge _ _ _ Hs).
    destruct (lookup_lt_is_Some_2 prog (Z.to_nat i) ltac:(lia)) as [inst Hinst].
    destruct (translate_inst_run i inst its st Hs Hinst Hinv ltac:(lia) ltac:(lia)) as (its1 & st1 & Erun & Hinv1).
    unfold mbind at 1, M_bind at 1. rewrite Erun. cbn match.
    assert (i + 1 <= last_slot i inst + 1) by (unfold last_slot; destruct (is_lddw inst); lia).
    destruct (IH (last_slot i inst + 1) (its ++ its1) st1) as (its2 & st2 & E2 & Hinv2);
      [lia | by apply start_last_slot | by apply (next_slot_bound vm) | done .. |].
    exists (its1 ++ its2), st2. by rewrite app_assoc.
  - exists [], st. rewrite app_nil_r. replace i with (Z.of_nat (length prog)) in Hinv by lia. done.
Qed.

(** *** Before the loop *)

#[local] Hint Extern 1 (costs _ _ (lift _)) => (eapply costs_lift; reflexivity) : emit.

Lemma costs_prologue : costs 64 1 (emit_prologue rm).
Proof using Hrm.
  assert (target_ok Jumps (Special Exit)) by done.
  unfold emit_prologue. cbn [for_each platform_nonvolatile_registers].
  eapply costs_weaken; [solve_costs; lia | lia | lia].
Qed.
End Turn.

(** ** After the loop *)

(** The retpoline, at [o]. *)
Definition retpoline_items (o : Z) : list item :=
  [Bytes [0xe8]; Slot Jumps (jit_target_at (o + 12)) 0; Bytes [0xf3; 0x90]; Bytes [0xe9];
   Slot Jumps (jit_target_at (o + 5)) 0; Bytes [0x48]; Bytes [0x89]; Bytes [0x04]; Bytes [0x24]; Bytes [0xc3]].

Lemma retpoline_run st :
  room 17 2 st -> emit_retpoline st = Some (st.(joffset), asm (retpoline_items st.(joffset)) st).
Proof.
  intros Hroom. unfold emit_retpoline. unfold mbind at 1, M_bind at 1, gets at 1. change st with (asm [] st) at 2.
  eapply run_emits; [apply emits_emit_call | ready_by_room Hroom |].
  eapply run_gets_asm; [ready_by_room Hroom |]. cbn [app].
  eapply (run_puts _ [0xf3; 0x90]); [unfold emit_pause; apply (puts_seq _ _ [0xf3]); apply puts_emit1 | ready_by_room Hroom |].
  eapply run_emits; [apply emits_emit_jmp | ready_by_room Hroom |].
  eapply run_gets_asm; [ready_by_room Hroom |].
  eapply (run_puts _ [0x48]); [apply puts_emit1 | ready_by_room Hroom |].
  eapply (run_puts _ [0x89]); [apply puts_emit1 | ready_by_room Hroom |].
  eapply (run_puts _ [0x04]); [apply puts_emit1 | ready_by_room Hroom |].
  eapply (run_puts _ [0x24]); [apply puts_emit1 | ready_by_room Hroom |].
  eapply (run_puts _ [0xc3]); [apply puts_emit1 | ready_by_room Hroom |].
  split_code 1%nat. eapply run_retarget; [done | ready_by_room Hroom |].
  unfold mret, M_ret, retpoline_items. do 2 f_equal.
Qed.

(** ** The whole translation *)

(** The finished code before linking. *)
Record image (vm : ubpf_vm) (prog : list ebpf_inst) (buffer : list Z) (its : list item) (st : jit_state) : Prop := Image {
  im_laid : laid_out buffer its st;
  im_bytes : code_len its <= 672 + 160 * Z.of_nat (length prog);
  im_ok : items_ok x86_linkable 0 its;
  im_prolog : prog <> [] -> st.(bpf_function_prolog_size) = 15;
  im_placed : forall k inst, start prog k -> prog !! Z.to_nat k = Some inst ->
    exists op, switch_op inst.(opcode) = Some op /\ placed vm its st.(pc_locs) k inst op;
  im_retpoline : exists a b, its = a ++ retpoline_items (code_len a) ++ b /\ st.(retpoline_loc) = code_len a;
  im_data : exists a, its = a ++ [Bytes (le_encode 8 vm.(dispatcher)); Bytes (vm.(ext_funcs) ≫= le_encode 8)] /\
    st.(dispatcher_loc) = code_len a /\ st.(helper_table_loc) = code_len a + 8;
}.

Section Whole.
Context `{HostEnv} (vm : ubpf_vm) (prog : list ebpf_inst) (rm : list Z) (buffer : list Z).
Context (Hld : loaded vm prog) (Hrm : length rm = 11%nat).
Context (Hext : Z.of_nat (length vm.(ext_funcs)) = MAX_EXT_FUNCS).

(** The rest of the epilogue, once [exit_loc] is set. *)
Lemma epilogue_run st :
  room 40 0 st -> exists epi, in_budget 40 0 epi /\ emit_epilogue rm st = Some (tt, asm epi (set_exit_loc st.(joffset) st)).
Proof using vm Hrm.
  intros Hroom. unfold emit_epilogue. unfold mbind at 1, M_bind at 1, modify.
  match goal with |- context [?m (set_exit_loc _ st) = _] =>
    assert (costs 40 0 m) as Hc end.
  { cbn [for_each platform_nonvolatile_registers reverse rev_append]. costs_sum. }
  destruct (Hc (set_exit_loc (joffset st) st)) as ([] & its & -> & Hb); [| by exists its].
  destruct Hroom as ([] & ? & Ht). split; [by constructor | split; [done |]]. intros t. specialize (Ht t). by destruct t.
Qed.

(** What is emitted when the loop is done. *)
Definition emit_tail : M (result unit jit_error) :=
  emit_epilogue rm;;
  retpoline_loc ← emit_retpoline;
  modify (set_retpoline_loc retpoline_loc);;
  dispatcher_loc ← emit_dispatched_external_helper_address vm;
  modify (set_dispatcher_loc dispatcher_loc);;
  helper_table_loc ← emit_helper_table vm;
  modify (set_helper_table_loc helper_table_loc);;
  mret (Ok tt).

Lemma retpoline_budget o : in_budget 17 2 (retpoline_items o).
Proof.
  split_and!; [done | intros []; vm_compute; lia |]. items_allowed.
Qed.

Lemma tail_compose st st2 st3 st4 st5 o :
  emit_epilogue rm st = Some (tt, st2) -> emit_retpoline st2 = Some (o, st3) ->
  (forall B (k : M B), (x ← emit_dispatched_external_helper_address vm; modify (set_dispatcher_loc x);; k)
     (set_retpoline_loc o st3) = k st4) ->
  (forall B (k : M B), (x ← emit_helper_table vm; modify (set_helper_table_loc x);; k) st4 = k st5) ->
  emit_tail st = Some (Ok tt, st5).
Proof.
  intros E1 E2 E3 E4. unfold emit_tail. unfold mbind at 1, M_bind at 1. rewrite E1. unfold mbind at 1, M_bind at 1.
  rewrite E2. unfold mbind at 1, M_bind at 1, modify at 1. rewrite E3. apply E4.
Qed.

Lemma tail_fields o1 o2 o3 bs cs st :
  let st' := set_helper_table_loc o3 (put cs (set_dispatcher_loc o2 (put bs (set_retpoline_loc o1 st)))) in
  st'.(pc_locs) = st.(pc_locs) /\ st'.(bpf_function_prolog_size) = st.(bpf_function_prolog_size) /\
  st'.(retpoline_loc) = o1 /\ st'.(dispatcher_loc) = o2 /\ st'.(helper_table_loc) = o3.
Proof. done. Qed.

Lemma tail_run its st :
  laid_out buffer its st -> fits buffer its 608 2 ->
  exists epi st', in_budget 40 0 epi /\ emit_tail st = Some (Ok tt, st') /\
    let a := its ++ epi in
    let b := a ++ retpoline_items (code_len a) in
    let c := b ++ [Bytes (le_encode 8 vm.(dispatcher))] in
    laid_out buffer (c ++ [Bytes (vm.(ext_funcs) ≫= le_encode 8)]) st' /\
    st'.(pc_locs) = st.(pc_locs) /\ st'.(bpf_function_prolog_size) = st.(bpf_function_prolog_size) /\
    st'.(retpoline_loc) = code_len a /\ st'.(dispatcher_loc) = code_len b /\ st'.(helper_table_loc) = code_len c /\
    items_ok x86_linkable (code_len its) (epi ++ retpoline_items (code_len a)).
Proof using Hrm Hext.
  intros Hlo Hfit.
  destruct (epilogue_run st) as (epi & Hb & Eepi); [eapply (fits_room buffer its _ 608 2); [done | done | lia | lia] |].
  set (st1 := set_exit_loc st.(joffset) st) in *.
  assert (laid_out buffer its st1) as Hlo1 by (eapply laid_out_set; [exact Hlo | done .. | by intros []]).
  destruct (fits_asm buffer its epi st1 40 0 568 2 Hlo1 Hb Hfit ltac:(lia)) as [Hlo2 Hfit2].
  set (a := its ++ epi) in *. destruct (asm_locs epi st1) as (_ & _ & _ & _ & P1 & P2). set (st2 := asm epi st1) in *.
  assert (room 17 2 st2) as Hroom by (eapply fits_room; [done | done | lia | lia]).
  pose proof (retpoline_run st2 Hroom) as Erp. rewrite (lo_offset _ _ _ Hlo2) in Erp.
  assert (in_budget 17 2 (retpoline_items (code_len a))) as Hrp by apply retpoline_budget.
  destruct (fits_asm buffer a (retpoline_items (code_len a)) st2 17 2 551 0 Hlo2 Hrp Hfit2 ltac:(lia)) as [Hlo3 Hfit3].
  destruct (asm_locs (retpoline_items (code_len a)) st2) as (_ & _ & _ & _ & Q1 & Q2).
  set (b := a ++ retpoline_items (code_len a)) in *.
  set (st3 := set_retpoline_loc (code_len a) (asm (retpoline_items (code_len a)) st2)).
  assert (laid_out buffer b st3) as Hlo3' by (apply set_retpoline_laid, Hlo3).
  destruct (data_step (TG := x86_target) buffer b st3 _ 8 543 _ set_dispatcher_loc (puts_emit8 vm.(dispatcher)) I Hlo3') as (E4 & Hlo4 & Hfit4);
    [by intros; apply set_dispatcher_laid | rewrite length_le_encode; lia | exact Hfit3 | lia |].
  set (c := b ++ [Bytes (le_encode 8 vm.(dispatcher))]) in *.
  destruct (data_step (TG := x86_target) buffer c _ _ 512 31 _ set_helper_table_loc (puts_helper_table vm emit8 puts_emit8 Hext) I Hlo4) as (E5 & Hlo5 & _);
    [by intros; apply set_helper_table_laid | rewrite length_helper_table; unfold MAX_EXT_FUNCS in Hext; lia
    | exact Hfit4 | lia |].
  eexists epi, _. split; [done |]. split; [| split; [exact Hlo5 |]].
  { exact (tail_compose _ _ _ _ _ _ Eepi Erp E4 E5). }
  destruct (tail_fields (code_len a) (code_len b) (code_len c) (le_encode 8 vm.(dispatcher)) (vm.(ext_funcs) ≫= le_encode 8)
    (asm (retpoline_items (code_len a)) st2)) as (T1 & T2 & T3 & T4 & T5).
  split; [exact (eq_trans T1 (eq_trans Q1 P1)) |]. split; [exact (eq_trans T2 (eq_trans Q2 P2)) |]. split_and!; [exact T3 | exact T4 | exact T5 |].
  apply items_ok_forall, Forall_app. split; [apply Hb | apply Hrp].
Qed.

Lemma translate_split st r st' :
  emit_prologue rm st = Some (tt, st') ->
  translate_loop (S (Z.to_nat vm.(num_insts))) vm rm 0 None st' = Some (Ok None, r) -> r.(jit_status) = NoError ->
  translate vm rm st = emit_tail r.
Proof.
  intros E1 E2 E3. unfold translate. unfold mbind at 1, M_bind at 1. rewrite E1. unfold mbind at 1, M_bind at 1.
  rewrite E2. unfold mbind at 1, M_bind at 1, gets. rewrite E3. reflexivity.
Qed.

(** *** The translation of a loaded program *)
Lemma translate_image st :
  laid_out buffer [] st -> st.(bpf_function_prolog_size) = 0 -> st.(pc_locs) = ∅ ->
  672 + 160 * Z.of_nat (length prog) <= Z.of_nat (length buffer) -> 3 + 5 * Z.of_nat (length prog) <= UBPF_MAX_INSTS ->
  exists its st', translate vm rm st = Some (Ok tt, st') /\ image vm prog buffer its st'.
Proof using Hld Hrm Hext.
  intros Hlo0 Hp0 Hl0 Hbuf Hmax. set (n := Z.of_nat (length prog)) in *.
  assert (fits buffer [] 64 1) as Hfit0.
  { eapply laid_out_x86_fits; [exact Hlo0 | change (code_len []) with 0; lia |]. intros t. cbn. unfold UBPF_MAX_INSTS. lia. }
  destruct (costs_prologue rm Hrm st) as ([] & pro & Epro & Hpro);
    [eapply fits_room; [exact Hlo0 | exact Hfit0 | lia | lia] |].
  destruct (fits_asm buffer [] pro st 64 1 0 0 Hlo0 Hpro Hfit0 ltac:(lia)) as [Hlo1 _].
  destruct Hpro as (Hpb & Hps & Hpi). destruct (asm_locs pro st) as (_ & _ & _ & _ & Pl & Pp).
  assert (loop_inv vm prog buffer 0 pro (asm pro st)) as Hinv.
  { constructor; [done | lia | intros t; specialize (Hps t); lia | by apply items_ok_forall | by rewrite Pp | |].
    { rewrite Pl, Hl0. intros j q []%lookup_empty_Some. }
    intros k inst Hk%start_from_ge ?. lia. }
  destruct (translate_loop_run vm prog rm buffer Hld Hrm (S (Z.to_nat vm.(num_insts))) 0 pro (asm pro st))
    as (body & st2 & Eloop & [Hlo2 Hb2 Hs2 Hok2 Hp2 _ Hpl2]); [rewrite (ld_num_insts _ _ Hld); lia | constructor | lia | done |
      lia | lia |].
  fold n in Hlo2, Hb2, Hs2, Hp2, Hpl2. set (its := pro ++ body) in *.
  destruct (tail_run its st2 Hlo2) as (epi & st3 & Hepi & Etail & Htail).
  { eapply laid_out_x86_fits; [exact Hlo2 | lia |]. intros t. specialize (Hs2 t). lia. }
  cbv zeta in Htail. destruct Htail as (Hlo3 & Elocs & Eprolog & Erp & Edisp & Etab & Hokt).
  set (a := its ++ epi) in *. set (b := a ++ retpoline_items (code_len a)) in *.
  set (c := b ++ [Bytes (le_encode 8 vm.(dispatcher))]) in *.
  exists (c ++ [Bytes (vm.(ext_funcs) ≫= le_encode 8)]), st3. split.
  { rewrite (translate_split st st2 (asm pro st)); [done | done | done |]. apply Hlo2. }
  constructor.
  - done.
  - unfold c, b, a. rewrite !code_len_app. destruct Hepi as (? & _ & _). rewrite (code_len_cons (Bytes (_ ≫= _))).
    cbn [item_bytes]. rewrite length_helper_table. unfold MAX_EXT_FUNCS in Hext. change (code_len []) with 0.
    change (code_len (retpoline_items _)) with 17. change (code_len [Bytes (le_encode 8 _)]) with 8. fold n. lia.
  - unfold c, b, a. rewrite <- !app_assoc, items_ok_app. split; [done |].
    rewrite app_assoc, items_ok_app. split; [exact Hokt | done].
  - intros Hne. rewrite Eprolog, Hp2. destruct prog; [done |]. by rewrite (proj2 (Z.eqb_neq n 0)) by (cbn in n; lia).
  - intros k inst Hk Hinst. pose proof (lookup_lt_Some _ _ _ Hinst). pose proof (start_from_ge _ _ _ Hk).
    destruct (Hpl2 k inst Hk ltac:(lia) Hinst) as (op & Hop & Hpl). exists op. split; [done |].
    unfold c, b, a. rewrite <- !app_assoc. rewrite Elocs. by apply placed_app.
  - exists a, ([Bytes (le_encode 8 vm.(dispatcher))] ++ [Bytes (vm.(ext_funcs) ≫= le_encode 8)]).
    split; [| done]. unfold c, b. by rewrite <- !app_assoc.
  - exists b. split; [unfold c; by rewrite <- app_assoc |]. split; [done |]. rewrite Etab. unfold c. by rewrite code_len_app.
Qed.
End Whole.
