(* ===== verification/X86Result.v ===== *)
(** * X86Result: the theorems on the x86-64 back end

    For every program accepted by [ubpf_load] and a buffer that is large enough:
    the translation succeeds and stays inside the buffer, the dispatcher slot and
    the helper table hold the VM's functions, every jump and every local call is
    linked to the code of its target.  Then the cases in which the code generator
    does not do what it means to. *)

From Stdlib Require Import ZArith Lia Bool.
From stdpp Require Import base list gmap strings numbers.
From S2P Require Import Prelude Ebpf InstValid Mem Vm Validate Load JitSupport JitAsm JitLink JitProg X86Emit X86Trans X86Cost X86Sound X86Link X86Correct.

Local Open Scope Z_scope.
Local Open Scope cbits_scope.

(** ** Reading the linked code *)

(** The relative address in the four bytes at [off], as the processor reads it. *)
Definition displacement (code : list Z) (off : Z) : Z := s32 (le_decode (bytes_at code off 4)).

(** The code of the instruction at [k] contains an instruction of the processor
    with opcode [bs] and a relative address that leads to [dest]: it lies behind
    the position recorded for [k] and before the position of every later
    instruction. *)
Definition transfers (st : jit_state) (code : list Z) (k : Z) (bs : list Z) (dest : Z) : Prop :=
  exists p off, let next := off + Z.of_nat (length bs) + 4 in
    st.(pc_locs) !! k = Some p /\ p <= off /\ next <= p + 128 /\ next <= st.(joffset) /\
    (forall j r, k < j -> st.(pc_locs) !! j = Some r -> next <= r) /\
    bytes_at code off (length bs) = bs /\ next + displacement code (off + Z.of_nat (length bs)) = dest.

Section Linked.
Context (vm : ubpf_vm) (prog : list ebpf_inst) (buffer : list Z) (its : list item) (st : jit_state).
Context (Hshort : Z.of_nat (length prog) < UBPF_MAX_INSTS) (Him : image vm prog buffer its st).

Lemma image_resolves : resolve_patchable_relatives st = Some (true, set_buf (linked_code buffer its st) st).
Proof. apply resolve_links; apply Him. Qed.

Lemma image_fits : code_len its <= Z.of_nat (length buffer) /\ code_len its < 2 ^ 30.
Proof.
  split; [apply (laid_out_fits _ _ _ (im_laid _ _ _ _ _ Him)) |].
  pose proof (im_bytes _ _ _ _ _ Him). unfold UBPF_MAX_INSTS in Hshort. lia.
Qed.

(** A far slot holds the distance to its target. *)
Lemma linked_slot a t tgt b :
  its = a ++ Slot t tgt 0 :: b -> is_near tgt = false -> 0 <= slot_target st t tgt + 15 <= code_len its + 15 ->
  0 <= code_len a /\ code_len a + 4 <= code_len its /\
  code_len a + 4 + displacement (linked_code buffer its st) (code_len a) = slot_target st t tgt.
Proof.
  intros E Hn Ht. pose proof (linked_item _ _ _ (im_laid _ _ _ _ _ Him) _ _ _ E) as Hb. cbn [item_bytes filled x86_linker] in Hb. rewrite length_le_encode in Hb.
  pose proof image_fits as [_ Hfit]. pose proof (code_len_nonneg a). pose proof (code_len_nonneg b).
  assert (code_len its = code_len a + 4 + code_len b) as El by (rewrite E, code_len_app, code_len_cons; cbn; lia).
  split; [done |]. split; [lia |]. unfold displacement. rewrite Hb. unfold slot_bytes. rewrite Hn, le_decode_encode.
  change (8 * Z.of_nat 4) with 32. rewrite sext_wrap by lia. rewrite sext_id; [lia | lia |].
  unfold signed_fits. change (2 ^ (32 - 1)) with 2147483648. lia.
Qed.

(** The position of the code of the instruction at [k]. *)
Lemma placed_position k inst :
  start prog k -> prog !! Z.to_nat k = Some inst ->
  exists p, st.(pc_locs) !! k = Some p /\ 0 <= p <= code_len its.
Proof.
  intros Hk Hinst. destruct (im_placed _ _ _ _ _ Him k inst Hk Hinst) as (op & _ & [(a & pre & code & trunc & b & E & Hl & _)]).
  exists (code_len (a ++ pre)). split; [done |]. rewrite E, !code_len_app.
  pose proof (code_len_nonneg a). pose proof (code_len_nonneg pre). pose proof (code_len_nonneg code).
  pose proof (code_len_nonneg trunc). pose proof (code_len_nonneg b). lia.
Qed.

(** The slots of code within its bounds are empty. *)
Lemma slot_after_empty n k bs t tgt code :
  in_budget n k code -> slot_after bs t tgt code -> exists a b, code = a ++ Bytes bs :: Slot t tgt 0 :: b.
Proof.
  intros (_ & _ & Hi) (a & w & b & ->). exists a, b. do 3 f_equal.
  by apply Forall_app in Hi as [_ [_ [[-> _] _]%Forall_cons_1]%Forall_cons_1].
Qed.

(** A slot in the code of an instruction, with the opcode before it. *)
Lemma placed_slot k inst op bs t tgt :
  start prog k -> prog !! Z.to_nat k = Some inst -> switch_op inst.(opcode) = Some op ->
  (forall code, inst_code k inst op code -> slot_after bs t tgt code) ->
  is_near tgt = false -> 0 <= slot_target st t tgt + 15 <= code_len its + 15 ->
  transfers st (linked_code buffer its st) k bs (slot_target st t tgt).
Proof.
  intros Hk Hinst Hop Hcode Hn Ht.
  destruct (im_placed _ _ _ _ _ Him k inst Hk Hinst) as (op' & Hop' & [(a & pre & code & trunc & b & E & Hl & _ & Hic & Hj)]).
  assert (op' = op) as -> by congruence. pose proof (proj1 (ic_budget _ _ _ _ Hic)) as Hlen.
  destruct (slot_after_empty _ _ _ _ _ _ (ic_budget _ _ _ _ Hic) (Hcode _ Hic)) as (c1 & c2 & ->). clear Hic Hcode.
  set (d := a ++ pre ++ c1).
  assert (its = d ++ Bytes bs :: Slot t tgt 0 :: c2 ++ trunc ++ b) as E1 by (rewrite E; unfold d; by rewrite <- !app_assoc).
  assert (its = (d ++ [Bytes bs]) ++ Slot t tgt 0 :: c2 ++ trunc ++ b) as E2 by (rewrite E1; by rewrite <- app_assoc).
  pose proof (linked_item _ _ _ (im_laid _ _ _ _ _ Him) _ _ _ E1) as Hb. cbn [item_bytes] in Hb.
  destruct (linked_slot _ _ _ _ E2 Hn Ht) as (_ & H2 & H3).
  assert (code_len (d ++ [Bytes bs]) = code_len d + Z.of_nat (length bs)) as Ed.
  { rewrite code_len_app, code_len_cons. change (code_len []) with 0. cbn [item_bytes]. lia. }
  rewrite Ed in H2, H3. rewrite !code_len_app, !code_len_cons in Hlen. cbn [item_bytes] in Hlen.
  rewrite length_le_encode in Hlen. pose proof (code_len_nonneg c1). pose proof (code_len_nonneg c2).
  exists (code_len (a ++ pre)), (code_len d). cbv zeta. rewrite (lo_offset _ _ _ (im_laid _ _ _ _ _ Him)).
  assert (code_len d = code_len (a ++ pre) + code_len c1) as Ed' by (unfold d; rewrite !code_len_app; lia).
  split_and!; [done | lia | lia | done | | done | done]. intros j r Hkj Hr. specialize (Hj j r Hkj Hr).
  rewrite !code_len_app, !code_len_cons in Hj. cbn [item_bytes] in Hj. rewrite length_le_encode in Hj.
  rewrite code_len_app in Ed'. pose proof (code_len_nonneg trunc). lia.
Qed.

(** The set-up of the host stack before the code of a function. *)
Lemma placed_prolog k inst :
  start prog k -> prog !! Z.to_nat k = Some inst -> function_start vm k = true ->
  exists p usage, st.(pc_locs) !! k = Some p /\ 15 <= p /\ ubpf_stack_usage_for_local_func vm k = Some usage /\
    bytes_at (linked_code buffer its st) (p - 15) 15 = prolog_bytes usage.
Proof.
  intros Hk Hinst Hf.
  destruct (im_placed _ _ _ _ _ Him k inst Hk Hinst) as (op & _ & [(a & pre & code & trunc & b & E & Hl & Hst & _)]).
  assert (exists usage pre1, ubpf_stack_usage_for_local_func vm k = Some usage /\
    pre = pre1 ++ [Bytes (prolog_bytes usage)]) as (usage & pre1 & Hu & ->).
  { destruct Hst as [Hn | u _ Hu | u _ Hu]; [congruence | by exists u, [] |].
    by exists u, [Bytes [0xeb]; Slot Jumps (near_target (code_len a)) 0]. }
  exists (code_len (a ++ pre1) + 15), usage. rewrite <- app_assoc in E. cbn [app] in E. rewrite app_assoc in E.
  pose proof (linked_item _ _ _ (im_laid _ _ _ _ _ Him) _ _ _ E) as Hb. cbn [item_bytes] in Hb. rewrite length_prolog_bytes in Hb.
  pose proof (code_len_nonneg (a ++ pre1)). split_and!; [| lia | done | by rewrite Z.add_simpl_r].
  rewrite Hl, !code_len_app, code_len_cons. cbn [item_bytes]. rewrite length_prolog_bytes. f_equal. change (code_len []) with 0. lia.
Qed.

(** The data at the end of the code. *)
Lemma image_data :
  Z.of_nat (length vm.(ext_funcs)) = MAX_EXT_FUNCS ->
  st.(helper_table_loc) = st.(dispatcher_loc) + 8 /\ st.(helper_table_loc) + 512 = code_len its /\
  0 <= st.(dispatcher_loc) /\
  bytes_at (linked_code buffer its st) st.(dispatcher_loc) 8 = le_encode 8 vm.(dispatcher) /\
  bytes_at (linked_code buffer its st) st.(helper_table_loc) 512 = vm.(ext_funcs) ≫= le_encode 8.
Proof.
  intros Hext. destruct (im_data _ _ _ _ _ Him) as (a & E & -> & ->). split; [done |].
  by apply (linked_data buffer its st (im_laid _ _ _ _ _ Him)).
Qed.
End Linked.

(** ** Compiling a loaded program *)

(** What the theorems assume: a loaded program, the register map and the helper
    table of their sizes, successful allocations, and a buffer and patch tables
    that are large enough. *)
Record compilable `{HostEnv} (vm : ubpf_vm) (prog : list ebpf_inst) (rm : list Z) (alloc : nat -> bool) (buffer : list Z)
    : Prop := Compilable {
  cp_loaded : loaded vm prog;
  cp_map : length rm = 11%nat;
  cp_helpers : Z.of_nat (length vm.(ext_funcs)) = MAX_EXT_FUNCS;
  cp_alloc : forall k, alloc k = true;
  cp_buffer : 672 + 160 * Z.of_nat (length prog) <= Z.of_nat (length buffer);
  cp_width : Z.of_nat (length buffer) + 16 < 2 ^ 32;
  cp_tables : 3 + 5 * Z.of_nat (length prog) <= UBPF_MAX_INSTS;
}.

Section Compile.
Context `{HostEnv} (vm : ubpf_vm) (prog : list ebpf_inst) (rm : list Z) (alloc : nat -> bool) (buffer : list Z).
Context (Hcp : compilable vm prog rm alloc buffer).

Lemma compile_image random mode :
  exists st0 its st, initialize_jit_state_result alloc buffer (Z.of_nat (length buffer)) mode random =
    (Some st0, JitResult 0 0 UBPF_JIT_COMPILE_FAILURE mode) /\
    translate vm rm st0 = Some (Ok tt, st) /\ image vm prog buffer its st.
Proof.
  destruct Hcp. destruct (initial_state alloc buffer random mode) as (st0 & E & Hlo & Hp & Hl & _); [done | done |].
  destruct (translate_image vm prog rm buffer cp_loaded0 cp_map0 cp_helpers0 st0) as (its & st & Et & Him); [done .. |].
  by exists st0, its, st.
Qed.

Lemma compiled_length : Z.of_nat (length prog) < UBPF_MAX_INSTS.
Proof. destruct Hcp. unfold UBPF_MAX_INSTS in *. lia. Qed.

(** Success, in terms of the image. *)
Lemma compile_run random mode st0 its st :
  initialize_jit_state_result alloc buffer (Z.of_nat (length buffer)) mode random =
    (Some st0, JitResult 0 0 UBPF_JIT_COMPILE_FAILURE mode) ->
  translate vm rm st0 = Some (Ok tt, st) -> image vm prog buffer its st ->
  ubpf_translate_x86_64 vm rm alloc random buffer (Z.of_nat (length buffer)) mode =
  Some (JitResult st.(dispatcher_loc) st.(helper_table_loc) UBPF_JIT_COMPILE_SUCCESS mode, None,
        linked_code buffer its st, code_len its).
Proof.
  intros E0 Et Him. unfold ubpf_translate_x86_64. rewrite E0, Et. cbn [mbind option_bind].
  rewrite (image_resolves _ _ _ _ _ Him). cbn. by rewrite (lo_offset _ _ _ (im_laid _ _ _ _ _ Him)).
Qed.
End Compile.

(** *** The example program on this target *)

Definition created_vm : ubpf_vm := created_on JitX86_64.
Definition jit_vm : ubpf_vm := load_on null_host created_vm jit_code.

Lemma jit_compilable :
  @compilable null_host jit_vm (insts_of_bytes jit_code) register_map (fun _ => true) jit_buffer.
Proof. constructor; [apply jit_loaded | | | | | |]; vm_compute; congruence. Qed.

(** The result of the back end. *)
Lemma jit_translates `{HostEnv} (vm : ubpf_vm) (prog : list ebpf_inst) (rm : list Z) (alloc : nat -> bool)
    (buffer : list Z) (random : nat -> Z) (mode : JitMode) :
  compilable vm prog rm alloc buffer ->
  exists code size d h,
    ubpf_translate_x86_64 vm rm alloc random buffer (Z.of_nat (length buffer)) mode =
      Some (JitResult d h UBPF_JIT_COMPILE_SUCCESS mode, None, code, size) /\
    0 <= size <= Z.of_nat (length buffer) /\ length code = length buffer /\
    drop (Z.to_nat size) code = drop (Z.to_nat size) buffer /\
    h = d + 8 /\ h + 512 = size /\ 0 <= d /\ bytes_at code d 8 = le_encode 8 vm.(dispatcher) /\
    bytes_at code h 512 = vm.(ext_funcs) ≫= le_encode 8.
Proof.
  intros Hcp. destruct (compile_image _ _ _ _ _ Hcp random mode) as (st0 & its & st & E0 & Et & Him).
  pose proof (compiled_length _ _ _ _ _ Hcp) as Hs. pose proof (cp_helpers _ _ _ _ _ Hcp) as Hext.
  destruct (image_data _ _ _ _ _ Him Hext) as (Hh & Hend & Hd0 & Hdb & Htb).
  pose proof (image_fits _ _ _ _ _ Hs Him) as [Hfit _]. pose proof (code_len_nonneg its).
  exists (linked_code buffer its st), (code_len its), st.(dispatcher_loc), st.(helper_table_loc).
  split; [by eapply compile_run |]. split; [lia |]. split; [eapply linked_length, Him |].
  split; [apply linked_rest |]. done.
Qed.

(** ** Properties *)

(** C9: A program accepted by [ubpf_load] is always compiled when the buffer has
    672 bytes and 160 bytes per instruction, the program is short enough for the
    tables of displacements (five per instruction) and the allocations succeed: [ubpf_translate_x86_64] has no
    undefined behaviour and reports success, the code has the size it reports and
    nothing is written behind it, the eight bytes at [external_dispatcher_offset]
    are the VM's dispatcher and the table at [external_helper_offset], which ends
    the code, holds its helper functions. *)
Theorem jit_compiles_loaded `{HostEnv} (vm : ubpf_vm) (prog : list ebpf_inst) (rm : list Z) (alloc : nat -> bool)
    (buffer : list Z) (random : nat -> Z) (mode : JitMode) :
  compilable vm prog rm alloc buffer ->
  exists code size d h,
    ubpf_translate_x86_64 vm rm alloc random buffer (Z.of_nat (length buffer)) mode =
      Some (JitResult d h UBPF_JIT_COMPILE_SUCCESS mode, None, code, size) /\
    0 <= size <= Z.of_nat (length buffer) /\ length code = length buffer /\
    drop (Z.to_nat size) code = drop (Z.to_nat size) buffer /\
    h = d + 8 /\ h + 512 = size /\ 0 <= d /\ bytes_at code d 8 = le_encode 8 vm.(dispatcher) /\
    bytes_at code h 512 = vm.(ext_funcs) ≫= le_encode 8.
Proof. apply jit_translates. Qed.

Lemma jit_compiles_loaded_witness :
  exists code size d h,
    ubpf_translate_x86_64 jit_vm register_map (fun _ => true) (fun _ => 0) jit_buffer 4096 BasicJitMode =
      Some (JitResult d h UBPF_JIT_COMPILE_SUCCESS BasicJitMode, None, code, size) /\
    bytes_at code h 512 = jit_vm.(ext_funcs) ≫= le_encode 8.
Proof.
  destruct (@jit_compiles_loaded null_host jit_vm (insts_of_bytes jit_code) register_map (fun _ => true) jit_buffer
    (fun _ => 0) BasicJitMode jit_compilable) as (code & size & d & h & E & _ & _ & _ & _ & _ & _ & _ & Hh).
  exists code, size, d, h. split; [exact E | exact Hh].
Defined.

(** C11: Every jump of a loaded program becomes a jump of the processor to the code
    of its target, when the buffer and the tables of displacements are large
    enough and the allocations succeed: the code of the instruction at slot [k],
    which lies between the recorded position of [k] and those of all later
    instructions, contains the opcode of the processor's jump for the operation
    ([JMP] for an unconditional jump, the [Jcc] of its condition otherwise) with a
    relative address that leads to the recorded position of the target. *)
Theorem jit_links_jumps `{HostEnv} (vm : ubpf_vm) (prog : list ebpf_inst) (rm : list Z) (alloc : nat -> bool)
    (buffer : list Z) (random : nat -> Z) (mode : JitMode) :
  compilable vm prog rm alloc buffer ->
  exists st0 st st',
    initialize_jit_state_result alloc buffer (Z.of_nat (length buffer)) mode random =
      (Some st0, JitResult 0 0 UBPF_JIT_COMPILE_FAILURE mode) /\
    translate vm rm st0 = Some (Ok tt, st) /\ resolve_patchable_relatives st = Some (true, st') /\
    forall k inst op, start prog k -> prog !! Z.to_nat k = Some inst -> switch_op inst.(opcode) = Some op ->
      group_of op = GroupJump ->
      exists q, st.(pc_locs) !! (k + 1 + jump_offset inst) = Some q /\
        transfers st st'.(buf) k (jump_bytes inst.(opcode)) q.
Proof.
  intros Hcp. destruct (compile_image _ _ _ _ _ Hcp random mode) as (st0 & its & st & E0 & Et & Him).
  pose proof (compiled_length _ _ _ _ _ Hcp) as Hs. pose proof (cp_loaded _ _ _ _ _ Hcp) as Hld.
  exists st0, st, (set_buf (linked_code buffer its st) st). split; [done |]. split; [done |].
  split; [by eapply image_resolves |]. intros k inst op Hk Hinst Hop Hg.
  destruct (vd_checked _ _ (ld_validated _ _ Hld) k inst Hk Hinst) as [op' [Hop' _ _ _ Hck]].
  assert (op' = op) as -> by congruence. rewrite Hg in Hck. destruct Hck as (_ & Ht & Hne).
  pose proof (jump_target_u32 prog k inst Hs Ht) as Hu.
  assert (start prog (k + 1 + jump_offset inst)) as Hst by (eapply validated_nonzero_start; [apply Hld | lia | done]).
  destruct (lookup_lt_is_Some_2 prog (Z.to_nat (k + 1 + jump_offset inst)) ltac:(lia)) as [inst2 Hinst2].
  destruct (placed_position _ _ _ _ _ Him _ _ Hst Hinst2) as (q & Hq & Hqr).
  assert (slot_target st Jumps (ebpf_target (jump_target_pc k inst)) = q) as Hslot.
  { cbn [slot_target ebpf_target jit_target_pc ebpf_target_pc Z.eqb]. by rewrite Hu, Hq. }
  exists q. split; [done |]. rewrite <- Hslot. eapply placed_slot; [done .. | | done | rewrite Hslot; lia].
  intros code Hc. rewrite <- (switch_op_sound _ _ Hop). by apply Hc.
Qed.

Lemma jit_links_jumps_witness :
  exists (st st' : jit_state) (q : Z), st.(pc_locs) !! 3 = Some q /\ transfers st st'.(buf) 2 [0x0f; 0x84] q.
Proof.
  destruct (@jit_links_jumps null_host jit_vm (insts_of_bytes jit_code) register_map (fun _ => true) jit_buffer
    (fun _ => 0) BasicJitMode jit_compilable) as (st0 & st & st' & _ & _ & _ & Hj). exists st, st'.
  refine (Hj 2 (Inst 0x15 0 0 0 7) EBPF_OP_JEQ_IMM _ eq_refl eq_refl eq_refl).
  eapply (start_next _ _ 1); [eapply (start_next _ _ 0); [constructor | ..] | ..]; reflexivity.
Defined.

(** C12: Every local call of a loaded program to the start of an instruction becomes
    a [CALL] of the processor, when the buffer and the tables are large enough and
    the allocations succeed: the code of the instruction at slot [k], which lies
    between the recorded position of [k] and those of all later instructions,
    contains the opcode [CALL] with a relative address that leads fifteen bytes
    before the code of the target, to the code that puts the stack usage of the
    called function on the host stack. *)
Theorem jit_links_calls `{HostEnv} (vm : ubpf_vm) (prog : list ebpf_inst) (rm : list Z) (alloc : nat -> bool)
    (buffer : list Z) (random : nat -> Z) (mode : JitMode) :
  compilable vm prog rm alloc buffer ->
  exists st0 st st',
    initialize_jit_state_result alloc buffer (Z.of_nat (length buffer)) mode random =
      (Some st0, JitResult 0 0 UBPF_JIT_COMPILE_FAILURE mode) /\
    translate vm rm st0 = Some (Ok tt, st) /\ resolve_patchable_relatives st = Some (true, st') /\
    forall k inst, start prog k -> prog !! Z.to_nat k = Some inst -> is_local_call inst = true ->
      start prog (call_target k inst) ->
      exists q usage, st.(pc_locs) !! (call_target k inst) = Some q /\
        transfers st st'.(buf) k call_bytes (q - 15) /\
        ubpf_stack_usage_for_local_func vm (call_target k inst) = Some usage /\
        bytes_at st'.(buf) (q - 15) 15 = prolog_bytes usage.
Proof.
  intros Hcp. destruct (compile_image _ _ _ _ _ Hcp random mode) as (st0 & its & st & E0 & Et & Him).
  pose proof (compiled_length _ _ _ _ _ Hcp) as Hs. pose proof (cp_loaded _ _ _ _ _ Hcp) as Hld.
  exists st0, st, (set_buf (linked_code buffer its st) st). split; [done |]. split; [done |].
  split; [by eapply image_resolves |]. intros k inst Hk Hinst Hcall Hst.
  destruct (validated_local_call _ _ k inst (ld_validated _ _ Hld) Hk Hinst Hcall) as (Ht & _ & _).
  destruct (call_slot_facts vm prog k inst Hld Hk Hinst Hcall) as (Hop & Hsrc & Hu & Hf).
  destruct (lookup_lt_is_Some_2 prog (Z.to_nat (call_target k inst)) ltac:(lia)) as [inst2 Hinst2].
  destruct (placed_prolog _ _ _ _ _ Him _ _ Hst Hinst2 Hf) as (q & usage & Hq & H15 & Husage & Hbytes).
  destruct (placed_position _ _ _ _ _ Him _ _ Hst Hinst2) as (q' & Hq' & Hqr). assert (q' = q) as -> by congruence.
  assert (slot_target st LocalCalls (ebpf_target (k + inst.(imm) + 1)) = q - 15) as Hslot.
  { cbn [slot_target ebpf_target ebpf_target_pc]. rewrite Hu, Hq, (im_prolog _ _ _ _ _ Him); [done |].
    intros ->. by rewrite lookup_nil in Hinst. }
  exists q, usage. split; [done |]. split; [| done]. rewrite <- Hslot.
  eapply placed_slot; [done .. | | done | rewrite Hslot; lia]. intros code Hc. by apply Hc.
Qed.

Lemma jit_links_calls_witness :
  exists (st st' : jit_state) (q usage : Z),
    st.(pc_locs) !! 4 = Some q /\ transfers st st'.(buf) 1 [0xe8] (q - 15) /\ ubpf_stack_usage_for_local_func jit_vm 4 = Some usage /\
    bytes_at st'.(buf) (q - 15) 15 = prolog_bytes usage.
Proof.
  destruct (@jit_links_calls null_host jit_vm (insts_of_bytes jit_code) register_map (fun _ => true) jit_buffer
    (fun _ => 0) BasicJitMode jit_compilable) as (st0 & st & st' & _ & _ & _ & Hj). exists st, st'.
  refine (Hj 1 (Inst 0x85 0 1 0 2) _ eq_refl eq_refl _); [eapply (start_next _ _ 0); [constructor | reflexivity ..] |].
  eapply (start_next _ _ 3); [eapply (start_next _ _ 2); [eapply (start_next _ _ 1);
    [eapply (start_next _ _ 0); [constructor | ..] | ..] | ..] | ..]; reflexivity.
Defined.

(** On a buffer that is too small the back end does not always say so.  The
    status is checked before the epilogue only: with 600 bytes the program above is
    reported as compiled although its helper table ends at byte 697, and with 150
    bytes the patching pass writes past the end of the buffer. *)
Theorem jit_small_buffer :
  (exists code size,
     ubpf_translate_x86_64 jit_vm register_map (fun _ => true) (fun _ => 0) (replicate 600 0) 600 BasicJitMode =
       Some (JitResult 177 185 UBPF_JIT_COMPILE_SUCCESS BasicJitMode, None, code, size) /\
     size <= 600 < 185 + 8 * MAX_EXT_FUNCS) /\
  ubpf_translate_x86_64 jit_vm register_map (fun _ => true) (fun _ => 0) (replicate 150 0) 150 BasicJitMode = None.
Proof.
  split; [| vm_compute; reflexivity]. eexists _, _. split; [vm_compute; reflexivity |]. vm_compute. split; congruence.
Qed.

(** [call +2; ja +0; lddw r0, 5; exit]: the call enters the second half of the LDDW. *)
Definition lddw_call_code : list Z :=
  bytes_of_insts [Inst 0x85 0 1 0 2; Inst 0x05 0 0 0 0; Inst 0x18 0 0 0 5; Inst 0 0 0 0 0; Inst 0x95 0 0 0 0].
Definition lddw_call_vm : ubpf_vm := load_on null_host created_vm lddw_call_code.

(** The hypothesis on the call target in the theorem above is needed: a loaded
    program may call the second half of an LDDW, for which no position is
    recorded, and the compiled call goes fifteen bytes before the buffer. *)
Theorem jit_call_before_buffer :
  lddw_call_vm.(insts) <> 0 /\
  exists st0 st st' e,
    initialize_jit_state_result (fun _ => true) jit_buffer 4096 BasicJitMode (fun _ => 0) =
      (Some st0, JitResult 0 0 UBPF_JIT_COMPILE_FAILURE BasicJitMode) /\
    translate lddw_call_vm register_map st0 = Some (Ok tt, st) /\
    resolve_patchable_relatives st = Some (true, st') /\ st.(local_calls) = [e] /\
    st.(pc_locs) !! 3 = None /\ e.(offset_loc) + 4 + displacement st'.(buf) e.(offset_loc) = -15.
Proof.
  split; [vm_compute; congruence |].
  eexists _, _, _, _. split; [reflexivity |]. split; [vm_compute; reflexivity |]. split; [vm_compute; reflexivity |].
  split; [vm_compute; reflexivity |]. split; vm_compute; reflexivity.
Qed.
