(* ===== verification/Arm64Emit.v ===== *)
(** * Arm64Emit: the emitters of the arm64 back end

    The registers and instruction encoders of vm/ubpf_jit_arm64.c, up to the
    code for external and local calls, the atomic operations, and the data behind
    the code.  An A64 instruction is one 32-bit word.  Every emitter is a
    computation in the monad of [JitSupport]. *)

From Stdlib Require Import ZArith Lia Bool.
From stdpp Require Import base list gmap strings numbers.
From S2P Require Import Prelude Ebpf Vm JitSupport.

Local Open Scope Z_scope.
Local Open Scope cbits_scope.

Definition BAD_OPCODE : Z := UINT32_MAX.

(** ** Registers *)

Definition R0 : Z := 0.
Definition R1 : Z := 1.
Definition R2 : Z := 2.
Definition R3 : Z := 3.
Definition R4 : Z := 4.
Definition R5 : Z := 5.
Definition R6 : Z := 6.
Definition R8 : Z := 8.
Definition R19 : Z := 19.
Definition R20 : Z := 20.
Definition R21 : Z := 21.
Definition R22 : Z := 22.
Definition R23 : Z := 23.
Definition R24 : Z := 24.
Definition R25 : Z := 25.
Definition R26 : Z := 26.
Definition R29 : Z := 29.
Definition R30 : Z := 30.
Definition SP : Z := 31.
Definition RZ : Z := 31.

Definition callee_saved_registers : list Z := [R19; R20; R21; R22; R23; R24; R25; R26].
Definition temp_register : Z := R24.
Definition temp_div_register : Z := R25.
Definition offset_register : Z := R26.
Definition VOLATILE_CTXT : Z := R26.

Definition REGISTER_MAP_SIZE : Z := 11.
Definition register_map : list Z := [R5; R0; R1; R2; R3; R4; R19; R20; R21; R22; R23].

Definition map_register (r : Z) : M Z :=
  assertion (r <? REGISTER_MAP_SIZE);;
  lift (register_map !! Z.to_nat (r mod REGISTER_MAP_SIZE)).

Definition align_to (amount boundary : Z) : Z := u32 ((amount + (boundary - 1)) .& Z.lnot (boundary - 1)).

(** ** Words *)

Definition emit_bytes (data : list Z) : M unit := fun st =>
  let len := Z.of_nat (length data) in
  if negb ((len <=? st.(jsize)) && (st.(joffset) <=? st.(jsize) - len)) then
    Some (tt, set_jit_status NotEnoughSpace st)
  else if st.(joffset) + len >? st.(jsize) then Some (tt, set_joffset st.(jsize) st)
  else
    (memcpy_buf st.(joffset) data;;
     modify (fun st => set_joffset (st.(joffset) + len) st)) st.

Definition emit_instruction (instr : Z) : M unit :=
  assertion (negb (u32 instr =? BAD_OPCODE));;
  emit_bytes (le_encode 4 instr).

Definition sz (sixty_four : bool) : Z := (if sixty_four then 1 else 0) .<< 31.

(** ** Arithmetic *)

Inductive AddSubOpcode : Type := AS_ADD | AS_ADDS | AS_SUB | AS_SUBS.

Definition addsub_bits (op : AddSubOpcode) : Z :=
  match op with AS_ADD => 0 | AS_ADDS => 1 | AS_SUB => 2 | AS_SUBS => 3 end.

Definition emit_addsub_immediate (sixty_four : bool) (op : AddSubOpcode) (rd rn imm12 : Z) : M unit :=
  let imm12 := u32 imm12 in
  let shifted := imm12 >=? 0x1000 in
  when shifted (assertion (imm12 .& 0xfff =? 0));;
  let sh := if shifted then 1 .<< 22 else 0 in
  let imm12 := if shifted then imm12 .>> 12 else imm12 in
  assertion (imm12 <? 0x1000);;
  emit_instruction (sz sixty_four .| sh .| (addsub_bits op .<< 29) .| 0x11000000 .| (imm12 .<< 10) .| (rn .<< 5) .| rd).

Definition emit_addsub_register (sixty_four : bool) (op : AddSubOpcode) (rd rn rm : Z) : M unit :=
  emit_instruction (sz sixty_four .| (addsub_bits op .<< 29) .| 0x0b000000 .| (rm .<< 16) .| (rn .<< 5) .| rd).

(** ** Loads and stores *)

Inductive LoadStoreOpcode : Type :=
| LS_STRB | LS_LDRB | LS_LDRL | LS_LDRSBX | LS_LDRSBW | LS_STRH | LS_LDRH | LS_LDRSHX | LS_LDRSHW
| LS_STRW | LS_LDRW | LS_LDRSW | LS_STRX | LS_LDRX.

Definition loadstore_bits (op : LoadStoreOpcode) : Z :=
  match op with
  | LS_STRB => 0x00000000 | LS_LDRB => 0x00400000 | LS_LDRL => 0x50000000
  | LS_LDRSBX => 0x00800000 | LS_LDRSBW => 0x00c00000 | LS_STRH => 0x40000000
  | LS_LDRH => 0x40400000 | LS_LDRSHX => 0x40800000 | LS_LDRSHW => 0x40c00000
  | LS_STRW => 0x80000000 | LS_LDRW => 0x80400000 | LS_LDRSW => 0x80800000
  | LS_STRX => 0xc0000000 | LS_LDRX => 0xc0400000
  end.

Inductive LoadStoreExclusiveOpcode : Type := LSE_STXRW | LSE_LDXRW | LSE_STXRX | LSE_LDXRX.

Definition exclusive_bits (op : LoadStoreExclusiveOpcode) : Z :=
  match op with
  | LSE_STXRW => 0x88007c00 | LSE_LDXRW => 0x885f7c00 | LSE_STXRX => 0xc8007c00 | LSE_LDXRX => 0xc85f7c00
  end.

Definition emit_loadstore_immediate (op : LoadStoreOpcode) (rt rn imm9 : Z) : M unit :=
  assertion ((-256 <=? imm9) && (imm9 <? 256));;
  emit_instruction (0x38000000 .| loadstore_bits op .| ((imm9 .& 0x1ff) .<< 12) .| (rn .<< 5) .| rt).

Definition emit_loadstore_exclusive (op : LoadStoreExclusiveOpcode) (rt rn rs : Z) : M unit :=
  emit_instruction (exclusive_bits op .| (rs .<< 16) .| (rn .<< 5) .| rt).

Definition emit_loadstore_literal (op : LoadStoreOpcode) (rt : Z) (target : PatchableTarget) : M unit :=
  note_load target;;
  emit_instruction (loadstore_bits op .| 0x08000000 .| rt).

Definition emit_adr (target : PatchableTarget) (rd : Z) : M unit :=
  note_lea target;;
  emit_instruction (0x10000000 .| rd).

Inductive LoadStorePairOpcode : Type := LSP_STPW | LSP_LDPW | LSP_LDPSW | LSP_STPX | LSP_LDPX.

Definition pair_bits (op : LoadStorePairOpcode) : Z :=
  match op with
  | LSP_STPW => 0x29000000 | LSP_LDPW => 0x29400000 | LSP_LDPSW => 0x69400000
  | LSP_STPX => 0xa9000000 | LSP_LDPX => 0xa9400000
  end.

Definition emit_loadstorepair_immediate (op : LoadStorePairOpcode) (rt rt2 rn imm7 : Z) : M unit :=
  let imm_div := match op with LSP_STPX | LSP_LDPX => 8 | _ => 4 end in
  assertion (Z.rem imm7 imm_div =? 0);;
  emit_instruction (pair_bits op .| (Z.quot imm7 imm_div .<< 15) .| (rt2 .<< 10) .| (rn .<< 5) .| rt).

(** ** Logic and branches *)

Inductive LogicalOpcode : Type :=
| LOG_AND | LOG_BIC | LOG_ORR | LOG_ORN | LOG_EOR | LOG_EON | LOG_ANDS | LOG_BICS.

Definition logical_bits (op : LogicalOpcode) : Z :=
  match op with
  | LOG_AND => 0x00000000 | LOG_BIC => 0x00200000 | LOG_ORR => 0x20000000 | LOG_ORN => 0x20200000
  | LOG_EOR => 0x40000000 | LOG_EON => 0x40200000 | LOG_ANDS => 0x60000000 | LOG_BICS => 0x60200000
  end.

Definition emit_logical_register (sixty_four : bool) (op : LogicalOpcode) (rd rn rm : Z) : M unit :=
  emit_instruction (sz sixty_four .| logical_bits op .| (1 .<< 27) .| (1 .<< 25) .| (rm .<< 16) .| (rn .<< 5) .| rd).

Inductive UnconditionalBranchOpcode : Type := BR_BR | BR_BLR | BR_RET.

Definition branch_register_bits (op : UnconditionalBranchOpcode) : Z :=
  match op with BR_BR => 0xd61f0000 | BR_BLR => 0xd63f0000 | BR_RET => 0xd65f0000 end.

Definition emit_unconditionalbranch_register (op : UnconditionalBranchOpcode) (rn : Z) : M unit :=
  emit_instruction (branch_register_bits op .| (rn .<< 5)).

Inductive UnconditionalBranchImmediateOpcode : Type := UBR_B | UBR_BL.

Definition branch_immediate_bits (op : UnconditionalBranchImmediateOpcode) : Z :=
  match op with UBR_B => 0x14000000 | UBR_BL => 0x94000000 end.

Definition is_special (target : PatchableTarget) : bool :=
  match target with Special _ => true | Regular _ => false end.

Definition emit_unconditionalbranch_immediate (op : UnconditionalBranchImmediateOpcode) (target : PatchableTarget) : M Z :=
  source_offset ← gets joffset;
  match op with
  | UBR_BL => if negb (is_special target) then note_local_call target else note_jump target
  | UBR_B => note_jump target
  end;;
  emit_instruction (branch_immediate_bits op);;
  mret source_offset.

Inductive Condition : Type :=
| COND_EQ | COND_NE | COND_CS | COND_CC | COND_MI | COND_PL | COND_VS | COND_VC
| COND_HI | COND_LS | COND_GE | COND_LT | COND_GT | COND_LE | COND_AL | COND_NV.

Definition COND_HS : Condition := COND_CS.
Definition COND_LO : Condition := COND_CC.

Definition condition_bits (c : Condition) : Z :=
  match c with
  | COND_EQ => 0 | COND_NE => 1 | COND_CS => 2 | COND_CC => 3 | COND_MI => 4 | COND_PL => 5
  | COND_VS => 6 | COND_VC => 7 | COND_HI => 8 | COND_LS => 9 | COND_GE => 10 | COND_LT => 11
  | COND_GT => 12 | COND_LE => 13 | COND_AL => 14 | COND_NV => 15
  end.

Definition BR_Bcond : Z := 0x54000000.

Definition emit_conditionalbranch_immediate (cond : Condition) (target : PatchableTarget) : M Z :=
  source_offset ← gets joffset;
  note_jump target;;
  emit_instruction (BR_Bcond .| (0 .<< 5) .| condition_bits cond);;
  mret source_offset.

(** ** Data processing *)

Inductive DP1Opcode : Type := DP1_REV16 | DP1_REV32 | DP1_REV64.

Definition dp1_bits (op : DP1Opcode) : Z :=
  match op with DP1_REV16 => 0x5ac00400 | DP1_REV32 => 0x5ac00800 | DP1_REV64 => 0xdac00c00 end.

Definition emit_dataprocessing_onesource (sixty_four : bool) (op : DP1Opcode) (rd rn : Z) : M unit :=
  emit_instruction (sz sixty_four .| dp1_bits op .| (rn .<< 5) .| rd).

Inductive DP2Opcode : Type := DP2_UDIV | DP2_SDIV | DP2_LSLV | DP2_LSRV | DP2_ASRV | DP2_RORV.

Definition dp2_bits (op : DP2Opcode) : Z :=
  match op with
  | DP2_UDIV => 0x1ac00800 | DP2_SDIV => 0x1ac00c00 | DP2_LSLV => 0x1ac02000
  | DP2_LSRV => 0x1ac02400 | DP2_ASRV => 0x1ac02800 | DP2_RORV => 0x1ac02800
  end.

Definition emit_dataprocessing_twosource (sixty_four : bool) (op : DP2Opcode) (rd rn rm : Z) : M unit :=
  emit_instruction (sz sixty_four .| dp2_bits op .| (rm .<< 16) .| (rn .<< 5) .| rd).

Inductive DP3Opcode : Type := DP3_MADD | DP3_MSUB.

Definition dp3_bits (op : DP3Opcode) : Z := match op with DP3_MADD => 0x1b000000 | DP3_MSUB => 0x1b008000 end.

Definition emit_dataprocessing_threesource (sixty_four : bool) (op : DP3Opcode) (rd rn rm ra : Z) : M unit :=
  emit_instruction (sz sixty_four .| dp3_bits op .| (rm .<< 16) .| (ra .<< 10) .| (rn .<< 5) .| rd).

(** ** Immediates *)

Inductive MoveWideOpcode : Type := MW_MOVN | MW_MOVZ | MW_MOVK.

Definition movewide_bits (op : MoveWideOpcode) : Z :=
  match op with MW_MOVN => 0x12800000 | MW_MOVZ => 0x52800000 | MW_MOVK => 0x72800000 end.

Definition is_movk (op : MoveWideOpcode) : bool := match op with MW_MOVK => true | _ => false end.

(** The i-th 16 bits of [imm]. *)
Definition halfword (imm i : Z) : Z := (imm .>> (16 * i)) .& 0xffff.

Definition halfwords (sixty_four : bool) : list Z := seqZ 0 (if sixty_four then 4 else 2).

Definition count_halfwords (imm pattern : Z) (idxs : list Z) : Z :=
  Z.of_nat (length (filter (fun i => halfword imm i = pattern) idxs)).

(** [count0000 < countffff] *)
Definition prefers_movn (sixty_four : bool) (imm : Z) : bool :=
  (if sixty_four then 0 else 2) + count_halfwords imm 0 (halfwords sixty_four) <?
  count_halfwords imm 0xffff (halfwords sixty_four).

(** The loop over the halfwords [idxs], with the locals [op] and [invert]. *)
Fixpoint emit_moves (sixty_four : bool) (rd imm skip_pattern : Z) (idxs : list Z) (op : MoveWideOpcode) (invert : bool)
    : M MoveWideOpcode :=
  match idxs with
  | [] => mret op
  | i :: idxs' =>
      let imm16 := halfword imm i in
      if negb (imm16 =? skip_pattern) then
        let imm16 := if invert then Z.lnot imm16 .& 0xffff else imm16 in
        emit_instruction (sz sixty_four .| movewide_bits op .| (i .<< 21) .| (imm16 .<< 5) .| rd);;
        emit_moves sixty_four rd imm skip_pattern idxs' MW_MOVK false
      else emit_moves sixty_four rd imm skip_pattern idxs' op invert
  end.

Definition emit_movewide_immediate (sixty_four : bool) (rd imm : Z) : M unit :=
  let imm := u64 imm in
  let invert := prefers_movn sixty_four imm in
  let op := if invert then MW_MOVN else MW_MOVZ in
  let skip_pattern := if invert then 0xffff else 0 in
  op ← emit_moves sixty_four rd imm skip_pattern (halfwords sixty_four) op invert;
  when (negb (is_movk op)) (emit_instruction (sz sixty_four .| movewide_bits op .| (0 .<< 21) .| (0 .<< 5) .| rd)).

Definition emit_movewide_immediate_blinded (sixty_four : bool) (rd imm : Z) : M unit :=
  random ← ubpf_generate_blinding_constant;
  let blinded := Z.lxor (u64 imm) random in
  let scratch := if rd =? temp_div_register then temp_register else temp_div_register in
  emit_movewide_immediate sixty_four rd blinded;;
  emit_movewide_immediate sixty_four scratch random;;
  emit_logical_register sixty_four LOG_EOR rd rd scratch.

Definition EMIT_MOVEWIDE_IMMEDIATE (vm : ubpf_vm) (sixty_four : bool) (rd imm : Z) : M unit :=
  if vm.(constant_blinding_enabled) then emit_movewide_immediate_blinded sixty_four rd imm
  else emit_movewide_immediate sixty_four rd imm.

(** ** Prologue and epilogue *)

(** [for (i = 0; i < n; i += 2)] over the pairs of callee-saved registers. *)
Definition emit_register_pairs (op : LoadStorePairOpcode) : M unit :=
  for_each (seqZ 0 (Z.of_nat (length callee_saved_registers) / 2)) (fun k =>
    rt ← lift (callee_saved_registers !! Z.to_nat (2 * k));
    rt2 ← lift (callee_saved_registers !! Z.to_nat (2 * k + 1));
    emit_loadstorepair_immediate op rt rt2 SP (2 * k * 8)).

(** From the reservation of the callee-saved registers on. *)
Definition emit_prologue_body (ubpf_stack_size : Z) : M unit :=
  stack_size ← gets jstack_size;
  emit_addsub_immediate true AS_SUB SP SP stack_size;;
  emit_register_pairs LSP_STPX;;
  emit_addsub_immediate true AS_ADD R29 SP 0;;
  mode ← gets state_jit_mode;
  r10 ← map_register 10;
  (if decide (mode = BasicJitMode) then
     emit_addsub_immediate true AS_ADD r10 SP 0;;
     emit_addsub_immediate true AS_SUB SP SP ubpf_stack_size
   else
     emit_addsub_immediate true AS_ADD r10 R2 0;;
     emit_addsub_register true AS_ADD r10 r10 R3);;
  emit_logical_register true LOG_ORR VOLATILE_CTXT RZ R0;;
  emit_unconditionalbranch_immediate UBR_BL (Special Enter);;
  emit_unconditionalbranch_immediate UBR_B (Special Exit);;
  mret tt.

Definition emit_jit_prologue (ubpf_stack_size : Z) : M unit :=
  emit_addsub_immediate true AS_SUB SP SP 16;;
  emit_loadstorepair_immediate LSP_STPX R29 R30 SP 0;;
  modify (set_jstack_size (Z.of_nat (length callee_saved_registers) * 8));;
  emit_prologue_body ubpf_stack_size;;
  modify (fun st => set_entry_loc st.(joffset) st).

Definition emit_jit_epilogue : M unit :=
  modify (fun st => set_exit_loc st.(joffset) st);;
  r0 ← map_register 0;
  when (negb (r0 =? R0)) (emit_logical_register true LOG_ORR R0 RZ r0);;
  emit_addsub_immediate true AS_ADD SP R29 0;;
  emit_register_pairs LSP_LDPX;;
  stack_size ← gets jstack_size;
  emit_addsub_immediate true AS_ADD SP SP stack_size;;
  emit_loadstorepair_immediate LSP_LDPX R29 R30 SP 0;;
  emit_addsub_immediate true AS_ADD SP SP 16;;
  emit_unconditionalbranch_register BR_RET R30.

(** ** Calls *)

(** No dispatcher: the address of the helper out of the table, and the context as
    sixth argument. *)
Definition emit_helper_lookup (vm : ubpf_vm) (idx : Z) : M unit :=
  EMIT_MOVEWIDE_IMMEDIATE vm true R5 (u32 idx);;
  emit_movewide_immediate true R6 3;;
  emit_dataprocessing_twosource true DP2_LSLV R5 R5 R6;;
  emit_movewide_immediate true temp_register 0;;
  emit_adr (Special LoadHelperTable) temp_register;;
  emit_addsub_register true AS_ADD temp_register temp_register R5;;
  emit_loadstore_immediate LS_LDRX temp_register temp_register 0;;
  emit_logical_register true LOG_ORR R5 RZ VOLATILE_CTXT.

(** The last two arguments of the dispatcher: the index and the context. *)
Definition emit_dispatcher_arguments (vm : ubpf_vm) (idx : Z) : M unit :=
  EMIT_MOVEWIDE_IMMEDIATE vm true R5 (u32 idx);;
  emit_logical_register true LOG_ORR R6 RZ VOLATILE_CTXT.

Definition emit_dispatched_external_helper_call (vm : ubpf_vm) (idx : Z) : M unit :=
  let stack_movement := align_to 8 16 in
  emit_addsub_immediate true AS_SUB SP SP stack_movement;;
  emit_loadstore_immediate LS_STRX R30 SP 0;;
  emit_loadstore_literal LS_LDRL temp_register (Special ExternalDispatcher);;
  emit_addsub_immediate true AS_SUBS temp_register temp_register 0;;
  external_dispatcher_jump_source ← emit_conditionalbranch_immediate COND_NE (ebpf_target 0);
  emit_helper_lookup vm idx;;
  no_dispatcher_jump_source ← emit_unconditionalbranch_immediate UBR_B (ebpf_target 0);
  emit_jump_target external_dispatcher_jump_source;;
  emit_dispatcher_arguments vm idx;;
  emit_jump_target no_dispatcher_jump_source;;
  emit_unconditionalbranch_register BR_BLR temp_register;;
  dest ← map_register 0;
  when (negb (dest =? R0)) (emit_logical_register true LOG_ORR dest RZ R0);;
  emit_loadstore_immediate LS_LDRX R30 SP 0;;
  emit_addsub_immediate true AS_ADD SP SP stack_movement.

Definition emit_local_call (target_pc : Z) : M unit :=
  r6 ← map_register 6; r7 ← map_register 7; r8 ← map_register 8; r9 ← map_register 9; r10 ← map_register 10;
  emit_loadstore_immediate LS_LDRX temp_register SP 0;;
  emit_addsub_register true AS_SUB r10 r10 temp_register;;
  let stack_movement := align_to 48 16 in
  emit_addsub_immediate true AS_SUB SP SP stack_movement;;
  emit_loadstore_immediate LS_STRX R30 SP 0;;
  emit_loadstore_immediate LS_STRX temp_register SP 8;;
  emit_loadstorepair_immediate LSP_STPX r6 r7 SP 16;;
  emit_loadstorepair_immediate LSP_STPX r8 r9 SP 32;;
  emit_unconditionalbranch_immediate UBR_BL (ebpf_target target_pc);;
  emit_loadstore_immediate LS_LDRX R30 SP 0;;
  emit_loadstore_immediate LS_LDRX temp_register SP 8;;
  emit_loadstorepair_immediate LSP_LDPX r6 r7 SP 16;;
  emit_loadstorepair_immediate LSP_LDPX r8 r9 SP 32;;
  emit_addsub_immediate true AS_ADD SP SP stack_movement;;
  emit_addsub_register true AS_ADD r10 r10 temp_register.

(** ** Atomic operations *)

(** The address of the operand, into [addr_temp]. *)
Definition emit_atomic_address (vm : ubpf_vm) (addr_temp addr_reg off : Z) : M unit :=
  if negb (off =? 0) then
    let op := if off <? 0 then AS_SUB else AS_ADD in
    let abs_offset := if off <? 0 then - off else off in
    if abs_offset <? 256 then emit_addsub_immediate true op addr_temp addr_reg abs_offset
    else
      let offset_temp := if addr_temp =? offset_register then temp_div_register else offset_register in
      EMIT_MOVEWIDE_IMMEDIATE vm true offset_temp off;;
      emit_addsub_register true AS_ADD addr_temp addr_reg offset_temp
  else emit_logical_register true LOG_ORR addr_temp RZ addr_reg.

(** Store exclusive, and retry from [retry_loc] when it failed. *)
Definition emit_store_or_retry (is_64bit : bool) (value_reg addr_temp status_reg retry_loc : Z) : M unit :=
  emit_loadstore_exclusive (if is_64bit then LSE_STXRX else LSE_STXRW) value_reg addr_temp status_reg;;
  emit_addsub_immediate false AS_SUBS RZ status_reg 0;;
  emit_conditionalbranch_immediate COND_NE (jit_target_at retry_loc);;
  mret tt.

Definition emit_atomic_alu (is_64bit : bool) (alu_op op_result_reg load_reg value_reg : Z) : M unit :=
  if alu_op =? EBPF_ALU_OP_ADD then emit_addsub_register is_64bit AS_ADD op_result_reg load_reg value_reg
  else if alu_op =? EBPF_ALU_OP_OR then emit_logical_register is_64bit LOG_ORR op_result_reg load_reg value_reg
  else if alu_op =? EBPF_ALU_OP_AND then emit_logical_register is_64bit LOG_AND op_result_reg load_reg value_reg
  else if alu_op =? EBPF_ALU_OP_XOR then emit_logical_register is_64bit LOG_EOR op_result_reg load_reg value_reg
  else mret tt.

Definition emit_atomic_operation (vm : ubpf_vm) (is_64bit : bool)
    (value_reg addr_reg result_reg temp_reg status_reg off alu_op : Z) (is_cmpxchg is_xchg fetch : bool) : M unit :=
  let addr_temp := if status_reg =? temp_div_register then offset_register else temp_div_register in
  emit_atomic_address vm addr_temp addr_reg off;;
  retry_loc ← gets joffset;
  let load_reg := temp_reg in
  emit_loadstore_exclusive (if is_64bit then LSE_LDXRX else LSE_LDXRW) load_reg addr_temp RZ;;
  if is_cmpxchg : bool then
    expected_reg ← map_register 0;
    emit_addsub_register is_64bit AS_SUBS RZ load_reg expected_reg;;
    skip_store_src ← emit_conditionalbranch_immediate COND_NE (ebpf_target 0);
    emit_store_or_retry is_64bit value_reg addr_temp status_reg retry_loc;;
    emit_jump_target skip_store_src;;
    when (negb (result_reg =? load_reg)) (emit_logical_register is_64bit LOG_ORR result_reg RZ load_reg)
  else if is_xchg : bool then
    emit_store_or_retry is_64bit value_reg addr_temp status_reg retry_loc;;
    when (negb (result_reg =? load_reg)) (emit_logical_register is_64bit LOG_ORR result_reg RZ load_reg)
  else
    let op_result_reg := R8 in
    emit_atomic_alu is_64bit alu_op op_result_reg load_reg value_reg;;
    emit_store_or_retry is_64bit op_result_reg addr_temp status_reg retry_loc;;
    when (fetch && negb (result_reg =? load_reg)) (emit_logical_register is_64bit LOG_ORR result_reg RZ load_reg).

(** ** Data behind the code *)

Definition emit_dispatched_external_helper_address (dispatcher_addr : Z) : M Z :=
  here ← gets joffset;
  let adjustment := (4 - here mod 4) mod 4 in
  for_each (seqZ 0 adjustment) (fun _ => emit_bytes [0]);;
  helper_address ← gets joffset;
  emit_bytes (le_encode 8 dispatcher_addr);;
  mret helper_address.

Definition emit_helper_table (vm : ubpf_vm) : M Z :=
  helper_table_address_target ← gets joffset;
  for_each (seqZ 0 MAX_EXT_FUNCS) (fun i => f ← lift (vm.(ext_funcs) !! Z.to_nat i); emit_bytes (le_encode 8 f));;
  mret helper_table_address_target.

Definition divmod (opcode rd rn rm off : Z) : M unit :=
  let mod_ := opcode .& EBPF_ALU_OP_MASK =? opcode_of EBPF_OP_MOD_IMM .& EBPF_ALU_OP_MASK in
  let sixty_four := opcode .& EBPF_CLS_MASK =? EBPF_CLS_ALU64 in
  let is_signed := off =? 1 in
  let div_dest := if mod_ then temp_div_register else rd in
  let div_op := if is_signed then DP2_SDIV else DP2_UDIV in
  emit_dataprocessing_twosource sixty_four div_op div_dest rn rm;;
  when mod_ (emit_dataprocessing_threesource sixty_four DP3_MSUB rd rm div_dest rn).
