(* ===== verification/Arm64Trans.v ===== *)
(** * Arm64Trans: the arm64 back end

    The loop of [translate] of vm/ubpf_jit_arm64.c with its switch, the passes
    that fill in branch, load and address displacements, and
    [ubpf_translate_arm64]. *)

From Stdlib Require Import ZArith Lia Bool.
From stdpp Require Import base list gmap strings numbers.
From S2P Require Import Prelude Ebpf Vm JitSupport Arm64Emit.

Local Open Scope Z_scope.
Local Open Scope cbits_scope.

(** ** Classification of instructions *)

Definition is_imm_op (inst : ebpf_inst) : bool :=
  let opc := inst.(opcode) in
  let class := opc .& EBPF_CLS_MASK in
  let is_imm := opc .& EBPF_SRC_REG =? EBPF_SRC_IMM in
  let is_endian := opc .& EBPF_ALU_OP_MASK =? 0xd0 in
  let is_neg := opc .& EBPF_ALU_OP_MASK =? 0x80 in
  let is_call := opc =? opcode_of EBPF_OP_CALL in
  let is_exit := opc =? opcode_of EBPF_OP_EXIT in
  let is_ja := (opc =? opcode_of EBPF_OP_JA) || (opc =? opcode_of EBPF_OP_JA32) in
  let is_alu := ((class =? EBPF_CLS_ALU) || (class =? EBPF_CLS_ALU64)) && negb is_endian && negb is_neg in
  let is_jmp := (class =? EBPF_CLS_JMP) && negb is_ja && negb is_call && negb is_exit in
  let is_jmp32 := (class =? EBPF_CLS_JMP32) && negb (opc =? opcode_of EBPF_OP_JA32) in
  let is_store := class =? EBPF_CLS_ST in
  (is_imm && (is_alu || is_jmp || is_jmp32)) || is_store.

Definition is_alu64_op (inst : ebpf_inst) : bool :=
  let class := inst.(opcode) .& EBPF_CLS_MASK in
  (class =? EBPF_CLS_ALU64) || (class =? EBPF_CLS_JMP).

(** [None]: the assertion fails. *)
Definition is_simple_imm (inst : ebpf_inst) : option bool :=
  op ← switch_op inst.(opcode);
  match op with
  | EBPF_OP_ADD_IMM | EBPF_OP_ADD64_IMM | EBPF_OP_SUB_IMM | EBPF_OP_SUB64_IMM
  | EBPF_OP_JEQ_IMM | EBPF_OP_JGT_IMM | EBPF_OP_JGE_IMM | EBPF_OP_JNE_IMM | EBPF_OP_JSGT_IMM
  | EBPF_OP_JSGE_IMM | EBPF_OP_JLT_IMM | EBPF_OP_JLE_IMM | EBPF_OP_JSLT_IMM | EBPF_OP_JSLE_IMM
  | EBPF_OP_JEQ32_IMM | EBPF_OP_JGT32_IMM | EBPF_OP_JGE32_IMM | EBPF_OP_JNE32_IMM | EBPF_OP_JSGT32_IMM
  | EBPF_OP_JSGE32_IMM | EBPF_OP_JLT32_IMM | EBPF_OP_JLE32_IMM | EBPF_OP_JSLT32_IMM | EBPF_OP_JSLE32_IMM =>
      Some ((0 <=? inst.(imm)) && (inst.(imm) <? 0x1000))
  | EBPF_OP_MOV_IMM | EBPF_OP_MOV64_IMM => Some true
  | EBPF_OP_AND_IMM | EBPF_OP_AND64_IMM | EBPF_OP_OR_IMM | EBPF_OP_OR64_IMM | EBPF_OP_XOR_IMM | EBPF_OP_XOR64_IMM =>
      Some false
  | EBPF_OP_ARSH_IMM | EBPF_OP_ARSH64_IMM | EBPF_OP_LSH_IMM | EBPF_OP_LSH64_IMM | EBPF_OP_RSH_IMM
  | EBPF_OP_RSH64_IMM => Some false
  | EBPF_OP_JSET_IMM | EBPF_OP_JSET32_IMM => Some false
  | EBPF_OP_DIV_IMM | EBPF_OP_DIV64_IMM | EBPF_OP_MOD_IMM | EBPF_OP_MOD64_IMM | EBPF_OP_MUL_IMM
  | EBPF_OP_MUL64_IMM => Some false
  | EBPF_OP_STB | EBPF_OP_STH | EBPF_OP_STW | EBPF_OP_STDW => Some false
  | _ => None
  end.

Definition to_reg_op (opcode : Z) : option Z :=
  let class := opcode .& EBPF_CLS_MASK in
  if (class =? EBPF_CLS_ALU64) || (class =? EBPF_CLS_ALU) || (class =? EBPF_CLS_JMP) || (class =? EBPF_CLS_JMP32) then
    Some (u8 (opcode .| EBPF_SRC_REG))
  else if class =? EBPF_CLS_ST then Some (u8 ((opcode .& Z.lnot EBPF_CLS_MASK) .| EBPF_CLS_STX))
  else None.

Definition to_addsub_opcode (op : ebpf_op) : option AddSubOpcode :=
  match op with
  | EBPF_OP_ADD_IMM | EBPF_OP_ADD_REG | EBPF_OP_ADD64_IMM | EBPF_OP_ADD64_REG => Some AS_ADD
  | EBPF_OP_SUB_IMM | EBPF_OP_SUB_REG | EBPF_OP_SUB64_IMM | EBPF_OP_SUB64_REG => Some AS_SUB
  | _ => None
  end.

Definition to_logical_opcode (op : ebpf_op) : option LogicalOpcode :=
  match op with
  | EBPF_OP_OR_IMM | EBPF_OP_OR_REG | EBPF_OP_OR64_IMM | EBPF_OP_OR64_REG => Some LOG_ORR
  | EBPF_OP_AND_IMM | EBPF_OP_AND_REG | EBPF_OP_AND64_IMM | EBPF_OP_AND64_REG => Some LOG_AND
  | EBPF_OP_XOR_IMM | EBPF_OP_XOR_REG | EBPF_OP_XOR64_IMM | EBPF_OP_XOR64_REG => Some LOG_EOR
  | _ => None
  end.

Definition to_dp1_opcode (op : ebpf_op) (imm : Z) : option DP1Opcode :=
  match op with
  | EBPF_OP_BE | EBPF_OP_LE | EBPF_OP_BSWAP =>
      let imm := u32 imm in
      if imm =? 16 then Some DP1_REV16
      else if imm =? 32 then Some DP1_REV32
      else if imm =? 64 then Some DP1_REV64
      else None
  | _ => None
  end.

Definition to_dp2_opcode (op : ebpf_op) : option DP2Opcode :=
  match op with
  | EBPF_OP_LSH_IMM | EBPF_OP_LSH_REG | EBPF_OP_LSH64_IMM | EBPF_OP_LSH64_REG => Some DP2_LSLV
  | EBPF_OP_RSH_IMM | EBPF_OP_RSH_REG | EBPF_OP_RSH64_IMM | EBPF_OP_RSH64_REG => Some DP2_LSRV
  | EBPF_OP_ARSH_IMM | EBPF_OP_ARSH_REG | EBPF_OP_ARSH64_IMM | EBPF_OP_ARSH64_REG => Some DP2_ASRV
  | EBPF_OP_DIV_IMM | EBPF_OP_DIV_REG | EBPF_OP_DIV64_IMM | EBPF_OP_DIV64_REG => Some DP2_UDIV
  | _ => None
  end.

Definition to_loadstore_opcode (op : ebpf_op) : option LoadStoreOpcode :=
  match op with
  | EBPF_OP_LDXW => Some LS_LDRW
  | EBPF_OP_LDXH => Some LS_LDRH
  | EBPF_OP_LDXB => Some LS_LDRB
  | EBPF_OP_LDXDW => Some LS_LDRX
  | EBPF_OP_LDXWSX => Some LS_LDRSW
  | EBPF_OP_LDXHSX => Some LS_LDRSHX
  | EBPF_OP_LDXBSX => Some LS_LDRSBX
  | EBPF_OP_STW | EBPF_OP_STXW => Some LS_STRW
  | EBPF_OP_STH | EBPF_OP_STXH => Some LS_STRH
  | EBPF_OP_STB | EBPF_OP_STXB => Some LS_STRB
  | EBPF_OP_STDW | EBPF_OP_STXDW => Some LS_STRX
  | _ => None
  end.

Definition to_condition (opcode : Z) : option Condition :=
  let jmp_type := opcode .& EBPF_JMP_OP_MASK in
  if jmp_type =? EBPF_MODE_JEQ then Some COND_EQ
  else if jmp_type =? EBPF_MODE_JGT then Some COND_HI
  else if jmp_type =? EBPF_MODE_JGE then Some COND_HS
  else if jmp_type =? EBPF_MODE_JLT then Some COND_LO
  else if jmp_type =? EBPF_MODE_JLE then Some COND_LS
  else if jmp_type =? EBPF_MODE_JSET then Some COND_NE
  else if jmp_type =? EBPF_MODE_JNE then Some COND_NE
  else if jmp_type =? EBPF_MODE_JSGT then Some COND_GT
  else if jmp_type =? EBPF_MODE_JSGE then Some COND_GE
  else if jmp_type =? EBPF_MODE_JSLT then Some COND_LT
  else if jmp_type =? EBPF_MODE_JSLE then Some COND_LE
  else None.

(** ** The start of a local function *)

Definition emit_fallthrough_jump (vm : ubpf_vm) (i : Z) (starts_function : bool) : M (option Z) :=
  if negb (i =? 0) && starts_function then
    prev_inst ← lift (ubpf_fetch_instruction vm (i - 1));
    if ubpf_instruction_has_fallthrough prev_inst then
      source ← emit_unconditionalbranch_immediate UBR_B (ebpf_target 0);
      mret (Some source)
    else mret None
  else mret None.

Definition emit_function_prolog (vm : ubpf_vm) (i : Z) : M unit :=
  prolog_start ← gets joffset;
  stack_usage ← lift (ubpf_stack_usage_for_local_func vm i);
  emit_movewide_immediate true temp_register stack_usage;;
  emit_addsub_immediate true AS_SUB SP SP 16;;
  emit_loadstorepair_immediate LSP_STPX temp_register temp_register SP 0;;
  here ← gets joffset;
  size ← gets bpf_function_prolog_size;
  if size =? 0 then modify (set_bpf_function_prolog_size (here - prolog_start))
  else assertion (size =? here - prolog_start).

Definition emit_function_start (vm : ubpf_vm) (i : Z) : M unit :=
  starts_function ← (if i =? 0 then mret false
                     else lift (flags ← vm.(int_funcs); flags !! Z.to_nat i));
  fallthrough_jump_source ← emit_fallthrough_jump vm i starts_function;
  when ((i =? 0) || starts_function) (emit_function_prolog vm i);;
  match fallthrough_jump_source with
  | Some source => here ← gets joffset; modify_jumps source (jit_target_at here)
  | None => mret tt
  end.

(** An immediate operand that does not fit its instruction, or any under constant
    blinding, goes to the temporary register: the source register and the opcode
    of the register form. *)
Definition emit_immediate_operand (vm : ubpf_vm) (inst : ebpf_inst) (src : Z) (sixty_four : bool) : M (Z * Z) :=
  let opc := inst.(opcode) in
  if is_imm_op inst && negb (opc =? opcode_of EBPF_OP_MOV_IMM) && negb (opc =? opcode_of EBPF_OP_MOV64_IMM) then
    simple ← lift (is_simple_imm inst);
    if negb simple || vm.(constant_blinding_enabled) then
      EMIT_MOVEWIDE_IMMEDIATE vm sixty_four temp_register inst.(imm);;
      opc ← lift (to_reg_op opc);
      mret (temp_register, opc)
    else mret (src, opc)
  else mret (src, opc).

(** ** The switch *)

Definition emit_alu_inst (vm : ubpf_vm) (op : ebpf_op) (opc : Z) (inst : ebpf_inst) (src dst : Z) (sixty_four : bool)
    : M unit :=
  match op with
  | EBPF_OP_ADD_IMM | EBPF_OP_ADD64_IMM | EBPF_OP_SUB_IMM | EBPF_OP_SUB64_IMM =>
      o ← lift (to_addsub_opcode op); emit_addsub_immediate sixty_four o dst dst inst.(imm)
  | EBPF_OP_ADD_REG | EBPF_OP_ADD64_REG | EBPF_OP_SUB_REG | EBPF_OP_SUB64_REG =>
      o ← lift (to_addsub_opcode op); emit_addsub_register sixty_four o dst dst src
  | EBPF_OP_LSH_REG | EBPF_OP_RSH_REG | EBPF_OP_ARSH_REG | EBPF_OP_LSH64_REG | EBPF_OP_RSH64_REG
  | EBPF_OP_ARSH64_REG =>
      o ← lift (to_dp2_opcode op); emit_dataprocessing_twosource sixty_four o dst dst src
  | EBPF_OP_MUL_REG | EBPF_OP_MUL64_REG => emit_dataprocessing_threesource sixty_four DP3_MADD dst dst src RZ
  | EBPF_OP_DIV_REG | EBPF_OP_MOD_REG | EBPF_OP_DIV64_REG | EBPF_OP_MOD64_REG =>
      divmod opc dst dst src inst.(offset)
  | EBPF_OP_OR_REG | EBPF_OP_AND_REG | EBPF_OP_XOR_REG | EBPF_OP_OR64_REG | EBPF_OP_AND64_REG
  | EBPF_OP_XOR64_REG =>
      o ← lift (to_logical_opcode op); emit_logical_register sixty_four o dst dst src
  | EBPF_OP_NEG | EBPF_OP_NEG64 => emit_addsub_register sixty_four AS_SUB dst RZ dst
  | EBPF_OP_MOV_IMM | EBPF_OP_MOV64_IMM => EMIT_MOVEWIDE_IMMEDIATE vm sixty_four dst inst.(imm)
  | EBPF_OP_MOV_REG | EBPF_OP_MOV64_REG =>
      if inst.(offset) =? 8 then
        emit_instruction ((if sixty_four then 0x93401C00 else 0x13001C00) .| (src .<< 5) .| dst)
      else if inst.(offset) =? 16 then
        emit_instruction ((if sixty_four then 0x93403C00 else 0x13003C00) .| (src .<< 5) .| dst)
      else if (inst.(offset) =? 32) && sixty_four then emit_instruction (0x93407C00 .| (src .<< 5) .| dst)
      else emit_logical_register sixty_four LOG_ORR dst RZ src
  | _ => mret tt
  end.

(** On a little-endian machine. *)
Definition emit_endian_inst (op : ebpf_op) (inst : ebpf_inst) (dst : Z) (sixty_four : bool) : M unit :=
  let uxth := emit_instruction (0x53003c00 .| (dst .<< 5) .| dst) in
  let uxtw := emit_instruction (0x53007c00 .| (dst .<< 5) .| dst) in
  match op with
  | EBPF_OP_LE => if inst.(imm) =? 16 then uxth else if inst.(imm) =? 32 then uxtw else mret tt
  | EBPF_OP_BE =>
      o ← lift (to_dp1_opcode op inst.(imm));
      emit_dataprocessing_onesource sixty_four o dst dst;;
      when (inst.(imm) =? 16) uxth
  | EBPF_OP_BSWAP =>
      o ← lift (to_dp1_opcode op inst.(imm));
      emit_dataprocessing_onesource sixty_four o dst dst;;
      if inst.(imm) =? 16 then uxth else if inst.(imm) =? 32 then uxtw else mret tt
  | _ => mret tt
  end.

(** A comparison and the branch on its outcome. *)
Definition emit_jump_inst (op : ebpf_op) (opc : Z) (inst : ebpf_inst) (src dst : Z) (sixty_four : bool)
    (tgt : PatchableTarget) : M unit :=
  match op with
  | EBPF_OP_JA | EBPF_OP_JA32 => emit_unconditionalbranch_immediate UBR_B tgt;; mret tt
  | EBPF_OP_JEQ_IMM | EBPF_OP_JGT_IMM | EBPF_OP_JGE_IMM | EBPF_OP_JLT_IMM | EBPF_OP_JLE_IMM | EBPF_OP_JNE_IMM
  | EBPF_OP_JSGT_IMM | EBPF_OP_JSGE_IMM | EBPF_OP_JSLT_IMM | EBPF_OP_JSLE_IMM
  | EBPF_OP_JEQ32_IMM | EBPF_OP_JGT32_IMM | EBPF_OP_JGE32_IMM | EBPF_OP_JLT32_IMM | EBPF_OP_JLE32_IMM
  | EBPF_OP_JNE32_IMM | EBPF_OP_JSGT32_IMM | EBPF_OP_JSGE32_IMM | EBPF_OP_JSLT32_IMM | EBPF_OP_JSLE32_IMM =>
      emit_addsub_immediate sixty_four AS_SUBS RZ dst inst.(imm);;
      cond ← lift (to_condition opc);
      emit_conditionalbranch_immediate cond tgt;; mret tt
  | EBPF_OP_JEQ_REG | EBPF_OP_JGT_REG | EBPF_OP_JGE_REG | EBPF_OP_JLT_REG | EBPF_OP_JLE_REG | EBPF_OP_JNE_REG
  | EBPF_OP_JSGT_REG | EBPF_OP_JSGE_REG | EBPF_OP_JSLT_REG | EBPF_OP_JSLE_REG
  | EBPF_OP_JEQ32_REG | EBPF_OP_JGT32_REG | EBPF_OP_JGE32_REG | EBPF_OP_JLT32_REG | EBPF_OP_JLE32_REG
  | EBPF_OP_JNE32_REG | EBPF_OP_JSGT32_REG | EBPF_OP_JSGE32_REG | EBPF_OP_JSLT32_REG | EBPF_OP_JSLE32_REG =>
      emit_addsub_register sixty_four AS_SUBS RZ dst src;;
      cond ← lift (to_condition opc);
      emit_conditionalbranch_immediate cond tgt;; mret tt
  | EBPF_OP_JSET_REG | EBPF_OP_JSET32_REG =>
      emit_logical_register sixty_four LOG_ANDS RZ dst src;;
      cond ← lift (to_condition opc);
      emit_conditionalbranch_immediate cond tgt;; mret tt
  | _ => mret tt
  end.

Definition emit_call_inst (vm : ubpf_vm) (i : Z) (inst : ebpf_inst) : M unit :=
  if inst.(src) =? 0 then
    emit_dispatched_external_helper_call vm inst.(imm);;
    when (inst.(imm) =? vm.(unwind_stack_extension_index))
      (r0 ← map_register 0;
       emit_addsub_immediate true AS_SUBS RZ r0 0;;
       emit_conditionalbranch_immediate COND_EQ (Special Exit);; mret tt)
  else if inst.(src) =? 1 then emit_local_call (i + inst.(imm) + 1)
  else emit_unconditionalbranch_immediate UBR_B (Special Exit);; mret tt.

(** A load or store of [rt] at [base + offset]. *)
Definition emit_memory_access (vm : ubpf_vm) (op : ebpf_op) (rt base off : Z) : M unit :=
  o ← lift (to_loadstore_opcode op);
  if (-256 <=? off) && (off <? 256) then emit_loadstore_immediate o rt base off
  else
    let addr_temp := temp_div_register in
    let addsub := if off <? 0 then AS_SUB else AS_ADD in
    let abs_offset := if off <? 0 then - off else off in
    (if abs_offset <? 0x1000 then emit_addsub_immediate true addsub addr_temp base abs_offset
     else
       EMIT_MOVEWIDE_IMMEDIATE vm true offset_register (u32 abs_offset);;
       emit_addsub_register true addsub addr_temp base offset_register);;
    emit_loadstore_immediate o rt addr_temp 0.

(** A store swaps the roles of its registers. *)
Definition emit_memory_inst (vm : ubpf_vm) (op : ebpf_op) (inst : ebpf_inst) (src dst : Z) : M unit :=
  match op with
  | EBPF_OP_STXW | EBPF_OP_STXH | EBPF_OP_STXB | EBPF_OP_STXDW => emit_memory_access vm op src dst inst.(offset)
  | _ => emit_memory_access vm op dst src inst.(offset)
  end.

(** [false]: an unknown atomic operation. *)
Definition emit_atomic_inst (vm : ubpf_vm) (is_64bit : bool) (inst : ebpf_inst) (src dst : Z) : M bool :=
  let fetch := negb (inst.(imm) .& EBPF_ATOMIC_OP_FETCH =? 0) in
  let op := inst.(imm) .& EBPF_ALU_OP_MASK in
  let emit result_reg alu_op is_cmpxchg is_xchg fetch :=
    emit_atomic_operation vm is_64bit src dst result_reg temp_register temp_div_register inst.(offset) alu_op
      is_cmpxchg is_xchg fetch;; mret true in
  if op =? EBPF_ALU_OP_ADD then emit src EBPF_ALU_OP_ADD false false fetch
  else if op =? EBPF_ALU_OP_OR then emit src EBPF_ALU_OP_OR false false fetch
  else if op =? EBPF_ALU_OP_AND then emit src EBPF_ALU_OP_AND false false fetch
  else if op =? EBPF_ALU_OP_XOR then emit src EBPF_ALU_OP_XOR false false fetch
  else if op =? EBPF_ATOMIC_OP_XCHG .& Z.lnot EBPF_ATOMIC_OP_FETCH then emit src 0 false true true
  else if op =? EBPF_ATOMIC_OP_CMPXCHG .& Z.lnot EBPF_ATOMIC_OP_FETCH then
    r0 ← map_register 0; emit r0 0 true false true
  else mret false.

Definition emit_atomic64_inst (vm : ubpf_vm) (inst : ebpf_inst) (src dst : Z) : M bool :=
  emit_atomic_inst vm true inst src dst.
Definition emit_atomic32_inst (vm : ubpf_vm) (inst : ebpf_inst) (src dst : Z) : M bool :=
  emit_atomic_inst vm false inst src dst.

(** Which part of the switch an opcode belongs to. *)
Inductive inst_class : Type :=
| ClassAlu | ClassEndian | ClassJump | ClassCall | ClassExit | ClassMemory | ClassLddw | ClassAtomic64 | ClassAtomic32
| ClassUnexpected.

Definition class_of (op : ebpf_op) : inst_class :=
  match op with
  | EBPF_OP_LE | EBPF_OP_BE | EBPF_OP_BSWAP => ClassEndian
  | EBPF_OP_CALL => ClassCall
  | EBPF_OP_EXIT => ClassExit
  | EBPF_OP_LDDW => ClassLddw
  | EBPF_OP_ATOMIC_STORE => ClassAtomic64
  | EBPF_OP_ATOMIC32_STORE => ClassAtomic32
  | EBPF_OP_STXW | EBPF_OP_STXH | EBPF_OP_STXB | EBPF_OP_STXDW
  | EBPF_OP_LDXW | EBPF_OP_LDXH | EBPF_OP_LDXB | EBPF_OP_LDXDW | EBPF_OP_LDXWSX | EBPF_OP_LDXHSX
  | EBPF_OP_LDXBSX => ClassMemory
  | EBPF_OP_MUL_IMM | EBPF_OP_MUL64_IMM | EBPF_OP_DIV_IMM | EBPF_OP_MOD_IMM | EBPF_OP_DIV64_IMM
  | EBPF_OP_MOD64_IMM | EBPF_OP_STW | EBPF_OP_STH | EBPF_OP_STB | EBPF_OP_STDW | EBPF_OP_JSET_IMM
  | EBPF_OP_JSET32_IMM | EBPF_OP_OR_IMM | EBPF_OP_AND_IMM | EBPF_OP_XOR_IMM | EBPF_OP_OR64_IMM
  | EBPF_OP_AND64_IMM | EBPF_OP_XOR64_IMM | EBPF_OP_LSH_IMM | EBPF_OP_RSH_IMM | EBPF_OP_ARSH_IMM
  | EBPF_OP_LSH64_IMM | EBPF_OP_RSH64_IMM | EBPF_OP_ARSH64_IMM => ClassUnexpected
  | EBPF_OP_JA | EBPF_OP_JA32
  | EBPF_OP_JEQ_IMM | EBPF_OP_JGT_IMM | EBPF_OP_JGE_IMM | EBPF_OP_JLT_IMM | EBPF_OP_JLE_IMM | EBPF_OP_JNE_IMM
  | EBPF_OP_JSGT_IMM | EBPF_OP_JSGE_IMM | EBPF_OP_JSLT_IMM | EBPF_OP_JSLE_IMM
  | EBPF_OP_JEQ32_IMM | EBPF_OP_JGT32_IMM | EBPF_OP_JGE32_IMM | EBPF_OP_JLT32_IMM | EBPF_OP_JLE32_IMM
  | EBPF_OP_JNE32_IMM | EBPF_OP_JSGT32_IMM | EBPF_OP_JSGE32_IMM | EBPF_OP_JSLT32_IMM | EBPF_OP_JSLE32_IMM
  | EBPF_OP_JEQ_REG | EBPF_OP_JGT_REG | EBPF_OP_JGE_REG | EBPF_OP_JLT_REG | EBPF_OP_JLE_REG | EBPF_OP_JNE_REG
  | EBPF_OP_JSGT_REG | EBPF_OP_JSGE_REG | EBPF_OP_JSLT_REG | EBPF_OP_JSLE_REG
  | EBPF_OP_JEQ32_REG | EBPF_OP_JGT32_REG | EBPF_OP_JGE32_REG | EBPF_OP_JLT32_REG | EBPF_OP_JLE32_REG
  | EBPF_OP_JNE32_REG | EBPF_OP_JSGT32_REG | EBPF_OP_JSGE32_REG | EBPF_OP_JSLT32_REG | EBPF_OP_JSLE32_REG
  | EBPF_OP_JSET_REG | EBPF_OP_JSET32_REG => ClassJump
  | _ => ClassAlu
  end.

(** The index of the last slot used, and the message. *)
Definition emit_switch (vm : ubpf_vm) (i : Z) (inst : ebpf_inst) (opc src dst : Z) (sixty_four : bool)
    (tgt : PatchableTarget) : M (Z * option jit_error) :=
  let unknown :=
    modify (set_jit_status UnknownInstruction);; mret (i, Some (UnknownInstructionAt i opc)) in
  match switch_op opc with
  | None => unknown
  | Some op =>
      match class_of op with
      | ClassAlu => emit_alu_inst vm op opc inst src dst sixty_four;; mret (i, None)
      | ClassEndian => emit_endian_inst op inst dst sixty_four;; mret (i, None)
      | ClassJump => emit_jump_inst op opc inst src dst sixty_four tgt;; mret (i, None)
      | ClassCall => emit_call_inst vm i inst;; mret (i, None)
      | ClassExit =>
          emit_addsub_immediate true AS_ADD SP SP 16;;
          emit_unconditionalbranch_register BR_RET R30;; mret (i, None)
      | ClassMemory => emit_memory_inst vm op inst src dst;; mret (i, None)
      | ClassLddw =>
          inst2 ← lift (ubpf_fetch_instruction vm (i + 1));
          EMIT_MOVEWIDE_IMMEDIATE vm true dst (u32 inst.(imm) .| u64 (u64 inst2.(imm) .<< 32));;
          mret (i + 1, None)
      | ClassAtomic64 =>
          ok ← emit_atomic64_inst vm inst src dst;
          if ok : bool then mret (i, None)
          else modify (set_jit_status UnknownInstruction);; mret (i, Some (UnknownAtomicOpcode inst.(imm) i))
      | ClassAtomic32 =>
          ok ← emit_atomic32_inst vm inst src dst;
          if ok : bool then mret (i, None)
          else modify (set_jit_status UnknownInstruction);; mret (i, Some (UnknownAtomicOpcode inst.(imm) i))
      | ClassUnexpected => modify (set_jit_status UnexpectedInstruction);; unknown
      end
  end.

(** One turn of the loop: the body and [i++]. *)
Definition translate_inst (vm : ubpf_vm) (i : Z) : M (Z * option jit_error) :=
  inst ← lift (ubpf_fetch_instruction vm i);
  emit_function_start vm i;;
  set_pc_loc i;;
  dst ← map_register inst.(dst);
  src ← map_register inst.(src);
  let tgt := ebpf_target (jump_target_pc i inst) in
  let sixty_four := is_alu64_op inst in
  '(src, opc) ← emit_immediate_operand vm inst src sixty_four;
  '(i', msg) ← emit_switch vm i inst opc src dst sixty_four tgt;
  mret (i' + 1, msg).

(** The loop, with the last message; undefined when the fuel runs out. *)
Fixpoint translate_loop (fuel : nat) (vm : ubpf_vm) (i : Z) (errmsg : option jit_error) : M (option jit_error) :=
  match fuel with
  | O => undefined
  | S fuel' =>
      status ← gets jit_status;
      if negb (i <? vm.(num_insts)) || bool_decide (status <> NoError) then mret errmsg
      else
        '(i', msg) ← translate_inst vm i;
        translate_loop fuel' vm i' (match msg with Some e => Some e | None => errmsg end)
  end.

(** The message for a status other than [NoError]. *)
Definition status_error (status : JitProgress) (errmsg : option jit_error) : option jit_error :=
  match status with
  | NoError => None
  | TooManyJumps => Some TooManyJumpInstructions
  | TooManyLoads => Some TooManyLoadInstructions
  | TooManyLeas => Some TooManyLeaCalculations
  | TooManyLocalCalls => Some TooManyLocalCallsError
  | NotEnoughSpace => Some TargetBufferTooSmall
  | UnexpectedInstruction | UnknownInstruction => errmsg
  end.

Definition translate (vm : ubpf_vm) : M (result unit jit_error) :=
  emit_jit_prologue UBPF_EBPF_STACK_SIZE;;
  errmsg ← translate_loop (S (Z.to_nat vm.(num_insts))) vm 0 None;
  status ← gets jit_status;
  match status with
  | NoError =>
      emit_jit_epilogue;;
      dispatcher_loc ← emit_dispatched_external_helper_address vm.(dispatcher);
      modify (set_dispatcher_loc dispatcher_loc);;
      helper_table_loc ← emit_helper_table vm;
      modify (set_helper_table_loc helper_table_loc);;
      mret (Ok tt)
  | _ => e ← lift (status_error status errmsg); mret (Err e)
  end.

(** ** Patching *)

(** [memcpy(&instr, state->buf + offset, 4)] *)
Definition read_word (off : Z) : M Z := fun st =>
  if (0 <=? off) && (off + 4 <=? Z.of_nat (length st.(buf))) then Some (le_decode (bytes_at st.(buf) off 4), st) else None.

Definition resolve_branch_immediate (off imm : Z) : M unit :=
  assertion (imm .& 3 =? 0);;
  let imm := imm .>> 2 in
  instr ← read_word off;
  instr ←
    (if (instr .& 0xfe000000 =? 0x54000000) || (instr .& 0x7e000000 =? 0x34000000) then
       assertion ((imm .>> 19 =? -1) || (imm .>> 19 =? 0));;
       mret (instr .| ((imm .& 0x7ffff) .<< 5))
     else if instr .& 0x7c000000 =? 0x14000000 then
       assertion ((imm .>> 26 =? -1) || (imm .>> 26 =? 0));;
       mret (instr .| (imm .& 0x03ffffff))
     else undefined);
  memcpy_buf off (le_encode 4 instr).

Definition resolve_load_literal (instr_offset target_offset : Z) : M unit :=
  instr ← read_word instr_offset;
  memcpy_buf instr_offset (le_encode 4 (instr .| ((0x7ffff .& target_offset) .<< 5))).

Definition resolve_adr (instr_offset immediate : Z) : M unit :=
  instr ← read_word instr_offset;
  memcpy_buf instr_offset (le_encode 4 (instr .| u32 ((immediate .& 0x00ffffff) .<< 5))).

(** The [target_loc] of a jump: [Some None] is [return false], [None] a read past
    [pc_locs]. *)
Definition jump_target_loc (st : jit_state) (tgt : PatchableTarget) : option (option Z) :=
  match tgt with
  | Special Exit => Some (Some st.(exit_loc))
  | Special Enter => Some (Some st.(entry_loc))
  | Special _ => Some None
  | Regular r =>
      if negb (r.(jit_target_pc) =? 0) then Some (Some r.(jit_target_pc))
      else Some <$> pc_loc st r.(ebpf_target_pc)
  end.

Definition resolve_jump (jump : patchable_relative) : M bool :=
  target_loc ← (fun st => (fun r => (r, st)) <$> jump_target_loc st jump.(target));
  match target_loc with
  | None => mret false
  | Some target_loc =>
      let rel := s32 (s32 target_loc - jump.(offset_loc)) in
      resolve_branch_immediate jump.(offset_loc) rel;; mret true
  end.

Definition resolve_load (jump : patchable_relative) : M bool :=
  if decide (jump.(target) = Special ExternalDispatcher) then
    target_loc ← gets dispatcher_loc;
    let rel := s32 (s32 target_loc - jump.(offset_loc)) in
    assertion (Z.rem rel 4 =? 0);;
    resolve_load_literal jump.(offset_loc) (rel .>> 2);; mret true
  else mret false.

Definition resolve_lea (jump : patchable_relative) : M bool :=
  if decide (jump.(target) = Special LoadHelperTable) then
    target_loc ← gets helper_table_loc;
    let rel := s32 (s32 target_loc - jump.(offset_loc)) in
    assertion (Z.rem rel 4 =? 0);;
    resolve_adr jump.(offset_loc) (rel .>> 2);; mret true
  else mret false.

Definition resolve_local_call (local_call : patchable_relative) : M bool :=
  match local_call.(target) with
  | Special _ => undefined
  | Regular r =>
      target_loc ← (fun st => (fun l => (l, st)) <$> pc_loc st r.(ebpf_target_pc));
      prolog ← gets bpf_function_prolog_size;
      let rel := s32 (s32 target_loc - local_call.(offset_loc)) in
      let rel := s32 (rel - prolog) in
      resolve_branch_immediate local_call.(offset_loc) rel;; mret true
  end.

Definition resolve_jumps : M bool := table ← gets jumps; resolve_all resolve_jump table.
Definition resolve_loads : M bool := table ← gets loads; resolve_all resolve_load table.
Definition resolve_leas : M bool := table ← gets leas; resolve_all resolve_lea table.
Definition resolve_local_calls : M bool := table ← gets local_calls; resolve_all resolve_local_call table.

(** The four passes, in their order: the first that fails ends them. *)
Definition resolve_passes : M bool :=
  ok ← resolve_jumps;
  if negb ok then mret false
  else
    ok ← resolve_loads;
    if negb ok then mret false
    else
      ok ← resolve_leas;
      if negb ok then mret false else resolve_local_calls.

(** ** The back end *)

(** Gives the result record with its message, the buffer and [*size].
    [None]: undefined behaviour. *)
Definition ubpf_translate_arm64 (vm : ubpf_vm) (alloc : nat -> bool) (random : nat -> Z) (buffer : list Z) (size : Z)
    (mode : JitMode) : option (ubpf_jit_result * option jit_error * list Z * Z) :=
  let '(init, failure) := initialize_jit_state_result alloc buffer size mode random in
  match init with
  | None => Some (failure, Some AllocationFailed, buffer, size)
  | Some st =>
      '(r, st) ← translate vm st;
      match r with
      | Err e => Some (failure, Some e, st.(buf), size)
      | Ok _ =>
          '(ok, st) ← resolve_passes st;
          if negb ok then Some (failure, Some CannotPatch, st.(buf), size)
          else
            Some (JitResult st.(dispatcher_loc) st.(helper_table_loc) UBPF_JIT_COMPILE_SUCCESS mode,
                  None, st.(buf), st.(joffset))
      end
  end.
