(* ===== verification/Arm64Isa.v ===== *)
(** * Arm64Isa: the A64 instructions the arm64 back end computes with

    Decoding and the effect on the registers and flags of the data-processing
    instructions the arm64 back end emits, after the Arm Architecture Reference
    Manual, and that the encoders of [Arm64Emit] and this decoder agree. *)

From Stdlib Require Import ZArith Lia Bool.
From stdpp Require Import base list gmap strings numbers.
From S2P Require Import Prelude Ebpf Vm JitSupport Arm64Emit.

Local Open Scope Z_scope.
Local Open Scope cbits_scope.

(** ** Instructions *)

(** The [n] bits of [w] from bit [lo]. *)
Definition field (w lo n : Z) : Z := wrap n (w .>> lo).

Definition flag (w lo : Z) : bool := field w lo 1 =? 1.

Inductive a64_inst : Type :=
| MoveWide (sf : bool) (opc hw imm16 rd : Z)
| Logical (sf : bool) (opc : Z) (invert : bool) (rd rn rm : Z)
| AddSub (sf sub setflags : bool) (rd rn rm : Z)
| AddSubImm (sf sub setflags : bool) (rd rn imm : Z)
| Reverse (sf : bool) (opc rd rn : Z)
| TwoSource (sf : bool) (opc rd rn rm : Z)
| MulAdd (sf sub : bool) (rd rn rm ra : Z)
| Extend (sf signed : bool) (bits rd rn : Z).

(** Shifted operands and rotations are not used: their fields have to be zero. *)
Definition a64_decode (w : Z) : option a64_inst :=
  let sf := flag w 31 in
  let rd := field w 0 5 in
  let rn := field w 5 5 in
  let rm := field w 16 5 in
  if field w 23 6 =? 0x25 then Some (MoveWide sf (field w 29 2) (field w 21 2) (field w 5 16) rd)
  else if field w 24 5 =? 0x0a then
    if (field w 22 2 =? 0) && (field w 10 6 =? 0) then Some (Logical sf (field w 29 2) (flag w 21) rd rn rm) else None
  else if field w 24 5 =? 0x0b then
    if (field w 21 3 =? 0) && (field w 10 6 =? 0) then Some (AddSub sf (flag w 30) (flag w 29) rd rn rm) else None
  else if field w 23 6 =? 0x22 then
    Some (AddSubImm sf (flag w 30) (flag w 29) rd rn (field w 10 12 .<< (if flag w 22 then 12 else 0)))
  else if (field w 24 5 =? 0x1b) && (field w 29 2 =? 0) && (field w 21 3 =? 0) then
    Some (MulAdd sf (flag w 15) rd rn rm (field w 10 5))
  else if (field w 21 8 =? 0xd6) && negb (flag w 29) then
    if flag w 30 then if field w 16 5 =? 0 then Some (Reverse sf (field w 10 6) rd rn) else None
    else Some (TwoSource sf (field w 10 6) rd rn rm)
  else if (field w 23 6 =? 0x26) && (field w 16 6 =? 0) && (field w 29 1 =? 0) && Bool.eqb (flag w 22) sf then
    Some (Extend sf (negb (flag w 30)) (field w 10 6 + 1) rd rn)
  else None.

(** ** Execution *)

Record nzcv : Type := Nzcv { fN : bool; fZ : bool; fC : bool; fV : bool }.

Record a64_state : Type := A64 {
  xregs : Z -> Z;  (* X0 .. X30 *)
  pstate : nzcv;
}.

Definition width (sf : bool) : Z := if sf then 64 else 32.

(** Register 31 reads as zero and ignores writes; in the immediate forms of
    addition and subtraction it is the stack pointer, which is not modelled. *)
Definition read_reg (s : a64_state) (sf : bool) (r : Z) : Z :=
  if r =? 31 then 0 else wrap (width sf) (s.(xregs) r).

Definition write_reg (s : a64_state) (sf : bool) (r v : Z) : a64_state :=
  if r =? 31 then s else A64 (fun q => if q =? r then wrap (width sf) v else s.(xregs) q) s.(pstate).

Definition set_flags (s : a64_state) (f : nzcv) : a64_state := A64 s.(xregs) f.

(** The sum of [x], [y] and a carry at width [n], with its flags. *)
Definition add_with_carry (n x y carry : Z) : Z * nzcv :=
  let unsigned_sum := wrap n x + wrap n y + carry in
  let signed_sum := sext n x + sext n y + carry in
  let r := wrap n unsigned_sum in
  (r, Nzcv (Z.testbit r (n - 1)) (r =? 0) (negb (r =? unsigned_sum)) (negb (sext n r =? signed_sum))).

Definition add_sub (sf sub : bool) (x y : Z) : Z * nzcv :=
  if sub then add_with_carry (width sf) x (wrap (width sf) (Z.lnot y)) 1 else add_with_carry (width sf) x y 0.

Definition logical (sf : bool) (opc x y : Z) : Z :=
  if opc =? 1 then x .| y else if opc =? 2 then x .^ y else x .& y.

(** The bytes of each group of [2 ^ k] bytes in reverse order. *)
Fixpoint reverse_groups (groups : nat) (size : nat) (bs : list Z) : list Z :=
  match groups with
  | O => []
  | S g => reverse (take size bs) ++ reverse_groups g size (drop size bs)
  end.

Definition reverse_bytes (bytes size : nat) (x : Z) : Z :=
  le_decode (reverse_groups (bytes / size) size (le_encode bytes x)).

(** Division rounds toward zero, and by zero gives zero. *)
Definition two_source (sf : bool) (opc x y : Z) : option Z :=
  let n := width sf in
  if opc =? 2 then Some (if y =? 0 then 0 else x / y)
  else if opc =? 3 then Some (if y =? 0 then 0 else Z.quot (sext n x) (sext n y))
  else if opc =? 8 then Some (x .<< (y mod n))
  else if opc =? 9 then Some (x .>> (y mod n))
  else if opc =? 10 then Some (sext n x .>> (y mod n))
  else None.

Definition a64_exec (i : a64_inst) (s : a64_state) : option a64_state :=
  match i with
  | MoveWide sf opc hw imm16 rd =>
      let imm := imm16 .<< (16 * hw) in
      if negb sf && (2 <=? hw) then None
      else if opc =? 0 then Some (write_reg s sf rd (Z.lnot imm))
      else if opc =? 2 then Some (write_reg s sf rd imm)
      else if opc =? 3 then
        Some (write_reg s sf rd ((read_reg s sf rd .& Z.lnot (0xffff .<< (16 * hw))) .| imm))
      else None
  | Logical sf opc invert rd rn rm =>
      let y := read_reg s sf rm in
      let r := wrap (width sf) (logical sf opc (read_reg s sf rn) (if invert then Z.lnot y else y)) in
      let s' := write_reg s sf rd r in
      Some (if opc =? 3 then set_flags s' (Nzcv (Z.testbit r (width sf - 1)) (r =? 0) false false) else s')
  | AddSub sf sub setflags rd rn rm =>
      let '(r, f) := add_sub sf sub (read_reg s sf rn) (read_reg s sf rm) in
      let s' := write_reg s sf rd r in
      Some (if setflags then set_flags s' f else s')
  | AddSubImm sf sub setflags rd rn imm =>
      if (rn =? 31) || (negb setflags && (rd =? 31)) then None
      else
        let '(r, f) := add_sub sf sub (read_reg s sf rn) imm in
        let s' := write_reg s sf rd r in
        Some (if setflags then set_flags s' f else s')
  | Reverse sf opc rd rn =>
      let bytes := if sf then 8%nat else 4%nat in
      let x := read_reg s sf rn in
      if opc =? 1 then Some (write_reg s sf rd (reverse_bytes bytes 2 x))
      else if opc =? 2 then Some (write_reg s sf rd (reverse_bytes bytes 4 x))
      else if (opc =? 3) && sf then Some (write_reg s sf rd (reverse_bytes bytes 8 x))
      else None
  | TwoSource sf opc rd rn rm =>
      write_reg s sf rd <$> two_source sf opc (read_reg s sf rn) (read_reg s sf rm)
  | MulAdd sf sub rd rn rm ra =>
      let p := read_reg s sf rn * read_reg s sf rm in
      Some (write_reg s sf rd (if sub then read_reg s sf ra - p else read_reg s sf ra + p))
  | Extend sf signed bits rd rn =>
      let x := read_reg s sf rn in
      if bits <=? width sf then Some (write_reg s sf rd (if signed then sext bits x else wrap bits x)) else None
  end.

(** The effect of a word, and of straight-line code. *)
Definition a64_step (w : Z) (s : a64_state) : option a64_state :=
  i ← a64_decode w; a64_exec i s.

Fixpoint a64_run (ws : list Z) (s : a64_state) : option a64_state :=
  match ws with
  | [] => Some s
  | w :: ws' => s' ← a64_step w s; a64_run ws' s'
  end.

(** Whether a branch on condition [c] (four bits) is taken. *)
Definition condition_holds (c : Z) (f : nzcv) : bool :=
  let base :=
    match c / 2 with
    | 0 => f.(fZ)
    | 1 => f.(fC)
    | 2 => f.(fN)
    | 3 => f.(fV)
    | 4 => f.(fC) && negb f.(fZ)
    | 5 => Bool.eqb f.(fN) f.(fV)
    | 6 => Bool.eqb f.(fN) f.(fV) && negb f.(fZ)
    | _ => true
    end in
  if (c mod 2 =? 1) && negb (c =? 15) then negb base else base.

(** *** Instructions with an address relative to their own *)

Inductive a64_relative : Type :=
| Branch (link : bool)
| BranchCond (c : Z)
| LoadLiteral (rt : Z)
| Address (rd : Z).

(** Such an instruction with its displacement in bytes: B, BL, B.cond, the 64-bit
    LDR (literal) and ADR. *)
Definition a64_decode_relative (w : Z) : option (a64_relative * Z) :=
  if field w 26 5 =? 0x05 then Some (Branch (flag w 31), 4 * sext 26 (field w 0 26))
  else if (field w 24 8 =? 0x54) && (field w 4 1 =? 0) then Some (BranchCond (field w 0 4), 4 * sext 19 (field w 5 19))
  else if field w 24 8 =? 0x58 then Some (LoadLiteral (field w 0 5), 4 * sext 19 (field w 5 19))
  else if (field w 24 5 =? 0x10) && (field w 31 1 =? 0) then
    Some (Address (field w 0 5), sext 21 (4 * field w 5 19 + field w 29 2))
  else None.

(** ** The encoders *)

Definition is_reg (r : Z) : Prop := 0 <= r < 32.

Create HintDb a64.
#[export] Hint Unfold is_reg : a64.


(** *** Fields of words *)

Lemma field_lor a b lo n : 0 <= lo -> 0 <= n -> field (a .| b) lo n = field a lo n .| field b lo n.
Proof. intros. unfold field. by rewrite Z.shiftr_lor, wrap_lor. Qed.

Lemma field_exact y s n : 0 <= s -> 0 <= y < 2 ^ n -> field (y .<< s) s n = y.
Proof. intros. unfold field. rewrite Z.shiftr_shiftl_l, Z.sub_diag, Z.shiftl_0_r by lia. by apply wrap_id. Qed.

(** A field below or above the bits of a shifted value is empty. *)
Lemma field_above y s lo n : 0 <= lo -> 0 <= n -> lo + n <= s -> field (y .<< s) lo n = 0.
Proof.
  intros. unfold field, wrap. rewrite Z.shiftr_shiftl_l by lia. rewrite Z.shiftl_mul_pow2 by lia.
  replace (s - lo) with ((s - lo - n) + n) by lia. rewrite Z.pow_add_r, Z.mul_assoc by lia.
  apply Z.mod_mul. lia.
Qed.

Lemma field_below y s lo n : 0 <= s <= lo -> 0 <= y < 2 ^ (lo - s) -> field (y .<< s) lo n = 0.
Proof.
  intros. unfold field, wrap. rewrite Z.shiftr_shiftl_r, Z.shiftr_div_pow2, Z.div_small by lia. apply Zmod_0_l.
Qed.

Lemma field_low y n : 0 <= y < 2 ^ n -> field y 0 n = y.
Proof. intros. rewrite <- (Z.shiftl_0_r y) at 1. by apply field_exact. Qed.

Lemma field_past y lo n : 0 <= lo -> 0 <= y < 2 ^ lo -> field y lo n = 0.
Proof. intros. rewrite <- (Z.shiftl_0_r y). apply field_below; [lia |]. by rewrite Z.sub_0_r. Qed.

Ltac closed_z v := lazymatch v with Z0 => idtac | Zpos ?p => closed_p p | Zneg ?p => closed_p p end
with closed_p p := lazymatch p with xH => idtac | xO ?q => closed_p q | xI ?q => closed_p q end.

(** Computes a field of a word made of constants and bounded variables. *)
Ltac one_field :=
  repeat rewrite field_lor by lia;
  repeat match goal with
  | |- context [field (?y .<< ?s) ?lo ?n] =>
      first [closed_z y; closed_z s; let v := eval vm_compute in (field (y .<< s) lo n) in change (field (y .<< s) lo n) with v
            | match eval vm_compute in (lo + n <=? s, s =? lo) with
              | (true, _) => rewrite (field_above y s lo n) by lia
              | (false, true) => rewrite (field_exact y s n) by lia
              | (false, false) => rewrite (field_below y s lo n) by lia
              end]
  | |- context [field ?y 0 ?n] =>
      first [closed_z y; let v := eval vm_compute in (field y 0 n) in change (field y 0 n) with v
            | rewrite (field_low y n) by lia]
  | |- context [field ?y ?lo ?n] =>
      first [closed_z y; let v := eval vm_compute in (field y lo n) in change (field y lo n) with v
            | rewrite (field_past y lo n) by lia]
  end;
  rewrite ?Z.lor_0_l, ?Z.lor_0_r; cbn [Z.lor Pos.lor]; reflexivity.

(** Decodes a word whose opcode is known. *)
Ltac decode_word :=
  match goal with |- a64_decode ?x = _ => let w := fresh "w" in set (w := x); unfold a64_decode, flag; cbv zeta;
    repeat (match goal with |- context [field w ?lo ?n] =>
              let E := fresh in eassert (field w lo n = _) as E by (subst w; one_field); rewrite !E; clear E end;
            cbn [Z.eqb Pos.eqb andb negb Bool.eqb]);
    subst w; reflexivity end.

Definition opc_of (op : MoveWideOpcode) : Z := match op with MW_MOVN => 0 | MW_MOVZ => 2 | MW_MOVK => 3 end.

Lemma decode_movewide sf op i imm16 rd :
  0 <= i < 4 -> 0 <= imm16 < 2 ^ 16 -> is_reg rd ->
  a64_decode (sz sf .| movewide_bits op .| (i .<< 21) .| (imm16 .<< 5) .| rd) = Some (MoveWide sf (opc_of op) i imm16 rd).
Proof. intros. destruct sf, op; cbn [sz movewide_bits]; unfold is_reg in *; decode_word. Qed.

Definition is_sub (op : AddSubOpcode) : bool := match op with AS_SUB | AS_SUBS => true | _ => false end.
Definition sets_flags (op : AddSubOpcode) : bool := match op with AS_ADDS | AS_SUBS => true | _ => false end.

Lemma decode_addsub_register sf op rd rn rm :
  is_reg rd -> is_reg rn -> is_reg rm ->
  a64_decode (sz sf .| (addsub_bits op .<< 29) .| 0x0b000000 .| (rm .<< 16) .| (rn .<< 5) .| rd) =
  Some (AddSub sf (is_sub op) (sets_flags op) rd rn rm).
Proof. intros. destruct sf, op; cbn [sz addsub_bits]; unfold is_reg in *; decode_word. Qed.

Lemma decode_addsub_immediate sf op rd rn imm12 :
  is_reg rd -> is_reg rn -> 0 <= imm12 < 2 ^ 12 ->
  a64_decode (sz sf .| 0 .| (addsub_bits op .<< 29) .| 0x11000000 .| (imm12 .<< 10) .| (rn .<< 5) .| rd) =
  Some (AddSubImm sf (is_sub op) (sets_flags op) rd rn (imm12 .<< 0)).
Proof. intros. destruct sf, op; cbn [sz addsub_bits]; unfold is_reg in *; decode_word. Qed.

Definition logical_opc (op : LogicalOpcode) : Z :=
  match op with LOG_AND | LOG_BIC => 0 | LOG_ORR | LOG_ORN => 1 | LOG_EOR | LOG_EON => 2 | LOG_ANDS | LOG_BICS => 3 end.
Definition logical_invert (op : LogicalOpcode) : bool :=
  match op with LOG_BIC | LOG_ORN | LOG_EON | LOG_BICS => true | _ => false end.

Lemma decode_logical_register sf op rd rn rm :
  is_reg rd -> is_reg rn -> is_reg rm ->
  a64_decode (sz sf .| logical_bits op .| (1 .<< 27) .| (1 .<< 25) .| (rm .<< 16) .| (rn .<< 5) .| rd) =
  Some (Logical sf (logical_opc op) (logical_invert op) rd rn rm).
Proof. intros. destruct sf, op; cbn [sz logical_bits]; unfold is_reg in *; decode_word. Qed.

(** The 64-bit form of REV is a word of its own. *)
Lemma decode_onesource sf op rd rn :
  is_reg rd -> is_reg rn ->
  a64_decode (sz sf .| dp1_bits op .| (rn .<< 5) .| rd) =
  Some (match op with
        | DP1_REV16 => Reverse sf 1 rd rn
        | DP1_REV32 => Reverse sf 2 rd rn
        | DP1_REV64 => Reverse true 3 rd rn
        end).
Proof. intros. destruct sf, op; cbn [sz dp1_bits]; unfold is_reg in *; decode_word. Qed.

Definition dp2_opc (op : DP2Opcode) : Z :=
  match op with
  | DP2_UDIV => 2 | DP2_SDIV => 3 | DP2_LSLV => 8 | DP2_LSRV => 9 | DP2_ASRV => 10 | DP2_RORV => 10
  end.

Lemma decode_twosource sf op rd rn rm :
  is_reg rd -> is_reg rn -> is_reg rm ->
  a64_decode (sz sf .| dp2_bits op .| (rm .<< 16) .| (rn .<< 5) .| rd) = Some (TwoSource sf (dp2_opc op) rd rn rm).
Proof. intros. destruct sf, op; cbn [sz dp2_bits]; unfold is_reg in *; decode_word. Qed.

Lemma decode_threesource sf op rd rn rm ra :
  is_reg rd -> is_reg rn -> is_reg rm -> is_reg ra ->
  a64_decode (sz sf .| dp3_bits op .| (rm .<< 16) .| (ra .<< 10) .| (rn .<< 5) .| rd) =
  Some (MulAdd sf (match op with DP3_MADD => false | DP3_MSUB => true end) rd rn rm ra).
Proof. intros. destruct sf, op; cbn [sz dp3_bits]; unfold is_reg in *; decode_word. Qed.

(** The words of the sign and zero extensions. *)
Lemma decode_sxtb (sf : bool) rd rn : is_reg rd -> is_reg rn ->
  a64_decode ((if sf then 0x93401C00 else 0x13001C00) .| (rn .<< 5) .| rd) = Some (Extend sf true 8 rd rn).
Proof. intros. destruct sf; unfold is_reg in *; decode_word. Qed.

Lemma decode_sxth (sf : bool) rd rn : is_reg rd -> is_reg rn ->
  a64_decode ((if sf then 0x93403C00 else 0x13003C00) .| (rn .<< 5) .| rd) = Some (Extend sf true 16 rd rn).
Proof. intros. destruct sf; unfold is_reg in *; decode_word. Qed.

Lemma decode_sxtw rd rn : is_reg rd -> is_reg rn ->
  a64_decode (0x93407C00 .| (rn .<< 5) .| rd) = Some (Extend true true 32 rd rn).
Proof. intros. unfold is_reg in *; decode_word. Qed.

Lemma decode_uxth rd rn : is_reg rd -> is_reg rn ->
  a64_decode (0x53003c00 .| (rn .<< 5) .| rd) = Some (Extend false false 16 rd rn).
Proof. intros. unfold is_reg in *; decode_word. Qed.

Lemma decode_uxtw rd rn : is_reg rd -> is_reg rn ->
  a64_decode (0x53007c00 .| (rn .<< 5) .| rd) = Some (Extend false false 32 rd rn).
Proof. intros. unfold is_reg in *; decode_word. Qed.
