(* ===== verification/Arm64Move.v ===== *)
(** * Arm64Move: constants in registers

    The words of [emit_instruction], and the sequences of MOVZ, MOVN and MOVK
    with which [emit_movewide_immediate] puts a constant into a register: which
    words they are, how many, and that running them gives the constant, with and
    without constant blinding. *)

From Stdlib Require Import ZArith Lia Bool.
From stdpp Require Import base list gmap strings numbers.
From S2P Require Import Prelude Ebpf Mem Vm JitSupport JitAsm Arm64Emit Arm64Isa.

Local Open Scope Z_scope.
Local Open Scope cbits_scope.

(** ** Words *)

(** The bytes of code. *)
Definition code_bytes (ws : list Z) : list Z := ws ≫= le_encode 4.

Lemma length_code_bytes ws : length (code_bytes ws) = (4 * length ws)%nat.
Proof.
  unfold code_bytes. induction ws as [| w ws IH]; [done |].
  rewrite bind_cons, length_app, IH, length_le_encode. cbn [length]. lia.
Qed.

Lemma arm_emit_bytes_run data st :
  jit_ok st -> st.(joffset) + Z.of_nat (length data) <= st.(jsize) -> emit_bytes data st = Some (tt, put data st).
Proof.
  intros [] Hlen. unfold emit_bytes.
  rewrite (proj2 (Z.leb_le (Z.of_nat (length data)) _)), (proj2 (Z.leb_le _ (_ - _))) by lia. cbn [andb negb].
  rewrite (proj2 (Z.gtb_ltb _ _)) || (rewrite Z.gtb_ltb, (proj2 (Z.ltb_ge _ _)) by lia).
  unfold mbind, M_bind, memcpy_buf. rewrite (proj2 (Z.leb_le _ _)), (proj2 (Z.leb_le _ _)) by lia. done.
Qed.

(** A word with a zero bit is not [BAD_OPCODE]. *)
Lemma not_bad_opcode k w : 0 <= k < 32 -> field w k 1 = 0 -> u32 w <> BAD_OPCODE.
Proof.
  intros Hk Hf E. assert (Z.testbit w k = false) as Ht.
  { apply Z.testbit_false; [lia |]. unfold field, wrap in Hf. rewrite Z.shiftr_div_pow2 in Hf by lia. exact Hf. }
  assert (Z.testbit (u32 w) k = false) as Hu by (rewrite testbit_wrap, Ht by lia; apply andb_false_r).
  rewrite E in Hu. change BAD_OPCODE with (Z.ones 32) in Hu. rewrite Z.ones_spec_low in Hu by lia. done.
Qed.

Lemma puts_instruction w : u32 w <> BAD_OPCODE -> puts (emit_instruction w) (code_bytes [w]).
Proof.
  intros Hw st Hok Hlen. unfold emit_instruction, mbind, M_bind, assertion.
  rewrite (proj2 (Z.eqb_neq _ _)) by done. cbn [negb mret M_ret]. unfold code_bytes in *.
  rewrite bind_cons, app_nil_r in *. by apply arm_emit_bytes_run.
Qed.

Lemma puts_code m1 m2 ws vs : puts m1 (code_bytes ws) -> puts m2 (code_bytes vs) -> puts (m1;; m2) (code_bytes (ws ++ vs)).
Proof. intros. unfold code_bytes. rewrite bind_app. by apply puts_seq. Qed.

Lemma a64_run_app ws vs s : a64_run (ws ++ vs) s = (a64_run ws s ≫= a64_run vs).
Proof.
  revert s; induction ws as [| w ws IH]; intros s; [done |]. cbn [app a64_run].
  destruct (a64_step w s) as [s' |]; [apply IH | done].
Qed.

(** An instruction with a meaning is not [BAD_OPCODE]. *)
Lemma field_wrap w lo n : 0 <= lo -> 0 <= n -> lo + n <= 32 -> field (u32 w) lo n = field w lo n.
Proof.
  intros. unfold field. apply Z.bits_inj'. intros i Hi. rewrite !testbit_wrap, !Z.shiftr_spec, testbit_wrap by lia.
  destruct (Z.ltb_spec i n); [| done]. by rewrite (proj2 (Z.ltb_lt _ 32)) by lia.
Qed.

Lemma decoded_not_bad w i : a64_decode w = Some i -> u32 w <> BAD_OPCODE.
Proof.
  intros Hd E. assert (a64_decode w = a64_decode (u32 w)) as Hw by (unfold a64_decode, flag; by rewrite !field_wrap by lia).
  rewrite Hw, E in Hd. vm_compute in Hd. discriminate.
Qed.

(** ** The sequence of moves *)

(** The words of the loop over the halfwords [idxs], and the last [op]. *)
Fixpoint move_words (sf : bool) (rd imm skip : Z) (idxs : list Z) (op : MoveWideOpcode) (invert : bool) : list Z * MoveWideOpcode :=
  match idxs with
  | [] => ([], op)
  | i :: idxs' =>
      let imm16 := halfword imm i in
      if imm16 =? skip then move_words sf rd imm skip idxs' op invert
      else
        let imm16 := if invert then Z.lnot imm16 .& 0xffff else imm16 in
        let '(ws, op') := move_words sf rd imm skip idxs' MW_MOVK false in
        ((sz sf .| movewide_bits op .| (i .<< 21) .| (imm16 .<< 5) .| rd) :: ws, op')
  end.

Definition movewide_words (sf : bool) (rd imm : Z) : list Z :=
  let imm := u64 imm in
  let invert := prefers_movn sf imm in
  let '(ws, op) := move_words sf rd imm (if invert then 0xffff else 0) (halfwords sf) (if invert then MW_MOVN else MW_MOVZ) invert in
  ws ++ if is_movk op then [] else [sz sf .| movewide_bits op .| (0 .<< 21) .| (0 .<< 5) .| rd].

Lemma halfword_wrap imm i : halfword imm i = u16 (imm .>> (16 * i)).
Proof. unfold halfword. change 0xffff with (Z.ones 16). by apply land_ones_wrap. Qed.

Lemma halfword_range imm i : 0 <= halfword imm i < 2 ^ 16.
Proof. rewrite halfword_wrap. by apply wrap_range. Qed.

Lemma inverted_range x : 0 <= Z.lnot x .& 0xffff < 2 ^ 16.
Proof. change 0xffff with (Z.ones 16). rewrite land_ones_wrap by lia. by apply wrap_range. Qed.

(** The immediate field of a move. *)
Definition move_imm (invert : bool) (imm16 : Z) : Z := if invert then Z.lnot imm16 .& 0xffff else imm16.

Lemma move_imm_range invert imm i : 0 <= move_imm invert (halfword imm i) < 2 ^ 16.
Proof. destruct invert; [apply inverted_range | apply halfword_range]. Qed.

Section Moves.
Context (sf : bool) (rd : Z) (Hrd : is_reg rd).

Lemma puts_move op i imm16 :
  0 <= i < 4 -> 0 <= imm16 < 2 ^ 16 ->
  puts (emit_instruction (sz sf .| movewide_bits op .| (i .<< 21) .| (imm16 .<< 5) .| rd))
    (code_bytes [sz sf .| movewide_bits op .| (i .<< 21) .| (imm16 .<< 5) .| rd]).
Proof using Hrd. intros. eapply puts_instruction, decoded_not_bad. by apply decode_movewide. Qed.

Lemma emit_moves_run imm skip idxs op invert st :
  Forall (fun i => 0 <= i < 4) idxs -> jit_ok st ->
  st.(joffset) + Z.of_nat (length (code_bytes (move_words sf rd imm skip idxs op invert).1)) <= st.(jsize) ->
  emit_moves sf rd imm skip idxs op invert st =
  Some ((move_words sf rd imm skip idxs op invert).2, put (code_bytes (move_words sf rd imm skip idxs op invert).1) st).
Proof using Hrd.
  intros Hi; revert op invert st; induction Hi as [| i idxs Hi _ IH]; intros op invert st Hok Hlen.
  - cbn. unfold code_bytes. cbn. by rewrite put_nil.
  - cbn [emit_moves move_words] in *. destruct (halfword imm i =? skip); cbn [negb]; [by apply IH |].
    fold (move_imm invert (halfword imm i)) in *. pose proof (move_imm_range invert imm i) as Hr.
    specialize (IH MW_MOVK false). destruct (move_words sf rd imm skip idxs MW_MOVK false) as [ws op'] eqn:E.
    cbn [fst snd] in *. set (w := sz sf .| _ .| _ .| _ .| _) in *.
    unfold code_bytes in Hlen |- *. rewrite bind_cons in Hlen |- *. fold (code_bytes ws) in *.
    rewrite length_app, length_le_encode in Hlen. unfold mbind at 1, M_bind at 1.
    rewrite (puts_move op i (move_imm invert (halfword imm i)) Hi Hr) by (done || (fold w; cbn; lia)). fold w.
    unfold code_bytes at 1. rewrite bind_cons, app_nil_r.
    rewrite IH; [| apply put_ok; [done | rewrite length_le_encode; lia] | cbn [put joffset set_joffset jsize set_buf]; rewrite length_le_encode; lia].
    rewrite put_put by (rewrite ?length_le_encode; done || lia). done.
Qed.

Lemma halfwords_range : Forall (fun i => 0 <= i < 4) (halfwords sf).
Proof. apply list.Forall_forall. unfold halfwords. destruct sf; intros i Hi%elem_of_seqZ; lia. Qed.

Lemma puts_movewide imm : puts (emit_movewide_immediate sf rd imm) (code_bytes (movewide_words sf rd imm)).
Proof using Hrd.
  intros st Hok Hlen. unfold emit_movewide_immediate, movewide_words in *. cbv zeta in *.
  pose proof (emit_moves_run (u64 imm) (if prefers_movn sf (u64 imm) then 0xffff else 0) (halfwords sf)
    (if prefers_movn sf (u64 imm) then MW_MOVN else MW_MOVZ) (prefers_movn sf (u64 imm)) st halfwords_range Hok) as E.
  destruct (move_words _ _ _ _ _ _ _) as [ws op]. cbn [fst snd] in E.
  unfold code_bytes in Hlen |- *. rewrite bind_app in Hlen |- *. fold (code_bytes ws) in *. rewrite length_app in Hlen.
  unfold mbind, M_bind. rewrite E by lia. destruct (is_movk op); cbn [negb when mbind list_bind app] in *.
  - by rewrite app_nil_r.
  - rewrite app_nil_r in *. rewrite length_le_encode in Hlen. change (le_encode 4 ?w) with (code_bytes [w]).
    rewrite (puts_move op 0 0) by (done || lia || (apply put_ok; done || lia) || (cbn; lia)).
    rewrite put_put by (done || (cbn; lia)). unfold code_bytes. rewrite bind_cons, app_nil_r. done.
Qed.

(** *** How many *)

Lemma length_move_words imm skip idxs op invert : (length (move_words sf rd imm skip idxs op invert).1 <= length idxs)%nat.
Proof.
  revert op invert; induction idxs as [| i idxs IH]; intros op invert; [done |]. cbn [move_words].
  destruct (_ =? skip); [etransitivity; [apply IH | cbn; lia] |]. specialize (IH MW_MOVK false).
  destruct (move_words _ _ _ _ idxs _ _). cbn in *. lia.
Qed.
End Moves.

(** After a first move the rest are MOVKs. *)
Lemma move_words_movk sf rd imm skip idxs : is_movk (move_words sf rd imm skip idxs MW_MOVK false).2 = true.
Proof.
  induction idxs as [| j l IHl]; [done |]. cbn [move_words]. destruct (_ =? skip); [done |].
  by destruct (move_words _ _ _ _ l _ _).
Qed.

Lemma move_words_none sf rd imm skip idxs op invert :
  is_movk op = false -> is_movk (move_words sf rd imm skip idxs op invert).2 = false ->
  (move_words sf rd imm skip idxs op invert).1 = [].
Proof.
  intros Hop; revert op invert Hop; induction idxs as [| i idxs IH]; intros op invert Hop; [done |]. cbn [move_words].
  destruct (_ =? skip); [by apply IH |].
  pose proof (move_words_movk sf rd imm skip idxs) as Hk. destruct (move_words _ _ _ _ idxs _ _). cbn in *. congruence.
Qed.

Lemma length_movewide_words sf rd imm : (1 <= length (movewide_words sf rd imm) <= 4)%nat.
Proof.
  unfold movewide_words. cbv zeta. set (inv := prefers_movn sf (u64 imm)). set (skip := if inv then _ else _).
  set (op := if inv then _ else _). assert (is_movk op = false) as Hop by by (unfold op; destruct inv).
  pose proof (length_move_words sf rd (u64 imm) skip (halfwords sf) op inv) as Hl.
  pose proof (move_words_none sf rd (u64 imm) skip (halfwords sf) op inv Hop) as Hn.
  assert (length (halfwords sf) <= 4)%nat by by destruct sf; vm_compute; lia.
  assert (is_movk (move_words sf rd (u64 imm) skip (halfwords sf) op inv).2 = true ->
          (1 <= length (move_words sf rd (u64 imm) skip (halfwords sf) op inv).1)%nat) as Hne.
  { clear Hl Hn H. revert Hop. generalize op inv (halfwords sf). intros o v l. revert o v.
    induction l as [| j l IHl]; intros o v Ho; cbn [move_words]; [cbn; congruence |].
    destruct (_ =? skip); [by apply IHl |]. destruct (move_words _ _ _ _ l _ _). cbn. lia. }
  destruct (move_words _ _ _ _ _ _ _) as [ws o]. cbn [fst snd] in *. rewrite length_app.
  destruct (is_movk o); cbn [length]; [specialize (Hne eq_refl); lia |]. rewrite Hn by done. cbn. lia.
Qed.

(** ** The value in the register *)

(** [s'] is [s] with [v] in register [r]. *)
Record sets_reg (s s' : a64_state) (r v : Z) : Prop := SetsReg {
  sr_value : s'.(xregs) r = v;
  sr_others : forall q, q <> r -> s'.(xregs) q = s.(xregs) q;
  sr_flags : s'.(pstate) = s.(pstate);
}.

Lemma sets_reg_trans s s1 s2 r v1 v2 : sets_reg s s1 r v1 -> sets_reg s1 s2 r v2 -> sets_reg s s2 r v2.
Proof. intros [_ Ho1 Hf1] [Hv Ho2 Hf2]. constructor; [done | | congruence]. intros q Hq. by rewrite Ho2, Ho1. Qed.

Lemma write_sets_reg s sf r v : r <> 31 -> sets_reg s (write_reg s sf r v) r (wrap (width sf) v).
Proof.
  intros Hr. unfold write_reg. rewrite (proj2 (Z.eqb_neq _ _)) by done. constructor; cbn.
  - by rewrite Z.eqb_refl.
  - intros q Hq. by rewrite (proj2 (Z.eqb_neq _ _)).
  - done.
Qed.

(** The register after the halfwords below [k]: there it agrees with [imm],
    above every bit is [p]. *)
Record agrees (sf : bool) (k : Z) (p : bool) (imm v : Z) : Prop := Agrees {
  ag_range : 0 <= v < 2 ^ width sf;
  ag_bits : forall j, 0 <= j < width sf -> Z.testbit v j = if j <? 16 * k then Z.testbit imm j else p;
}.

Definition pattern (p : bool) : Z := if p then 0xffff else 0.

Lemma pattern_bits p j : 0 <= j < 16 -> Z.testbit (pattern p) j = p.
Proof.
  intros. destruct p; [change (pattern true) with (Z.ones 16); by apply Z.ones_spec_low | apply Z.bits_0].
Qed.

Lemma halfword_bits imm k j : 0 <= k -> 16 * k <= j < 16 * (k + 1) -> Z.testbit imm j = Z.testbit (halfword imm k) (j - 16 * k).
Proof.
  intros. rewrite halfword_wrap, testbit_wrap, Z.shiftr_spec by lia. rewrite (proj2 (Z.ltb_lt _ _)) by lia.
  cbn. f_equal. lia.
Qed.

Lemma agrees_skip sf k p imm v :
  0 <= k -> halfword imm k = pattern p -> agrees sf k p imm v -> agrees sf (k + 1) p imm v.
Proof.
  intros Hk He [Hr Hb]. constructor; [done |]. intros j Hj. rewrite Hb by done.
  destruct (Z.ltb_spec j (16 * k)); [by rewrite (proj2 (Z.ltb_lt _ _)) by lia |].
  destruct (Z.ltb_spec j (16 * (k + 1))); [| done].
  rewrite (halfword_bits imm k j), He, pattern_bits by lia. done.
Qed.

Lemma agrees_all sf p imm v : agrees sf (if sf then 4 else 2) p imm v -> v = wrap (width sf) imm.
Proof.
  intros [Hr Hb]. assert (0 <= width sf) by by destruct sf. apply Z.bits_inj'. intros j Hj.
  rewrite testbit_wrap by done. destruct (Z.ltb_spec j (width sf)).
  - rewrite Hb by lia. rewrite (proj2 (Z.ltb_lt _ _)) by (destruct sf; cbn in *; lia). done.
  - by rewrite (testbit_small (width sf)).
Qed.

(** A halfword shifted into its place. *)
Lemma shifted_bits x k j :
  0 <= k -> 0 <= j -> 0 <= x < 2 ^ 16 ->
  Z.testbit (x .<< (16 * k)) j = (16 * k <=? j) && (j <? 16 * (k + 1)) && Z.testbit x (j - 16 * k).
Proof.
  intros Hk Hj Hx. rewrite Z.shiftl_spec by lia. destruct (Z.leb_spec (16 * k) j); cbn [andb].
  - destruct (Z.ltb_spec j (16 * (k + 1))); [done |]. by rewrite (testbit_small 16) by lia.
  - by rewrite Z.testbit_neg_r by lia.
Qed.

Lemma agrees_movk sf k p imm v :
  0 <= k -> agrees sf k p imm v ->
  agrees sf (k + 1) p imm (wrap (width sf) ((v .& Z.lnot (0xffff .<< (16 * k))) .| (halfword imm k .<< (16 * k)))).
Proof.
  intros Hk [Hr Hb]. assert (0 <= width sf) by by destruct sf. constructor; [by apply wrap_range |].
  intros j Hj. rewrite testbit_wrap, (proj2 (Z.ltb_lt _ _)), Z.lor_spec, Z.land_spec, Z.lnot_spec by lia.
  rewrite !shifted_bits by (lia || apply halfword_range). rewrite Hb by done. cbn [andb].
  destruct (Z.leb_spec (16 * k) j), (Z.ltb_spec j (16 * (k + 1))), (Z.ltb_spec j (16 * k)); try lia; cbn [andb negb];
    rewrite ?andb_true_r, ?orb_false_r; try done.
  change 0xffff with (Z.ones 16). rewrite Z.ones_spec_low, (halfword_bits imm k j) by lia. cbn. by rewrite andb_false_r.
Qed.

Lemma agrees_movz sf k imm :
  0 <= k -> (forall j, 0 <= j < 16 * k -> Z.testbit imm j = false) ->
  agrees sf (k + 1) false imm (wrap (width sf) (halfword imm k .<< (16 * k))).
Proof.
  intros Hk Hlow. assert (0 <= width sf) by by destruct sf. constructor; [by apply wrap_range |]. intros j Hj.
  rewrite testbit_wrap, (proj2 (Z.ltb_lt _ _)), shifted_bits by (lia || apply halfword_range). cbn [andb].
  destruct (Z.leb_spec (16 * k) j), (Z.ltb_spec j (16 * (k + 1))); try lia; cbn [andb]; try done.
  - by rewrite (halfword_bits imm k j) by lia.
  - symmetry. apply Hlow. lia.
Qed.

Lemma agrees_movn sf k imm :
  0 <= k -> (forall j, 0 <= j < 16 * k -> Z.testbit imm j = true) ->
  agrees sf (k + 1) true imm (wrap (width sf) (Z.lnot ((Z.lnot (halfword imm k) .& 0xffff) .<< (16 * k)))).
Proof.
  intros Hk Hlow. assert (0 <= width sf) by by destruct sf. constructor; [by apply wrap_range |]. intros j Hj.
  rewrite testbit_wrap, (proj2 (Z.ltb_lt _ _)), Z.lnot_spec, shifted_bits by (lia || apply inverted_range). cbn [andb].
  destruct (Z.leb_spec (16 * k) j), (Z.ltb_spec j (16 * (k + 1))); try lia; cbn [andb negb]; try done.
  - rewrite (halfword_bits imm k j), Z.land_spec, Z.lnot_spec by lia. change 0xffff with (Z.ones 16).
    rewrite Z.ones_spec_low, andb_true_r, negb_involutive by lia. done.
  - symmetry. apply Hlow. lia.
Qed.

Section Values.
Context (sf : bool) (rd : Z) (Hrd : is_reg rd) (Hne : rd <> 31).

Let halves : Z := if sf then 4 else 2.

Lemma step_move op k imm16 s :
  0 <= k < halves -> 0 <= imm16 < 2 ^ 16 ->
  a64_step (sz sf .| movewide_bits op .| (k .<< 21) .| (imm16 .<< 5) .| rd) s =
  Some (write_reg s sf rd
    (match op with
     | MW_MOVN => Z.lnot (imm16 .<< (16 * k))
     | MW_MOVZ => imm16 .<< (16 * k)
     | MW_MOVK => (read_reg s sf rd .& Z.lnot (0xffff .<< (16 * k))) .| (imm16 .<< (16 * k))
     end)).
Proof using Hrd.
  intros Hk H16. unfold a64_step. rewrite decode_movewide by (done || (unfold halves in Hk; destruct sf; lia)).
  cbn [mbind option_bind a64_exec].
  assert (negb sf && (2 <=? k) = false) as ->
    by (unfold halves in Hk; destruct sf; [done |]; cbn; apply Z.leb_gt; lia).
  by destruct op.
Qed.

(** The rest of the moves, once the register has a value. *)
Lemma run_movk imm p n k v s :
  0 <= k -> k + Z.of_nat n = halves -> agrees sf k p imm v -> s.(xregs) rd = v ->
  exists s', a64_run (move_words sf rd imm (pattern p) (seqZ k (Z.of_nat n)) MW_MOVK false).1 s = Some s' /\
    sets_reg s s' rd (wrap (width sf) imm).
Proof using Hrd Hne.
  revert k v s; induction n as [| n IH]; intros k v s Hk Hn Ha Hv.
  - exists s. split; [done |]. constructor; [| done | done].
    rewrite Hv. apply (agrees_all sf p). unfold halves in Hn. by replace (if sf then 4 else 2) with k by (destruct sf; lia).
  - rewrite seqZ_cons by lia. cbn [move_words]. replace (Z.succ k) with (k + 1) by lia.
    replace (Z.pred (Z.of_nat (S n))) with (Z.of_nat n) by lia.
    destruct (Z.eqb_spec (halfword imm k) (pattern p)) as [E | E].
    { apply (IH (k + 1) v); [lia | lia | by apply agrees_skip | done]. }
    pose proof (step_move MW_MOVK k (halfword imm k) s ltac:(lia) (halfword_range imm k)) as Est.
    assert (read_reg s sf rd = v) as Hread.
    { unfold read_reg. rewrite (proj2 (Z.eqb_neq _ _)), Hv by done. apply wrap_id, Ha. }
    rewrite Hread in Est. pose proof (fun x => write_sets_reg s sf rd x Hne) as Hw.
    specialize (Hw ((v .& Z.lnot (0xffff .<< (16 * k))) .| (halfword imm k .<< (16 * k)))).
    destruct (IH (k + 1) _ _ ltac:(lia) ltac:(lia) (agrees_movk sf k p imm v Hk Ha) (sr_value _ _ _ _ Hw)) as (s' & Er & Hs).
    destruct (move_words _ _ _ _ (seqZ (k + 1) _) _ _) as [ws op]. cbn [fst a64_run] in *. exists s'. rewrite Est. split; [exact Er |].
    by eapply sets_reg_trans.
Qed.

(** The moves from the start: the halfwords below [k] have been skipped. *)
Lemma run_moves imm p n k s :
  0 <= k -> k + Z.of_nat n = halves -> (forall j, 0 <= j < 16 * k -> Z.testbit imm j = p) ->
  let op := if p then MW_MOVN else MW_MOVZ in
  let '(ws, op') := move_words sf rd imm (pattern p) (seqZ k (Z.of_nat n)) op p in
  exists s',
    a64_run (ws ++ if is_movk op' then [] else [sz sf .| movewide_bits op' .| (0 .<< 21) .| (0 .<< 5) .| rd]) s = Some s' /\
    sets_reg s s' rd (wrap (width sf) imm).
Proof using Hrd Hne.
  intros Hk. revert k Hk; induction n as [| n IH]; intros k Hk Hn Hlow op.
  - cbn [move_words]. replace (seqZ k (Z.of_nat 0)) with (@nil Z) by (symmetry; by apply seqZ_nil). cbn [move_words].
    assert (is_movk op = false) as -> by by (unfold op; destruct p). cbn [app a64_run].
    rewrite (step_move op 0 0) by (unfold halves; destruct sf; lia). eexists. split; [reflexivity |].
    assert (halves = k) as <- by lia.
    assert (forall v, v = wrap (width sf) imm -> forall s', sets_reg s s' rd v -> sets_reg s s' rd (wrap (width sf) imm)) as Hsub by (by intros ? ->).
    eapply Hsub; [| by apply write_sets_reg]. assert (0 <= width sf) by by destruct sf.
    apply Z.bits_inj'. intros j Hj. rewrite !testbit_wrap by done. destruct (Z.ltb_spec j (width sf)); [| done]. cbn [andb].
    rewrite Hlow by (unfold halves; destruct sf; cbn in *; lia). unfold op. destruct p.
    + rewrite Z.lnot_spec, Z.shiftl_0_l, Z.bits_0 by lia. done.
    + by rewrite Z.shiftl_0_l, Z.bits_0.
  - rewrite seqZ_cons by lia. cbn [move_words]. replace (Z.succ k) with (k + 1) by lia.
    replace (Z.pred (Z.of_nat (S n))) with (Z.of_nat n) by lia.
    destruct (Z.eqb_spec (halfword imm k) (pattern p)) as [E | E].
    { apply IH; [lia | lia |]. intros j Hj. destruct (Z.ltb_spec j (16 * k)); [apply Hlow; lia |].
      rewrite (halfword_bits imm k j), E, pattern_bits by lia. done. }
    fold (move_imm p (halfword imm k)).
    pose proof (step_move op k (move_imm p (halfword imm k)) s ltac:(lia) (move_imm_range p imm k)) as Est.
    match type of Est with _ = Some (write_reg _ _ _ ?x) => pose proof (write_sets_reg s sf rd x Hne) as Hw;
      assert (agrees sf (k + 1) p imm (wrap (width sf) x)) as Ha end.
    { unfold op. destruct p; [by apply agrees_movn | by apply agrees_movz]. }
    destruct (run_movk imm p n (k + 1) _ _ ltac:(lia) ltac:(lia) Ha (sr_value _ _ _ _ Hw)) as (s' & Er & Hs).
    pose proof (move_words_movk sf rd imm (pattern p) (seqZ (k + 1) (Z.of_nat n))) as Hm.
    destruct (move_words _ _ _ _ (seqZ (k + 1) _) _ _) as [ws op']. cbn [fst snd] in *. rewrite Hm, app_nil_r.
    exists s'. cbn [a64_run]. rewrite Est. split; [exact Er |]. by eapply sets_reg_trans.
Qed.

(** Running the code puts the constant into the register. *)
Lemma run_movewide imm s :
  exists s', a64_run (movewide_words sf rd imm) s = Some s' /\ sets_reg s s' rd (wrap (width sf) imm).
Proof using Hrd Hne.
  unfold movewide_words. cbv zeta. set (p := prefers_movn sf (u64 imm)).
  pose proof (run_moves (u64 imm) p (if sf then 4%nat else 2%nat) 0 s ltac:(lia)) as H. cbv zeta in H.
  assert (seqZ 0 (Z.of_nat (if sf then 4%nat else 2%nat)) = halfwords sf) as E by by destruct sf.
  rewrite E in H. fold (pattern p). destruct (move_words _ _ _ _ _ _ _) as [ws op].
  destruct H as (s' & Er & Hs); [by unfold halves; destruct sf | intros; lia |]. exists s'. split; [done |].
  rewrite wrap_wrap_le in Hs by (destruct sf; cbn; lia). done.
Qed.
End Values.

(** A constant of sixteen bits takes one instruction. *)
Lemma length_movewide_small rd imm : 0 <= imm < 2 ^ 16 -> length (movewide_words true rd imm) = 1%nat.
Proof.
  intros Hi. assert (halfword imm 0 = imm) as E0 by (rewrite halfword_wrap; cbn; by apply wrap_id).
  assert (forall i, 1 <= i < 4 -> halfword imm i = 0) as Ei.
  { intros i Hr. rewrite halfword_wrap, Z.shiftr_div_pow2 by lia. rewrite Z.div_small; [done |].
    split; [lia |]. apply (Z.lt_le_trans _ (2 ^ 16)); [lia |]. apply Z.pow_le_mono_r; lia. }
  unfold movewide_words. cbv zeta. rewrite (wrap_id 64 imm) by lia.
  assert (halfwords true = [0; 1; 2; 3]) as Eh by reflexivity.
  assert (prefers_movn true imm = false) as ->.
  { unfold prefers_movn, count_halfwords. rewrite Eh, !filter_cons, !filter_nil, E0, !Ei by lia. apply Z.ltb_ge.
    repeat case_decide; cbn [length]; lia. }
  rewrite Eh. cbn [move_words]. rewrite E0, !Ei by lia. cbn [Z.eqb]. by destruct (imm =? 0).
Qed.
