(* ===== verification/Arm64Cost.v ===== *)
(** * Arm64Cost: the code of every arm64 emitter is bounded

    What the arm64 back end allows in its code ([arm_target]): four-byte words,
    and slots that are a branch, a literal load or an address computation without
    its displacement.  For each emitter, how many bytes and slots it puts out at
    most when there is room ([costs]), up to the code of one eBPF instruction. *)

From Stdlib Require Import ZArith Lia Bool.
From stdpp Require Import base list gmap strings numbers.
From S2P Require Import Prelude Ebpf Mem Vm JitSupport JitAsm Arm64Emit Arm64Isa Arm64Move Arm64Trans.

Local Open Scope Z_scope.
Local Open Scope cbits_scope.

(** ** What the back end allows *)

(** Displacements of conditional branches, literal loads and ADR have 21 bits, with their sign. *)
Definition ARM_CODE_LIMIT : Z := 2 ^ 20 - 4.

(** The words of slots, before they are patched. *)
Definition slot_word_ok (t : slot_table) (w : Z) : Prop :=
  match t with
  | Jumps => w = branch_immediate_bits UBR_B \/ w = branch_immediate_bits UBR_BL \/ exists c, w = BR_Bcond .| condition_bits c
  | LocalCalls => w = branch_immediate_bits UBR_BL
  | Loads => exists rt, is_reg rt /\ w = loadstore_bits LS_LDRL .| 0x08000000 .| rt
  | Leas => exists rd, is_reg rd /\ w = 0x10000000 .| rd
  end.

(** The targets the patching passes can fill in. *)
Definition slot_target_ok (t : slot_table) (tgt : PatchableTarget) : Prop :=
  match t, tgt with
  | Jumps, Special Exit | Jumps, Special Enter => True
  | Jumps, Regular r =>
      (4 | r.(jit_target_pc)) /\ 0 <= r.(jit_target_pc) <= ARM_CODE_LIMIT /\ 0 <= r.(ebpf_target_pc) <= UBPF_MAX_INSTS
  | LocalCalls, Regular r => 0 <= r.(ebpf_target_pc) <= UBPF_MAX_INSTS
  | Loads, Special ExternalDispatcher | Leas, Special LoadHelperTable => True
  | _, _ => False
  end.

Definition arm_item_ok (it : item) : Prop :=
  match it with
  | Bytes bs => (4 | Z.of_nat (length bs))
  | Slot t tgt w => slot_word_ok t w /\ slot_target_ok t tgt
  | Draw => True
  end.

#[export, refine] Instance arm_target : Target := {|
  item_ok := arm_item_ok;
  code_align := 4;
  code_limit := ARM_CODE_LIMIT;
|}.
Proof.
  - intros [bs | t tgt w |] Hi; [done | by exists 1 | by exists 0].
  - exact I.
Defined.

(** ** Words *)

Lemma costs_code m ws n :
  puts m (code_bytes ws) -> 4 * Z.of_nat (length ws) <= n -> costs n 0 m.
Proof.
  intros Hm Hn. eapply costs_bytes; [exact Hm | rewrite length_code_bytes; lia |].
  exists (Z.of_nat (length ws)). rewrite length_code_bytes. lia.
Qed.

Lemma costs_word w : u32 w <> BAD_OPCODE -> costs 4 0 (emit_instruction w).
Proof. intros. eapply costs_code; [by apply puts_instruction | cbn; lia]. Qed.

(** Decodable words. *)
Lemma costs_decoded w i : a64_decode w = Some i -> costs 4 0 (emit_instruction w).
Proof. intros. eapply costs_word, decoded_not_bad. done. Qed.

(** Words with a zero bit. *)
Ltac zero_bit k :=
  apply costs_word, (not_bad_opcode k); [lia |]; unfold is_reg in *; one_field.

#[export] Hint Extern 1 (is_reg _) => (first [assumption | (vm_compute; split; congruence)]) : emit.

Section Words.
Context (sf : bool) (rd rn rm ra : Z) (Hd : is_reg rd) (Hn : is_reg rn) (Hm : is_reg rm) (Ha : is_reg ra).

Lemma costs_addsub_register op : costs 4 0 (emit_addsub_register sf op rd rn rm).
Proof using Hd Hn Hm. by eapply costs_decoded, decode_addsub_register. Qed.

Lemma costs_logical_register op : costs 4 0 (emit_logical_register sf op rd rn rm).
Proof using Hd Hn Hm. by eapply costs_decoded, decode_logical_register. Qed.

Lemma costs_onesource op : costs 4 0 (emit_dataprocessing_onesource sf op rd rn).
Proof using Hd Hn. by eapply costs_decoded, decode_onesource. Qed.

Lemma costs_twosource op : costs 4 0 (emit_dataprocessing_twosource sf op rd rn rm).
Proof using Hd Hn Hm. by eapply costs_decoded, decode_twosource. Qed.

Lemma costs_threesource op : costs 4 0 (emit_dataprocessing_threesource sf op rd rn rm ra).
Proof using Hd Hn Hm Ha. by eapply costs_decoded, decode_threesource. Qed.

(** An assertion that holds. *)
Lemma costs_asserted {A} n k b (m : M A) : b = true -> costs n k m -> costs n k (assertion b;; m).
Proof. intros -> Hc st. exact (Hc st). Qed.

Lemma costs_addsub_immediate op imm12 :
  0 <= imm12 < 2 ^ 12 -> costs 4 0 (emit_addsub_immediate sf op rd rn imm12).
Proof using Hd Hn.
  intros Hi. unfold emit_addsub_immediate. cbv zeta. rewrite (wrap_id 32) by lia.
  assert ((imm12 >=? 0x1000) = false) as -> by lia.
  change (when false (assertion (imm12 .& 0xfff =? 0))) with (assertion true).
  apply costs_asserted; [done |]. apply costs_asserted; [lia |]. by eapply costs_decoded, decode_addsub_immediate.
Qed.

Lemma costs_loadstore_immediate op imm9 :
  -256 <= imm9 < 256 -> costs 4 0 (emit_loadstore_immediate op rd rn imm9).
Proof using Hd Hn.
  intros Hi. unfold emit_loadstore_immediate. apply costs_asserted; [lia |].
  change 0x1ff with (Z.ones 9). rewrite land_ones_wrap by lia. pose proof (wrap_range 9 imm9 ltac:(lia)).
  generalize dependent (wrap 9 imm9). intros i Hr. destruct op; cbn [loadstore_bits]; zero_bit 26.
Qed.

Lemma costs_loadstore_exclusive op : costs 4 0 (emit_loadstore_exclusive op rd rn rm).
Proof using Hd Hn Hm. unfold emit_loadstore_exclusive. destruct op; cbn [exclusive_bits]; zero_bit 26. Qed.

Lemma costs_loadstorepair op imm7 :
  imm7 ∈ [0; 16; 32; 48] -> costs 4 0 (emit_loadstorepair_immediate op rd rm rn imm7).
Proof using Hd Hn Hm.
  intros Hi. unfold emit_loadstorepair_immediate. cbv zeta. rewrite !elem_of_cons in Hi.
  destruct Hi as [-> | [-> | [-> | [-> | ?%elem_of_nil]]]]; [.. | done];
    (apply costs_asserted; [by destruct op |]; destruct op; cbn [pair_bits Z.quot Z.quotrem N.pos_div_eucl]; zero_bit 26).
Qed.

Lemma costs_branch_register op : costs 4 0 (emit_unconditionalbranch_register op rn).
Proof using Hn. unfold emit_unconditionalbranch_register. destruct op; cbn [branch_register_bits]; zero_bit 27. Qed.

Lemma costs_movewide imm : costs 16 0 (emit_movewide_immediate sf rd imm).
Proof using Hd.
  eapply costs_code; [by apply puts_movewide |]. pose proof (length_movewide_words sf rd imm). lia.
Qed.
End Words.

(** ** Slots *)

(** Recording a slot and putting out its word. *)
Lemma note_and_word t (note : M unit) tgt w st :
  (note st = Some (tt, set_table t (table_of t st ++ [Patch st.(joffset) tgt]) st)) ->
  jit_ok st -> st.(joffset) + 4 <= st.(jsize) -> u32 w <> BAD_OPCODE ->
  (note;; emit_instruction w) st = Some (tt, asm_item (Slot t tgt w) st).
Proof.
  intros Hn Hok Hlen Hw. unfold mbind at 1, M_bind at 1. rewrite Hn. unfold emit_instruction, mbind, M_bind, assertion.
  rewrite (proj2 (Z.eqb_neq _ _)) by done. cbn [negb mret M_ret asm_item]. destruct Hok.
  unfold emit_bytes. rewrite length_le_encode.
  set (st1 := set_table t _ st).
  assert (st1.(joffset) = st.(joffset) /\ st1.(jsize) = st.(jsize) /\ st1.(buf) = st.(buf)) as (E1 & E2 & E3)
    by (unfold st1; by destruct t).
  rewrite E1, E2. rewrite (proj2 (Z.leb_le (Z.of_nat 4) _)), (proj2 (Z.leb_le _ (_ - _))) by lia. cbn [andb negb].
  rewrite Z.gtb_ltb, (proj2 (Z.ltb_ge _ _)) by lia.
  unfold mbind, M_bind, memcpy_buf. rewrite length_le_encode, E3.
  rewrite (proj2 (Z.leb_le _ _)), (proj2 (Z.leb_le _ _)) by lia. unfold put, modify. cbn [joffset set_buf].
  rewrite ?E1, ?E3, ?length_le_encode. cbn [andb joffset set_buf]. by rewrite E1.
Qed.

Lemma branch_not_bad t w : slot_word_ok t w -> u32 w <> BAD_OPCODE.
Proof.
  destruct t; cbn.
  - intros [-> | [-> | [c ->]]]; [done | done |]. by destruct c.
  - by intros ->.
  - intros (r & Hr & ->). apply (not_bad_opcode 26); [lia |]. unfold is_reg in *. cbn [loadstore_bits]. one_field.
  - intros (r & Hr & ->). apply (not_bad_opcode 26); [lia |]. unfold is_reg in *. one_field.
Qed.

Lemma note_then_word t (note : M unit) tgt w :
  (forall st, jit_ok st -> Z.of_nat (length (table_of t st)) < UBPF_MAX_INSTS ->
     note st = Some (tt, set_table t (table_of t st ++ [Patch st.(joffset) tgt]) st)) ->
  slot_word_ok t w -> emits (note;; emit_instruction w) (fun _ => tt) (fun _ => [Slot t tgt w]).
Proof.
  intros Hn Hw st (Hok & Hlen & Ht)%ready_slot. apply note_and_word; [by apply Hn | done | done |].
  by eapply branch_not_bad.
Qed.

(** ... and giving its position. *)
Lemma emits_here (note : M unit) w t tgt :
  emits (note;; emit_instruction w) (fun _ => tt) (fun _ => [Slot t tgt w]) ->
  emits (o ← gets joffset; note;; emit_instruction w;; mret o) joffset (fun _ => [Slot t tgt w]).
Proof.
  intros H st Hr. specialize (H st Hr). unfold mbind, M_bind, gets in *. destruct (note st) as [[[] st1] |]; [| done].
  by rewrite H.
Qed.

Lemma emits_branch tgt :
  emits (emit_unconditionalbranch_immediate UBR_B tgt) joffset (fun _ => [Slot Jumps tgt (branch_immediate_bits UBR_B)]).
Proof.
  apply emits_here, note_then_word; [| by left]. intros. by apply note_jump_ok.
Qed.

Lemma emits_branch_link special :
  emits (emit_unconditionalbranch_immediate UBR_BL (Special special)) joffset
    (fun _ => [Slot Jumps (Special special) (branch_immediate_bits UBR_BL)]).
Proof.
  apply emits_here, note_then_word; [| by right; left]. intros. by apply note_jump_ok.
Qed.

Lemma emits_call_link r :
  emits (emit_unconditionalbranch_immediate UBR_BL (Regular r)) joffset
    (fun _ => [Slot LocalCalls (Regular r) (branch_immediate_bits UBR_BL)]).
Proof.
  apply emits_here, note_then_word; [| done]. intros st Hok Ht. apply note_local_call_ok; [apply Hok | done].
Qed.

Lemma emits_conditional c tgt :
  emits (emit_conditionalbranch_immediate c tgt) joffset (fun _ => [Slot Jumps tgt (BR_Bcond .| condition_bits c)]).
Proof.
  unfold emit_conditionalbranch_immediate. rewrite Z.shiftl_0_l, Z.lor_0_r.
  apply emits_here, note_then_word; [| right; right; by exists c]. intros. by apply note_jump_ok.
Qed.

Lemma emits_literal rt tgt :
  is_reg rt ->
  emits (emit_loadstore_literal LS_LDRL rt tgt) (fun _ => tt) (fun _ => [Slot Loads tgt (loadstore_bits LS_LDRL .| 0x08000000 .| rt)]).
Proof. intros. apply note_then_word; [| by exists rt]. intros. by apply note_load_ok. Qed.

Lemma emits_adr rd tgt :
  is_reg rd -> emits (emit_adr tgt rd) (fun _ => tt) (fun _ => [Slot Leas tgt (0x10000000 .| rd)]).
Proof. intros. apply note_then_word; [| by exists rd]. intros. by apply note_lea_ok. Qed.

(** A slot alone is within its bounds. *)
Lemma in_budget_slot t tgt w : slot_word_ok t w -> slot_target_ok t tgt -> in_budget 4 1 [Slot t tgt w].
Proof. intros. split_and!; [done | intros []; destruct t; vm_compute; lia | by repeat constructor]. Qed.

Lemma costs_branch tgt : slot_target_ok Jumps tgt -> costs 4 1 (emit_unconditionalbranch_immediate UBR_B tgt).
Proof. intros. eapply costs_emits; [apply emits_branch | intros st; apply in_budget_slot; [by left | done]]. Qed.

Lemma costs_branch_link special :
  slot_target_ok Jumps (Special special) -> costs 4 1 (emit_unconditionalbranch_immediate UBR_BL (Special special)).
Proof. intros. eapply costs_emits; [apply emits_branch_link | intros st; apply in_budget_slot; [by right; left | done]]. Qed.

Lemma costs_call_link pc :
  0 <= u32 pc <= UBPF_MAX_INSTS -> costs 4 1 (emit_unconditionalbranch_immediate UBR_BL (ebpf_target pc)).
Proof. intros. eapply costs_emits; [apply emits_call_link | intros st; by apply in_budget_slot]. Qed.

Lemma costs_conditional c tgt : slot_target_ok Jumps tgt -> costs 4 1 (emit_conditionalbranch_immediate c tgt).
Proof. intros. eapply costs_emits; [apply emits_conditional | intros st; apply in_budget_slot; [right; right; by exists c | done]]. Qed.

Lemma costs_literal rt : is_reg rt -> costs 4 1 (emit_loadstore_literal LS_LDRL rt (Special ExternalDispatcher)).
Proof. intros. eapply costs_emits; [by apply emits_literal | intros st; apply in_budget_slot; [by exists rt | done]]. Qed.

Lemma costs_adr rd : is_reg rd -> costs 4 1 (emit_adr (Special LoadHelperTable) rd).
Proof. intros. eapply costs_emits; [by apply emits_adr | intros st; apply in_budget_slot; [by exists rd | done]]. Qed.

#[export] Hint Constants Opaque : emit.
#[export] Hint Resolve costs_addsub_register costs_logical_register costs_onesource costs_twosource costs_threesource
  costs_addsub_immediate costs_loadstore_immediate costs_loadstore_exclusive costs_loadstorepair costs_branch_register
  costs_movewide costs_branch costs_branch_link costs_call_link costs_conditional costs_literal costs_adr : emit.
#[export] Hint Extern 1 (_ <= _ < _) => (first [lia | vm_compute; split; congruence]) : emit.
#[export] Hint Extern 1 (_ ∈ _) => (vm_compute; repeat first [left | right]) : emit.
#[export] Hint Extern 1 (slot_target_ok _ (Special _)) => exact I : emit.

(** ** Positions *)

Lemma jit_target_position o : position_ok o -> slot_target_ok Jumps (jit_target_at o).
Proof.
  intros [Ho Ha]. cbn in *. unfold ARM_CODE_LIMIT in *. rewrite wrap_id by lia. split_and!; try done; try lia.
Qed.

Lemma default_target_ok : slot_target_ok Jumps (ebpf_target 0).
Proof. split_and!; try done. by exists 0. Qed.

Lemma jumpable_branch : jumpable (emit_unconditionalbranch_immediate UBR_B) (branch_immediate_bits UBR_B).
Proof. split; [apply emits_branch |]. intros o Ho. split; [by left | by apply jit_target_position]. Qed.

Lemma jumpable_conditional c : jumpable (emit_conditionalbranch_immediate c) (BR_Bcond .| condition_bits c).
Proof. split; [apply emits_conditional |]. intros o Ho. split; [by right; right; exists c | by apply jit_target_position]. Qed.

#[export] Hint Resolve default_target_ok jit_target_position : emit.

(** ** Sequences *)

(** [solve_costs] with the values of [map_register] and of the opcode tables. *)
Ltac arm_costs :=
  cbv beta zeta;
  lazymatch goal with
  | |- costs _ _ (mbind _ (map_register _)) => eapply costs_known; [intros ?; reflexivity | arm_costs]
  | |- costs _ _ (mbind _ (lift _)) => eapply costs_known; [intros ?; reflexivity | arm_costs]
  | |- costs _ _ (mbind _ (gets joffset)) => eapply costs_here; [intros ? ?; arm_costs |]
  | |- costs _ _ (mbind _ (emit_conditionalbranch_immediate ?c (ebpf_target 0))) =>
      eapply (costs_skip _ _ _ _ _ _ _ _ _ (jumpable_conditional c));
      [split; [by right; right; exists c | apply default_target_ok] | arm_costs | arm_costs | |]
  | |- costs _ _ (mbind _ _) => eapply costs_bind; [arm_costs | intros ?; arm_costs | | ]
  | |- costs _ _ (mret _) => apply costs_ret
  | |- costs _ _ (gets _) => apply costs_gets
  | |- costs _ _ (when _ _) => eapply costs_when; [arm_costs |]
  | |- costs _ _ (if _ then _ else _) => first [eapply costs_if | eapply costs_decide]; [arm_costs | arm_costs]
  | |- costs _ _ ubpf_generate_blinding_constant => apply costs_random
  | |- _ => solve [eauto with emit]
  end.

Ltac arm_sum := eapply costs_weaken; [arm_costs; lia | lia | lia].

Lemma scratch_reg rd : is_reg (if rd =? temp_div_register then temp_register else temp_div_register).
Proof. destruct (_ =? _); vm_compute; split; congruence. Qed.

#[export] Hint Resolve scratch_reg : emit.

Lemma costs_MOVEWIDE vm sf rd imm : is_reg rd -> costs 36 0 (EMIT_MOVEWIDE_IMMEDIATE vm sf rd imm).
Proof. intros. unfold EMIT_MOVEWIDE_IMMEDIATE, emit_movewide_immediate_blinded. arm_sum. Qed.

#[export] Hint Resolve costs_MOVEWIDE : emit.

Lemma costs_helper_lookup vm idx : costs 92 1 (emit_helper_lookup vm idx).
Proof. unfold emit_helper_lookup. arm_sum. Qed.

Lemma costs_dispatcher_arguments vm idx : costs 40 0 (emit_dispatcher_arguments vm idx).
Proof. unfold emit_dispatcher_arguments. arm_sum. Qed.

Lemma arm_costs_helper_call vm idx : costs 172 4 (emit_dispatched_external_helper_call vm idx).
Proof.
  unfold emit_dispatched_external_helper_call. cbv zeta.
  eapply costs_weaken with (n := 4 + (4 + (4 + (4 + (8 + 92 + 40 + 16))))) (k := (0 + (0 + (1 + (0 + (2 + 1 + 0 + 0)))))%nat); [| lia | lia].
  do 4 (apply costs_bind; [arm_costs | intros _ | lia | lia]).
  apply (costs_diamond _ _ _ _ _ _ 92 1 40 0 16 0 _ _ _ (jumpable_conditional COND_NE) ltac:(split; [by right; right; exists COND_NE | apply default_target_ok])
    jumpable_branch ltac:(split; [by left | apply default_target_ok])); try lia.
  - apply costs_helper_lookup.
  - apply costs_dispatcher_arguments.
  - arm_sum.
Qed.

#[export] Hint Resolve arm_costs_helper_call : emit.

Lemma arm_costs_local_call pc : 0 <= u32 pc <= UBPF_MAX_INSTS -> costs 60 1 (emit_local_call pc).
Proof. intros. unfold emit_local_call. arm_sum. Qed.

(** ** Atomic operations *)

Lemma costs_atomic_address vm t a off :
  is_reg t -> is_reg a -> costs 40 0 (emit_atomic_address vm t a off).
Proof.
  intros. unfold emit_atomic_address. cbv zeta. destruct (Z.eqb_spec off 0); cbn [negb]; [arm_sum |].
  destruct (Z.ltb_spec (if off <? 0 then - off else off) 256).
  - assert (0 <= (if off <? 0 then - off else off) < 2 ^ 12) by (destruct (off <? 0) eqn:E; lia). arm_sum.
  - assert (is_reg (if t =? offset_register then temp_div_register else offset_register))
      by (destruct (_ =? _); vm_compute; split; congruence). arm_sum.
Qed.

Lemma costs_store_or_retry is64 v a s o :
  is_reg v -> is_reg a -> is_reg s -> position_ok o -> costs 12 1 (emit_store_or_retry is64 v a s o).
Proof. intros. unfold emit_store_or_retry. arm_sum. Qed.

Lemma costs_atomic_alu is64 op r l v : is_reg r -> is_reg l -> is_reg v -> costs 4 0 (emit_atomic_alu is64 op r l v).
Proof. intros. unfold emit_atomic_alu. arm_sum. Qed.

#[export] Hint Resolve arm_costs_local_call costs_atomic_address costs_store_or_retry costs_atomic_alu : emit.

Lemma costs_atomic_operation vm is64 v a r t s off op cmp xchg fetch :
  is_reg v -> is_reg a -> is_reg r -> is_reg t -> is_reg s ->
  costs 72 2 (emit_atomic_operation vm is64 v a r t s off op cmp xchg fetch).
Proof.
  intros. unfold emit_atomic_operation. cbv zeta.
  assert (is_reg (if s =? temp_div_register then offset_register else temp_div_register))
    by (destruct (_ =? _); vm_compute; split; congruence).
  destruct cmp, xchg; arm_sum.
Qed.
