(* ===== verification/Arm64Run.v ===== *)
(** * Arm64Run: the effect of straight-line arm64 code

    Emitters specified by what the processor does with the code they put out
    ([runs]), and this for the arithmetic of the switch of [translate]: the code
    of every ALU and byte-order instruction computes the interpreter's result, the
    comparison of every conditional jump sets the flags so that its branch is
    taken exactly when the interpreter jumps. *)

From Stdlib Require Import ZArith Lia Bool.
From stdpp Require Import base list gmap strings numbers.
From S2P Require Import Prelude Ebpf InstValid Mem Vm Validate Alu JitSupport JitAsm Arm64Emit Arm64Isa Arm64Move Arm64Trans Arm64Cost.

Local Open Scope Z_scope.
Local Open Scope cbits_scope.

(** ** Straight-line code *)

(** Code without slots, consisting of the words [ws]. *)
Definition straight (its : list item) (ws : list Z) : Prop :=
  Forall (fun it => match it with Slot _ _ _ => False | _ => True end) its /\ its ≫= item_bytes = code_bytes ws.

(** With room for [n] bytes, [m] puts out such code, and running it is in [R]. *)
Definition runs (n : Z) (m : M unit) (R : a64_state -> a64_state -> Prop) : Prop :=
  forall st, room n 0 st -> exists its ws, m st = Some (tt, asm its st) /\ in_budget n 0 its /\ straight its ws /\
    forall s, exists s', a64_run ws s = Some s' /\ R s s'.

Lemma straight_nil : straight [] [].
Proof. by split. Qed.

Lemma straight_app a b ws vs : straight a ws -> straight b vs -> straight (a ++ b) (ws ++ vs).
Proof.
  intros [Ha Ea] [Hb Eb]. split; [by apply Forall_app |]. rewrite bind_app, Ea, Eb. unfold code_bytes. by rewrite bind_app.
Qed.

Lemma runs_puts n m ws R :
  puts m (code_bytes ws) -> 4 * Z.of_nat (length ws) <= n -> (forall s, exists s', a64_run ws s = Some s' /\ R s s') -> runs n m R.
Proof.
  intros Hm Hn Hr st (Hok & (Hs & _ & _) & _). exists [Bytes (code_bytes ws)], ws.
  assert (Z.of_nat (length (code_bytes ws)) = 4 * Z.of_nat (length ws)) as L by (rewrite length_code_bytes; lia).
  split; [apply Hm; [done | lia] |]. split; [| split; [| done]].
  - split_and!; [| done |].
    + rewrite code_len_cons. cbn [item_bytes]. change (code_len []) with 0. lia.
    + constructor; [| done]. exists (Z.of_nat (length ws)). rewrite L. lia.
  - split; [by repeat constructor |]. cbn [mbind list_bind item_bytes]. apply app_nil_r.
Qed.

Lemma runs_weaken n n' m (R R' : a64_state -> a64_state -> Prop) :
  runs n m R -> n <= n' -> (forall s s', R s s' -> R' s s') -> runs n' m R'.
Proof.
  intros H Hn Hr st Hroom. destruct (H st) as (its & ws & E & Hb & Hs & Hx); [by eapply room_weaken |].
  exists its, ws. split; [done |]. split; [by eapply in_budget_weaken |]. split; [done |].
  intros s. destruct (Hx s) as (s' & ? & ?). eauto.
Qed.

Lemma runs_seq n1 n2 m1 m2 (R1 R2 R : a64_state -> a64_state -> Prop) :
  runs n1 m1 R1 -> runs n2 m2 R2 -> 0 <= n1 -> 0 <= n2 -> (forall s s' s'', R1 s s' -> R2 s' s'' -> R s s'') ->
  runs (n1 + n2) (m1;; m2) R.
Proof.
  intros H1 H2 ? ? Hr st Hroom. destruct (H1 st) as (a & ws & E1 & B1 & S1 & X1); [eapply room_weaken; [exact Hroom | lia | lia] |].
  assert (room n2 0 (asm a st)) as Hroom2 by (by apply (room_asm n1 0)).
  destruct (H2 _ Hroom2) as (b & vs & E2 & B2 & S2 & X2). exists (a ++ b), (ws ++ vs).
  split; [unfold mbind, M_bind; by rewrite E1, E2, asm_app |]. split; [by apply (in_budget_app n1 0 n2 0) |].
  split; [by apply straight_app |]. intros s. destruct (X1 s) as (s' & R1s & ?). destruct (X2 s') as (s'' & R2s & ?).
  exists s''. rewrite a64_run_app, R1s. split; [exact R2s | by eapply Hr].
Qed.

Lemma runs_nop R : (forall s, R s s) -> runs 0 (mret tt) R.
Proof. intros Hr. apply (runs_puts 0 _ []); [apply puts_nil | cbn; lia |]. intros s. by exists s. Qed.

Lemma runs_word w i R :
  a64_decode w = Some i -> (forall s, exists s', a64_exec i s = Some s' /\ R s s') -> runs 4 (emit_instruction w) R.
Proof.
  intros Hd Hr. apply (runs_puts 4 _ [w]); [by eapply puts_instruction, decoded_not_bad | cbn; lia |].
  intros s. destruct (Hr s) as (s' & E & H). exists s'. split; [| done]. cbn [a64_run]. unfold a64_step. rewrite Hd.
  cbn [mbind option_bind]. by rewrite E.
Qed.

Lemma runs_costs n m R : runs n m R -> costs n 0 m.
Proof. intros H st Hroom. destruct (H st Hroom) as (its & ws & E & B & _). by exists tt, its. Qed.

(** A value looked up on the way. *)
Lemma runs_lift {A} n (o : option A) a (k : A -> M unit) R : o = Some a -> runs n (k a) R -> runs n (lift o ≫= k) R.
Proof. intros -> H st Hroom. exact (H st Hroom). Qed.

Lemma runs_asserted n b (m : M unit) R : b = true -> runs n m R -> runs n (assertion b;; m) R.
Proof. intros -> H st. exact (H st). Qed.

(** ** Registers *)

(** [s'] is [s] with [v] in register [r], but for the temporary registers. *)
Record updates (s s' : a64_state) (r v : Z) : Prop := Updates {
  up_value : s'.(xregs) r = v;
  up_others : forall q, q <> r -> q <> temp_register -> q <> temp_div_register -> s'.(xregs) q = s.(xregs) q;
}.

(** ... with nothing changed but them. *)
Definition keeps (s s' : a64_state) : Prop :=
  forall q, q <> temp_register -> q <> temp_div_register -> s'.(xregs) q = s.(xregs) q.

(** The registers that hold eBPF registers, or an operand. *)
Definition is_operand (r : Z) : Prop := is_reg r /\ r <> 31 /\ r <> temp_div_register.

Lemma write_updates s sf r v : r <> 31 -> updates s (write_reg s sf r v) r (wrap (width sf) v).
Proof. intros Hr. destruct (write_sets_reg s sf r v Hr) as [Hv Ho _]. constructor; [done |]. intros q Hq _ _. by apply Ho. Qed.

Lemma sets_updates s s' r v : sets_reg s s' r v -> updates s s' r v.
Proof. intros [Hv Ho _]. constructor; [done |]. intros q Hq _ _. by apply Ho. Qed.

Lemma read_operand s sf r : r <> 31 -> read_reg s sf r = wrap (width sf) (s.(xregs) r).
Proof. intros. unfold read_reg. by rewrite (proj2 (Z.eqb_neq _ _)). Qed.

Lemma width_cases sf : width sf = 32 \/ width sf = 64.
Proof. destruct sf; auto. Qed.

Lemma width_pos sf : 0 < width sf.
Proof. destruct sf; cbn; lia. Qed.

(** ** Constants *)

Lemma runs_movewide sf rd imm :
  is_reg rd -> rd <> 31 -> runs 16 (emit_movewide_immediate sf rd imm) (fun s s' => sets_reg s s' rd (wrap (width sf) imm)).
Proof.
  intros Hr Hn. apply (runs_puts 16 _ (movewide_words sf rd imm)); [by apply puts_movewide | |].
  - pose proof (length_movewide_words sf rd imm). lia.
  - intros s. by apply run_movewide.
Qed.

Lemma runs_logical sf op rd rn rm :
  is_reg rd -> is_reg rn -> is_reg rm -> runs 4 (emit_logical_register sf op rd rn rm)
    (fun s s' => a64_exec (Logical sf (logical_opc op) (logical_invert op) rd rn rm) s = Some s').
Proof. intros. eapply runs_word; [by apply decode_logical_register |]. intros s. eexists. split; reflexivity. Qed.

Lemma runs_random n (k : Z -> M unit) R :
  (forall r, runs n (k r) R) -> 0 <= n -> runs n (ubpf_generate_blinding_constant ≫= k) R.
Proof.
  intros H Hn st Hroom. assert (in_budget 0 0 [Draw]) as Bd by (split_and!; [done | done | by repeat constructor]).
  destruct (H (u64 (st.(entropy) 0%nat)) (asm [Draw] st)) as (its' & ws & E' & B' & S' & X'); [by apply (room_asm 0 0) |].
  exists (Draw :: its'), ws. split; [exact E' |]. split; [by apply (in_budget_app 0 0 n 0 [Draw]) |].
  split; [| done]. apply (straight_app [Draw] its' [] ws); [| done]. by split; [repeat constructor |].
Qed.

(** With constant blinding the constant is put together from two random ones. *)
Lemma blinded_value sf imm r :
  wrap (width sf) (Z.lxor (wrap (width sf) (Z.lxor (u64 imm) r)) (wrap (width sf) r)) = wrap (width sf) imm.
Proof.
  pose proof (width_pos sf). rewrite <- wrap_lxor, wrap_wrap by lia.
  assert (forall x, Z.lxor (Z.lxor x r) r = x) as E by (intros; by rewrite Z.lxor_assoc, Z.lxor_nilpotent, Z.lxor_0_r).
  rewrite E. destruct sf; cbn; rewrite wrap_wrap_le by lia; done.
Qed.

(** The other register that a blinded constant goes through. *)
Definition scratch_of (rd : Z) : Z := if rd =? temp_div_register then temp_register else temp_div_register.

Lemma scratch_facts rd : is_reg (scratch_of rd) /\ scratch_of rd <> 31 /\ scratch_of rd <> rd /\
  (scratch_of rd = temp_register \/ scratch_of rd = temp_div_register).
Proof. unfold scratch_of. destruct (Z.eqb_spec rd temp_div_register) as [-> |]; (split; [by vm_compute |]); vm_compute; split_and!; try congruence; auto. Qed.

(** [s'] is [s] with [v] in register [r], but for register [t]. *)
Record sets_beside (t : Z) (s s' : a64_state) (r v : Z) : Prop := SetsBeside {
  sb_value : s'.(xregs) r = v;
  sb_others : forall q, q <> r -> q <> t -> s'.(xregs) q = s.(xregs) q;
}.

(** A constant in a register, with or without constant blinding. *)
Lemma runs_constant vm sf rd imm :
  is_reg rd -> rd <> 31 ->
  runs 36 (EMIT_MOVEWIDE_IMMEDIATE vm sf rd imm) (fun s s' => sets_beside (scratch_of rd) s s' rd (wrap (width sf) imm)).
Proof.
  intros Hr Hn. unfold EMIT_MOVEWIDE_IMMEDIATE. destruct (constant_blinding_enabled vm).
  2:{ eapply runs_weaken; [by apply runs_movewide | lia |]. intros s s' [Hv Ho _]. constructor; [done |]. intros q Hq _. by apply Ho. }
  unfold emit_movewide_immediate_blinded. apply runs_random; [| lia]. intros r. cbv zeta. change (if rd =? _ then _ else _) with (scratch_of rd).
  destruct (scratch_facts rd) as (Hs & Hs1 & Hs2 & _). set (scratch := scratch_of rd) in *. pose proof (width_pos sf) as Hw.
  change 36 with (16 + (16 + 4)).
  eapply runs_seq with (R2 := fun s s' => sets_beside scratch s s' rd (wrap (width sf) (Z.lxor (read_reg s sf rd) (wrap (width sf) r))));
    [by apply runs_movewide | | lia | lia |].
  - eapply runs_seq; [by apply runs_movewide | by apply runs_logical | lia | lia |]. cbv beta.
    intros s s' s'' [Hv Ho _] [= <-]. cbn [logical_opc logical_invert]. cbv zeta iota.
    change (2 =? 3) with false. cbv iota. unfold logical. change (2 =? 1) with false. change (2 =? 2) with true. cbv iota.
    destruct (write_sets_reg s' sf rd (wrap (width sf) (read_reg s' sf rd .^ read_reg s' sf scratch)) Hn) as [Hv' Ho' _].
    rewrite !read_operand in * by done. rewrite Hv, Ho, wrap_wrap in * by (done || lia).
    constructor; [by rewrite Hv', !wrap_wrap by lia |]. intros q Hq H1. by rewrite Ho', Ho.
  - cbv beta. intros s s' s'' [Hv Ho _] [Hv' Ho']. constructor.
    + rewrite Hv', read_operand, Hv, wrap_wrap by (done || lia). apply blinded_value.
    + intros q Hq H1. by rewrite Ho', Ho.
Qed.

Lemma runs_MOVEWIDE vm sf rd imm :
  is_reg rd -> rd <> 31 -> runs 36 (EMIT_MOVEWIDE_IMMEDIATE vm sf rd imm) (fun s s' => updates s s' rd (wrap (width sf) imm)).
Proof.
  intros Hr Hn. eapply runs_weaken; [by apply runs_constant | lia |]. intros s s' [Hv Ho]. constructor; [done |].
  intros q Hq H1 H2. apply Ho; [done |]. destruct (scratch_facts rd) as (_ & _ & _ & [-> | ->]); done.
Qed.

(** ** Operands *)

(** The instruction that takes from a register what [op] has as an immediate. *)
Definition reg_form (op : ebpf_op) : ebpf_op :=
  match op with
  | EBPF_OP_ADD_IMM => EBPF_OP_ADD_REG | EBPF_OP_SUB_IMM => EBPF_OP_SUB_REG | EBPF_OP_MUL_IMM => EBPF_OP_MUL_REG
  | EBPF_OP_DIV_IMM => EBPF_OP_DIV_REG | EBPF_OP_OR_IMM => EBPF_OP_OR_REG | EBPF_OP_AND_IMM => EBPF_OP_AND_REG
  | EBPF_OP_LSH_IMM => EBPF_OP_LSH_REG | EBPF_OP_RSH_IMM => EBPF_OP_RSH_REG | EBPF_OP_MOD_IMM => EBPF_OP_MOD_REG
  | EBPF_OP_XOR_IMM => EBPF_OP_XOR_REG | EBPF_OP_ARSH_IMM => EBPF_OP_ARSH_REG
  | EBPF_OP_ADD64_IMM => EBPF_OP_ADD64_REG | EBPF_OP_SUB64_IMM => EBPF_OP_SUB64_REG
  | EBPF_OP_MUL64_IMM => EBPF_OP_MUL64_REG | EBPF_OP_DIV64_IMM => EBPF_OP_DIV64_REG
  | EBPF_OP_OR64_IMM => EBPF_OP_OR64_REG | EBPF_OP_AND64_IMM => EBPF_OP_AND64_REG
  | EBPF_OP_LSH64_IMM => EBPF_OP_LSH64_REG | EBPF_OP_RSH64_IMM => EBPF_OP_RSH64_REG
  | EBPF_OP_MOD64_IMM => EBPF_OP_MOD64_REG | EBPF_OP_XOR64_IMM => EBPF_OP_XOR64_REG
  | EBPF_OP_ARSH64_IMM => EBPF_OP_ARSH64_REG
  | EBPF_OP_JEQ_IMM => EBPF_OP_JEQ_REG | EBPF_OP_JGT_IMM => EBPF_OP_JGT_REG | EBPF_OP_JGE_IMM => EBPF_OP_JGE_REG
  | EBPF_OP_JLT_IMM => EBPF_OP_JLT_REG | EBPF_OP_JLE_IMM => EBPF_OP_JLE_REG | EBPF_OP_JSET_IMM => EBPF_OP_JSET_REG
  | EBPF_OP_JNE_IMM => EBPF_OP_JNE_REG | EBPF_OP_JSGT_IMM => EBPF_OP_JSGT_REG | EBPF_OP_JSGE_IMM => EBPF_OP_JSGE_REG
  | EBPF_OP_JSLT_IMM => EBPF_OP_JSLT_REG | EBPF_OP_JSLE_IMM => EBPF_OP_JSLE_REG
  | EBPF_OP_JEQ32_IMM => EBPF_OP_JEQ32_REG | EBPF_OP_JGT32_IMM => EBPF_OP_JGT32_REG
  | EBPF_OP_JGE32_IMM => EBPF_OP_JGE32_REG | EBPF_OP_JLT32_IMM => EBPF_OP_JLT32_REG
  | EBPF_OP_JLE32_IMM => EBPF_OP_JLE32_REG | EBPF_OP_JSET32_IMM => EBPF_OP_JSET32_REG
  | EBPF_OP_JNE32_IMM => EBPF_OP_JNE32_REG | EBPF_OP_JSGT32_IMM => EBPF_OP_JSGT32_REG
  | EBPF_OP_JSGE32_IMM => EBPF_OP_JSGE32_REG | EBPF_OP_JSLT32_IMM => EBPF_OP_JSLT32_REG
  | EBPF_OP_JSLE32_IMM => EBPF_OP_JSLE32_REG
  | EBPF_OP_STW => EBPF_OP_STXW | EBPF_OP_STH => EBPF_OP_STXH | EBPF_OP_STB => EBPF_OP_STXB
  | EBPF_OP_STDW => EBPF_OP_STXDW
  | _ => op
  end.

(** Whether the immediate has to be in a register, and whether it fits the twelve
    bits of an addition, subtraction or comparison. *)
Definition takes_immediate (op : ebpf_op) : bool :=
  match op with
  | EBPF_OP_ADD_IMM | EBPF_OP_ADD64_IMM | EBPF_OP_SUB_IMM | EBPF_OP_SUB64_IMM => true
  | _ => match class_of op with ClassJump => negb (bool_decide (reg_form op = op)) | _ => false end
  end.

Definition fits_imm12 (inst : ebpf_inst) : bool := (0 <=? inst.(imm)) && (inst.(imm) <? 0x1000).

(** The operand goes to the temporary register. *)
Definition in_register (vm : ubpf_vm) (inst : ebpf_inst) (op : ebpf_op) : bool :=
  negb (bool_decide (reg_form op = op)) && (vm.(constant_blinding_enabled) || negb (takes_immediate op && fits_imm12 inst)).

#[export] Instance inst_class_eq_dec : EqDecision inst_class.
Proof. solve_decision. Defined.

(** What the functions on opcodes say of an instruction with opcode [op]. *)
Lemma imm_op_facts inst op :
  inst.(opcode) = opcode_of op ->
  (is_imm_op inst && negb (inst.(opcode) =? opcode_of EBPF_OP_MOV_IMM) && negb (inst.(opcode) =? opcode_of EBPF_OP_MOV64_IMM)
   = negb (bool_decide (reg_form op = op))) /\
  (reg_form op <> op -> is_simple_imm inst = Some (takes_immediate op && fits_imm12 inst) /\
     to_reg_op inst.(opcode) = Some (opcode_of (reg_form op))).
Proof.
  unfold is_imm_op, is_simple_imm, fits_imm12. intros ->. rewrite switch_op_complete.
  destruct op; (split; [vm_compute; reflexivity | intros Hne; try (by destruct Hne); split; reflexivity]).
Qed.

(** The instruction the switch sees. *)
Definition operand_op (vm : ubpf_vm) (inst : ebpf_inst) (op : ebpf_op) : ebpf_op :=
  if in_register vm inst op then reg_form op else op.
Definition operand_src (vm : ubpf_vm) (inst : ebpf_inst) (op : ebpf_op) (src : Z) : Z :=
  if in_register vm inst op then temp_register else src.

Lemma operand_src_reg vm inst op src : is_reg src -> is_reg (operand_src vm inst op src).
Proof. intros. unfold operand_src. destruct (in_register _ _ _); [by vm_compute | done]. Qed.

Lemma operand_run vm inst op src sf st :
  switch_op inst.(opcode) = Some op -> room 36 0 st ->
  exists its ws, in_budget 36 0 its /\ straight its ws /\ (in_register vm inst op = false -> its = []) /\
    emit_immediate_operand vm inst src sf st =
    Some ((operand_src vm inst op src, opcode_of (operand_op vm inst op)), asm its st) /\
    forall s, exists s', a64_run ws s = Some s' /\ keeps s s' /\
      (in_register vm inst op = true -> s'.(xregs) temp_register = wrap (width sf) inst.(imm)).
Proof.
  intros Hop%switch_op_sound Hroom. destruct (imm_op_facts inst op (eq_sym Hop)) as [E1 E2].
  unfold emit_immediate_operand. cbv zeta. rewrite E1. unfold operand_src, operand_op, in_register.
  assert (in_budget 36 0 []) as B0 by (split_and!; done).
  assert (forall b : bool, b = false -> forall s, exists s', a64_run [] s = Some s' /\ keeps s s' /\
    (b = true -> s'.(xregs) temp_register = wrap (width sf) inst.(imm))) as R0 by (intros b -> s; by exists s).
  destruct (bool_decide_reflect (reg_form op = op)) as [E | E]; cbn [negb andb].
  { exists [], []. rewrite Hop. split_and!; try done. by apply R0. }
  destruct (E2 E) as [-> ->]. unfold mbind at 1, M_bind at 1, lift at 1. cbn [fmap option_fmap option_map].
  rewrite orb_comm. destruct (_ || _) eqn:Er; [| exists [], []; rewrite Hop; split_and!; try done; by apply R0].
  destruct (runs_MOVEWIDE vm sf temp_register inst.(imm) ltac:(by vm_compute) ltac:(done) st Hroom) as (its & ws & Em & Bm & Sm & Xm).
  exists its, ws. split; [done |]. split; [done |]. split; [done |]. split; [unfold mbind, M_bind; by rewrite Em |].
  intros s. destruct (Xm s) as (s' & ? & [Hv Ho]). exists s'. split_and!; [done | | done]. intros q H1 H2. by apply Ho.
Qed.

Lemma reg_form_class op :
  class_of (reg_form op) <> ClassUnexpected /\
  (reg_form op = op \/ takes_immediate (reg_form op) = false) /\
  (class_of (reg_form op) = ClassJump <-> group_of op = GroupJump).
Proof. destruct op; (split; [discriminate | split; [by (left + right) | done]]). Qed.

Lemma direct_class op :
  (takes_immediate op = true -> reg_form op <> op) /\
  (reg_form op = op \/ takes_immediate op = true ->
   class_of op <> ClassUnexpected /\ (class_of op = ClassJump <-> group_of op = GroupJump)).
Proof. destruct op; (split; [done | intros [|]; done]). Qed.

Lemma operand_op_class vm inst op :
  class_of (operand_op vm inst op) <> ClassUnexpected /\
  (takes_immediate (operand_op vm inst op) = true -> 0 <= inst.(imm) < 2 ^ 12) /\
  (class_of (operand_op vm inst op) = ClassJump <-> group_of op = GroupJump).
Proof.
  destruct (reg_form_class op) as (R1 & R2 & R3), (direct_class op) as (D1 & D2).
  unfold operand_op, in_register, fits_imm12. destruct (bool_decide_reflect (reg_form op = op)) as [E | E]; cbn [negb andb].
  - destruct (D2 (or_introl E)) as [? ?]. split_and!; [done | by intros ?%D1 | done].
  - destruct (constant_blinding_enabled vm); cbn [orb].
    { split_and!; [done | destruct R2; congruence | done]. }
    destruct (takes_immediate op); cbn [andb negb]; [| split_and!; [done | destruct R2; congruence | done]].
    destruct (Z.leb_spec 0 inst.(imm)), (Z.ltb_spec inst.(imm) 0x1000); cbn [andb negb];
      try (split_and!; [done | destruct R2; congruence | done]).
    destruct (D2 (or_intror eq_refl)) as [? ?]. split_and!; [done | lia | done].
Qed.

(** Instructions without an operand of their own stay as they are. *)
Lemma operand_op_same vm inst op : reg_form op = op -> operand_op vm inst op = op.
Proof. unfold operand_op. intros ->. by destruct (in_register _ _ _). Qed.

(** ** Arithmetic *)

(** The result RFC 9669 defines for [op], on the values of the registers. *)
Definition alu_value (op : ebpf_op) (off imm d s : Z) : Z :=
  spec_alu (op_width (opcode_of op)) (op_nibble (opcode_of op)) off
    (spec_dest (opcode_of op) d) (spec_operand (opcode_of op) imm s).

(** Whether [op] is 64 bits wide. *)
Definition is_wide (op : ebpf_op) : bool := op_width (opcode_of op) =? 64.

Lemma wide_width op : width (is_wide op) = op_width (opcode_of op).
Proof. unfold is_wide, op_width. by destruct (_ || _). Qed.

Lemma alu64_wide inst op : switch_op inst.(opcode) = Some op -> is_alu op = true \/ is_conditional op = true -> is_alu64_op inst = is_wide op.
Proof.
  intros Hop%switch_op_sound Ha. unfold is_alu64_op. rewrite <- Hop. destruct op; (done || (destruct Ha; discriminate)).
Qed.

(** One instruction that writes its result. *)
Lemma runs_result sf w i d (v : a64_state -> Z) :
  a64_decode w = Some i -> d <> 31 ->
  (forall s, exists x, a64_exec i s = Some (write_reg s sf d x) /\ wrap (width sf) x = v s) ->
  runs 4 (emit_instruction w) (fun s s' => updates s s' d (v s)).
Proof.
  intros Hw Hd Hv. eapply runs_word; [exact Hw |]. intros s. destruct (Hv s) as (x & E & <-). eexists. split; [exact E |].
  by apply write_updates.
Qed.

Lemma sum_value sf x y : (add_sub sf false x y).1 = wrap (width sf) (x + y).
Proof.
  unfold add_sub, add_with_carry. cbv zeta. cbn [fst]. rewrite Z.add_0_r.
  by rewrite wrap_add_l, wrap_add_r.
Qed.

Lemma lnot_sub y : Z.lnot y = - y - 1.
Proof. unfold Z.lnot. lia. Qed.

Lemma difference_value sf x y : (add_sub sf true x y).1 = wrap (width sf) (x - y).
Proof.
  unfold add_sub, add_with_carry. cbv zeta. cbn [fst]. rewrite lnot_sub, wrap_wrap by (pose proof (width_pos sf); lia).
  replace (wrap (width sf) x + wrap (width sf) (- y - 1) + 1) with (wrap (width sf) x + 1 + wrap (width sf) (- y - 1)) by lia.
  rewrite wrap_add_r. replace (wrap (width sf) x + 1 + (- y - 1)) with (wrap (width sf) x - y) by lia. apply wrap_sub_l.
Qed.

Section Ops.
Context (sf : bool) (d s : Z) (Hd : is_operand d) (Hs : is_operand s).
#[local] Abbreviation w := (width sf).
#[local] Abbreviation x m := (wrap (width sf) (m.(xregs) d)).
#[local] Abbreviation y m := (wrap (width sf) (m.(xregs) s)).

Lemma runs_addsub_register op :
  sets_flags op = false ->
  runs 4 (emit_addsub_register sf op d d s)
    (fun m m' => updates m m' d (wrap w (if is_sub op then x m - y m else x m + y m))).
Proof using Hd Hs.
  intros Hf. destruct Hd as (? & ? & ?), Hs as (? & ? & ?). eapply (runs_result sf); [by apply decode_addsub_register | done |].
  intros m. cbn [a64_exec]. rewrite !read_operand, Hf by done. destruct (is_sub op).
  - rewrite (surjective_pairing (add_sub sf true _ _)). eexists. split; [reflexivity |].
    by rewrite difference_value, wrap_wrap by (pose proof (width_pos sf); lia).
  - rewrite (surjective_pairing (add_sub sf false _ _)). eexists. split; [reflexivity |].
    by rewrite sum_value, wrap_wrap by (pose proof (width_pos sf); lia).
Qed.

Lemma runs_neg : runs 4 (emit_addsub_register sf AS_SUB d RZ d) (fun m m' => updates m m' d (wrap w (- x m))).
Proof using Hd.
  destruct Hd as (? & ? & ?). eapply (runs_result sf); [by apply decode_addsub_register | done |].
  intros m. cbn [a64_exec is_sub sets_flags]. rewrite (read_operand m sf d) by done. change (read_reg m sf RZ) with 0.
  rewrite (surjective_pairing (add_sub sf true _ _)). eexists. split; [reflexivity |].
  by rewrite difference_value, wrap_wrap, Z.sub_0_l by (pose proof (width_pos sf); lia).
Qed.

Lemma runs_addsub_immediate op imm :
  sets_flags op = false -> 0 <= imm < 2 ^ 12 ->
  runs 4 (emit_addsub_immediate sf op d d imm)
    (fun m m' => updates m m' d (wrap w (if is_sub op then x m - imm else x m + imm))).
Proof using Hd.
  intros Hf Hi. destruct Hd as (? & ? & ?). unfold emit_addsub_immediate. cbv zeta. rewrite (wrap_id 32) by lia.
  assert ((imm >=? 0x1000) = false) as -> by lia. change (when false (assertion (imm .& 0xfff =? 0))) with (assertion true).
  apply runs_asserted; [done |]. apply runs_asserted; [lia |].
  eapply (runs_result sf); [by apply decode_addsub_immediate | done |].
  intros m. cbn [a64_exec]. rewrite Hf, (proj2 (Z.eqb_neq d 31)), read_operand, Z.shiftl_0_r by done. cbn [negb andb orb].
  destruct (is_sub op).
  - rewrite (surjective_pairing (add_sub sf true _ _)). eexists. split; [reflexivity |].
    by rewrite difference_value, wrap_wrap by (pose proof (width_pos sf); lia).
  - rewrite (surjective_pairing (add_sub sf false _ _)). eexists. split; [reflexivity |].
    by rewrite sum_value, wrap_wrap by (pose proof (width_pos sf); lia).
Qed.

Lemma runs_logical_value op :
  logical_invert op = false -> logical_opc op <> 3 ->
  runs 4 (emit_logical_register sf op d d s)
    (fun m m' => updates m m' d (wrap w (logical sf (logical_opc op) (x m) (y m)))).
Proof using Hd Hs.
  intros Hi Ho. destruct Hd as (? & ? & ?), Hs as (? & ? & ?). eapply (runs_result sf); [by apply decode_logical_register | done |].
  intros m. cbn [a64_exec]. rewrite !read_operand, Hi, (proj2 (Z.eqb_neq _ 3)) by done. eexists. split; [reflexivity |].
  by rewrite wrap_wrap by (pose proof (width_pos sf); lia).
Qed.

Lemma runs_twosource op v :
  (forall m, two_source sf (dp2_opc op) (x m) (y m) = Some (v m)) ->
  runs 4 (emit_dataprocessing_twosource sf op d d s) (fun m m' => updates m m' d (wrap w (v m))).
Proof using Hd Hs.
  intros Hv. destruct Hd as (? & ? & ?), Hs as (? & ? & ?). eapply (runs_result sf); [by apply decode_twosource | done |].
  intros m. cbn [a64_exec]. rewrite !read_operand, Hv by done. eexists. split; reflexivity.
Qed.

Lemma runs_mul : runs 4 (emit_dataprocessing_threesource sf DP3_MADD d d s RZ) (fun m m' => updates m m' d (wrap w (x m * y m))).
Proof using Hd Hs.
  destruct Hd as (? & ? & ?), Hs as (? & ? & ?). eapply (runs_result sf); [by apply decode_threesource | done |].
  intros m. cbn [a64_exec]. rewrite !(read_operand m sf d), !(read_operand m sf s) by done. eexists. split; reflexivity.
Qed.

Lemma runs_move : runs 4 (emit_logical_register sf LOG_ORR d RZ s) (fun m m' => updates m m' d (y m)).
Proof using Hd Hs.
  destruct Hd as (? & ? & ?), Hs as (? & ? & ?). eapply (runs_result sf); [by apply decode_logical_register | done |].
  intros m. cbn [a64_exec]. rewrite !(read_operand m sf s) by done. eexists. split; [reflexivity |].
  change (logical sf (logical_opc LOG_ORR) (read_reg m sf RZ)) with (Z.lor 0). cbn [logical_invert].
  by rewrite Z.lor_0_l, !wrap_wrap by (pose proof (width_pos sf); lia).
Qed.

(** Sign extension from [bits] bits, with the word of its instruction. *)
Lemma runs_extend word bits :
  a64_decode word = Some (Extend sf true bits d s) -> bits <= w ->
  runs 4 (emit_instruction word) (fun m m' => updates m m' d (wrap w (sext bits (y m)))).
Proof using Hd Hs.
  intros Hw Hb. destruct Hd as (? & ? & ?), Hs as (? & ? & ?). eapply (runs_result sf); [exact Hw | done |].
  intros m. cbn [a64_exec]. rewrite read_operand, (proj2 (Z.leb_le _ _)) by done. eexists. split; reflexivity.
Qed.

(** Division, and the remainder from it. *)
Definition quotient (signed : bool) (a b : Z) : Z :=
  if b =? 0 then 0 else if signed then Z.quot (sext w a) (sext w b) else a / b.

Lemma runs_div (signed : bool) :
  runs 4 (emit_dataprocessing_twosource sf (if signed then DP2_SDIV else DP2_UDIV) d d s)
    (fun m m' => updates m m' d (wrap w (quotient signed (x m) (y m)))).
Proof using Hd Hs. apply runs_twosource. intros m. unfold quotient, two_source. by destruct signed. Qed.

Lemma runs_mod (signed : bool) :
  runs 8 (emit_dataprocessing_twosource sf (if signed then DP2_SDIV else DP2_UDIV) temp_div_register d s;;
          emit_dataprocessing_threesource sf DP3_MSUB d s temp_div_register d)
    (fun m m' => updates m m' d (wrap w (x m - y m * wrap w (quotient signed (x m) (y m))))).
Proof using Hd Hs.
  destruct Hd as (? & ? & Hd25), Hs as (? & ? & Hs25). pose proof (width_pos sf).
  apply (runs_seq 4 4 _ _ (fun m m' => sets_reg m m' temp_div_register (wrap w (quotient signed (x m) (y m))))
    (fun m m' => updates m m' d (wrap w (x m - y m * wrap w (m.(xregs) temp_div_register))))); [| | lia | lia |].
  - eapply runs_word; [by apply decode_twosource |]. intros m. cbn [a64_exec]. rewrite !read_operand by done.
    assert (two_source sf (dp2_opc (if signed then DP2_SDIV else DP2_UDIV)) (x m) (y m) = Some (quotient signed (x m) (y m))) as ->
      by by destruct signed.
    eexists. split; [reflexivity |]. by apply write_sets_reg.
  - eapply (runs_result sf); [by apply decode_threesource | done |]. intros m. cbn [a64_exec].
    rewrite !read_operand by done. eexists. split; reflexivity.
  - cbv beta. intros m m' m'' [Hv Ho _] [Hv' Ho']. rewrite Hv, !Ho, wrap_wrap in Hv' by (done || lia). constructor; [done |].
    intros q Hq Hq1 Hq2. by rewrite Ho', Ho.
Qed.
End Ops.

(** The remainder is the dividend minus the product. *)
Lemma remainder_value w x y (signed : bool) :
  0 < w -> 0 <= x < 2 ^ w -> 0 <= y < 2 ^ w ->
  wrap w (x - y * wrap w (if y =? 0 then 0 else if signed then Z.quot (sext w x) (sext w y) else x / y)) =
  wrap w (if y =? 0 then x else if signed then Z.rem (sext w x) (sext w y) else x mod y).
Proof.
  intros Hw Hx Hy. rewrite <- wrap_sub_r, wrap_mul_r, wrap_sub_r. destruct (Z.eqb_spec y 0) as [-> | Hn].
  - f_equal. lia.
  - destruct signed.
    + rewrite <- (wrap_sub_l w x), <- (wrap_sub_r w _ (y * _)), <- (wrap_mul_l w y).
      rewrite <- (wrap_sext w x), <- (wrap_sext w y) by lia. rewrite wrap_mul_l, wrap_sub_l, wrap_sub_r. f_equal.
      pose proof (Z.quot_rem' (sext w x) (sext w y)). lia.
    + f_equal. rewrite Z.mod_eq by done. done.
Qed.

Lemma shift_value x y (n : Z) : 0 < n -> x .<< (y mod n) = x * 2 ^ (y mod n) /\ x .>> (y mod n) = x / 2 ^ (y mod n).
Proof. intros Hn. pose proof (Z.mod_pos_bound y n Hn). by rewrite Z.shiftl_mul_pow2, Z.shiftr_div_pow2 by lia. Qed.

(** *** Division by the switch *)

Lemma runs_divmod op d s off :
  op ∈ [EBPF_OP_DIV_REG; EBPF_OP_DIV64_REG; EBPF_OP_MOD_REG; EBPF_OP_MOD64_REG] ->
  is_operand d -> is_operand s -> off = 0 \/ off = 1 ->
  runs 8 (divmod (opcode_of op) d d s off) (fun m m' => updates m m' d (alu_value op off 0 (m.(xregs) d) (m.(xregs) s))).
Proof.
  intros Hop Hd Hs Ho. unfold divmod. cbv zeta.
  assert (forall sf m, 0 <= wrap (width sf) (m.(xregs) d) < 2 ^ width sf /\ 0 <= wrap (width sf) (m.(xregs) s) < 2 ^ width sf) as Hr
    by (intros sf m; pose proof (width_pos sf); split; apply wrap_range; lia).
  assert (forall sf, runs 4 (emit_dataprocessing_twosource sf (if off =? 1 then DP2_SDIV else DP2_UDIV) d d s;; mret tt)
    (fun m m' => updates m m' d (wrap (width sf) (quotient sf (off =? 1) (wrap (width sf) (m.(xregs) d)) (wrap (width sf) (m.(xregs) s))))))
    as Hdiv.
  { intros sf st. rewrite bind_ret_r. by apply (runs_div sf d s Hd Hs (off =? 1)). }
  pose proof (fun sf => runs_mod sf d s Hd Hs (off =? 1)) as Hmod.
  repeat (apply elem_of_cons in Hop as [-> | Hop]); [| | | | by apply elem_of_nil in Hop];
    (eapply runs_weaken; [first [exact (Hdiv false) | exact (Hdiv true) | exact (Hmod false) | exact (Hmod true)] | lia |]);
    cbv beta; intros m m' Hup; (eapply eq_ind; [exact Hup |]); unfold alu_value, spec_dest, spec_operand; eval_opcode_bits;
    unfold quotient; try rewrite remainder_value by (apply (Hr false) || apply (Hr true) || (cbn; lia)); cbn [width];
    unfold spec_alu; cbn [Z.eqb Pos.eqb]; cbv zeta; by destruct Ho as [-> | ->].
Qed.

(** *** The ALU part of the switch *)

(** Reduces the claim on a part to one on the value it computes. *)
Ltac by_value H :=
  eapply runs_weaken; [exact H | lia |]; cbv beta; intros m m' Hup; (eapply eq_ind; [exact Hup |]);
  unfold alu_value, spec_dest, spec_operand; eval_opcode_bits; cbn [width is_sub];
  unfold spec_alu; cbn [Z.eqb Pos.eqb]; cbv zeta iota.

Lemma runs_alu_immediate vm op inst d s :
  op ∈ [EBPF_OP_ADD_IMM; EBPF_OP_ADD64_IMM; EBPF_OP_SUB_IMM; EBPF_OP_SUB64_IMM] -> is_operand d ->
  0 <= inst.(imm) < 2 ^ 12 ->
  runs 4 (emit_alu_inst vm op (opcode_of op) inst s d (is_wide op))
    (fun m m' => updates m m' d (alu_value op inst.(offset) inst.(imm) (m.(xregs) d) (m.(xregs) s))).
Proof.
  intros Hop Hd Hi. pose proof (fun sf o H => runs_addsub_immediate sf d Hd o inst.(imm) H Hi) as Hr.
  repeat (apply elem_of_cons in Hop as [-> | Hop]); [| | | | by apply elem_of_nil in Hop]; (eapply runs_lift; [reflexivity |]).
  - by_value (Hr false AS_ADD eq_refl). by rewrite (wrap_id 32 inst.(imm)) by lia.
  - by_value (Hr true AS_ADD eq_refl). by rewrite (wrap_id 64 inst.(imm)) by lia.
  - by_value (Hr false AS_SUB eq_refl). by rewrite (wrap_id 32 inst.(imm)) by lia.
  - by_value (Hr true AS_SUB eq_refl). by rewrite (wrap_id 64 inst.(imm)) by lia.
Qed.

Lemma runs_alu_move vm op inst d s :
  op = EBPF_OP_MOV_REG \/ op = EBPF_OP_MOV64_REG -> is_operand d -> is_operand s -> offset_ok op inst.(offset) ->
  runs 4 (emit_alu_inst vm op (opcode_of op) inst s d (is_wide op))
    (fun m m' => updates m m' d (alu_value op inst.(offset) inst.(imm) (m.(xregs) d) (m.(xregs) s))).
Proof.
  intros Hop Hd Hs Ho. pose proof (fun sf => runs_move sf d s Hd Hs) as Hm.
  pose proof (fun sf => runs_extend sf d s Hd Hs) as He. pose proof (proj1 Hd) as Rd. pose proof (proj1 Hs) as Rs.
  destruct Hop as [-> | ->]; cbn [offset_ok] in Ho; cbn [emit_alu_inst]; destruct_or! Ho; rewrite Ho; cbn [Z.eqb Pos.eqb andb].
  - by_value (Hm false). by rewrite wrap_wrap by lia.
  - by_value (He false _ 8 (decode_sxtb false d s Rd Rs) ltac:(done)). done.
  - by_value (He false _ 16 (decode_sxth false d s Rd Rs) ltac:(done)). done.
  - by_value (Hm true). by rewrite wrap_wrap by lia.
  - by_value (He true _ 8 (decode_sxtb true d s Rd Rs) ltac:(done)). done.
  - by_value (He true _ 16 (decode_sxth true d s Rd Rs) ltac:(done)). done.
  - by_value (He true _ 32 (decode_sxtw d s Rd Rs) ltac:(done)). done.
Qed.

Lemma runs_alu_shift vm op inst d s :
  op ∈ [EBPF_OP_LSH_REG; EBPF_OP_LSH64_REG; EBPF_OP_RSH_REG; EBPF_OP_RSH64_REG; EBPF_OP_ARSH_REG; EBPF_OP_ARSH64_REG] ->
  is_operand d -> is_operand s ->
  runs 4 (emit_alu_inst vm op (opcode_of op) inst s d (is_wide op))
    (fun m m' => updates m m' d (alu_value op inst.(offset) inst.(imm) (m.(xregs) d) (m.(xregs) s))).
Proof.
  intros Hop Hd Hs.
  assert (forall sf op' v, (forall a b, two_source sf (dp2_opc op') a b = Some (v a b)) ->
    runs 4 (emit_dataprocessing_twosource sf op' d d s)
      (fun m m' => updates m m' d (wrap (width sf) (v (wrap (width sf) (m.(xregs) d)) (wrap (width sf) (m.(xregs) s)))))) as Hr
    by (intros sf op' v Hv; apply (runs_twosource sf d s Hd Hs op' (fun m => v _ _)); done).
  repeat (apply elem_of_cons in Hop as [-> | Hop]); [| | | | | | by apply elem_of_nil in Hop]; (eapply runs_lift; [reflexivity |]).
  - by_value (Hr false DP2_LSLV (fun a b => a .<< (b mod 32)) (fun _ _ => eq_refl)). by rewrite (proj1 (shift_value _ _ 32 eq_refl)).
  - by_value (Hr true DP2_LSLV (fun a b => a .<< (b mod 64)) (fun _ _ => eq_refl)). by rewrite (proj1 (shift_value _ _ 64 eq_refl)).
  - by_value (Hr false DP2_LSRV (fun a b => a .>> (b mod 32)) (fun _ _ => eq_refl)). by rewrite (proj2 (shift_value _ _ 32 eq_refl)).
  - by_value (Hr true DP2_LSRV (fun a b => a .>> (b mod 64)) (fun _ _ => eq_refl)). by rewrite (proj2 (shift_value _ _ 64 eq_refl)).
  - by_value (Hr false DP2_ASRV (fun a b => sext 32 a .>> (b mod 32)) (fun _ _ => eq_refl)). by rewrite (proj2 (shift_value _ _ 32 eq_refl)).
  - by_value (Hr true DP2_ASRV (fun a b => sext 64 a .>> (b mod 64)) (fun _ _ => eq_refl)). by rewrite (proj2 (shift_value _ _ 64 eq_refl)).
Qed.

Lemma runs_alu_logical vm op inst d s :
  op ∈ [EBPF_OP_OR_REG; EBPF_OP_OR64_REG; EBPF_OP_AND_REG; EBPF_OP_AND64_REG; EBPF_OP_XOR_REG; EBPF_OP_XOR64_REG] ->
  is_operand d -> is_operand s ->
  runs 4 (emit_alu_inst vm op (opcode_of op) inst s d (is_wide op))
    (fun m m' => updates m m' d (alu_value op inst.(offset) inst.(imm) (m.(xregs) d) (m.(xregs) s))).
Proof.
  intros Hop Hd Hs. pose proof (fun sf o => runs_logical_value sf d s Hd Hs o) as Hr.
  repeat (apply elem_of_cons in Hop as [-> | Hop]); [| | | | | | by apply elem_of_nil in Hop]; (eapply runs_lift; [reflexivity |]).
  - by_value (Hr false LOG_ORR eq_refl ltac:(done)). done.
  - by_value (Hr true LOG_ORR eq_refl ltac:(done)). done.
  - by_value (Hr false LOG_AND eq_refl ltac:(done)). done.
  - by_value (Hr true LOG_AND eq_refl ltac:(done)). done.
  - by_value (Hr false LOG_EOR eq_refl ltac:(done)). done.
  - by_value (Hr true LOG_EOR eq_refl ltac:(done)). done.
Qed.

Lemma runs_alu_linear vm op inst d s :
  op ∈ [EBPF_OP_ADD_REG; EBPF_OP_ADD64_REG; EBPF_OP_SUB_REG; EBPF_OP_SUB64_REG; EBPF_OP_MUL_REG; EBPF_OP_MUL64_REG;
        EBPF_OP_NEG; EBPF_OP_NEG64] ->
  is_operand d -> is_operand s ->
  runs 4 (emit_alu_inst vm op (opcode_of op) inst s d (is_wide op))
    (fun m m' => updates m m' d (alu_value op inst.(offset) inst.(imm) (m.(xregs) d) (m.(xregs) s))).
Proof.
  intros Hop Hd Hs. pose proof (fun sf o => runs_addsub_register sf d s Hd Hs o) as Hr.
  pose proof (fun sf => runs_mul sf d s Hd Hs) as Hm. pose proof (fun sf => runs_neg sf d Hd) as Hn.
  repeat (apply elem_of_cons in Hop as [-> | Hop]); [| | | | | | | | by apply elem_of_nil in Hop];
    try (eapply runs_lift; [reflexivity |]).
  - by_value (Hr false AS_ADD eq_refl). done.
  - by_value (Hr true AS_ADD eq_refl). done.
  - by_value (Hr false AS_SUB eq_refl). done.
  - by_value (Hr true AS_SUB eq_refl). done.
  - by_value (Hm false). done.
  - by_value (Hm true). done.
  - by_value (Hn false). done.
  - by_value (Hn true). done.
Qed.

(** The code of every ALU instruction computes its result. *)
Lemma runs_alu vm op inst d s :
  class_of op = ClassAlu -> is_alu op = true -> is_operand d -> is_operand s -> offset_ok op inst.(offset) ->
  (takes_immediate op = true -> 0 <= inst.(imm) < 2 ^ 12) ->
  runs 36 (emit_alu_inst vm op (opcode_of op) inst s d (is_wide op))
    (fun m m' => updates m m' d (alu_value op inst.(offset) inst.(imm) (m.(xregs) d) (m.(xregs) s))).
Proof.
  intros Hc Ha Hd Hs Ho Hi. pose proof (fun sf i => runs_MOVEWIDE vm sf d i (proj1 Hd) (proj1 (proj2 Hd))) as Hmov.
  destruct op; try discriminate Hc; try discriminate Ha; clear Hc Ha; cbn [offset_ok takes_immediate] in Ho, Hi;
    first
    [ solve [eapply runs_weaken; [apply runs_alu_linear; [by apply (bool_decide_unpack _) | done ..] | lia | done]]
    | solve [eapply runs_weaken; [apply runs_alu_immediate; [by apply (bool_decide_unpack _) | done | by apply Hi] | lia | done]]
    | solve [eapply runs_weaken; [apply runs_alu_logical; [by apply (bool_decide_unpack _) | done ..] | lia | done]]
    | solve [eapply runs_weaken; [apply runs_alu_shift; [by apply (bool_decide_unpack _) | done ..] | lia | done]]
    | solve [eapply runs_weaken; [apply runs_alu_move; [auto; fail | done ..] | lia | done]]
    | solve [eapply runs_weaken; [apply (runs_divmod _ d s inst.(offset)); [by apply (bool_decide_unpack _) | done ..] | lia | done]]
    | idtac ].
  - by_value (Hmov false inst.(imm)). rewrite Ho. cbn [Z.eqb]. by rewrite wrap_wrap by lia.
  - by_value (Hmov true inst.(imm)). rewrite Ho. cbn [Z.eqb]. by rewrite wrap_wrap by lia.
Qed.

(** ** Byte order *)

Lemma reverse_low bytes size x :
  (0 < size)%nat -> (size <= bytes)%nat -> wrap (8 * Z.of_nat size) (reverse_bytes bytes size x) = swap_bytes size x.
Proof.
  intros Hs Hb. unfold reverse_bytes, swap_bytes.
  destruct (Nat.div bytes size) as [| g] eqn:E; [by apply Nat.div_small_iff in E; lia |]. cbn [reverse_groups].
  rewrite take_le_encode by done. set (hi := reverse_groups _ _ _).
  assert (reverse (le_encode size x) = rev (le_encode size x)) as -> by (unfold reverse; by rewrite rev_append_rev, app_nil_r).
  rewrite le_decode_app, length_rev, length_le_encode. unfold wrap. rewrite Z.mul_comm, Z.mod_add by lia.
  apply Z.mod_small. pose proof (le_decode_range (rev (le_encode size x)) (Forall_rev (le_encode_bytes size x))) as Hr.
  rewrite length_rev, length_le_encode in Hr. exact Hr.
Qed.

Lemma reverse_whole bytes x : (0 < bytes)%nat -> reverse_bytes bytes bytes x = swap_bytes bytes x.
Proof.
  intros Hb. unfold reverse_bytes, swap_bytes. rewrite Nat.div_same by lia. cbn [reverse_groups].
  rewrite take_ge by (rewrite length_le_encode; lia). rewrite app_nil_r. unfold reverse. by rewrite rev_append_rev, app_nil_r.
Qed.

Section Endian.
Context (d : Z) (Hd : is_operand d).

Lemma runs_reverse sf op :
  runs 4 (emit_dataprocessing_onesource sf op d d)
    (fun m m' => updates m m' d (match op with
       | DP1_REV16 => wrap (width sf) (reverse_bytes (if sf then 8 else 4) 2 (wrap (width sf) (m.(xregs) d)))
       | DP1_REV32 => wrap (width sf) (reverse_bytes (if sf then 8 else 4) 4 (wrap (width sf) (m.(xregs) d)))
       | DP1_REV64 => wrap 64 (reverse_bytes 8 8 (u64 (m.(xregs) d)))
       end)).
Proof using Hd.
  destruct Hd as (? & ? & ?). eapply runs_word; [by apply decode_onesource |]. intros m.
  destruct op; cbn [a64_exec]; rewrite read_operand by done; eexists; (split; [reflexivity |]).
  - by apply write_updates.
  - by apply write_updates.
  - by apply (write_updates m true).
Qed.

(** The zero extensions UXTH and UXTW. *)
Lemma runs_uxt word bits :
  a64_decode word = Some (Extend false false bits d d) -> 0 <= bits <= 32 ->
  runs 4 (emit_instruction word) (fun m m' => updates m m' d (wrap bits (m.(xregs) d))).
Proof using Hd.
  intros Hw Hb. destruct Hd as (? & ? & ?). eapply (runs_result false); [exact Hw | done |]. intros m. cbn [a64_exec].
  rewrite read_operand, (proj2 (Z.leb_le _ _)) by (done || (cbn; lia)). eexists. split; [reflexivity |]. cbn [width].
  rewrite (wrap_wrap_le bits 32) by lia. apply wrap_id. pose proof (wrap_range bits (m.(xregs) d) ltac:(lia)).
  pose proof (Z.pow_le_mono_r 2 bits 32 ltac:(lia) ltac:(lia)). lia.
Qed.

Lemma updates_trans m m' m'' v v' : updates m m' d v -> updates m' m'' d v' -> updates m m'' d v'.
Proof using. intros [_ Ho] [Hv Ho']. constructor; [done |]. intros q Hq H1 H2. by rewrite Ho', Ho. Qed.

Lemma updates_same m : updates m m d (m.(xregs) d).
Proof using. by constructor. Qed.

(** A reversal followed by a zero extension. *)
Lemma runs_swap_low sf op size (word : Z) :
  a64_decode word = Some (Extend false false (8 * Z.of_nat size) d d) -> (0 < size <= 4)%nat ->
  op = DP1_REV16 /\ size = 2%nat \/ op = DP1_REV32 /\ size = 4%nat ->
  runs 8 (emit_dataprocessing_onesource sf op d d;; emit_instruction word)
    (fun m m' => updates m m' d (swap_bytes size (m.(xregs) d))).
Proof using Hd.
  intros Hw Hs Hop. eapply (runs_seq 4 4); [apply runs_reverse | apply (runs_uxt _ _ Hw); lia | lia | lia |]. cbv beta.
  intros m m' m'' H1 H2. eapply eq_ind; [exact (updates_trans _ _ _ _ _ H1 H2) |]. rewrite (up_value _ _ _ _ H1).
  assert (8 * Z.of_nat size <= width sf) as Hle by (destruct sf; cbn; lia).
  assert (forall y, wrap (8 * Z.of_nat size) (wrap (width sf) (reverse_bytes (if sf then 8 else 4) size (wrap (width sf) y))) = swap_bytes size y) as E.
  { intros y. rewrite wrap_wrap_le, reverse_low by (lia || destruct sf; lia).
    by rewrite <- swap_bytes_wrap, wrap_wrap_le, swap_bytes_wrap by lia. }
  destruct Hop as [[-> ->] | [-> ->]]; apply E.
Qed.
End Endian.

Lemma runs_then_nothing n m R : runs n m R -> runs n (m;; mret tt) R.
Proof. intros H st. rewrite bind_ret_r. apply H. Qed.

(** The code of the byte-order instructions computes their result. *)
Lemma runs_endian op inst d :
  op ∈ [EBPF_OP_LE; EBPF_OP_BE; EBPF_OP_BSWAP] -> is_operand d -> inst.(imm) = 16 \/ inst.(imm) = 32 \/ inst.(imm) = 64 ->
  runs 8 (emit_endian_inst op inst d (bool_decide (op = EBPF_OP_BSWAP)))
    (fun m m' => forall v, 0 <= m.(xregs) d < 2 ^ 64 -> exec_endian op inst.(imm) (m.(xregs) d) = Some v -> updates m m' d v).
Proof.
  intros Hop Hd Hi. pose proof (proj1 Hd) as Rd.
  pose proof (decode_uxth d d Rd Rd) as Dh. pose proof (decode_uxtw d d Rd Rd) as Dw.
  assert (forall n c (f : a64_state -> Z), runs n c (fun m m' => updates m m' d (f m)) -> n <= 8 ->
    (forall m, 0 <= m.(xregs) d < 2 ^ 64 -> exec_endian op inst.(imm) (m.(xregs) d) = Some (f m)) ->
    runs 8 c (fun m m' => forall v, 0 <= m.(xregs) d < 2 ^ 64 -> exec_endian op inst.(imm) (m.(xregs) d) = Some v -> updates m m' d v)) as Hf.
  { intros n c f Hr Hn Hv. eapply runs_weaken; [exact Hr | lia |]. cbv beta. intros m m' Hup v Hm E. rewrite Hv in E by done. by injection E as <-. }
  pose proof (fun x => endian_spec inst.(imm) x Hi) as Hspec. cbv zeta in Hspec.
  assert (forall sf, runs 4 (emit_dataprocessing_onesource sf DP1_REV64 d d) (fun m m' => updates m m' d (swap_bytes 8 (m.(xregs) d)))) as H64.
  { intros sf. eapply runs_weaken; [by apply runs_reverse | lia |]. cbv beta. intros m m' Hup. eapply eq_ind; [exact Hup |].
    by rewrite (reverse_low 8 8), (swap_bytes_wrap 8) by lia. }
  assert (runs 4 (emit_dataprocessing_onesource false DP1_REV32 d d) (fun m m' => updates m m' d (swap_bytes 4 (m.(xregs) d)))) as H32.
  { eapply runs_weaken; [by apply runs_reverse | lia |]. cbv beta. intros m m' Hup. eapply eq_ind; [exact Hup |].
    cbn [width]. by rewrite (reverse_low 4 4), (swap_bytes_wrap 4) by lia. }
  repeat (apply elem_of_cons in Hop as [-> | Hop]); [| | | by apply elem_of_nil in Hop]; unfold emit_endian_inst; cbv zeta.
  - destruct_or! Hi; rewrite Hi in *; cbn [Z.eqb Pos.eqb].
    + apply (Hf 4 _ (fun m => u16 (m.(xregs) d))); [by apply (runs_uxt d Hd _ 16 Dh) | lia | done].
    + apply (Hf 4 _ (fun m => u32 (m.(xregs) d))); [by apply (runs_uxt d Hd _ 32 Dw) | lia | done].
    + apply (Hf 0 _ (fun m => m.(xregs) d)); [apply runs_nop; intros; apply updates_same | lia |].
      intros m Hm. cbn. by rewrite wrap_id.
  - destruct_or! Hi; rewrite Hi in *; (eapply runs_lift; [reflexivity |]).
    + apply (Hf 8 _ (fun m => swap_bytes 2 (m.(xregs) d))); [apply (runs_swap_low d Hd _ _ 2); [done | lia | auto] | lia |].
      intros m _. apply Hspec.
    + apply (Hf 4 _ (fun m => swap_bytes 4 (m.(xregs) d))); [apply runs_then_nothing; exact H32 | lia |]. intros m _. apply Hspec.
    + apply (Hf 4 _ (fun m => swap_bytes 8 (m.(xregs) d))); [apply runs_then_nothing, H64 | lia |]. intros m _. apply Hspec.
  - destruct_or! Hi; rewrite Hi in *; (eapply runs_lift; [reflexivity |]); cbn [Z.eqb Pos.eqb].
    + apply (Hf 8 _ (fun m => swap_bytes 2 (m.(xregs) d))); [apply (runs_swap_low d Hd _ _ 2); [done | lia | auto] | lia |].
      intros m _. apply Hspec.
    + apply (Hf 8 _ (fun m => swap_bytes 4 (m.(xregs) d))); [apply (runs_swap_low d Hd _ _ 4); [done | lia | auto] | lia |].
      intros m _. apply Hspec.
    + apply (Hf 4 _ (fun m => swap_bytes 8 (m.(xregs) d))); [apply runs_then_nothing, H64 | lia |]. intros m _. apply Hspec.
Qed.

(** ** Comparisons *)

Lemma sext_cases n x : 0 <= x < 2 ^ n -> sext n x = if x <? 2 ^ (n - 1) then x else x - 2 ^ n.
Proof. intros Hx. unfold sext. by rewrite wrap_id. Qed.

Lemma top_bit n r : 0 < n -> 0 <= r < 2 ^ n -> Z.testbit r (n - 1) = (2 ^ (n - 1) <=? r).
Proof.
  intros Hn Hr. assert (2 ^ n = 2 * 2 ^ (n - 1)) as Hp by (rewrite <- Z.pow_succ_r by lia; f_equal; lia).
  destruct (Z.leb_spec (2 ^ (n - 1)) r).
  - apply Z.testbit_true; [lia |]. replace r with ((r - 2 ^ (n - 1)) + 1 * 2 ^ (n - 1)) by lia.
    rewrite Z.div_add, Z.div_small by lia. done.
  - apply (testbit_small (n - 1)); lia.
Qed.

(** The flags of a subtraction order its operands. *)
Lemma flags_order sf x y :
  let n := width sf in
  let f := (add_sub sf true x y).2 in
  0 <= x < 2 ^ n -> 0 <= y < 2 ^ n ->
  f.(fZ) = (x =? y) /\ f.(fC) = (y <=? x) /\ Bool.eqb f.(fN) f.(fV) = (sext n y <=? sext n x).
Proof.
  intros n f Hx Hy. subst f. pose proof (width_pos sf) as Hn. fold n in Hn.
  assert (2 ^ n = 2 * 2 ^ (n - 1)) as Hp by (rewrite <- Z.pow_succ_r by lia; f_equal; lia).
  assert (0 < 2 ^ (n - 1)) as Hpos by lia. unfold add_sub, add_with_carry. fold n. cbv zeta. cbn [snd fZ fC fN fV].
  assert (wrap n (Z.lnot y) = 2 ^ n - 1 - y) as ->.
  { rewrite lnot_sub. unfold wrap. replace (- y - 1) with ((2 ^ n - 1 - y) + (-1) * 2 ^ n) by lia.
    rewrite Z.mod_add by lia. apply Z.mod_small. lia. }
  rewrite (wrap_id n x), (wrap_id n (2 ^ n - 1 - y)) by lia.
  assert (wrap n (x + (2 ^ n - 1 - y) + 1) = if y <=? x then x - y else x - y + 2 ^ n) as ->.
  { unfold wrap. destruct (Z.leb_spec y x).
    - replace (x + (2 ^ n - 1 - y) + 1) with (x - y + 1 * 2 ^ n) by lia. rewrite Z.mod_add by lia. apply Z.mod_small. lia.
    - rewrite Z.mod_small; lia. }
  set (r := if y <=? x then x - y else x - y + 2 ^ n).
  assert (0 <= r < 2 ^ n) as Hr by (unfold r; destruct (Z.leb_spec y x); lia).
  rewrite top_bit by done. rewrite !sext_cases by lia. unfold r. set (H := 2 ^ (n - 1)) in *. rewrite Hp in *.
  split_and!.
  - destruct (Z.leb_spec y x), (Z.eqb_spec x y); lia.
  - destruct (Z.leb_spec y x); lia.
  - destruct (Z.leb_spec y x); repeat case_match; bools; lia.
Qed.

(** *** The condition of a branch *)

Definition condition_value (op : ebpf_op) (imm d s : Z) : bool :=
  spec_condition (op_width (opcode_of op)) (op_nibble (opcode_of op)) (spec_dest (opcode_of op) d) (spec_operand (opcode_of op) imm s).

(** The condition codes after a subtraction, with the operations of opcodes. *)
Definition condition_codes : list (Condition * Z) :=
  [(COND_EQ, 1); (COND_HI, 2); (COND_HS, 3); (COND_NE, 5); (COND_GT, 6); (COND_GE, 7); (COND_LO, 10); (COND_LS, 11);
   (COND_LT, 12); (COND_LE, 13)].

#[export] Instance condition_eq_dec : EqDecision Condition.
Proof. solve_decision. Defined.

Lemma condition_order c code n x y f :
  0 <= x < 2 ^ n -> 0 <= y < 2 ^ n ->
  f.(fZ) = (x =? y) /\ f.(fC) = (y <=? x) /\ Bool.eqb f.(fN) f.(fV) = (sext n y <=? sext n x) ->
  (c, code) ∈ condition_codes ->
  condition_holds (condition_bits c) f = spec_condition n code x y.
Proof.
  intros Hx Hy (Ez & Ec & Es) Hc.
  assert (sext n x = sext n y <-> x = y) as Hinj.
  { split; [| by intros ->]. rewrite !sext_cases by done. repeat case_match; bools; lia. }
  set (sx := sext n x) in *. set (sy := sext n y) in *. unfold spec_condition. fold sx sy. cbv zeta.
  repeat (apply elem_of_cons in Hc as [[= -> ->] | Hc]); [.. | by apply elem_of_nil in Hc];
    cbv [condition_holds condition_bits COND_HS COND_LO Z.div Z.modulo Z.div_eucl Z.pos_div_eucl];
    cbn -[Z.leb Z.ltb]; rewrite ?Ez, ?Ec, ?Es;
    repeat match goal with |- context [?a =? ?b] => destruct (Z.eqb_spec a b) end;
    repeat match goal with |- context [?a <=? ?b] => destruct (Z.leb_spec a b) end;
    repeat match goal with |- context [?a <? ?b] => destruct (Z.ltb_spec a b) end; cbn; (done || lia).
Qed.

(** Code that sets the flags only, for the condition [c]. *)
Definition compares (m : M unit) (c : Condition) (v : a64_state -> bool) : Prop :=
  runs 4 m (fun a a' => a'.(xregs) = a.(xregs) /\ condition_holds (condition_bits c) a'.(pstate) = v a).

Section Compare.
Context (sf : bool) (d s : Z) (Hd : is_operand d) (Hs : is_operand s).

Lemma wrap_fits x : 0 <= wrap (width sf) x < 2 ^ width sf.
Proof using. apply wrap_range. pose proof (width_pos sf). lia. Qed.

Lemma compares_registers c code :
  (c, code) ∈ condition_codes ->
  compares (emit_addsub_register sf AS_SUBS RZ d s) c
    (fun a => spec_condition (width sf) code (wrap (width sf) (a.(xregs) d)) (wrap (width sf) (a.(xregs) s))).
Proof using Hd Hs.
  intros Hc. destruct Hd as (? & ? & ?), Hs as (? & ? & ?). eapply runs_word; [by apply decode_addsub_register |].
  intros a. cbn [a64_exec is_sub sets_flags]. rewrite !read_operand by done.
  rewrite (surjective_pairing (add_sub sf true _ _)). eexists. split; [reflexivity |]. split; [done |]. cbn [pstate set_flags].
  apply condition_order; [apply wrap_fits | apply wrap_fits | | done]. apply flags_order; apply wrap_fits.
Qed.

Lemma compares_immediate c code imm :
  (c, code) ∈ condition_codes ->
  0 <= imm < 2 ^ 12 ->
  compares (emit_addsub_immediate sf AS_SUBS RZ d imm) c
    (fun a => spec_condition (width sf) code (wrap (width sf) (a.(xregs) d)) imm).
Proof using Hd.
  intros Hc Hi. destruct Hd as (? & ? & ?). unfold compares, emit_addsub_immediate. cbv zeta. rewrite (wrap_id 32) by lia.
  assert ((imm >=? 0x1000) = false) as -> by lia. change (when false (assertion (imm .& 0xfff =? 0))) with (assertion true).
  apply runs_asserted; [done |]. apply runs_asserted; [lia |].
  eapply runs_word; [by apply decode_addsub_immediate |]. intros a. cbn [a64_exec is_sub sets_flags].
  rewrite (proj2 (Z.eqb_neq d 31)), read_operand, Z.shiftl_0_r by done. cbn [negb andb orb].
  rewrite (surjective_pairing (add_sub sf true _ _)). eexists. split; [reflexivity |]. split; [done |]. cbn [pstate set_flags].
  assert (0 <= imm < 2 ^ width sf) by (destruct sf; cbn; lia).
  apply condition_order; [apply wrap_fits | done | | done]. by apply flags_order; [apply wrap_fits |].
Qed.

Lemma compares_bits :
  compares (emit_logical_register sf LOG_ANDS RZ d s) COND_NE
    (fun a => spec_condition (width sf) 4 (wrap (width sf) (a.(xregs) d)) (wrap (width sf) (a.(xregs) s))).
Proof using Hd Hs.
  destruct Hd as (? & ? & ?), Hs as (? & ? & ?). eapply runs_word; [by apply decode_logical_register |].
  intros a. cbn [a64_exec logical_opc logical_invert]. rewrite !read_operand by done. eexists. split; [reflexivity |]. split; [done |].
  cbn -[Z.eqb Z.land wrap width]. change (logical sf 3) with Z.land. unfold spec_condition. cbn [Z.eqb Pos.eqb].
  rewrite <- wrap_land, wrap_wrap by (pose proof (width_pos sf); lia). done.
Qed.
End Compare.

(** The code of a conditional jump: a comparison, then the branch that is taken
    exactly when the jump is. *)
Lemma runs_compare op inst d s :
  class_of op = ClassJump -> is_conditional op = true -> is_operand d -> is_operand s ->
  (takes_immediate op = true -> 0 <= inst.(imm) < 2 ^ 12) ->
  exists c m, compares m c (fun a => condition_value op inst.(imm) (a.(xregs) d) (a.(xregs) s)) /\
    forall tgt st, emit_jump_inst op (opcode_of op) inst s d (is_wide op) tgt st =
                   (m;; emit_conditionalbranch_immediate c tgt;; mret tt) st.
Proof.
  intros Hc Ha Hd Hs Hi.
  pose proof (fun sf c code H => compares_registers sf d s Hd Hs c code H) as Hr.
  pose proof (fun sf c code H I => compares_immediate sf d Hd c code inst.(imm) H I) as Him.
  pose proof (fun sf => compares_bits sf d s Hd Hs) as Hb.
  destruct op; try discriminate Hc; try discriminate Ha; clear Hc Ha; cbn [takes_immediate class_of] in Hi;
    (eexists _, _; split; [| intros tgt st; cbn [emit_jump_inst]; reflexivity]);
    unfold condition_value, spec_dest, spec_operand; eval_opcode_bits; cbv iota;
    try (rewrite (wrap_id _ inst.(imm)) by (specialize (Hi eq_refl); lia)).
  all: first
    [ exact (Hb false) | exact (Hb true)
    | apply (Hr false); by apply (bool_decide_unpack _) | apply (Hr true); by apply (bool_decide_unpack _)
    | apply (Him false); [by apply (bool_decide_unpack _) | by apply Hi]
    | apply (Him true); [by apply (bool_decide_unpack _) | by apply Hi] ].
Qed.
