(* ===== verification/Arm64Mem.v ===== *)
(** * Arm64Mem: the A64 loads and stores

    Decoding and effect of the loads and stores with a 9-bit displacement (LDUR,
    STUR and their byte, halfword and sign-extending forms), after the Arm
    Architecture Reference Manual; that the encoder of [Arm64Emit] and this decoder
    agree; and what the code of [emit_memory_access] does for every displacement of
    an eBPF load or store: it accesses the register plus the displacement and only
    uses temporary registers that hold nothing else, also with constant blinding. *)

From Stdlib Require Import ZArith Lia Bool.
From stdpp Require Import base list gmap strings numbers.
From S2P Require Import Prelude Ebpf InstValid Mem Vm Validate Alu Interp JitSupport JitAsm Arm64Emit Arm64Isa Arm64Move Arm64Trans Arm64Cost Arm64Run.

Local Open Scope Z_scope.
Local Open Scope cbits_scope.

(** ** Instructions *)

(** [size] is in bytes; [signed] loads extend the sign to 64 bits, or with [sf]
    false to 32. *)
Inductive a64_access : Type :=
| LoadReg (size : Z) (signed sf : bool) (rt rn imm : Z)
| StoreReg (size rt rn imm : Z).

Definition a64_decode_access (w : Z) : option a64_access :=
  let size := field w 30 2 in
  let opc := field w 22 2 in
  let imm := sext 9 (field w 12 9) in
  let rn := field w 5 5 in
  let rt := field w 0 5 in
  if (field w 24 6 =? 0x38) && (field w 21 1 =? 0) && (field w 10 2 =? 0) then
    if opc =? 0 then Some (StoreReg (2 ^ size) rt rn imm)
    else if opc =? 1 then Some (LoadReg (2 ^ size) false true rt rn imm)
    else if (opc =? 2) && (size <? 3) then Some (LoadReg (2 ^ size) true true rt rn imm)
    else if (opc =? 3) && (size <? 2) then Some (LoadReg (2 ^ size) true false rt rn imm)
    else None
  else None.

(** As a base, register 31 is the stack pointer: see [Arm64Cpu]. *)
Definition a64_exec_access (i : a64_access) (s : a64_state) (m : memory) : option (a64_state * memory) :=
  match i with
  | LoadReg size signed sf rt rn imm =>
      if rn =? 31 then None
      else
        v ← deref m (u64 (read_reg s true rn + imm)) (Z.to_nat size);
        Some (write_reg s sf rt (if signed then sext (8 * size) v else v), m)
  | StoreReg size rt rn imm =>
      if rn =? 31 then None
      else
        m ← store_bytes m (u64 (read_reg s true rn + imm)) (le_encode (Z.to_nat size) (read_reg s true rt));
        Some (s, m)
  end.

(** ** The encoder *)

(** The instruction of an opcode; [None] for the load of a literal. *)
Definition access_of (o : LoadStoreOpcode) (rt rn imm : Z) : option a64_access :=
  match o with
  | LS_STRB => Some (StoreReg 1 rt rn imm)
  | LS_STRH => Some (StoreReg 2 rt rn imm)
  | LS_STRW => Some (StoreReg 4 rt rn imm)
  | LS_STRX => Some (StoreReg 8 rt rn imm)
  | LS_LDRB => Some (LoadReg 1 false true rt rn imm)
  | LS_LDRH => Some (LoadReg 2 false true rt rn imm)
  | LS_LDRW => Some (LoadReg 4 false true rt rn imm)
  | LS_LDRX => Some (LoadReg 8 false true rt rn imm)
  | LS_LDRSBX => Some (LoadReg 1 true true rt rn imm)
  | LS_LDRSHX => Some (LoadReg 2 true true rt rn imm)
  | LS_LDRSW => Some (LoadReg 4 true true rt rn imm)
  | LS_LDRSBW => Some (LoadReg 1 true false rt rn imm)
  | LS_LDRSHW => Some (LoadReg 2 true false rt rn imm)
  | LS_LDRL => None
  end.

Lemma displacement_roundtrip imm : -256 <= imm < 256 -> 0 <= imm .& 0x1ff < 2 ^ 9 /\ sext 9 (imm .& 0x1ff) = imm.
Proof.
  intros Hi. change 0x1ff with (Z.ones 9). rewrite Z.land_ones by lia. change (imm mod 2 ^ 9) with (wrap 9 imm).
  pose proof (wrap_range 9 imm). split; [lia |]. unfold sext. cbv zeta. rewrite wrap_wrap by lia.
  unfold wrap. change (2 ^ (9 - 1)) with 256. change (2 ^ 9) with 512 in *.
  destruct (Z.ltb_spec (imm mod 512) 256); Z.to_euclidean_division_equations; lia.
Qed.

(** Decodes such a word, up to its displacement. *)
Ltac decode_access_word :=
  match goal with |- a64_decode_access ?x = _ => let w := fresh "w" in set (w := x); unfold a64_decode_access; cbv zeta;
    repeat (match goal with |- context [field w ?lo ?n] =>
              let E := fresh in eassert (field w lo n = _) as E by (subst w; one_field); rewrite !E; clear E end;
            cbn [Z.eqb Pos.eqb andb]) end.

Lemma decode_access_encoded o rt rn imm i :
  is_reg rt -> is_reg rn -> -256 <= imm < 256 -> access_of o rt rn imm = Some i ->
  a64_decode_access (0x38000000 .| loadstore_bits o .| ((imm .& 0x1ff) .<< 12) .| (rn .<< 5) .| rt) = Some i.
Proof.
  intros Ht Hn Hi Ho. destruct (displacement_roundtrip imm Hi) as [Hr Hs]. set (x := imm .& 0x1ff) in *. unfold is_reg in *.
  destruct o; cbn [access_of] in Ho; simplify_eq; cbn [loadstore_bits];
    decode_access_word; by rewrite Hs.
Qed.

Lemma decode_access_wrap w : a64_decode_access (u32 w) = a64_decode_access w.
Proof. unfold a64_decode_access. cbv zeta. by rewrite !field_wrap by lia. Qed.

Lemma access_not_bad w i : a64_decode_access w = Some i -> u32 w <> BAD_OPCODE.
Proof. intros Hd E. rewrite <- decode_access_wrap, E in Hd. vm_compute in Hd. discriminate. Qed.

(** ** Code that ends with an access *)

(** With room for [n] bytes, [m] puts out straight-line code and an access
    behind it; [Q] relates the access and the states before and after the
    straight-line code. *)
Definition accesses (n : Z) (m : M unit) (Q : a64_access -> a64_state -> a64_state -> Prop) : Prop :=
  forall st, room n 0 st -> exists its ws w i, m st = Some (tt, asm its st) /\ in_budget n 0 its /\
    straight its (ws ++ [w]) /\ a64_decode_access w = Some i /\ forall s, exists s', a64_run ws s = Some s' /\ Q i s s'.

Lemma accesses_word w i (Q : a64_access -> a64_state -> a64_state -> Prop) :
  a64_decode_access w = Some i -> (forall s, Q i s s) -> accesses 4 (emit_instruction w) Q.
Proof.
  intros Hd Hq st (Hok & (Hs & _ & _) & _). exists [Bytes (code_bytes [w])], [], w, i.
  assert (Z.of_nat (length (code_bytes [w])) = 4) as L by (rewrite length_code_bytes; cbn; lia).
  split; [apply puts_instruction; [by eapply access_not_bad | done | lia] |]. split; [| split; [| split; [done |]]].
  - split_and!; [| done |].
    + rewrite code_len_cons. cbn [item_bytes]. change (code_len []) with 0. lia.
    + constructor; [| done]. exists 1. rewrite L. lia.
  - split; [by repeat constructor |]. cbn [mbind list_bind item_bytes]. apply app_nil_r.
  - intros s. by exists s.
Qed.

Lemma accesses_after n1 n2 m1 m2 R (Q Q' : a64_access -> a64_state -> a64_state -> Prop) :
  runs n1 m1 R -> accesses n2 m2 Q -> 0 <= n1 -> 0 <= n2 ->
  (forall i s s' s'', R s s' -> Q i s' s'' -> Q' i s s'') -> accesses (n1 + n2) (m1;; m2) Q'.
Proof.
  intros H1 H2 ? ? Hr st Hroom. destruct (H1 st) as (a & ws & E1 & B1 & S1 & X1); [eapply room_weaken; [exact Hroom | lia | lia] |].
  assert (room n2 0 (asm a st)) as Hroom2 by (by apply (room_asm n1 0)).
  destruct (H2 _ Hroom2) as (b & vs & w & i & E2 & B2 & S2 & D2 & X2). exists (a ++ b), (ws ++ vs), w, i.
  split; [unfold mbind, M_bind; by rewrite E1, E2, asm_app |]. split; [by apply (in_budget_app n1 0 n2 0) |].
  split; [rewrite <- app_assoc; by apply straight_app |]. split; [done |].
  intros s. destruct (X1 s) as (s' & R1s & ?). destruct (X2 s') as (s'' & R2s & ?).
  exists s''. rewrite a64_run_app, R1s. split; [exact R2s | by eapply Hr].
Qed.

Lemma accesses_weaken n n' m (Q Q' : a64_access -> a64_state -> a64_state -> Prop) :
  accesses n m Q -> n <= n' -> (forall i s s', Q i s s' -> Q' i s s') -> accesses n' m Q'.
Proof.
  intros H Hn Hr st Hroom. destruct (H st) as (its & ws & w & i & E & Hb & Hs & Hd & Hx); [by eapply room_weaken |].
  exists its, ws, w, i. split; [done |]. split; [by eapply in_budget_weaken |]. split; [done |]. split; [done |].
  intros s. destruct (Hx s) as (s' & ? & ?). eauto.
Qed.

(** ** The address *)

Lemma write_sets_wrapped s rd v : rd <> 31 -> sets_reg s (write_reg s true rd (u64 v)) rd (u64 v).
Proof. intros Hr. pose proof (write_sets_reg s true rd (u64 v) Hr) as H. cbn [width] in H. by rewrite wrap_wrap in H by lia. Qed.

Lemma runs_address_immediate op rd rn imm :
  sets_flags op = false -> is_reg rd -> rd <> 31 -> is_reg rn -> rn <> 31 -> 0 <= imm < 2 ^ 12 ->
  runs 4 (emit_addsub_immediate true op rd rn imm)
    (fun s s' => sets_reg s s' rd (u64 (if is_sub op then s.(xregs) rn - imm else s.(xregs) rn + imm))).
Proof.
  intros Hf Hd Hd1 Hn Hn1 Hi. unfold emit_addsub_immediate. cbv zeta. rewrite (wrap_id 32) by lia.
  assert ((imm >=? 0x1000) = false) as -> by lia. change (when false (assertion (imm .& 0xfff =? 0))) with (assertion true).
  apply runs_asserted; [done |]. apply runs_asserted; [lia |]. eapply runs_word; [by apply decode_addsub_immediate |].
  intros s. cbn [a64_exec]. rewrite Hf, !(proj2 (Z.eqb_neq _ 31)), read_operand, Z.shiftl_0_r by done. cbn [negb andb orb].
  destruct (is_sub op); match goal with |- context [add_sub true ?b ?x ?y] => rewrite (surjective_pairing (add_sub true b x y)) end;
    (eexists; split; [reflexivity |]); rewrite ?difference_value, ?sum_value; cbn [width]; rewrite ?wrap_sub_l, ?wrap_add_l; by apply write_sets_wrapped.
Qed.

Lemma runs_address_register op rd rn rm :
  sets_flags op = false -> is_reg rd -> rd <> 31 -> is_reg rn -> rn <> 31 -> is_reg rm -> rm <> 31 ->
  runs 4 (emit_addsub_register true op rd rn rm)
    (fun s s' => sets_reg s s' rd (u64 (if is_sub op then s.(xregs) rn - s.(xregs) rm else s.(xregs) rn + s.(xregs) rm))).
Proof.
  intros Hf Hd Hd1 Hn Hn1 Hm Hm1. eapply runs_word; [by apply decode_addsub_register |].
  intros s. cbn [a64_exec]. rewrite Hf, !read_operand by done.
  destruct (is_sub op); match goal with |- context [add_sub true ?b ?x ?y] => rewrite (surjective_pairing (add_sub true b x y)) end;
    (eexists; split; [reflexivity |]); rewrite ?difference_value, ?sum_value; cbn [width];
    rewrite ?wrap_sub_l, ?wrap_sub_r, ?wrap_add_l, ?wrap_add_r;
    by apply write_sets_wrapped.
Qed.

(** The access that [emit_memory_access] ends with: of the register [rt], at
    [base + off], with nothing changed but the two registers it computes the
    address in. *)
Definition access_at (o : LoadStoreOpcode) (rt base off : Z) (i : a64_access) (s s' : a64_state) : Prop :=
  exists rn imm, access_of o rt rn imm = Some i /\ rn <> 31 /\
    u64 (s'.(xregs) rn + imm) = u64 (s.(xregs) base + off) /\
    forall q, q <> temp_div_register -> q <> offset_register -> s'.(xregs) q = s.(xregs) q.

Lemma accesses_immediate o rt rn imm :
  is_Some (access_of o rt rn imm) -> is_reg rt -> is_reg rn -> rn <> 31 -> -256 <= imm < 256 ->
  accesses 4 (emit_loadstore_immediate o rt rn imm) (access_at o rt rn imm).
Proof.
  intros [i Ho] Ht Hn Hne Hi. unfold emit_loadstore_immediate.
  assert (((-256 <=? imm) && (imm <? 256)) = true) as -> by lia. change (accesses 4 (assertion true;; ?m)) with (accesses 4 m).
  eapply accesses_word; [by apply decode_access_encoded |]. intros s. by exists rn, imm.
Qed.

Definition leaves_address (base off : Z) (s s' : a64_state) : Prop :=
  s'.(xregs) temp_div_register = u64 (s.(xregs) base + off) /\
  forall q, q <> temp_div_register -> q <> offset_register -> s'.(xregs) q = s.(xregs) q.

Lemma accesses_far m o rt base off :
  (forall rn imm, is_Some (access_of o rt rn imm)) -> is_reg rt -> runs 40 m (leaves_address base off) ->
  accesses 44 (m;; emit_loadstore_immediate o rt temp_div_register 0) (access_at o rt base off).
Proof.
  intros Ho Ht Hm. assert (is_reg temp_div_register) as Hr1 by by vm_compute. change 44 with (40 + 4).
  eapply accesses_after; [exact Hm | by apply accesses_immediate | lia | lia |].
  intros i s s' s'' [Hv Hk] (rn & imm & Hi & Hn & Ha & Hk'). exists rn, imm. split; [done |]. split; [done |]. split.
  - rewrite Ha, Hv, Z.add_0_r. by apply wrap_wrap.
  - intros q H1 H2. by rewrite Hk', Hk.
Qed.

(** The address of a displacement that does not fit the access. *)
Lemma runs_far_address vm base off :
  is_reg base -> base <> 31 -> base <> temp_div_register -> base <> offset_register -> signed_fits 16 off ->
  let addsub := if off <? 0 then AS_SUB else AS_ADD in
  let abs_offset := if off <? 0 then - off else off in
  runs 40 (if abs_offset <? 0x1000 then emit_addsub_immediate true addsub temp_div_register base abs_offset
           else
             EMIT_MOVEWIDE_IMMEDIATE vm true offset_register (u32 abs_offset);;
             emit_addsub_register true addsub temp_div_register base offset_register) (leaves_address base off).
Proof.
  intros Hb Hne Hb1 Hb2 Hf op' abs. unfold signed_fits in Hf. cbn in Hf.
  assert (is_reg temp_div_register) as Hr1 by by vm_compute. assert (is_reg offset_register) as Hr2 by by vm_compute.
  assert (0 <= abs < 2 ^ 16) as Ha by (unfold abs; destruct (Z.ltb_spec off 0); lia).
  assert (sets_flags op' = false) as Hsf by (unfold op'; by destruct (off <? 0)).
  assert (forall x, u64 (if is_sub op' then x - abs else x + abs) = u64 (x + off)) as Hx
    by (intros x; unfold op', abs; destruct (off <? 0); cbn [is_sub]; f_equal; lia).
  destruct (Z.ltb_spec abs 0x1000).
  - eapply runs_weaken; [apply runs_address_immediate; try done; lia | lia |].
    intros s s' [Hv Hk _]. rewrite Hx in Hv. split; [done |]. intros q H1 _. by apply Hk.
  - change 40 with (36 + 4). eapply runs_seq; [by apply runs_constant | by apply runs_address_register | lia | lia |].
    intros s s' s'' [Hv Hk] [Hv' Hk' _]. change (scratch_of offset_register) with temp_div_register in Hk.
    assert (wrap (width true) (u32 abs) = abs) as Ew by (cbn [width]; rewrite (wrap_id 32) by lia; apply wrap_id; lia).
    rewrite Ew in Hv. rewrite Hk, Hv, Hx in Hv' by done. split; [done |].
    intros q H1 H2. by rewrite Hk', Hk.
Qed.

Lemma accesses_memory vm op o rt base off :
  to_loadstore_opcode op = Some o -> is_reg rt -> is_reg base -> base <> 31 -> base <> temp_div_register ->
  base <> offset_register -> signed_fits 16 off ->
  accesses 44 (emit_memory_access vm op rt base off) (access_at o rt base off).
Proof.
  intros Ho Ht Hb Hne Hb1 Hb2 Hf. unfold emit_memory_access. rewrite Ho.
  change (accesses 44 (lift (Some o) ≫= ?k)) with (accesses 44 (k o)). cbv beta zeta.
  assert (forall rn imm, is_Some (access_of o rt rn imm)) as Hi by (intros; destruct op; cbn in Ho; simplify_eq; by eexists).
  destruct ((-256 <=? off) && (off <? 256)) eqn:E; [eapply accesses_weaken; [apply accesses_immediate; try done; lia | lia | done] |].
  apply accesses_far; [done | done |]. by apply runs_far_address.
Qed.

(** ** The effect of an access *)

Lemma shape_sizes op :
  (forall size sx, load_shape op = Some (size, sx) -> access_size size /\ (sx = true -> size <> 8) /\
     forall rt rn imm, exists o, to_loadstore_opcode op = Some o /\ access_of o rt rn imm = Some (LoadReg size sx true rt rn imm)) /\
  (forall size from_reg, store_shape op = Some (size, from_reg) -> access_size size /\
     forall rt rn imm, exists o, to_loadstore_opcode op = Some o /\ access_of o rt rn imm = Some (StoreReg size rt rn imm)).
Proof.
  unfold access_size. split; intros size x Hs; destruct op; cbn in Hs; try discriminate Hs; injection Hs as <- <-;
    split_and!; auto; try done; intros rt rn imm; eexists; split; reflexivity.
Qed.

Lemma access_address s' rn imm a : rn <> 31 -> u64 (s'.(xregs) rn + imm) = a -> u64 (read_reg s' true rn + imm) = a.
Proof. intros Hn <-. rewrite read_operand by done. cbn [width]. apply wrap_add_l. Qed.

(** A load puts the interpreter's value into its register. *)
Lemma load_executes op size sx o rt base off i s s' m v :
  load_shape op = Some (size, sx) -> to_loadstore_opcode op = Some o -> access_at o rt base off i s s' -> rt <> 31 -> mem_ok m ->
  (if sx then ubpf_mem_load_sx m (u64 (s.(xregs) base + off)) size else ubpf_mem_load m (u64 (s.(xregs) base + off)) size) = Some v ->
  exists s'', a64_exec_access i s' m = Some (s'', m) /\ sets_reg s' s'' rt v.
Proof.
  intros Hsh Ho (rn & imm & Hi & Hn & Ha & _) Ht Hm Hv. destruct (proj1 (shape_sizes op) _ _ Hsh) as (Hs & H8 & Hacc).
  destruct (Hacc rt rn imm) as (o' & Ho' & Hi'). simplify_eq. cbn [a64_exec_access].
  rewrite (proj2 (Z.eqb_neq rn 31)), (access_address _ _ _ _ Hn Ha) by done.
  assert (exists x, deref m (u64 (s.(xregs) base + off)) (Z.to_nat size) = Some x /\ u64 (if sx then sext (8 * size) x else x) = v)
    as (x & -> & <-).
  { destruct sx; [rewrite mem_load_sx_eq in Hv by auto | rewrite mem_load_eq in Hv by done];
      (destruct (deref m _ _) as [x |] eqn:Ed; [| done]); injection Hv as <-; exists x; (split; [done |]); [done |].
    apply wrap_id. pose proof (deref_range _ _ _ _ Hm Ed) as Hr.
    assert (2 ^ (8 * Z.of_nat (Z.to_nat size)) <= 2 ^ 64) by (apply Z.pow_le_mono_r; destruct Hs as [-> | [-> | [-> | ->]]]; lia). lia. }
  cbn [mbind option_bind]. eexists. split; [reflexivity |]. by apply (write_sets_reg s' true).
Qed.

(** A store writes the bytes of its register. *)
Lemma store_executes op size from_reg o rt base off i s s' m m' v :
  store_shape op = Some (size, from_reg) -> to_loadstore_opcode op = Some o -> access_at o rt base off i s s' -> rt <> 31 ->
  wrap (8 * size) (s'.(xregs) rt) = wrap (8 * size) v ->
  ubpf_mem_store m (u64 (s.(xregs) base + off)) v size = Some m' -> a64_exec_access i s' m = Some (s', m').
Proof.
  intros Hsh Ho (rn & imm & Hi & Hn & Ha & _) Ht Hx Hv. destruct (proj2 (shape_sizes op) _ _ Hsh) as (Hs & Hacc).
  destruct (Hacc rt rn imm) as (o' & Ho' & Hi'). simplify_eq. cbn [a64_exec_access].
  rewrite (proj2 (Z.eqb_neq rn 31)), (access_address _ _ _ _ Hn Ha), read_operand by done. cbn [width].
  assert (8 * Z.of_nat (Z.to_nat size) = 8 * size /\ 8 * size <= 64) as [Hz Hz1] by (destruct Hs as [-> | [-> | [-> | ->]]]; done).
  rewrite mem_store_eq in Hv by done. rewrite le_encode_wrap by lia.
  rewrite <- (le_encode_wrap _ v (8 * size)) in Hv by lia. rewrite <- (le_encode_wrap _ (s'.(xregs) rt) (8 * size)) by lia.
  rewrite Hx, Hv. done.
Qed.

(** ** Memory the program does not use *)

Lemma load_bytes_union (m f : memory) a n bs : load_bytes m a n = Some bs -> load_bytes (m ∪ f) a n = Some bs.
Proof.
  revert a bs; induction n as [| n IH]; intros a bs; cbn [load_bytes]; [done |].
  destruct (m !! a) as [b |] eqn:Ea; [| done]. destruct (load_bytes m (a + 1) n) as [bs' |] eqn:El; [| done]. intros [= <-].
  by rewrite (lookup_union_Some_l _ f _ _ Ea), (IH _ _ El).
Qed.

Lemma store_bytes_union (m f : memory) a bs m' : store_bytes m a bs = Some m' -> store_bytes (m ∪ f) a bs = Some (m' ∪ f).
Proof.
  revert m a; induction bs as [| b bs IH]; intros m a; cbn [store_bytes]; [by intros [= <-] |].
  destruct (m !! a) as [b' |] eqn:Ea; [| done]. intros Hs%IH. rewrite (lookup_union_Some_l _ f _ _ Ea).
  by rewrite insert_union_l.
Qed.

(** An access does the same with more memory, and leaves that alone. *)
Lemma exec_access_frame i s m s' m' f :
  a64_exec_access i s m = Some (s', m') -> a64_exec_access i s (m ∪ f) = Some (s', m' ∪ f).
Proof.
  destruct i as [size signed sf rt rn imm | size rt rn imm]; cbn [a64_exec_access]; destruct (rn =? 31); try done.
  - unfold deref. destruct (load_bytes m _ _) as [bs |] eqn:E; [| done]. rewrite (load_bytes_union _ f _ _ _ E). by intros [= <- <-].
  - destruct (store_bytes m _ _) as [m1 |] eqn:E; [| done]. rewrite (store_bytes_union _ f _ _ _ E). by intros [= <- <-].
Qed.
