(* ===== verification/Arm64Code.v ===== *)
(** * Arm64Code: the effect of the code of one instruction

    The code of an instruction that computes a value, loads, stores or jumps, from
    its immediate operand to the end of the switch: run on registers that hold the
    eBPF registers, it leaves the interpreter's result in the destination or in
    memory, or sets the flags for a branch that is taken exactly when the
    interpreter jumps. *)

From Stdlib Require Import ZArith Lia Bool.
From stdpp Require Import base list gmap strings numbers.
From S2P Require Import Prelude Ebpf InstValid Mem Vm Validate Alu Interp JitSupport JitAsm Arm64Emit Arm64Isa Arm64Move Arm64Trans Arm64Cost Arm64Run Arm64Mem.

Local Open Scope Z_scope.
Local Open Scope cbits_scope.

(** ** What an instruction does *)

(** The new value of the destination, for the instructions that compute one from
    the registers; [i] is the slot of the instruction. *)
Definition value_of (vm : ubpf_vm) (i : Z) (inst : ebpf_inst) (op : ebpf_op) (d s : Z) : option Z :=
  match exec_alu op inst.(offset) inst.(imm) d s, exec_endian op inst.(imm) d with
  | Some v, _ | None, Some v => Some v
  | None, None =>
      match op with
      | EBPF_OP_LDDW =>
          second ← ubpf_fetch_instruction vm (i + 1); Some (u32 inst.(imm) .| u64 (u64 second.(imm) .<< 32))
      | _ => None
      end
  end.

Definition is_endian (op : ebpf_op) : bool := bool_decide (op ∈ [EBPF_OP_LE; EBPF_OP_BE; EBPF_OP_BSWAP]).

Lemma value_of_alu vm i inst op d s :
  is_alu op = true -> offset_ok op inst.(offset) -> 0 <= d < 2 ^ 64 -> 0 <= s < 2 ^ 64 ->
  value_of vm i inst op d s = Some (alu_value op inst.(offset) inst.(imm) d s).
Proof. intros. unfold value_of. by rewrite alu_spec. Qed.

Lemma value_of_endian vm i inst op d s : is_endian op = true -> value_of vm i inst op d s = exec_endian op inst.(imm) d.
Proof. intros H%bool_decide_eq_true. unfold value_of. set_unfold in H. by destruct_or! H; subst. Qed.

(** The register form of an instruction on the immediate is the instruction. *)
Lemma reg_form_bits op :
  op_width (opcode_of (reg_form op)) = op_width (opcode_of op) /\
  (is_alu op = true \/ is_conditional op = true -> reg_form op <> op ->
   op_nibble (opcode_of (reg_form op)) = op_nibble (opcode_of op) /\
   op_source_bit (opcode_of (reg_form op)) = true /\ op_source_bit (opcode_of op) = false).
Proof. destruct op; (split; [done | intros H Hne; try (by destruct Hne); try (by destruct H)]). Qed.

Lemma reg_form_kind op :
  is_alu (reg_form op) = is_alu op /\ is_conditional (reg_form op) = is_conditional op /\
  (forall o, offset_ok op o -> offset_ok (reg_form op) o).
Proof. destruct op; done. Qed.

(** What the switch computes from the operand it was given is what the
    instruction computes. *)
Section Operand.
Context (vm : ubpf_vm) (inst : ebpf_inst) (op : ebpf_op).
#[local] Abbreviation op' := (operand_op vm inst op).

(** The operand is the source register, or the immediate at the width of the operation. *)
Definition operand_ok (s x : Z) : Prop :=
  if in_register vm inst op then x = wrap (op_width (opcode_of op)) inst.(imm) else x = s.

Lemma operand_alu_value s x d :
  is_alu op = true -> operand_ok s x ->
  alu_value op' inst.(offset) inst.(imm) d x = alu_value op inst.(offset) inst.(imm) d s.
Proof.
  intros Ha. unfold operand_ok, operand_op. destruct (in_register vm inst op) eqn:E; [| by intros ->]. intros ->.
  unfold in_register in E. apply andb_true_iff in E as [E%negb_true_iff%bool_decide_eq_false _].
  destruct (reg_form_bits op) as [Ew Eb]. destruct (Eb (or_introl Ha) E) as (En & E1 & E2).
  unfold alu_value, spec_dest, spec_operand. rewrite Ew, En, E1, E2. f_equal. apply wrap_wrap.
  unfold op_width. destruct (_ || _); lia.
Qed.

Lemma operand_condition_value s x d :
  is_conditional op = true -> operand_ok s x ->
  condition_value op' inst.(imm) d x = condition_value op inst.(imm) d s.
Proof.
  intros Ha. unfold operand_ok, operand_op. destruct (in_register vm inst op) eqn:E; [| by intros ->]. intros ->.
  unfold in_register in E. apply andb_true_iff in E as [E%negb_true_iff%bool_decide_eq_false _].
  destruct (reg_form_bits op) as [Ew Eb]. destruct (Eb (or_intror Ha) E) as (En & E1 & E2).
  unfold condition_value, spec_dest, spec_operand. rewrite Ew, En, E1, E2. f_equal. apply wrap_wrap.
  unfold op_width. destruct (_ || _); lia.
Qed.

Lemma in_register_form : in_register vm inst op = true -> reg_form op <> op.
Proof. unfold in_register. by intros [E%negb_true_iff%bool_decide_eq_false _]%andb_true_iff. Qed.

Lemma operand_value_of i s x d v :
  is_alu op = true \/ reg_form op = op -> offset_ok op inst.(offset) ->
  0 <= d < 2 ^ 64 -> 0 <= s < 2 ^ 64 -> 0 <= x < 2 ^ 64 -> operand_ok s x ->
  value_of vm i inst op d s = Some v -> value_of vm i inst op' d x = Some v.
Proof.
  intros Hk Ho Hd Hs Hx Hop. destruct (in_register vm inst op) eqn:E.
  - pose proof (in_register_form E) as Hne. destruct Hk as [Ha |]; [| done].
    destruct (reg_form_kind op) as (K1 & _ & K3). assert (is_alu op' = true) as Ha' by (unfold operand_op; rewrite E; congruence).
    rewrite !value_of_alu by (done || (unfold operand_op; rewrite E; auto)). by rewrite (operand_alu_value s x d Ha Hop).
  - unfold operand_ok in Hop. unfold operand_op. rewrite E in *. by subst x.
Qed.

Lemma operand_condition s x d :
  is_conditional op = true -> signed_fits 32 inst.(imm) -> 0 <= d < 2 ^ 64 -> 0 <= s < 2 ^ 64 -> operand_ok s x ->
  exec_condition op inst.(imm) d s = Some (condition_value op' inst.(imm) d x).
Proof. intros Hc Hi Hd Hs Hop. rewrite condition_spec by done. by rewrite (operand_condition_value s x d Hc Hop). Qed.
End Operand.

(** What a load or store does, at the address it has when it does not overflow: the
    new value of the destination of a load, and the memory. *)
Definition memory_effect (inst : ebpf_inst) (op : ebpf_op) (d s : Z) (m : memory) : option (option Z * memory) :=
  match load_shape op, store_shape op with
  | Some (size, sx), _ =>
      v ← (if sx then ubpf_mem_load_sx m (u64 (s + inst.(offset))) size else ubpf_mem_load m (u64 (s + inst.(offset))) size);
      Some (Some v, m)
  | None, Some (size, from_reg) =>
      m ← ubpf_mem_store m (u64 (d + inst.(offset))) (if from_reg then s else u64 inst.(imm)) size;
      Some (None, m)
  | None, None => None
  end.

Definition is_memory (op : ebpf_op) : bool := bool_decide (is_Some (load_shape op) \/ is_Some (store_shape op)).

(** The immediate of a store is put into a register at 32 bits, without its sign:
    a negative one of a 64-bit store is not the interpreter's. *)
Definition store_immediate_ok (inst : ebpf_inst) (op : ebpf_op) : Prop := op = EBPF_OP_STDW -> 0 <= inst.(imm).

(** ** The registers *)

(** The host register of an eBPF register. *)
Definition reg_of (r : Z) : Z := default 0 (register_map !! Z.to_nat r).

Lemma reg_of_facts r :
  0 <= r < 11 -> is_operand (reg_of r) /\ reg_of r <> temp_register /\ forall st, map_register r st = Some (reg_of r, st).
Proof.
  intros Hr. assert (r ∈ seqZ 0 11) as Hin by (apply elem_of_seqZ; lia). clear Hr.
  assert (Forall (fun r => is_operand (reg_of r) /\ reg_of r <> temp_register /\ forall st, map_register r st = Some (reg_of r, st)) (seqZ 0 11)) as Hall.
  { repeat constructor; try done; try (vm_compute; congruence). }
  by eapply list.Forall_forall in Hall.
Qed.

Lemma reg_of_inj r r' : 0 <= r < 11 -> 0 <= r' < 11 -> reg_of r = reg_of r' -> r = r'.
Proof.
  intros Hr Hr' E. assert (NoDup register_map) as Hnd by (apply (bool_decide_unpack _); by vm_compute).
  unfold reg_of in E. destruct (lookup_lt_is_Some_2 register_map (Z.to_nat r)) as [x Hx]; [cbn; lia |].
  destruct (lookup_lt_is_Some_2 register_map (Z.to_nat r')) as [y Hy]; [cbn; lia |]. rewrite Hx, Hy in E. cbn in E. subst y.
  pose proof (NoDup_lookup _ _ _ _ Hnd Hx Hy). lia.
Qed.

(** ** The code of one instruction *)

(** What the host registers hold of the operands of [inst]. *)
Definition dst_in (inst : ebpf_inst) (a : a64_state) : Z := a.(xregs) (reg_of inst.(dst)).
Definition src_in (inst : ebpf_inst) (a : a64_state) : Z := a.(xregs) (reg_of inst.(src)).

(** Code that computes the value of an instruction. *)
Definition value_code (vm : ubpf_vm) (i : Z) (inst : ebpf_inst) (op : ebpf_op) (code : list item) : Prop :=
  exists ws, straight code ws /\ forall a v,
    0 <= dst_in inst a < 2 ^ 64 -> 0 <= src_in inst a < 2 ^ 64 ->
    value_of vm i inst op (dst_in inst a) (src_in inst a) = Some v ->
    exists a', a64_run ws a = Some a' /\ updates a a' (reg_of inst.(dst)) v.

(** Code of a conditional jump to [tgt]. *)
Definition branch_code (inst : ebpf_inst) (op : ebpf_op) (tgt : PatchableTarget) (code : list item) : Prop :=
  exists c cmp ws, code = cmp ++ [Slot Jumps tgt (BR_Bcond .| condition_bits c)] /\ straight cmp ws /\ forall a,
    0 <= dst_in inst a < 2 ^ 64 -> 0 <= src_in inst a < 2 ^ 64 ->
    exists a', a64_run ws a = Some a' /\ keeps a a' /\
      exec_condition op inst.(imm) (dst_in inst a) (src_in inst a) = Some (condition_holds (condition_bits c) a'.(pstate)).

(** The registers that hold nothing between instructions. *)
Definition is_scratch (q : Z) : Prop := q = temp_register \/ q = temp_div_register \/ q = offset_register.

Lemma reg_of_in r : 0 <= r < 11 -> reg_of r ∈ register_map.
Proof.
  intros Hr. unfold reg_of. destruct (lookup_lt_is_Some_2 register_map (Z.to_nat r)) as [x Hx]; [cbn; lia |].
  rewrite Hx. by eapply list_elem_of_lookup_2.
Qed.

Lemma reg_of_spared r : 0 <= r < 11 -> ~ is_scratch (reg_of r).
Proof.
  intros Hin%reg_of_in Hq. unfold is_scratch in Hq. set_unfold in Hin. vm_compute in Hq, Hin. lia.
Qed.

(** The registers after an instruction that changes [d] to [r], or nothing. *)
Definition after_access (a a' : a64_state) (d : Z) (r : option Z) : Prop :=
  (forall v, r = Some v -> a'.(xregs) d = v) /\
  forall q, (q <> d \/ r = None) -> ~ is_scratch q -> a'.(xregs) q = a.(xregs) q.

(** Code of a load or store. *)
Definition memory_code (inst : ebpf_inst) (op : ebpf_op) (code : list item) : Prop :=
  exists ws w i, straight code (ws ++ [w]) /\ a64_decode_access w = Some i /\ forall a m r m',
    store_immediate_ok inst op -> mem_ok m -> memory_effect inst op (dst_in inst a) (src_in inst a) m = Some (r, m') ->
    exists a' a'', a64_run ws a = Some a' /\ a64_exec_access i a' m = Some (a'', m') /\
      after_access a a'' (reg_of inst.(dst)) r.

(** The access the switch ends with. *)
Definition switch_access (inst : ebpf_inst) (op : ebpf_op) (d s : Z) (i : a64_access) (a a' : a64_state) : Prop :=
  exists o, to_loadstore_opcode op = Some o /\
    if bool_decide (is_Some (load_shape op)) then access_at o d s inst.(offset) i a a' else access_at o s d inst.(offset) i a a'.

(** What the part of the switch does that computes a value of [op] from [s]. *)
Definition switch_value (vm : ubpf_vm) (i : Z) (inst : ebpf_inst) (op : ebpf_op) (d s : Z) (a a' : a64_state) : Prop :=
  forall v, 0 <= a.(xregs) d < 2 ^ 64 -> 0 <= a.(xregs) s < 2 ^ 64 ->
    value_of vm i inst op (a.(xregs) d) (a.(xregs) s) = Some v -> updates a a' d v.

(** The operand of a load or store. *)
Lemma load_operand vm inst op size sx :
  load_shape op = Some (size, sx) -> in_register vm inst op = false /\ operand_op vm inst op = op.
Proof.
  intros Hl. assert (reg_form op = op) as E by by destruct op. unfold operand_op, in_register.
  by rewrite bool_decide_eq_true_2.
Qed.

Lemma store_operand vm inst op size from_reg :
  store_shape op = Some (size, from_reg) ->
  in_register vm inst op = negb from_reg /\ store_shape (operand_op vm inst op) = Some (size, true) /\
  load_shape (operand_op vm inst op) = None /\ load_shape op = None /\ (from_reg = false -> size = 8 -> op = EBPF_OP_STDW).
Proof.
  intros Hs. unfold operand_op, in_register.
  destruct op; cbn in Hs; try discriminate Hs; injection Hs as <- <-; cbn; rewrite ?orb_true_r; done.
Qed.

(** A 32-bit immediate is stored as the interpreter stores it. *)
Lemma stored_immediate size x :
  access_size size -> (size = 8 -> 0 <= x < 2 ^ 31) -> wrap (8 * size) (u32 x) = wrap (8 * size) (u64 x).
Proof.
  intros [-> | [-> | [-> | ->]]] Hx; cbn [Z.mul Pos.mul]; try (rewrite !wrap_wrap_le by lia; done).
  specialize (Hx eq_refl). rewrite !(wrap_id _ x) by lia. done.
Qed.

Section Code.
Context (vm : ubpf_vm) (i : Z) (inst : ebpf_inst) (op : ebpf_op) (sf : bool).
Context (Hdst : 0 <= inst.(dst) < 11) (Hsrc : 0 <= inst.(src) < 11).
#[local] Abbreviation d := (reg_of inst.(dst)).
#[local] Abbreviation s' := (operand_src vm inst op (reg_of inst.(src))).

(** The operand, after the code that puts it into a register. *)
Definition operand_effect (a a' : a64_state) : Prop :=
  keeps a a' /\ (in_register vm inst op = true -> a'.(xregs) temp_register = wrap (width sf) inst.(imm)).

Lemma operand_effect_values a a' :
  operand_effect a a' -> in_register vm inst op = false \/ width sf = op_width (opcode_of op) ->
  a'.(xregs) d = dst_in inst a /\ operand_ok vm inst op (src_in inst a) (a'.(xregs) s') /\
  (0 <= src_in inst a < 2 ^ 64 -> 0 <= a'.(xregs) s' < 2 ^ 64).
Proof using Hdst Hsrc.
  intros [Hk Hr] Hw. destruct (reg_of_facts _ Hdst) as ((_ & _ & D1) & D2 & _). destruct (reg_of_facts _ Hsrc) as ((_ & _ & S1) & S2 & _).
  split; [by apply Hk |]. unfold operand_ok, operand_src. destruct (in_register vm inst op) eqn:E.
  - destruct Hw as [? | Hw]; [done |]. rewrite (Hr eq_refl), Hw. split; [done |]. intros _. rewrite <- Hw.
    pose proof (wrap_range (width sf) inst.(imm)). destruct sf; cbn in *; lia.
  - rewrite Hk by done. done.
Qed.

Lemma value_code_of o wo c wc :
  is_alu op = true \/ reg_form op = op -> (in_register vm inst op = true -> width sf = op_width (opcode_of op)) ->
  offset_ok op inst.(offset) -> straight o wo ->
  (forall a, exists a', a64_run wo a = Some a' /\ operand_effect a a') -> straight c wc ->
  (forall a, exists a', a64_run wc a = Some a' /\ switch_value vm i inst (operand_op vm inst op) d s' a a') ->
  value_code vm i inst op (o ++ c).
Proof using Hdst Hsrc.
  intros Hk Hw Ho So Xo Sc Xc. exists (wo ++ wc). split; [by apply straight_app |]. intros a v Hd Hs Hv.
  destruct (Xo a) as (a1 & R1 & He). destruct (Xc a1) as (a2 & R2 & Hsw).
  destruct (operand_effect_values a a1 He) as (Ed & Hop & Hf); [destruct (in_register vm inst op); auto |].
  exists a2. rewrite a64_run_app, R1. split; [exact R2 |].
  assert (updates a1 a2 d v) as [Hval Hoth].
  { apply Hsw; rewrite ?Ed; [done | auto |]. eapply operand_value_of; [done | done | done | exact Hs | auto | done | done]. }
  constructor; [done |]. intros q Hq H1 H2. rewrite Hoth by done. by apply He.
Qed.

Lemma branch_code_of o wo c wc cond tgt :
  is_conditional op = true -> width sf = op_width (opcode_of op) -> signed_fits 32 inst.(imm) -> straight o wo ->
  (forall a, exists a', a64_run wo a = Some a' /\ operand_effect a a') -> straight c wc ->
  (forall a, exists a', a64_run wc a = Some a' /\ a'.(xregs) = a.(xregs) /\
     condition_holds (condition_bits cond) a'.(pstate) =
     condition_value (operand_op vm inst op) inst.(imm) (a.(xregs) d) (a.(xregs) s')) ->
  branch_code inst op tgt ((o ++ c) ++ [Slot Jumps tgt (BR_Bcond .| condition_bits cond)]).
Proof using Hdst Hsrc.
  intros Hc Hw Hi So Xo Sc Xc. exists cond, (o ++ c), (wo ++ wc). split; [done |]. split; [by apply straight_app |]. intros a Hd Hs.
  destruct (Xo a) as (a1 & R1 & He). destruct (Xc a1) as (a2 & R2 & Hx & Hcond).
  destruct (operand_effect_values a a1 He (or_intror Hw)) as (Ed & Hop & Hf).
  exists a2. rewrite a64_run_app, R1. split; [exact R2 |]. split; [intros q H1 H2; rewrite Hx; by apply He |].
  rewrite Hcond, Ed. by apply operand_condition.
Qed.

Lemma operand_keeps a a1 a2 q :
  operand_effect a a1 -> (forall q, q <> temp_div_register -> q <> offset_register -> a2.(xregs) q = a1.(xregs) q) ->
  ~ is_scratch q -> a2.(xregs) q = a.(xregs) q.
Proof using.
  intros [Hk _] H2 Hq. unfold is_scratch in Hq. rewrite H2 by auto. apply Hk; auto.
Qed.

Lemma memory_code_of o wo c wc w ia :
  is_memory op = true -> signed_fits 32 inst.(imm) -> (in_register vm inst op = true -> sf = false) -> straight o wo ->
  (forall a, exists a', a64_run wo a = Some a' /\ operand_effect a a') -> straight c (wc ++ [w]) -> a64_decode_access w = Some ia ->
  (forall a, exists a', a64_run wc a = Some a' /\ switch_access inst (operand_op vm inst op) d s' ia a a') ->
  memory_code inst op (o ++ c).
Proof using Hdst Hsrc.
  intros Hmem Hi Hsf So Xo Sc Hd Xc. exists (wo ++ wc), w, ia. split; [rewrite <- app_assoc; by apply straight_app |]. split; [done |].
  intros a m r m' Hst Hm He. destruct (Xo a) as (a1 & R1 & Hop). destruct (Xc a1) as (a2 & R2 & o' & Ho' & Hacc).
  pose proof Hop as [Hk Hr]. destruct (reg_of_facts _ Hdst) as ((_ & D0 & D1) & D2 & _). destruct (reg_of_facts _ Hsrc) as ((_ & S0 & S1) & S2 & _).
  exists a2. unfold memory_effect, dst_in, src_in in He. rewrite <- (Hk d), <- (Hk (reg_of inst.(src))) in He by done.
  destruct (load_shape op) as [[size sx] |] eqn:El.
  - destruct (load_operand vm inst op _ _ El) as [Er Eo]. unfold operand_src in Hacc. rewrite Eo, Er in *.
    rewrite bool_decide_eq_true_2 in Hacc by (rewrite El; by eexists).
    destruct (if sx then _ else _) as [v |] eqn:Ev; [| done]. cbn [mbind option_bind] in He. injection He as <- <-.
    destruct (load_executes _ _ _ _ _ _ _ _ _ _ _ _ El Ho' Hacc D0 Hm Ev) as (a3 & E3 & [Hv Hot _]). exists a3.
    split; [by rewrite a64_run_app, R1 |]. split; [done |]. split; [by intros ? [= <-] |].
    intros q [Hq |] Hq'; [| done]. destruct Hacc as (? & ? & _ & _ & _ & H2). rewrite Hot by done. by eapply operand_keeps.
  - destruct (store_shape op) as [[size from_reg] |] eqn:Es; [| done].
    destruct (ubpf_mem_store _ _ _ _) as [m1 |] eqn:Ev; [| done]. cbn [mbind option_bind] in He. injection He as <- <-.
    destruct (store_operand vm inst op _ _ Es) as (Er & Es' & El' & _ & H8). destruct (proj2 (shape_sizes op) _ _ Es) as [Hsz _].
    rewrite bool_decide_eq_false_2 in Hacc by (rewrite El'; by intros []).
    exists a2. split; [by rewrite a64_run_app, R1 |].
    pose proof Hacc as (? & ? & _ & _ & _ & H2). split.
    + eapply store_executes; [exact Es' | exact Ho' | exact Hacc | by unfold operand_src; destruct (in_register _ _ _) | | exact Ev].
      unfold operand_src. rewrite Er. destruct from_reg; cbn [negb]; [by rewrite H2 by (intros E; apply (reg_of_spared _ Hsrc); unfold is_scratch; auto) |]. rewrite H2 by done.
      rewrite (Hr Er), (Hsf Er). apply stored_immediate; [done |]. intros E8. specialize (Hst (H8 eq_refl E8)). unfold signed_fits in Hi. cbn in Hi. lia.
    + split; [done |]. intros q _ Hq. by eapply operand_keeps.
Qed.
End Code.

(** ** The kinds of instructions *)

(** What the code of an instruction is known to do: compute a value, load or store,
    jump on a condition, jump, call a local function, exit; nothing is said of the others. *)
Inductive op_kind : Type := KindValue | KindMemory | KindBranch | KindGoto | KindCall | KindExit | KindOther.

Definition kind_of (op : ebpf_op) : op_kind :=
  if is_alu op || is_endian op || bool_decide (op = EBPF_OP_LDDW) then KindValue
  else if is_memory op then KindMemory
  else if is_conditional op then KindBranch
  else if bool_decide (op = EBPF_OP_JA \/ op = EBPF_OP_JA32) then KindGoto
  else if bool_decide (op = EBPF_OP_CALL) then KindCall
  else if bool_decide (op = EBPF_OP_EXIT) then KindExit
  else KindOther.

Lemma kind_facts op :
  match kind_of op with
  | KindValue => is_alu op = true \/ reg_form op = op
  | KindMemory => is_memory op = true
  | KindBranch => is_conditional op = true
  | KindGoto => (op = EBPF_OP_JA \/ op = EBPF_OP_JA32) /\ reg_form op = op
  | KindCall => op = EBPF_OP_CALL
  | KindExit => op = EBPF_OP_EXIT
  | KindOther => True
  end.
Proof. destruct op; first [by left | by right | done | by split; [left |] | by split; [right |]]. Qed.

Lemma kind_class op :
  match class_of op with
  | ClassAlu => kind_of op = KindValue /\ is_alu op = true
  | ClassEndian => kind_of op = KindValue /\ is_endian op = true
  | ClassLddw => kind_of op = KindValue
  | ClassJump => kind_of op = KindBranch /\ is_conditional op = true \/ kind_of op = KindGoto
  | ClassCall => kind_of op = KindCall
  | ClassMemory => kind_of op = KindMemory
  | ClassExit => kind_of op = KindExit
  | ClassUnexpected => True
  | _ => kind_of op = KindOther
  end.
Proof. destruct op; first [done | by left | by right]. Qed.

Lemma kind_reg_form op : kind_of (reg_form op) = kind_of op.
Proof. by destruct op. Qed.

Lemma kind_operand vm inst op : kind_of (operand_op vm inst op) = kind_of op.
Proof. unfold operand_op. destruct (in_register _ _ _); [apply kind_reg_form | done]. Qed.

Lemma jump_kind op : group_of op = GroupJump <-> kind_of op = KindBranch \/ kind_of op = KindGoto.
Proof. destruct op; split; intros H; try discriminate H; try (by destruct H); try (by left); by right. Qed.

(** Words as an item. *)
Lemma in_budget_bytes ws : in_budget (4 * Z.of_nat (length ws)) 0 [Bytes (code_bytes ws)].
Proof.
  pose proof (length_code_bytes ws) as L. split_and!; [| done |].
  - rewrite code_len_cons. cbn [item_bytes]. change (code_len []) with 0. lia.
  - constructor; [| done]. exists (Z.of_nat (length ws)). rewrite L. lia.
Qed.

Lemma straight_bytes ws : straight [Bytes (code_bytes ws)] ws.
Proof. split; [by repeat constructor |]. cbn [mbind list_bind item_bytes]. apply app_nil_r. Qed.

Ltac puts_word w := exact (puts_instruction w ltac:(done)).

(** A local call: [ldr x24, [sp]; sub x23, x23, x24; sub sp, sp, #48], the link, the
    stack usage and r6 to r9 to the host stack, the call, and all of it back. *)
Definition call_words : list Z := [0xf84003f8; 0xcb1802f7; 0xd100c3ff; 0xf80003fe; 0xf80083f8; 0xa90153f3; 0xa9025bf5].
Definition return_words : list Z := [0xf84003fe; 0xf84083f8; 0xa94153f3; 0xa9425bf5; 0x9100c3ff; 0x8b1802f7].

Definition local_call_items (tgt : PatchableTarget) : list item :=
  [Bytes (code_bytes call_words); Slot LocalCalls tgt (branch_immediate_bits UBR_BL); Bytes (code_bytes return_words)].

(** [add sp, sp, #16; ret]: drops the stack usage of the function and returns. *)
Definition exit_words : list Z := [0x910043ff; 0xd65f03c0].

(** The code of an instruction, by its kind; the bytes of the others are free. *)
Definition arm_shape (vm : ubpf_vm) (i : Z) (inst : ebpf_inst) (op : ebpf_op) (code : list item) : Prop :=
  let tgt := ebpf_target (jump_target_pc i inst) in
  match kind_of op with
  | KindValue => value_code vm i inst op code
  | KindMemory => memory_code inst op code
  | KindBranch => branch_code inst op tgt code
  | KindGoto => code = [Slot Jumps tgt (branch_immediate_bits UBR_B)]
  | KindCall => inst.(src) = 1 -> code = local_call_items (ebpf_target (i + inst.(imm) + 1))
  | KindExit => straight code exit_words
  | KindOther => True
  end.

Lemma arm_shape_jump vm i inst op code :
  group_of op = GroupJump -> arm_shape vm i inst op code ->
  exists w, Slot Jumps (ebpf_target (jump_target_pc i inst)) w ∈ code.
Proof.
  unfold arm_shape. intros [E | E]%jump_kind; rewrite E.
  - intros (c & cmp & ws & -> & _). eexists. apply elem_of_app. right. by left.
  - intros ->. eexists. by left.
Qed.
