(* ===== verification/Arm64Sound.v ===== *)
(** * Arm64Sound: the arm64 code generator on loaded programs

    The code of one instruction of a loaded program: its immediate operand, the
    switch, what goes before the start of a function, and one turn of the loop of
    [translate]. *)

From Stdlib Require Import ZArith Lia Bool.
From stdpp Require Import base list gmap strings numbers.
From S2P Require Import Prelude Ebpf InstValid Mem Vm Validate Load Alu JitSupport JitAsm JitLink JitProg.
From S2P Require Import Arm64Emit Arm64Isa Arm64Move Arm64Trans Arm64Cost Arm64Run Arm64Mem Arm64Code.

Local Open Scope Z_scope.
Local Open Scope cbits_scope.

(** ** The parts of the switch *)

Section Parts.
Context (vm : ubpf_vm) (inst : ebpf_inst) (s d : Z) (Hs : is_reg s) (Hd : is_reg d).

(** A valid atomic operation is known to the code generator. *)
Lemma atomic_known i is64 :
  validate_atomic i inst = Ok tt ->
  exists m : M unit, costs 72 2 m /\ forall st, emit_atomic_inst vm is64 inst s d st = (m;; mret true) st.
Proof using Hs Hd.
  unfold validate_atomic, emit_atomic_inst. cbv zeta.
  set (f := inst.(imm) .& EBPF_ATOMIC_OP_FETCH). set (o := inst.(imm) .& EBPF_ALU_OP_MASK).
  assert (is_reg temp_register) by by vm_compute. assert (is_reg temp_div_register) by by vm_compute.
  destruct (o =? EBPF_ALU_OP_ADD); [intros _; eexists; split; [| reflexivity]; by apply costs_atomic_operation |].
  destruct (o =? EBPF_ALU_OP_OR); [intros _; eexists; split; [| reflexivity]; by apply costs_atomic_operation |].
  destruct (o =? EBPF_ALU_OP_AND); [intros _; eexists; split; [| reflexivity]; by apply costs_atomic_operation |].
  destruct (o =? EBPF_ALU_OP_XOR); [intros _; eexists; split; [| reflexivity]; by apply costs_atomic_operation |].
  cbn [orb].
  destruct (o =? EBPF_ATOMIC_OP_XCHG .& _); [intros _; eexists; split; [| reflexivity]; by apply costs_atomic_operation |].
  destruct (o =? EBPF_ATOMIC_OP_CMPXCHG .& _); [intros _ | done].
  eexists; split; [| intros st; reflexivity]. by apply costs_atomic_operation.
Qed.
End Parts.

(** ** The slots of jumps and calls *)

Lemma jump_target_allowed (prog : list ebpf_inst) i inst :
  Z.of_nat (length prog) < UBPF_MAX_INSTS -> 0 <= i + 1 + jump_offset inst < Z.of_nat (length prog) ->
  slot_target_ok Jumps (ebpf_target (jump_target_pc i inst)).
Proof.
  intros Hl Ht. cbn [slot_target_ok ebpf_target ebpf_target_pc jit_target_pc]. rewrite (jump_target_u32 prog) by done.
  split_and!; [by exists 0 | done | done | lia | lia].
Qed.

Lemma local_call_budget pc : 0 <= u32 pc <= UBPF_MAX_INSTS -> in_budget 60 1 (local_call_items (ebpf_target pc)).
Proof.
  intros Hpc. eapply in_budget_weaken; [apply (in_budget_app 28 0 28 1 [_]); [exact (in_budget_bytes call_words) |] | lia | lia].
  apply (in_budget_app 4 1 24 0 [_]); [by apply in_budget_slot | exact (in_budget_bytes return_words)].
Qed.

Lemma local_call_run vm i inst st :
  inst.(src) = 1 -> 0 <= u32 (i + inst.(imm) + 1) <= UBPF_MAX_INSTS -> room 60 1 st ->
  emit_call_inst vm i inst st = Some (tt, asm (local_call_items (ebpf_target (i + inst.(imm) + 1))) st).
Proof.
  intros Hs Hpc Hroom. pose proof Hroom as (Hok & (Hlen & _) & _).
  unfold emit_call_inst. rewrite Hs. cbn [Z.eqb Pos.eqb]. unfold emit_local_call. set (tgt := ebpf_target _).
  change (map_register 6) with (lift (Some R19) : M Z). change (map_register 7) with (lift (Some R20) : M Z).
  change (map_register 8) with (lift (Some R21) : M Z). change (map_register 9) with (lift (Some R22) : M Z).
  change (map_register 10) with (lift (Some R23) : M Z). do 5 (unfold mbind at 1, M_bind at 1, lift at 1; cbn [fmap option_fmap option_map]).
  change (align_to 48 16) with 48. cbv zeta. rewrite <- (put_nil st) at 1.
  eapply run_seq; [puts_word 0xf84003f8 | done | cbn; lia |]. eapply run_seq; [puts_word 0xcb1802f7 | done | cbn; lia |].
  eapply run_seq; [puts_word 0xd100c3ff | done | cbn; lia |]. eapply run_seq; [puts_word 0xf80003fe | done | cbn; lia |].
  eapply run_seq; [puts_word 0xf80083f8 | done | cbn; lia |]. eapply run_seq; [puts_word 0xa90153f3 | done | cbn; lia |].
  eapply run_seq; [puts_word 0xa9025bf5 | done | cbn; lia |].
  change (put _ st) with (asm [Bytes (code_bytes call_words)] st).
  pose proof (room_ready _ _ _ _ Hroom (local_call_budget _ Hpc)) as Hr. fold tgt in Hr. unfold local_call_items in *.
  destruct (ready_app [Bytes (code_bytes call_words)] _ _ Hr) as [_ Hr1].
  destruct (ready_app [Slot LocalCalls tgt (branch_immediate_bits UBR_BL)] [_] _ Hr1) as [Hr2 Hr3].
  unfold mbind at 1, M_bind at 1. unfold tgt, ebpf_target in *. rewrite emits_call_link by exact Hr2.
  assert (puts (emit_loadstore_immediate LS_LDRX R30 SP 0;; emit_loadstore_immediate LS_LDRX temp_register SP 8;;
    emit_loadstorepair_immediate LSP_LDPX R19 R20 SP 16;; emit_loadstorepair_immediate LSP_LDPX R21 R22 SP 32;;
    emit_addsub_immediate true AS_ADD SP SP 48;; emit_addsub_register true AS_ADD R23 R23 temp_register) (code_bytes return_words)) as P.
  { apply (puts_code _ _ [_]); [puts_word 0xf84003fe |]. apply (puts_code _ _ [_]); [puts_word 0xf84083f8 |].
    apply (puts_code _ _ [_]); [puts_word 0xa94153f3 |]. apply (puts_code _ _ [_]); [puts_word 0xa9425bf5 |].
    apply (puts_code _ _ [_] [_]); [puts_word 0x9100c3ff | puts_word 0x8b1802f7]. }
  destruct Hr3 as (Hok3 & Hlen3 & _). rewrite P; [done | done |]. exact Hlen3.
Qed.

Lemma costs_arm_call vm i inst :
  (inst.(src) = 1 -> 0 <= u32 (i + inst.(imm) + 1) <= UBPF_MAX_INSTS) -> costs 180 5 (emit_call_inst vm i inst).
Proof.
  intros Hl. unfold emit_call_inst. destruct (inst.(src) =? 0); [arm_sum |].
  destruct (Z.eqb_spec inst.(src) 1); [| arm_sum]. specialize (Hl ltac:(done)). arm_sum.
Qed.

(** ** The switch *)

(** The parts of the switch without an operand of their own. *)
Definition own_part (c : inst_class) : bool :=
  match c with
  | ClassEndian | ClassCall | ClassExit | ClassLddw | ClassAtomic64 | ClassAtomic32 => true
  | _ => false
  end.

Lemma own_part_same op : own_part (class_of (reg_form op)) = true -> reg_form op = op.
Proof. by destruct op. Qed.

Lemma operand_own vm inst op : own_part (class_of (operand_op vm inst op)) = true -> operand_op vm inst op = op.
Proof. unfold operand_op. destruct (in_register _ _ _); [apply own_part_same | done]. Qed.

Lemma own_part_group op :
  match class_of op with
  | ClassEndian => group_of op = GroupEndian
  | ClassCall => op = EBPF_OP_CALL
  | ClassLddw => op = EBPF_OP_LDDW
  | ClassAtomic64 | ClassAtomic32 => group_of op = GroupAtomic
  | _ => True
  end.
Proof. by destruct op. Qed.

Lemma other_part op : own_part (class_of (reg_form op)) = false -> op <> EBPF_OP_LDDW /\ op <> EBPF_OP_CALL.
Proof. by destruct op. Qed.

Lemma operand_other vm inst op :
  own_part (class_of (operand_op vm inst op)) = false -> op <> EBPF_OP_LDDW /\ op <> EBPF_OP_CALL.
Proof. unfold operand_op. destruct (in_register _ _ _); [apply other_part | by destruct op]. Qed.

(** The code of an instruction. *)
Record arm_code (vm : ubpf_vm) (i : Z) (inst : ebpf_inst) (op : ebpf_op) (code : list item) : Prop := ArmCode {
  ac_budget : in_budget 216 5 code;
  ac_shape : arm_shape vm i inst op code;
}.

(** The emitter the switch comes down to, on the registers [d] and [s]. *)
Definition arm_switch_code (vm : ubpf_vm) (i : Z) (inst : ebpf_inst) (op : ebpf_op) (d s : Z) (m : M unit) : Prop :=
  let op' := operand_op vm inst op in
  let tgt := ebpf_target (jump_target_pc i inst) in
  match kind_of op with
  | KindValue => runs 36 m (switch_value vm i inst op' d s)
  | KindMemory => accesses 44 m (switch_access inst op' d s)
  | KindBranch =>
      exists c m', compares m' c (fun a => condition_value op' inst.(imm) (a.(xregs) d) (a.(xregs) s)) /\
        forall st, m st = (m';; emit_conditionalbranch_immediate c tgt;; mret tt) st
  | KindGoto => forall st, m st = (emit_unconditionalbranch_immediate UBR_B tgt;; mret tt) st
  | KindCall =>
      costs 180 5 m /\
      (inst.(src) = 1 -> let its := local_call_items (ebpf_target (i + inst.(imm) + 1)) in
         in_budget 60 1 its /\ forall st, room 60 1 st -> m st = Some (tt, asm its st))
  | KindExit => puts m (code_bytes exit_words)
  | KindOther => costs 180 5 m
  end.

Lemma goto_inst op inst s d sf tgt :
  kind_of op = KindGoto ->
  forall st, emit_jump_inst op (opcode_of op) inst s d sf tgt st = (emit_unconditionalbranch_immediate UBR_B tgt;; mret tt) st.
Proof. pose proof (kind_facts op) as H. intros E. rewrite E in H. by destruct H as [[-> | ->] _]. Qed.

Lemma operand_wide vm inst op : is_wide (operand_op vm inst op) = is_wide op.
Proof. unfold operand_op, is_wide. destruct (in_register _ _ _); [| done]. by rewrite (proj1 (reg_form_bits op)). Qed.

Lemma endian_wide inst op :
  switch_op inst.(opcode) = Some op -> is_endian op = true -> is_alu64_op inst = bool_decide (op = EBPF_OP_BSWAP).
Proof.
  intros Hop%switch_op_sound He%bool_decide_eq_true. unfold is_alu64_op. rewrite <- Hop. set_unfold in He. by destruct_or! He; subst.
Qed.

Section Switch.
Context `{HostEnv} (vm : ubpf_vm) (prog : list ebpf_inst) (Hld : loaded vm prog).
Context (i : Z) (inst : ebpf_inst) (op : ebpf_op) (Hi : 0 <= i) (Hck : inst_checked vm prog i inst op).
Context (s d : Z) (Hs : is_operand s) (Hd : is_operand d) (Hs1 : s <> offset_register) (Hd1 : d <> offset_register).
Context (Hoff : signed_fits 16 inst.(offset)).
#[local] Abbreviation op' := (operand_op vm inst op).

(** The ALU, byte-order and LDDW parts. *)
Lemma switch_alu :
  class_of op' = ClassAlu -> is_alu op' = true ->
  runs 36 (emit_alu_inst vm op' (opcode_of op') inst s d (is_alu64_op inst)) (switch_value vm i inst op' d s).
Proof using Hs Hd Hck.
  intros Hc Ha. destruct (reg_form_kind op) as (K1 & _ & K3). destruct (operand_op_class vm inst op) as (_ & H12 & _).
  assert (is_alu op = true) as Ha0 by (unfold operand_op in Ha; destruct (in_register vm inst op); congruence).
  assert (offset_ok op' inst.(offset)) as Ho.
  { pose proof (valid_offset_ok _ _ (ck_op _ _ _ _ _ Hck) (ck_fields _ _ _ _ _ Hck)). unfold operand_op. destruct (in_register _ _ _); auto. }
  rewrite (alu64_wide inst op (ck_op _ _ _ _ _ Hck)), <- (operand_wide vm inst op) by auto.
  eapply runs_weaken; [by apply runs_alu | lia |]. cbv beta. intros a a' Hu v R1 R2 E. rewrite value_of_alu in E by done.
  by injection E as <-.
Qed.

Lemma switch_endian :
  op' = op -> is_endian op = true -> group_of op = GroupEndian ->
  runs 36 (emit_endian_inst op inst d (is_alu64_op inst)) (switch_value vm i inst op d s).
Proof using Hd Hck.
  intros Eo He Hg. destruct Hck as [Hop _ _ _ Hgc]. rewrite Hg in Hgc. rewrite (endian_wide inst op Hop He).
  eapply runs_weaken; [apply runs_endian; [by apply bool_decide_eq_true in He | done | done] | lia |].
  cbv beta. intros a a' Hu v R1 R2 E. rewrite value_of_endian in E by done. by apply Hu.
Qed.

Lemma switch_lddw inst2 :
  ubpf_fetch_instruction vm (i + 1) = Some inst2 ->
  runs 36 (EMIT_MOVEWIDE_IMMEDIATE vm true d (u32 inst.(imm) .| u64 (u64 inst2.(imm) .<< 32))) (switch_value vm i inst EBPF_OP_LDDW d s).
Proof using Hd.
  intros H2. eapply runs_weaken; [apply runs_MOVEWIDE; apply Hd | lia |]. cbv beta. intros a a' Hu v R1 R2 E.
  unfold value_of in E. cbn [exec_alu exec_alu32 exec_alu64 exec_endian] in E. rewrite H2 in E. cbn [mbind option_bind] in E.
  injection E as <-. cbn [width] in Hu. rewrite wrap_lor, (wrap_wrap 64), (wrap_id 64 (u32 _)) in Hu
    by (lia || (pose proof (wrap_range 32 inst.(imm)); lia)). exact Hu.
Qed.

Lemma switch_memory :
  class_of op' = ClassMemory -> accesses 44 (emit_memory_inst vm op' inst s d) (switch_access inst op' d s).
Proof using Hs Hd Hs1 Hd1 Hoff.
  intros Hc. destruct Hs as (S1 & S2 & S3), Hd as (D1 & D2 & D3). unfold emit_memory_inst.
  destruct op' eqn:E; cbn in Hc; try discriminate Hc;
    (eapply accesses_weaken; [apply accesses_memory; try done; reflexivity | lia | intros ia a a' Ha; eexists; split; [reflexivity | exact Ha]]).
Qed.

Lemma arm_switch_ok :
  exists m : M unit, arm_switch_code vm i inst op d s m /\
    forall st, emit_switch vm i inst (opcode_of op') s d (is_alu64_op inst) (ebpf_target (jump_target_pc i inst)) st =
               (m;; mret (last_slot i inst, None)) st.
Proof using Hld Hi Hck Hs Hd Hs1 Hd1 Hoff.
  unfold emit_switch, last_slot. cbv zeta. rewrite switch_op_complete.
  pose proof Hck as [Hop _ _ _ Hg]. pose proof (loaded_length vm prog Hld) as Hlen. pose proof (is_lddw_op inst op Hop) as Hl.
  assert (op <> EBPF_OP_LDDW -> is_lddw inst = false) as Hnl.
  { intros Hne. destruct (is_lddw inst); [| done]. by destruct Hne; apply Hl. }
  destruct (operand_op_class vm inst op) as (Hu & H12 & Hj). pose proof (operand_own vm inst op) as Hown.
  pose proof (operand_other vm inst op) as Hoth. pose proof (own_part_group op') as Hgr.
  pose proof (kind_class op') as Hkc. rewrite (kind_operand vm inst op) in Hkc. pose proof switch_alu as Salu. pose proof switch_endian as Send.
  pose proof (proj1 Hs) as Rs. pose proof (proj1 Hd) as Rd. unfold arm_switch_code. cbv zeta.
  destruct (class_of op') eqn:E; try (specialize (Hown eq_refl); rewrite Hown in *); try (destruct (Hoth eq_refl) as [Ho1 Ho2]);
    try (rewrite Hnl by (done || (intros ->; done))); cbn [own_part] in *.
  - destruct Hkc as [Ek Ha]. eexists; split; [| reflexivity]. rewrite Ek. by apply Salu.
  - destruct Hkc as [Ek He]. eexists; split; [| reflexivity]. rewrite Ek. by apply Send.
  - destruct Hkc as [[Ek Hc] | Ek]; (eexists; split; [| reflexivity]); rewrite Ek.
    + assert (is_conditional op = true) as Hc0.
      { destruct (reg_form_kind op) as (_ & K & _). unfold operand_op in Hc. destruct (in_register vm inst op); congruence. }
      rewrite (alu64_wide inst op Hop), <- (operand_wide vm inst op) by auto.
      destruct (runs_compare op' inst d s E Hc Hd Hs H12) as (c & m' & Hm & Em). exists c, m'. split; [exact Hm |]. intros st. apply Em.
    + apply goto_inst. by rewrite kind_operand.
  - subst op. eexists; split; [| reflexivity]. rewrite Hkc.
    assert (src inst = 1 -> 0 <= u32 (i + imm inst + 1) <= UBPF_MAX_INSTS) as Hpc.
    { intros Hsrc. destruct Hg as [[? _] | (_ & Ht & _)]; [lia |]. rewrite (call_target_u32 prog) by done. lia. }
    split; [by apply costs_arm_call |]. intros Hsrc. split; [by apply local_call_budget; auto |]. intros st Hroom. by apply local_call_run; auto.
  - exists (emit_addsub_immediate true AS_ADD SP SP 16;; emit_unconditionalbranch_register BR_RET R30). rewrite Hkc.
    split; [exact (puts_code _ _ _ _ (puts_instruction 0x910043ff ltac:(done)) (puts_instruction 0xd65f03c0 ltac:(done))) |]. intros st. by rewrite bind_assoc.
  - eexists; split; [| reflexivity]. rewrite Hkc. by apply switch_memory.
  - subst op. rewrite (proj2 Hl) by done. destruct Hg as (_ & Hn & _).
    destruct (lookup_lt_is_Some_2 prog (Z.to_nat (i + 1)) ltac:(lia)) as [inst2 H2].
    assert (ubpf_fetch_instruction vm (i + 1) = Some inst2) as Hf
      by (rewrite (ld_fetch _ _ Hld) by (rewrite (ld_num_insts _ _ Hld); lia); exact H2).
    rewrite Hf. eexists; split; [| reflexivity]. cbn match. by apply switch_lddw.
  - rewrite Hgr in Hg. destruct (atomic_known vm inst s d Rs Rd i true Hg) as (m & Hm & Em). exists m. rewrite Hkc.
    split; [eapply costs_weaken; [exact Hm | lia | lia] |].
    intros st. unfold emit_atomic64_inst. unfold mbind at 1, M_bind at 1. rewrite Em. unfold mbind, M_bind. by destruct (m st) as [[] |].
  - rewrite Hgr in Hg. destruct (atomic_known vm inst s d Rs Rd i false Hg) as (m & Hm & Em). exists m. rewrite Hkc.
    split; [eapply costs_weaken; [exact Hm | lia | lia] |].
    intros st. unfold emit_atomic32_inst. unfold mbind at 1, M_bind at 1. rewrite Em. unfold mbind, M_bind. by destruct (m st) as [[] |].
  - done.
Qed.
End Switch.

(** ** The start of a local function *)

(** The stack usage goes to the stack twice, to keep it aligned. *)
Definition arm_prolog_words (usage : Z) : list Z := movewide_words true temp_register usage ++ [0xd10043ff; 0xa90063f8].

Lemma length_arm_prolog u : 0 <= u < 2 ^ 16 -> length (code_bytes (arm_prolog_words u)) = 12%nat.
Proof.
  intros. unfold arm_prolog_words. rewrite length_code_bytes, length_app, length_movewide_small by done. done.
Qed.

Lemma puts_prolog_sub : puts (emit_addsub_immediate true AS_SUB SP SP 16) (code_bytes [0xd10043ff]).
Proof. exact (puts_instruction 0xd10043ff ltac:(done)). Qed.

Lemma puts_prolog_stp : puts (emit_loadstorepair_immediate LSP_STPX temp_register temp_register SP 0) (code_bytes [0xa90063f8]).
Proof. exact (puts_instruction 0xa90063f8 ltac:(done)). Qed.

Definition arm_prolog_item (u : Z) : item := Bytes (code_bytes (arm_prolog_words u)).

Lemma arm_prolog_run vm i usage st :
  ubpf_stack_usage_for_local_func vm i = Some usage -> 0 <= usage < 2 ^ 16 ->
  st.(bpf_function_prolog_size) = 0 \/ st.(bpf_function_prolog_size) = 12 ->
  ready [arm_prolog_item usage] st ->
  emit_function_prolog vm i st = Some (tt, set_bpf_function_prolog_size 12 (asm [arm_prolog_item usage] st)).
Proof.
  intros Hu Hr Hp (Hok & Hlen & _). rewrite code_len_cons in Hlen. cbn [item_bytes arm_prolog_item] in Hlen.
  pose proof (length_arm_prolog usage Hr) as L. pose proof (code_len_nonneg []).
  unfold arm_prolog_words in L, Hlen. rewrite length_code_bytes, length_app in L, Hlen. cbn [length] in L, Hlen.
  unfold emit_function_prolog. unfold mbind at 1, M_bind at 1, gets at 1.
  unfold mbind at 1, M_bind at 1, lift at 1. rewrite Hu. cbn [fmap option_fmap option_map].
  rewrite <- (put_nil st) at 1.
  eapply run_seq; [apply puts_movewide; by vm_compute | done | rewrite ?length_app, ?length_code_bytes; cbn [length]; lia |].
  eapply run_seq; [apply puts_prolog_sub | done | rewrite ?length_app, ?length_code_bytes; cbn [length]; lia |].
  eapply run_seq; [apply puts_prolog_stp | done | rewrite ?length_app, ?length_code_bytes; cbn [length]; lia |].
  apply run_gets. unfold mbind, M_bind, gets. cbn [put set_joffset set_buf bpf_function_prolog_size].
  match goal with |- context [put ?l st] => assert (l = code_bytes (arm_prolog_words usage)) as ->
    by (unfold arm_prolog_words, code_bytes; rewrite bind_app; by rewrite <- app_assoc) end.
  rewrite (length_arm_prolog usage Hr). replace (joffset st + Z.of_nat 12 - joffset st) with 12 by lia.
  destruct Hp as [E | E]; rewrite E; [done |]. by rewrite set_prolog_id.
Qed.

(** The first instruction, or one after an unconditional jump or exit. *)
Definition not_fallen_into (vm : ubpf_vm) (i : Z) : Prop :=
  i = 0 \/ exists prev, ubpf_fetch_instruction vm (i - 1) = Some prev /\ ubpf_instruction_has_fallthrough prev = false.

(** The code before an instruction: nothing in the middle of a function; at its
    start the set-up of its frame, with a branch around it if the function can be
    fallen into. *)
Inductive arm_start (vm : ubpf_vm) (i : Z) (o : Z) : list item -> Prop :=
| ArmStartNone : function_start vm i = false -> arm_start vm i o []
| ArmStartPlain usage :
    function_start vm i = true -> ubpf_stack_usage_for_local_func vm i = Some usage -> not_fallen_into vm i ->
    arm_start vm i o [arm_prolog_item usage]
| ArmStartJump usage :
    i <> 0 -> function_start vm i = true -> ubpf_stack_usage_for_local_func vm i = Some usage ->
    arm_start vm i o [Slot Jumps (jit_target_at (o + 16)) (branch_immediate_bits UBR_B); arm_prolog_item usage].

(** ... and the state after it. *)
Definition arm_started (st : jit_state) (pre : list item) : jit_state :=
  match pre with
  | [] => st
  | _ => set_bpf_function_prolog_size 12 (asm pre st)
  end.

Lemma arm_prolog_budget u : 0 <= u < 2 ^ 16 -> in_budget 12 0 [arm_prolog_item u].
Proof.
  intros. split_and!; [| done |].
  - rewrite code_len_cons. cbn [item_bytes arm_prolog_item]. rewrite length_arm_prolog by done. done.
  - repeat constructor. cbn. rewrite length_arm_prolog by done. by exists 3.
Qed.

Lemma arm_start_budget vm i o pre :
  usages_typed vm -> position_ok o -> o + 16 <= ARM_CODE_LIMIT -> arm_start vm i o pre -> in_budget 16 1 pre.
Proof.
  intros Ht Hp Ho [Hf | u Hf Hu _ | u _ Hf Hu].
  - split_and!; [done | intros []; cbn; lia | done].
  - eapply in_budget_weaken; [apply arm_prolog_budget; by eapply usage_typed | lia | lia].
  - apply (in_budget_app 4 1 12 0 [_]); [| apply arm_prolog_budget; by eapply usage_typed].
    apply in_budget_slot; [by left |]. apply jit_target_position. destruct Hp as [? ?]. split; [cbn in *; lia |].
    apply Z.divide_add_r; [done | by exists 4].
Qed.

Section Start.
Context `{HostEnv} (vm : ubpf_vm) (prog : list ebpf_inst) (Hld : loaded vm prog) (Hty : usages_typed vm).

Lemma arm_fallthrough_run i prev st :
  i <> 0 -> ubpf_fetch_instruction vm (i - 1) = Some prev ->
  emit_fallthrough_jump vm i true st =
  if ubpf_instruction_has_fallthrough prev
  then (source ← emit_unconditionalbranch_immediate UBR_B (ebpf_target 0); mret (Some source)) st else Some (None, st).
Proof.
  intros Hi Hf. unfold emit_fallthrough_jump. rewrite (proj2 (Z.eqb_neq i 0)) by done. cbn [negb andb].
  unfold mbind at 1, M_bind at 1, lift. rewrite Hf. cbn. by destruct (ubpf_instruction_has_fallthrough prev).
Qed.

(** The start of a function that can be fallen into. *)
Lemma arm_start_jump_run i u st :
  ubpf_stack_usage_for_local_func vm i = Some u -> room 16 1 st ->
  st.(bpf_function_prolog_size) = 0 \/ st.(bpf_function_prolog_size) = 12 ->
  (fallthrough_jump_source ← (source ← emit_unconditionalbranch_immediate UBR_B (ebpf_target 0); mret (Some source));
   when true (emit_function_prolog vm i);;
   match fallthrough_jump_source with
   | Some source => here ← gets joffset; modify_jumps source (jit_target_at here)
   | None => mret tt
   end) st =
  Some (tt, arm_started st [Slot Jumps (jit_target_at (st.(joffset) + 16)) (branch_immediate_bits UBR_B); arm_prolog_item u]).
Proof using Hty.
  intros Hu Hroom Hp. pose proof (usage_typed vm i u Hty Hu) as Hr. set (t0 := ebpf_target 0). set (w := branch_immediate_bits UBR_B).
  assert (in_budget 4 1 [Slot Jumps t0 w]) as B0 by (apply in_budget_slot; [by left | apply default_target_ok]).
  assert (ready [Slot Jumps t0 w; arm_prolog_item u] st) as Hr2.
  { eapply room_ready; [exact Hroom |]. apply (in_budget_app 4 1 12 0 [_]); [exact B0 | by apply arm_prolog_budget]. }
  destruct (ready_app [Slot Jumps t0 w] _ _ Hr2) as [Ha Hb].
  unfold mbind, M_bind. rewrite emits_branch by exact Ha. cbn [mret M_ret when].
  assert ((asm [Slot Jumps t0 w] st).(bpf_function_prolog_size) = st.(bpf_function_prolog_size)) as Ep by done.
  rewrite (arm_prolog_run vm i u) by (done || by rewrite Ep). cbn [gets]. rewrite modify_jumps_prolog.
  rewrite <- (asm_app [Slot Jumps t0 w]). cbn [app].
  assert (joffset (set_bpf_function_prolog_size 12 (asm [Slot Jumps t0 w; arm_prolog_item u] st)) = joffset st + 16) as ->.
  { cbn [joffset set_bpf_function_prolog_size]. rewrite (asm_offset _ _ Hr2), !code_len_cons. cbn [item_bytes arm_prolog_item].
    rewrite length_arm_prolog by done. reflexivity. }
  pose proof (retarget_asm [] [arm_prolog_item u] t0 (jit_target_at (joffset st + 16)) w st Hr2) as E. cbn [app] in E.
  change (joffset (asm [] st)) with (joffset st) in E. by rewrite E.
Qed.

Lemma arm_function_start_run i st :
  0 <= i < vm.(num_insts) -> room 16 1 st ->
  st.(bpf_function_prolog_size) = 0 \/ st.(bpf_function_prolog_size) = 12 ->
  exists pre, arm_start vm i st.(joffset) pre /\ emit_function_start vm i st = Some (tt, arm_started st pre).
Proof using Hld Hty.
  intros Hi Hroom Hp. unfold emit_function_start.
  assert (forall u, 0 <= u < 2 ^ 16 -> ready [arm_prolog_item u] st) as Hr.
  { intros u Hu. eapply room_ready; [exact Hroom |]. eapply in_budget_weaken; [by apply arm_prolog_budget | lia | lia]. }
  destruct (Z.eqb_spec i 0) as [-> | Hne].
  { destruct (usage_at_start vm prog Hld 0 Hi) as [u Hu]; [by left |]. pose proof (usage_typed vm 0 u Hty Hu).
    exists [arm_prolog_item u]. split; [by constructor; [.. | left] |].
    unfold mbind, M_bind. cbn [mret M_ret emit_fallthrough_jump Z.eqb negb andb orb when].
    rewrite (arm_prolog_run vm 0 u) by auto. done. }
  destruct (ld_int_funcs _ _ Hld) as (flags & Ef & Hl & _).
  destruct (lookup_lt_is_Some_2 flags (Z.to_nat i)) as [b Hb]; [rewrite (ld_num_insts _ _ Hld) in Hi; lia |].
  assert ((lift (flags ← vm.(int_funcs); flags !! Z.to_nat i) : M bool) st = Some (b, st)) as E1
    by (unfold lift; rewrite Ef; cbn [mbind option_bind]; by rewrite Hb).
  unfold mbind at 1, M_bind at 1. rewrite E1. cbn [orb].
  assert (function_start vm i = b) as Hfs.
  { unfold function_start. rewrite (proj2 (Z.eqb_neq i 0)), Ef by done. cbn [mbind option_bind]. by rewrite Hb. }
  destruct b; [| exists []; split; [by constructor |]; unfold emit_fallthrough_jump; by rewrite andb_false_r].
  destruct (usage_at_start vm prog Hld i Hi) as [u Hu]; [eauto |]. pose proof (usage_typed vm i u Hty Hu).
  destruct (lookup_lt_is_Some_2 prog (Z.to_nat (i - 1))) as [prev Hprev]; [rewrite (ld_num_insts _ _ Hld) in Hi; lia |].
  pose proof (arm_fallthrough_run i prev) as Hft.
  assert (ubpf_fetch_instruction vm (i - 1) = Some prev) as Hfp by (rewrite (ld_fetch _ _ Hld (i - 1)) by lia; exact Hprev).
  destruct (ubpf_instruction_has_fallthrough prev) eqn:Eft.
  - exists [Slot Jumps (jit_target_at (st.(joffset) + 16)) (branch_immediate_bits UBR_B); arm_prolog_item u].
    split; [by constructor |]. rewrite <- (arm_start_jump_run i u st Hu Hroom Hp). unfold mbind at 1, M_bind at 1.
    rewrite Hft by done. done.
  - exists [arm_prolog_item u]. split; [constructor; [done | done | right; eauto] |]. unfold mbind, M_bind.
    rewrite Hft by done. cbn [when].
    rewrite (arm_prolog_run vm i u) by auto. done.
Qed.
End Start.
