(* ===== verification/Arm64Correct.v ===== *)
(** * Arm64Correct: what the arm64 back end makes of a loaded program

    One turn of the loop of [translate] and the invariant it keeps, the prologue
    before and the epilogue and data behind the loop, and so the finished code
    before its displacements are filled in ([arm_image]). *)

From Stdlib Require Import ZArith Lia Bool.
From stdpp Require Import base list gmap strings numbers.
From S2P Require Import Prelude Ebpf InstValid Mem Vm Validate Load Alu JitSupport JitAsm JitLink JitProg.
From S2P Require Import Arm64Emit Arm64Isa Arm64Move Arm64Trans Arm64Cost Arm64Run Arm64Mem Arm64Code Arm64Sound.

Local Open Scope Z_scope.
Local Open Scope cbits_scope.

(** ** The code of the program *)

(** The code [b] at position [o] starts with what goes before the instruction at
    slot [n], whose position is recorded behind that. *)
Definition arm_next (vm : ubpf_vm) (locs : gmap Z Z) (n o : Z) (b : list item) : Prop :=
  exists pre c, b = pre ++ c /\ arm_start vm n o pre /\ locs !! n = Some (o + code_len pre).

(** The code of the instruction at [k] in [its]: what goes before it, the code
    itself, and behind it that of the next instruction, or [last] at slot [e]. *)
Record arm_placed (vm : ubpf_vm) (its : list item) (locs : gmap Z Z) (e : Z) (last : list item) (k : Z) (inst : ebpf_inst)
    (op : ebpf_op) : Prop := ArmPlaced {
  ap_code : exists a pre code b,
    its = a ++ pre ++ code ++ b /\ locs !! k = Some (code_len (a ++ pre)) /\
    arm_start vm k (code_len a) pre /\ arm_code vm k inst op code /\
    let n := last_slot k inst + 1 in
    n = e /\ b = last \/ n < e /\ arm_next vm locs n (code_len (a ++ pre ++ code)) b;
}.

Lemma arm_placed_app vm its its' locs e last k inst op :
  arm_placed vm its locs e last k inst op -> arm_placed vm (its ++ its') locs e (last ++ its') k inst op.
Proof.
  intros [(a & pre & code & b & -> & Hl & Hs & Hc & Hn)]. constructor.
  exists a, pre, code, (b ++ its'). split_and!; try done; [by rewrite <- !app_assoc |].
  destruct Hn as [[E ->] | [Hlt (pre' & c & -> & Hs' & Hl')]]; [by left | right].
  split; [done |]. exists pre', (c ++ its'). by rewrite <- app_assoc.
Qed.

(** The code of the instruction at slot [e] goes behind all there is. *)
Lemma arm_placed_next vm its locs e e' pre code k inst op :
  arm_placed vm its locs e [] k inst op -> k < e -> e < e' -> arm_start vm e (code_len its) pre ->
  arm_placed vm (its ++ pre ++ code) (<[e := code_len (its ++ pre)]> locs) e' [] k inst op.
Proof.
  intros [(a & pre0 & code0 & b & -> & Hl & Hs & Hc & Hn)] Hk He Hst. constructor.
  exists a, pre0, code0, (b ++ pre ++ code). rewrite lookup_insert_ne by lia. split_and!; try done; [by rewrite <- !app_assoc |].
  right. destruct Hn as [[-> ->] | [Hlt (pre' & c & -> & Hs' & Hl')]].
  - rewrite app_nil_r in *. split; [done |]. exists pre, code. split; [done |]. split; [done |].
    by rewrite lookup_insert_eq, code_len_app.
  - split; [lia |]. exists pre', (c ++ pre ++ code). rewrite lookup_insert_ne by lia. by rewrite <- app_assoc.
Qed.

(** Positions of code recorded in [locs]. *)
Definition locs_ok (its : list item) (locs : gmap Z Z) : Prop :=
  map_Forall (fun _ p => (4 | p) /\ 0 <= p <= code_len its) locs.

Lemma locs_ok_app its its' locs : locs_ok its locs -> locs_ok (its ++ its') locs.
Proof.
  intros H k p Hk. destruct (H k p Hk) as [? ?]. split; [done |]. rewrite code_len_app.
  pose proof (code_len_nonneg its'). lia.
Qed.

(** The code before the first instruction. *)
Lemma main_start vm o pre : usages_typed vm -> arm_start vm 0 o pre -> code_len pre = 12.
Proof.
  intros Hty [Hf | u Hf Hu _ | u Hne _ _]; [by unfold function_start in Hf | | done].
  rewrite code_len_cons. unfold arm_prolog_item. cbn [item_bytes]. rewrite length_arm_prolog by (by eapply usage_typed). done.
Qed.

(** What holds before the turn of the loop for slot [i]. *)
Record arm_inv (vm : ubpf_vm) (prog : list ebpf_inst) (buffer : list Z) (i : Z) (its : list item) (st : jit_state)
    : Prop := ArmInv {
  ai_laid : laid_out buffer its st;
  ai_bytes : code_len its <= 52 + 232 * i;
  ai_slots : forall t, Z.of_nat (slots_in t its) <= 2 + 6 * i;
  ai_items : Forall item_ok its;
  ai_prolog : st.(bpf_function_prolog_size) = if i =? 0 then 0 else 12;
  ai_frame : st.(jstack_size) = 64;
  ai_entry : (4 | st.(entry_loc)) /\ 0 <= st.(entry_loc) <= code_len its;
  ai_main : st.(entry_loc) = 52 /\ (i = 0 -> code_len its = 52) /\ (0 < i -> st.(pc_locs) !! 0 = Some 64);
  ai_locs : locs_ok its st.(pc_locs);
  ai_placed : forall k inst, start prog k -> k < i -> prog !! Z.to_nat k = Some inst ->
    exists op, switch_op inst.(opcode) = Some op /\ arm_placed vm its st.(pc_locs) i [] k inst op;
}.

Lemma arm_fits buffer its st n k :
  laid_out buffer its st -> Forall item_ok its -> Z.of_nat (length buffer) <= ARM_CODE_LIMIT ->
  code_len its + n <= Z.of_nat (length buffer) -> (forall t, Z.of_nat (slots_in t its + k) <= UBPF_MAX_INSTS) ->
  fits buffer its n k.
Proof. intros Hlo Hi Hlim Hn Hk. constructor; [done | done | by apply items_aligned | done]. Qed.

Lemma fetch_fields vm i inst : ubpf_fetch_instruction vm i = Some inst -> signed_fits 16 inst.(offset) /\ signed_fits 32 inst.(imm).
Proof. unfold ubpf_fetch_instruction. intros (w & _ & ->)%fmap_Some. apply inst_of_u64_ok. Qed.

(** ** One turn of the loop *)

Section Code.
Context `{HostEnv} (vm : ubpf_vm) (prog : list ebpf_inst) (Hld : loaded vm prog).

Context (i : Z) (inst : ebpf_inst) (op : ebpf_op) (Hi : 0 <= i) (Hck : inst_checked vm prog i inst op).
Context (Hdst : 0 <= inst.(dst) < 11) (Hsrc : 0 <= inst.(src) < 11).
Context (Hfields : signed_fits 16 inst.(offset) /\ signed_fits 32 inst.(imm)).
#[local] Abbreviation sf := (is_alu64_op inst).
#[local] Abbreviation d := (reg_of inst.(dst)).
#[local] Abbreviation s := (operand_src vm inst op (reg_of inst.(src))).
#[local] Abbreviation tgt := (ebpf_target (jump_target_pc i inst)).

Lemma operand_src_operand : is_operand s.
Proof using Hsrc. unfold operand_src. destruct (in_register _ _ _); [by vm_compute | by apply reg_of_facts]. Qed.

Lemma operand_src_spared : s <> offset_register.
Proof using Hsrc.
  unfold operand_src. destruct (in_register _ _ _); [done |]. intros E. apply (reg_of_spared _ Hsrc). unfold is_scratch. auto.
Qed.

Lemma dst_spared : d <> offset_register.
Proof using Hdst. intros E. apply (reg_of_spared _ Hdst). unfold is_scratch. auto. Qed.

(** The immediate of a store goes into its register at 32 bits. *)
Lemma store_width : is_memory op = true -> in_register vm inst op = true -> sf = false.
Proof using Hck.
  intros Hm Hr%in_register_form. unfold is_alu64_op. rewrite <- (switch_op_sound _ _ (ck_op _ _ _ _ _ Hck)).
  destruct op; try discriminate Hm; done.
Qed.

Lemma jump_slot : group_of op = GroupJump -> slot_target_ok Jumps tgt.
Proof using Hld Hck.
  intros Hg. pose proof (ck_group _ _ _ _ _ Hck) as Hgc. rewrite Hg in Hgc. destruct Hgc as (_ & Ht & _).
  eapply jump_target_allowed; [apply (loaded_length vm prog Hld) | exact Ht].
Qed.

(** The code of the switch behind that of the operand. *)
Lemma arm_switch_run o wo m st :
  in_budget 36 0 o -> straight o wo -> (in_register vm inst op = false -> o = []) -> (forall a, exists a', a64_run wo a = Some a' /\ operand_effect vm inst op sf a a') ->
  arm_switch_code vm i inst op d s m -> room 180 5 st ->
  exists c, arm_code vm i inst op (o ++ c) /\ m st = Some (tt, asm c st).
Proof using Hld Hck Hdst Hsrc Hfields.
  intros Bo So Oo Xo Hsw Hroom. pose proof (proj2 Hfields) as Himm.
  assert (forall c n k, in_budget n k c -> n <= 180 -> (k <= 5)%nat -> in_budget 216 5 (o ++ c)) as Bc.
  { intros c n k B ? ?. apply (in_budget_app 36 0 180 5); [done |]. by eapply in_budget_weaken. }
  pose proof (kind_facts op) as Hk. pose proof (proj2 (jump_kind op)) as Hj. pose proof (ck_op _ _ _ _ _ Hck) as Hop.
  unfold arm_switch_code in Hsw. cbv zeta in Hsw. destruct (kind_of op) eqn:Ek.
  - destruct (Hsw st) as (c & wc & E & B & S & X); [eapply room_weaken; [exact Hroom | lia | lia] |].
    exists c. split; [| done]. constructor; [eapply Bc; [exact B | lia | lia] |]. unfold arm_shape. rewrite Ek.
    eapply (value_code_of vm i inst op sf); [done | done | exact Hk | | by eapply valid_offset_ok; [| apply Hck] | done | done | done | done].
    intros Hr%in_register_form. destruct Hk as [Ha |]; [| done]. by rewrite (alu64_wide inst op Hop), wide_width by auto.
  - destruct (Hsw st) as (c & wc & w & ia & E & B & S & D & X); [eapply room_weaken; [exact Hroom | lia | lia] |].
    exists c. split; [| done]. constructor; [eapply Bc; [exact B | lia | lia] |]. unfold arm_shape. rewrite Ek.
    eapply (memory_code_of vm inst op sf); try done. intros Hr. by apply store_width.
  - destruct Hsw as (c & m' & Hm & Em). destruct (Hm st) as (cc & wc & E & B & S & X); [eapply room_weaken; [exact Hroom | lia | lia] |].
    assert (in_budget 4 1 [Slot Jumps tgt (BR_Bcond .| condition_bits c)]) as Bs
      by (apply in_budget_slot; [by right; right; exists c | apply jump_slot; auto]).
    exists (cc ++ [Slot Jumps tgt (BR_Bcond .| condition_bits c)]). split.
    + constructor; [eapply Bc; [exact (in_budget_app _ _ _ _ _ _ B Bs) | lia | lia] |]. unfold arm_shape. rewrite Ek, app_assoc.
      eapply (branch_code_of vm inst op sf); try done. by rewrite (alu64_wide inst op Hop), wide_width by auto.
    + rewrite Em. unfold mbind, M_bind. rewrite E, emits_conditional; [by rewrite asm_app |].
      eapply room_ready; [| exact Bs]. apply (room_asm 4 0); [eapply room_weaken; [exact Hroom | lia | lia] | done | lia].
  - destruct Hk as [_ Hrf]. assert (in_budget 4 1 [Slot Jumps tgt (branch_immediate_bits UBR_B)]) as Bs
      by (apply in_budget_slot; [by left | apply jump_slot; auto]).
    exists [Slot Jumps tgt (branch_immediate_bits UBR_B)]. split.
    + rewrite Oo by (unfold in_register; rewrite bool_decide_eq_true_2 by done; done).
      constructor; [eapply in_budget_weaken; [exact Bs | lia | lia] |]. unfold arm_shape. by rewrite Ek.
    + rewrite Hsw. unfold mbind, M_bind. rewrite emits_branch; [done |]. eapply room_ready; [| exact Bs].
      eapply room_weaken; [exact Hroom | lia | lia].
  - destruct Hsw as [Hc Hl]. unfold arm_shape in *. destruct (decide (inst.(src) = 1)) as [E1 | E1].
    + exists (local_call_items (ebpf_target (i + inst.(imm) + 1))). destruct (Hl E1) as [B Hl1]. split; [| apply Hl1; eapply room_weaken; [exact Hroom | lia | lia]].
      rewrite Oo by (unfold in_register; rewrite bool_decide_eq_true_2 by (by subst op); done).
      constructor; [eapply in_budget_weaken; [exact B | lia | lia] |]. unfold arm_shape. by rewrite Ek.
    + destruct (Hc st Hroom) as ([] & c & Ec & B). exists c. split; [| done]. constructor; [eapply Bc; [exact B | lia | lia] |].
      unfold arm_shape. by rewrite Ek.
  - exists [Bytes (code_bytes exit_words)]. split; [| apply Hsw; [apply Hroom | destruct Hroom as (_ & (? & _) & _); cbn; lia]].
    rewrite Oo by (unfold in_register; rewrite bool_decide_eq_true_2 by (by subst op); done).
    constructor; [eapply in_budget_weaken; [apply (in_budget_bytes exit_words) | done | lia] |].
    unfold arm_shape. rewrite Ek. apply straight_bytes.
  - destruct (Hsw st Hroom) as ([] & c & Ec & B). exists c. split; [| done]. constructor; [eapply Bc; [exact B | lia | lia] |].
    unfold arm_shape. by rewrite Ek.
Qed.

(** The operand and the switch. *)
Lemma arm_code_run st :
  room 216 5 st ->
  exists code, arm_code vm i inst op code /\
    ('(src, opc) ← emit_immediate_operand vm inst (reg_of inst.(src)) sf;
     '(i', msg) ← emit_switch vm i inst opc src d sf tgt;
     mret (i' + 1, msg)) st = Some ((last_slot i inst + 1, None), asm code st).
Proof using Hld Hi Hck Hdst Hsrc Hfields.
  intros Hroom.
  destruct (operand_run vm inst op (reg_of inst.(src)) sf st (ck_op _ _ _ _ _ Hck)) as (o & wo & Bo & So & Oo & Eo & Xo);
    [eapply room_weaken; [exact Hroom | lia | lia] |].
  assert (room 180 5 (asm o st)) as Hroom' by (apply (room_asm 36 0); [exact Hroom | exact Bo | lia]).
  destruct (arm_switch_ok vm prog Hld i inst op Hi Hck s d operand_src_operand (proj1 (reg_of_facts _ Hdst))
    operand_src_spared dst_spared (proj1 Hfields)) as (m & Hm & Em).
  destruct (arm_switch_run o wo m (asm o st) Bo So Oo Xo Hm Hroom') as (c & Hc & Ec). exists (o ++ c). split; [done |].
  unfold mbind at 1, M_bind at 1. rewrite Eo. unfold mbind at 1, M_bind at 1. rewrite Em. unfold mbind, M_bind. rewrite Ec.
  by rewrite asm_app.
Qed.
End Code.

Section Turn.
Context `{HostEnv} (vm : ubpf_vm) (prog : list ebpf_inst) (buffer : list Z).
Context (Hld : loaded vm prog) (Hty : usages_typed vm) (Hlim : Z.of_nat (length buffer) <= ARM_CODE_LIMIT).

(** The start of a function at the front of the invariant. *)
Lemma arm_function_start_laid i its st :
  0 <= i < vm.(num_insts) -> laid_out buffer its st -> room 16 1 st -> code_len its + 16 <= ARM_CODE_LIMIT ->
  st.(bpf_function_prolog_size) = (if i =? 0 then 0 else 12) ->
  exists pre, arm_start vm i (code_len its) pre /\ emit_function_start vm i st = Some (tt, arm_started st pre) /\
    in_budget 16 1 pre /\ laid_out buffer (its ++ pre) (arm_started st pre) /\
    (arm_started st pre).(pc_locs) = st.(pc_locs) /\ (arm_started st pre).(jstack_size) = st.(jstack_size) /\
    (arm_started st pre).(entry_loc) = st.(entry_loc) /\ (arm_started st pre).(bpf_function_prolog_size) = 12.
Proof using Hld Hty.
  intros Hi Hlo Hroom H16 Hp.
  destruct (arm_function_start_run vm prog Hld Hty i st Hi Hroom) as (pre & Hpre & Erun).
  { rewrite Hp. destruct (i =? 0); auto. }
  assert (in_budget 16 1 pre) as Hb.
  { eapply arm_start_budget; [done | eapply room_position; [exact Hroom | lia] | rewrite (lo_offset _ _ _ Hlo); done | exact Hpre]. }
  rewrite (lo_offset _ _ _ Hlo) in Hpre. assert (ready pre st) as Hr by (by eapply room_ready).
  pose proof (laid_out_asm _ _ _ _ Hlo Hr) as Hlo'. destruct (asm_locs pre st) as (_ & _ & _ & _ & E1 & E2).
  destruct (asm_frame pre st) as [E3 E4]. exists pre. split; [done |]. split; [done |]. split; [done |].
  destruct pre as [| it pre]; cbn [arm_started] in *.
  - rewrite app_nil_r. split_and!; try done. inversion Hpre as [Hf | |]. rewrite Hp. destruct (Z.eqb_spec i 0) as [-> |]; [done | done].
  - split; [eapply laid_out_set; [exact Hlo' | done .. | by intros []] |]. split_and!; done.
Qed.

Lemma arm_inst_run i inst its st :
  start prog i -> prog !! Z.to_nat i = Some inst -> arm_inv vm prog buffer i its st ->
  52 + 232 * (i + 1) <= Z.of_nat (length buffer) ->
  exists its' st', translate_inst vm i st = Some ((last_slot i inst + 1, None), st') /\
    arm_inv vm prog buffer (last_slot i inst + 1) (its ++ its') st'.
Proof using Hld Hty Hlim.
  intros Hs Hinst [Hlo Hbytes Hslots Hok Hprolog Hframe Hentry (Hen & Hm0 & Hm1) Hlocs Hplaced] Hbuf.
  destruct (loaded_inst vm prog Hld i inst Hs Hinst) as (Hf & Hd & Hsr & op & Hck).
  pose proof (start_from_ge _ _ _ Hs) as Hi. pose proof (lookup_lt_Some _ _ _ Hinst) as Hlt.
  assert (2 + 6 * (i + 1) <= UBPF_MAX_INSTS) as Hmax by (unfold UBPF_MAX_INSTS, ARM_CODE_LIMIT in *; lia).
  assert (fits buffer its 232 6) as Hfit.
  { eapply arm_fits; [done | done | done | lia |]. intros t. specialize (Hslots t). lia. }
  destruct (arm_function_start_laid i its st) as (pre & Hpre & Erun & Bpre & Hlo1 & Eloc & Efr & Een & Epro);
    [rewrite (ld_num_insts _ _ Hld); lia | done | eapply fits_room; [exact Hlo | exact Hfit | lia | lia] | lia | done |].
  set (st2 := set_pc_locs (<[i := (arm_started st pre).(joffset)]> (arm_started st pre).(pc_locs)) (arm_started st pre)).
  assert (laid_out buffer (its ++ pre) st2) as Hlo2 by (eapply laid_out_set; [exact Hlo1 | done .. | by intros []]).
  pose proof Bpre as (Hpl & Hps & Hpi).
  assert (Forall item_ok (its ++ pre)) as Hok2 by by apply Forall_app.
  assert (fits buffer (its ++ pre) 216 5) as Hfit2.
  { eapply arm_fits; [done | done | done | rewrite code_len_app; lia |]. intros t. rewrite slots_in_app. specialize (Hslots t). specialize (Hps t). lia. }
  assert (room 216 5 st2) as Hroom2 by (eapply fits_room; [exact Hlo2 | exact Hfit2 | lia | lia]).
  destruct (reg_of_facts _ Hd) as (_ & _ & Ed). destruct (reg_of_facts _ Hsr) as (_ & _ & Es).
  destruct (arm_code_run vm prog Hld i inst op Hi Hck Hd Hsr (fetch_fields _ _ _ Hf) st2 Hroom2) as (code & Hcode & Ecode).
  exists (pre ++ code), (asm code st2). split.
  { unfold translate_inst. unfold mbind at 1, M_bind at 1, lift at 1. rewrite Hf. cbn [fmap option_fmap option_map].
    unfold mbind at 1, M_bind at 1. rewrite Erun. unfold mbind at 1, M_bind at 1, set_pc_loc, modify. fold st2.
    unfold mbind at 1, M_bind at 1. rewrite Ed. unfold mbind at 1, M_bind at 1. rewrite Es. exact Ecode. }
  pose proof (ac_budget _ _ _ _ _ Hcode) as (Hcl & Hcs & Hci).
  assert (ready code st2) as Hr3 by (eapply room_ready; [exact Hroom2 | apply Hcode]).
  destruct (asm_assembled _ _ Hr3). destruct (asm_frame code st2) as [F1 F2].
  assert (i + 1 <= last_slot i inst + 1) as Hnext by (unfold last_slot; destruct (is_lddw inst); lia).
  pose proof (code_len_nonneg pre). pose proof (code_len_nonneg code). constructor.
  - rewrite app_assoc. by apply laid_out_asm.
  - rewrite !code_len_app. lia.
  - intros t. rewrite !slots_in_app. specialize (Hslots t). specialize (Hps t). specialize (Hcs t). lia.
  - rewrite app_assoc. by apply Forall_app.
  - rewrite as_prolog, (proj2 (Z.eqb_neq _ 0)) by lia. exact Epro.
  - rewrite F1. cbn [jstack_size st2 set_pc_locs]. congruence.
  - rewrite F2. cbn [entry_loc st2 set_pc_locs]. rewrite Een. destruct Hentry. split; [done |]. rewrite code_len_app. pose proof (code_len_nonneg (pre ++ code)). lia.
  - rewrite F2, as_pc_locs. cbn [entry_loc pc_locs st2 set_pc_locs]. rewrite Een. split; [done |]. split; [lia |]. intros _.
    rewrite (lo_offset _ _ _ Hlo1), Eloc. destruct (decide (i = 0)) as [-> | Hne]; [| rewrite lookup_insert_ne by done; apply Hm1; lia].
    rewrite lookup_insert_eq, code_len_app, (Hm0 eq_refl). by rewrite (main_start vm _ pre Hty Hpre).
  - rewrite as_pc_locs. cbn [pc_locs st2 set_pc_locs]. rewrite app_assoc. apply locs_ok_app, map_Forall_insert_2.
    + rewrite (lo_offset _ _ _ Hlo1). split; [exact (items_aligned _ Hok2) |]. pose proof (code_len_nonneg (its ++ pre)). lia.
    + rewrite Eloc. by apply locs_ok_app.
  - rewrite as_pc_locs. intros k inst' Hk Hlk Hinst'. cbn [pc_locs st2 set_pc_locs].
    destruct (decide (k = i)) as [-> | Hne].
    + simplify_eq. exists op. split; [apply Hck |]. constructor. exists its, pre, code, [].
      rewrite app_nil_r, lookup_insert_eq, (lo_offset _ _ _ Hlo1). split_and!; try done. by left.
    + destruct (decide (k < i)) as [Hki |]; [| pose proof (start_gap _ i k inst Hs Hinst Hk ltac:(lia)); lia].
      destruct (Hplaced k inst' Hk Hki Hinst') as (op' & Hop' & Hpl'). exists op'. split; [done |].
      rewrite (lo_offset _ _ _ Hlo1), Eloc. eapply arm_placed_next; [done | lia | lia | done].
Qed.

(** The loop ends at the end of the program. *)
Lemma arm_loop_run fuel i its st :
  (Z.to_nat (Z.of_nat (length prog) - i) < fuel)%nat -> start prog i -> i <= Z.of_nat (length prog) ->
  arm_inv vm prog buffer i its st -> 52 + 232 * Z.of_nat (length prog) <= Z.of_nat (length buffer) ->
  exists its' st', translate_loop fuel vm i None st = Some (None, st') /\
    arm_inv vm prog buffer (Z.of_nat (length prog)) (its ++ its') st'.
Proof using Hld Hty Hlim.
  revert i its st; induction fuel as [| fuel IH]; intros i its st Hfuel Hs Hi Hinv Hbuf; [lia |].
  cbn [translate_loop]. unfold mbind at 1, M_bind at 1, gets.
  rewrite (ok_status _ (laid_out_ok _ _ _ (ai_laid _ _ _ _ _ _ Hinv))), (ld_num_insts _ _ Hld).
  rewrite bool_decide_eq_false_2 by (intros Hne; by apply Hne).
  destruct (Z.ltb_spec i (Z.of_nat (length prog))) as [Hlt |]; cbn [negb orb].
  - pose proof (start_from_ge _ _ _ Hs).
    destruct (lookup_lt_is_Some_2 prog (Z.to_nat i) ltac:(lia)) as [inst Hinst].
    destruct (arm_inst_run i inst its st Hs Hinst Hinv ltac:(lia)) as (its1 & st1 & Erun & Hinv1).
    unfold mbind at 1, M_bind at 1. rewrite Erun. cbn match.
    assert (i + 1 <= last_slot i inst + 1) by (unfold last_slot; destruct (is_lddw inst); lia).
    destruct (IH (last_slot i inst + 1) (its ++ its1) st1) as (its2 & st2 & E2 & Hinv2);
      [lia | by apply start_last_slot | by apply (next_slot_bound vm) | done .. |].
    exists (its1 ++ its2), st2. by rewrite app_assoc.
  - exists [], st. rewrite app_nil_r. replace i with (Z.of_nat (length prog)) in Hinv by lia. done.
Qed.
End Turn.

(** ** Before the loop *)

(** [sub sp, sp, #16; stp x29, x30, [sp]] *)
Definition prologue_head : list Z := [0xd10043ff; 0xa9007bfd].

(** [sub sp, sp, #64], the callee-saved registers in pairs, [mov x29, sp]; the end
    of the eBPF stack to x23 (below the frame, or given by the caller); the context
    to x26. *)
Definition prologue_words (mode : JitMode) : list Z :=
  [0xd10103ff; 0xa90053f3; 0xa9015bf5; 0xa90263f7; 0xa9036bf9; 0x910003fd] ++
  (if decide (mode = BasicJitMode) then [0x910003f7; 0xd14007ff] else [0x91000057; 0x8b0302f7]) ++ [0xaa0003fa].

Definition prologue_items (mode : JitMode) : list item :=
  [Bytes (code_bytes prologue_head); Bytes (code_bytes (prologue_words mode));
   Slot Jumps (Special Enter) (branch_immediate_bits UBR_BL); Slot Jumps (Special Exit) (branch_immediate_bits UBR_B)].

Lemma puts_register_pairs (op : LoadStorePairOpcode) (w0 w1 w2 w3 : Z) :
  puts (emit_loadstorepair_immediate op R19 R20 SP 0) (code_bytes [w0]) ->
  puts (emit_loadstorepair_immediate op R21 R22 SP 16) (code_bytes [w1]) ->
  puts (emit_loadstorepair_immediate op R23 R24 SP 32) (code_bytes [w2]) ->
  puts (emit_loadstorepair_immediate op R25 R26 SP 48) (code_bytes [w3]) ->
  puts (emit_register_pairs op) (code_bytes [w0; w1; w2; w3]).
Proof.
  intros P0 P1 P2 P3. unfold emit_register_pairs. change (seqZ 0 (Z.of_nat (length callee_saved_registers) / 2)) with [0; 1; 2; 3].
  cbn [for_each].
  exact (puts_code _ _ [w0] _ P0 (puts_code _ _ [w1] _ P1 (puts_code _ _ [w2] _ P2 (puts_code _ _ [w3] [] P3 puts_nil)))).
Qed.

Lemma puts_save : puts (emit_register_pairs LSP_STPX) (code_bytes [0xa90053f3; 0xa9015bf5; 0xa90263f7; 0xa9036bf9]).
Proof. apply puts_register_pairs; [puts_word 0xa90053f3 | puts_word 0xa9015bf5 | puts_word 0xa90263f7 | puts_word 0xa9036bf9]. Qed.

Lemma puts_restore : puts (emit_register_pairs LSP_LDPX) (code_bytes [0xa94053f3; 0xa9415bf5; 0xa94263f7; 0xa9436bf9]).
Proof. apply puts_register_pairs; [puts_word 0xa94053f3 | puts_word 0xa9415bf5 | puts_word 0xa94263f7 | puts_word 0xa9436bf9]. Qed.

(** The end of the eBPF stack. *)
Lemma puts_stack_end mode :
  puts (if decide (mode = BasicJitMode) then
          emit_addsub_immediate true AS_ADD R23 SP 0;; emit_addsub_immediate true AS_SUB SP SP UBPF_EBPF_STACK_SIZE
        else
          emit_addsub_immediate true AS_ADD R23 R2 0;; emit_addsub_register true AS_ADD R23 R23 R3)
    (code_bytes (if decide (mode = BasicJitMode) then [0x910003f7; 0xd14007ff] else [0x91000057; 0x8b0302f7])).
Proof.
  destruct (decide (mode = BasicJitMode)).
  - apply (puts_code _ _ [_] [_]); [puts_word 0x910003f7 | puts_word 0xd14007ff].
  - apply (puts_code _ _ [_] [_]); [puts_word 0x91000057 | puts_word 0x8b0302f7].
Qed.

Lemma prologue_body_budget mode : in_budget 44 2 (drop 1 (prologue_items mode)).
Proof.
  assert (length (prologue_words mode) = 9%nat) as L by (unfold prologue_words; by destruct (decide (mode = BasicJitMode))).
  pose proof (in_budget_bytes (prologue_words mode)) as B. rewrite L in B.
  apply (in_budget_app 36 0 8 2 [_]); [exact B |]. apply (in_budget_app 4 1 4 1 [_]); (apply in_budget_slot; [first [by left | by right; left] | done]).
Qed.

Lemma prologue_budget mode : in_budget 52 2 (prologue_items mode).
Proof. apply (in_budget_app 8 0 44 2 [_]); [exact (in_budget_bytes prologue_head) | apply prologue_body_budget]. Qed.

(** The first instructions, with the value the frame size has by then. *)
Lemma prologue_body_run st :
  st.(jstack_size) = 64 -> room 44 2 st ->
  emit_prologue_body UBPF_EBPF_STACK_SIZE st = Some (tt, asm (drop 1 (prologue_items st.(state_jit_mode))) st).
Proof.
  intros Hs Hroom. pose proof Hroom as (Hok & (Hlen & _) & _). set (mode := st.(state_jit_mode)).
  assert (length (code_bytes (prologue_words mode)) = 36%nat) as L by (rewrite length_code_bytes; unfold prologue_words; by destruct (decide _)).
  unfold emit_prologue_body. unfold mbind at 1, M_bind at 1, gets at 1. rewrite Hs.
  rewrite <- (put_nil st) at 1.
  eapply run_seq; [puts_word 0xd10103ff | done | cbn; lia |].
  eapply run_seq; [apply puts_save | done | cbn; lia |].
  eapply run_seq; [puts_word 0x910003fd | done | cbn; lia |].
  unfold mbind at 1, M_bind at 1, gets at 1. change (state_jit_mode (put _ st)) with mode.
  change (map_register 10) with (lift (Some R23) : M Z). unfold mbind at 1, M_bind at 1, lift at 1. cbn [fmap option_fmap option_map].
  eapply run_seq; [apply (puts_stack_end mode) | done | destruct (decide (mode = BasicJitMode)); cbn; lia |].
  eapply run_seq; [puts_word 0xaa0003fa | done | destruct (decide (mode = BasicJitMode)); cbn; lia |].
  match goal with |- context [put ?l st] => assert (l = code_bytes (prologue_words mode)) as ->
    by (unfold prologue_words; by destruct (decide (mode = BasicJitMode))) end.
  change (put (code_bytes (prologue_words mode)) st) with (asm [Bytes (code_bytes (prologue_words mode))] st).
  assert (in_budget 44 2 (drop 1 (prologue_items mode))) as B by apply prologue_body_budget.
  pose proof (room_ready _ _ _ _ Hroom B) as Hr. cbn [drop prologue_items] in Hr |- *.
  destruct (ready_app [Bytes (code_bytes (prologue_words mode))] _ _ Hr) as [_ Hr1].
  destruct (ready_app [Slot Jumps (Special Enter) (branch_immediate_bits UBR_BL)] [_] _ Hr1) as [Hr2 Hr3].
  unfold mbind, M_bind. rewrite emits_branch_link by exact Hr2. rewrite emits_branch by exact Hr3. done.
Qed.

Lemma arm_prologue_run st :
  room 52 2 st ->
  emit_jit_prologue UBPF_EBPF_STACK_SIZE st =
  Some (tt, set_entry_loc (asm (prologue_items st.(state_jit_mode)) st).(joffset) (set_jstack_size 64 (asm (prologue_items st.(state_jit_mode)) st))).
Proof.
  intros Hroom. pose proof Hroom as (Hok & (Hlen & _) & _).
  assert (puts (emit_addsub_immediate true AS_SUB SP SP 16;; emit_loadstorepair_immediate LSP_STPX R29 R30 SP 0) (code_bytes prologue_head)) as P1
    by (apply (puts_code _ _ [_] [_]); [puts_word 0xd10043ff | puts_word 0xa9007bfd]).
  set (st1 := asm [Bytes (code_bytes prologue_head)] st).
  assert (room 44 2 (set_jstack_size 64 st1)) as Hroom1.
  { eapply room_same; [| | | | | | apply (room_asm 8 0); [exact Hroom | exact (in_budget_bytes prologue_head) | lia]]; first [done | by intros []]. }
  pose proof (prologue_body_run (set_jstack_size 64 st1) eq_refl Hroom1) as E2. change (state_jit_mode (set_jstack_size 64 st1)) with (state_jit_mode st) in E2.
  unfold emit_jit_prologue.
  assert (forall (m1 m2 : M unit) (k : M unit), (m1;; m2;; k) st = ((m1;; m2);; k) st) as Ea by (intros; by rewrite bind_assoc).
  rewrite Ea. unfold mbind at 1, M_bind at 1. rewrite P1 by (done || (cbn; lia)). unfold mbind at 1, M_bind at 1, modify at 1.
  change (Z.of_nat (length callee_saved_registers) * 8) with 64. change (put (code_bytes prologue_head) st) with st1.
  unfold mbind, M_bind. rewrite E2. unfold modify. rewrite asm_set_jstack_size. unfold st1. by rewrite <- asm_app.
Qed.

(** ** After the loop *)

(** [mov x0, x5; mov sp, x29], the callee-saved registers, [add sp, sp, #64;
    ldp x29, x30, [sp]; add sp, sp, #16; ret] *)
Definition epilogue_words : list Z :=
  [0xaa0503e0; 0x910003bf; 0xa94053f3; 0xa9415bf5; 0xa94263f7; 0xa9436bf9; 0x910103ff; 0xa9407bfd; 0x910043ff; 0xd65f03c0].

Lemma arm_epilogue_run st :
  st.(jstack_size) = 64 -> room 40 0 st ->
  emit_jit_epilogue st = Some (tt, asm [Bytes (code_bytes epilogue_words)] (set_exit_loc st.(joffset) st)).
Proof.
  intros Hs Hroom. unfold emit_jit_epilogue. unfold mbind at 1, M_bind at 1, modify.
  assert (room 40 0 (set_exit_loc st.(joffset) st)) as Hroom' by (eapply room_same; [.. | exact Hroom]; first [done | by intros []]).
  assert (jstack_size (set_exit_loc st.(joffset) st) = 64) as Hs' by done.
  set (st1 := set_exit_loc st.(joffset) st) in *. clearbody st1. destruct Hroom' as (Hok & (Hlen & _) & _).
  change (map_register 0) with (lift (Some R5) : M Z). unfold mbind at 1, M_bind at 1, lift at 1. cbn [fmap option_fmap option_map].
  change (when (negb (R5 =? R0)) ?m) with m. rewrite <- (put_nil st1) at 1.
  eapply run_seq; [puts_word 0xaa0503e0 | done | cbn; lia |].
  eapply run_seq; [puts_word 0x910003bf | done | cbn; lia |].
  eapply run_seq; [apply puts_restore | done | cbn; lia |].
  unfold mbind at 1, M_bind at 1, gets at 1. change (jstack_size (put _ st1)) with (jstack_size st1). rewrite Hs'.
  eapply run_seq; [puts_word 0x910103ff | done | cbn; lia |].
  eapply run_seq; [puts_word 0xa9407bfd | done | cbn; lia |].
  eapply run_seq; [puts_word 0x910043ff | done | cbn; lia |].
  assert (puts (emit_unconditionalbranch_register BR_RET R30) (code_bytes [0xd65f03c0])) as P by puts_word 0xd65f03c0.
  rewrite P; [| apply put_ok; [done | cbn; lia] | cbn; lia].
  rewrite put_put by (done || (cbn; lia)). done.
Qed.

Lemma arm_puts_emit_bytes bs : puts (emit_bytes bs) bs.
Proof. intros st Hok Hlen. by apply arm_emit_bytes_run. Qed.

(** No padding is needed before the dispatcher. *)
Lemma dispatcher_address_run d st :
  (4 | st.(joffset)) ->
  emit_dispatched_external_helper_address d st = (o ← gets joffset; emit_bytes (le_encode 8 d);; mret o) st.
Proof.
  intros [q Hq]. unfold emit_dispatched_external_helper_address. unfold mbind at 1, M_bind at 1, gets at 1.
  replace ((4 - joffset st mod 4) mod 4) with 0 by (rewrite Hq, Z_mod_mult; done). done.
Qed.

(** ** The whole translation *)

(** A position in the code: a multiple of four inside it. *)
Definition in_code (its : list item) (p : Z) : Prop := (4 | p) /\ 0 <= p <= code_len its.

Lemma in_code_app its its' p : in_code its p -> in_code (its ++ its') p.
Proof. intros [? ?]. split; [done |]. rewrite code_len_app. pose proof (code_len_nonneg its'). lia. Qed.

Lemma in_code_end its its' : Forall item_ok its -> in_code (its ++ its') (code_len its).
Proof.
  intros Hi. split; [exact (items_aligned its Hi) |]. rewrite code_len_app.
  pose proof (code_len_nonneg its). pose proof (code_len_nonneg its'). lia.
Qed.

(** The finished code before linking. *)
Record arm_image (vm : ubpf_vm) (prog : list ebpf_inst) (buffer : list Z) (its : list item) (st : jit_state) : Prop := ArmImage {
  am_laid : laid_out buffer its st;
  am_bytes : code_len its <= 612 + 232 * Z.of_nat (length prog);
  am_items : Forall item_ok its;
  am_prolog : prog <> [] -> st.(bpf_function_prolog_size) = 12;
  am_prolog_or : st.(bpf_function_prolog_size) = 0 \/ st.(bpf_function_prolog_size) = 12;
  am_entry : in_code its st.(entry_loc);
  am_exit : in_code its st.(exit_loc);
  am_main : st.(entry_loc) = 52 /\ (prog <> [] -> st.(pc_locs) !! 0 = Some 64);
  am_locs : locs_ok its st.(pc_locs);
  am_placed : forall k inst, start prog k -> prog !! Z.to_nat k = Some inst ->
    exists op last, switch_op inst.(opcode) = Some op /\
      arm_placed vm its st.(pc_locs) (Z.of_nat (length prog)) last k inst op;
  am_data : exists a, its = a ++ [Bytes (le_encode 8 vm.(dispatcher)); Bytes (vm.(ext_funcs) ≫= le_encode 8)] /\
    st.(dispatcher_loc) = code_len a /\ st.(helper_table_loc) = code_len a + 8;
}.

(** The prologue in front and the epilogue behind the code of the instructions. *)
Definition arm_shell (mode : JitMode) (its : list item) (st : jit_state) : Prop :=
  exists body data, its = prologue_items mode ++ body ++ Bytes (code_bytes epilogue_words) :: data /\
    st.(exit_loc) = code_len (prologue_items mode ++ body).

Lemma length_prologue mode : code_len (prologue_items mode) = 52.
Proof.
  unfold prologue_items. rewrite !code_len_cons. cbn [item_bytes]. rewrite !length_code_bytes, !length_le_encode.
  unfold prologue_words. by destruct (decide (mode = BasicJitMode)).
Qed.

Section Whole.
Context `{HostEnv} (vm : ubpf_vm) (prog : list ebpf_inst) (buffer : list Z).
Context (Hld : loaded vm prog) (Hty : usages_typed vm) (Hlim : Z.of_nat (length buffer) <= ARM_CODE_LIMIT).
Context (Hext : Z.of_nat (length vm.(ext_funcs)) = MAX_EXT_FUNCS).

(** What is emitted when the loop is done. *)
Definition arm_tail : M (result unit jit_error) :=
  emit_jit_epilogue;;
  dispatcher_loc ← emit_dispatched_external_helper_address vm.(dispatcher);
  modify (set_dispatcher_loc dispatcher_loc);;
  helper_table_loc ← emit_helper_table vm;
  modify (set_helper_table_loc helper_table_loc);;
  mret (Ok tt).

Lemma arm_tail_fields o2 o3 bs cs st :
  let st' := set_helper_table_loc o3 (put cs (set_dispatcher_loc o2 (put bs st))) in
  st'.(pc_locs) = st.(pc_locs) /\ st'.(bpf_function_prolog_size) = st.(bpf_function_prolog_size) /\
  st'.(exit_loc) = st.(exit_loc) /\ st'.(entry_loc) = st.(entry_loc) /\
  st'.(dispatcher_loc) = o2 /\ st'.(helper_table_loc) = o3.
Proof. done. Qed.

Lemma arm_tail_run its st :
  laid_out buffer its st -> fits buffer its 560 0 -> Forall item_ok its -> st.(jstack_size) = 64 ->
  exists st', arm_tail st = Some (Ok tt, st') /\
    let a := its ++ [Bytes (code_bytes epilogue_words)] in
    let c := a ++ [Bytes (le_encode 8 vm.(dispatcher))] in
    laid_out buffer (c ++ [Bytes (vm.(ext_funcs) ≫= le_encode 8)]) st' /\
    st'.(pc_locs) = st.(pc_locs) /\ st'.(bpf_function_prolog_size) = st.(bpf_function_prolog_size) /\
    st'.(exit_loc) = code_len its /\ st'.(entry_loc) = st.(entry_loc) /\
    st'.(dispatcher_loc) = code_len a /\ st'.(helper_table_loc) = code_len c.
Proof using Hext.
  intros Hlo Hfit Hi Hs.
  pose proof (in_budget_bytes epilogue_words) as Hb. set (epi := [Bytes (code_bytes epilogue_words)]) in *.
  pose proof (arm_epilogue_run st Hs) as Eepi. specialize (Eepi ltac:(eapply (fits_room buffer its _ 560 0); [done | done | lia | lia])).
  set (st1 := set_exit_loc st.(joffset) st) in *.
  assert (laid_out buffer its st1) as Hlo1 by (eapply laid_out_set; [exact Hlo | done .. | by intros []]).
  destruct (fits_asm buffer its epi st1 40 0 520 0 Hlo1 Hb Hfit ltac:(lia)) as [Hlo2 Hfit2].
  set (a := its ++ epi) in *. destruct (asm_locs epi st1) as (P3 & _ & _ & _ & P1 & P2). destruct (asm_frame epi st1) as [_ P4].
  set (st2 := asm epi st1) in *.
  destruct (data_step (TG := arm_target) buffer a st2 _ 8 512 _ set_dispatcher_loc (arm_puts_emit_bytes (le_encode 8 vm.(dispatcher)))) as (E4 & Hlo4 & Hfit4);
    [rewrite ?length_le_encode; by exists 2 | exact Hlo2 | by intros; apply set_dispatcher_laid | rewrite length_le_encode; lia | exact Hfit2 | lia |].
  set (c := a ++ [Bytes (le_encode 8 vm.(dispatcher))]) in *.
  pose proof (length_helper_table vm.(ext_funcs)) as Lt. assert (length vm.(ext_funcs) = 64%nat) as L64 by (unfold MAX_EXT_FUNCS in Hext; lia).
  destruct (data_step (TG := arm_target) buffer c (set_dispatcher_loc (code_len a) (put (le_encode 8 vm.(dispatcher)) st2)) _ 512 0 _ set_helper_table_loc
      (puts_helper_table vm (fun f => emit_bytes (le_encode 8 f)) (fun f => arm_puts_emit_bytes _) Hext)) as (E5 & Hlo5 & _);
    [unfold item_ok, arm_target, arm_item_ok; rewrite Lt, L64; by exists 128 | exact Hlo4 | by intros; apply set_helper_table_laid | rewrite Lt; lia | exact Hfit4 | lia |].
  eexists _. split; [| split; [exact Hlo5 |]].
  { unfold arm_tail. unfold mbind at 1, M_bind at 1. rewrite Eepi.
    assert (4 | st2.(joffset)) as Hal by (rewrite (lo_offset _ _ _ Hlo2); apply Hfit2).
    unfold mbind at 1, M_bind at 1. rewrite (dispatcher_address_run _ _ Hal). exact (eq_trans (E4 _ _) (E5 _ _)). }
  match goal with |- context [put ?bs st2] => match goal with |- context [put ?cs (set_dispatcher_loc ?o _)] =>
    destruct (arm_tail_fields (code_len a) (code_len c) bs cs st2) as (T1 & T2 & T3 & T4 & T5 & T6) end end.
  split; [exact (eq_trans T1 P1) |]. split; [exact (eq_trans T2 P2) |].
  split; [exact (eq_trans T3 (eq_trans P3 (lo_offset _ _ _ Hlo))) |]. split; [exact (eq_trans T4 P4) |]. split; [exact T5 | exact T6].
Qed.

Lemma arm_translate_split st r st' :
  emit_jit_prologue UBPF_EBPF_STACK_SIZE st = Some (tt, st') ->
  translate_loop (S (Z.to_nat vm.(num_insts))) vm 0 None st' = Some (None, r) -> r.(jit_status) = NoError ->
  translate vm st = arm_tail r.
Proof.
  intros E1 E2 E3. unfold translate. unfold mbind at 1, M_bind at 1. rewrite E1. unfold mbind at 1, M_bind at 1.
  rewrite E2. unfold mbind at 1, M_bind at 1, gets. rewrite E3. reflexivity.
Qed.

(** *** The translation of a loaded program *)
Lemma arm_translate_image st :
  laid_out buffer [] st -> st.(bpf_function_prolog_size) = 0 -> st.(pc_locs) = ∅ ->
  612 + 232 * Z.of_nat (length prog) <= Z.of_nat (length buffer) ->
  exists its st', translate vm st = Some (Ok tt, st') /\ arm_image vm prog buffer its st' /\ arm_shell st.(state_jit_mode) its st'.
Proof using Hld Hty Hlim Hext.
  intros Hlo0 Hp0 Hl0 Hbuf. set (n := Z.of_nat (length prog)) in *.
  assert (fits buffer [] 52 2) as Hfit0.
  { eapply arm_fits; [exact Hlo0 | done | done | change (code_len []) with 0; lia |]. intros t. cbn. unfold UBPF_MAX_INSTS. lia. }
  pose proof (arm_prologue_run st ltac:(eapply fits_room; [exact Hlo0 | exact Hfit0 | lia | lia])) as Epro.
  pose proof (prologue_budget st.(state_jit_mode)) as Hpro. remember (prologue_items st.(state_jit_mode)) as pro eqn:Epr.
  destruct (fits_asm buffer [] pro st 52 2 0 0 Hlo0 Hpro Hfit0 ltac:(lia)) as [Hlo1 _]. cbn [app] in Hlo1.
  destruct Hpro as (Hpb & Hps & Hpi). destruct (asm_locs pro st) as (_ & _ & _ & _ & Pl & Pp).
  set (st1 := set_entry_loc _ _) in Epro.
  assert (laid_out buffer pro st1) as Hlo1' by (eapply laid_out_set; [exact Hlo1 | done .. | by intros []]).
  assert (arm_inv vm prog buffer 0 pro st1) as Hinv.
  assert (code_len pro = 52) as Lpro by (rewrite Epr; apply length_prologue).
  { constructor; [done | lia | intros t; specialize (Hps t); lia | done | cbn; by rewrite Pp | done | | | |].
    - cbn [entry_loc st1 set_entry_loc]. rewrite (lo_offset _ _ _ Hlo1). pose proof (in_code_end pro [] Hpi) as Hend. by rewrite app_nil_r in Hend.
    - cbn [entry_loc st1 set_entry_loc]. rewrite (lo_offset _ _ _ Hlo1). split; [done |]. split; [done | lia].
    - cbn. rewrite Pl, Hl0. apply map_Forall_empty.
    - intros k inst Hk%start_from_ge ?. lia. }
  destruct (arm_loop_run vm prog buffer Hld Hty Hlim (S (Z.to_nat vm.(num_insts))) 0 pro st1)
    as (body & st2 & Eloop & [Hlo2 Hb2 Hs2 Hok2 Hp2 Hf2 He2 (Hm2 & _ & Hm3) Hl2 Hpl2]); [rewrite (ld_num_insts _ _ Hld); lia | constructor | lia | done | lia |].
  fold n in Hlo2, Hb2, Hs2, Hp2, Hpl2. set (its := pro ++ body) in *.
  assert (fits buffer its 560 0) as Hfit2.
  { eapply arm_fits; [exact Hlo2 | done | done | lia |]. intros t. specialize (Hs2 t). unfold UBPF_MAX_INSTS, ARM_CODE_LIMIT in *. lia. }
  destruct (arm_tail_run its st2 Hlo2 Hfit2 Hok2 Hf2) as (st3 & Etail & Htail).
  assert (in_budget 40 0 [Bytes (code_bytes epilogue_words)]) as Hepi by exact (in_budget_bytes epilogue_words).
  set (epi := [Bytes (code_bytes epilogue_words)]) in *. cbv zeta in Htail. destruct Htail as (Hlo3 & Elocs & Eprolog & Eexit & Eentry & Edisp & Etab).
  assert (length vm.(ext_funcs) = 64%nat) as L64 by (unfold MAX_EXT_FUNCS in Hext; lia).
  pose proof (length_helper_table vm.(ext_funcs)) as Lt.
  rewrite <- !app_assoc in Hlo3. cbn [app] in Hlo3.
  set (data := [Bytes (le_encode 8 vm.(dispatcher)); Bytes (vm.(ext_funcs) ≫= le_encode 8)]) in *.
  exists (its ++ epi ++ data), st3. split.
  { rewrite (arm_translate_split st st2 st1); [done | done | done |]. apply Hlo2. }
  split; [| exists body, data; rewrite <- Epr; split; [unfold its; by rewrite <- !app_assoc | exact Eexit]].
  assert (code_len data = 520) as Ld.
  { unfold data. rewrite !code_len_cons. cbn [item_bytes]. rewrite Lt, L64, length_le_encode. reflexivity. }
  destruct Hepi as (Hel & _ & Hei). constructor.
  - done.
  - rewrite !code_len_app, Ld. fold n. lia.
  - apply Forall_app. split; [done |]. apply Forall_app. split; [done |].
    repeat constructor; unfold item_ok, arm_target, arm_item_ok; [by exists 2 | rewrite Lt, L64; by exists 128].
  - intros Hne. rewrite Eprolog, Hp2. destruct prog; [done |]. by rewrite (proj2 (Z.eqb_neq n 0)) by (cbn in n; lia).
  - rewrite Eprolog, Hp2. destruct (n =? 0); auto.
  - rewrite Eentry. by apply in_code_app.
  - rewrite Eexit. by apply in_code_end.
  - rewrite Eentry, Elocs. split; [done |]. intros Hne. apply Hm3. unfold n. destruct prog; [done | cbn; lia].
  - rewrite Elocs. by apply locs_ok_app.
  - intros k inst Hk Hinst. pose proof (lookup_lt_Some _ _ _ Hinst). pose proof (start_from_ge _ _ _ Hk).
    destruct (Hpl2 k inst Hk ltac:(lia) Hinst) as (op & Hop & Hpl). exists op, (epi ++ data). split; [done |].
    rewrite Elocs. by apply (arm_placed_app _ _ _ _ _ []).
  - exists (its ++ epi). split; [by rewrite <- app_assoc |]. split; [done |]. rewrite Etab, code_len_app. reflexivity.
Qed.
End Whole.
