(* ===== verification/Arm64Link.v ===== *)
(** * Arm64Link: the patching passes of the arm64 back end

    The back end as an instance of [Linker]: the patching passes fill the field of
    every branch, literal load and address computation with the distance to the
    place it stands for ([arm_resolves]).  The processor reads back the
    instruction that was emitted with exactly this distance
    ([relative_filled]). *)

From Stdlib Require Import ZArith Lia Bool.
From stdpp Require Import base list gmap strings numbers.
From S2P Require Import Prelude Ebpf Mem Vm JitSupport JitAsm JitLink Arm64Emit Arm64Isa Arm64Move Arm64Trans Arm64Cost.

Local Open Scope Z_scope.
Local Open Scope cbits_scope.

(** ** The places of slots *)

(** The position a slot stands for. *)
Definition arm_slot_target (st : jit_state) (t : slot_table) (tgt : PatchableTarget) : Z :=
  match t, tgt with
  | Jumps, Special Exit => st.(exit_loc)
  | Jumps, Special Enter => st.(entry_loc)
  | Jumps, Regular r =>
      if r.(jit_target_pc) =? 0 then default 0 (st.(pc_locs) !! r.(ebpf_target_pc)) else r.(jit_target_pc)
  | LocalCalls, Regular r => default 0 (st.(pc_locs) !! r.(ebpf_target_pc)) - st.(bpf_function_prolog_size)
  | Loads, _ => st.(dispatcher_loc)
  | Leas, _ => st.(helper_table_loc)
  | _, _ => 0
  end.

(** A word with the displacement [rel]: in the low 26 bits of B and BL, in the 19
    bits from bit 5 of the others. *)
Definition fill_word (w rel : Z) : Z :=
  if field w 26 5 =? 0x05 then w .| wrap 26 (rel .>> 2) else w .| (wrap 19 (rel .>> 2) .<< 5).

(** What can be linked: a displacement of 21 bits with its sign; ADR only
    forward. *)
Record arm_linkable (st : jit_state) (t : slot_table) (tgt : PatchableTarget) (w off : Z) : Prop := ArmLinkable {
  al_word : slot_word_ok t w;
  al_target : slot_target_ok t tgt;
  al_aligned : (4 | arm_slot_target st t tgt - off);
  al_offset : 0 <= off < 2 ^ 20;
  al_place : -16 <= arm_slot_target st t tgt < 2 ^ 20;
  al_range : - 2 ^ 20 <= arm_slot_target st t tgt - off < 2 ^ 20;
  al_forward : t = Leas -> off <= arm_slot_target st t tgt;
}.

(** ** The words *)

(** The instruction of a slot. *)
Definition relative_of (w : Z) : option a64_relative := fst <$> a64_decode_relative w.

Lemma wrap_shift2 n rel : 0 <= n -> 0 <= wrap n (rel .>> 2) < 2 ^ n.
Proof. apply wrap_range. Qed.

Ltac relative_word :=
  match goal with |- a64_decode_relative ?x = _ => let w := fresh "w" in set (w := x); unfold a64_decode_relative, flag;
    repeat (match goal with |- context [field w ?lo ?n] =>
              let E := fresh in eassert (field w lo n = _) as E by (subst w; one_field); rewrite !E; clear E end;
            cbn [Z.eqb Pos.eqb andb negb Bool.eqb]);
    subst w; reflexivity end.

(** The displacement of four times a value of [n] bits. *)
Lemma displacement_read n rel :
  0 < n -> (4 | rel) -> - 2 ^ (n + 1) <= rel < 2 ^ (n + 1) -> 4 * sext n (wrap n (rel .>> 2)) = rel.
Proof.
  intros Hn [q ->] Hr. rewrite Z.shiftr_div_pow2 by lia. change (2 ^ 2) with 4. rewrite Z_div_mult by lia.
  rewrite sext_wrap by lia. rewrite sext_id; [lia | lia |]. unfold signed_fits.
  replace (n + 1) with (n - 1 + 2) in Hr by lia. rewrite Z.pow_add_r in Hr by lia. lia.
Qed.

Lemma decode_relative_wrap w : a64_decode_relative (u32 w) = a64_decode_relative w.
Proof. unfold a64_decode_relative, flag. by rewrite !field_wrap by lia. Qed.

(** The words of each kind with [x] in their field. *)
Lemma relative_branch op x :
  op = UBR_B \/ op = UBR_BL -> 0 <= x < 2 ^ 26 ->
  a64_decode_relative (branch_immediate_bits op .| x) = Some (Branch (match op with UBR_BL => true | _ => false end), 4 * sext 26 x).
Proof. intros [-> | ->] Hx; cbn [branch_immediate_bits]; relative_word. Qed.

Lemma relative_cond c x :
  0 <= x < 2 ^ 19 ->
  a64_decode_relative (BR_Bcond .| condition_bits c .| (x .<< 5)) = Some (BranchCond (condition_bits c), 4 * sext 19 x).
Proof. intros Hx. unfold BR_Bcond. destruct c; cbn [condition_bits]; relative_word. Qed.

Lemma relative_literal rt x :
  is_reg rt -> 0 <= x < 2 ^ 19 ->
  a64_decode_relative (loadstore_bits LS_LDRL .| 0x08000000 .| rt .| (x .<< 5)) = Some (LoadLiteral rt, 4 * sext 19 x).
Proof. intros Hr Hx. unfold is_reg in Hr. cbn [loadstore_bits]. relative_word. Qed.

Lemma relative_address rd x :
  is_reg rd -> 0 <= x < 2 ^ 19 ->
  a64_decode_relative (0x10000000 .| rd .| (x .<< 5)) = Some (Address rd, sext 21 (4 * x + 0)).
Proof. intros Hr Hx. unfold is_reg in Hr. relative_word. Qed.

(** A filled word is the instruction it was, with the displacement. *)
Lemma relative_filled t w rel :
  slot_word_ok t w -> (4 | rel) -> - 2 ^ 20 <= rel < 2 ^ 20 -> (t = Leas -> 0 <= rel) ->
  exists i, relative_of w = Some i /\ a64_decode_relative (u32 (fill_word w rel)) = Some (i, rel).
Proof.
  intros Hw Ha Hr Hl. rewrite decode_relative_wrap. unfold relative_of, fill_word.
  pose proof (wrap_shift2 19 rel ltac:(lia)) as R19. pose proof (wrap_shift2 26 rel ltac:(lia)) as R26.
  assert (4 * sext 26 (wrap 26 (rel .>> 2)) = rel) as D26 by (apply displacement_read; done || lia).
  assert (4 * sext 19 (wrap 19 (rel .>> 2)) = rel) as D19 by (apply displacement_read; done || lia).
  assert (forall op, op = UBR_B \/ op = UBR_BL -> w = branch_immediate_bits op -> exists i,
    fst <$> a64_decode_relative w = Some i /\ a64_decode_relative (if field w 26 5 =? 0x05 then w .| wrap 26 (rel .>> 2)
      else w .| (wrap 19 (rel .>> 2) .<< 5)) = Some (i, rel)) as Hb.
  { intros op Hop ->. assert (field (branch_immediate_bits op) 26 5 = 5) as -> by (by destruct Hop as [-> | ->]).
    change (5 =? 5) with true. cbv iota. rewrite (relative_branch op _ Hop R26), D26. eexists. split; [| done]. by destruct Hop as [-> | ->]. }
  destruct t; cbn [slot_word_ok] in Hw.
  - destruct Hw as [Hw | [Hw | [c ->]]]; [by apply (Hb UBR_B); auto | by apply (Hb UBR_BL); auto |].
    assert ((field (BR_Bcond .| condition_bits c) 26 5 =? 5) = false) as -> by (by destruct c).
    rewrite (relative_cond c _ R19), D19. eexists. split; [| done]. by destruct c.
  - by apply (Hb UBR_BL); auto.
  - destruct Hw as (rt & Hrt & ->). unfold is_reg in Hrt.
    assert (field (loadstore_bits LS_LDRL .| 0x08000000 .| rt) 26 5 = 22) as -> by (cbn [loadstore_bits]; one_field).
    change (22 =? 5) with false. cbv iota. rewrite (relative_literal rt _ Hrt R19), D19. eexists. split; [| done].
    pose proof (relative_literal rt 0 Hrt ltac:(lia)) as E. rewrite Z.shiftl_0_l, Z.lor_0_r in E. by rewrite E.
  - destruct Hw as (rd & Hrd & ->). unfold is_reg in Hrd.
    assert (field (0x10000000 .| rd) 26 5 = 4) as -> by one_field.
    change (4 =? 5) with false. cbv iota. rewrite (relative_address rd _ Hrd R19). eexists. split.
    + pose proof (relative_address rd 0 Hrd ltac:(lia)) as E. rewrite Z.shiftl_0_l, Z.lor_0_r in E. by rewrite E.
    + do 2 f_equal. specialize (Hl eq_refl). destruct Ha as [q ->]. rewrite Z.shiftr_div_pow2 by lia. change (2 ^ 2) with 4.
      rewrite Z_div_mult by lia. rewrite wrap_id by lia. rewrite sext_id by (unfold signed_fits; lia). lia.
Qed.

(** ** The passes *)

Definition arm_resolve_one (t : slot_table) : patchable_relative -> M bool :=
  match t with
  | Jumps => resolve_jump
  | LocalCalls => resolve_local_call
  | Loads => resolve_load
  | Leas => resolve_lea
  end.

Lemma read_word_run off w st :
  0 <= off -> off + 4 <= Z.of_nat (length st.(buf)) -> bytes_at st.(buf) off 4 = le_encode 4 w ->
  read_word off st = Some (u32 w, st).
Proof.
  intros H0 H4 Hb. unfold read_word. rewrite (proj2 (Z.leb_le _ _)), (proj2 (Z.leb_le _ _)) by lia.
  cbn [andb]. by rewrite Hb, le_decode_encode.
Qed.

Lemma write_word_run off v st :
  0 <= off -> off + 4 <= Z.of_nat (length st.(buf)) ->
  memcpy_buf off (le_encode 4 v) st = Some (tt, set_buf (write_bytes st.(buf) off (le_encode 4 v)) st).
Proof. intros. apply memcpy_run; rewrite ?length_le_encode; lia. Qed.

(** The words of slots have 32 bits. *)
Lemma slot_word_fits t w : slot_word_ok t w -> u32 w = w.
Proof.
  intros Hw. apply wrap_id. destruct t; cbn [slot_word_ok] in Hw.
  - destruct Hw as [-> | [-> | [c ->]]]; [by cbn .. | by destruct c].
  - by subst.
  - destruct Hw as (rt & Hr & ->). unfold is_reg in Hr. cbn [loadstore_bits]. repeat apply lor_fits; lia.
  - destruct Hw as (rd & Hr & ->). unfold is_reg in Hr. repeat apply lor_fits; lia.
Qed.

(** A branch without its displacement. *)
Definition branch_word (w : Z) : Prop := slot_word_ok Jumps w.

Lemma aligned_land rel : (4 | rel) -> (rel .& 3 =? 0) = true.
Proof. intros [q ->]. change 3 with (Z.ones 2). rewrite land_ones_wrap by lia. apply Z.eqb_eq, Z_mod_mult. Qed.

Lemma small_sign n rel : 0 <= n -> - 2 ^ n <= rel < 2 ^ n -> ((rel .>> n =? -1) || (rel .>> n =? 0)) = true.
Proof.
  intros Hn Hr. rewrite Z.shiftr_div_pow2 by lia. destruct (decide (0 <= rel)).
  - rewrite (Z.div_small rel) by lia. done.
  - assert (rel / 2 ^ n = -1) as -> by (symmetry; apply (Z.div_unique rel (2 ^ n) (-1) (rel + 2 ^ n)); lia). done.
Qed.

Lemma resolve_branch_run off w rel st :
  branch_word w -> 0 <= off -> off + 4 <= Z.of_nat (length st.(buf)) -> bytes_at st.(buf) off 4 = le_encode 4 w ->
  (4 | rel) -> - 2 ^ 20 <= rel < 2 ^ 20 ->
  resolve_branch_immediate off rel st =
  Some (tt, set_buf (write_bytes st.(buf) off (le_encode 4 (fill_word w rel))) st).
Proof.
  intros Hw H0 H4 Hb Ha Hr. unfold resolve_branch_immediate. rewrite (aligned_land rel Ha). cbv zeta.
  assert (- 2 ^ 18 <= rel .>> 2 < 2 ^ 18) as Hq.
  { rewrite Z.shiftr_div_pow2 by lia. destruct Ha as [q ->]. change (2 ^ 2) with 4. rewrite Z_div_mult by lia. lia. }
  unfold mbind at 1, M_bind at 1, assertion at 1, mret at 1, M_ret at 1.
  unfold mbind at 1, M_bind at 1. rewrite (read_word_run off w) by done. rewrite (slot_word_fits Jumps) by done.
  rewrite (small_sign 19), (small_sign 26) by lia. unfold fill_word.
  change 0x7ffff with (Z.ones 19). change 0x03ffffff with (Z.ones 26). rewrite !land_ones_wrap by lia.
  destruct Hw as [-> | [-> | [c ->]]]; [| | destruct c];
    (lazymatch goal with |- context [if ?b then _ else _] => idtac end; cbn; apply write_word_run; done).
Qed.

(** The distance as the passes compute it. *)
Lemma rel_exact x off : - 2 ^ 21 <= x <= 2 ^ 21 -> 0 <= off < 2 ^ 20 -> s32 (s32 x - off) = x - off.
Proof. intros. rewrite (sext_id 32 x), sext_id; unfold signed_fits; lia. Qed.

Lemma sext_sub_l w x y : 0 < w -> sext w (sext w x - y) = sext w (x - y).
Proof. intros. rewrite <- sext_wrap, <- wrap_sub_l, wrap_sext, wrap_sub_l, sext_wrap by lia. done. Qed.

Lemma arm_jump_target st tgt :
  slot_target_ok Jumps tgt -> jump_target_loc st tgt = Some (Some (arm_slot_target st Jumps tgt)).
Proof.
  destruct tgt as [[] | [e j n]]; cbn; try done. intros (_ & _ & He). destruct (Z.eqb_spec j 0); [| done].
  cbn [negb]. by rewrite pc_loc_in by done.
Qed.

Lemma aligned_rem rel : (4 | rel) -> (Z.rem rel 4 =? 0) = true.
Proof. intros H. apply Z.eqb_eq, Z.rem_divide; done. Qed.

(** What each pass does to one of its slots. *)
Lemma arm_resolve_one_ok t tgt w off st :
  arm_linkable st t tgt w off -> off + 4 <= Z.of_nat (length st.(buf)) ->
  bytes_at st.(buf) off 4 = le_encode 4 w ->
  arm_resolve_one t (Patch off tgt) st =
  Some (true, set_buf (write_bytes st.(buf) off (le_encode 4 (fill_word w (arm_slot_target st t tgt - off)))) st).
Proof.
  intros [Hw Ht Ha Ho Hp Hr Hf] H4 Hb. pose proof (slot_word_fits t w Hw) as Ew.
  destruct t; cbn [arm_resolve_one].
  - unfold resolve_jump. unfold mbind at 1, M_bind at 1. cbn [target offset_loc]. rewrite (arm_jump_target st tgt Ht).
    cbn [fmap option_fmap option_map]. rewrite rel_exact by lia. unfold mbind, M_bind.
    by rewrite (resolve_branch_run off w) by (done || lia).
  - destruct tgt as [| [e j n]]; [done |]. unfold resolve_local_call, mbind, M_bind, gets. cbn [target offset_loc ebpf_target_pc].
    cbn in Ht. rewrite pc_loc_in by done. cbn [fmap option_fmap option_map].
    cbn [arm_slot_target ebpf_target_pc] in *. set (loc := default 0 _) in *.
    assert (s32 (s32 (s32 loc - off) - st.(bpf_function_prolog_size)) = loc - st.(bpf_function_prolog_size) - off) as ->.
    { rewrite (sext_sub_l 32 loc off), sext_sub_l by lia. rewrite sext_id by (unfold signed_fits; lia). lia. }
    rewrite (resolve_branch_run off w); [done | by right; left | lia | done .. ].
  - destruct tgt as [[] |]; try done. destruct Hw as (rt & Hrt & ->). unfold resolve_load. cbn [target]. rewrite decide_True by done.
    unfold mbind at 1, M_bind at 1, gets. cbn [offset_loc arm_slot_target] in *. rewrite rel_exact by lia.
    rewrite aligned_rem by done. unfold resolve_load_literal, assertion, mbind, M_bind, mret, M_ret.
    erewrite read_word_run by (done || lia). rewrite Ew, write_word_run by lia. unfold fill_word.
    unfold is_reg in Hrt. assert (field (loadstore_bits LS_LDRL .| 0x08000000 .| rt) 26 5 = 22) as -> by (cbn [loadstore_bits]; one_field).
    rewrite Z.land_comm. change 0x7ffff with (Z.ones 19). by rewrite land_ones_wrap by lia.
  - destruct tgt as [[] |]; try done. destruct Hw as (rd & Hrd & ->). unfold resolve_lea. cbn [target]. rewrite decide_True by done.
    unfold mbind at 1, M_bind at 1, gets. cbn [offset_loc arm_slot_target] in *. rewrite rel_exact by lia.
    rewrite aligned_rem by done. unfold resolve_adr, assertion, mbind, M_bind, mret, M_ret.
    erewrite read_word_run by (done || lia). rewrite Ew, write_word_run by lia. unfold fill_word.
    unfold is_reg in Hrd. assert (field (0x10000000 .| rd) 26 5 = 4) as -> by one_field.
    change 0x00ffffff with (Z.ones 24). rewrite land_ones_wrap by lia. specialize (Hf eq_refl).
    assert (0 <= (helper_table_loc st - off) .>> 2 < 2 ^ 18) as Hq.
    { rewrite Z.shiftr_div_pow2 by lia. split; [apply Z.div_pos; lia | apply Z.div_lt_upper_bound; lia]. }
    rewrite (wrap_id 24), (wrap_id 19) by lia. rewrite wrap_id; [done |]. rewrite Z.shiftl_mul_pow2 by lia. lia.
Qed.

#[export, refine] Instance arm_linker : Linker := {|
  linkable := arm_linkable;
  filled := fun st t tgt w off => le_encode 4 (fill_word w (arm_slot_target st t tgt - off));
  resolve_slot := arm_resolve_one;
|}.
Proof.
  - intros. apply length_le_encode.
  - intros st t tgt w off b Hl H0 H4 _ Hb. assert (arm_linkable (set_buf b st) t tgt w off) as Hl' by (destruct Hl; by constructor).
    exact (arm_resolve_one_ok t tgt w off (set_buf b st) Hl' H4 Hb).
Defined.

Lemma arm_resolves buffer its st :
  laid_out buffer its st -> items_ok (arm_linkable st) 0 its ->
  resolve_passes st = Some (true, set_buf (linked_code (LK := arm_linker) buffer its st) st).
Proof.
  intros Hlo Hok. pose proof (resolve_pass (LK := arm_linker) buffer its st Hlo Hok) as Hpass.
  pose proof (Hpass Jumps [] ltac:(by apply (bool_decide_unpack _))) as P1.
  pose proof (Hpass Loads [Jumps] ltac:(by apply (bool_decide_unpack _))) as P2.
  pose proof (Hpass Leas [Loads; Jumps] ltac:(by apply (bool_decide_unpack _))) as P3.
  pose proof (Hpass LocalCalls [Leas; Loads; Jumps] ltac:(by apply (bool_decide_unpack _))) as P4.
  cbn [resolve_slot arm_resolve_one arm_linker table_of] in *.
  unfold resolve_passes, resolve_jumps, resolve_loads, resolve_leas, resolve_local_calls, mbind, M_bind, gets.
  rewrite (linked_none (LK := arm_linker) buffer its st Hlo) at 1 2.
  cbn [jumps set_buf]. rewrite P1. cbn [negb loads set_buf]. rewrite P2. cbn [negb leas set_buf]. rewrite P3.
  cbn [negb local_calls set_buf]. rewrite P4. rewrite linked_all; [done |]. intros []; set_solver.
Qed.
