(* ===== verification/Arm64Cpu.v ===== *)
(** * Arm64Cpu: running arm64 code

    The processor with a program counter and memory, on position-independent code:
    the data-processing instructions of [Arm64Isa], the loads and stores of
    [Arm64Mem], also through the stack pointer, branches and conditional branches,
    branches with a link and returns, arithmetic on the stack pointer and accesses of
    pairs of registers.  Straight-line
    code runs to its end, a linked branch goes where it was linked.  Compiled code is
    mapped without the permission to write, so the code is not part of the memory. *)

From Stdlib Require Import ZArith Lia Bool.
From stdpp Require Import base list gmap strings numbers relations.
From S2P Require Import Prelude Ebpf Mem Vm JitSupport JitAsm JitLink Arm64Emit Arm64Isa Arm64Move Arm64Trans Arm64Cost.
From S2P Require Import Arm64Run Arm64Mem Arm64Link.

Local Open Scope Z_scope.
Local Open Scope cbits_scope.

(** ** The processor *)

(** Positions are relative to the start of the code, which is at the address
    [base]: links are addresses. *)
Record a64_cpu : Type := Cpu { cpu_pc : Z; cpu_sp : Z; cpu_regs : a64_state; cpu_mem : memory }.

Definition fetch_word (code : list Z) (p : Z) : option Z :=
  if (0 <=? p) && (p + 4 <=? Z.of_nat (length code)) then Some (le_decode (bytes_at code p 4)) else None.

(** *** The stack pointer, pairs and returns *)

Inductive a64_stack_inst : Type :=
| SpArith (sub : bool) (rd rn imm : Z)
| Pair (load : bool) (rt rt2 rn imm : Z)
| Return (rn : Z).

(** Addition and subtraction of an immediate where register 31 is the stack pointer;
    the 64-bit LDP and STP with an offset; RET. *)
Definition a64_decode_stack (w : Z) : option a64_stack_inst :=
  if field w 23 9 =? 0x152 then
    Some (Pair (flag w 22) (field w 0 5) (field w 10 5) (field w 5 5) (8 * sext 7 (field w 15 7)))
  else if (field w 10 22 =? 0x3597c0) && (field w 0 5 =? 0) then Some (Return (field w 5 5))
  else match a64_decode w with
       | Some (AddSubImm true sub false rd rn imm) => Some (SpArith sub rd rn imm)
       | _ => None
       end.

Definition base_value (sp : Z) (s : a64_state) (rn : Z) : Z := if rn =? 31 then sp else u64 (s.(xregs) rn).

(** An access through a stack pointer that is not aligned to 16 bytes faults. *)
Definition base_aligned (sp rn : Z) : bool := negb (rn =? 31) || (sp mod 16 =? 0).

Definition a64_exec_stack (base : Z) (i : a64_stack_inst) (c : a64_cpu) : option a64_cpu :=
  let '(Cpu p sp s m) := c in
  match i with
  | SpArith sub rd rn imm =>
      let v := u64 (if sub then base_value sp s rn - imm else base_value sp s rn + imm) in
      Some (if rd =? 31 then Cpu (p + 4) v s m else Cpu (p + 4) sp (write_reg s true rd v) m)
  | Pair load rt rt2 rn imm =>
      let a := u64 (base_value sp s rn + imm) in
      if negb (base_aligned sp rn) then None
      else if load then
        if rt =? rt2 then None
        else
          v ← deref m a 8;
          v2 ← deref m (u64 (a + 8)) 8;
          Some (Cpu (p + 4) sp (write_reg (write_reg s true rt v) true rt2 v2) m)
      else
        m ← store_bytes m a (le_encode 8 (read_reg s true rt));
        m ← store_bytes m (u64 (a + 8)) (le_encode 8 (read_reg s true rt2));
        Some (Cpu (p + 4) sp s m)
  | Return rn => Some (Cpu (read_reg s true rn - base) sp s m)
  end.

(** A load or store with register 31 as its base is through the stack pointer. *)
Definition access_base (i : a64_access) : Z := match i with LoadReg _ _ _ _ rn _ | StoreReg _ _ rn _ => rn end.

Definition a64_exec_sp_access (i : a64_access) (sp : Z) (s : a64_state) (m : memory) : option (a64_state * memory) :=
  if negb (base_aligned sp 31) then None
  else
    match i with
    | LoadReg size signed sf rt _ imm =>
        v ← deref m (u64 (sp + imm)) (Z.to_nat size);
        Some (write_reg s sf rt (if signed then sext (8 * size) v else v), m)
    | StoreReg size rt _ imm =>
        m ← store_bytes m (u64 (sp + imm)) (le_encode (Z.to_nat size) (read_reg s true rt));
        Some (s, m)
    end.

(** *** One instruction *)

(** [None] for those that are not modelled. *)
Definition cpu_step (base : Z) (code : list Z) (c : a64_cpu) : option a64_cpu :=
  let '(Cpu p sp s m) := c in
  w ← fetch_word code p;
  match a64_decode_relative w with
  | Some (Branch link, d) =>
      Some (Cpu (p + d) sp (if link then write_reg s true R30 (base + p + 4) else s) m)
  | Some (BranchCond b, d) => Some (Cpu (if condition_holds b s.(pstate) then p + d else p + 4) sp s m)
  | Some _ => None
  | None =>
      match a64_decode_access w with
      | Some i =>
          '(s, m) ← (if access_base i =? 31 then a64_exec_sp_access i sp s m else a64_exec_access i s m);
          Some (Cpu (p + 4) sp s m)
      | None =>
          match a64_step w s with
          | Some s => Some (Cpu (p + 4) sp s m)
          | None => i ← a64_decode_stack w; a64_exec_stack base i c
          end
      end
  end.

Definition cpu_steps (base : Z) (code : list Z) (c c' : a64_cpu) : Prop := cpu_step base code c = Some c'.
Definition cpu_reaches (base : Z) (code : list Z) : a64_cpu -> a64_cpu -> Prop := rtc (cpu_steps base code).

#[export] Instance cpu_reaches_preorder base code : PreOrder (cpu_reaches base code).
Proof. unfold cpu_reaches. apply _. Qed.

(** ** Decoding *)

Lemma decode_wrap w : a64_decode (u32 w) = a64_decode w.
Proof. unfold a64_decode, flag. cbv zeta. by rewrite !field_wrap by lia. Qed.

(** A field of a field. *)
Lemma field_sub w lo n lo' n' :
  0 <= lo <= lo' -> 0 <= n' -> lo' + n' <= lo + n -> field w lo' n' = field (field w lo n) (lo' - lo) n'.
Proof.
  intros. unfold field, wrap. apply Z.bits_inj'. intros k Hk. rewrite !Z.testbit_mod_pow2 by lia.
  destruct (Z.ltb_spec k n'); cbn [andb]; [| done]. rewrite !Z.shiftr_spec, Z.testbit_mod_pow2, Z.shiftr_spec by lia.
  rewrite (proj2 (Z.ltb_lt _ _)) by lia. cbn [andb]. f_equal. lia.
Qed.

(** Bits 24 to 28 tell the two kinds of instructions apart. *)
Lemma decode_major w i : a64_decode w = Some i -> field w 24 5 ∈ [0x0a; 0x0b; 0x11; 0x12; 0x13; 0x1a; 0x1b].
Proof.
  unfold a64_decode. cbv zeta. intros Hd.
  destruct (field w 23 6 =? 0x25) eqn:E1; [apply Z.eqb_eq in E1; rewrite (field_sub w 23 6), E1 by lia; by apply (bool_decide_unpack _) |].
  destruct (field w 24 5 =? 0x0a) eqn:E2; [apply Z.eqb_eq in E2; rewrite E2; by apply (bool_decide_unpack _) |].
  destruct (field w 24 5 =? 0x0b) eqn:E3; [apply Z.eqb_eq in E3; rewrite E3; by apply (bool_decide_unpack _) |].
  destruct (field w 23 6 =? 0x22) eqn:E4; [apply Z.eqb_eq in E4; rewrite (field_sub w 23 6), E4 by lia; by apply (bool_decide_unpack _) |].
  destruct (field w 24 5 =? 0x1b) eqn:E5; [apply Z.eqb_eq in E5; rewrite E5; by apply (bool_decide_unpack _) |]. cbn [andb] in Hd.
  destruct (field w 21 8 =? 0xd6) eqn:E6; [apply Z.eqb_eq in E6; rewrite (field_sub w 21 8), E6 by lia; by apply (bool_decide_unpack _) |].
  cbn [andb] in Hd.
  destruct (field w 23 6 =? 0x26) eqn:E7; [apply Z.eqb_eq in E7; rewrite (field_sub w 23 6), E7 by lia; by apply (bool_decide_unpack _) | done].
Qed.

Lemma decode_relative_major w r :
  a64_decode_relative w = Some r -> field w 24 5 ∉ [0x0a; 0x0b; 0x11; 0x12; 0x13; 0x1a; 0x1b].
Proof.
  unfold a64_decode_relative. intros Hd Hin.
  destruct (field w 26 5 =? 0x05) eqn:E1.
  { apply Z.eqb_eq in E1. assert (field w 26 3 = 5) as E by by rewrite (field_sub w 26 5), E1 by lia.
    rewrite (field_sub w 24 5) in E by lia. repeat (apply elem_of_cons in Hin as [Hin | Hin]; [by rewrite Hin in E |]). by apply elem_of_nil in Hin. }
  destruct (field w 24 8 =? 0x54) eqn:E2.
  { apply Z.eqb_eq in E2. rewrite (field_sub w 24 8), E2 in Hin by lia. revert Hin. by apply (bool_decide_unpack _). }
  destruct (field w 24 8 =? 0x58) eqn:E3.
  { apply Z.eqb_eq in E3. rewrite (field_sub w 24 8), E3 in Hin by lia. revert Hin. by apply (bool_decide_unpack _). }
  destruct (field w 24 5 =? 0x10) eqn:E4; [| done]. apply Z.eqb_eq in E4. rewrite E4 in Hin. revert Hin. by apply (bool_decide_unpack _).
Qed.

Lemma decode_disjoint w i : a64_decode w = Some i -> a64_decode_relative w = None.
Proof. intros H%decode_major. destruct (a64_decode_relative w) eqn:E; [by apply decode_relative_major in E | done]. Qed.

(** Bits 24 to 29 of loads and stores. *)
Lemma decode_access_major w i : a64_decode_access w = Some i -> field w 24 6 = 0x38.
Proof. unfold a64_decode_access. cbv zeta. destruct (Z.eqb_spec (field w 24 6) 0x38); [done |]. by cbn [andb]. Qed.

Lemma decode_access_disjoint w i : a64_decode w = Some i -> a64_decode_access w = None.
Proof.
  intros Hm%decode_major. destruct (a64_decode_access w) as [i' |] eqn:E; [| done]. apply decode_access_major in E.
  rewrite (field_sub w 24 6 24 5), E in Hm by lia. exfalso. revert Hm. by apply (bool_decide_unpack _).
Qed.

Lemma decode_access_relative w i : a64_decode_access w = Some i -> a64_decode_relative w = None.
Proof.
  intros E%decode_access_major. unfold a64_decode_relative.
  assert (field w 24 5 = 0x18) as E5 by (rewrite (field_sub w 24 6 24 5), E by lia; done). rewrite E5.
  destruct (Z.eqb_spec (field w 26 5) 0x05) as [E1 |].
  { assert (field w 26 3 = 5) as H1 by by rewrite (field_sub w 26 5 26 3), E1 by lia. by rewrite (field_sub w 24 6 26 3), E in H1 by lia. }
  assert (forall x, field w 24 8 = x -> field x 0 6 = 0x38) as Hx by (intros x <-; by rewrite (field_sub w 24 8 24 6) in E by lia).
  destruct (Z.eqb_spec (field w 24 8) 0x54) as [E2 |]; [by apply Hx in E2 |].
  destruct (Z.eqb_spec (field w 24 8) 0x58) as [E3 |]; [by apply Hx in E3 |]. done.
Qed.

(** ** Running *)

Lemma fetch_word_at code p : 0 <= p -> p + 4 <= Z.of_nat (length code) -> fetch_word code p = Some (le_decode (bytes_at code p 4)).
Proof. intros. unfold fetch_word. by rewrite (proj2 (Z.leb_le _ _)), (proj2 (Z.leb_le _ _)) by lia. Qed.

(** The first word of code at [p], and the rest. *)
Lemma bytes_at_words code p w ws :
  0 <= p -> p + 4 * Z.of_nat (S (length ws)) <= Z.of_nat (length code) ->
  bytes_at code p (4 * S (length ws)) = code_bytes (w :: ws) ->
  fetch_word code p = Some (u32 w) /\ bytes_at code (p + 4) (4 * length ws) = code_bytes ws.
Proof.
  intros Hp Hl Hb. rewrite fetch_word_at by lia.
  replace (4 * S (length ws))%nat with (4 + 4 * length ws)%nat in Hb by lia. rewrite bytes_at_split in Hb by done.
  unfold code_bytes in Hb. rewrite bind_cons in Hb. apply app_inj_1 in Hb as [Hw Hb].
  2:{ rewrite length_le_encode. unfold bytes_at. rewrite length_take, length_drop. lia. }
  split; [| exact Hb]. by rewrite Hw, le_decode_encode.
Qed.

(** Straight-line code at [p] runs to its end. *)
Lemma cpu_straight base code p sp ws s s' m :
  0 <= p -> p + 4 * Z.of_nat (length ws) <= Z.of_nat (length code) ->
  bytes_at code p (4 * length ws) = code_bytes ws -> a64_run ws s = Some s' ->
  cpu_reaches base code (Cpu p sp s m) (Cpu (p + 4 * Z.of_nat (length ws)) sp s' m).
Proof.
  revert p s; induction ws as [| w ws IH]; intros p s Hp Hl Hb Hr.
  { injection Hr as <-. cbn [length]. rewrite Z.add_0_r. done. }
  cbn [a64_run] in Hr. destruct (a64_step w s) as [s1 |] eqn:Es; [| done]. cbn [mbind option_bind] in Hr. cbn [length] in *.
  destruct (bytes_at_words code p w ws Hp Hl Hb) as [Hw Hb'].
  transitivity (Cpu (p + 4) sp s1 m).
  - apply rtc_once. unfold cpu_steps, cpu_step. rewrite Hw. cbn [mbind option_bind].
    unfold a64_step in *. rewrite decode_access_wrap, decode_wrap, decode_relative_wrap. destruct (a64_decode w) as [i |] eqn:Ed; [| done].
    rewrite (decode_disjoint w i Ed), (decode_access_disjoint w i Ed). cbn [mbind option_bind] in *. by rewrite Es.
  - replace (p + 4 * Z.of_nat (S (length ws))) with (p + 4 + 4 * Z.of_nat (length ws)) by lia. apply IH; [lia | lia | exact Hb' | done].
Qed.

(** ... and an access behind it. *)
Lemma cpu_access base code p sp ws w i s s' s'' m m' :
  0 <= p -> p + 4 * Z.of_nat (S (length ws)) <= Z.of_nat (length code) ->
  bytes_at code p (4 * length (ws ++ [w])) = code_bytes (ws ++ [w]) -> a64_run ws s = Some s' ->
  a64_decode_access w = Some i -> a64_exec_access i s' m = Some (s'', m') ->
  cpu_reaches base code (Cpu p sp s m) (Cpu (p + 4 * Z.of_nat (S (length ws))) sp s'' m').
Proof.
  intros Hp Hl Hb Hr Hd He. rewrite length_app in Hb. cbn [length] in Hb.
  replace (4 * (length ws + 1))%nat with (4 * length ws + 4)%nat in Hb by lia. rewrite bytes_at_split in Hb by done.
  unfold code_bytes in Hb. rewrite bind_app in Hb. apply app_inj_1 in Hb as [Hb Hw].
  2:{ change (ws ≫= le_encode 4) with (code_bytes ws). rewrite length_code_bytes. unfold bytes_at. rewrite length_take, length_drop. lia. }
  transitivity (Cpu (p + 4 * Z.of_nat (length ws)) sp s' m); [apply cpu_straight; [done | lia | exact Hb | done] |].
  apply rtc_once. unfold cpu_steps, cpu_step.
  destruct (bytes_at_words code (p + 4 * Z.of_nat (length ws)) w []) as [Ef _]; [lia | cbn [length]; lia | |].
  { replace (p + 4 * Z.of_nat (length ws)) with (p + Z.of_nat (4 * length ws)) by lia. exact Hw. }
  rewrite Ef. cbn [mbind option_bind]. rewrite decode_access_wrap, decode_relative_wrap, (decode_access_relative w i Hd), Hd.
  assert ((access_base i =? 31) = false) as -> by (destruct i; cbn in *; by destruct (rn =? 31)).
  rewrite He. cbn [mbind option_bind]. f_equal. f_equal. lia.
Qed.

(** The instruction at [off] and where it goes, as the processor reads them. *)
Definition relative_at (code : list Z) (off : Z) : option (a64_relative * Z) :=
  '(i, d) ← a64_decode_relative (le_decode (bytes_at code off 4)); Some (i, off + d).

Lemma cpu_relative base code p sp i q s m :
  0 <= p -> p + 4 <= Z.of_nat (length code) -> relative_at code p = Some (i, q) ->
  match i with
  | Branch link =>
      cpu_reaches base code (Cpu p sp s m) (Cpu q sp (if link then write_reg s true R30 (base + p + 4) else s) m)
  | BranchCond b => cpu_reaches base code (Cpu p sp s m) (Cpu (if condition_holds b s.(pstate) then q else p + 4) sp s m)
  | _ => True
  end.
Proof.
  intros Hp Hl Hr. unfold relative_at in Hr. destruct (a64_decode_relative _) as [[i' d] |] eqn:E; [| done].
  cbn [mbind option_bind] in Hr. injection Hr as -> <-. pose proof (fetch_word_at code p Hp Hl) as Ef.
  destruct i as [link | b | |]; try done; apply rtc_once; unfold cpu_steps, cpu_step; rewrite Ef; cbn [mbind option_bind]; by rewrite E.
Qed.
