(* ===== verification/Arm64Stack.v ===== *)
(** * Arm64Stack: code that uses the host stack

    Runs of words that go on from one to the next, among them arithmetic on the
    stack pointer and accesses of pairs of registers: registers stored in pairs in
    a part of the memory the program has nothing of are there to be loaded again,
    with any change of the other memory in between. *)

From Stdlib Require Import ZArith Lia Bool.
From stdpp Require Import base list gmap strings numbers relations.
From S2P Require Import Prelude Ebpf Mem Vm InterpSound JitSupport JitAsm JitLink Arm64Emit Arm64Isa Arm64Move Arm64Trans Arm64Cost.
From S2P Require Import Arm64Run Arm64Mem Arm64Link Arm64Cpu.

Local Open Scope Z_scope.
Local Open Scope cbits_scope.

(** ** Words that go on to the next *)

(** The processor without its position. *)
Record a64_host : Type := HostState { hs_sp : Z; hs_regs : a64_state; hs_mem : memory }.

Definition at_pc (p : Z) (x : a64_host) : a64_cpu := Cpu p x.(hs_sp) x.(hs_regs) x.(hs_mem).

Definition executes (w : Z) (x x' : a64_host) : Prop :=
  forall base code p, fetch_word code p = Some (u32 w) -> cpu_step base code (at_pc p x) = Some (at_pc (p + 4) x').

Inductive runs_words : list Z -> a64_host -> a64_host -> Prop :=
| runs_words_nil x : runs_words [] x x
| runs_words_cons w ws x x1 x2 : executes w x x1 -> runs_words ws x1 x2 -> runs_words (w :: ws) x x2.

Lemma runs_words_app ws vs x x1 x2 : runs_words ws x x1 -> runs_words vs x1 x2 -> runs_words (ws ++ vs) x x2.
Proof. induction 1; [done |]. intros. cbn [app]. econstructor; eauto. Qed.

Lemma runs_words_one w x x' : executes w x x' -> runs_words [w] x x'.
Proof. intros. econstructor; [done | constructor]. Qed.

Lemma cpu_words base code ws p x x' :
  runs_words ws x x' -> 0 <= p -> p + 4 * Z.of_nat (length ws) <= Z.of_nat (length code) ->
  bytes_at code p (4 * length ws) = code_bytes ws ->
  cpu_reaches base code (at_pc p x) (at_pc (p + 4 * Z.of_nat (length ws)) x').
Proof.
  intros Hr. revert p. induction Hr as [x | w ws x x1 x2 Hw Hr IH]; intros p Hp Hl Hb; cbn [length] in *.
  { by rewrite Z.add_0_r. }
  destruct (bytes_at_words code p w ws Hp Hl Hb) as [Hf Hb'].
  transitivity (at_pc (p + 4) x1); [apply rtc_once; by apply Hw |].
  replace (p + 4 * Z.of_nat (S (length ws))) with (p + 4 + 4 * Z.of_nat (length ws)) by lia. apply IH; [lia | lia | done].
Qed.

(** A data-processing instruction. *)
Lemma executes_plain w sp s s' m : a64_step w s = Some s' -> executes w (HostState sp s m) (HostState sp s' m).
Proof.
  intros Es base code p Hf. unfold cpu_step, at_pc. cbn [hs_sp hs_regs hs_mem]. rewrite Hf. cbn [mbind option_bind].
  unfold a64_step in *. rewrite decode_access_wrap, decode_wrap, decode_relative_wrap. destruct (a64_decode w) as [i |] eqn:Ed; [| done].
  rewrite (decode_disjoint w i Ed), (decode_access_disjoint w i Ed). cbn [mbind option_bind] in *. by rewrite Es.
Qed.

Lemma runs_plain ws sp s s' m : a64_run ws s = Some s' -> runs_words ws (HostState sp s m) (HostState sp s' m).
Proof.
  revert s. induction ws as [| w ws IH]; intros s; cbn [a64_run]; [intros [= <-]; constructor |].
  destruct (a64_step w s) as [s1 |] eqn:Es; [| done]. cbn [mbind option_bind]. intros Hr.
  econstructor; [by apply executes_plain | by apply IH].
Qed.

(** The word [w] is the instruction [i] on the stack. *)
Record stack_word (w : Z) (i : a64_stack_inst) : Prop := StackWord {
  sw_range : u32 w = w;
  sw_relative : a64_decode_relative w = None;
  sw_access : a64_decode_access w = None;
  sw_step : forall s, a64_step w s = None;
  sw_decode : a64_decode_stack w = Some i;
}.

Ltac stack_word := constructor; intros; vm_compute; reflexivity.

Lemma stack_step w i base code c :
  stack_word w i -> fetch_word code c.(cpu_pc) = Some (u32 w) -> cpu_step base code c = a64_exec_stack base i c.
Proof.
  intros [Hw Hr Ha Hs Hd] Hf. destruct c as [p sp s m]. unfold cpu_step. cbn [cpu_pc] in Hf. rewrite Hf. cbn [mbind option_bind].
  by rewrite Hw, Hr, Ha, Hs, Hd.
Qed.

Lemma executes_stack w i x x' :
  stack_word w i -> (forall base p, a64_exec_stack base i (at_pc p x) = Some (at_pc (p + 4) x')) -> executes w x x'.
Proof. intros Hw He base code p Hf. by rewrite (stack_step w i). Qed.

(** ** The stack pointer *)

Lemma executes_push w n sp s m :
  stack_word w (SpArith true 31 31 n) -> 0 <= sp - n -> sp < 2 ^ 64 -> 0 <= n -> executes w (HostState sp s m) (HostState (sp - n) s m).
Proof.
  intros Hw H0 H1 Hn. eapply executes_stack; [exact Hw |]. intros base p. cbn. unfold at_pc. cbn. by rewrite (wrap_id 64) by lia.
Qed.

Lemma executes_pop w n sp s m :
  stack_word w (SpArith false 31 31 n) -> 0 <= sp + n < 2 ^ 64 -> executes w (HostState sp s m) (HostState (sp + n) s m).
Proof.
  intros Hw H0. eapply executes_stack; [exact Hw |]. intros base p. cbn. unfold at_pc. cbn. by rewrite (wrap_id 64) by lia.
Qed.

Lemma executes_from_sp w rd sp s m :
  stack_word w (SpArith false rd 31 0) -> rd <> 31 -> 0 <= sp < 2 ^ 64 ->
  executes w (HostState sp s m) (HostState sp (write_reg s true rd sp) m).
Proof.
  intros Hw Hd Hs. eapply executes_stack; [exact Hw |]. intros base p. cbn.
  by rewrite (proj2 (Z.eqb_neq _ _)), Z.add_0_r, (wrap_id 64) by done.
Qed.

Lemma executes_to_sp w rn v sp s m :
  stack_word w (SpArith false 31 rn 0) -> rn <> 31 -> s.(xregs) rn = v -> 0 <= v < 2 ^ 64 ->
  executes w (HostState sp s m) (HostState v s m).
Proof.
  intros Hw Hn <- Hs. eapply executes_stack; [exact Hw |]. intros base p. cbn. unfold base_value.
  by rewrite (proj2 (Z.eqb_neq _ _)), Z.add_0_r, (wrap_id 64 (s.(xregs) rn)), (wrap_id 64) by done.
Qed.

(** ** Single registers *)

Definition access_word (w : Z) (i : a64_access) : Prop := u32 w = w /\ a64_decode_relative w = None /\ a64_decode_access w = Some i.

Lemma sp_access_step w i base code p sp s m s' m' :
  access_word w i -> access_base i = 31 -> fetch_word code p = Some (u32 w) -> a64_exec_sp_access i sp s m = Some (s', m') ->
  cpu_step base code (Cpu p sp s m) = Some (Cpu (p + 4) sp s' m').
Proof.
  intros (Hw & Hr & Ha) Hb Hf He. unfold cpu_step. rewrite Hf. cbn [mbind option_bind]. rewrite Hw, Hr, Ha, Hb. cbn [Z.eqb Pos.eqb]. by rewrite He.
Qed.

(** ** Pairs of registers *)

(** The registers of [l] have the values of [g] at [a]. *)
Fixpoint pairs_at (f : memory) (a : Z) (g : Z -> Z) (l : list (Z * Z)) : Prop :=
  match l with
  | [] => True
  | (r, r2) :: l => deref f a 8 = Some (g r) /\ deref f (a + 8) 8 = Some (g r2) /\ pairs_at f (a + 16) g l
  end.

Definition registers_of (l : list (Z * Z)) : list Z := l ≫= fun p => [p.1; p.2].

Lemma elem_of_pair q r r2 l : q ∈ registers_of ((r, r2) :: l) <-> q = r \/ q = r2 \/ q ∈ registers_of l.
Proof. unfold registers_of. rewrite bind_cons. cbn [fst snd app]. by rewrite !elem_of_cons. Qed.

Lemma deref_frame f f' a n b k :
  changes_only a n f f' -> b + Z.of_nat k <= a \/ a + n <= b -> deref f' b k = deref f b k.
Proof. intros [_ H] Hd. unfold deref. by rewrite (load_bytes_frame f f' b k) by (intros i Hi; apply H; lia). Qed.

Lemma pairs_at_frame f f' a n b g l :
  changes_only a n f f' -> b + 16 * Z.of_nat (length l) <= a \/ a + n <= b -> pairs_at f b g l -> pairs_at f' b g l.
Proof.
  intros Hc. revert b. induction l as [| [r r2] l IH]; intros b Hd; cbn [pairs_at length] in *; [done |].
  intros (H1 & H2 & H3). rewrite !(deref_frame f f' a n) by (done || lia). split; [done |]. split; [done |]. apply IH; [lia | done].
Qed.

Lemma pairs_at_ext f a g g' l : (forall q, q ∈ registers_of l -> g q = g' q) -> pairs_at f a g l -> pairs_at f a g' l.
Proof.
  revert a. induction l as [| [r r2] l IH]; intros a Hg; cbn [pairs_at]; [done |]. intros (H1 & H2 & H3).
  rewrite <- !Hg by (apply elem_of_pair; auto). split; [done |]. split; [done |]. apply IH; [| done]. intros q Hq. apply Hg, elem_of_pair. auto.
Qed.

Lemma changes_only_weaken a n b k f f' : changes_only a n f f' -> b <= a -> a + n <= b + k -> changes_only b k f f'.
Proof. intros [Hd H] ? ?. split; [done |]. intros i Hi. apply H. lia. Qed.

(** A 64-bit store. *)
Lemma store_word f a v :
  mapped f a 8 -> exists f', store_bytes f a (le_encode 8 v) = Some f' /\ deref f' a 8 = Some (u64 v) /\ changes_only a 8 f f'.
Proof.
  intros Hm. assert (length (le_encode 8 v) = 8%nat) as L by apply length_le_encode.
  destruct (store_bytes_mapped f a (le_encode 8 v)) as [f' Hf]; [by rewrite L |]. exists f'. split; [done |].
  apply store_bytes_spec in Hf as [Hc Hl]. rewrite L in Hc, Hl. split; [| done]. unfold deref. rewrite Hl. cbn [fmap option_fmap option_map].
  by rewrite le_decode_encode.
Qed.

(** The memory of the host, beside that of the program. *)
Lemma store_host (m f : memory) a bs f' : m ##ₘ f -> store_bytes f a bs = Some f' -> store_bytes (m ∪ f) a bs = Some (m ∪ f') /\ m ##ₘ f'.
Proof.
  intros Hd Hs. pose proof (store_bytes_spec _ _ _ _ Hs) as [[Hdom _] _].
  assert (m ##ₘ f') as Hd' by (apply map_disjoint_dom; rewrite Hdom; by apply map_disjoint_dom).
  split; [| done]. rewrite (map_union_comm m f), (map_union_comm m f') by done. by apply store_bytes_union.
Qed.

Lemma deref_host (m f : memory) a n v : m ##ₘ f -> deref f a n = Some v -> deref (m ∪ f) a n = Some v.
Proof.
  intros Hd. unfold deref. destruct (load_bytes f a n) as [bs |] eqn:E; [| done]. intros [= <-].
  by rewrite map_union_comm, (load_bytes_union f m a n bs E) by done.
Qed.

Definition fits_all (s : a64_state) (l : list (Z * Z)) : Prop := forall q, q ∈ registers_of l -> q <> 31 /\ fits64 (s.(xregs) q).

(** The words that store or load the registers of [l] at the stack pointer plus
    [imm] and on. *)
Inductive pair_words (load : bool) : Z -> list (Z * Z) -> list Z -> Prop :=
| pair_words_nil imm : pair_words load imm [] []
| pair_words_cons imm r r2 l w ws : stack_word w (Pair load r r2 31 imm) -> r <> r2 -> pair_words load (imm + 16) l ws ->
    pair_words load imm ((r, r2) :: l) (w :: ws).

Lemma executes_store_pair w r r2 imm sp s m f :
  stack_word w (Pair false r r2 31 imm) -> (16 | sp) -> 0 <= sp + imm -> sp + imm + 16 < 2 ^ 64 -> fits_all s [(r, r2)] ->
  m ##ₘ f -> mapped f (sp + imm) 16 ->
  exists f', executes w (HostState sp s (m ∪ f)) (HostState sp s (m ∪ f')) /\ m ##ₘ f' /\
    pairs_at f' (sp + imm) s.(xregs) [(r, r2)] /\ changes_only (sp + imm) 16 f f'.
Proof.
  intros Hw Hal H0 H1 Hfit Hd Hm.
  destruct (Hfit r) as [Hr Fr]; [apply elem_of_pair; auto |]. destruct (Hfit r2) as [Hr2 Fr2]; [apply elem_of_pair; auto |].
  destruct (store_word f (sp + imm) (s.(xregs) r)) as (f1 & E1 & V1 & C1); [intros i Hi; apply Hm; lia |].
  destruct (store_word f1 (sp + imm + 8) (s.(xregs) r2)) as (f2 & E2 & V2 & C2).
  { eapply changes_only_mapped; [exact C1 |]. intros i Hi. apply Hm. lia. }
  destruct (store_host m f _ _ _ Hd E1) as [S1 D1]. destruct (store_host m f1 _ _ _ D1 E2) as [S2 D2].
  exists f2. split; [| split; [done |]; split].
  - eapply executes_stack; [exact Hw |]. intros base p. unfold at_pc. cbn [a64_exec_stack hs_sp hs_regs hs_mem].
    assert (sp mod 16 = 0) as Hmod by (by apply Z.mod_divide). unfold base_aligned, base_value. cbn [Z.eqb Pos.eqb negb orb]. rewrite Hmod. cbn [Z.eqb negb].
    rewrite !(wrap_id 64 (sp + imm)), (wrap_id 64 (sp + imm + 8)), !read_operand by (done || lia). cbn [width].
    rewrite (wrap_id 64 (s.(xregs) r)), (wrap_id 64 (s.(xregs) r2)) by done. rewrite S1. cbn [mbind option_bind]. by rewrite S2.
  - cbn [pairs_at]. rewrite (deref_frame f1 f2 (sp + imm + 8) 8 (sp + imm) 8 C2) by lia. rewrite V1, V2.
    rewrite !(wrap_id 64) by done. done.
  - eapply changes_only_trans; eapply changes_only_weaken; try done; lia.
Qed.

(** Storing pairs. *)
Lemma stores_pairs l ws imm sp s m f :
  pair_words false imm l ws -> (16 | sp) -> 0 <= sp + imm -> sp + imm + 16 * Z.of_nat (length l) < 2 ^ 64 -> fits_all s l ->
  m ##ₘ f -> mapped f (sp + imm) (16 * Z.of_nat (length l)) ->
  exists f', runs_words ws (HostState sp s (m ∪ f)) (HostState sp s (m ∪ f')) /\ m ##ₘ f' /\
    pairs_at f' (sp + imm) s.(xregs) l /\ changes_only (sp + imm) (16 * Z.of_nat (length l)) f f'.
Proof.
  intros Hp. revert f. induction Hp as [imm | imm r r2 l w ws Hw _ Hp IH]; intros f Hal H0 H1 Hfit Hd Hm.
  { exists f. split; [constructor |]. split; [done |]. split; [done |]. apply changes_only_refl. }
  cbn [length] in *. destruct (executes_store_pair w r r2 imm sp s m f) as (f1 & E1 & D1 & P1 & C1); try done; [lia | | |].
  { intros q Hq. apply Hfit, elem_of_pair. apply elem_of_pair in Hq as [? | [? | Hq%elem_of_nil]]; [auto | auto | done]. }
  { intros i Hi. apply Hm. lia. }
  destruct (IH f1) as (f2 & E2 & D2 & P2 & C2); try done; [lia | lia | | |].
  { intros q Hq. apply Hfit, elem_of_pair. auto. }
  { eapply changes_only_mapped; [exact C1 |]. intros i Hi. apply Hm. lia. }
  exists f2. split; [by econstructor |]. split; [done |]. split.
  - assert (pairs_at f2 (sp + imm) s.(xregs) [(r, r2)]) as (V1 & V2 & _); [| by rewrite Z.add_assoc in P2].
    eapply pairs_at_frame; [exact C2 | cbn [length]; lia | done].
  - eapply changes_only_trans; eapply changes_only_weaken; try done; lia.
Qed.

(** Loading them again. *)
Lemma loads_pairs l ws imm sp s m f g :
  pair_words true imm l ws -> (16 | sp) -> 0 <= sp + imm -> sp + imm + 16 * Z.of_nat (length l) < 2 ^ 64 ->
  (forall q, q ∈ registers_of l -> q <> 31 /\ fits64 (g q)) -> m ##ₘ f -> pairs_at f (sp + imm) g l ->
  exists s', runs_words ws (HostState sp s (m ∪ f)) (HostState sp s' (m ∪ f)) /\
    (forall q, q ∈ registers_of l -> s'.(xregs) q = g q) /\ forall q, q ∉ registers_of l -> s'.(xregs) q = s.(xregs) q.
Proof.
  intros Hp. revert s. induction Hp as [imm | imm r r2 l w ws Hw Hne Hp IH]; intros s Hal H0 H1 Hfit Hd Hat.
  { exists s. split; [constructor |]. split; [| done]. intros q Hq. by apply elem_of_nil in Hq. }
  cbn [length pairs_at] in *. destruct Hat as (V1 & V2 & Hat).
  destruct (Hfit r) as [Hr Fr]; [apply elem_of_pair; auto |]. destruct (Hfit r2) as [Hr2 Fr2]; [apply elem_of_pair; auto |].
  set (s1 := write_reg (write_reg s true r (g r)) true r2 (g r2)).
  assert (executes w (HostState sp s (m ∪ f)) (HostState sp s1 (m ∪ f))) as E1.
  { eapply executes_stack; [exact Hw |]. intros base p. unfold at_pc. cbn [a64_exec_stack hs_sp hs_regs hs_mem].
    assert (sp mod 16 = 0) as Hmod by (by apply Z.mod_divide). unfold base_aligned, base_value. cbn [Z.eqb Pos.eqb negb orb]. rewrite Hmod. cbn [Z.eqb negb].
    rewrite !(wrap_id 64 (sp + imm)), (wrap_id 64 (sp + imm + 8)), (proj2 (Z.eqb_neq _ _) Hne) by lia.
    rewrite (deref_host m f _ _ _ Hd V1). cbn [mbind option_bind]. by rewrite (deref_host m f _ _ _ Hd V2). }
  destruct (IH s1) as (s2 & E2 & Hin & Hout); [done | lia | lia | intros q Hq; apply Hfit, elem_of_pair; auto | done | by rewrite Z.add_assoc |].
  exists s2. split; [by econstructor |].
  destruct (write_sets_reg s true r (g r) Hr) as [A1 A2 _]. destruct (write_sets_reg (write_reg s true r (g r)) true r2 (g r2) Hr2) as [B1 B2 _].
  cbn [width] in *. rewrite (wrap_id 64) in A1, B1 by done. fold s1 in B1, B2.
  split; intros q; rewrite elem_of_pair; [| intros [Hq1 [Hq2 Hq3]%Decidable.not_or]%Decidable.not_or; by rewrite Hout, B2, A2].
  destruct (decide (q ∈ registers_of l)) as [Hq | Hq]; [by intros; apply Hin |]. rewrite Hout by done.
  intros [-> | [-> | ?]]; [| done | done]. by rewrite B2, A1.
Qed.

(** ** A register at the stack pointer *)

Lemma executes_store_sp w r imm sp s m f :
  access_word w (StoreReg 8 r 31 imm) -> (16 | sp) -> 0 <= sp + imm -> sp + imm + 8 < 2 ^ 64 -> r <> 31 -> fits64 (s.(xregs) r) ->
  m ##ₘ f -> mapped f (sp + imm) 8 ->
  exists f', executes w (HostState sp s (m ∪ f)) (HostState sp s (m ∪ f')) /\ m ##ₘ f' /\
    deref f' (sp + imm) 8 = Some (s.(xregs) r) /\ changes_only (sp + imm) 8 f f'.
Proof.
  intros Hw Hal H0 H1 Hr Fr Hd Hm. destruct (store_word f (sp + imm) (s.(xregs) r) Hm) as (f1 & E1 & V1 & C1).
  destruct (store_host m f _ _ _ Hd E1) as [S1 D1]. rewrite (wrap_id 64) in V1 by done. exists f1. split; [| done].
  intros base code p Hf. eapply sp_access_step; [exact Hw | done | exact Hf |]. unfold a64_exec_sp_access, base_aligned.
  cbn [Z.eqb Pos.eqb negb orb hs_mem hs_sp hs_regs]. assert (sp mod 16 = 0) as -> by (by apply Z.mod_divide). cbn [Z.eqb negb].
  rewrite (wrap_id 64 (sp + imm)), read_operand by (done || lia). cbn [width]. rewrite (wrap_id 64 (s.(xregs) r)) by done.
  change (Z.to_nat 8) with 8%nat. by rewrite S1.
Qed.

Lemma executes_load_sp w r imm v sp s m f :
  access_word w (LoadReg 8 false true r 31 imm) -> (16 | sp) -> 0 <= sp + imm -> sp + imm + 8 < 2 ^ 64 ->
  m ##ₘ f -> deref f (sp + imm) 8 = Some v ->
  executes w (HostState sp s (m ∪ f)) (HostState sp (write_reg s true r v) (m ∪ f)).
Proof.
  intros Hw Hal H0 H1 Hd Hv base code p Hf. eapply sp_access_step; [exact Hw | done | exact Hf |]. unfold a64_exec_sp_access, base_aligned.
  cbn [Z.eqb Pos.eqb negb orb hs_mem hs_sp hs_regs]. assert (sp mod 16 = 0) as -> by (by apply Z.mod_divide). cbn [Z.eqb negb].
  rewrite (wrap_id 64 (sp + imm)) by lia. change (Z.to_nat 8) with 8%nat. by rewrite (deref_host m f _ _ _ Hd Hv).
Qed.
