(* ===== verification/Arm64Result.v ===== *)
(** * Arm64Result: the theorems on the arm64 back end

    For every program accepted by [ubpf_load] and a buffer that is large enough,
    and small enough for the displacements of branches: the translation succeeds
    and stays inside the buffer, the dispatcher slot and the helper table hold the
    VM's functions, every jump and every local call is linked to the code of its
    target.  Then the cases in which the code generator does not do what it means
    to. *)

From Stdlib Require Import ZArith Lia Bool.
From stdpp Require Import base list gmap strings numbers.
From S2P Require Import Prelude Ebpf InstValid Mem Vm Validate Load JitSupport JitAsm JitLink JitProg.
From S2P Require Import Arm64Emit Arm64Isa Arm64Move Arm64Trans Arm64Cost Arm64Run Arm64Code Arm64Sound Arm64Correct Arm64Link Arm64Cpu.

Local Open Scope Z_scope.
Local Open Scope cbits_scope.

(** ** Reading the linked code *)

Section Linked.
Context (vm : ubpf_vm) (prog : list ebpf_inst) (buffer : list Z) (its : list item) (st : jit_state).
Context (Hlim : Z.of_nat (length buffer) <= ARM_CODE_LIMIT) (Him : arm_image vm prog buffer its st).
Context (Hext : Z.of_nat (length vm.(ext_funcs)) = MAX_EXT_FUNCS).

Lemma arm_image_short : code_len its <= 2 ^ 20 - 4.
Proof using Hlim Him. pose proof (laid_out_fits _ _ _ (am_laid _ _ _ _ _ Him)). unfold ARM_CODE_LIMIT in Hlim. lia. Qed.

Lemma arm_prefix a b : its = a ++ b -> (4 | code_len a) /\ 0 <= code_len a <= code_len its.
Proof using Him.
  intros E. pose proof (am_items _ _ _ _ _ Him) as Hi. rewrite E in Hi |- *. apply Forall_app in Hi as [Ha _].
  rewrite code_len_app. pose proof (code_len_nonneg a). pose proof (code_len_nonneg b).
  split; [exact (items_aligned (TG := arm_target) a Ha) | lia].
Qed.

(** Positions of recorded code, or zero. *)
Lemma arm_loc_ok k : (4 | default 0 (st.(pc_locs) !! k)) /\ 0 <= default 0 (st.(pc_locs) !! k) <= code_len its.
Proof using Him.
  destruct (st.(pc_locs) !! k) as [p |] eqn:E; cbn; [exact (am_locs _ _ _ _ _ Him k p E) |].
  pose proof (code_len_nonneg its). split; [by exists 0 | lia].
Qed.

(** The data is behind the slots. *)
Lemma arm_slot_before_data a t tgt w b :
  its = a ++ Slot t tgt w :: b ->
  code_len a + 4 <= st.(dispatcher_loc) /\ st.(helper_table_loc) = st.(dispatcher_loc) + 8 /\ (4 | st.(dispatcher_loc)) /\
  st.(helper_table_loc) <= code_len its.
Proof using Him.
  destruct (am_data _ _ _ _ _ Him) as (c & E & -> & ->). intros E'. pose proof (arm_prefix _ _ E) as [Hc _].
  assert (exists c2, c = a ++ Slot t tgt w :: c2) as [c2 Ec].
  { rewrite E in E'. clear -E'. revert a E'. induction c as [| x c IH]; intros [| y a] E'; cbn in E'; simplify_eq.
    - destruct a as [| ? [| ? [| ? ?]]]; cbn in *; simplify_eq.
    - by exists c.
    - destruct (IH a) as [c2 ->]; [done |]. by exists c2. }
  split_and!; [| done | done |].
  - rewrite Ec, code_len_app, code_len_cons. cbn [item_bytes]. rewrite length_le_encode. pose proof (code_len_nonneg c2). lia.
  - rewrite E, code_len_app, code_len_cons. cbn [item_bytes]. rewrite length_le_encode.
    pose proof (code_len_nonneg [Bytes (vm.(ext_funcs) ≫= le_encode 8)]). lia.
Qed.

(** Every target lies in the code, a local call's at most a prolog before it. *)
Lemma arm_target_place a t tgt w b :
  its = a ++ Slot t tgt w :: b -> slot_target_ok t tgt ->
  (4 | arm_slot_target st t tgt) /\ -16 <= arm_slot_target st t tgt < 2 ^ 20.
Proof using Hlim Him.
  intros E Ht. pose proof arm_image_short. pose proof (arm_slot_before_data a t tgt w b E) as (H1 & H2 & H3 & H4).
  pose proof (arm_prefix _ _ E) as [_ Ha]. destruct t, tgt as [s | [e j n]]; try done; cbn [arm_slot_target].
  - destruct s; try done; [destruct (am_exit _ _ _ _ _ Him) | destruct (am_entry _ _ _ _ _ Him)]; split; done || lia.
  - cbn [jit_target_pc ebpf_target_pc slot_target_ok] in *. pose proof (arm_loc_ok e) as [? ?].
    destruct (j =? 0); [split; done || lia |]. destruct Ht as (? & ? & _). unfold ARM_CODE_LIMIT in *. split; done || lia.
  - pose proof (arm_loc_ok e) as [Hd ?]. cbn [ebpf_target_pc].
    destruct (am_prolog_or _ _ _ _ _ Him) as [-> | ->]; (split; [| lia]); [by rewrite Z.sub_0_r |].
    apply Z.divide_sub_r; [done | by exists 3].
  - split; [done | lia].
  - split; [| lia]. rewrite H2. apply Z.divide_add_r; [done | by exists 2].
Qed.

Lemma arm_slot_linkable a t tgt w b : its = a ++ Slot t tgt w :: b -> arm_linkable st t tgt w (code_len a).
Proof using Hlim Him.
  intros E. pose proof arm_image_short. pose proof (arm_slot_before_data a t tgt w b E) as (H1 & H2 & _ & H3).
  pose proof (arm_prefix _ _ E) as [Ha Hr]. pose proof (am_items _ _ _ _ _ Him) as Hi. rewrite E in Hi.
  apply Forall_app in Hi as [_ Hi]. apply list.Forall_cons in Hi as [[Hw Ht] _].
  destruct (arm_target_place a t tgt w b E Ht) as [Hd Hp].
  assert (code_len a + 4 <= code_len its) as H4.
  { rewrite E, code_len_app, code_len_cons. cbn [item_bytes]. rewrite length_le_encode. pose proof (code_len_nonneg b). lia. }
  constructor; [done | done | by apply Z.divide_sub_r | lia | done | lia |].
  intros ->. cbn [arm_slot_target]. destruct tgt; lia.
Qed.

Lemma arm_image_resolves : resolve_passes st = Some (true, set_buf (linked_code (LK := arm_linker) buffer its st) st).
Proof using Hlim Him.
  apply arm_resolves; [apply Him |]. apply items_ok_intro. intros a t tgt w b E. rewrite Z.add_0_l. by eapply arm_slot_linkable.
Qed.

(** A slot holds its instruction, with the place it stands for. *)
Lemma arm_linked_slot a t tgt w b :
  its = a ++ Slot t tgt w :: b ->
  exists i, relative_of w = Some i /\ code_len a + 4 <= code_len its /\
    relative_at (linked_code (LK := arm_linker) buffer its st) (code_len a) = Some (i, arm_slot_target st t tgt).
Proof using Hlim Him.
  intros E. destruct (arm_slot_linkable a t tgt w b E) as [Hw _ Ha _ _ Hr Hf].
  destruct (relative_filled t w _ Hw Ha Hr) as (i & Hi & Hd); [intros ->; specialize (Hf eq_refl); lia |].
  exists i. split; [done |]. split.
  { rewrite E, code_len_app, code_len_cons. cbn [item_bytes]. rewrite length_le_encode. pose proof (code_len_nonneg b). lia. }
  pose proof (linked_item (LK := arm_linker) _ _ _ (am_laid _ _ _ _ _ Him) _ _ _ E) as Hb.
  cbn [item_bytes filled arm_linker] in Hb. rewrite length_le_encode in Hb.
  unfold relative_at. rewrite Hb, le_decode_encode. change (8 * Z.of_nat 4) with 32. rewrite Hd.
  cbn [mbind option_bind]. do 2 f_equal. lia.
Qed.

(** The position of the code of the instruction at [k]. *)
Lemma arm_position k inst :
  start prog k -> prog !! Z.to_nat k = Some inst -> exists p, st.(pc_locs) !! k = Some p /\ in_code its p.
Proof using Him.
  intros Hk Hinst. destruct (am_placed _ _ _ _ _ Him k inst Hk Hinst) as (op & last & _ & [(a & pre & code & b & E & Hl & _)]).
  exists (code_len (a ++ pre)). split; [done |]. apply (arm_prefix _ (code ++ b)). by rewrite <- app_assoc.
Qed.

(** A slot in the code of an instruction. *)
Lemma arm_slot_in k inst op t tgt :
  start prog k -> prog !! Z.to_nat k = Some inst -> switch_op inst.(opcode) = Some op ->
  (forall code, arm_code vm k inst op code -> exists w, Slot t tgt w ∈ code) ->
  exists a w b p, its = a ++ Slot t tgt w :: b /\ st.(pc_locs) !! k = Some p /\ p <= code_len a /\ code_len a + 4 <= p + 216.
Proof using Him.
  intros Hk Hinst Hop Hcode.
  destruct (am_placed _ _ _ _ _ Him k inst Hk Hinst) as (op' & last & Hop' & [(a & pre & code & b & E & Hl & _ & Hic & _)]).
  assert (op' = op) as -> by congruence. pose proof (ac_budget _ _ _ _ _ Hic) as (Hlen & _).
  apply Hcode in Hic as [w (c1 & c2 & ->)%list_elem_of_split].
  exists (a ++ pre ++ c1), w, (c2 ++ b), (code_len (a ++ pre)).
  rewrite code_len_app, code_len_cons in Hlen. cbn [item_bytes] in Hlen. rewrite length_le_encode in Hlen.
  split; [rewrite E; by rewrite <- !app_assoc |]. split; [done |].
  rewrite !code_len_app. pose proof (code_len_nonneg c1). pose proof (code_len_nonneg c2). lia.
Qed.

(** The set-up of a frame before the code of a function. *)
Lemma arm_prolog_placed k inst :
  usages_typed vm -> start prog k -> prog !! Z.to_nat k = Some inst -> function_start vm k = true ->
  exists p usage, st.(pc_locs) !! k = Some p /\ 12 <= p <= code_len its /\ ubpf_stack_usage_for_local_func vm k = Some usage /\
    bytes_at (linked_code (LK := arm_linker) buffer its st) (p - 12) 12 = code_bytes (arm_prolog_words usage).
Proof using Him.
  intros Hty Hk Hinst Hf.
  destruct (am_placed _ _ _ _ _ Him k inst Hk Hinst) as (op & last & _ & [(a & pre & code & b & E & Hl & Hst & _)]).
  assert (exists usage pre1, ubpf_stack_usage_for_local_func vm k = Some usage /\ pre = pre1 ++ [arm_prolog_item usage])
    as (usage & pre1 & Hu & ->).
  { destruct Hst as [Hn | u _ Hu _ | u _ Hu]; [congruence | by exists u, [] |]. by eexists u, [_]. }
  pose proof (length_arm_prolog usage (usage_typed vm k usage Hty Hu)) as L. rewrite <- app_assoc in E. cbn [app] in E. rewrite app_assoc in E.
  assert (code_len (a ++ pre1 ++ [arm_prolog_item usage]) = code_len (a ++ pre1) + 12) as Ep.
  { rewrite !code_len_app, code_len_cons. unfold arm_prolog_item. cbn [item_bytes]. rewrite L. change (code_len []) with 0. lia. }
  exists (code_len (a ++ pre1) + 12), usage.
  pose proof (linked_item (LK := arm_linker) _ _ _ (am_laid _ _ _ _ _ Him) _ _ _ E) as Hb. unfold arm_prolog_item in Hb. cbn [item_bytes] in Hb.
  rewrite L in Hb. split; [by rewrite Hl, Ep |]. pose proof (code_len_nonneg (a ++ pre1)). split; [| split; [done |]].
  - rewrite <- Ep. destruct (arm_prefix (a ++ pre1 ++ [arm_prolog_item usage]) (code ++ b)) as [_ ?]; [by rewrite E, <- !app_assoc | lia].
  - by rewrite Z.add_simpl_r.
Qed.
End Linked.

(** ** Compiling a loaded program *)

(** What the theorems assume: a loaded program whose stack usages are 16-bit
    values, a helper table of its size, successful allocations, and a buffer that
    is large enough for the code and small enough for its displacements. *)
Record arm_compilable `{HostEnv} (vm : ubpf_vm) (prog : list ebpf_inst) (alloc : nat -> bool) (buffer : list Z)
    : Prop := ArmCompilable {
  ar_loaded : loaded vm prog;
  ar_usages : usages_typed vm;
  ar_helpers : Z.of_nat (length vm.(ext_funcs)) = MAX_EXT_FUNCS;
  ar_alloc : forall k, alloc k = true;
  ar_buffer : 612 + 232 * Z.of_nat (length prog) <= Z.of_nat (length buffer) <= ARM_CODE_LIMIT;
}.

Section Compile.
Context `{HostEnv} (vm : ubpf_vm) (prog : list ebpf_inst) (alloc : nat -> bool) (buffer : list Z).
Context (Hcp : arm_compilable vm prog alloc buffer).

Lemma arm_compile_image random mode :
  exists st0 its st, initialize_jit_state_result alloc buffer (Z.of_nat (length buffer)) mode random =
    (Some st0, JitResult 0 0 UBPF_JIT_COMPILE_FAILURE mode) /\
    translate vm st0 = Some (Ok tt, st) /\ arm_image vm prog buffer its st /\ arm_shell mode its st.
Proof.
  destruct Hcp as [Hld Hty Hext Ha [Hb Hl]].
  destruct (initial_state alloc buffer random mode) as (st0 & E & Hlo & Hp & Hpc & Hmode); [done | unfold ARM_CODE_LIMIT in *; lia |].
  destruct (arm_translate_image vm prog buffer Hld Hty Hl Hext st0) as (its & st & Et & Him & Hsh); [done .. |].
  rewrite Hmode in Hsh. by exists st0, its, st.
Qed.

(** Success, in terms of the image. *)
Lemma arm_compile_run random mode st0 its st :
  initialize_jit_state_result alloc buffer (Z.of_nat (length buffer)) mode random =
    (Some st0, JitResult 0 0 UBPF_JIT_COMPILE_FAILURE mode) ->
  translate vm st0 = Some (Ok tt, st) -> arm_image vm prog buffer its st ->
  ubpf_translate_arm64 vm alloc random buffer (Z.of_nat (length buffer)) mode =
  Some (JitResult st.(dispatcher_loc) st.(helper_table_loc) UBPF_JIT_COMPILE_SUCCESS mode, None,
        linked_code (LK := arm_linker) buffer its st, code_len its).
Proof.
  intros E0 Et Him. unfold ubpf_translate_arm64. rewrite E0, Et. cbn [mbind option_bind].
  rewrite (arm_image_resolves _ _ _ _ _ (proj2 (ar_buffer _ _ _ _ Hcp)) Him). cbn. by rewrite (lo_offset _ _ _ (am_laid _ _ _ _ _ Him)).
Qed.
End Compile.

(** *** The example program on this target *)

Definition arm_vm : ubpf_vm := load_on null_host (created_on JitArm64) jit_code.

Lemma arm_vm_compilable : @arm_compilable null_host arm_vm (insts_of_bytes jit_code) (fun _ => true) jit_buffer.
Proof.
  constructor; [apply jit_loaded | | by vm_compute | done | by vm_compute].
  unfold usages_typed. apply (bool_decide_unpack _). vm_compute. done.
Qed.

(** The result of the back end. *)
Lemma arm_translates `{HostEnv} (vm : ubpf_vm) (prog : list ebpf_inst) (alloc : nat -> bool)
    (buffer : list Z) (random : nat -> Z) (mode : JitMode) :
  arm_compilable vm prog alloc buffer ->
  exists code size d h,
    ubpf_translate_arm64 vm alloc random buffer (Z.of_nat (length buffer)) mode =
      Some (JitResult d h UBPF_JIT_COMPILE_SUCCESS mode, None, code, size) /\
    0 <= size <= Z.of_nat (length buffer) /\ length code = length buffer /\
    drop (Z.to_nat size) code = drop (Z.to_nat size) buffer /\
    h = d + 8 /\ h + 512 = size /\ 0 <= d /\ (4 | d) /\ bytes_at code d 8 = le_encode 8 vm.(dispatcher) /\
    bytes_at code h 512 = vm.(ext_funcs) ≫= le_encode 8.
Proof.
  intros Hcp. destruct (arm_compile_image _ _ _ _ Hcp random mode) as (st0 & its & st & E0 & Et & Him & _).
  pose proof (am_laid _ _ _ _ _ Him) as Hlo. destruct (am_data _ _ _ _ _ Him) as (a & E & Ed & Eh).
  destruct (linked_data (LK := arm_linker) buffer its st Hlo a _ _ E (ar_helpers _ _ _ _ Hcp)) as (Hend & H0 & Hdb & Htb).
  pose proof (laid_out_fits _ _ _ Hlo). pose proof (code_len_nonneg its).
  exists (linked_code (LK := arm_linker) buffer its st), (code_len its), st.(dispatcher_loc), st.(helper_table_loc).
  split; [by eapply arm_compile_run |]. split; [lia |]. split; [by apply linked_length |]. split; [apply linked_rest |].
  rewrite Ed, Eh. split_and!; try done. by eapply (arm_prefix _ _ _ _ _ Him).
Qed.

(** ** Properties *)

(** C10: a program accepted by [ubpf_load] is always compiled by the arm64 back end
    when the buffer has 612 bytes and 232 bytes per instruction and less than a
    megabyte, and the allocations succeed: [ubpf_translate_arm64] has no undefined behaviour (no failed assertion,
    no access outside of its arrays) and reports success, the code has the size it
    reports and nothing is written behind it, the eight bytes at
    [external_dispatcher_offset] are the VM's dispatcher and the table at
    [external_helper_offset], which ends the code, holds its helper functions. *)
Theorem arm_compiles_loaded `{HostEnv} (vm : ubpf_vm) (prog : list ebpf_inst) (alloc : nat -> bool)
    (buffer : list Z) (random : nat -> Z) (mode : JitMode) :
  arm_compilable vm prog alloc buffer ->
  exists code size d h,
    ubpf_translate_arm64 vm alloc random buffer (Z.of_nat (length buffer)) mode =
      Some (JitResult d h UBPF_JIT_COMPILE_SUCCESS mode, None, code, size) /\
    0 <= size <= Z.of_nat (length buffer) /\ length code = length buffer /\
    drop (Z.to_nat size) code = drop (Z.to_nat size) buffer /\
    h = d + 8 /\ h + 512 = size /\ 0 <= d /\ (4 | d) /\ bytes_at code d 8 = le_encode 8 vm.(dispatcher) /\
    bytes_at code h 512 = vm.(ext_funcs) ≫= le_encode 8.
Proof. apply arm_translates. Qed.

Lemma arm_compiles_loaded_witness :
  exists code size d h,
    ubpf_translate_arm64 arm_vm (fun _ => true) (fun _ => 0) jit_buffer 4096 BasicJitMode =
      Some (JitResult d h UBPF_JIT_COMPILE_SUCCESS BasicJitMode, None, code, size) /\
    bytes_at code h 512 = arm_vm.(ext_funcs) ≫= le_encode 8.
Proof.
  destruct (@arm_compiles_loaded null_host arm_vm (insts_of_bytes jit_code) (fun _ => true) jit_buffer
    (fun _ => 0) BasicJitMode arm_vm_compilable) as (code & size & d & h & E & _ & _ & _ & _ & _ & _ & _ & _ & Hh).
  exists code, size, d, h. split; [exact E | exact Hh].
Defined.

(** C13: in the arm64 code of a loaded program every local call whose target is the
    start of an instruction is linked (the buffer being large enough and the
    allocations successful): in the code of the call at slot [k] there is a BL
    instruction whose displacement leads twelve bytes before the code of the called
    function, to the instructions that put the function's stack usage on the host
    stack.  (The loader accepts a call into the second half of an LDDW as well; no
    position is recorded for it.) *)
Theorem arm_links_calls `{HostEnv} (vm : ubpf_vm) (prog : list ebpf_inst) (alloc : nat -> bool)
    (buffer : list Z) (random : nat -> Z) (mode : JitMode) :
  arm_compilable vm prog alloc buffer ->
  exists st0 st st',
    initialize_jit_state_result alloc buffer (Z.of_nat (length buffer)) mode random =
      (Some st0, JitResult 0 0 UBPF_JIT_COMPILE_FAILURE mode) /\
    translate vm st0 = Some (Ok tt, st) /\ resolve_passes st = Some (true, st') /\
    forall k inst, start prog k -> prog !! Z.to_nat k = Some inst -> is_local_call inst = true ->
      start prog (call_target k inst) ->
      exists p q off usage, st.(pc_locs) !! k = Some p /\ st.(pc_locs) !! (call_target k inst) = Some q /\
        p <= off /\ off + 4 <= p + 216 /\ relative_at st'.(buf) off = Some (Branch true, q - 12) /\
        ubpf_stack_usage_for_local_func vm (call_target k inst) = Some usage /\
        bytes_at st'.(buf) (q - 12) 12 = code_bytes (arm_prolog_words usage).
Proof.
  intros Hcp. destruct (arm_compile_image _ _ _ _ Hcp random mode) as (st0 & its & st & E0 & Et & Him & _).
  pose proof (proj2 (ar_buffer _ _ _ _ Hcp)) as Hlim. pose proof (ar_loaded _ _ _ _ Hcp) as Hld.
  exists st0, st, (set_buf (linked_code (LK := arm_linker) buffer its st) st). split; [done |]. split; [done |].
  split; [by eapply arm_image_resolves |]. intros k inst Hk Hinst Hcall Hst.
  destruct (validated_local_call _ _ k inst (ld_validated _ _ Hld) Hk Hinst Hcall) as (Ht & _ & _).
  destruct (call_slot_facts vm prog k inst Hld Hk Hinst Hcall) as (Hop & Hsrc & Hu & Hf).
  destruct (lookup_lt_is_Some_2 prog (Z.to_nat (call_target k inst)) ltac:(lia)) as [inst2 Hinst2].
  destruct (arm_prolog_placed _ _ _ _ _ Him _ _ (ar_usages _ _ _ _ Hcp) Hst Hinst2 Hf) as (q & usage & Hq & _ & Husage & Hbytes).
  destruct (arm_slot_in _ _ _ _ _ Him k inst EBPF_OP_CALL LocalCalls (ebpf_target (k + inst.(imm) + 1)) Hk Hinst Hop)
    as (a & w & b & p & E & Hp & Hpa & Hpb); [intros code Hc; rewrite (ac_shape _ _ _ _ _ Hc) by done; eexists; right; left |].
  destruct (arm_linked_slot _ _ _ _ _ Hlim Him a _ _ w b E) as (i & Hi & _ & Hrel).
  pose proof (am_items _ _ _ _ _ Him) as Hit. rewrite E in Hit. apply Forall_app in Hit as [_ [[Hw _] _]%list.Forall_cons].
  assert (i = Branch true) as -> by (cbn in Hw; subst w; vm_compute in Hi; congruence).
  exists p, q, (code_len a), usage. split_and!; try done. cbn [buf set_buf]. rewrite Hrel. do 2 f_equal.
  cbn [arm_slot_target ebpf_target ebpf_target_pc]. rewrite Hu, Hq, (am_prolog _ _ _ _ _ Him); [done |].
  intros ->. by rewrite lookup_nil in Hinst.
Qed.

Lemma arm_links_calls_witness :
  exists st st' : jit_state, exists p q off usage,
    st.(pc_locs) !! 1 = Some p /\ st.(pc_locs) !! 4 = Some q /\ p <= off /\ off + 4 <= p + 216 /\
    relative_at st'.(buf) off = Some (Branch true, q - 12) /\ ubpf_stack_usage_for_local_func arm_vm 4 = Some usage /\
    bytes_at st'.(buf) (q - 12) 12 = code_bytes (arm_prolog_words usage).
Proof.
  destruct (@arm_links_calls null_host arm_vm (insts_of_bytes jit_code) (fun _ => true) jit_buffer
    (fun _ => 0) BasicJitMode arm_vm_compilable) as (st0 & st & st' & _ & _ & _ & Hj). exists st, st'.
  refine (Hj 1 (Inst 0x85 0 1 0 2) _ eq_refl eq_refl _); [eapply (start_next _ _ 0); [constructor | reflexivity ..] |].
  eapply (start_next _ _ 3); [eapply (start_next _ _ 2); [eapply (start_next _ _ 1);
    [eapply (start_next _ _ 0); [constructor | ..] | ..] | ..] | ..]; reflexivity.
Defined.
