(* ===== verification/Arm64Sim.v ===== *)
(** * Arm64Sim: the arm64 code does what the interpreter does

    A forward simulation between the turns of the interpreter's loop on
    arithmetic, byte-order, LDDW, load, store and jump instructions and the
    processor running the linked code: the code of the instruction leads from the
    position recorded for its slot to that of the slot the interpreter goes to, the
    host registers hold the eBPF registers before and after, the memory is the
    interpreter's, and the rest of the host's registers and memory is left alone.
    Calls and exits are in [Arm64Local]; not covered are calls of helpers and atomic
    operations, nor a 64-bit store of a negative immediate, for
    which the code differs from the interpreter ([arm_stdw_zero_extends]). *)

From Stdlib Require Import ZArith Lia Bool.
From stdpp Require Import base list gmap strings numbers relations.
From S2P Require Import Prelude Ebpf InstValid Mem Vm Validate Load Alu Checks Interp InterpSound JitSupport JitAsm JitLink JitProg.
From S2P Require Import Arm64Emit Arm64Isa Arm64Move Arm64Trans Arm64Cost Arm64Run Arm64Mem Arm64Code Arm64Sound Arm64Correct Arm64Link Arm64Cpu Arm64Result.

Local Open Scope Z_scope.
Local Open Scope cbits_scope.

(** ** A turn of the interpreter *)

(** The registers of the interpreter: sixteen 64-bit values. *)
Definition regs_fit (r : list Z) : Prop := length r = 16%nat /\ Forall fits64 r.

Lemma regs_fit_get st i : regs_fit st.(reg) -> fits64 (get_reg st i).
Proof.
  intros [_ Hf]. unfold get_reg. destruct (st.(reg) !! Z.to_nat i) as [v |] eqn:E; cbn; [| by split].
  exact (Forall_lookup_1 _ _ _ _ Hf E).
Qed.

Lemma regs_fit_insert r i v : regs_fit r -> fits64 v -> regs_fit (<[i := v]> r).
Proof. intros [Hl Hf] Hv. split; [by rewrite length_insert | by apply Forall_insert]. Qed.

Lemma alu_value_fits op off imm d s : 0 <= alu_value op off imm d s < 2 ^ (if is_wide op then 64 else 32).
Proof.
  unfold alu_value, spec_alu. cbv zeta. rewrite <- wide_width.
  match goal with |- context [wrap (width (is_wide op)) ?x] => pose proof (wrap_range (width (is_wide op)) x) as H end.
  destruct (is_wide op); cbn [width] in *; lia.
Qed.

(** The truncation after the switch is for the 32-bit ALU instructions. *)
Lemma truncates_alu op :
  (opcode_of op .& EBPF_CLS_MASK =? EBPF_CLS_ALU) && negb (opcode_of op .& EBPF_ALU_OP_MASK =? 0xd0) =
  is_alu op && negb (is_wide op).
Proof. by destruct op. Qed.

Lemma truncate_other_kind inst op st :
  switch_op inst.(opcode) = Some op -> is_alu op = false -> truncate_alu32 inst st = st.
Proof. intros Hop%switch_op_sound Ha. unfold truncate_alu32. by rewrite <- Hop, truncates_alu, Ha. Qed.

Section Values.
Context (vm : ubpf_vm) (i : Z) (inst : ebpf_inst) (op : ebpf_op) (Hop : switch_op inst.(opcode) = Some op).
Context (Hoff : offset_ok op inst.(offset)).

Lemma value_of_fits d s v : value_of vm i inst op d s = Some v -> fits64 d -> fits64 s -> fits64 v.
Proof using Hop Hoff.
  unfold value_of. intros Hv Hd Hs. destruct (exec_alu _ _ _ _ _) as [x |] eqn:Ea.
  { injection Hv as <-. by eapply exec_alu_fits. }
  destruct (exec_endian _ _ _) as [x |] eqn:Ee; [injection Hv as <-; by eapply exec_endian_fits |].
  destruct op; try done. destruct (ubpf_fetch_instruction vm (i + 1)) as [inst2 |]; [| done]. injection Hv as <-.
  pose proof (wrap_range 32 inst.(imm)). rewrite <- (wrap_id 64 (u32 inst.(imm))), <- wrap_lor by lia. apply (wrap_range 64). lia.
Qed.

Lemma truncate_value st d s v :
  value_of vm i inst op d s = Some v -> fits64 d -> fits64 s -> (Z.to_nat inst.(dst) < length st.(reg))%nat ->
  truncate_alu32 inst (set_reg inst.(dst) v st) = set_reg inst.(dst) v st.
Proof using Hop Hoff.
  intros Hv Hd Hs Hl. destruct (is_alu op) eqn:Ha; [| by eapply truncate_other_kind].
  rewrite value_of_alu in Hv by done. injection Hv as <-. pose proof (alu_value_fits op inst.(offset) inst.(imm) d s) as Hr.
  unfold truncate_alu32. rewrite <- (switch_op_sound _ _ Hop), truncates_alu, Ha. cbn [andb].
  destruct (is_wide op); cbn [negb]; [done |]. unfold get_reg, set_reg. cbn [reg set_regs].
  rewrite list_lookup_insert_eq by done. cbn [default]. rewrite land_u32max, wrap_id by done.
  unfold set_regs. cbn. by rewrite list_insert_insert_eq.
Qed.
End Values.

(** *** Loads and stores *)

Lemma memory_effect_ok inst op d s m r m' :
  mem_ok m -> memory_effect inst op d s m = Some (r, m') -> mem_ok m' /\ dom m' = dom m /\ forall v, r = Some v -> fits64 v.
Proof.
  unfold memory_effect. intros Hm He. destruct (load_shape op) as [[size sx] |] eqn:El.
  - destruct (proj1 (shape_sizes op) _ _ El) as (Hs & H8 & _).
    destruct (if sx then _ else _) as [v |] eqn:Ev; [| done]. cbn [mbind option_bind] in He. injection He as <- <-.
    split; [done |]. split; [done |]. intros ? [= <-]. destruct sx.
    + rewrite mem_load_sx_eq in Ev by auto. destruct (deref _ _ _); [| done]. injection Ev as <-. apply (wrap_range 64). lia.
    + rewrite mem_load_eq in Ev by done. pose proof (deref_range _ _ _ _ Hm Ev).
      assert (2 ^ (8 * Z.of_nat (Z.to_nat size)) <= 2 ^ 64) by (apply Z.pow_le_mono_r; destruct Hs as [-> | [-> | [-> | ->]]]; lia).
      unfold fits64. lia.
  - destruct (store_shape op) as [[size from_reg] |] eqn:Es; [| done]. destruct (proj2 (shape_sizes op) _ _ Es) as [Hs _].
    destruct (ubpf_mem_store _ _ _ _) as [m1 |] eqn:Ev; [| done]. cbn [mbind option_bind] in He. injection He as <- <-.
    split; [by eapply mem_store_ok |]. split; [by eapply mem_store_spec in Ev as [[? _] _] | done].
Qed.

Section Access.
Context `{HostEnv} (vm : ubpf_vm) (args : exec_args) (k : Z) (inst : ebpf_inst) (st : exec_state).
Context (Hoff : signed_fits 16 inst.(offset)).

Lemma checked_address base a : fits64 base -> compute_effective_addr k base inst.(offset) = Ok a -> a = u64 (base + inst.(offset)).
Proof using Hoff.
  intros Hb. rewrite effective_addr_ok by done. intros [-> ?]. symmetry. by apply wrap_id.
Qed.

(** The registers and memory after a load or store that did not fail. *)
Definition accessed (op : ebpf_op) (act : action) : Prop :=
  exists r m' st', act = Continue st' /\
    memory_effect inst op (get_reg st inst.(dst)) (get_reg st inst.(src)) st.(mem) = Some (r, m') /\
    st'.(pc) = st.(pc) /\ st'.(mem) = m' /\
    st'.(reg) = match r with Some v => <[Z.to_nat inst.(dst) := v]> st.(reg) | None => st.(reg) end.

Lemma load_accesses op size sx act :
  load_shape op = Some (size, sx) -> fits64 (get_reg st inst.(src)) -> exec_load vm args k inst size sx st = Value act -> accessed op act.
Proof using Hoff.
  intros Hl Hs He. unfold exec_load, bounds_check_load in He.
  destruct (compute_effective_addr _ _ _) as [a |] eqn:Ea; [| done]. cbn [of_result bind_outcome] in He.
  destruct (ubpf_check_shadow_stack _ _ _ _ _ _) as [init |]; [| done]. cbn [of_option bind_outcome] in He.
  destruct (bounds_check _ _ _ _ _ _ _ _); [| done]. cbn [require bind_outcome] in He.
  rewrite (checked_address _ _ Hs Ea) in He. unfold accessed, memory_effect. rewrite Hl.
  set (st1 := if init then st else _) in He.
  assert (st1.(mem) = st.(mem) /\ st1.(reg) = st.(reg) /\ st1.(pc) = st.(pc)) as (E1 & E2 & E3) by (unfold st1; by destruct init).
  rewrite E1 in He. destruct (if sx then _ else _) as [v |] eqn:Ev; [| done]. cbn [of_option bind_outcome] in He. injection He as <-.
  eexists _, _, _. split; [reflexivity |]. split; [reflexivity |]. cbn. by rewrite E1, E2, E3.
Qed.

Lemma store_accesses op size from_reg act :
  load_shape op = None -> store_shape op = Some (size, from_reg) -> fits64 (get_reg st inst.(dst)) ->
  exec_store vm args k inst size from_reg st = Value act -> accessed op act.
Proof using Hoff.
  intros Hl Hsh Hd He. unfold exec_store, bounds_check_store in He.
  destruct (compute_effective_addr _ _ _) as [a |] eqn:Ea; [| done]. cbn [of_result bind_outcome] in He.
  destruct (bounds_check _ _ _ _ _ _ _ _); [| done]. cbn [require bind_outcome] in He.
  destruct (ubpf_mark_shadow_stack _ _ _ _ _ _) as [shadow |]; [| done]. cbn [of_option bind_outcome] in He.
  rewrite (checked_address _ _ Hd Ea) in He. unfold accessed, memory_effect. rewrite Hl, Hsh.
  change (mem (set_shadow_stack shadow st)) with (mem st) in He.
  change (get_reg (set_shadow_stack shadow st) inst.(src)) with (get_reg st inst.(src)) in He.
  destruct (ubpf_mem_store _ _ _ _) as [m1 |] eqn:Ev; [| done]. cbn [of_option bind_outcome] in He. injection He as <-.
  eexists _, _, _. split; [reflexivity |]. split; [reflexivity |]. done.
Qed.
End Access.

Section Turn.
Context `{HostEnv} (vm : ubpf_vm) (prog : list ebpf_inst) (args : exec_args) (Hld : loaded vm prog).
Context (st : exec_state) (inst : ebpf_inst) (op : ebpf_op).
Context (Hs : start prog st.(pc)) (Hinst : prog !! Z.to_nat st.(pc) = Some inst) (Hop : switch_op inst.(opcode) = Some op).
Context (Hfit : regs_fit st.(reg)) (Hdbg : vm.(debug_function) = 0).
#[local] Abbreviation d := (get_reg st inst.(dst)).
#[local] Abbreviation s := (get_reg st inst.(src)).

Lemma at_slot :
  0 <= st.(pc) /\ st.(pc) + 1 <= last_slot st.(pc) inst + 1 <= Z.of_nat (length prog) /\ Z.of_nat (length prog) < 65536 /\
  ubpf_fetch_instruction vm st.(pc) = Some inst /\ 0 <= inst.(dst) < 11 /\ inst_checked vm prog st.(pc) inst op.
Proof using Hld Hs Hinst Hop.
  pose proof (loaded_length vm prog Hld). pose proof (next_slot_bound vm prog Hld _ _ Hs Hinst). pose proof (start_from_ge _ _ _ Hs).
  destruct (loaded_inst vm prog Hld _ _ Hs Hinst) as (Hf & Hd & _ & op' & Hck). pose proof (ck_op _ _ _ _ _ Hck). simplify_eq.
  unfold UBPF_MAX_INSTS in *. split_and!; try done; unfold last_slot in *; destruct (is_lddw inst); lia.
Qed.

(** An instruction that computes a value. *)
Lemma step_value act :
  kind_of op = KindValue -> step vm args st = Value act ->
  exists v st', act = Continue st' /\ value_of vm st.(pc) inst op d s = Some v /\ fits64 v /\
    st'.(pc) = last_slot st.(pc) inst + 1 /\ st'.(reg) = <[Z.to_nat inst.(dst) := v]> st.(reg) /\ st'.(mem) = st.(mem).
Proof using Hld Hs Hinst Hop Hfit Hdbg.
  intros Hk Hstep. destruct at_slot as (H0 & Hn & Hlen & Hf & Hdst & Hck).
  destruct (step_inv _ _ _ _ Hstep) as (inst' & st3 & act3 & Hf' & [Bp Br _ _ _ _ Bm _] & Esw & ->). simplify_eq.
  rewrite wrap_id in Bp by lia. pose proof (is_lddw_op inst op Hop) as Hl.
  pose proof (valid_offset_ok _ _ Hop (ck_fields _ _ _ _ _ Hck)) as Hoff.
  assert (forall r, get_reg st3 r = get_reg st r) as Eg by (intros r; unfold get_reg; by rewrite Br).
  pose proof (regs_fit_get st inst.(dst) Hfit) as Fd. pose proof (regs_fit_get st inst.(src) Hfit) as Fs.
  assert (exists v, value_of vm st.(pc) inst op d s = Some v /\
    act3 = Continue (set_reg inst.(dst) v (set_pc (last_slot st.(pc) inst + 1) st3))) as (v & Hv & ->).
  { unfold exec_switch in Esw. rewrite Hop in Esw. cbv zeta in Esw. rewrite !Eg in Esw. unfold value_of, last_slot.
    destruct (neg_overflows op d); [done |].
    assert (set_pc (st.(pc) + 1) st3 = st3) as Epc by (destruct st3; cbn in *; by rewrite Bp).
    destruct (exec_alu _ _ _ _ _) as [x |] eqn:Ea.
    { injection Esw as <-. exists x. split; [done |]. destruct (is_lddw inst); [| by rewrite Epc]. rewrite (proj1 Hl) in Ea by done. done. }
    destruct (exec_endian _ _ _) as [x |] eqn:Ee.
    { injection Esw as <-. exists x. split; [done |]. destruct (is_lddw inst); [| by rewrite Epc]. rewrite (proj1 Hl) in Ee by done. done. }
    assert (op = EBPF_OP_LDDW) as -> by (pose proof (kind_facts op) as Hkf; destruct op; try done; discriminate).
    unfold last_slot in Hn. rewrite (proj2 Hl) in * by done.
    cbn [exec_condition exec_other load_shape store_shape] in Esw. unfold exec_lddw in Esw. rewrite Bp in Esw.
    destruct (ubpf_fetch_instruction vm (st.(pc) + 1)) as [inst2 |]; [| done]. cbn [of_option bind_outcome] in Esw.
    injection Esw as <-. eexists. split; [reflexivity |]. rewrite (wrap_id 16) by lia. done. }
  exists v, (truncate_alu32 inst (set_reg inst.(dst) v (set_pc (last_slot st.(pc) inst + 1) st3))).
  split; [done |]. split; [done |]. split; [by eapply value_of_fits |].
  rewrite (truncate_value vm st.(pc) inst op Hop Hoff _ d s v Hv Fd Fs).
  - cbn [pc reg mem set_reg set_regs set_pc]. by rewrite Br, (Bm Hdbg).
  - cbn [reg set_pc]. rewrite Br. destruct Hfit as [-> _]. lia.
Qed.

(** A load or store. *)
Lemma step_memory act :
  kind_of op = KindMemory -> step vm args st = Value act ->
  exists r m' st', act = Continue st' /\ memory_effect inst op d s st.(mem) = Some (r, m') /\
    st'.(pc) = st.(pc) + 1 /\ st'.(mem) = m' /\
    st'.(reg) = match r with Some v => <[Z.to_nat inst.(dst) := v]> st.(reg) | None => st.(reg) end.
Proof using Hld Hs Hinst Hop Hfit Hdbg.
  intros Hk Hstep. destruct at_slot as (H0 & Hn & Hlen & Hf & Hdst & Hck).
  destruct (step_inv _ _ _ _ Hstep) as (inst' & st3 & act3 & Hf' & [Bp Br _ _ _ _ Bm _] & Esw & ->). simplify_eq.
  rewrite wrap_id in Bp by lia. specialize (Bm Hdbg). pose proof (proj1 (fetch_fields _ _ _ Hf)) as Hoff.
  assert (forall r, get_reg st3 r = get_reg st r) as Eg by (intros r; unfold get_reg; by rewrite Br).
  pose proof (kind_facts op) as Hkf. rewrite Hk in Hkf.
  assert (accessed inst st3 op act3) as (r & m' & st' & -> & He & Epc & Em & Er).
  { unfold exec_switch in Esw. rewrite Hop in Esw. cbv zeta in Esw. destruct (neg_overflows _ _) eqn:En; [done |].
    destruct (exec_alu _ _ _ _ _) eqn:Ea; [by destruct op |]. destruct (exec_endian _ _ _) eqn:Ee; [by destruct op |].
    destruct (exec_condition _ _ _ _) eqn:Ec; [by destruct op |]. unfold exec_other in Esw.
    destruct (load_shape op) as [[size sx] |] eqn:El.
    - eapply load_accesses; [done | done | rewrite Eg; by apply regs_fit_get | done].
    - destruct (store_shape op) as [[size fr] |] eqn:Est; [| apply bool_decide_eq_true in Hkf; destruct Hkf as [[] | []]; congruence].
      eapply store_accesses; [done | done | done | rewrite Eg; by apply regs_fit_get | done]. }
  exists r, m', (truncate_alu32 inst st'). split; [done |]. rewrite !Eg, Bm in He. rewrite Br, Bp in *.
  rewrite (truncate_other_kind inst op) by (done || by destruct op). done.
Qed.

(** A jump. *)
Lemma step_jump act :
  group_of op = GroupJump -> step vm args st = Value act ->
  exists taken st', act = Continue st' /\ st'.(reg) = st.(reg) /\ st'.(mem) = st.(mem) /\
    st'.(pc) = (if taken : bool then st.(pc) + 1 + jump_offset inst else st.(pc) + 1) /\
    match kind_of op with
    | KindBranch => exec_condition op inst.(imm) d s = Some taken
    | _ => taken = true
    end.
Proof using Hld Hs Hinst Hop Hdbg.
  intros Hg Hstep. destruct at_slot as (H0 & Hn & Hlen & Hf & Hdst & Hck).
  destruct (step_inv _ _ _ _ Hstep) as (inst' & st3 & act3 & Hf' & [Bp Br _ _ _ _ Bm _] & Esw & ->). simplify_eq.
  pose proof (ck_group _ _ _ _ _ Hck) as Hgc. rewrite Hg in Hgc. destruct Hgc as (_ & Ht & _).
  rewrite wrap_id in Bp by lia.
  assert (forall r, get_reg st3 r = get_reg st r) as Eg by (intros r; unfold get_reg; by rewrite Br).
  assert (forall delta, delta = jump_offset inst -> (jump delta st3).(pc) = st.(pc) + 1 + jump_offset inst) as Ej
    by (intros delta ->; unfold jump; cbn [pc set_pc]; rewrite Bp, wrap_id by lia; done).
  assert (is_alu op = false) as Ha by (destruct op; done). pose proof (truncate_other_kind inst op) as Htr.
  assert (op <> EBPF_OP_JA32 -> jump_offset inst = inst.(offset)) as Eo.
  { intros Hne. unfold jump_offset. rewrite (proj2 (Z.eqb_neq _ _)); [done |]. rewrite <- (switch_op_sound _ _ Hop).
    intros Hc%opcode_of_inj. done. }
  unfold exec_switch in Esw. rewrite Hop in Esw. cbv zeta in Esw. rewrite !Eg in Esw.
  pose proof (kind_facts op) as Hkf. pose proof (proj1 (jump_kind op) Hg) as Hk.
  destruct (neg_overflows op d); [done |]. destruct (exec_alu _ _ _ _ _) eqn:Ea; [by destruct op |].
  destruct (exec_endian _ _ _) eqn:Ee; [by destruct op |]. destruct Hk as [Hk | Hk]; rewrite Hk in *.
  - destruct (exec_condition op inst.(imm) d s) as [taken |] eqn:Ec; [| by destruct op].
    injection Esw as <-. exists taken. eexists. split; [reflexivity |]. rewrite Htr by done.
    split; [by destruct taken |]. split; [rewrite <- (Bm Hdbg); by destruct taken |]. split; [| done]. destruct taken; [| done]. apply Ej. symmetry. apply Eo. intros ->. discriminate.
  - exists true. destruct Hkf as [[-> | ->] _]; cbn [exec_condition exec_other load_shape store_shape] in Esw; injection Esw as <-;
      eexists; (split; [reflexivity |]); rewrite Htr by done; (split; [done |]); (split; [exact (Bm Hdbg) |]); (split; [| done]); apply Ej; [symmetry; by apply Eo |].
    unfold jump_offset. rewrite <- (switch_op_sound _ _ Hop). by rewrite Z.eqb_refl.
Qed.
End Turn.

(** ** The simulation *)

(** The instructions whose code is covered. *)
Definition covered (inst : ebpf_inst) : bool :=
  match switch_op inst.(opcode) with
  | None => false
  | Some op =>
      match kind_of op with
      | KindValue | KindBranch | KindGoto => true
      | KindMemory => negb (bool_decide (op = EBPF_OP_STDW) && (inst.(imm) <? 0))
      | _ => false
      end
  end.

(** What the code of the program leaves alone: the stack pointer, the registers that
    are neither eBPF registers nor scratch, and the memory that is not the
    interpreter's. *)
Record host_context : Type := Host { h_sp : Z; h_regs : Z -> Z; h_frame : memory }.

Definition is_host (q : Z) : Prop := ~ is_scratch q /\ q ∉ register_map.

Definition host_regs (h : host_context) (s : a64_state) : Prop := forall q, is_host q -> s.(xregs) q = h.(h_regs) q.

(** The processor is at the code of the instruction the interpreter is at, the
    host registers hold the eBPF registers, and the memory is the interpreter's
    beside that of the host. *)
Record agrees (locs : gmap Z Z) (h : host_context) (st : exec_state) (c : a64_cpu) : Prop := Agrees {
  ag_slot : 0 <= st.(pc);
  ag_pc : locs !! st.(pc) = Some c.(cpu_pc);
  ag_regs : forall r, 0 <= r < 11 -> c.(cpu_regs).(xregs) (reg_of r) = get_reg st r;
  ag_fit : regs_fit st.(reg);
  ag_mem : c.(cpu_mem) = st.(mem) ∪ h.(h_frame);
  ag_disjoint : st.(mem) ##ₘ h.(h_frame);
  ag_mem_ok : mem_ok st.(mem);
  ag_host : c.(cpu_sp) = h.(h_sp) /\ host_regs h c.(cpu_regs);
}.

(** The registers of the host survive what an instruction does. *)
Lemma host_kept a a' d r h : 0 <= d < 11 -> after_access a a' (reg_of d) r -> host_regs h a -> host_regs h a'.
Proof.
  intros Hd%reg_of_in [_ Ho] Hh q [Hs Hq]. rewrite Ho; [by apply Hh | | done]. left. by intros ->.
Qed.

Lemma keeps_operand a a' r : 0 <= r < 11 -> keeps a a' -> a'.(xregs) (reg_of r) = a.(xregs) (reg_of r).
Proof. intros Hr Hk. destruct (reg_of_facts r Hr) as ((_ & _ & ?) & ? & _). by apply Hk. Qed.

(** An instruction that computes a value is like a load of it. *)
Lemma updates_after a a' d v : updates a a' d v -> after_access a a' d (Some v).
Proof.
  intros [Hv Ho]. split; [by intros ? [= <-] |]. intros q [Hq |] Hs; [| done]. unfold is_scratch in Hs. apply Ho; auto.
Qed.

(** The host registers after an instruction that computes a value, loads or stores. *)
Lemma access_agrees a a' d r st st' :
  0 <= d < 11 -> after_access a a' (reg_of d) r -> (Z.to_nat d < length st.(reg))%nat ->
  st'.(reg) = match r with Some v => <[Z.to_nat d := v]> st.(reg) | None => st.(reg) end ->
  (forall q, 0 <= q < 11 -> a.(xregs) (reg_of q) = get_reg st q) -> forall q, 0 <= q < 11 -> a'.(xregs) (reg_of q) = get_reg st' q.
Proof.
  intros Hd [Hv Ho] Hl Er Ha q Hq. pose proof (reg_of_spared q Hq) as Hs. unfold get_reg. rewrite Er. destruct r as [v |].
  - destruct (decide (q = d)) as [-> | Hne]; [rewrite list_lookup_insert_eq by done; by apply Hv |].
    rewrite list_lookup_insert_ne by lia. rewrite Ho; [by apply Ha | | done]. left. intros E%reg_of_inj; done.
  - rewrite Ho by auto. by apply Ha.
Qed.

Section Sim.
Context `{HostEnv} (vm : ubpf_vm) (prog : list ebpf_inst) (buffer : list Z) (its : list item) (st : jit_state).
Context (Hlim : Z.of_nat (length buffer) <= ARM_CODE_LIMIT) (Him : arm_image vm prog buffer its st).
Context (Hld : loaded vm prog) (Hty : usages_typed vm) (Hdbg : vm.(debug_function) = 0) (base : Z) (h : host_context).
#[local] Abbreviation code := (linked_code (LK := arm_linker) buffer its st).

Lemma code_room a b : its = a ++ b -> 0 <= code_len a /\ code_len a + code_len b <= Z.of_nat (length code).
Proof using Him.
  intros ->. pose proof (laid_out_fits _ _ _ (am_laid _ _ _ _ _ Him)) as Hf. rewrite code_len_app in Hf.
  rewrite (linked_length (LK := arm_linker) _ _ _ (am_laid _ _ _ _ _ Him)). pose proof (code_len_nonneg a). lia.
Qed.

(** Straight-line code in the linked code. *)
Lemma run_straight a m ws b sp r r' mm :
  its = a ++ m ++ b -> straight m ws -> a64_run ws r = Some r' ->
  cpu_reaches base code (Cpu (code_len a) sp r mm) (Cpu (code_len (a ++ m)) sp r' mm).
Proof using Him.
  intros E [Hm Hb] Hr. pose proof (code_room a (m ++ b) E) as [Ha Hl]. rewrite code_len_app in Hl. pose proof (code_len_nonneg b).
  pose proof (linked_plain (LK := arm_linker) _ _ _ (am_laid _ _ _ _ _ Him) a m b E Hm) as Hp. rewrite Hb, length_code_bytes in Hp.
  assert (code_len m = 4 * Z.of_nat (length ws)) as Lm.
  { unfold code_len. rewrite Hb, length_code_bytes. lia. }
  rewrite code_len_app, Lm. apply cpu_straight; [done | lia | exact Hp | done].
Qed.

(** ... with an access at its end. *)
Lemma run_access a m ws w i b sp r r' r'' mm mm' :
  its = a ++ m ++ b -> straight m (ws ++ [w]) -> a64_run ws r = Some r' -> a64_decode_access w = Some i ->
  a64_exec_access i r' mm = Some (r'', mm') -> cpu_reaches base code (Cpu (code_len a) sp r mm) (Cpu (code_len (a ++ m)) sp r'' mm').
Proof using Him.
  intros E [Hm Hb] Hr Hd He. pose proof (code_room a (m ++ b) E) as [Ha Hl]. rewrite code_len_app in Hl. pose proof (code_len_nonneg b).
  pose proof (linked_plain (LK := arm_linker) _ _ _ (am_laid _ _ _ _ _ Him) a m b E Hm) as Hp. rewrite Hb, length_code_bytes in Hp.
  assert (code_len m = 4 * Z.of_nat (S (length ws))) as Lm.
  { unfold code_len. rewrite Hb, length_code_bytes, length_app. cbn [length]. lia. }
  rewrite code_len_app, Lm. eapply cpu_access; [done | lia | exact Hp | done | done | done].
Qed.

(** A branch to [tgt]. *)
Lemma run_branch a tgt b sp r mm :
  its = a ++ Slot Jumps tgt (branch_immediate_bits UBR_B) :: b ->
  cpu_reaches base code (Cpu (code_len a) sp r mm) (Cpu (arm_slot_target st Jumps tgt) sp r mm).
Proof using Him Hlim.
  intros E. destruct (arm_linked_slot _ _ _ _ _ Hlim Him a _ _ _ b E) as (i & Hi & Hl & Hrel).
  assert (i = Branch false) as -> by (vm_compute in Hi; congruence).
  pose proof (code_room a _ E) as [Ha Hr]. rewrite code_len_cons in Hr. cbn [item_bytes] in Hr. rewrite length_le_encode in Hr.
  pose proof (code_len_nonneg b). exact (cpu_relative base code _ sp _ _ r mm Ha ltac:(lia) Hrel).
Qed.

Lemma run_conditional a tgt c b sp r mm :
  its = a ++ Slot Jumps tgt (BR_Bcond .| condition_bits c) :: b ->
  cpu_reaches base code (Cpu (code_len a) sp r mm)
    (Cpu (if condition_holds (condition_bits c) r.(pstate) then arm_slot_target st Jumps tgt else code_len a + 4) sp r mm).
Proof using Him Hlim.
  intros E. destruct (arm_linked_slot _ _ _ _ _ Hlim Him a _ _ _ b E) as (i & Hi & Hl & Hrel).
  assert (i = BranchCond (condition_bits c)) as -> by (destruct c; vm_compute in Hi |- *; congruence).
  pose proof (code_room a _ E) as [Ha Hr]. rewrite code_len_cons in Hr. cbn [item_bytes] in Hr. rewrite length_le_encode in Hr.
  pose proof (code_len_nonneg b). exact (cpu_relative base code _ sp _ _ r mm Ha ltac:(lia) Hrel).
Qed.

(** From the end of the code of an instruction to that of the next. *)
Lemma run_next a b n prev sp r mm :
  its = a ++ b -> arm_next vm st.(pc_locs) n (code_len a) b -> 0 < n -> ubpf_fetch_instruction vm (n - 1) = Some prev ->
  ubpf_instruction_has_fallthrough prev = true ->
  exists q, st.(pc_locs) !! n = Some q /\ cpu_reaches base code (Cpu (code_len a) sp r mm) (Cpu q sp r mm).
Proof using Him Hlim Hty.
  intros E (pre & c & -> & Hst & Hl) Hn Hf Hft. exists (code_len a + code_len pre). split; [done |].
  inversion Hst as [Hfs Epre | u Hfs Hu Hnf Epre | u _ Hfs Hu Epre]; subst pre.
  - change (code_len []) with 0. by rewrite Z.add_0_r.
  - destruct Hnf as [? | (prev' & Hf' & Hft')]; [lia |]. congruence.
  - pose proof (run_branch a _ _ sp r mm E) as Hr. cbn [arm_slot_target jit_target_at jit_target_pc ebpf_target_pc] in Hr.
    destruct (arm_prefix _ _ _ _ _ Him _ _ E) as [_ ?]. pose proof (arm_image_short _ _ _ _ _ Hlim Him).
    rewrite wrap_id, (proj2 (Z.eqb_neq _ 0)) in Hr by lia.
    rewrite !code_len_cons. unfold arm_prolog_item. cbn [item_bytes].
    rewrite length_le_encode, length_arm_prolog by (by eapply usage_typed). change (code_len []) with 0.
    replace (code_len a + (Z.of_nat 4 + (Z.of_nat 12 + 0))) with (code_len a + 16) by lia. exact Hr.
Qed.

(** *** One turn *)

Section One.
Context (args : exec_args) (est est' : exec_state) (inst : ebpf_inst) (op : ebpf_op) (p sp : Z) (r : a64_state) (mm : memory).
Context (Hs : start prog est.(pc)) (Hinst : prog !! Z.to_nat est.(pc) = Some inst) (Hop : switch_op inst.(opcode) = Some op).
Context (Hstep : step vm args est = Value (Continue est')) (Hag : agrees st.(pc_locs) h est (Cpu p sp r mm)).

Lemma operands_fit : fits64 (dst_in inst r) /\ fits64 (src_in inst r) /\ dst_in inst r = get_reg est inst.(dst) /\
  src_in inst r = get_reg est inst.(src).
Proof using Hld Hs Hinst Hag.
  destruct (loaded_inst vm prog Hld _ _ Hs Hinst) as (_ & Hd & Hsr & _). pose proof (ag_regs _ _ _ _ Hag) as Hr. pose proof (ag_fit _ _ _ _ Hag) as Hfit. cbn [cpu_regs] in Hr.
  unfold dst_in, src_in. rewrite !(Hr _) by done. split_and!; try done; by apply regs_fit_get.
Qed.

Lemma falls_through : op <> EBPF_OP_EXIT -> ubpf_instruction_has_fallthrough inst = true.
Proof using Hop.
  intros Hne. unfold ubpf_instruction_has_fallthrough. rewrite <- (switch_op_sound _ _ Hop).
  rewrite (proj2 (Z.eqb_neq _ _)); [done |]. by intros ?%opcode_of_inj.
Qed.

(** The slot before the next instruction is this one, or its second half. *)
Lemma slot_before_next :
  op <> EBPF_OP_EXIT ->
  exists prev, ubpf_fetch_instruction vm (last_slot est.(pc) inst + 1 - 1) = Some prev /\
    ubpf_instruction_has_fallthrough prev = true.
Proof using Hld Hs Hinst Hop.
  clear Hlim. intros Hne. destruct (at_slot vm prog Hld est inst op Hs Hinst Hop) as (H0 & Hn & _ & Hf & _ & Hck).
  rewrite Z.add_simpl_r. unfold last_slot in *. destruct (is_lddw inst) eqn:El; [| exists inst; split; [done | by apply falls_through]].
  apply (is_lddw_op inst op Hop) in El. subst op. destruct (ck_group _ _ _ _ _ Hck) as (_ & Hn2 & H2).
  destruct (lookup_lt_is_Some_2 prog (Z.to_nat (est.(pc) + 1)) ltac:(lia)) as [inst2 Hi2].
  exists inst2. split; [rewrite (ld_fetch _ _ Hld) by (rewrite (ld_num_insts _ _ Hld); lia); exact Hi2 |].
  unfold inst_at in H2. rewrite Hi2 in H2. cbn in H2.
  assert (opcode inst2 = 0) as E0 by by rewrite H2. unfold ubpf_instruction_has_fallthrough. by rewrite E0.
Qed.

(** From the end of the code of the instruction to the next one. *)
Lemma next_after a pre cd b last r' mm' :
  its = a ++ pre ++ cd ++ b ->
  last_slot est.(pc) inst + 1 = Z.of_nat (length prog) /\ b = last \/ last_slot est.(pc) inst + 1 < Z.of_nat (length prog) /\
    arm_next vm st.(pc_locs) (last_slot est.(pc) inst + 1) (code_len (a ++ pre ++ cd)) b ->
  op <> EBPF_OP_EXIT -> last_slot est.(pc) inst + 1 < Z.of_nat (length prog) ->
  exists q, st.(pc_locs) !! (last_slot est.(pc) inst + 1) = Some q /\
    cpu_reaches base code (Cpu (code_len (a ++ pre ++ cd)) sp r' mm') (Cpu q sp r' mm').
Proof using All.
  intros E Hn Hne Hlt. destruct Hn as [[Hn _] | [_ Hn]]; [lia |]. destruct slot_before_next as (prev & Hf & Hft); [done |].
  eapply run_next; [by rewrite E, <- !app_assoc | exact Hn | | exact Hf | exact Hft].
  pose proof (start_from_ge _ _ _ Hs). unfold last_slot. destruct (is_lddw inst); lia.
Qed.

Lemma one_value :
  kind_of op = KindValue -> est'.(pc) < Z.of_nat (length prog) ->
  exists c, cpu_reaches base code (Cpu p sp r mm) c /\ agrees st.(pc_locs) h est' c.
Proof using All.
  intros Hk Hpc. pose proof Hag as [_ Hp Hregs Hfit Hm Hdis Hmok [Hsp Hhost]]. cbn [cpu_pc cpu_sp cpu_regs cpu_mem] in Hp, Hregs, Hm, Hsp, Hhost.
  destruct (step_value vm prog args Hld est inst op Hs Hinst Hop Hfit Hdbg _ Hk Hstep) as (v & st1 & E1 & Hv & Fv & Epc & Ereg & Emem).
  injection E1 as <-. destruct operands_fit as (Fd & Fs & Ed & Es).
  destruct (loaded_inst vm prog Hld _ _ Hs Hinst) as (_ & Hd & _ & _).
  destruct (am_placed _ _ _ _ _ Him _ _ Hs Hinst) as (op' & last & Hop' & [(a & pre & cd & b & E & Hl & _ & [_ Hsh] & Hn)]).
  assert (op' = op) as -> by congruence. rewrite Hp in Hl. injection Hl as Hl. rewrite Hl.
  unfold arm_shape in Hsh. rewrite Hk in Hsh. destruct Hsh as (ws & Hws & Hrun). rewrite <- Ed, <- Es in Hv.
  destruct (Hrun r v Fd Fs Hv) as (r' & Er & Hu).
  assert (its = (a ++ pre) ++ cd ++ b) as E1 by by rewrite <- app_assoc.
  pose proof (run_straight (a ++ pre) cd ws b sp r r' mm E1 Hws Er) as Hreach. rewrite <- app_assoc in Hreach.
  destruct (next_after a pre cd b last r' mm E Hn) as (q & Hq & Hreach'); [intros ->; discriminate | lia |].
  exists (Cpu q sp r' mm). split; [by etransitivity |]. constructor; cbn [cpu_pc cpu_sp cpu_regs cpu_mem].
  - rewrite Epc. pose proof (start_from_ge _ _ _ Hs). unfold last_slot. destruct (is_lddw inst); lia.
  - by rewrite Epc.
  - eapply access_agrees; [exact Hd | by apply updates_after | | exact Ereg | exact Hregs]. destruct Hfit as [-> _]. lia.
  - rewrite Ereg. by apply regs_fit_insert.
  - congruence.
  - by rewrite Emem.
  - by rewrite Emem.
  - split; [done |]. eapply host_kept; [exact Hd | by apply updates_after | done].
Qed.

Lemma one_access :
  kind_of op = KindMemory -> store_immediate_ok inst op -> est'.(pc) < Z.of_nat (length prog) ->
  exists c, cpu_reaches base code (Cpu p sp r mm) c /\ agrees st.(pc_locs) h est' c.
Proof using All.
  intros Hk Hst Hpc. pose proof Hag as [_ Hp Hregs Hfit Hm Hdis Hmok [Hsp Hhost]]. cbn [cpu_pc cpu_sp cpu_regs cpu_mem] in Hp, Hregs, Hm, Hsp, Hhost.
  destruct (step_memory vm prog args Hld est inst op Hs Hinst Hop Hfit Hdbg _ Hk Hstep) as (v & m' & st1 & E1 & Hv & Epc & Emem & Ereg).
  injection E1 as <-. destruct operands_fit as (Fd & Fs & Ed & Es).
  destruct (loaded_inst vm prog Hld _ _ Hs Hinst) as (_ & Hd & _ & _).
  destruct (am_placed _ _ _ _ _ Him _ _ Hs Hinst) as (op' & last & Hop' & [(a & pre & cd & b & E & Hl & _ & [_ Hsh] & Hn)]).
  assert (op' = op) as -> by congruence. rewrite Hp in Hl. injection Hl as Hl. rewrite Hl.
  unfold arm_shape in Hsh. rewrite Hk in Hsh. destruct Hsh as (ws & w & i & Hws & Hdec & Hrun). rewrite <- Ed, <- Es in Hv.
  destruct (Hrun r _ v m' Hst Hmok Hv) as (r' & r'' & Er & Hex & Hu). destruct (memory_effect_ok _ _ _ _ _ _ _ Hmok Hv) as (Hmok' & Hdom & Fv).
  apply (exec_access_frame _ _ _ _ _ h.(h_frame)) in Hex. rewrite <- Hm in Hex.
  assert (its = (a ++ pre) ++ cd ++ b) as E1 by by rewrite <- app_assoc.
  pose proof (run_access (a ++ pre) cd ws w i b sp r r' r'' _ _ E1 Hws Er Hdec Hex) as Hreach. rewrite <- app_assoc in Hreach.
  assert (last_slot est.(pc) inst = est.(pc)) as Els.
  { unfold last_slot. destruct (is_lddw inst) eqn:El; [| done]. apply (is_lddw_op inst op Hop) in El. by subst op. }
  destruct (next_after a pre cd b last r'' (m' ∪ h.(h_frame)) E Hn) as (q & Hq & Hreach'); [intros ->; discriminate | lia |].
  exists (Cpu q sp r'' (m' ∪ h.(h_frame))). split; [by etransitivity |]. pose proof (start_from_ge _ _ _ Hs). rewrite Els in Hq.
  constructor; cbn [cpu_pc cpu_sp cpu_regs cpu_mem].
  - lia.
  - by rewrite Epc.
  - eapply access_agrees; [exact Hd | exact Hu | | exact Ereg | exact Hregs]. destruct Hfit as [-> _]. lia.
  - rewrite Ereg. destruct v; [apply regs_fit_insert; auto | done].
  - by rewrite Emem.
  - rewrite Emem. apply map_disjoint_dom. rewrite Hdom. by apply map_disjoint_dom.
  - by rewrite Emem.
  - split; [done |]. by eapply host_kept.
Qed.

Lemma agrees_kept r' q :
  0 <= est'.(pc) -> est'.(reg) = est.(reg) -> est'.(mem) = est.(mem) -> keeps r r' -> st.(pc_locs) !! est'.(pc) = Some q ->
  agrees st.(pc_locs) h est' (Cpu q sp r' mm).
Proof using Hag.
  intros H0 Er Em Hk Hq. destruct Hag as [_ _ Hregs Hfit Hm Hdis Hmok [Hsp Hhost]]. cbn [cpu_sp cpu_regs cpu_mem] in Hregs, Hm, Hsp, Hhost.
  constructor; cbn [cpu_pc cpu_sp cpu_regs cpu_mem];
    [done | done | | by rewrite Er | congruence | by rewrite Em | by rewrite Em | split; [done |]].
  2:{ intros q' [Hs' Hq']. rewrite Hk by (intros ->; apply Hs'; unfold is_scratch; auto). by apply Hhost. }
  intros x Hx. rewrite (keeps_operand r r' x Hx Hk). rewrite (Hregs x Hx). unfold get_reg. by rewrite Er.
Qed.

(** Where a linked jump goes. *)
Lemma jump_place :
  group_of op = GroupJump ->
  st.(pc_locs) !! (est.(pc) + 1 + jump_offset inst) = Some (arm_slot_target st Jumps (ebpf_target (jump_target_pc est.(pc) inst))).
Proof using Him Hld Hs Hinst Hop.
  intros Hg. destruct (at_slot vm prog Hld est inst op Hs Hinst Hop) as (_ & _ & Hlen & _ & _ & Hck).
  pose proof (ck_group _ _ _ _ _ Hck) as Hgc. rewrite Hg in Hgc. destruct Hgc as (_ & Ht & Hnz).
  cbn [arm_slot_target ebpf_target jit_target_pc ebpf_target_pc Z.eqb]. rewrite (jump_target_u32 prog) by (done || by apply (loaded_length vm)).
  destruct (lookup_lt_is_Some_2 prog (Z.to_nat (est.(pc) + 1 + jump_offset inst)) ltac:(lia)) as [inst2 H2].
  destruct (arm_position _ _ _ _ _ Him (est.(pc) + 1 + jump_offset inst) inst2) as (q & -> & _); [| done | done].
  eapply validated_nonzero_start; [apply Hld | done | done].
Qed.

Lemma one_jump :
  group_of op = GroupJump -> est'.(pc) < Z.of_nat (length prog) ->
  exists c, cpu_reaches base code (Cpu p sp r mm) c /\ agrees st.(pc_locs) h est' c.
Proof using All.
  intros Hg Hpc. pose proof (ag_pc _ _ _ _ Hag) as Hp. cbn [cpu_pc] in Hp.
  destruct (step_jump vm prog args Hld est inst op Hs Hinst Hop Hdbg _ Hg Hstep) as (taken & st1 & E1 & Ereg & Emem & Epc & Hcond).
  injection E1 as <-. destruct operands_fit as (Fd & Fs & Ed & Es). pose proof (jump_place Hg) as Hplace.
  assert (0 <= est'.(pc)) as H0.
  { pose proof (ck_group _ _ _ _ _ (proj2 (proj2 (proj2 (proj2 (proj2 (at_slot vm prog Hld est inst op Hs Hinst Hop))))))) as Hgc.
    rewrite Hg in Hgc. pose proof (start_from_ge _ _ _ Hs). rewrite Epc. destruct taken; [apply Hgc | lia]. }
  destruct (am_placed _ _ _ _ _ Him _ _ Hs Hinst) as (op' & last & Hop' & [(a & pre & cd & b & E & Hl & _ & [_ Hsh] & Hn)]).
  assert (op' = op) as -> by congruence. rewrite Hp in Hl. injection Hl as Hl. rewrite Hl.
  assert (its = (a ++ pre) ++ cd ++ b) as E1 by by rewrite <- app_assoc.
  unfold arm_shape in Hsh. destruct (proj1 (jump_kind op) Hg) as [Hk | Hk]; rewrite Hk in *.
  - destruct Hsh as (c & cmp & ws & -> & Hws & Hrun). destruct (Hrun r Fd Fs) as (r' & Er & Hkeep & Hc).
    rewrite Ed, Es, Hcond in Hc. injection Hc as Hc. rewrite <- (app_assoc cmp) in E1.
    pose proof (run_straight (a ++ pre) cmp ws _ sp r r' mm E1 Hws Er) as Hreach.
    rewrite (app_assoc _ cmp) in E1. pose proof (run_conditional _ _ _ _ sp r' mm E1) as Hreach2. rewrite <- Hc in Hreach2.
    destruct taken.
    + eexists. split; [etransitivity; [exact Hreach | exact Hreach2] |]. apply agrees_kept; [done | done | done | done | by rewrite Epc].
    + assert (last_slot est.(pc) inst + 1 = est.(pc) + 1) as Els.
      { unfold last_slot. destruct (is_lddw inst) eqn:El; [| done]. apply (is_lddw_op inst op Hop) in El. by subst op. }
      set (sl := Slot Jumps (ebpf_target (jump_target_pc est.(pc) inst)) (BR_Bcond .| condition_bits c)) in *.
      assert (code_len ((a ++ pre) ++ cmp) + 4 = code_len (a ++ pre ++ cmp ++ [sl])) as E4.
      { rewrite !code_len_app, code_len_cons. unfold sl. cbn [item_bytes]. rewrite length_le_encode. change (code_len []) with 0. lia. }
      rewrite E4 in Hreach2.
      destruct (next_after a pre (cmp ++ [sl]) b last r' mm E Hn) as (q & Hq & Hreach'); [intros ->; discriminate | lia |].
      exists (Cpu q sp r' mm). split; [etransitivity; [exact Hreach |]; etransitivity; [exact Hreach2 | exact Hreach'] |].
      apply agrees_kept; [done | done | done | done | by rewrite Epc, <- Els].
  - subst taken cd. pose proof (run_branch _ _ _ sp r mm E1) as Hreach. eexists. split; [exact Hreach |].
    apply agrees_kept; [done | done | done | done | by rewrite Epc].
Qed.
End One.

(** *** Several turns *)

(** A turn on an instruction whose code is covered. *)
Definition covered_turn (args : exec_args) (est est' : exec_state) : Prop :=
  step vm args est = Value (Continue est') /\ exists inst, prog !! Z.to_nat est.(pc) = Some inst /\ covered inst = true.

Lemma known_start k inst op :
  0 <= k -> prog !! Z.to_nat k = Some inst -> switch_op inst.(opcode) = Some op -> start prog k.
Proof using Hld.
  clear Hlim. intros Hk Hinst Hop. pose proof (lookup_lt_Some _ _ _ Hinst). eapply validated_nonzero_start; [apply Hld | lia |].
  unfold inst_at. rewrite Hinst. cbn. intros E0. by rewrite E0 in Hop.
Qed.

Lemma one_turn args est est' c :
  agrees st.(pc_locs) h est c -> covered_turn args est est' -> est'.(pc) < Z.of_nat (length prog) ->
  exists c', cpu_reaches base code c c' /\ agrees st.(pc_locs) h est' c'.
Proof using Him Hlim Hld Hty Hdbg.
  intros Hag (Hstep & inst & Hinst & Hro) Hpc. unfold covered in Hro. destruct c as [p sp r mm].
  destruct (switch_op inst.(opcode)) as [op |] eqn:Hop; [| done].
  pose proof (known_start _ _ _ (ag_slot _ _ _ _ Hag) Hinst Hop) as Hs.
  destruct (kind_of op) eqn:Hk; try done; [by eapply one_value | eapply one_access; try done | |];
    [| (eapply one_jump; try done); apply jump_kind; auto ..].
  intros ->. rewrite bool_decide_eq_true_2 in Hro by done. cbn [andb] in Hro. lia.
Qed.

Lemma several_turns args est est' c :
  agrees st.(pc_locs) h est c -> rtc (covered_turn args) est est' -> est'.(pc) < Z.of_nat (length prog) ->
  exists c', cpu_reaches base code c c' /\ agrees st.(pc_locs) h est' c'.
Proof using Him Hlim Hld Hty Hdbg.
  intros Hag Hr Hpc. revert c Hag. induction Hr as [est | est est1 est' Ht Hr IH]; intros c Hag; [by exists c |].
  assert (est1.(pc) < Z.of_nat (length prog)) as Hpc1.
  { inversion Hr as [| ? ? ? (_ & inst & Hinst & _) _]; subst; [done |]. pose proof (lookup_lt_Some _ _ _ Hinst). lia. }
  destruct (one_turn args est est1 c Hag Ht Hpc1) as (c1 & Hc1 & Hag1). destruct (IH Hpc c1 Hag1) as (c2 & Hc2 & Hag2).
  exists c2. split; [by etransitivity | done].
Qed.
End Sim.

(** ** Properties *)

(** *** A program without calls and atomic operations, for evaluation *)

(** [mov r0, 7; stb [r10-8], 35; ldxb r1, [r10-8]; add r0, r1; jeq r0, 42, +1; mov r0, 0; exit] *)
Definition sim_code : list Z :=
  bytes_of_insts [Inst 0xb7 0 0 0 7; Inst 0x72 10 0 (-8) 35; Inst 0x71 1 10 (-8) 0; Inst 0x0f 0 1 0 0; Inst 0x15 0 0 1 42;
                  Inst 0xb7 0 0 0 0; Inst 0x95 0 0 0 0].

Definition sim_vm : ubpf_vm := load_on null_host (created_on JitArm64) sim_code.
Definition sim_args : exec_args := ExecArgs 0 0 4096 512.

(** All registers zero but r10, the end of the stack. *)
Definition sim_memory : memory := {[ 4600 := 0 ]}.
Definition sim_state : exec_state :=
  ExecState 0 (<[10%nat := 4608]> (replicate 16 0)) (replicate 8 no_frame) 0 0 (replicate 64 0) 0 sim_memory.
Definition sim_regs : a64_state := A64 (fun q => if q =? reg_of 10 then 4608 else 0) (Nzcv false false false false).

Lemma sim_loaded : @loaded null_host sim_vm (insts_of_bytes sim_code).
Proof.
  destruct (@load_outcome null_host (created_on JitArm64) test_os sim_code test_os_sound ltac:(discriminate)) as (vm' & r & E & _ & Hr).
  unfold sim_vm, load_on. rewrite E. destruct r as [[] | e]; [apply Hr |]. exfalso. vm_compute in E. discriminate.
Qed.

Lemma sim_compilable : @arm_compilable null_host sim_vm (insts_of_bytes sim_code) (fun _ => true) jit_buffer.
Proof.
  constructor; [apply sim_loaded | | by vm_compute | done | by vm_compute].
  unfold usages_typed. apply (bool_decide_unpack _). vm_compute. done.
Qed.

Definition sim_host : host_context := Host 8192 (fun _ => 0) ∅.

Lemma sim_agrees locs p : locs !! 0 = Some p -> agrees locs sim_host sim_state (Cpu p 8192 sim_regs sim_memory).
Proof.
  intros Hp. constructor; [done | done | | | done | apply map_disjoint_empty_r | by apply map_Forall_singleton | split; [done |]].
  - intros r Hr. assert (Forall (fun r => sim_regs.(xregs) (reg_of r) = get_reg sim_state r) (seqZ 0 11)) as Hall
      by (apply (bool_decide_unpack _); by vm_compute).
    eapply list.Forall_forall in Hall; [exact Hall |]. apply elem_of_seqZ. lia.
  - split; [done |]. apply Forall_insert; [apply Forall_replicate |]; by split.
  - intros q [_ Hq]. cbn. destruct (Z.eqb_spec q (reg_of 10)) as [-> |]; [| done]. exfalso. apply Hq. by apply (bool_decide_unpack _).
Qed.

(** C7: the arm64 code of a loaded program does what the interpreter does: the
    processor at the code of an arithmetic, byte-order, LDDW, load, store or jump
    instruction, with the eBPF registers in the host registers and the interpreter's
    memory, gets to the code of the instruction the interpreter goes on with, with
    the eBPF registers and the memory of the interpreter after it and the other
    registers and memory of the host unchanged, for any number of turns, with or
    without constant blinding and for every value of the random constants.  The
    buffer is large enough, the allocations of the compilation succeed, and no debug
    function is registered; 64-bit stores (STDW) of a negative immediate are left out:
    there the code differs. *)
Theorem arm_code_simulates `{HostEnv} (vm : ubpf_vm) (prog : list ebpf_inst) (alloc : nat -> bool)
    (buffer : list Z) (random : nat -> Z) (mode : JitMode) :
  arm_compilable vm prog alloc buffer -> vm.(debug_function) = 0 ->
  exists st0 st st',
    initialize_jit_state_result alloc buffer (Z.of_nat (length buffer)) mode random =
      (Some st0, JitResult 0 0 UBPF_JIT_COMPILE_FAILURE mode) /\
    translate vm st0 = Some (Ok tt, st) /\ resolve_passes st = Some (true, st') /\
    (forall k inst, start prog k -> prog !! Z.to_nat k = Some inst -> is_Some (st.(pc_locs) !! k)) /\
    forall base h args est est' c, agrees st.(pc_locs) h est c -> rtc (covered_turn vm prog args) est est' ->
      est'.(pc) < Z.of_nat (length prog) ->
      exists c', cpu_reaches base st'.(buf) c c' /\ agrees st.(pc_locs) h est' c'.
Proof.
  intros Hcp Hdbg. destruct (arm_compile_image _ _ _ _ Hcp random mode) as (st0 & its & st & E0 & Et & Him & _).
  pose proof (proj2 (ar_buffer _ _ _ _ Hcp)) as Hlim. pose proof (ar_loaded _ _ _ _ Hcp) as Hld.
  exists st0, st, (set_buf (linked_code (LK := arm_linker) buffer its st) st). split; [done |]. split; [done |].
  split; [by eapply arm_image_resolves |]. split.
  - intros k inst Hk Hinst. destruct (arm_position _ _ _ _ _ Him k inst Hk Hinst) as (p & Hp & _). by exists p.
  - intros base h args est est' c. eapply several_turns; [exact Hlim | exact Him | exact Hld | apply Hcp | exact Hdbg].
Qed.

Lemma arm_code_simulates_witness :
  exists st st' p c', st.(pc_locs) !! 0 = Some p /\ cpu_reaches 65536 st'.(buf) (Cpu p 8192 sim_regs sim_memory) c' /\
    st.(pc_locs) !! 3 = Some c'.(cpu_pc) /\ c'.(cpu_regs).(xregs) (reg_of 1) = 35 /\ c'.(cpu_mem) !! 4600 = Some 35.
Proof.
  destruct (@arm_code_simulates null_host sim_vm (insts_of_bytes sim_code) (fun _ => true) jit_buffer (fun _ => 0) BasicJitMode
    sim_compilable ltac:(vm_compute; reflexivity)) as (st0 & st & st' & _ & _ & _ & Hlocs & Hsim).
  destruct (Hlocs 0 (Inst 0xb7 0 0 0 7)) as [p Hp]; [constructor | reflexivity |].
  destruct (Hsim 65536 sim_host sim_args sim_state (after 3 sim_vm sim_args sim_state) (Cpu p 8192 sim_regs sim_memory)) as (c' & Hc & [_ Epc Hr _ Hm _ _ _]).
  - by apply sim_agrees.
  - apply (rtc_l _ _ (after 1 sim_vm sim_args sim_state)); [| apply (rtc_l _ _ (after 2 sim_vm sim_args sim_state)); [| apply rtc_once]];
      (split; [vm_compute; reflexivity |]); eexists; split; vm_compute; reflexivity.
  - vm_compute. reflexivity.
  - exists st, st', p, c'. split; [exact Hp |]. split; [exact Hc |]. split; [exact Epc |]. split.
    + rewrite (Hr 1 ltac:(lia)). vm_compute. reflexivity.
    + rewrite Hm. vm_compute. reflexivity.
Defined.

(** A 64-bit store of the immediate -1 stores 0xffffffff in arm64 code: its operand
    is put into the register at 32 bits. The interpreter stores all ones. *)
Theorem arm_stdw_zero_extends (vm : ubpf_vm) (src : Z) (st : jit_state) :
  let inst := Inst (opcode_of EBPF_OP_STDW) 1 0 0 (-1) in
  room 36 0 st ->
  store_shape EBPF_OP_STDW = Some (8, false) /\ u64 inst.(imm) = 2 ^ 64 - 1 /\
  exists its ws, emit_immediate_operand vm inst src (is_alu64_op inst) st =
      Some ((temp_register, opcode_of EBPF_OP_STXDW), asm its st) /\ straight its ws /\
    forall a, exists a', a64_run ws a = Some a' /\ a'.(xregs) temp_register = 0xffffffff.
Proof.
  intros inst Hroom. split; [done |]. split; [done |].
  assert (in_register vm inst EBPF_OP_STDW = true) as Hr by (unfold in_register; cbn; apply orb_true_r).
  destruct (operand_run vm inst EBPF_OP_STDW src (is_alu64_op inst) st (switch_op_complete _) Hroom) as (its & ws & _ & Hs & _ & E & Hrun).
  unfold operand_src, operand_op in E. rewrite Hr in E. exists its, ws. split; [exact E |]. split; [done |].
  intros a. destruct (Hrun a) as (a' & Ea & _ & Hv). exists a'. split; [done |]. by rewrite Hv.
Qed.
