(* ===== verification/Arm64Local.v ===== *)
(** * Arm64Local: local calls in compiled arm64 code

    The code of a local call saves the link, the stack usage and r6 to r9 on the host
    stack, and the code behind the call takes them from there again; the
    interpreter keeps them in its array of frames.  The invariant [frames_ok] relates
    the two, and with it a program of covered instructions, local calls and exits
    runs from its first instruction to the exit of its main function. *)

From Stdlib Require Import ZArith Lia Bool.
From stdpp Require Import base list gmap strings numbers relations.
From S2P Require Import Prelude Ebpf InstValid Mem Vm Validate Load Alu Checks Interp InterpSound JitSupport JitAsm JitLink JitProg.
From S2P Require Import Arm64Emit Arm64Isa Arm64Move Arm64Trans Arm64Cost Arm64Run Arm64Mem Arm64Code Arm64Sound Arm64Correct Arm64Link Arm64Cpu Arm64Stack Arm64Result Arm64Sim.

Local Open Scope Z_scope.
Local Open Scope cbits_scope.

(** ** The words *)

Definition kept_pairs : list (Z * Z) := [(R19, R20); (R21, R22)].

Lemma keep_words : pair_words false 16 kept_pairs [0xa90153f3; 0xa9025bf5].
Proof. repeat (apply pair_words_cons; [stack_word | by vm_compute |]). constructor. Qed.

Lemma kept_words : pair_words true 16 kept_pairs [0xa94153f3; 0xa9425bf5].
Proof. repeat (apply pair_words_cons; [stack_word | by vm_compute |]). constructor. Qed.

Lemma kept_named q : q ∈ registers_of kept_pairs <-> 19 <= q <= 22.
Proof. change (registers_of kept_pairs) with [19; 20; 21; 22]. set_unfold. lia. Qed.

Ltac access_word := split; [| split]; vm_compute; reflexivity.

(** [add] or [sub x23, x23, x24] *)
Lemma step_adjust w sub s :
  a64_decode w = Some (AddSub true sub false R23 R23 R24) ->
  exists s', a64_step w s = Some s' /\ sets_reg s s' R23 (u64 (if sub then s.(xregs) R23 - s.(xregs) R24 else s.(xregs) R23 + s.(xregs) R24)).
Proof.
  intros Hw. unfold a64_step. rewrite Hw. cbn [mbind option_bind a64_exec]. rewrite (surjective_pairing (add_sub true sub _ _)).
  eexists. split; [reflexivity |]. rewrite !read_operand by done. cbn [width].
  match goal with |- sets_reg s (write_reg s true R23 ?v) _ _ => pose proof (write_sets_reg s true R23 v ltac:(done)) as Hs end.
  destruct sub; rewrite ?difference_value, ?sum_value in *; cbn [width] in *;
    rewrite ?wrap_wrap, ?wrap_sub_l, ?wrap_sub_r, ?wrap_add_l, ?wrap_add_r in * by lia; exact Hs.
Qed.

(** A register holds [v], all but those of [l] hold what they did. *)
Definition changes_regs (l : list Z) (s s' : a64_state) : Prop := forall q, q ∉ l -> s'.(xregs) q = s.(xregs) q.

Section Words.
Context (sp u : Z) (s : a64_state) (m f : memory) (Hal : (16 | sp)) (Hd : m ##ₘ f).

(** What is on the stack during a call. *)
Definition call_saved (sp link : Z) (g : Z -> Z) (f : memory) : Prop :=
  deref f sp 8 = Some link /\ deref f (sp + 8) 8 = Some u /\ pairs_at f (sp + 16) g kept_pairs.

Lemma call_runs :
  64 <= sp -> sp + 16 < 2 ^ 64 -> 0 <= u < 2 ^ 64 -> deref f sp 8 = Some u -> mapped f (sp - 48) 48 ->
  (forall q, q = R30 \/ 19 <= q <= 22 -> fits64 (s.(xregs) q)) ->
  exists s' f', runs_words call_words (HostState sp s (m ∪ f)) (HostState (sp - 48) s' (m ∪ f')) /\ m ##ₘ f' /\
    changes_only (sp - 48) 48 f f' /\ call_saved (sp - 48) (s.(xregs) R30) s.(xregs) f' /\
    s'.(xregs) R23 = u64 (s.(xregs) R23 - u) /\ changes_regs [R23; R24] s s'.
Proof using Hal Hd.
  intros H64 Hsp Hu Hv Hm Hfit. set (s1 := write_reg s true R24 u).
  destruct (write_sets_reg s true R24 u ltac:(done)) as [V1 O1 _]. fold s1 in V1, O1. cbn [width] in V1. rewrite (wrap_id 64) in V1 by done.
  destruct (step_adjust 0xcb1802f7 true s1) as (s2 & E2 & [V2 O2 _]); [by vm_compute |]. rewrite V1, (O1 R23) in V2 by done.
  assert ((16 | sp - 48)) as Hal2 by (destruct Hal as [k ->]; exists (k - 3); lia).
  assert (forall q, q = R30 \/ 19 <= q <= 22 -> s2.(xregs) q = s.(xregs) q) as Hk.
  { intros q Hq. assert (q <> R23 /\ q <> R24) as [? ?] by (unfold R23, R24, R30 in *; lia). by rewrite O2, O1. }
  destruct (executes_store_sp 0xf80003fe R30 0 (sp - 48) s2 m f) as (f3 & E3 & D3 & V3 & C3);
    [access_word | done | lia | lia | done | rewrite Hk by auto; apply Hfit; auto | done | intros i Hi; apply Hm; lia |].
  destruct (executes_store_sp 0xf80083f8 R24 8 (sp - 48) s2 m f3) as (f4 & E4 & D4 & V4 & C4);
    [access_word | done | lia | lia | done | rewrite O2, V1 by done; done | done | eapply changes_only_mapped; [exact C3 |]; intros i Hi; apply Hm; lia |].
  rewrite Z.add_0_r in V3, C3. rewrite (O2 R24), V1 in V4 by done.
  destruct (stores_pairs kept_pairs _ 16 (sp - 48) s2 m f4 keep_words Hal2) as (f5 & E5 & D5 & P5 & C5);
    [lia | cbn; lia | intros q Hq%kept_named; rewrite Hk by auto; split; [lia | apply Hfit; auto] | done | |].
  { eapply changes_only_mapped; [exact C4 |]. eapply changes_only_mapped; [exact C3 |]. intros i Hi. apply Hm. cbn in Hi. lia. }
  change (16 * Z.of_nat (length kept_pairs)) with 32 in C5.
  exists s2, f5. split; [| split; [done |]; split; [| split; [| split]]].
  - econstructor; [apply (executes_load_sp _ R24 0 u); [access_word | done | lia | lia | done | by rewrite Z.add_0_r] |].
    econstructor; [by apply executes_plain |]. econstructor; [apply (executes_push _ 48); [stack_word | lia | lia | lia] |].
    econstructor; [exact E3 |]. econstructor; [exact E4 | exact E5].
  - eapply changes_only_trans; [eapply changes_only_weaken; [exact C3 | lia | lia] |].
    eapply changes_only_trans; eapply changes_only_weaken; [exact C4 | lia | lia | exact C5 | lia | lia].
  - split; [| split].
    + rewrite (deref_frame _ _ _ _ _ _ C5), (deref_frame _ _ _ _ _ _ C4), V3, Hk by (auto || lia). done.
    + by rewrite (deref_frame _ _ _ _ _ _ C5), V4 by lia.
    + eapply pairs_at_ext; [| exact P5]. intros q Hq%kept_named. apply Hk. auto.
  - exact V2.
  - intros q Hq. rewrite O2, O1; [done | |]; intros ->; apply Hq; by apply (bool_decide_unpack _).
Qed.

Lemma return_runs link g :
  0 <= sp -> sp + 64 < 2 ^ 64 -> 0 <= u < 2 ^ 64 -> fits64 link -> (forall q, 19 <= q <= 22 -> fits64 (g q)) -> call_saved sp link g f ->
  exists s', runs_words return_words (HostState sp s (m ∪ f)) (HostState (sp + 48) s' (m ∪ f)) /\
    s'.(xregs) R30 = link /\ (forall q, 19 <= q <= 22 -> s'.(xregs) q = g q) /\ s'.(xregs) R23 = u64 (s.(xregs) R23 + u) /\
    changes_regs [R19; R20; R21; R22; R23; R24; R30] s s'.
Proof using Hal Hd.
  intros H0 Hsp Hu Hl Hg (V1 & V2 & P). set (s1 := write_reg s true R30 link). set (s2 := write_reg s1 true R24 u).
  destruct (write_sets_reg s true R30 link ltac:(done)) as [A1 O1 _]. fold s1 in A1, O1.
  destruct (write_sets_reg s1 true R24 u ltac:(done)) as [A2 O2 _]. fold s2 in A2, O2. cbn [width] in A1, A2. rewrite (wrap_id 64) in A1, A2 by done.
  destruct (loads_pairs kept_pairs _ 16 sp s2 m f g kept_words Hal) as (s3 & E3 & I3 & O3);
    [lia | cbn; lia | intros q Hq%kept_named; split; [lia | by apply Hg] | done | done |].
  assert (s3.(xregs) R24 = u) as A3 by (rewrite O3; [done |]; by apply (bool_decide_unpack _)).
  assert (s3.(xregs) R23 = s.(xregs) R23) as B3 by (rewrite O3, O2, O1; [done | done | done |]; by apply (bool_decide_unpack _)).
  destruct (step_adjust 0x8b1802f7 false s3) as (s4 & E4 & [V4 O4 _]); [by vm_compute |]. rewrite A3, B3 in V4.
  exists s4. split; [| split; [| split; [| split]]].
  - econstructor; [apply (executes_load_sp _ R30 0 link); [access_word | done | lia | lia | done | by rewrite Z.add_0_r] |].
    econstructor; [apply (executes_load_sp _ R24 8 u); [access_word | done | lia | lia | done | done] |].
    apply (runs_words_app [_; _] [_; _] _ (HostState sp s3 (m ∪ f))); [exact E3 |].
    econstructor; [apply (executes_pop _ 48); [stack_word | lia] |]. by apply runs_words_one, executes_plain.
  - rewrite O4, O3, O2, A1; [done | done | | done]. by apply (bool_decide_unpack _).
  - intros q Hq. rewrite O4 by (unfold R23; lia). by apply I3, kept_named.
  - exact V4.
  - intros q Hq. set_unfold in Hq. assert (~ 19 <= q <= 22 /\ q <> R23 /\ q <> R24 /\ q <> R30) as (Hq1 & ? & ? & ?)
      by (unfold R19, R20, R21, R22, R23, R24, R30 in *; lia).
    rewrite O4, O3, O2, O1; try done. by rewrite kept_named.
Qed.
End Words.

(** The set-up of a function's frame. *)
Lemma prolog_words_run sp u s (m f : memory) :
  (16 | sp - 16) -> 16 <= sp -> sp < 2 ^ 64 -> 0 <= u < 2 ^ 16 -> m ##ₘ f -> mapped f (sp - 16) 16 ->
  exists s' f', runs_words (arm_prolog_words u) (HostState sp s (m ∪ f)) (HostState (sp - 16) s' (m ∪ f')) /\ m ##ₘ f' /\
    changes_only (sp - 16) 16 f f' /\ deref f' (sp - 16) 8 = Some u /\ changes_regs [R24] s s'.
Proof.
  intros Hal H16 Hsp Hu Hd Hm.
  destruct (run_movewide true temp_register ltac:(by vm_compute) ltac:(done) u s) as (s2 & E2 & [V2 O2 _]).
  cbn [width] in V2. rewrite (wrap_id 64) in V2 by lia.
  destruct (executes_store_pair 0xa90063f8 R24 R24 0 (sp - 16) s2 m f) as (f2 & E3 & D2 & (V3 & _) & C2);
    [stack_word | done | lia | lia | | done | by rewrite Z.add_0_r |].
  { intros q Hq. assert (q = temp_register) as -> by (apply elem_of_pair in Hq as [? | [? | Hq%elem_of_nil]]; done).
    rewrite V2. split; [done |]. unfold fits64. lia. }
  rewrite Z.add_0_r in C2, V3. exists s2, f2. split; [| split; [done |]; split; [done |]; split].
  - unfold arm_prolog_words. eapply runs_words_app; [by apply runs_plain |].
    econstructor; [apply (executes_push _ 16); [stack_word | lia | lia | lia] | by apply runs_words_one].
  - by rewrite V3, <- V2.
  - intros q Hq. apply O2. intros ->. apply Hq. by left.
Qed.

(** ** The frames *)

Section Frames.
Context (prog : list ebpf_inst) (locs : gmap Z Z) (base u sp0 link0 : Z).

(** The code at [link] is behind the call that returns to the slot [ret]. *)
Definition returns_to (link ret : Z) : Prop :=
  exists k inst p, start prog k /\ prog !! Z.to_nat k = Some inst /\ is_local_call inst = true /\ ret = k + 1 /\
    locs !! k = Some p /\ link = base + p + 32.

Definition saved_of (fr : ubpf_stack_frame) (q : Z) : Z := saved fr (Z.to_nat (q - 19)).

(** The host stack from [sp] upward holds the [d] frames of the interpreter. *)
Fixpoint frames_ok (frames : list ubpf_stack_frame) (f : memory) (d : nat) (sp link : Z) : Prop :=
  deref f sp 8 = Some u /\
  match d with
  | O => sp = sp0 /\ link = link0
  | S d => exists fr link', frames !! d = Some fr /\ fr.(frame_stack_usage) = u /\
      (forall q, 19 <= q <= 22 -> fits64 (saved_of fr q)) /\ returns_to link fr.(return_address) /\
      call_saved u (sp + 16) link' (saved_of fr) f /\ fits64 link' /\ frames_ok frames f d (sp + 64) link'
  end.

Lemma frames_ok_sp frames f d sp link : frames_ok frames f d sp link -> sp = sp0 - 64 * Z.of_nat d.
Proof.
  revert sp link. induction d as [| d IH]; intros sp link (_ & Hd); [destruct Hd as [-> _]; lia |].
  destruct Hd as (fr & link' & _ & _ & _ & _ & _ & _ & Hd). apply IH in Hd. lia.
Qed.

Lemma frames_ok_head frames f d sp link : frames_ok frames f d sp link -> deref f sp 8 = Some u /\ (d = O -> link = link0).
Proof. destruct d; intros [Hd H]; (split; [done |]); intros; [apply H | done]. Qed.

Lemma frames_ok_frames frames frames' f d sp link :
  (forall j, (j < d)%nat -> frames' !! j = frames !! j) -> frames_ok frames f d sp link -> frames_ok frames' f d sp link.
Proof.
  revert sp link. induction d as [| d IH]; intros sp link Hj (Hu & Hd); (split; [done |]); [done |].
  destruct Hd as (fr & link' & Hfr & Hd). exists fr, link'. rewrite Hj by lia. split; [done |].
  destruct Hd as (? & ? & ? & ? & ? & Hd). split_and!; try done. apply IH; [| done]. intros j Hlt. apply Hj. lia.
Qed.

Lemma call_saved_frame f f' a n sp link g : changes_only a n f f' -> a + n <= sp -> call_saved u sp link g f -> call_saved u sp link g f'.
Proof.
  intros Hc Hle (H1 & H2 & H3). split; [by rewrite (deref_frame _ _ _ _ _ _ Hc) by lia |].
  split; [by rewrite (deref_frame _ _ _ _ _ _ Hc) by lia |]. eapply pairs_at_frame; [exact Hc | cbn; lia | done].
Qed.

Lemma frames_ok_memory frames f f' a n d sp link :
  changes_only a n f f' -> a + n <= sp -> frames_ok frames f d sp link -> frames_ok frames f' d sp link.
Proof.
  intros Hc. revert sp link. induction d as [| d IH]; intros sp link Hle (Hu & Hd);
    (split; [by rewrite (deref_frame _ _ _ _ _ _ Hc) by lia |]); [done |].
  destruct Hd as (fr & link' & ? & ? & ? & ? & Hs & ? & Hd). exists fr, link'. split_and!; try done.
  - eapply call_saved_frame; [exact Hc | lia | done].
  - apply IH; [lia | done].
Qed.
End Frames.

(** ** Turns of the interpreter *)

(** The instructions of a program: those of [Arm64Sim], local calls and exits. *)
Definition covered_program (prog : list ebpf_inst) : Prop :=
  forall k inst, start prog k -> prog !! Z.to_nat k = Some inst ->
    covered inst = true \/ is_local_call inst = true \/ inst.(opcode) = opcode_of EBPF_OP_EXIT.

(** All functions have the same stack usage, as they have without a calculator of
    the application.  (The interpreter takes the usage of a function when it gets to
    its first instruction in whatever way, the code when it is called.) *)
Definition same_usage (vm : ubpf_vm) (prog : list ebpf_inst) (u : Z) : Prop :=
  forall i, 0 <= i < Z.of_nat (length prog) -> function_start vm i = true -> ubpf_stack_usage_for_local_func vm i = Some u.

Definition entered (vm : ubpf_vm) (u : Z) (est : exec_state) : Prop :=
  est.(stack_frame_index) < UBPF_MAX_CALL_DEPTH ->
  function_start vm est.(pc) = true \/ (frame_at est est.(stack_frame_index)).(frame_stack_usage) = u.

Section Turns.
Context `{HostEnv} (vm : ubpf_vm) (prog : list ebpf_inst) (Hld : loaded vm prog) (Hrp : covered_program prog) (args : exec_args).
Context (Hdbg : vm.(debug_function) = 0) (u : Z) (Hu : same_usage vm prog u).

Lemma load_continues k inst size sx est act : exec_load vm args k inst size sx est = Value act -> exists est', act = Continue est'.
Proof using.
  unfold exec_load. destruct (bounds_check_load _ _ _ _ _ _) as [[a st1] | |]; [| done ..]. cbn [bind_outcome].
  destruct (if sx then _ else _); [| done]. cbn [of_option bind_outcome]. intros [= <-]. by eexists.
Qed.

Lemma store_continues k inst size fr est act : exec_store vm args k inst size fr est = Value act -> exists est', act = Continue est'.
Proof using.
  unfold exec_store. destruct (bounds_check_store _ _ _ _ _ _) as [[a st1] | |]; [| done ..]. cbn [bind_outcome].
  destruct (ubpf_mem_store _ _ _ _); [| done]. cbn [of_option bind_outcome]. intros [= <-]. by eexists.
Qed.

Lemma covered_continues k inst est act :
  covered inst = true -> exec_switch vm args k inst est = Value act -> exists est', act = Continue est'.
Proof using.
  unfold covered, exec_switch. destruct (switch_op inst.(opcode)) as [op |]; [| done]. intros Hro.
  destruct (neg_overflows _ _); [done |].
  destruct (exec_alu _ _ _ _ _) eqn:Ea; [intros [= <-]; by eexists |]. destruct (exec_endian _ _ _) eqn:Ee; [intros [= <-]; by eexists |].
  destruct (exec_condition _ _ _ _) eqn:Ec; [intros [= <-]; by eexists |]. unfold exec_other.
  destruct (load_shape op) as [[size sx] |] eqn:El; [apply load_continues |].
  destruct (store_shape op) as [[size fr] |] eqn:Es; [apply store_continues |].
  destruct op; try discriminate Hro; try discriminate Ea; try discriminate Ee; try discriminate Ec; try discriminate El;
    try discriminate Es; unfold exec_lddw; try (intros [= <-]; by eexists).
  destruct (ubpf_fetch_instruction vm est.(pc)); [| done]. cbn [of_option bind_outcome]. intros [= <-]. by eexists.
Qed.


Lemma enters_usage est est2 :
  0 <= est.(pc) < Z.of_nat (length prog) -> entered vm u est -> 0 <= est.(stack_frame_index) < UBPF_MAX_CALL_DEPTH ->
  length est.(stack_frames) = 8%nat -> enter_function vm est = Value est2 ->
  (default no_frame (est2.(stack_frames) !! Z.to_nat est.(stack_frame_index))).(frame_stack_usage) = u.
Proof using Hu.
  intros Hpc Hen Hi Hlen He. unfold enter_function in He.
  destruct (if est.(pc) =? 0 then _ else _) as [marked | |] eqn:Em; [| done ..]. cbn [bind_outcome] in He.
  assert (function_start vm est.(pc) = marked) as Hm.
  { unfold function_start. destruct (est.(pc) =? 0); [by injection Em as <- |]. destruct vm.(int_funcs) as [flags |]; [| done].
    cbn [mbind option_bind]. destruct (flags !! Z.to_nat est.(pc)); [| done]. by injection Em as <-. }
  rewrite (proj2 (Z.ltb_lt _ _)), andb_true_r in He by lia. destruct marked.
  - rewrite (Hu _ Hpc Hm) in He. cbn [of_option bind_outcome] in He. injection He as <-. cbn [stack_frames set_frames].
    unfold UBPF_MAX_CALL_DEPTH in Hi. by rewrite list_lookup_insert_eq by lia.
  - injection He as <-. destruct (Hen ltac:(lia)) as [Hf | Hf]; [congruence | exact Hf].
Qed.

Section One.
Context (est : exec_state) (act : action) (inst : ebpf_inst) (Hstep : step vm args est = Value act).
Context (H0 : 0 <= est.(pc)) (Hinst : prog !! Z.to_nat est.(pc) = Some inst).
Context (Hi : 0 <= est.(stack_frame_index) <= UBPF_MAX_CALL_DEPTH) (Hlen : length est.(stack_frames) = 8%nat) (Hen : entered vm u est).
#[local] Abbreviation sfi := (est.(stack_frame_index)).

Lemma turn_bound : est.(pc) < Z.of_nat (length prog).
Proof using Hinst H0. clear Hlen. pose proof (lookup_lt_Some _ _ _ Hinst). lia. Qed.

(** The frames after a covered instruction. *)
Lemma covered_frames :
  covered inst = true ->
  exists est', act = Continue est' /\ est'.(stack_frame_index) = sfi /\ length est'.(stack_frames) = 8%nat /\
    (forall j, j <> Z.to_nat sfi -> est'.(stack_frames) !! j = est.(stack_frames) !! j) /\ entered vm u est'.
Proof using Hstep H0 Hinst Hi Hlen Hen Hld Hu.
  intros Hc. pose proof turn_bound as Hb.
  destruct (step_inv _ _ _ _ Hstep) as (inst' & st3 & act3 & Hf & [_ _ Bi Bf Bl _ _ (st2 & E2 & Bu)] & Esw & ->).
  assert (inst' = inst) as ->.
  { rewrite (ld_fetch _ _ Hld) in Hf by (rewrite (ld_num_insts _ _ Hld); lia). congruence. }
  destruct (covered_continues _ _ _ _ Hc Esw) as [st' ->].
  assert (is_local_call inst = false /\ inst.(opcode) <> opcode_of EBPF_OP_EXIT) as [Hnc Hne].
  { unfold covered in Hc. destruct (switch_op inst.(opcode)) as [op |] eqn:Hop; [| done]. pose proof (switch_op_sound _ _ Hop) as Eop.
    split; [| rewrite <- Eop; intros ?%opcode_of_inj; by subst op]. unfold is_local_call. rewrite <- Eop.
    destruct (Z.eqb_spec (opcode_of op) (opcode_of EBPF_OP_CALL)) as [E%opcode_of_inj |]; [by subst op | done]. }
  pose proof (exec_switch_flow _ _ _ _ _ _ Esw) as Hflow.
  inversion Hflow as [? [(_ & Kf & Ki) _] | ? ? Hx _ | ? Hx _]; subst; [| congruence | done]. cbn [next_state] in Kf, Ki.
  destruct (truncate_keeps inst st') as (_ & Tf & Ti). eexists. split; [reflexivity |].
  rewrite Ti, Tf, Ki, Kf. split; [done |]. split; [by rewrite Bl |]. split; [done |].
  intros Hlt. right. rewrite Ti, Ki, Bi in *. unfold frame_at. rewrite Tf, Kf, Bu. eapply enters_usage; [lia | done | lia | done | done].
Qed.

(** A local call. *)
Lemma call_turn :
  start prog est.(pc) -> is_local_call inst = true ->
  sfi < UBPF_MAX_CALL_DEPTH /\
  exists est', act = Continue est' /\ est'.(pc) = call_target est.(pc) inst /\ est'.(mem) = est.(mem) /\
    est'.(reg) = <[10%nat := u64 (get_reg est 10 - u)]> est.(reg) /\ est'.(stack_frame_index) = sfi + 1 /\
    length est'.(stack_frames) = 8%nat /\ (forall j, j <> Z.to_nat sfi -> est'.(stack_frames) !! j = est.(stack_frames) !! j) /\
    est'.(stack_frames) !! Z.to_nat sfi = Some (Frame u (est.(pc) + 1) [get_reg est 6; get_reg est 7; get_reg est 8; get_reg est 9]).
Proof using Hstep H0 Hinst Hi Hlen Hen Hld Hu Hdbg.
  intros Hs Hcall. pose proof turn_bound as Hb. pose proof (loaded_length vm prog Hld) as Hmax. unfold UBPF_MAX_INSTS in Hmax.
  destruct (call_slot_facts vm prog _ inst Hld Hs Hinst Hcall) as (Hop & Hsrc & Htgt & _).
  destruct (validated_local_call _ _ _ inst (ld_validated _ _ Hld) Hs Hinst Hcall) as (Ht & _ & _).
  destruct (step_inv _ _ _ _ Hstep) as (inst' & st3 & act3 & Hf & [Bp Br Bi Bf Bl _ Bm (st2 & E2 & Bu)] & Esw & ->).
  assert (inst' = inst) as ->.
  { rewrite (ld_fetch _ _ Hld) in Hf by (rewrite (ld_num_insts _ _ Hld); lia). congruence. }
  unfold exec_switch in Esw. rewrite Hop in Esw.
  cbn [neg_overflows exec_alu exec_alu32 exec_alu64 exec_endian exec_condition exec_other load_shape store_shape] in Esw.
  unfold exec_call in Esw. rewrite Hsrc in Esw. cbn [Z.eqb Pos.eqb] in Esw.
  unfold exec_local_call in Esw. rewrite Bi in Esw. destruct (Z.leb_spec UBPF_MAX_CALL_DEPTH sfi) as [| Hlt]; [done |]. split; [done |].
  assert ((frame_at st3 sfi).(frame_stack_usage) = u) as Eu by (unfold frame_at; rewrite Bu; eapply enters_usage; [lia | done | lia | done | done]).
  injection Esw as <-. rewrite Eu. eexists. split; [reflexivity |]. rewrite (truncate_other_kind inst EBPF_OP_CALL) by done.
  unfold get_reg. rewrite Br. cbn [pc mem reg stack_frames stack_frame_index set_pc set_reg set_regs set_frames]. rewrite (Bm Hdbg), Br, length_insert, Bl.
  split.
  - rewrite Bp, (wrap_id 16 (est.(pc) + 1)) by lia. rewrite <- (wrap_id 16 (call_target _ _)), <- Htgt, wrap_wrap_le by lia. f_equal. lia.
  - split; [done |]. split; [done |]. split; [done |]. split; [done |]. split.
    + intros j Hj. rewrite list_lookup_insert_ne by done. by apply Bf.
    + rewrite list_lookup_insert_eq by (unfold UBPF_MAX_CALL_DEPTH in *; lia). by rewrite Bp, (wrap_id 16 (est.(pc) + 1)) by lia.
Qed.

(** An exit, of the main function or of another. *)
Lemma exit_turn :
  inst.(opcode) = opcode_of EBPF_OP_EXIT ->
  if decide (sfi = 0) then exists est', act = ExitWith (get_reg est 0) est' /\ est'.(mem) = est.(mem)
  else forall fr, est.(stack_frames) !! Z.to_nat (sfi - 1) = Some fr ->
    exists est', act = Continue est' /\ est'.(pc) = fr.(return_address) /\ est'.(mem) = est.(mem) /\
      est'.(reg) = <[10%nat := u64 (get_reg est 10 + fr.(frame_stack_usage))]> (<[9%nat := saved fr 3]> (<[8%nat := saved fr 2]>
        (<[7%nat := saved fr 1]> (<[6%nat := saved fr 0]> est.(reg))))) /\
      est'.(stack_frame_index) = sfi - 1 /\ length est'.(stack_frames) = 8%nat /\
      forall j, j <> Z.to_nat sfi -> est'.(stack_frames) !! j = est.(stack_frames) !! j.
Proof using Hstep H0 Hinst Hi Hlen Hld Hdbg.
  intros Hex. pose proof turn_bound as Hb.
  destruct (step_inv _ _ _ _ Hstep) as (inst' & st3 & act3 & Hf & [Bp Br Bi Bf Bl _ Bm _] & Esw & ->).
  assert (inst' = inst) as ->.
  { rewrite (ld_fetch _ _ Hld) in Hf by (rewrite (ld_num_insts _ _ Hld); lia). congruence. }
  assert (switch_op inst.(opcode) = Some EBPF_OP_EXIT) as Hop by (by rewrite Hex).
  unfold exec_switch in Esw. rewrite Hop in Esw.
  cbn [neg_overflows exec_alu exec_alu32 exec_alu64 exec_endian exec_condition exec_other load_shape store_shape] in Esw.
  unfold exec_exit in Esw. rewrite Bi in Esw. destruct (decide (sfi = 0)) as [E0 | E0].
  - rewrite E0 in Esw. cbn [Z.ltb Z.compare] in Esw. injection Esw as <-. eexists. unfold get_reg. rewrite Br. split; [reflexivity | by apply Bm].
  - intros fr Hfr. rewrite (proj2 (Z.ltb_lt 0 sfi)) in Esw by lia. injection Esw as <-. eexists. split; [reflexivity |].
    assert (frame_at st3 (sfi - 1) = fr) as Efr by (unfold frame_at; rewrite Bf, Hfr by lia; done).
    rewrite (truncate_other_kind inst EBPF_OP_EXIT) by done. unfold frame_at in *.
    cbn [pc mem reg stack_frames stack_frame_index set_pc set_reg set_regs set_frames]. rewrite Efr.
    split; [done |]. split; [by apply Bm |]. split; [| split; [done |]; split; [by rewrite Bl | exact Bf]].
    unfold get_reg, set_reg. cbn [reg set_regs set_pc set_frames]. rewrite Br. rewrite !list_lookup_insert_ne by done. done.
Qed.
End One.
End Turns.

(** ** Running the linked code *)

Section Linked.
Context (vm : ubpf_vm) (prog : list ebpf_inst) (buffer : list Z) (its : list item) (st : jit_state).
Context (Hlim : Z.of_nat (length buffer) <= ARM_CODE_LIMIT) (Him : arm_image vm prog buffer its st) (base : Z).
#[local] Abbreviation code := (linked_code (LK := arm_linker) buffer its st).

(** Words in the linked code. *)
Lemma run_item a ws b x x' :
  its = a ++ Bytes (code_bytes ws) :: b -> runs_words ws x x' ->
  cpu_reaches base code (at_pc (code_len a) x) (at_pc (code_len a + 4 * Z.of_nat (length ws)) x').
Proof using Him.
  intros E Hr. pose proof (code_room _ _ _ _ _ Him _ _ E) as [Ha Hl]. rewrite code_len_cons in Hl. pose proof (code_len_nonneg b).
  pose proof (linked_item (LK := arm_linker) _ _ _ (am_laid _ _ _ _ _ Him) _ _ _ E) as Hb. cbn [item_bytes] in Hl, Hb.
  rewrite length_code_bytes in Hl, Hb. apply cpu_words; [done | lia | lia | exact Hb].
Qed.

(** BL, linked to a position. *)
Lemma run_link a t tgt b sp' r mm :
  its = a ++ Slot t tgt (branch_immediate_bits UBR_BL) :: b ->
  cpu_reaches base code (Cpu (code_len a) sp' r mm)
    (Cpu (arm_slot_target st t tgt) sp' (write_reg r true R30 (base + code_len a + 4)) mm).
Proof using Him Hlim.
  intros E. destruct (arm_linked_slot _ _ _ _ _ Hlim Him a _ _ _ b E) as (i & Hi & Hl & Hrel).
  assert (i = Branch true) as -> by (vm_compute in Hi; congruence).
  pose proof (code_room _ _ _ _ _ Him a _ E) as [Ha Hr]. rewrite code_len_cons in Hr. cbn [item_bytes] in Hr. rewrite length_le_encode in Hr.
  pose proof (code_len_nonneg b). exact (cpu_relative base code _ sp' _ _ r mm Ha ltac:(lia) Hrel).
Qed.

(** RET goes where X30 says. *)
Lemma run_return p sp' r mm :
  fetch_word code p = Some 0xd65f03c0 -> fits64 (r.(xregs) R30) -> cpu_reaches base code (Cpu p sp' r mm) (Cpu (r.(xregs) R30 - base) sp' r mm).
Proof using.
  intros Hf Hr. apply rtc_once. unfold cpu_steps. rewrite (stack_step 0xd65f03c0 (Return R30)); [| stack_word | exact Hf].
  cbn [a64_exec_stack]. rewrite read_operand by done. cbn [width]. by rewrite (wrap_id 64) by done.
Qed.


(** The code of EXIT. *)
Lemma run_exit k inst p sp r mm :
  start prog k -> prog !! Z.to_nat k = Some inst -> inst.(opcode) = opcode_of EBPF_OP_EXIT -> st.(pc_locs) !! k = Some p ->
  0 <= sp + 16 < 2 ^ 64 -> fits64 (r.(xregs) R30) -> cpu_reaches base code (Cpu p sp r mm) (Cpu (r.(xregs) R30 - base) (sp + 16) r mm).
Proof using Him.
  intros Hs Hinst Hex Hp Hsp H30.
  destruct (am_placed _ _ _ _ _ Him k inst Hs Hinst) as (op & last & Hop & [(a & pre & cd & b & E & Hl & _ & [_ Hshape] & _)]).
  assert (op = EBPF_OP_EXIT) as -> by (apply opcode_of_inj; rewrite (switch_op_sound _ _ Hop); congruence).
  destruct Hshape as [Hpl Hby]. rewrite Hp in Hl. injection Hl as ->. rewrite app_assoc in E.
  pose proof (linked_plain (LK := arm_linker) _ _ _ (am_laid _ _ _ _ _ Him) _ _ _ E Hpl) as Hb. rewrite Hby, length_code_bytes in Hb.
  pose proof (code_room _ _ _ _ _ Him _ _ E) as [Ha Hroom]. rewrite (code_len_app cd b) in Hroom. pose proof (code_len_nonneg b).
  assert (code_len cd = 8) as Lc by (unfold code_len; by rewrite Hby).
  destruct (bytes_at_words code (code_len (a ++ pre)) 0x910043ff [0xd65f03c0]) as [F1 Hb2]; [lia | cbn; lia | exact Hb |].
  destruct (bytes_at_words code (code_len (a ++ pre) + 4) 0xd65f03c0 []) as [F2 _]; [lia | cbn; lia | exact Hb2 |].
  etransitivity; [| exact (run_return _ (sp + 16) r mm F2 H30)]. apply rtc_once.
  by apply (executes_pop 0x910043ff 16 sp r mm ltac:(stack_word) Hsp base code _ F1).
Qed.
End Linked.

Lemma high_host q : 27 <= q <= 30 -> is_host q.
Proof. intros Hq. split; [unfold is_scratch; vm_compute; lia |]. intros Hin. set_unfold in Hin. vm_compute in Hin. lia. Qed.

(** r6 to r9 are in X19 to X22. *)
Lemma kept_reg q : 19 <= q <= 22 -> q = reg_of (q - 13).
Proof. intros Hq. assert (q = 19 \/ q = 20 \/ q = 21 \/ q = 22) as [-> | [-> | [-> | ->]]] by lia; done. Qed.

(** The other registers are not those a call changes. *)
Lemma reg_of_other r : 0 <= r < 11 -> r <> 10 -> reg_of r ∉ [R23; R24; R30].
Proof.
  intros Hr Hne Hin. pose proof (reg_of_in r Hr) as Hi. assert (reg_of r = reg_of 10) as E%reg_of_inj; [| lia | lia | lia].
  set_unfold in Hi. set_unfold in Hin. vm_compute in Hi, Hin |- *. lia.
Qed.

Lemma saved_at v ret r6 r7 r8 r9 (g : Z -> Z) q :
  19 <= q <= 22 -> g 6 = r6 -> g 7 = r7 -> g 8 = r8 -> g 9 = r9 -> saved_of (Frame v ret [r6; r7; r8; r9]) q = g (q - 13).
Proof. intros Hq <- <- <- <-. assert (q = 19 \/ q = 20 \/ q = 21 \/ q = 22) as [-> | [-> | [-> | ->]]] by lia; done. Qed.

(** After a return. *)
Lemma host_unreturned q : is_host q -> q <> R30 -> q ∉ [R19; R20; R21; R22; R23; R24; R30].
Proof.
  intros [Hs Hm] Hne. rewrite !elem_of_cons, elem_of_nil. intros [-> | [-> | [-> | [-> | [-> | [-> | [-> | []]]]]]]]; try done;
    first [apply Hm; by apply (bool_decide_unpack _) | apply Hs; by left].
Qed.

Lemma returned_registers (r r' : a64_state) (regs : list Z) fr u x :
  length regs = 16%nat -> (forall y, 0 <= y < 11 -> r.(xregs) (reg_of y) = default 0 (regs !! Z.to_nat y)) ->
  (forall q, 19 <= q <= 22 -> r'.(xregs) q = saved_of fr q) -> r'.(xregs) R23 = u64 (r.(xregs) R23 + u) ->
  changes_regs [R19; R20; R21; R22; R23; R24; R30] r r' -> 0 <= x < 11 ->
  r'.(xregs) (reg_of x) = default 0 (<[10%nat := u64 (default 0 (regs !! 10%nat) + u)]> (<[9%nat := saved fr 3]> (<[8%nat := saved fr 2]>
    (<[7%nat := saved fr 1]> (<[6%nat := saved fr 0]> regs)))) !! Z.to_nat x).
Proof.
  intros L Hr Hk H23 O Hx. destruct (decide (6 <= x)) as [H6 | H6].
  - assert (x = 6 \/ x = 7 \/ x = 8 \/ x = 9 \/ x = 10) as [-> | [-> | [-> | [-> | ->]]]] by lia;
      do 6 (try (rewrite list_lookup_insert_eq by (rewrite ?length_insert; lia))); rewrite ?list_lookup_insert_ne by lia;
      rewrite ?list_lookup_insert_eq by (rewrite ?length_insert; lia); cbn [default]; try (by apply Hk).
    change (reg_of 10) with R23. pose proof (Hr 10 ltac:(lia)) as E. change (Z.to_nat 10) with 10%nat in E. by rewrite H23, <- E.
  - rewrite !list_lookup_insert_ne by lia. rewrite O; [by apply Hr |].
    assert (x = 0 \/ x = 1 \/ x = 2 \/ x = 3 \/ x = 4 \/ x = 5) as [-> | [-> | [-> | [-> | [-> | ->]]]]] by lia; by apply (bool_decide_unpack _).
Qed.

(** ** The simulation *)

Section Sim.
Context `{HostEnv} (vm : ubpf_vm) (prog : list ebpf_inst) (buffer : list Z) (its : list item) (st : jit_state) (args : exec_args).
Context (Hlim : Z.of_nat (length buffer) <= ARM_CODE_LIMIT) (Him : arm_image vm prog buffer its st).
Context (Hld : loaded vm prog) (Hty : usages_typed vm) (Hdbg : vm.(debug_function) = 0) (Hrp : covered_program prog).
#[local] Abbreviation code := (linked_code (LK := arm_linker) buffer its st).
Context (base u sp0 link0 : Z) (g : Z -> Z) (f0 : memory) (Hu : same_usage vm prog u) (Hur : 0 <= u < 2 ^ 16).
Context (Hal : (16 | sp0)) (H512 : 512 <= sp0) (Hsp : sp0 + 16 < 2 ^ 64) (Hbase : 0 <= base) (Hend : base + Z.of_nat (length code) < 2 ^ 64).
Context (Hmap : mapped f0 (sp0 - 512) 512).

(** The host during a call at depth [d]. *)
Definition host_at (d link : Z) (f : memory) : host_context := Host (sp0 - 64 * d) (fun q => if q =? R30 then link else g q) f.

Record running (est : exec_state) (c : a64_cpu) (f : memory) (link : Z) : Prop := Running {
  rn_agrees : agrees st.(pc_locs) (host_at est.(stack_frame_index) link f) est c;
  rn_link : fits64 link;
  rn_frames : frames_ok prog st.(pc_locs) base u sp0 link0 est.(stack_frames) f (Z.to_nat est.(stack_frame_index))
    (sp0 - 64 * est.(stack_frame_index)) link;
  rn_changes : changes_only (sp0 - 512) 512 f0 f;
  rn_index : 0 <= est.(stack_frame_index) <= UBPF_MAX_CALL_DEPTH;
  rn_length : length est.(stack_frames) = 8%nat;
  rn_entered : entered vm u est;
}.

Section One.
Context (est : exec_state) (act : action) (inst : ebpf_inst) (c : a64_cpu) (f : memory) (link : Z).
Context (Hstep : step vm args est = Value act) (Hr : running est c f link) (Hinst : prog !! Z.to_nat est.(pc) = Some inst).
Context (Hs : start prog est.(pc)).

Lemma covered_runs :
  covered inst = true ->
  exists est', act = Continue est' /\ (est'.(pc) < Z.of_nat (length prog) -> exists c', cpu_reaches base code c c' /\ running est' c' f link).
Proof using Hlim Him Hld Hty Hdbg Hu Hstep Hr Hinst.
  intros Hc. destruct Hr as [Hag Hl Hf Hch Hi Hlen Hen].
  destruct (covered_frames vm prog Hld args u Hu est act inst Hstep (ag_slot _ _ _ _ Hag) Hinst Hi Hlen Hen Hc) as (est' & -> & Ei & El & Ej & Een).
  exists est'. split; [done |]. intros Hpc.
  destruct (one_turn vm prog buffer its st Hlim Him Hld Hty Hdbg base (host_at est.(stack_frame_index) link f) args est est' c Hag) as (c' & Hc' & Hag');
    [by split; [| exists inst] | done |].
  exists c'. split; [done |]. constructor; rewrite ?Ei; try done. eapply frames_ok_frames; [| exact Hf]. intros j Hj. apply Ej. lia.
Qed.
(** What the host registers hold, for the lemmas on words. *)
Lemma running_host : c.(cpu_sp) = sp0 - 64 * est.(stack_frame_index) /\ c.(cpu_regs).(xregs) R30 = link /\
  (forall q, 19 <= q <= 22 -> c.(cpu_regs).(xregs) q = get_reg est (q - 13)) /\
  forall q, q = R30 \/ 19 <= q <= 22 -> fits64 (c.(cpu_regs).(xregs) q).
Proof using Hr.
  clear Hlim Hend. destruct Hr as [Hag Hl _ _ _ _ _]. destruct (ag_host _ _ _ _ Hag) as [Esp Hh].
  assert (c.(cpu_regs).(xregs) R30 = link) as E30 by (by rewrite (Hh R30 (high_host R30 ltac:(done)))).
  assert (forall q, 19 <= q <= 22 -> c.(cpu_regs).(xregs) q = get_reg est (q - 13)) as Ek.
  { intros q Hq. rewrite (kept_reg q Hq) at 1. apply (ag_regs _ _ _ _ Hag). lia. }
  split; [done |]. split; [done |]. split; [done |].
  intros q [-> | Hq]; [by rewrite E30 |]. rewrite Ek by done. apply regs_fit_get, Hag.
Qed.

(** The code of a call, with the positions of its parts. *)
Lemma call_placed k inst' :
  start prog k -> prog !! Z.to_nat k = Some inst' -> is_local_call inst' = true ->
  exists a p b, its = a ++ local_call_items (ebpf_target (k + inst'.(imm) + 1)) ++ b /\ code_len a = p /\ st.(pc_locs) !! k = Some p /\
    (k + 1 < Z.of_nat (length prog) -> arm_next vm st.(pc_locs) (k + 1) (p + 56) b).
Proof using Him Hld.
  intros Hk Hi Hcall. destruct (call_slot_facts vm prog k inst' Hld Hk Hi Hcall) as (Hop & Hsrc & _).
  destruct (am_placed _ _ _ _ _ Him k inst' Hk Hi) as (op & last & Hop' & [(a & pre & cd & b & E & Hl & _ & [_ Hsh] & Hn)]).
  assert (op = EBPF_OP_CALL) as -> by congruence. rewrite (Hsh Hsrc) in *. exists (a ++ pre), (code_len (a ++ pre)), b.
  split; [by rewrite <- app_assoc |]. split; [done |]. split; [done |]. intros Hlt.
  assert (last_slot k inst' = k) as Els by (unfold last_slot; destruct (is_lddw inst') eqn:El; [by apply (is_lddw_op _ _ Hop) in El | done]).
  cbv zeta in Hn. rewrite Els in Hn. destruct Hn as [[Hn _] | [_ Hn]]; [lia |]. rewrite (app_assoc a pre), code_len_app in Hn. exact Hn.
Qed.

Lemma call_link_runs a tgt b sp r mm :
  its = a ++ local_call_items tgt ++ b ->
  cpu_reaches base code (Cpu (code_len a + 28) sp r mm)
    (Cpu (arm_slot_target st LocalCalls tgt) sp (write_reg r true R30 (base + (code_len a + 28) + 4)) mm).
Proof using Hlim Him.
  unfold local_call_items. cbn [app]. intros E. change (a ++ ?x :: ?l) with (a ++ [x] ++ l) in E. rewrite app_assoc in E.
  pose proof (run_link _ _ _ _ _ Hlim Him base _ _ _ _ sp r mm E) as X. rewrite code_len_app in X.
  change (code_len [Bytes (code_bytes call_words)]) with 28 in X. exact X.
Qed.

(** The processor from the code of a call to that of the called function. *)
Lemma call_reaches p sp r :
  c = Cpu p sp r (est.(mem) ∪ f) -> is_local_call inst = true -> start prog (call_target est.(pc) inst) ->
  est.(stack_frame_index) < UBPF_MAX_CALL_DEPTH ->
  exists q r' f', st.(pc_locs) !! call_target est.(pc) inst = Some q /\ fits64 (base + p + 32) /\
    cpu_reaches base code c (Cpu q (sp - 64) r' (est.(mem) ∪ f')) /\
    est.(mem) ##ₘ f' /\ changes_only (sp - 64) 64 f f' /\ deref f' (sp - 64) 8 = Some u /\ call_saved u (sp - 48) link r.(xregs) f' /\
    r'.(xregs) R23 = u64 (r.(xregs) R23 - u) /\ r'.(xregs) R30 = base + p + 32 /\ changes_regs [R23; R24; R30] r r'.
Proof using Hlim Him Hld Hty Hu Hur Hal H512 Hsp Hbase Hend Hmap Hr Hinst Hs.
  clear Hstep Hdbg Hrp. intros Ec Hcall Hst Hlt. pose proof running_host as (Esp & E30 & _ & Hfit). destruct Hr as [Hag _ Hf Hch Hi _ _].
  destruct (call_placed _ _ Hs Hinst Hcall) as (a & p' & b & E & Ea & Hp & _). rewrite Ec in *. cbn [cpu_sp cpu_regs] in Esp, E30, Hfit.
  assert (p' = p) as -> by (pose proof (ag_pc _ _ _ _ Hag) as Hpc; cbn [cpu_pc] in Hpc; congruence).
  destruct (call_slot_facts vm prog _ inst Hld Hs Hinst Hcall) as (_ & _ & Htgt & Hfs).
  destruct (validated_local_call _ _ _ inst (ld_validated _ _ Hld) Hs Hinst Hcall) as (Ht & _ & _).
  destruct (lookup_lt_is_Some_2 prog (Z.to_nat (call_target est.(pc) inst)) ltac:(lia)) as [inst2 Hinst2].
  destruct (arm_prolog_placed _ _ _ _ _ Him _ _ Hty Hst Hinst2 Hfs) as (q & usage & Hq & Hqb & Husage & Hbytes).
  assert (usage = u) as -> by (rewrite (Hu _ Ht Hfs) in Husage; congruence).
  unfold UBPF_MAX_CALL_DEPTH in *. pose proof (proj1 (frames_ok_head _ _ _ _ _ _ _ _ _ _ _ Hf)) as Hsu. rewrite <- Esp in Hsu.
  assert ((16 | sp)) as Hals by (rewrite Esp; destruct Hal as [x ->]; exists (x - 4 * est.(stack_frame_index)); lia).
  assert (mapped f (sp - 64) 64) as Hm by (eapply changes_only_mapped; [exact Hch |]; intros i ?; apply Hmap; lia).
  destruct (call_runs sp u r est.(mem) f Hals (ag_disjoint _ _ _ _ Hag)) as (r1 & f1 & R1 & D1 & C1 & S1 & V1 & O1);
    [lia | lia | lia | done | intros i ?; apply Hm; lia | done |].
  pose proof (code_room _ _ _ _ _ Him _ _ E) as [Hp0 Hroom]. rewrite code_len_app, Ea in Hroom. rewrite Ea in Hp0.
  change (code_len (local_call_items _)) with 56 in Hroom. pose proof (code_len_nonneg b).
  pose proof (code_room _ _ _ _ _ Him [] _ eq_refl) as [_ Hits]. change (code_len []) with 0 in Hits.
  set (r2 := write_reg r1 true R30 (base + (p + 28) + 4)).
  destruct (write_sets_reg r1 true R30 (base + (p + 28) + 4) ltac:(done)) as [V2 O2 _]. fold r2 in V2, O2. cbn [width] in V2. rewrite (wrap_id 64) in V2 by lia.
  destruct (prolog_words_run (sp - 48) u r2 est.(mem) f1) as (r3 & f3 & R3 & D3 & C3 & U3 & O3);
    [destruct Hals as [x ->]; exists (x - 4); lia | lia | lia | done | done | eapply changes_only_mapped; [exact C1 |]; intros i ?; apply Hm; lia |].
  replace (sp - 48 - 16) with (sp - 64) in * by lia.
  exists q, r3, f3. split; [done |]. split; [unfold fits64; lia |]. split; [| split; [done |]; split; [| split; [done |]; split; [| split; [| split]]]].
  - pose proof (run_item _ _ _ _ _ Him base a _ _ _ _ E R1) as X1. rewrite Ea in X1. change (4 * Z.of_nat (length call_words)) with 28 in X1.
    etransitivity; [exact X1 |]. pose proof (call_link_runs a _ _ (sp - 48) r1 (est.(mem) ∪ f1) E) as X2. rewrite Ea in X2.
    cbn [arm_slot_target ebpf_target ebpf_target_pc] in X2.
    rewrite Htgt, Hq, (am_prolog _ _ _ _ _ Him) in X2 by (intros ->; by rewrite lookup_nil in Hinst). etransitivity; [exact X2 |].
    assert (length (arm_prolog_words u) = 3%nat) as L3 by (pose proof (length_arm_prolog u Hur) as L; rewrite length_code_bytes in L; lia).
    pose proof (cpu_words base code _ (q - 12) _ _ R3 ltac:(lia)) as X3. rewrite L3 in X3. specialize (X3 ltac:(lia) Hbytes).
    replace (q - 12 + 4 * Z.of_nat 3) with q in X3 by lia. exact X3.
  - eapply changes_only_trans; eapply changes_only_weaken; [exact C1 | lia | lia | exact C3 | lia | lia].
  - eapply call_saved_frame; [exact C3 | lia |]. by rewrite E30 in S1.
  - rewrite O3, O2, V1; [done | done |]. by apply (bool_decide_unpack _).
  - rewrite O3, V2; [lia |]. by apply (bool_decide_unpack _).
  - intros x Hx. set_unfold in Hx. rewrite O3, O2, O1; set_unfold; tauto.
Qed.

Lemma call_goes :
  is_local_call inst = true ->
  exists est', act = Continue est' /\
    (start prog est'.(pc) -> exists c' f' link', cpu_reaches base code c c' /\ running est' c' f' link').
Proof using All.
  intros Hcall. pose proof running_host as (Esp & _ & Ek & _). pose proof Hr as [Hag Hl Hf Hch Hi Hlen Hen].
  destruct (call_turn vm prog Hld args Hdbg u Hu est act inst Hstep (ag_slot _ _ _ _ Hag) Hinst Hi Hlen Hen Hs Hcall)
    as (Hlt & est' & -> & Epc & Em & Ereg & Ei & El & Ej & Efr).
  exists est'. split; [done |]. rewrite Epc. intros Hst.
  assert (c = Cpu c.(cpu_pc) c.(cpu_sp) c.(cpu_regs) (est.(mem) ∪ f)) as Ec
    by (pose proof (ag_mem _ _ _ _ Hag) as Hm; cbn in Hm; rewrite <- Hm; clear; by destruct c).
  destruct (call_reaches _ _ _ Ec Hcall Hst Hlt) as (q & r' & f' & Hq & Fl & Hreach & D & C & U & Sv & V23 & V30 & O).
  destruct Hag as [H0 Hp Hregs [L16 Hfit] _ _ Hmok [_ Hhost]].
  set (p := c.(cpu_pc)) in *. set (sp := c.(cpu_sp)) in *. set (r := c.(cpu_regs)) in *.
  exists (Cpu q (sp - 64) r' (est.(mem) ∪ f')), f', (base + p + 32). split; [done |].
  unfold UBPF_MAX_CALL_DEPTH in *. assert (Z.to_nat (est.(stack_frame_index) + 1) = S (Z.to_nat est.(stack_frame_index))) as ES by lia.
  constructor; rewrite ?Ei, ?ES; [| done | | | unfold UBPF_MAX_CALL_DEPTH; lia | done |].
  - constructor; cbn [cpu_pc cpu_sp cpu_regs cpu_mem host_at h_frame h_sp]; rewrite ?Em; try done.
    + rewrite Epc. by destruct (validated_local_call _ _ _ inst (ld_validated _ _ Hld) Hs Hinst Hcall) as ([? _] & _).
    + by rewrite Epc.
    + intros x Hx. unfold get_reg. rewrite Ereg. destruct (decide (x = 10)) as [-> | Hne].
      * rewrite list_lookup_insert_eq by lia. change (reg_of 10) with R23. rewrite V23. by rewrite <- (Hregs 10).
      * rewrite list_lookup_insert_ne by lia. rewrite O; [by apply Hregs |]. by apply reg_of_other.
    + rewrite Ereg. apply regs_fit_insert; [done |]. apply (wrap_range 64). lia.
    + split; [lia |]. intros x [Hs1 Hm1]. cbn [host_at h_regs]. destruct (Z.eqb_spec x R30) as [-> |]; [done |].
      rewrite O; [rewrite (Hhost x) by done; cbn [host_at h_regs]; by rewrite (proj2 (Z.eqb_neq _ _)) |].
      rewrite !elem_of_cons, elem_of_nil. intros [-> | [-> | [-> | []]]]; [apply Hm1; by apply (bool_decide_unpack _) | apply Hs1; by left | done].
  - cbn [frames_ok]. replace (sp0 - 64 * (est.(stack_frame_index) + 1)) with (sp - 64) by lia. split; [done |].
    eexists _, link. split; [exact Efr |]. split; [done |]. split; [| split; [| split; [| split; [done |]]]].
    + intros x Hx. rewrite (saved_at _ _ _ _ _ _ (get_reg est)) by done. apply regs_fit_get. by split.
    + exists est.(pc), inst, p. cbn [return_address]. split_and!; try done.
    + replace (sp - 64 + 16) with (sp - 48) by lia. destruct Sv as (S1 & S2 & S3). split; [done |]. split; [done |].
      eapply pairs_at_ext; [| exact S3]. intros x Hx%kept_named. rewrite (saved_at _ _ _ _ _ _ (get_reg est)) by done. by apply Ek.
    + replace (sp - 64 + 64) with (sp0 - 64 * est.(stack_frame_index)) by lia.
      eapply frames_ok_memory; [exact C | lia |]. eapply frames_ok_frames; [| exact Hf]. intros j Hj. apply Ej. lia.
  - eapply changes_only_trans; [exact Hch |]. eapply changes_only_weaken; [exact C | lia | lia].
  - intros _. left. rewrite Epc. apply (call_slot_facts vm prog _ inst Hld Hs Hinst Hcall).
Qed.

(** The processor from the exit of a function to behind its call. *)
Lemma return_reaches p sp r fr link' :
  c = Cpu p sp r (est.(mem) ∪ f) -> inst.(opcode) = opcode_of EBPF_OP_EXIT -> 0 < est.(stack_frame_index) ->
  returns_to prog st.(pc_locs) base link fr.(return_address) -> call_saved u (sp + 16) link' (saved_of fr) f -> fits64 link' ->
  (forall q, 19 <= q <= 22 -> fits64 (saved_of fr q)) -> fr.(return_address) < Z.of_nat (length prog) ->
  exists q r', st.(pc_locs) !! fr.(return_address) = Some q /\ 0 <= fr.(return_address) /\
    cpu_reaches base code c (Cpu q (sp + 64) r' (est.(mem) ∪ f)) /\
    r'.(xregs) R30 = link' /\ (forall x, 19 <= x <= 22 -> r'.(xregs) x = saved_of fr x) /\ r'.(xregs) R23 = u64 (r.(xregs) R23 + u) /\
    changes_regs [R19; R20; R21; R22; R23; R24; R30] r r'.
Proof using Hlim Him Hld Hty Hur Hal H512 Hsp Hr Hinst Hs.
  clear Hstep Hdbg Hrp Hmap. intros Ec Hex Hpos (k & inst' & p' & Hk & Hinst' & Hcall & Eret & Hp' & Elink) Hsv Fl' Fsv Hret.
  pose proof running_host as (Esp & E30 & _ & _). pose proof Hr as [Hag Fl _ _ Hi _ _].
  pose proof (ag_pc _ _ _ _ Hag) as Hpc. rewrite Ec in Hpc, Esp, E30. cbn [cpu_pc cpu_sp cpu_regs] in Hpc, Esp, E30. unfold UBPF_MAX_CALL_DEPTH in Hi.
  destruct (call_placed _ _ Hk Hinst' Hcall) as (a & p2 & b & E & Ea & Hp2 & Hnext). assert (p2 = p') as -> by congruence.
  rewrite Eret in *. specialize (Hnext Hret). pose proof (start_from_ge _ _ _ Hk) as Hk0.
  assert ((16 | sp + 16)) as Hals by (rewrite Esp; destruct Hal as [x ->]; exists (x - 4 * est.(stack_frame_index) + 1); lia).
  destruct (return_runs (sp + 16) u r est.(mem) f Hals (ag_disjoint _ _ _ _ Hag) link' (saved_of fr)) as (r' & R & V30 & Vk & V23 & O);
    [lia | lia | lia | done | done | done |].
  replace (sp + 16 + 48) with (sp + 64) in R by lia.
  pose proof (run_exit _ _ _ _ _ Him base _ _ _ sp r (est.(mem) ∪ f) Hs Hinst Hex Hpc ltac:(lia) ltac:(by rewrite E30)) as X1.
  rewrite E30, Elink in X1. replace (base + p' + 32 - base) with (p' + 32) in X1 by lia.
  assert (its = (a ++ [Bytes (code_bytes call_words); Slot LocalCalls (ebpf_target (k + inst'.(imm) + 1)) (branch_immediate_bits UBR_BL)]) ++
    Bytes (code_bytes return_words) :: b) as E2 by (by rewrite E, <- app_assoc).
  pose proof (run_item _ _ _ _ _ Him base _ _ _ _ _ E2 R) as X2. rewrite code_len_app, Ea in X2.
  match type of X2 with context [code_len ?l] => change (code_len l) with 32 in X2 end. change (4 * Z.of_nat (length return_words)) with 24 in X2.
  replace (p' + 32 + 24) with (p' + 56) in X2 by lia.
  assert (its = (a ++ local_call_items (ebpf_target (k + inst'.(imm) + 1))) ++ b) as E3 by (by rewrite E, <- app_assoc).
  assert (code_len (a ++ local_call_items (ebpf_target (k + inst'.(imm) + 1))) = p' + 56) as L3 by (by rewrite code_len_app, Ea).
  destruct (run_next vm prog buffer its st Hlim Him Hty base _ b (k + 1) inst' (sp + 64) r' (est.(mem) ∪ f) E3) as (q & Hq & X3).
  - by rewrite L3.
  - lia.
  - rewrite Z.add_simpl_r, (ld_fetch _ _ Hld); [done |]. rewrite (ld_num_insts _ _ Hld). lia.
  - unfold ubpf_instruction_has_fallthrough. unfold is_local_call in Hcall. apply andb_prop in Hcall as [Hc%Z.eqb_eq _]. by rewrite Hc.
  - rewrite L3 in X3. exists q, r'. split; [done |]. split; [lia |]. split; [| done]. rewrite Ec.
    etransitivity; [exact X1 |]. etransitivity; [exact X2 | exact X3].
Qed.

Lemma return_goes :
  inst.(opcode) = opcode_of EBPF_OP_EXIT -> est.(stack_frame_index) <> 0 ->
  exists est', act = Continue est' /\
    (est'.(pc) < Z.of_nat (length prog) -> exists c' link', cpu_reaches base code c c' /\ running est' c' f link').
Proof using All.
  intros Hex Hne. pose proof running_host as (Esp & _ & _ & _). pose proof Hr as [Hag Fl Hf Hch Hi Hlen Hen].
  pose proof (exit_turn vm prog Hld args Hdbg est act inst Hstep (ag_slot _ _ _ _ Hag) Hinst Hi Hlen Hex) as Ht.
  destruct (decide (est.(stack_frame_index) = 0)) as [| _]; [done |].
  assert (Z.to_nat est.(stack_frame_index) = S (Z.to_nat (est.(stack_frame_index) - 1))) as ES by lia. rewrite ES in Hf.
  destruct Hf as (_ & fr & link' & Hfr & Eu & Fsv & Hret & Hsv & Fl' & Hf).
  destruct (Ht fr Hfr) as (est' & -> & Epc & Em & Ereg & Ei & El & Ej). exists est'. split; [done |]. rewrite Epc. intros Hpc.
  assert (c = Cpu c.(cpu_pc) c.(cpu_sp) c.(cpu_regs) (est.(mem) ∪ f)) as Ec
    by (pose proof (ag_mem _ _ _ _ Hag) as Hm; cbn in Hm; rewrite <- Hm; clear; by destruct c).
  rewrite <- Esp in Hsv, Hf.
  destruct (return_reaches _ _ _ fr link' Ec Hex ltac:(lia) Hret Hsv Fl' Fsv Hpc) as (q & r' & Hq & Hq0 & Hreach & V30 & Vk & V23 & O).
  destruct Hag as [H0 _ Hregs [L16 Hfit] _ Hdis Hmok [_ Hhost]].
  set (sp := c.(cpu_sp)) in *. set (r := c.(cpu_regs)) in *. exists (Cpu q (sp + 64) r' (est.(mem) ∪ f)), link'. split; [done |].
  assert (forall i, (i < 4)%nat -> fits64 (saved fr i)) as Fi.
  { intros i Hlt. replace i with (Z.to_nat (Z.of_nat (i + 19) - 19)) by lia. apply Fsv. lia. }
  constructor; rewrite ?Ei; [| done | | done | unfold UBPF_MAX_CALL_DEPTH in *; lia | done |].
  - constructor; cbn [cpu_pc cpu_sp cpu_regs cpu_mem host_at h_frame h_sp]; rewrite ?Em, ?Epc; try done.
    + intros x Hx. unfold get_reg at 1. rewrite Ereg, Eu. exact (returned_registers r r' est.(reg) fr u x L16 Hregs Vk V23 O Hx).
    + rewrite Ereg. repeat apply regs_fit_insert; [done | apply Fi; lia .. |]. apply (wrap_range 64). lia.
    + split; [lia |]. intros x Hh. cbn [host_at h_regs]. destruct (Z.eqb_spec x R30) as [-> |]; [done |].
      rewrite O; [rewrite (Hhost x) by done; cbn [host_at h_regs]; by rewrite (proj2 (Z.eqb_neq _ _)) |]. by apply host_unreturned.
  - replace (sp0 - 64 * (est.(stack_frame_index) - 1)) with (sp + 64) by lia.
    eapply frames_ok_frames; [| exact Hf]. intros j Hj. apply Ej. lia.
  - intros _. right. rewrite Ei. unfold frame_at. rewrite Ej by lia. by rewrite Hfr.
Qed.
End One.

(** ** Whole runs *)

Lemma returned_bound fuel est v m : exec_loop vm args fuel est = Some (Returned v m) -> est.(pc) < Z.of_nat (length prog).
Proof using Hld.
  clear Hlim Hend. intros Hloop. destruct (Z.lt_ge_cases est.(pc) (Z.of_nat (length prog))) as [| Hge]; [done |]. destruct fuel as [| fuel]; [done |].
  cbn [exec_loop] in Hloop. unfold step in Hloop. rewrite (ld_num_insts _ _ Hld), (proj2 (Z.leb_le _ _)) in Hloop by lia. done.
Qed.

(** A run that returns has a turn, on an instruction. *)
Lemma returned_turn fuel est v m :
  exec_loop vm args fuel est = Some (Returned v m) -> 0 <= est.(pc) ->
  exists fuel' act inst, step vm args est = Value act /\ prog !! Z.to_nat est.(pc) = Some inst /\ start prog est.(pc) /\ fuel = S fuel' /\
    match act with Continue est' => exec_loop vm args fuel' est' = Some (Returned v m) | ExitWith v' est' => v' = v /\ est'.(mem) = m end.
Proof using Hld.
  clear Hlim Hend. intros Hloop H0. pose proof (returned_bound _ _ _ _ Hloop) as Hb. destruct fuel as [| fuel]; [done |]. cbn [exec_loop] in Hloop.
  destruct (step vm args est) as [act | |] eqn:Hstep; [| done | done]. exists fuel, act.
  destruct (step_inv _ _ _ _ Hstep) as (inst & st3 & act3 & Hf & _ & Esw & _).
  assert (prog !! Z.to_nat est.(pc) = Some inst) as Hinst by (rewrite <- Hf; symmetry; apply (ld_fetch _ _ Hld); rewrite (ld_num_insts _ _ Hld); lia).
  exists inst. split; [done |]. split; [done |]. split; [| split; [done |]].
  - unfold exec_switch in Esw. destruct (switch_op inst.(opcode)) as [op |] eqn:Hop; [| done]. by eapply (known_start vm prog Hld).
  - destruct act; [done | by injection Hloop as -> ->].
Qed.

(** The code of a program computes what the interpreter returns. *)
Lemma run_to_exit fuel est c f link v m :
  running est c f link -> exec_loop vm args fuel est = Some (Returned v m) ->
  exists r f', cpu_reaches base code c (Cpu (link0 - base) (sp0 + 16) r (m ∪ f')) /\ r.(xregs) (reg_of 0) = v /\ fits64 v /\ m ##ₘ f' /\
    host_regs (host_at 0 link0 f') r /\ changes_only (sp0 - 512) 512 f0 f'.
Proof using All.
  revert est c f link. induction fuel as [fuel IH] using lt_wf_ind; intros est c f link Hr Hloop.
  pose proof (ag_slot _ _ _ _ (rn_agrees _ _ _ _ Hr)) as H0.
  destruct (returned_turn _ _ _ _ Hloop H0) as (fuel' & act & inst & Hstep & Hinst & Hs & -> & Hnext).
  destruct (Hrp _ _ Hs Hinst) as [Hc | [Hc | Hex]].
  - destruct (covered_runs est act inst c f link Hstep Hr Hinst Hc) as (est' & -> & Hgo).
    destruct (Hgo (returned_bound _ _ _ _ Hnext)) as (c' & X1 & Hr'). destruct (IH fuel' ltac:(lia) _ _ _ _ Hr' Hnext) as (r & f' & X2 & Hrest).
    exists r, f'. split; [by etransitivity | done].
  - destruct (call_goes est act inst c f link Hstep Hr Hinst Hs Hc) as (est' & -> & Hgo).
    assert (0 <= est'.(pc)) as H0'.
    { destruct (call_turn vm prog Hld args Hdbg u Hu est _ inst Hstep H0 Hinst (rn_index _ _ _ _ Hr) (rn_length _ _ _ _ Hr) (rn_entered _ _ _ _ Hr) Hs Hc)
        as (_ & est2 & E2 & Ep & _). injection E2 as <-. rewrite Ep. by destruct (validated_local_call _ _ _ inst (ld_validated _ _ Hld) Hs Hinst Hc) as ([? _] & _). }
    destruct (returned_turn _ _ _ _ Hnext H0') as (_ & _ & _ & _ & _ & Hst & _).
    destruct (Hgo Hst) as (c' & f1 & link' & X1 & Hr'). destruct (IH fuel' ltac:(lia) _ _ _ _ Hr' Hnext) as (r & f' & X2 & Hrest).
    exists r, f'. split; [by etransitivity | done].
  - destruct (decide (est.(stack_frame_index) = 0)) as [E0 | Hne].
    + pose proof Hr as [Hag Fl Hf Hch Hi Hlen _]. pose proof (exit_turn vm prog Hld args Hdbg est act inst Hstep H0 Hinst Hi Hlen Hex) as Ht.
      rewrite E0 in Ht, Hag, Hf. destruct Ht as (est' & -> & Em). destruct Hnext as [<- <-]. rewrite Em.
      destruct (running_host est c f link Hr) as (Esp & E30 & _). rewrite E0 in Esp. replace (sp0 - 64 * 0) with sp0 in Esp by lia.
      rewrite <- (proj2 (frames_ok_head _ _ _ _ _ _ _ _ _ _ _ Hf) eq_refl). destruct c as [p sp r mm]. cbn in Esp, E30. subst sp.
      assert (mm = est.(mem) ∪ f) as -> by exact (ag_mem _ _ _ _ Hag).
      exists r, f. split; [| split; [apply (ag_regs _ _ _ _ Hag); lia |]; split; [apply regs_fit_get, Hag |]; split; [apply Hag |]; split; [apply Hag | done]].
      rewrite <- E30. apply (run_exit _ _ _ _ _ Him base est.(pc) inst); [done | done | done | apply Hag | lia | by rewrite E30].
    + destruct (return_goes est act inst c f link Hstep Hr Hinst Hs Hex Hne) as (est' & -> & Hgo).
      destruct (Hgo (returned_bound _ _ _ _ Hnext)) as (c' & link' & X1 & Hr').
      destruct (IH fuel' ltac:(lia) _ _ _ _ Hr' Hnext) as (r & f' & X2 & Hrest). exists r, f'. split; [by etransitivity | done].
Qed.
End Sim.
