(* ===== verification/Arm64Call.v ===== *)
(** * Arm64Call: calling compiled arm64 code

    The whole of the code behind [ubpf_jit_fn], called as the C function it is cast
    to: the prologue saves the registers of the caller and sets up the eBPF stack,
    the main function runs as [Arm64Local] has it, its EXIT goes back to the
    prologue, and the epilogue restores the registers and returns. *)

From Stdlib Require Import ZArith Lia Bool.
From stdpp Require Import base list gmap strings numbers relations.
From S2P Require Import Prelude Ebpf InstValid Mem Vm Validate Load Alu Checks Interp InterpSound JitSupport JitAsm JitLink JitProg.
From S2P Require Import Arm64Emit Arm64Isa Arm64Move Arm64Trans Arm64Cost Arm64Run Arm64Mem Arm64Code Arm64Sound Arm64Correct Arm64Link Arm64Cpu Arm64Stack Arm64Result Arm64Sim Arm64Local.

Local Open Scope Z_scope.
Local Open Scope cbits_scope.

(** ** The call *)

(** The stack pointer in the program: ten registers are saved, and in the basic mode
    the eBPF stack is below them. *)
Definition frame_sp (mode : JitMode) (sp : Z) : Z :=
  if decide (mode = BasicJitMode) then sp - 80 - UBPF_EBPF_STACK_SIZE else sp - 80.

(** Below it are the frames of the main function and of the calls under way. *)
Definition frame_bottom (mode : JitMode) (sp : Z) : Z := frame_sp mode sp - 16 - 64 * UBPF_MAX_CALL_DEPTH.

Definition saved_pairs : list (Z * Z) := [(R19, R20); (R21, R22); (R23, R24); (R25, R26)].
Definition link_pair : list (Z * Z) := [(R29, R30)].

(** A call with the stack pointer [sp], the registers [s], the memory [m] for the
    program and [f] for the caller, with room below [sp] in [f] for what is saved. *)
Record called (mode : JitMode) (base : Z) (code : list Z) (sp : Z) (s : a64_state) (m f : memory) : Prop := Called {
  cl_code : 0 <= base /\ base + Z.of_nat (length code) < 2 ^ 64;
  cl_sp : (16 | sp) /\ 0 <= frame_bottom mode sp /\ sp < 2 ^ 64;
  cl_regs : forall q, fits64 (s.(xregs) q);
  cl_memory : mem_ok m /\ m ##ₘ f;
  cl_frame : mapped f (sp - 80) 80 /\ mapped f (frame_bottom mode sp) (frame_sp mode sp - frame_bottom mode sp);
}.

(** The arguments are in the registers of a C call; the caller of code in the basic
    mode gives no stack. *)
Definition called_args (mode : JitMode) (sp : Z) (s : a64_state) : exec_args :=
  if decide (mode = BasicJitMode) then
    ExecArgs (s.(xregs) R0) (s.(xregs) R1) (sp - 80 - UBPF_EBPF_STACK_SIZE) UBPF_EBPF_STACK_SIZE
  else ExecArgs (s.(xregs) R0) (s.(xregs) R1) (s.(xregs) R2) (s.(xregs) R3).

(** What the eBPF registers that are not set hold. *)
Definition called_registers (s : a64_state) : list Z := (fun r => s.(xregs) (reg_of r)) <$> seqZ 0 16.

(** ** The prologue *)

Definition saved (sp : Z) (s : a64_state) (f : memory) : Prop :=
  pairs_at f (sp - 80) s.(xregs) saved_pairs /\ pairs_at f (sp - 16) s.(xregs) link_pair.

Lemma save_words : pair_words false 0 saved_pairs [0xa90053f3; 0xa9015bf5; 0xa90263f7; 0xa9036bf9].
Proof. repeat (apply pair_words_cons; [stack_word | by vm_compute |]). constructor. Qed.

Lemma restore_words : pair_words true 0 saved_pairs [0xa94053f3; 0xa9415bf5; 0xa94263f7; 0xa9436bf9].
Proof. repeat (apply pair_words_cons; [stack_word | by vm_compute |]). constructor. Qed.

Lemma save_link_words : pair_words false 0 link_pair [0xa9007bfd].
Proof. repeat (apply pair_words_cons; [stack_word | by vm_compute |]). constructor. Qed.

Lemma restore_link_words : pair_words true 0 link_pair [0xa9407bfd].
Proof. repeat (apply pair_words_cons; [stack_word | by vm_compute |]). constructor. Qed.

Lemma saved_named q : q ∈ registers_of saved_pairs \/ q ∈ registers_of link_pair -> q <> 31.
Proof. intros Hq ->. destruct Hq as [Hq | Hq]; revert Hq; by apply (bool_decide_unpack _). Qed.

(** *** The words that do not use the stack *)

Lemma step_move_register w rd rm s :
  a64_decode w = Some (Logical true 1 false rd 31 rm) -> rd <> 31 -> rm <> 31 -> fits64 (s.(xregs) rm) ->
  exists s', a64_step w s = Some s' /\ sets_reg s s' rd (s.(xregs) rm).
Proof.
  intros Hw Hd Hm Hf. unfold a64_step. rewrite Hw. cbn [mbind option_bind a64_exec Z.eqb Pos.eqb]. eexists. split; [reflexivity |].
  unfold logical. cbn [Z.eqb Pos.eqb]. rewrite (read_operand s true rm) by done. change (read_reg s true 31) with 0. cbn [width].
  rewrite Z.lor_0_l, wrap_wrap by lia. rewrite (wrap_id 64) by done.
  pose proof (write_sets_reg s true rd (s.(xregs) rm) Hd) as Hs. cbn [width] in Hs. by rewrite (wrap_id 64) in Hs by done.
Qed.

(** [add x23, x2, #0; add x23, x23, x3] *)
Lemma given_stack_words s :
  exists s', a64_run [0x91000057; 0x8b0302f7] s = Some s' /\ sets_reg s s' R23 (u64 (s.(xregs) R2 + s.(xregs) R3)).
Proof.
  cbn [a64_run]. unfold a64_step.
  assert (a64_decode 0x91000057 = Some (AddSubImm true false false R23 R2 0)) as -> by by vm_compute.
  assert (a64_decode 0x8b0302f7 = Some (AddSub true false false R23 R23 R3)) as -> by by vm_compute.
  cbn [mbind option_bind a64_exec]. change (R2 =? 31) with false. change (R23 =? 31) with false. cbn [negb andb orb].
  rewrite (surjective_pairing (add_sub true false _ _)), sum_value. cbn [mbind option_bind].
  rewrite (surjective_pairing (add_sub true false _ _)), sum_value. cbn [mbind option_bind]. eexists. split; [reflexivity |].
  pose proof (write_sets_reg s true R23 (wrap (width true) (read_reg s true R2 + 0)) ltac:(done)) as Hs1.
  set (s1 := write_reg s true R23 _) in *. clearbody s1. rewrite !read_operand in * by done. cbn [width] in *.
  pose proof (write_sets_reg s1 true R23 (wrap 64 (wrap 64 (s1.(xregs) R23) + wrap 64 (s1.(xregs) R3))) ltac:(done)) as Hs2.
  pose proof (sets_reg_trans _ _ _ _ _ _ Hs1 Hs2) as Hs. cbn [width] in Hs.
  rewrite (sr_value _ _ _ _ Hs1), (sr_others _ _ _ _ Hs1) in Hs |- * by done.
  rewrite !wrap_wrap, Z.add_0_r, !wrap_wrap, wrap_add_l, wrap_add_r in Hs |- * by lia. by rewrite wrap_wrap in Hs by lia.
Qed.

(** The end of the stack. *)
Definition stack_end (mode : JitMode) (sp : Z) (s : a64_state) : Z :=
  u64 ((called_args mode sp s).(stack_start) + (called_args mode sp s).(stack_length)).

Lemma stack_words_run mode sp s m :
  16 <= frame_sp mode sp -> sp < 2 ^ 64 ->
  exists s', runs_words (if decide (mode = BasicJitMode) then [0x910003f7; 0xd14007ff] else [0x91000057; 0x8b0302f7])
    (HostState (sp - 80) s m) (HostState (frame_sp mode sp) s' m) /\ sets_reg s s' R23 (stack_end mode sp s).
Proof.
  unfold frame_sp, stack_end, called_args. change UBPF_EBPF_STACK_SIZE with 4096. destruct (decide (mode = BasicJitMode)) as [_ | _]; intros H16 Hsp.
  - cbn [stack_start stack_length]. rewrite Z.sub_add. exists (write_reg s true R23 (sp - 80)). split.
    + econstructor; [apply (executes_from_sp _ R23); [stack_word | done | lia] |].
      apply runs_words_one. apply executes_push; [stack_word | lia | lia | lia].
    + apply (write_sets_reg s true). done.
  - cbn [stack_start stack_length]. destruct (given_stack_words s) as (s' & Hr & Hs). exists s'. split; [by apply runs_plain | done].
Qed.

(** The registers of the program when it is entered: r10 at the end of the stack,
    and the others as the caller left them. *)
Record prepared (mode : JitMode) (sp : Z) (s s' : a64_state) : Prop := Prepared {
  pr_stack : s'.(xregs) R23 = stack_end mode sp s;
  pr_frame : s'.(xregs) R29 = sp - 80;
  pr_others : forall q, q ∉ [R23; R24; R26; R29; R30] -> s'.(xregs) q = s.(xregs) q;
}.

Section Prologue.
Context (mode : JitMode) (base : Z) (code : list Z) (sp : Z) (s : a64_state) (m f : memory) (Hc : called mode base code sp s m f).

Lemma sp_bounds : (16 | sp - 16) /\ (16 | sp - 80) /\ (16 | frame_sp mode sp - 16) /\ 528 <= frame_sp mode sp <= sp - 80 /\ sp < 2 ^ 64.
Proof using Hc.
  destruct (cl_sp _ _ _ _ _ _ _ Hc) as ([k ->] & H0 & H1). unfold frame_bottom, UBPF_MAX_CALL_DEPTH, frame_sp in *. change UBPF_EBPF_STACK_SIZE with 4096 in *.
  split; [exists (k - 1); lia |]. split; [exists (k - 5); lia |].
  destruct (decide (mode = BasicJitMode)); (split; [| lia]); [exists (k - 262) | exists (k - 6)]; lia.
Qed.

Lemma caller_fits l : (forall q, q ∈ registers_of l -> q <> 31) -> fits_all s l.
Proof using Hc. intros Hl q Hq. split; [by apply Hl |]. apply Hc. Qed.

Lemma head_runs :
  exists f', runs_words prologue_head (HostState sp s (m ∪ f)) (HostState (sp - 16) s (m ∪ f')) /\ m ##ₘ f' /\
    pairs_at f' (sp - 16) s.(xregs) link_pair /\ changes_only (sp - 16) 16 f f'.
Proof using Hc.
  destruct sp_bounds as (A1 & _ & _ & Hb & Hs). destruct (cl_memory _ _ _ _ _ _ _ Hc) as [_ Hd]. destruct (cl_frame _ _ _ _ _ _ _ Hc) as [Hm _].
  destruct (stores_pairs link_pair _ 0 (sp - 16) s m f save_link_words A1) as (f' & E & D & P & C);
    [lia | cbn; lia | apply caller_fits; intros; apply saved_named; auto | done | intros i Hi; apply Hm; cbn in Hi; lia |].
  rewrite Z.add_0_r in P, C. exists f'. split; [| done].
  econstructor; [apply executes_push; [stack_word | lia | lia | lia] | exact E].
Qed.

Lemma words_run f1 :
  m ##ₘ f1 -> pairs_at f1 (sp - 16) s.(xregs) link_pair -> mapped f1 (sp - 80) 64 ->
  exists s' f', runs_words (prologue_words mode) (HostState (sp - 16) s (m ∪ f1)) (HostState (frame_sp mode sp) s' (m ∪ f')) /\
    m ##ₘ f' /\ saved sp s f' /\ changes_only (sp - 80) 64 f1 f' /\ prepared mode sp s s'.
Proof using Hc.
  intros D1 P1 Hm. destruct sp_bounds as (_ & A2 & _ & Hb & Hs).
  destruct (stores_pairs saved_pairs _ 0 (sp - 80) s m f1 save_words A2) as (f' & E & D & P & C);
    [lia | cbn; lia | apply caller_fits; intros; apply saved_named; auto | done | intros i Hi; apply Hm; cbn in Hi; lia |].
  rewrite Z.add_0_r in P, C. set (s1 := write_reg s true R29 (sp - 80)).
  pose proof (write_sets_reg s true R29 (sp - 80) ltac:(done)) as [V1 O1 _]. fold s1 in V1, O1. cbn [width] in V1. rewrite (wrap_id 64) in V1 by lia.
  destruct (stack_words_run mode sp s1 (m ∪ f')) as (s2 & E2 & [V2 O2 _]); [lia | lia |].
  assert (s2.(xregs) R0 = s.(xregs) R0) as E0 by (by rewrite O2, O1).
  assert (exists s3, a64_step 0xaa0003fa s2 = Some s3 /\ sets_reg s2 s3 R26 (s2.(xregs) R0)) as (s3 & E3 & [_ O3 _]).
  { apply step_move_register; [by vm_compute | done | done |]. rewrite E0. apply Hc. }
  exists s3, f'. split; [| split; [done |]; split; [| split; [done |]]].
  - unfold prologue_words.
    change ([0xd10103ff; 0xa90053f3; 0xa9015bf5; 0xa90263f7; 0xa9036bf9; 0x910003fd]) with
      ([0xd10103ff] ++ [0xa90053f3; 0xa9015bf5; 0xa90263f7; 0xa9036bf9] ++ [0x910003fd]).
    rewrite <- !app_assoc. eapply runs_words_app; [apply runs_words_one, (executes_push _ 64); [stack_word | lia | lia | lia] |].
    replace (sp - 16 - 64) with (sp - 80) by lia. eapply runs_words_app; [exact E |].
    eapply runs_words_app; [apply runs_words_one, (executes_from_sp _ R29); [stack_word | done | lia] |].
    eapply runs_words_app; [exact E2 |]. by apply runs_words_one, executes_plain.
  - split; [exact P |]. eapply pairs_at_frame; [exact C | cbn; lia | done].
  - assert (stack_end mode sp s1 = stack_end mode sp s) as Es by (unfold stack_end, called_args; by rewrite !O1).
    constructor; [by rewrite O3, V2, Es | by rewrite O3, O2, V1 |].
    intros q Hq. rewrite O3, O2, O1; [done | | |]; intros ->; apply Hq; by apply (bool_decide_unpack _).
Qed.

(** The set-up of the main function's frame: its stack usage, twice. *)
Lemma prolog_runs usage s1 f1 :
  0 <= usage < 2 ^ 16 -> prepared mode sp s s1 -> m ##ₘ f1 -> saved sp s f1 -> mapped f1 (frame_sp mode sp - 16) 16 ->
  exists s' f', runs_words (arm_prolog_words usage) (HostState (frame_sp mode sp) s1 (m ∪ f1)) (HostState (frame_sp mode sp - 16) s' (m ∪ f')) /\
    m ##ₘ f' /\ saved sp s f' /\ changes_only (frame_sp mode sp - 16) 16 f1 f' /\ deref f' (frame_sp mode sp - 16) 8 = Some usage /\
    prepared mode sp s s' /\ s'.(xregs) R30 = s1.(xregs) R30.
Proof using Hc.
  intros Hu [P1 P2 P3] D1 [S1 S2] Hm. destruct sp_bounds as (_ & _ & A3 & Hb & Hs).
  destruct (prolog_words_run (frame_sp mode sp) usage s1 m f1) as (s2 & f2 & E2 & D2 & C2 & U2 & O2); [done | lia | lia | done | done | done |].
  assert (forall q, q <> R24 -> s2.(xregs) q = s1.(xregs) q) as O by (intros q Hq; apply O2; by rewrite list_elem_of_singleton).
  exists s2, f2. split; [done |]. split; [done |]. split; [| split; [done |]; split; [done |]; split].
  - split; (eapply pairs_at_frame; [exact C2 | cbn; lia | done]).
  - constructor; [by rewrite O | by rewrite O |]. intros q Hq. rewrite O; [by apply P3 |]. intros ->. apply Hq. by apply (bool_decide_unpack _).
  - by rewrite O.
Qed.
End Prologue.

(** ** The interpreter *)

(** Nothing of an execution depends on [execution_started]. *)
Lemma step_started `{HostEnv} vm args st : step (set_execution_started true vm) args st = step vm args st.
Proof. reflexivity. Qed.

Lemma loop_started `{HostEnv} vm args fuel st : exec_loop (set_execution_started true vm) args fuel st = exec_loop vm args fuel st.
Proof.
  revert st. induction fuel as [| fuel IH]; intros st; cbn [exec_loop]; [done |]. rewrite step_started.
  by destruct (step vm args st) as [[] | |].
Qed.

Lemma exec_inv `{HostEnv} fuel vm args calloc_ok garbage m v m' :
  (ubpf_exec_ex_legacy fuel vm args calloc_ok garbage m).2 = Some (Returned v m') ->
  exec_loop vm args fuel (Interp.initial_state vm args garbage m) = Some (Returned v m').
Proof.
  unfold ubpf_exec_ex_legacy. destruct (vm.(insts) =? 0); [done |]. destruct (_ && _); [done |]. cbn [snd]. by rewrite loop_started.
Qed.

Section Initial.
Context `{HostEnv} (vm : ubpf_vm) (mode : JitMode) (sp : Z) (s : a64_state) (m : memory) (Hfit : forall q, fits64 (s.(xregs) q)).
#[local] Abbreviation est := (Interp.initial_state vm (called_args mode sp s) (called_registers s) m).

Lemma length_called : length (called_registers s) = 16%nat.
Proof. unfold called_registers. by rewrite length_fmap, length_seqZ. Qed.

Lemma initial_fits : regs_fit est.(reg).
Proof using Hfit.
  unfold Interp.initial_state, set_reg, set_regs. cbn [reg].
  assert (fits64 (called_args mode sp s).(arg_mem) /\ fits64 (called_args mode sp s).(arg_mem_len)) as [F1 F2]
    by (unfold called_args; destruct (decide _); by split; apply Hfit).
  apply regs_fit_insert; [| apply (wrap_range 64); lia]. apply regs_fit_insert; [| done]. apply regs_fit_insert; [| done].
  split; [apply length_called |]. apply Forall_fmap, Forall_true. intros r. apply Hfit.
Qed.

Lemma initial_registers s' r : prepared mode sp s s' -> 0 <= r < 11 -> s'.(xregs) (reg_of r) = get_reg est r.
Proof using.
  intros [P1 _ P3] Hr. unfold Interp.initial_state, get_reg, set_reg, set_regs. cbn [reg]. pose proof length_called as L.
  destruct (decide (r = 10)) as [-> | H10]; [by rewrite list_lookup_insert_eq by (rewrite !length_insert, L; lia) |].
  rewrite list_lookup_insert_ne by lia.
  assert (s'.(xregs) (reg_of r) = s.(xregs) (reg_of r)) as ->.
  { apply P3. intros Hin. assert (reg_of r = reg_of 10) as E%reg_of_inj; [| lia | lia | lia].
    pose proof (reg_of_in r Hr) as Hi. set_unfold in Hi. set_unfold in Hin. vm_compute in Hi, Hin |- *. lia. }
  destruct (decide (r = 2)) as [-> | H2]; [rewrite list_lookup_insert_eq by (rewrite !length_insert, L; lia); unfold called_args; by destruct (decide _) |].
  rewrite list_lookup_insert_ne by lia.
  destruct (decide (r = 1)) as [-> | H1]; [rewrite list_lookup_insert_eq by (rewrite L; lia); unfold called_args; by destruct (decide _) |].
  rewrite list_lookup_insert_ne by lia. unfold called_registers. rewrite list_lookup_fmap, (lookup_seqZ_lt 0 16) by lia. cbn. do 2 f_equal. lia.
Qed.
End Initial.

(** ** The whole code *)

(** The registers a C function is to preserve: X27 and X28 are never changed. *)
Definition restored (s r r' : a64_state) : Prop :=
  forall q, 19 <= q <= 30 -> r'.(xregs) q = if (q =? 27) || (q =? 28) then r.(xregs) q else s.(xregs) q.

Section Whole.
Context `{HostEnv} (vm : ubpf_vm) (prog : list ebpf_inst) (buffer : list Z) (its : list item) (st : jit_state) (mode : JitMode).
Context (Hlim : Z.of_nat (length buffer) <= ARM_CODE_LIMIT) (Him : arm_image vm prog buffer its st) (Hsh : arm_shell mode its st).
Context (Hld : loaded vm prog) (Hty : usages_typed vm) (Hdbg : vm.(debug_function) = 0) (Hcov : covered_program prog) (u : Z) (Hu : same_usage vm prog u).
#[local] Abbreviation code := (linked_code (LK := arm_linker) buffer its st).
Context (base sp : Z) (s : a64_state) (m f : memory) (Hc : called mode base code sp s m f).

Lemma code_long : 48 <= Z.of_nat (length code).
Proof using Him.
  pose proof (code_room _ _ _ _ _ Him [] _ eq_refl) as [_ ?]. pose proof (am_entry _ _ _ _ _ Him) as [_ ?].
  rewrite (proj1 (am_main _ _ _ _ _ Him)) in *. change (code_len []) with 0 in *. lia.
Qed.

(** From the first instruction to the code of the main function. *)
Lemma enters :
  prog <> [] ->
  exists s' f', cpu_reaches base code (Cpu 0 sp s (m ∪ f)) (Cpu 64 (frame_sp mode sp - 16) s' (m ∪ f')) /\ m ##ₘ f' /\
    saved sp s f' /\ changes_only (frame_sp mode sp - 16) (sp - frame_sp mode sp + 16) f f' /\ prepared mode sp s s' /\
    s'.(xregs) R30 = base + 48 /\ deref f' (frame_sp mode sp - 16) 8 = Some u /\ 0 <= u < 2 ^ 16.
Proof using All.
  intros Hne. destruct Hsh as (body & data & E & _). unfold prologue_items in E. cbn [app] in E. set (rest := body ++ _) in E.
  pose proof (sp_bounds _ _ _ _ _ _ _ Hc) as (_ & _ & _ & Hb & _). destruct (cl_frame _ _ _ _ _ _ _ Hc) as [M1 M2].
  destruct (cl_code _ _ _ _ _ _ _ Hc) as [B1 B2].
  destruct (head_runs _ _ _ _ _ _ _ Hc) as (f1 & R1 & D1 & P1 & C1).
  destruct (words_run _ _ _ _ _ _ _ Hc f1 D1 P1) as (s2 & f2 & R2 & D2 & S2 & C2 & Pr2).
  { eapply changes_only_mapped; [exact C1 |]. intros i Hi. apply M1. lia. }
  pose proof (run_item _ _ _ _ _ Him base [] _ _ _ _ E R1) as X1. pose proof (run_item _ _ _ _ _ Him base [_] _ _ _ _ E R2) as X2.
  pose proof (run_link _ _ _ _ _ Hlim Him base [_; _] _ _ _ (frame_sp mode sp) s2 (m ∪ f2) E) as X3.
  assert (code_len [Bytes (code_bytes prologue_head)] = 8) as L1 by done.
  assert (code_len [Bytes (code_bytes prologue_head); Bytes (code_bytes (prologue_words mode))] = 44) as L2
    by (unfold prologue_words; by destruct (decide (mode = BasicJitMode))).
  assert (length (prologue_words mode) = 9%nat) as L3 by (unfold prologue_words; by destruct (decide (mode = BasicJitMode))).
  rewrite L1, L3 in X2. rewrite L2 in X3. destruct (am_main _ _ _ _ _ Him) as [Eent Hmain]. specialize (Hmain Hne).
  cbn [arm_slot_target] in X3. rewrite Eent in X3.
  destruct (lookup_lt_is_Some_2 prog 0) as [inst Hinst]; [destruct prog; [done | cbn; lia] |].
  destruct (arm_prolog_placed _ _ _ _ _ Him 0 inst Hty) as (p & usage & Hp & _ & Hus & Hbytes); [constructor | done | done |].
  assert (p = 64) as -> by congruence. pose proof (usage_typed vm 0 usage Hty Hus) as Hur.
  assert (usage = u) as -> by (rewrite (Hu 0) in Hus; [congruence | destruct prog; [done | cbn; lia] | done]).
  set (s3 := write_reg s2 true R30 (base + 44 + 4)) in *.
  pose proof (code_room _ _ _ _ _ Him [] _ eq_refl) as [_ Hroom]. change (code_len []) with 0 in Hroom.
  assert (64 <= code_len its) as H64 by (apply (am_locs _ _ _ _ _ Him 0 64 Hmain)).
  destruct (write_sets_reg s2 true R30 (base + 44 + 4) ltac:(done)) as [V3 O3 _]. cbn [width] in V3. rewrite (wrap_id 64) in V3 by lia. fold s3 in V3, O3.
  assert (prepared mode sp s s3) as Pr3.
  { destruct Pr2 as [? ? Ho]. constructor; [by rewrite O3 | by rewrite O3 |]. intros q Hq. rewrite O3; [by apply Ho |].
    intros ->. apply Hq. by apply (bool_decide_unpack _). }
  destruct (prolog_runs _ _ _ _ _ _ _ Hc u s3 f2 Hur Pr3 D2 S2) as (s4 & f4 & R4 & D4 & S4 & C4 & U4 & Pr4 & E30).
  { eapply changes_only_mapped; [exact C2 |]. eapply changes_only_mapped; [exact C1 |]. intros i Hi. apply M2. unfold frame_bottom, UBPF_MAX_CALL_DEPTH. lia. }
  assert (length (arm_prolog_words u) = 3%nat) as L4.
  { pose proof (length_arm_prolog u Hur) as L. rewrite length_code_bytes in L. lia. }
  pose proof (cpu_words base code _ 52 _ _ R4) as X4. rewrite L4 in X4. specialize (X4 ltac:(lia) ltac:(lia) Hbytes).
  exists s4, f4. split; [| split; [done |]; split; [done |]; split; [| split; [done |]]].
  - etransitivity; [exact X1 |]. etransitivity; [exact X2 |]. etransitivity; [exact X3 |]. exact X4.
  - eapply changes_only_trans; [eapply changes_only_weaken; [exact C1 | lia | lia] |].
    eapply changes_only_trans; [eapply changes_only_weaken; [exact C2 | lia | lia] |]. eapply changes_only_weaken; [exact C4 | lia | lia].
  - split; [rewrite E30, V3; lia | done].
Qed.

(** Behind the call is a branch to the epilogue. *)
Lemma goes_to_epilogue sp' r mm : cpu_reaches base code (Cpu 48 sp' r mm) (Cpu st.(exit_loc) sp' r mm).
Proof using Hlim Him Hsh.
  destruct Hsh as (body & data & E & _). unfold prologue_items in E. cbn [app] in E.
  pose proof (run_branch _ _ _ _ _ Hlim Him base [_; _; _] _ _ sp' r mm E) as X.
  assert (code_len [Bytes (code_bytes prologue_head); Bytes (code_bytes (prologue_words mode)); Slot Jumps (Special Enter) (branch_immediate_bits UBR_BL)] = 48) as L
    by (unfold prologue_words; by destruct (decide (mode = BasicJitMode))).
  by rewrite L in X.
Qed.

(** The epilogue up to its return: the result to X0 and the registers of the caller. *)
Lemma epilogue_runs sp' r (m' f' : memory) :
  r.(xregs) R29 = sp - 80 -> fits64 (r.(xregs) R5) -> m' ##ₘ f' -> saved sp s f' ->
  exists r', runs_words (take 9 epilogue_words) (HostState sp' r (m' ∪ f')) (HostState sp r' (m' ∪ f')) /\
    r'.(xregs) R0 = r.(xregs) R5 /\ restored s r r'.
Proof using Hc.
  intros H29 H5 Hd [S1 S2]. destruct (sp_bounds _ _ _ _ _ _ _ Hc) as (A1 & A2 & _ & Hb & Hs). pose proof (cl_regs _ _ _ _ _ _ _ Hc) as Hfit.
  destruct (step_move_register 0xaa0503e0 R0 R5 r) as (r1 & E1 & [V1 O1 _]); [by vm_compute | done | done | done |].
  destruct (loads_pairs saved_pairs _ 0 (sp - 80) r1 m' f' s.(xregs) restore_words A2) as (r2 & E2 & I2 & O2);
    [lia | cbn; lia | intros; split; [apply saved_named; auto | apply Hfit] | done | by rewrite Z.add_0_r |].
  destruct (loads_pairs link_pair _ 0 (sp - 16) r2 m' f' s.(xregs) restore_link_words A1) as (r3 & E3 & I3 & O3);
    [lia | cbn; lia | intros; split; [apply saved_named; auto | apply Hfit] | done | by rewrite Z.add_0_r |].
  exists r3. split; [| split; [rewrite O3, O2, V1; [done | |]; by apply (bool_decide_unpack _) |]].
  - change (take 9 epilogue_words) with ([0xaa0503e0; 0x910003bf] ++ [0xa94053f3; 0xa9415bf5; 0xa94263f7; 0xa9436bf9] ++ [0x910103ff] ++ [0xa9407bfd] ++ [0x910043ff]).
    eapply runs_words_app; [econstructor; [by apply executes_plain | apply runs_words_one, (executes_to_sp _ R29 (sp - 80)); [stack_word | done | by rewrite O1 | lia]] |].
    eapply runs_words_app; [exact E2 |]. eapply runs_words_app; [apply runs_words_one, (executes_pop _ 64); [stack_word | lia] |].
    replace (sp - 80 + 64) with (sp - 16) by lia. eapply runs_words_app; [exact E3 |].
    replace sp with (sp - 16 + 16) at 2 by lia. apply runs_words_one, (executes_pop _ 16); [stack_word | lia].
  - intros q Hq. destruct (decide (q ∈ registers_of link_pair)) as [Hl | Hl].
    { rewrite I3 by done. set_unfold in Hl. vm_compute in Hl. destruct Hl as [-> | [-> | []]]; done. }
    rewrite O3 by done. destruct (decide (q ∈ registers_of saved_pairs)) as [Hs1 | Hs1].
    { rewrite I2 by done. destruct (Z.eqb_spec q 27) as [-> |]; [by exfalso; revert Hs1; apply (bool_decide_unpack _) |].
      destruct (Z.eqb_spec q 28) as [-> |]; [by exfalso; revert Hs1; apply (bool_decide_unpack _) | done]. }
    rewrite O2, O1 by (done || vm_compute; lia). assert (q = 27 \/ q = 28) as [-> | ->]; [| done | done].
    set_unfold in Hl. set_unfold in Hs1. vm_compute in Hl, Hs1 |- *. lia.
Qed.

(** ... and back to the caller. *)
Lemma leaves sp' r (m' f' : memory) :
  r.(xregs) R29 = sp - 80 -> fits64 (r.(xregs) R5) -> m' ##ₘ f' -> saved sp s f' ->
  exists r', cpu_reaches base code (Cpu st.(exit_loc) sp' r (m' ∪ f')) (Cpu (s.(xregs) R30 - base) sp r' (m' ∪ f')) /\
    r'.(xregs) R0 = r.(xregs) R5 /\ restored s r r'.
Proof using All.
  intros H29 H5 Hd Hsv. destruct (epilogue_runs sp' r m' f' H29 H5 Hd Hsv) as (r3 & R & V0 & Hq).
  destruct Hsh as (body & data & E & Hexit). rewrite app_assoc in E.
  pose proof (linked_item (LK := arm_linker) _ _ _ (am_laid _ _ _ _ _ Him) _ _ _ E) as Hby. cbn [item_bytes] in Hby.
  rewrite <- Hexit, length_code_bytes in Hby. pose proof (code_room _ _ _ _ _ Him _ _ E) as [Ha Hroom]. rewrite code_len_cons in Hroom.
  cbn [item_bytes] in Hroom. rewrite length_code_bytes, <- Hexit in Hroom. rewrite <- Hexit in Ha. pose proof (code_len_nonneg data).
  change (4 * length epilogue_words)%nat with (36 + 4)%nat in Hby. rewrite bytes_at_split in Hby by done.
  change (code_bytes epilogue_words) with (code_bytes (take 9 epilogue_words) ++ code_bytes [0xd65f03c0]) in Hby.
  change (Z.of_nat (4 * length epilogue_words)) with 40 in Hroom.
  apply app_inj_1 in Hby as [Hb1 Hb2]; [| unfold bytes_at; rewrite length_take, length_drop, length_code_bytes; cbn [length take epilogue_words]; lia].
  destruct (bytes_at_words code (st.(exit_loc) + 36) 0xd65f03c0 []) as [F _]; [lia | cbn; lia | exact Hb2 |].
  assert (r3.(xregs) R30 = s.(xregs) R30) as E30 by (apply (Hq R30); vm_compute; split; discriminate).
  exists r3. split; [| by split].
  etransitivity; [apply (cpu_words base code _ st.(exit_loc) _ _ R Ha ltac:(cbn; lia) Hb1) |]. rewrite <- E30.
  apply run_return; [exact F |]. rewrite E30. apply Hc.
Qed.

(** A call of the code of a program without calls of helpers and atomic operations. *)
Lemma call_returns fuel v m' :
  exec_loop vm (called_args mode sp s) fuel (Interp.initial_state vm (called_args mode sp s) (called_registers s) m) = Some (Returned v m') ->
  exists s' f', cpu_reaches base code (Cpu 0 sp s (m ∪ f)) (Cpu (s.(xregs) R30 - base) sp s' (m' ∪ f')) /\ m' ##ₘ f' /\
    s'.(xregs) R0 = v /\ (forall q, 19 <= q <= 30 -> s'.(xregs) q = s.(xregs) q) /\
    changes_only (frame_bottom mode sp) (sp - frame_bottom mode sp) f f'.
Proof using All.
  intros Hloop. assert (prog <> []) as Hne by (intros ->; pose proof (returned_bound vm _ _ Hld _ _ _ _ Hloop); cbn in *; lia).
  destruct (enters Hne) as (s1 & f1 & X1 & D1 & S1 & C1 & Pr & E30 & U1 & Hur).
  destruct (sp_bounds _ _ _ _ _ _ _ Hc) as (_ & _ & A3 & Hb & Hs). destruct (cl_code _ _ _ _ _ _ _ Hc) as [B1 B2].
  assert (frame_bottom mode sp = frame_sp mode sp - 16 - 512) as Ebot by done.
  set (est := Interp.initial_state vm (called_args mode sp s) (called_registers s) m) in *.
  assert (running vm prog st base u (frame_sp mode sp - 16) (base + 48) s1.(xregs) f1 est (Cpu 64 (frame_sp mode sp - 16) s1 (m ∪ f1)) f1 (base + 48)) as Hrun.
  { constructor; [| unfold fits64; pose proof code_long; lia | | apply changes_only_refl | done | done | by left].
    - constructor; [done | by apply Him | intros; by apply initial_registers | apply initial_fits; apply Hc | done | done | apply Hc |].
      split; [cbn; lia |]. intros q Hq. cbn. by destruct (Z.eqb_spec q R30) as [-> |].
    - change (stack_frame_index est) with 0. replace (frame_sp mode sp - 16 - 64 * 0) with (frame_sp mode sp - 16) by lia. by split. }
  destruct (run_to_exit vm prog buffer its st (called_args mode sp s) Hlim Him Hld Hty Hdbg Hcov base u (frame_sp mode sp - 16) (base + 48)
    s1.(xregs) f1 Hu Hur A3 ltac:(lia) ltac:(lia) B1 B2 ltac:(eapply changes_only_mapped; [exact C1 |]; intros i Hi; apply Hc; lia) fuel est _ f1 _ v m' Hrun Hloop)
    as (r & f2 & X2 & Hv & Hvf & D2 & Hh & C2).
  replace (base + 48 - base) with 48 in X2 by lia.
  assert (forall q, 27 <= q <= 29 -> r.(xregs) q = s1.(xregs) q) as Hhost.
  { intros q Hq. rewrite (Hh q) by (apply high_host; lia). cbn. by rewrite (proj2 (Z.eqb_neq q R30)) by (unfold R30; lia). }
  destruct Pr as [_ P29 Po]. assert (r.(xregs) R29 = sp - 80) as H29 by (by rewrite Hhost).
  assert (saved sp s f2) as S2 by (destruct S1; split; (eapply pairs_at_frame; [exact C2 | cbn; lia | done])).
  destruct (leaves (frame_sp mode sp - 16 + 16) r m' f2 H29) as (r' & X4 & V4 & O4); [by rewrite <- Hv in Hvf | done | done |].
  exists r', f2. split; [etransitivity; [exact X1 |]; etransitivity; [exact X2 |]; etransitivity; [apply goes_to_epilogue | exact X4] |].
  split; [done |]. split; [by rewrite V4 |]. split.
  - intros q Hq. rewrite (O4 q Hq). destruct (_ || _) eqn:Eq; [| done]. assert (q = 27 \/ q = 28) as [-> | ->] by lia; (rewrite Hhost by lia); apply Po; by apply (bool_decide_unpack _).
  - eapply changes_only_trans; eapply changes_only_weaken; [exact C1 | lia | lia | exact C2 | lia | lia].
Qed.
End Whole.

(** ** Properties *)

(** *** A call, for evaluation *)

(** [mov r6, 7; call f; add r0, r6; exit] and
    [f: stb [r10-8], 35; ldxb r0, [r10-8]; mov r6, 1; exit] *)
Definition call_code : list Z :=
  bytes_of_insts [Inst 0xb7 6 0 0 7; Inst 0x85 0 1 0 2; Inst 0x0f 0 6 0 0; Inst 0x95 0 0 0 0;
                  Inst 0x72 10 0 (-8) 35; Inst 0x71 0 10 (-8) 0; Inst 0xb7 6 0 0 1; Inst 0x95 0 0 0 0].

Definition call_vm : ubpf_vm := load_on null_host (created_on JitArm64) call_code.

Lemma call_loaded : @loaded null_host call_vm (insts_of_bytes call_code).
Proof.
  destruct (@load_outcome null_host (created_on JitArm64) test_os call_code test_os_sound ltac:(discriminate)) as (vm' & r & E & _ & Hr).
  unfold call_vm, load_on. rewrite E. destruct r as [[] | e]; [apply Hr |]. exfalso. vm_compute in E. discriminate.
Qed.

Lemma call_compilable : @arm_compilable null_host call_vm (insts_of_bytes call_code) (fun _ => true) jit_buffer.
Proof.
  constructor; [apply call_loaded | | by vm_compute | done | by vm_compute].
  unfold usages_typed. apply (bool_decide_unpack _). vm_compute. done.
Qed.

Lemma call_covered : covered_program (insts_of_bytes call_code).
Proof.
  assert (Forall (fun inst => covered inst = true \/ is_local_call inst = true \/ inst.(opcode) = opcode_of EBPF_OP_EXIT) (insts_of_bytes call_code)) as Hall
    by (apply (bool_decide_unpack _); by vm_compute).
  intros k inst _ Hinst. exact (Forall_lookup_1 _ _ _ _ Hall Hinst).
Qed.

Lemma call_usage : same_usage call_vm (insts_of_bytes call_code) 256.
Proof.
  assert (Forall (fun i => function_start call_vm i = true -> ubpf_stack_usage_for_local_func call_vm i = Some 256) (seqZ 0 8)) as Hall
    by (apply (bool_decide_unpack _); by vm_compute).
  intros i Hi. eapply list.Forall_forall in Hall; [exact Hall |]. apply elem_of_seqZ. change (Z.of_nat (length (insts_of_bytes call_code))) with 8 in Hi. lia.
Qed.

(** The stack pointer is 8192 and the link 4096; X19 is in use by the caller. *)
Definition call_regs : a64_state := A64 (fun q => if q =? R30 then 4096 else if q =? R19 then 77 else 0) (Nzcv false false false false).
Definition call_memory : memory := {[ 7848 := 0 ]}.
Definition call_frame : memory := list_to_map ((fun a => (a, 0)) <$> (seqZ 3488 528 ++ seqZ 8112 80)).

Lemma mapped_computed (f : memory) a n : 0 <= n -> Forall (fun i => is_Some (f !! i)) (seqZ a n) -> mapped f a n.
Proof. intros Hn Hf i Hi. eapply list.Forall_forall in Hf; [exact Hf |]. apply elem_of_seqZ. lia. Qed.

Lemma call_called code : Z.of_nat (length code) = 4096 -> called BasicJitMode 65536 code 8192 call_regs call_memory call_frame.
Proof.
  intros L. constructor.
  - rewrite L. by split.
  - split; [by exists 512 | by split].
  - intros q. unfold fits64. cbn. destruct (q =? R30); [by split |]. by destruct (q =? R19).
  - split; [by apply map_Forall_singleton |]. apply map_disjoint_singleton_l_2. by vm_compute.
  - split; (apply mapped_computed; [done |]); apply (bool_decide_unpack _); by vm_compute.
Qed.

(** C8: compiled arm64 code and the interpreter return the same.  The code of a
    loaded program without calls of helpers and atomic operations, called as the C
    function it is cast to (its arguments in X0 to X3, X30 the address to return to,
    the stack pointer aligned, memory [f] below it for the saved registers and the
    frames of local calls, apart from the memory [m] of the program), in either
    mode, with or without constant blinding: whenever [ubpf_exec_ex] with these
    arguments returns [v] and leaves the memory [m'], the processor, started at the
    first byte of the code, gets back to the caller with [v] in X0, the program's
    memory as the interpreter left it, the stack pointer and X19 to X30 as they were,
    and nothing of the caller's memory changed but the frame below the stack
    pointer.  The buffer is large enough and the allocations succeed; no debug
    function is registered; the functions of the program have the same stack usage,
    as they have by default; 64-bit stores (STDW) of a negative immediate are left
    out. *)
Theorem arm_code_returns `{HostEnv} (vm : ubpf_vm) (prog : list ebpf_inst) (alloc : nat -> bool)
    (buffer : list Z) (random : nat -> Z) (mode : JitMode) (u : Z) :
  arm_compilable vm prog alloc buffer -> vm.(debug_function) = 0 -> covered_program prog -> same_usage vm prog u ->
  exists code size d h,
    ubpf_translate_arm64 vm alloc random buffer (Z.of_nat (length buffer)) mode =
      Some (JitResult d h UBPF_JIT_COMPILE_SUCCESS mode, None, code, size) /\ length code = length buffer /\
    forall base sp s m f fuel calloc_ok v m', called mode base code sp s m f ->
      (ubpf_exec_ex_legacy fuel vm (called_args mode sp s) calloc_ok (called_registers s) m).2 = Some (Returned v m') ->
      exists s' f', cpu_reaches base code (Cpu 0 sp s (m ∪ f)) (Cpu (s.(xregs) R30 - base) sp s' (m' ∪ f')) /\ m' ##ₘ f' /\
        s'.(xregs) R0 = v /\ (forall q, 19 <= q <= 30 -> s'.(xregs) q = s.(xregs) q) /\
        changes_only (frame_bottom mode sp) (sp - frame_bottom mode sp) f f'.
Proof.
  intros Hcp Hdbg Hcov Hu. destruct (arm_compile_image _ _ _ _ Hcp random mode) as (st0 & its & st & E0 & Et & Him & Hsh).
  pose proof (arm_compile_run _ _ _ _ Hcp random mode st0 its st E0 Et Him) as Erun.
  eexists _, _, _, _. split; [exact Erun |]. split; [apply linked_length, Him |].
  intros base sp s m f fuel calloc_ok v m' Hc Hex%exec_inv.
  eapply (call_returns vm prog buffer its st mode); try done; [apply (ar_buffer _ _ _ _ Hcp) | apply Hcp | apply Hcp].
Qed.

Lemma arm_code_returns_witness :
  exists code s' f', cpu_reaches 65536 code (Cpu 0 8192 call_regs (call_memory ∪ call_frame)) (Cpu (4096 - 65536) 8192 s' ({[ 7848 := 35 ]} ∪ f')) /\
    s'.(xregs) R0 = 42 /\ s'.(xregs) R19 = 77.
Proof.
  destruct (@arm_code_returns null_host call_vm (insts_of_bytes call_code) (fun _ => true) jit_buffer (fun _ => 0) BasicJitMode 256
    call_compilable ltac:(vm_compute; reflexivity) call_covered call_usage) as (code & size & d & h & _ & Hlen & Hret).
  destruct (Hret 65536 8192 call_regs call_memory call_frame 10%nat true 42 {[ 7848 := 35 ]}) as (s' & f' & Hc & _ & Hv & Hq & _).
  - apply call_called. rewrite Hlen. vm_compute. reflexivity.
  - vm_compute. reflexivity.
  - exists code, s', f'. split; [exact Hc |]. split; [exact Hv |]. rewrite (Hq R19 ltac:(vm_compute; split; discriminate)). reflexivity.
Defined.
