(* ===== verification/Jit.v ===== *)
(** * Jit: the driver of the code generators (vm/ubpf_jit.c)

    [ubpf_translate_ex], [ubpf_compile_ex], [ubpf_copy_jit] and the back end for
    targets without one.  The answers of the operating system and of the C
    library are arguments; the mappings a call makes and drops are its log. *)

From Stdlib Require Import ZArith Lia Bool.
From stdpp Require Import base list gmap strings numbers.
From S2P Require Import Prelude Ebpf InstValid Mem Vm Validate Load JitSupport JitAsm JitLink JitProg Arm64Cost Arm64Trans Arm64Result.
From S2P Require Import X86Emit X86Trans X86Cost X86Sound X86Link X86Correct X86Result.

Local Open Scope Z_scope.

(** ** Data *)

(** What [jit_translate] gives: the result with its message, the buffer and
    [*size]. *)
Definition back_end : Type :=
  ubpf_vm -> list Z -> Z -> JitMode -> option (ubpf_jit_result * option jit_error * list Z * Z).

(** What a translation depends on besides the VM: the array [register_map], the
    allocations and random numbers of the back end, and the fields
    [ubpf_translate_null] leaves unset. *)
Record jit_env : Type := JitEnv {
  env_register_map : list Z;
  env_alloc : nat -> bool;
  env_random : nat -> Z;
  env_unset_helper_offset : Z;
  env_unset_mode : JitMode;
}.

(** The system calls of [ubpf_compile_ex]. *)
Record jit_os : Type := JitOs {
  os_calloc_ok : bool;
  os_map : Z -> option Z;  (* mmap; None: MAP_FAILED *)
  os_protect : Z -> Z -> bool;  (* mprotect to PROT_READ | PROT_EXEC *)
}.

Inductive mapping_event : Type :=
| Mapped (address size : Z)
| Unmapped (address size : Z).

(** [MAP_FAILED] *)
Definition MAP_FAILED : Z := u64 (-1).

(** ** Operations *)

Definition ubpf_translate_null (env : jit_env) : back_end := fun vm buffer size mode =>
  Some (JitResult 0 env.(env_unset_helper_offset) UBPF_JIT_COMPILE_FAILURE env.(env_unset_mode), Some NotJitable,
        buffer, size).

(** [vm->jit_translate] *)
Definition jit_translate (env : jit_env) (t : jit_target) : back_end :=
  match t with
  | JitX86_64 => fun vm buffer size mode =>
      ubpf_translate_x86_64 vm env.(env_register_map) env.(env_alloc) env.(env_random) buffer size mode
  | JitArm64 => fun vm buffer size mode =>
      ubpf_translate_arm64 vm env.(env_alloc) env.(env_random) buffer size mode
  | JitNull => ubpf_translate_null env
  end.

(** The VM, the buffer, [*size], [*errmsg] and the value returned. *)
Definition ubpf_translate_ex (env : jit_env) (vm : ubpf_vm) (buffer : list Z) (size : Z) (errmsg : option jit_error)
    (mode : JitMode) : option (ubpf_vm * list Z * Z * option jit_error * Z) :=
  if decide (vm.(execution_profile) = UBPF_EXECUTION_PROFILE_SAFE) then
    Some (vm, buffer, size, Some InterpreterOnly, -1)
  else
    '(jit_result, msg, buffer, size) ← jit_translate env vm.(jit_functions) vm buffer size mode;
    Some (set_jitted_result jit_result vm, buffer, size, match msg with Some e => Some e | None => errmsg end,
          if decide (jit_result.(compile_result) = UBPF_JIT_COMPILE_SUCCESS) then 0 else -1).

Definition ubpf_translate (env : jit_env) (vm : ubpf_vm) (buffer : list Z) (size : Z) (errmsg : option jit_error)
    : option (ubpf_vm * list Z * Z * option jit_error * Z) :=
  ubpf_translate_ex env vm buffer size errmsg BasicJitMode.

(** The end of [ubpf_compile_ex] (label [out]): a mapping that did not become the
    VM's is dropped. *)
Definition compile_out (vm : ubpf_vm) (mapped jitted_size : Z) (errmsg : option jit_error) (log : list mapping_event)
    : ubpf_vm * Z * option jit_error * list mapping_event :=
  (vm, vm.(jitted), errmsg,
   if negb (mapped =? 0) && (vm.(jitted) =? 0) then log ++ [Unmapped mapped jitted_size] else log).

(** The VM, the pointer returned, [*errmsg] and the log; [None]: undefined
    behaviour. *)
Definition ubpf_compile_ex (env : jit_env) (os : jit_os) (vm : ubpf_vm) (errmsg : option jit_error) (mode : JitMode)
    : option (ubpf_vm * Z * option jit_error * list mapping_event) :=
  if decide (vm.(execution_profile) = UBPF_EXECUTION_PROFILE_SAFE) then
    Some (vm, 0, Some InterpreterOnly, [])
  else if negb (vm.(jitted) =? 0) && bool_decide (vm.(jitted_result).(compile_result) = UBPF_JIT_COMPILE_SUCCESS) &&
          bool_decide (vm.(jitted_result).(jit_mode) = mode) then
    Some (vm, vm.(jitted), errmsg, [])
  else
    let '(vm, log) :=
      if negb (vm.(jitted) =? 0) then
        (set_jitted_size 0 (set_jitted_code [] (set_jitted 0 vm)), [Unmapped vm.(jitted) vm.(jitted_size)])
      else (vm, []) in
    if vm.(insts) =? 0 then Some (vm, 0, Some NoCodeLoaded, log)
    else
      let jitted_size := vm.(jitter_buffer_size) in
      if negb os.(os_calloc_ok) then Some (compile_out vm 0 jitted_size (Some CallocFailed) log)
      else
        '(vm, buffer, jitted_size, errmsg, r) ←
          ubpf_translate_ex env vm (replicate (Z.to_nat jitted_size) 0) jitted_size None mode;
        if r <? 0 then Some (compile_out vm 0 jitted_size errmsg log)
        else
          match os.(os_map) jitted_size with
          | None => Some (compile_out vm MAP_FAILED jitted_size (Some MmapFailed) log)
          | Some address =>
              if Z.of_nat (length buffer) <? jitted_size then None
              else if negb (os.(os_protect) address jitted_size) then
                Some (compile_out vm address jitted_size (Some MprotectFailed) (log ++ [Mapped address jitted_size]))
              else
                Some (compile_out
                        (set_jitted_size jitted_size
                          (set_jitted_code (take (Z.to_nat jitted_size) buffer) (set_jitted address vm)))
                        address jitted_size errmsg (log ++ [Mapped address jitted_size]))
          end.

Definition ubpf_compile (env : jit_env) (os : jit_os) (vm : ubpf_vm) (errmsg : option jit_error)
    : option (ubpf_vm * Z * option jit_error * list mapping_event) :=
  ubpf_compile_ex env os vm errmsg BasicJitMode.

(** The copy: the new contents of [buffer] (of [size] bytes), or the message. *)
Definition ubpf_copy_jit (vm : ubpf_vm) (buffer : list Z) (size : Z) : result (list Z) jit_error :=
  if bool_decide (vm.(jitted_result).(compile_result) <> UBPF_JIT_COMPILE_SUCCESS) || (vm.(jitted) =? 0) then
    Err CopyBeforeCompilation
  else if vm.(jitted_size) >? size then Err CopyBufferTooSmall
  else Ok (write_bytes buffer 0 (take (Z.to_nat vm.(jitted_size)) vm.(jitted_code))).

(** ** Bytes of the compiled code *)

Lemma list_inserts_write (off : Z) (bs code : list Z) :
  0 <= off -> off + Z.of_nat (length bs) <= Z.of_nat (length code) ->
  list_inserts (Z.to_nat off) bs code = write_bytes code off bs.
Proof.
  intros H0 Hl. apply list_eq. intros k. rewrite write_bytes_lookup by done.
  destruct (decide (Z.to_nat off <= k < Z.to_nat off + length bs)%nat).
  - rewrite list_lookup_inserts by lia. done.
  - destruct (decide (k < Z.to_nat off)%nat).
    + by rewrite list_lookup_inserts_lt by lia.
    + by rewrite list_lookup_inserts_ge by lia.
Qed.

(** Writing inside a field. *)
Lemma bytes_at_write_inside code off n k bs :
  0 <= off -> 0 <= k -> k + Z.of_nat (length bs) <= Z.of_nat n -> off + Z.of_nat n <= Z.of_nat (length code) ->
  bytes_at (write_bytes code (off + k) bs) off n = write_bytes (bytes_at code off n) k bs.
Proof.
  intros H0 Hk Hn Hc. assert (length (bytes_at code off n) = n) as Lb.
  { unfold bytes_at. rewrite length_take, length_drop. lia. }
  apply list_eq. intros i. rewrite bytes_at_lookup, !write_bytes_lookup by lia. rewrite bytes_at_lookup.
  destruct (decide (i < n)%nat).
  - destruct (decide (Z.to_nat (off + k) <= Z.to_nat off + i < Z.to_nat (off + k) + length bs)%nat).
    + rewrite decide_True by lia. f_equal. lia.
    + by rewrite decide_False by lia.
  - by rewrite decide_False by lia.
Qed.

Lemma encode_take (fs : list Z) i : take (8 * i) (fs ≫= le_encode 8) = take i fs ≫= le_encode 8.
Proof.
  revert i; induction fs as [| f fs IH]; intros i; [cbn [mbind list_bind]; by rewrite !take_nil |].
  destruct i as [| i]; [done |]. rewrite bind_cons. cbn [take]. rewrite bind_cons.
  rewrite take_app_ge by (rewrite length_le_encode; lia). rewrite length_le_encode. f_equal. rewrite <- IH. f_equal. lia.
Qed.

Lemma encode_drop (fs : list Z) i : drop (8 * i) (fs ≫= le_encode 8) = drop i fs ≫= le_encode 8.
Proof.
  revert i; induction fs as [| f fs IH]; intros i; [cbn [mbind list_bind]; by rewrite !drop_nil |].
  destruct i as [| i]; [done |]. rewrite bind_cons. cbn [drop].
  rewrite drop_app_ge by (rewrite length_le_encode; lia). rewrite length_le_encode. rewrite <- IH. f_equal. lia.
Qed.

(** An entry of the table of helpers. *)
Lemma encode_insert (fs : list Z) (i : nat) (f : Z) :
  (i < length fs)%nat ->
  write_bytes (fs ≫= le_encode 8) (8 * Z.of_nat i) (le_encode 8 f) = <[i := f]> fs ≫= le_encode 8.
Proof.
  intros Hi. unfold write_bytes. rewrite length_le_encode. replace (Z.to_nat (8 * Z.of_nat i)) with (8 * i)%nat by lia.
  replace (8 * i + 8)%nat with (8 * S i)%nat by lia. rewrite encode_take, encode_drop, insert_take_drop by done.
  by rewrite bind_app, bind_cons.
Qed.

(** ** The compiled code and the VM agree *)

(** The invariant of a VM with compiled code: the slot of the dispatcher and the
    table of helpers in the code hold what the VM holds, and the table is the last
    thing in the code. *)
Record code_matches (vm : ubpf_vm) : Prop := CodeMatches {
  cm_success : vm.(jitted_result).(compile_result) = UBPF_JIT_COMPILE_SUCCESS;
  cm_target : vm.(jit_functions) = JitX86_64 \/ vm.(jit_functions) = JitArm64;
  cm_address : 0 < vm.(jitted) /\ vm.(jitted) + vm.(jitted_size) < 2 ^ 64;
  cm_size : vm.(jitted_size) = Z.of_nat (length vm.(jitted_code));
  cm_helpers : length vm.(ext_funcs) = 64%nat;
  cm_order : 0 <= vm.(jitted_result).(external_dispatcher_offset) /\
    vm.(jitted_result).(external_dispatcher_offset) + 8 <= vm.(jitted_result).(external_helper_offset);
  cm_last : vm.(jitted_result).(external_helper_offset) + 512 = vm.(jitted_size);
  cm_dispatcher : bytes_at vm.(jitted_code) vm.(jitted_result).(external_dispatcher_offset) 8 = le_encode 8 vm.(dispatcher);
  cm_table : bytes_at vm.(jitted_code) vm.(jitted_result).(external_helper_offset) 512 = vm.(ext_funcs) ≫= le_encode 8;
}.

Section Register.
Context (vm : ubpf_vm) (mprotect : Z -> Z -> prot -> bool).
Context (Hcm : code_matches vm) (Hmp : forall p, mprotect vm.(jitted) vm.(jitted_size) p = true).

(** The address arithmetic of the two updates. *)
Lemma update_slot idx fn :
  0 <= idx < 64 ->
  jit_update_helper vm.(jit_functions) fn idx vm.(jitted) vm.(jitted_code) vm.(jitted_size)
    vm.(jitted_result).(external_helper_offset) =
  if idx =? 63 then None
  else Some (write_bytes vm.(jitted_code) (vm.(jitted_result).(external_helper_offset) + 8 * idx) (le_encode 8 fn)).
Proof.
  intros Hi. destruct Hcm as [_ Ht [Ha Hw] Hs _ [Hd Ho] Hl _ _].
  set (h := vm.(jitted_result).(external_helper_offset)) in *.
  assert (u64 (jitted vm + h + u32 (8 * idx)) = jitted vm + h + 8 * idx /\
          u64 (jitted vm + h + 8 * idx + 8) = jitted vm + h + 8 * idx + 8 /\
          u64 (jitted vm + jitted_size vm) = jitted vm + jitted_size vm) as (E1 & E2 & E3)
    by (rewrite (wrap_id 32), !wrap_id by lia; done).
  destruct Ht as [-> | ->]; cbn [jit_update_helper];
    unfold ubpf_jit_update_helper_x86_64, ubpf_jit_update_helper_arm64; cbv zeta; rewrite E1, E2, E3;
    replace (jitted vm + h + 8 * idx - jitted vm) with (h + 8 * idx) by lia;
    destruct (Z.ltb_spec (jitted vm + h + 8 * idx + 8) (jitted vm + jitted_size vm)), (Z.eqb_spec idx 63); try lia; try done;
    by rewrite list_inserts_write by (rewrite ?length_le_encode; lia).
Qed.

Lemma update_dispatcher_slot fn :
  jit_update_dispatcher vm.(jit_functions) fn vm.(jitted) vm.(jitted_code) vm.(jitted_size)
    vm.(jitted_result).(external_dispatcher_offset) =
  Some (write_bytes vm.(jitted_code) vm.(jitted_result).(external_dispatcher_offset) (le_encode 8 fn)).
Proof.
  destruct Hcm as [_ Ht [Ha Hw] Hs _ [Hd Ho] Hl _ _].
  set (d := vm.(jitted_result).(external_dispatcher_offset)) in *.
  assert (u64 (jitted vm + d) = jitted vm + d /\ u64 (jitted vm + d + 8) = jitted vm + d + 8 /\
          u64 (jitted vm + jitted_size vm) = jitted vm + jitted_size vm) as (E1 & E2 & E3)
    by (rewrite !wrap_id by lia; done).
  destruct Ht as [-> | ->]; cbn [jit_update_dispatcher];
    unfold ubpf_jit_update_dispatcher_x86_64, ubpf_jit_update_dispatcher_arm64; cbv zeta; rewrite E1, E2, E3;
    replace (jitted vm + d - jitted vm) with d by lia;
    rewrite (proj2 (Z.ltb_lt _ _)) by lia; by rewrite list_inserts_write by (rewrite ?length_le_encode; lia).
Qed.

Lemma register_run idx name fn :
  0 <= idx < 64 ->
  let vm1 := set_ext_func_names (<[Z.to_nat idx := name]> vm.(ext_func_names))
               (set_ext_funcs (<[Z.to_nat idx := fn]> vm.(ext_funcs)) vm) in
  ubpf_register vm mprotect idx name fn =
  if idx =? 63 then (vm1, -1)
  else (set_jitted_code (write_bytes vm.(jitted_code) (vm.(jitted_result).(external_helper_offset) + 8 * idx)
                           (le_encode 8 fn)) vm1, 0).
Proof.
  intros Hi vm1. unfold ubpf_register, update_jitted. rewrite (proj2 (Z.leb_gt _ _)) by (unfold MAX_EXT_FUNCS; lia).
  fold vm1. rewrite decide_True by apply Hcm. change (jitted vm1) with (jitted vm). change (jitted_size vm1) with (jitted_size vm).
  rewrite Hmp. cbn [negb]. change (jit_functions vm1) with (jit_functions vm). change (jitted_code vm1) with (jitted_code vm).
  change (jitted_result vm1) with (jitted_result vm). rewrite update_slot by done.
  destruct (idx =? 63); cbn [jitted jitted_size set_jitted_code]; change (jitted vm1) with (jitted vm);
    change (jitted_size vm1) with (jitted_size vm); by rewrite Hmp.
Qed.

(** Registering a helper keeps the agreement, but for the last slot. *)
Lemma register_matches idx name fn :
  0 <= idx < 63 ->
  (ubpf_register vm mprotect idx name fn).2 = 0 /\ code_matches (ubpf_register vm mprotect idx name fn).1.
Proof.
  intros Hi. rewrite register_run by lia. rewrite (proj2 (Z.eqb_neq idx 63)) by lia. cbn [fst snd]. split; [done |].
  destruct Hcm as [Hs Ht Ha Hz Hh [Hd Ho] Hl Hdb Htb].
  assert (length (le_encode 8 fn) = 8%nat) as L8 by apply length_le_encode.
  constructor; cbn -[bytes_at write_bytes le_encode Z.mul]; try done.
  - by rewrite length_write_bytes by lia.
  - by rewrite length_insert.
  - rewrite bytes_at_write_ne by lia. done.
  - rewrite bytes_at_write_inside by lia. rewrite Htb. rewrite <- encode_insert by lia.
    by rewrite Z2Nat.id by lia.
Qed.

Lemma register_dispatcher_matches fn validater :
  (ubpf_register_external_dispatcher vm mprotect fn validater).2 = 0 /\
  code_matches (ubpf_register_external_dispatcher vm mprotect fn validater).1.
Proof.
  unfold ubpf_register_external_dispatcher, update_jitted. set (vm1 := set_dispatcher_validate _ _).
  rewrite decide_True by apply Hcm. change (jitted vm1) with (jitted vm). change (jitted_size vm1) with (jitted_size vm).
  rewrite Hmp. cbn [negb]. change (jit_functions vm1) with (jit_functions vm). change (jitted_code vm1) with (jitted_code vm).
  change (jitted_result vm1) with (jitted_result vm). rewrite update_dispatcher_slot. cbn [jitted jitted_size set_jitted_code].
  change (jitted vm1) with (jitted vm). change (jitted_size vm1) with (jitted_size vm). rewrite Hmp. cbn [negb fst snd].
  split; [done |]. destruct Hcm as [Hs Ht Ha Hz Hh [Hd Ho] Hl Hdb Htb].
  assert (length (le_encode 8 fn) = 8%nat) as L8 by apply length_le_encode.
  constructor; cbn -[bytes_at write_bytes le_encode Z.mul]; try done.
  - by rewrite length_write_bytes by lia.
  - pose proof (bytes_at_write_eq (jitted_code vm) (external_dispatcher_offset (jitted_result vm)) (le_encode 8 fn)) as E.
    rewrite L8 in E. apply E; lia.
  - rewrite bytes_at_write_ne by lia. done.
Qed.
End Register.

(** ** Compiling *)

(** A VM without compiled code. *)
Definition without_code (vm : ubpf_vm) : ubpf_vm := set_jitted_size 0 (set_jitted_code [] (set_jitted 0 vm)).

Definition cached (vm : ubpf_vm) (mode : JitMode) : bool :=
  negb (vm.(jitted) =? 0) && bool_decide (vm.(jitted_result).(compile_result) = UBPF_JIT_COMPILE_SUCCESS) &&
  bool_decide (vm.(jitted_result).(jit_mode) = mode).

(** The mapping of the old code is dropped first. *)
Definition dropped (vm : ubpf_vm) : ubpf_vm := if vm.(jitted) =? 0 then vm else without_code vm.
Definition drop_log (vm : ubpf_vm) : list mapping_event :=
  if vm.(jitted) =? 0 then [] else [Unmapped vm.(jitted) vm.(jitted_size)].

(** [ubpf_compile_ex] on the part of the VM it does not touch before. *)
Lemma compile_ex_unfold env os vm errmsg mode :
  vm.(execution_profile) <> UBPF_EXECUTION_PROFILE_SAFE -> cached vm mode = false -> vm.(insts) <> 0 ->
  os.(os_calloc_ok) = true ->
  ubpf_compile_ex env os vm errmsg mode =
  ('(vm1, buffer, size, msg, r) ←
     ubpf_translate_ex env (dropped vm) (replicate (Z.to_nat vm.(jitter_buffer_size)) 0) vm.(jitter_buffer_size) None mode;
   if r <? 0 then Some (compile_out vm1 0 size msg (drop_log vm))
   else
     match os.(os_map) size with
     | None => Some (compile_out vm1 MAP_FAILED size (Some MmapFailed) (drop_log vm))
     | Some address =>
         if Z.of_nat (length buffer) <? size then None
         else if negb (os.(os_protect) address size) then
           Some (compile_out vm1 address size (Some MprotectFailed) (drop_log vm ++ [Mapped address size]))
         else Some (compile_out (set_jitted_size size (set_jitted_code (take (Z.to_nat size) buffer) (set_jitted address vm1)))
                      address size msg (drop_log vm ++ [Mapped address size]))
     end).
Proof.
  intros Hp Hc Hi Ha. unfold ubpf_compile_ex. rewrite decide_False by done. unfold cached in Hc. rewrite Hc.
  unfold dropped, drop_log. destruct (jitted vm =? 0); cbn [negb].
  - rewrite (proj2 (Z.eqb_neq _ 0)), Ha by done. reflexivity.
  - cbn [insts set_jitted_size set_jitted_code set_jitted]. rewrite (proj2 (Z.eqb_neq _ 0)), Ha by done. reflexivity.
Qed.

Lemma loaded_without_code `{HostEnv} vm prog : loaded vm prog -> loaded (without_code vm) prog.
Proof.
  intros [[Hl Hk Ha Hck] ? ? ? ? ?]. constructor; try done. constructor; try done.
  intros k inst Hs Hinst. destruct (Hck k inst Hs Hinst) as [op [? ? ? ? ?]]. exists op. by constructor.
Qed.

Lemma loaded_dropped `{HostEnv} vm prog : loaded vm prog -> loaded (dropped vm) prog.
Proof. unfold dropped. destruct (_ =? _); [done | apply loaded_without_code]. Qed.

Lemma dropped_fields vm :
  (dropped vm).(jit_functions) = vm.(jit_functions) /\ (dropped vm).(execution_profile) = vm.(execution_profile) /\
  (dropped vm).(ext_funcs) = vm.(ext_funcs) /\ (dropped vm).(dispatcher) = vm.(dispatcher) /\ (dropped vm).(jitted) = 0.
Proof. unfold dropped. destruct (Z.eqb_spec (jitted vm) 0); done. Qed.

(** ** The interface of the back ends *)

(** What the driver relies on: a condition under which a back end translates a
    program, which does not depend on code compiled before, and under which the
    code fits the buffer and ends with the VM's dispatcher and helper functions. *)
Class BackEnd (t : jit_target) := MkBackEnd {
  be_ready : forall {H : HostEnv}, jit_env -> ubpf_vm -> list ebpf_inst -> list Z -> Prop;
  be_real : t = JitX86_64 \/ t = JitArm64;
  be_facts : forall {H : HostEnv} env vm prog buffer, be_ready env vm prog buffer ->
    loaded vm prog /\ length vm.(ext_funcs) = 64%nat /\ 0 < Z.of_nat (length buffer);
  be_dropped : forall {H : HostEnv} env vm prog buffer, be_ready env vm prog buffer -> be_ready env (dropped vm) prog buffer;
  be_translates : forall {H : HostEnv} env vm prog buffer mode, be_ready env vm prog buffer ->
    exists code size d h, jit_translate env t vm buffer (Z.of_nat (length buffer)) mode =
        Some (JitResult d h UBPF_JIT_COMPILE_SUCCESS mode, None, code, size) /\
      0 <= size <= Z.of_nat (length buffer) /\ length code = length buffer /\
      h = d + 8 /\ h + 512 = size /\ 0 <= d /\ bytes_at code d 8 = le_encode 8 vm.(dispatcher) /\
      bytes_at code h 512 = vm.(ext_funcs) ≫= le_encode 8;
}.

#[export, refine] Instance x86_back_end : BackEnd JitX86_64 := {|
  be_ready := fun H env vm prog buffer => compilable vm prog env.(env_register_map) env.(env_alloc) buffer;
|}.
Proof.
  - by left.
  - intros H env vm prog buffer Hcp. destruct Hcp. unfold MAX_EXT_FUNCS in *. split; [done |]. lia.
  - intros H env vm prog buffer Hcp. destruct (dropped_fields vm) as (_ & _ & F & _ & _).
    destruct Hcp. constructor; try done; [by apply loaded_dropped | by rewrite F].
  - intros H env vm prog buffer mode Hcp.
    destruct (jit_translates vm prog _ _ buffer (env_random env) mode Hcp) as (code & size & d & h & E & H1 & H2 & _ & H3).
    by exists code, size, d, h.
Defined.

#[export, refine] Instance arm_back_end : BackEnd JitArm64 := {|
  be_ready := fun H env vm prog buffer => arm_compilable vm prog env.(env_alloc) buffer;
|}.
Proof.
  - by right.
  - intros H env vm prog buffer Hcp. destruct Hcp. unfold MAX_EXT_FUNCS in *. split; [done |]. lia.
  - intros H env vm prog buffer Hcp. destruct (dropped_fields vm) as (_ & _ & F & _ & _).
    destruct Hcp. constructor; try done; [by apply loaded_dropped | | by rewrite F].
    unfold dropped. by destruct (_ =? _).
  - intros H env vm prog buffer mode Hcp.
    destruct (arm_translates vm prog _ buffer (env_random env) mode Hcp)
      as (code & size & d & h & E & H1 & H2 & _ & H3 & H4 & H5 & _ & H6). by exists code, size, d, h.
Defined.

(** A VM and surroundings in which compilation goes through. *)
Record jit_ready `{HostEnv} {t : jit_target} {BE : BackEnd t} (env : jit_env) (os : jit_os) (vm : ubpf_vm)
    (prog : list ebpf_inst) : Prop := JitReady {
  jr_target : vm.(jit_functions) = t;
  jr_profile : vm.(execution_profile) <> UBPF_EXECUTION_PROFILE_SAFE;
  jr_compilable : be_ready env vm prog (replicate (Z.to_nat vm.(jitter_buffer_size)) 0);
  jr_calloc : os.(os_calloc_ok) = true;
  jr_map : forall size, 0 < size <= vm.(jitter_buffer_size) -> exists address,
    os.(os_map) size = Some address /\ 0 < address /\ address + size < 2 ^ 64;
  jr_protect : forall address size, os.(os_protect) address size = true;
}.

(** The agreement right after the compilation. *)
Lemma compiled_matches vm code address size d h mode :
  vm.(jit_functions) = JitX86_64 \/ vm.(jit_functions) = JitArm64 -> length vm.(ext_funcs) = 64%nat ->
  0 < address -> address + size < 2 ^ 64 -> 0 <= size <= Z.of_nat (length code) ->
  h = d + 8 -> h + 512 = size -> 0 <= d ->
  bytes_at code d 8 = le_encode 8 vm.(dispatcher) -> bytes_at code h 512 = vm.(ext_funcs) ≫= le_encode 8 ->
  code_matches (set_jitted_size size (set_jitted_code (take (Z.to_nat size) code) (set_jitted address
    (set_jitted_result (JitResult d h UBPF_JIT_COMPILE_SUCCESS mode) vm)))).
Proof.
  intros Ht Hl Ha Ha' Hs Hh Hend Hd Hdb Htb.
  assert (forall off n, 0 <= off -> off + Z.of_nat n <= size ->
    bytes_at (take (Z.to_nat size) code) off n = bytes_at code off n) as Htake.
  { intros off n H0 Hn. apply list_eq. intros k. rewrite !bytes_at_lookup. destruct (decide (k < n)%nat); [| done].
    by rewrite lookup_take_lt by lia. }
  constructor; cbn -[bytes_at le_encode]; try done; try lia.
  - rewrite length_take. lia.
  - rewrite Htake by lia. done.
  - rewrite Htake by lia. done.
Qed.

Lemma loaded_set_code `{HostEnv} vm prog address code size r :
  loaded vm prog ->
  loaded (set_jitted_size size (set_jitted_code code (set_jitted address (set_jitted_result r vm)))) prog.
Proof.
  intros [[Hl Hk Ha Hck] ? ? ? ? ?]. constructor; try done. constructor; try done.
  intros k inst Hs Hinst. destruct (Hck k inst Hs Hinst) as [op [? ? ? ? ?]]. exists op. by constructor.
Qed.

(** A compilation that goes through: the code is mapped, the VM's offsets belong
    to it, and it agrees with the VM. *)
Lemma compile_ready `{HostEnv} {t} {BE : BackEnd t} env os vm prog errmsg mode :
  jit_ready env os vm prog -> cached vm mode = false ->
  exists vm' address size, ubpf_compile_ex env os vm errmsg mode =
      Some (vm', address, None, drop_log vm ++ [Mapped address size]) /\
    vm'.(jitted) = address /\ 0 < address /\ vm'.(jitted_size) = size /\ code_matches vm' /\
    vm'.(jitted_result).(jit_mode) = mode /\ loaded vm' prog.
Proof.
  intros [Ht Hp Hcp Hca Hmap Hpr] Hc. destruct (dropped_fields vm) as (F1 & F2 & F3 & F4 & F5).
  set (buffer := replicate (Z.to_nat (jitter_buffer_size vm)) 0) in *.
  destruct (be_facts env vm prog buffer Hcp) as (Hld & Hex & Hpos).
  assert (Z.of_nat (length buffer) = jitter_buffer_size vm) as Lb by (unfold buffer in *; rewrite length_replicate in *; lia).
  destruct (be_translates env (dropped vm) prog buffer mode (be_dropped _ _ _ _ Hcp))
    as (code & size & d & h & E & Hsz & Hlen & Hh & Hend & Hd & Hdb & Htb).
  rewrite Lb in E. destruct (Hmap size ltac:(lia)) as (address & Em & Ha0 & Ha1).
  eexists _, address, size. split.
  { rewrite compile_ex_unfold by (done || apply Hld). unfold ubpf_translate_ex. rewrite F2, decide_False by done.
    rewrite F1, Ht. fold buffer. rewrite E. cbn [mbind option_bind compile_result].
    rewrite decide_True by done. change (0 <? 0) with false. cbv iota. rewrite Em.
    rewrite (proj2 (Z.ltb_ge _ _)) by lia. rewrite Hpr. cbn [negb]. unfold compile_out.
    cbn [jitted set_jitted_size set_jitted_code set_jitted]. rewrite (proj2 (Z.eqb_neq address 0)) by lia. reflexivity. }
  split; [done |]. split; [done |]. split; [done |]. split; [| split; [done |]].
  - apply compiled_matches; try done; try lia.
    + rewrite F1, Ht. exact be_real.
    + by rewrite F3.
  - apply loaded_set_code. by apply loaded_dropped.
Qed.

(** ** Registrations after the compilation *)

Inductive registration : Type :=
| RegisterHelper (idx : Z) (name : option string) (fn : Z)
| RegisterDispatcher (dispatcher validater : Z).

Definition register_one (mprotect : Z -> Z -> prot -> bool) (vm : ubpf_vm) (r : registration) : ubpf_vm * Z :=
  match r with
  | RegisterHelper idx name fn => ubpf_register vm mprotect idx name fn
  | RegisterDispatcher d v => ubpf_register_external_dispatcher vm mprotect d v
  end.

(** A sequence of registrations, with the values they return. *)
Fixpoint register_all (mprotect : Z -> Z -> prot -> bool) (vm : ubpf_vm) (rs : list registration) : ubpf_vm * list Z :=
  match rs with
  | [] => (vm, [])
  | r :: rs' =>
      let '(vm, x) := register_one mprotect vm r in
      let '(vm, xs) := register_all mprotect vm rs' in (vm, x :: xs)
  end.

(** Any helper but the last, whose slot is the last of the code. *)
Definition in_reach (r : registration) : Prop :=
  match r with
  | RegisterHelper idx _ _ => 0 <= idx < 63
  | RegisterDispatcher _ _ => True
  end.

Lemma register_all_matches mprotect vm rs :
  (forall a s p, mprotect a s p = true) -> code_matches vm -> Forall in_reach rs ->
  code_matches (register_all mprotect vm rs).1 /\ Forall (eq 0) (register_all mprotect vm rs).2.
Proof.
  intros Hmp Hcm Hrs. revert vm Hcm; induction Hrs as [| r rs Hr _ IH]; intros vm Hcm; [done |]. cbn [register_all].
  assert ((register_one mprotect vm r).2 = 0 /\ code_matches (register_one mprotect vm r).1) as [E Hcm'].
  { destruct r; [by apply register_matches | by apply register_dispatcher_matches]. }
  destruct (register_one mprotect vm r) as [vm1 x]. cbn [fst snd] in *. subst x.
  destruct (IH vm1 Hcm') as [Hm Hz]. destruct (register_all mprotect vm1 rs) as [vm2 xs]. split; [done |]. by constructor.
Qed.

(** *** The mappings the VM owns *)

Definition owned (vm : ubpf_vm) : gmap Z Z := if vm.(jitted) =? 0 then ∅ else {[vm.(jitted) := vm.(jitted_size)]}.

Definition replay_event (m : gmap Z Z) (e : mapping_event) : gmap Z Z :=
  match e with
  | Mapped a s => <[a := s]> m
  | Unmapped a s => delete a m
  end.

Definition replay (log : list mapping_event) (m : gmap Z Z) : gmap Z Z := foldl replay_event m log.

Lemma replay_drop vm : replay (drop_log vm) (owned vm) = ∅ /\ owned (dropped vm) = ∅.
Proof.
  unfold drop_log, owned, dropped. destruct (Z.eqb_spec (jitted vm) 0) as [E | E].
  - by rewrite E.
  - split; [| done]. cbn. apply delete_singleton_eq.
Qed.

Lemma translate_ex_keeps env vm buffer size errmsg mode vm' buffer' size' errmsg' r :
  ubpf_translate_ex env vm buffer size errmsg mode = Some (vm', buffer', size', errmsg', r) ->
  vm'.(jitted) = vm.(jitted) /\ vm'.(jitted_size) = vm.(jitted_size).
Proof.
  unfold ubpf_translate_ex. destruct (decide _); [by intros [= <-] |].
  destruct (jit_translate _ _ _ _ _ _) as [[[[res msg] b] sz] |]; [| discriminate]. by intros [= <-].
Qed.

Section Mappings.
Context (env : jit_env) (os : jit_os).
Context (Hmap : forall size address, os.(os_map) size = Some address -> 0 < address).

(** Every way out after the old code is dropped. *)
Lemma compile_tail_mappings m vm1 buffer size msg r log vm' ptr msg' log' :
  vm1.(jitted) = 0 -> replay log m = ∅ ->
  (if r <? 0 then Some (compile_out vm1 0 size msg log)
   else
     match os.(os_map) size with
     | None => Some (compile_out vm1 MAP_FAILED size (Some MmapFailed) log)
     | Some address =>
         if Z.of_nat (length buffer) <? size then None
         else if negb (os.(os_protect) address size) then
           Some (compile_out vm1 address size (Some MprotectFailed) (log ++ [Mapped address size]))
         else Some (compile_out (set_jitted_size size (set_jitted_code (take (Z.to_nat size) buffer) (set_jitted address vm1)))
                      address size msg (log ++ [Mapped address size]))
     end) = Some (vm', ptr, msg', log') ->
  replay log' m = owned vm' /\ ptr = vm'.(jitted).
Proof using Hmap.
  intros Hj Hl. assert (owned vm1 = ∅) as Ho by (unfold owned; by rewrite Hj).
  assert (forall l e, replay (l ++ [e]) m = replay_event (replay l m) e) as Happ
    by (intros; unfold replay; by rewrite foldl_app).
  unfold compile_out. destruct (r <? 0).
  { intros [= <- <- <- <-]. cbn [negb andb Z.eqb]. by rewrite Ho. }
  destruct (os_map os size) as [address |] eqn:Em.
  2:{ rewrite Hj. intros [= <- <- <- <-]. rewrite Ho, Happ, Hl. split; [apply delete_empty | done]. }
  destruct (_ <? _); [discriminate |]. pose proof (Hmap _ _ Em). assert ((address =? 0) = false) as Ez by lia.
  destruct (os_protect os address size); cbn [negb]; intros [= <- <- <- <-].
  - cbn [jitted set_jitted_size set_jitted_code set_jitted]. rewrite Ez. cbn [negb andb]. rewrite Happ, Hl. split; [| done].
    unfold owned. cbn. by rewrite Ez.
  - rewrite Hj, Ez. cbn [negb andb Z.eqb]. rewrite Ho, !Happ, Hl. cbn [replay_event]. rewrite insert_empty.
    split; [apply delete_singleton_eq | done].
Qed.

(** Before the translation: the refusals. *)
Lemma compile_ex_early vm errmsg mode :
  vm.(execution_profile) <> UBPF_EXECUTION_PROFILE_SAFE -> cached vm mode = false ->
  vm.(insts) = 0 \/ os.(os_calloc_ok) = false ->
  exists msg, ubpf_compile_ex env os vm errmsg mode = Some (dropped vm, 0, Some msg, drop_log vm).
Proof.
  intros Hp Hc Hor. unfold ubpf_compile_ex, dropped, drop_log, without_code, compile_out. rewrite decide_False by done.
  unfold cached in Hc. rewrite Hc. destruct (Z.eqb_spec (jitted vm) 0) as [Hj |];
    cbn [negb insts jitted set_jitted_size set_jitted_code set_jitted];
    (destruct (Z.eqb_spec (insts vm) 0); [by eexists |]; destruct Hor as [| ->]; [done |]; cbn [negb andb]; rewrite ?Hj; by eexists).
Qed.

Lemma compile_mappings vm errmsg mode vm' ptr msg log :
  ubpf_compile_ex env os vm errmsg mode = Some (vm', ptr, msg, log) ->
  replay log (owned vm) = owned vm' /\
  (vm.(execution_profile) <> UBPF_EXECUTION_PROFILE_SAFE -> ptr = vm'.(jitted)).
Proof using Hmap.
  destruct (decide (execution_profile vm = UBPF_EXECUTION_PROFILE_SAFE)) as [Hp | Hp].
  { unfold ubpf_compile_ex. rewrite decide_True by done. by intros [= <- <- <- <-]. }
  destruct (cached vm mode) eqn:Hc.
  { unfold ubpf_compile_ex. rewrite decide_False by done. unfold cached in Hc. rewrite Hc. by intros [= <- <- <- <-]. }
  destruct (replay_drop vm) as [Hd Ho]. destruct (dropped_fields vm) as (_ & _ & _ & _ & Hj).
  destruct (decide (insts vm = 0 \/ os_calloc_ok os = false)) as [Hor | Hor].
  { destruct (compile_ex_early vm errmsg mode Hp Hc Hor) as [e ->]. intros [= <- <- <- <-]. by rewrite Hd, Ho, Hj. }
  rewrite compile_ex_unfold by (done || tauto || (destruct (os_calloc_ok os); tauto)).
  destruct (ubpf_translate_ex _ _ _ _ _ _) as [[[[[vm1 b] sz] m] r] |] eqn:Et; [| discriminate].
  apply translate_ex_keeps in Et as [Et _]. cbn [mbind option_bind]. intros E.
  apply (compile_tail_mappings (owned vm)) in E as [? ?]; [done | by rewrite Et | done].
Qed.
End Mappings.

(** Compiling does not change the profile. *)
Lemma compile_ex_profile env os vm errmsg mode vm' ptr msg log :
  ubpf_compile_ex env os vm errmsg mode = Some (vm', ptr, msg, log) -> vm'.(execution_profile) = vm.(execution_profile).
Proof.
  unfold ubpf_compile_ex, compile_out. destruct (decide _); [by intros [= <-] |].
  destruct (_ && _ && _); [by intros [= <-] |]. fold (without_code vm).
  set (p := if negb (jitted vm =? 0) then _ else _).
  assert (p.1.(execution_profile) = vm.(execution_profile)) as Ep by (unfold p; by destruct (negb _)).
  destruct p as [vm1 log1]. cbn [fst] in Ep. destruct (_ =? 0); [by intros [= <-] |].
  destruct (negb (os_calloc_ok os)); [by intros [= <-] |].
  destruct (ubpf_translate_ex _ _ _ _ _ _) as [[[[[vm2 b] sz] m] r] |] eqn:Et; [| discriminate].
  assert (vm2.(execution_profile) = vm1.(execution_profile)) as E2.
  { unfold ubpf_translate_ex in Et. destruct (decide _); [by injection Et as <- |].
    destruct (jit_translate _ _ _ _ _ _) as [[[[res e] bb] ss] |]; [| discriminate]. by injection Et as <-. }
  cbn [mbind option_bind]. destruct (r <? 0); [intros [= <-]; congruence |].
  destruct (os_map os sz); [| intros [= <-]; congruence]. destruct (_ <? _); [discriminate |].
  destruct (negb (os_protect _ _ _)); intros [= <-]; cbn; congruence.
Qed.

(** *** Surroundings for evaluation *)

Definition test_env : jit_env :=
  JitEnv register_map (fun _ => true) (fun _ => 0) 0 BasicJitMode.
Definition test_jit_os : jit_os := JitOs true (fun _ => Some 65536) (fun _ _ => true).

(** The VM of [jit_code] with a buffer of 4096 bytes. *)
Definition small_jit_vm : ubpf_vm := (ubpf_set_jit_code_size jit_vm 4096).1.

Lemma loaded_set_buffer_size `{HostEnv} vm prog n : loaded vm prog -> loaded (set_jitter_buffer_size n vm) prog.
Proof.
  intros [[Hl Hk Ha Hck] ? ? ? ? ?]. constructor; try done. constructor; try done.
  intros k inst Hs Hinst. destruct (Hck k inst Hs Hinst) as [op [? ? ? ? ?]]. exists op. by constructor.
Qed.

Lemma small_jit_ready : @jit_ready null_host JitX86_64 x86_back_end test_env test_jit_os small_jit_vm (insts_of_bytes jit_code).
Proof.
  constructor; [vm_compute; congruence | vm_compute; congruence | | reflexivity | | reflexivity].
  - destruct jit_compilable as [Hld Hm Hh Ha _ _ _].
    constructor; [by apply loaded_set_buffer_size | | | | | |]; vm_compute; congruence.
  - intros size Hs. change (jitter_buffer_size small_jit_vm) with 4096 in Hs. exists 65536. split; [reflexivity | lia].
Qed.

(** ... and for the arm64 back end. *)
Definition small_arm_vm : ubpf_vm := (ubpf_set_jit_code_size arm_vm 4096).1.

Lemma usages_set_buffer_size vm n : usages_typed vm -> usages_typed (set_jitter_buffer_size n vm).
Proof. done. Qed.

Lemma small_arm_ready : @jit_ready null_host JitArm64 arm_back_end test_env test_jit_os small_arm_vm (insts_of_bytes jit_code).
Proof.
  constructor; [vm_compute; congruence | vm_compute; congruence | | reflexivity | | reflexivity].
  - destruct arm_vm_compilable as [Hld Hty Hh Ha Hb].
    constructor; [by apply loaded_set_buffer_size | by apply usages_set_buffer_size | vm_compute; congruence | done | vm_compute; split; congruence].
  - intros size Hs. change (jitter_buffer_size small_arm_vm) with 4096 in Hs. exists 65536. split; [reflexivity | lia].
Qed.

(** ** Properties *)

(** C17: Compiling a loaded program and registering helpers afterwards: the call
    returns the address of the mapped code, and after any sequence of
    registrations of helpers 0 to 62 and of dispatchers, each of which returns 0
    as long as [mprotect] succeeds, the slot of the dispatcher and the table of
    helpers in the compiled code hold exactly what the VM holds. *)
Theorem compiled_code_follows_registrations `{HostEnv} {t : jit_target} {BE : BackEnd t} (env : jit_env) (os : jit_os) (vm : ubpf_vm)
    (prog : list ebpf_inst) (errmsg : option jit_error) (mode : JitMode) :
  jit_ready env os vm prog -> cached vm mode = false ->
  exists vm' address log,
    ubpf_compile_ex env os vm errmsg mode = Some (vm', address, None, log) /\
    vm'.(jitted) = address /\ 0 < address /\ code_matches vm' /\
    forall mprotect rs, (forall a s p, mprotect a s p = true) -> Forall in_reach rs ->
      code_matches (register_all mprotect vm' rs).1 /\ Forall (eq 0) (register_all mprotect vm' rs).2.
Proof.
  intros Hr Hc. destruct (compile_ready env os vm prog errmsg mode Hr Hc) as (vm' & a & sz & E & Ha & Hpos & _ & Hcm & _).
  exists vm', a, (drop_log vm ++ [Mapped a sz]). split_and!; try done. intros. by apply register_all_matches.
Qed.

Lemma compiled_code_follows_registrations_witness :
  exists vm' log, ubpf_compile_ex test_env test_jit_os small_jit_vm None BasicJitMode = Some (vm', 65536, None, log) /\
    code_matches (register_all (fun _ _ _ => true) vm' [RegisterHelper 3 None 4096; RegisterDispatcher 8192 0]).1.
Proof.
  destruct (@compiled_code_follows_registrations null_host JitX86_64 x86_back_end test_env test_jit_os small_jit_vm (insts_of_bytes jit_code) None
    BasicJitMode small_jit_ready eq_refl) as (vm' & a & log & E & _ & _ & _ & Hall).
  assert (a = 65536) as ->.
  { vm_compute in E. congruence. }
  exists vm', log. split; [exact E |].
  apply (Hall (fun _ _ _ => true) [RegisterHelper 3 None 4096; RegisterDispatcher 8192 0]); [reflexivity |].
  constructor; [vm_compute; split; congruence | constructor; [exact I | constructor]].
Defined.

(** C18: [ubpf_compile_ex] neither leaks nor keeps a stale mapping, on any path: the
    mappings it makes and drops take the VM from the mapping it owned to the one it
    owns afterwards, and (but in the safe profile) the pointer returned is the VM's
    code, NULL when there is none. *)
Theorem compile_balances_mappings (env : jit_env) (os : jit_os) (vm vm' : ubpf_vm) (errmsg msg : option jit_error)
    (mode : JitMode) (ptr : Z) (log : list mapping_event) :
  (forall size address, os.(os_map) size = Some address -> 0 < address) ->
  ubpf_compile_ex env os vm errmsg mode = Some (vm', ptr, msg, log) ->
  replay log (owned vm) = owned vm' /\
  (vm.(execution_profile) <> UBPF_EXECUTION_PROFILE_SAFE -> ptr = vm'.(jitted)).
Proof. intros Hmap. by apply compile_mappings. Qed.

Lemma compile_balances_mappings_witness :
  exists vm' ptr log, ubpf_compile_ex test_env (JitOs true (fun _ => Some 65536) (fun _ _ => false))
      (set_jitted 4096 (set_jitted_size 10 small_jit_vm)) None BasicJitMode = Some (vm', ptr, Some MprotectFailed, log) /\
    log = [Unmapped 4096 10; Mapped 65536 697; Unmapped 65536 697] /\
    replay log {[4096 := 10]} = owned vm'.
Proof.
  eexists _, _, _. split; [vm_compute; reflexivity |]. split; [reflexivity |].
  refine (proj1 (compile_balances_mappings test_env (JitOs true (fun _ => Some 65536) (fun _ _ => false))
    (set_jitted 4096 (set_jitted_size 10 small_jit_vm)) _ None (Some MprotectFailed) BasicJitMode _ _ _ _)).
  - intros size address [= <-]. lia.
  - vm_compute. reflexivity.
Defined.

(** Compiled code is cached and can be copied: a second [ubpf_compile_ex] in the
    same mode returns the same address and does nothing; [ubpf_copy_jit] into a
    buffer that is large enough puts the code at its front and leaves the rest; a
    smaller buffer is refused. *)
Theorem compile_cached_and_copied `{HostEnv} {t : jit_target} {BE : BackEnd t} (env : jit_env) (os : jit_os) (vm : ubpf_vm) (prog : list ebpf_inst)
    (errmsg : option jit_error) (mode : JitMode) :
  jit_ready env os vm prog -> cached vm mode = false ->
  exists vm' address log,
    ubpf_compile_ex env os vm errmsg mode = Some (vm', address, None, log) /\
    (forall env' os' msg, ubpf_compile_ex env' os' vm' msg mode = Some (vm', address, msg, [])) /\
    (forall buffer size, size = Z.of_nat (length buffer) ->
       ubpf_copy_jit vm' buffer size =
       if vm'.(jitted_size) >? size then Err CopyBufferTooSmall
       else Ok (vm'.(jitted_code) ++ drop (length vm'.(jitted_code)) buffer)).
Proof.
  intros Hr Hc. destruct (compile_ready env os vm prog errmsg mode Hr Hc)
    as (vm' & a & sz & E & Ha & Hpos & _ & Hcm & Hm & _).
  assert ((jitted vm' =? 0) = false) as Hz by lia. pose proof (cm_success _ Hcm) as Hs. pose proof (cm_size _ Hcm) as Hl.
  exists vm', a, (drop_log vm ++ [Mapped a sz]). split; [done |]. split.
  - intros env' os' msg. unfold ubpf_compile_ex. rewrite decide_False.
    + by rewrite Hz, !bool_decide_eq_true_2, Ha by done.
    + rewrite (compile_ex_profile _ _ _ _ _ _ _ _ _ E). apply Hr.
  - intros buffer size ->. unfold ubpf_copy_jit. rewrite bool_decide_eq_false_2 by (intros Hne; by apply Hne).
    rewrite Hz. cbn [orb]. destruct (_ >? _) eqn:Eg; [done |]. unfold write_bytes.
    rewrite Hl, Nat2Z.id, firstn_all. by rewrite take_0.
Qed.

Lemma compile_cached_and_copied_witness :
  exists vm' log, ubpf_compile_ex test_env test_jit_os small_arm_vm None ExtendedJitMode = Some (vm', 65536, None, log) /\
    ubpf_copy_jit vm' (replicate 8 0) 8 = Err CopyBufferTooSmall.
Proof.
  destruct (@compile_cached_and_copied null_host JitArm64 arm_back_end test_env test_jit_os small_arm_vm (insts_of_bytes jit_code) None
    ExtendedJitMode small_arm_ready eq_refl) as (vm' & a & log & E & _ & Hcopy).
  exists vm', log. split; [vm_compute in E |- *; congruence |].
  rewrite (Hcopy (replicate 8 0) 8 eq_refl). vm_compute in E. injection E as <- _ _. reflexivity.
Defined.

(** C40: What [ubpf_translate_ex] and [ubpf_compile_ex] refuse: everything in the safe
    profile, leaving the VM and its code alone; a VM without a program, and a
    target without a back end, in which case the VM has no compiled code
    afterwards. *)
Theorem jit_refusals (env : jit_env) (os : jit_os) (vm : ubpf_vm) (errmsg : option jit_error) (mode : JitMode)
    (buffer : list Z) (size : Z) :
  (vm.(execution_profile) = UBPF_EXECUTION_PROFILE_SAFE ->
     ubpf_compile_ex env os vm errmsg mode = Some (vm, 0, Some InterpreterOnly, []) /\
     ubpf_translate_ex env vm buffer size errmsg mode = Some (vm, buffer, size, Some InterpreterOnly, -1)) /\
  (vm.(execution_profile) <> UBPF_EXECUTION_PROFILE_SAFE -> cached vm mode = false ->
     (vm.(insts) = 0 -> exists msg, ubpf_compile_ex env os vm errmsg mode = Some (dropped vm, 0, Some msg, drop_log vm)) /\
     (vm.(insts) <> 0 -> vm.(jit_functions) = JitNull -> os.(os_calloc_ok) = true ->
        exists vm', ubpf_compile_ex env os vm errmsg mode = Some (vm', 0, Some NotJitable, drop_log vm) /\
          vm'.(jitted) = 0)).
Proof.
  split; [| intros Hp Hc; split].
  - intros Hp. unfold ubpf_compile_ex, ubpf_translate_ex. by rewrite !decide_True by done.
  - intros Hi. apply compile_ex_early; auto.
  - intros Hi Ht Ha. destruct (dropped_fields vm) as (F1 & F2 & _ & _ & F5). rewrite compile_ex_unfold by done.
    unfold ubpf_translate_ex. rewrite F2, decide_False by done. rewrite F1, Ht. cbn [jit_translate mbind option_bind].
    unfold ubpf_translate_null. cbn [mbind option_bind compile_result]. rewrite decide_False by done.
    change (-1 <? 0) with true. cbv iota. unfold compile_out. cbn [Z.eqb negb andb jitted set_jitted_result]. rewrite F5.
    eexists. split; [reflexivity | exact F5].
Qed.

Lemma jit_refusals_witness :
  let vm := set_execution_profile UBPF_EXECUTION_PROFILE_SAFE small_jit_vm in
  ubpf_compile_ex test_env test_jit_os vm None BasicJitMode = Some (vm, 0, Some InterpreterOnly, []).
Proof.
  intros vm. exact (proj1 (proj1 (jit_refusals test_env test_jit_os vm None BasicJitMode [] 0) eq_refl)).
Defined.

(** [ubpf_translate_ex] spoils the record of code that is already compiled: after
    a translation in the other mode into a buffer of the caller, [ubpf_compile_ex]
    in that mode returns the old code, of the wrong mode, and a registration writes
    the helper four bytes beside its slot in that code. *)
Theorem translate_spoils_compiled_code :
  exists vm1 vm2 log buffer size h,
    ubpf_compile_ex test_env test_jit_os small_jit_vm None BasicJitMode = Some (vm1, 65536, None, log) /\
    code_matches vm1 /\ vm1.(jitted_result).(external_helper_offset) = h /\
    ubpf_translate_ex test_env vm1 (replicate 4096 0) 4096 None ExtendedJitMode = Some (vm2, buffer, size, None, 0) /\
    ubpf_compile_ex test_env test_jit_os vm2 None ExtendedJitMode = Some (vm2, 65536, None, []) /\
    vm2.(jitted_code) = vm1.(jitted_code) /\ vm2.(jitted_result).(external_helper_offset) = h - 4 /\
    (ubpf_register vm2 (fun _ _ _ => true) 1 None 0x1122334455667788).2 = 0 /\
    le_decode (bytes_at (ubpf_register vm2 (fun _ _ _ => true) 1 None 0x1122334455667788).1.(jitted_code) (h + 8) 8) =
      0x11223344.
Proof.
  destruct (@compile_ready null_host JitX86_64 x86_back_end test_env test_jit_os small_jit_vm (insts_of_bytes jit_code) None
    BasicJitMode small_jit_ready eq_refl) as (vm1 & a & sz & E & _ & _ & _ & Hcm & _).
  eexists vm1, _, _, _, _, _. vm_compute in E. injection E as <- _ _.
  split; [vm_compute; reflexivity |]. split; [exact Hcm |]. split; [reflexivity |].
  split; [vm_compute; reflexivity |]. split; [vm_compute; reflexivity |].
  split; [vm_compute; reflexivity |]. split; [vm_compute; reflexivity |]. split; vm_compute; reflexivity.
Qed.
