(* ===== verification/Elf.v ===== *)
(** * Elf: the ELF loader (vm/ubpf_loader.c)

    [ubpf_load_elf_ex] reads an object file: it checks the header, finds the
    sections, the string table and the symbol table, lays the functions out in
    one program with the main function first, applies the relocations and hands
    the program to [ubpf_load].

    The file is a list of bytes and a pointer into it is an offset.  The result of
    a step is [None] for undefined behaviour (a read outside the file or of an
    uninitialised entry of [sections], a write outside the linked program or an
    array), else [Ok] or the message of the error.  The answers of [calloc] and
    the data relocation function of the host are arguments. *)

From Stdlib Require Import ZArith Lia Bool Ascii String.
From stdpp Require Import base list gmap strings numbers.
From S2P Require Import Prelude Ebpf InstValid Mem Vm Validate Load JitSupport.

Local Open Scope Z_scope.
Local Open Scope cbits_scope.

(** ** Errors *)

Inductive elf_error : Type :=
| NotEnoughData
| WrongMagic
| WrongClass
| WrongByteOrder
| WrongVersion
| WrongOsAbi
| WrongType
| WrongMachine (machine : Z)
| TooManySections
| BadSectionHeader
| BadSection
| NoStringTable
| NoSymbolTable
| ElfOutOfMemory
| BadFunctionName
| BadFunctionSection
| MainNotFound
| BadRelocationSymtab
| BadRelocationSymbol
| BadRelocationName
| RelocationOutsideFunctions
| BadDataRelocationOffset
| BadDataRelocationIndex
| BadDataRelocationSection
| BadDataRelocationSize
| BadDataRelocationInstruction
| NoDataRelocationFunction
| UnknownCallTarget
| UnknownHelper (name : string).

#[export] Instance elf_error_eq_dec : EqDecision elf_error.
Proof. solve_decision. Defined.

(** ** The loader's monad *)

Definition L (A : Type) : Type := option (result A elf_error).

#[export] Instance L_ret : MRet L := fun A a => Some (Ok a).
#[export] Instance L_bind : MBind L := fun A B k m =>
  match m with
  | Some (Ok a) => k a
  | Some (Err e) => Some (Err e)
  | None => None
  end.

Definition undefined_behaviour {A} : L A := None.
Definition fail {A} (e : elf_error) : L A := Some (Err e).
(** [if (b) { *errmsg = ...; goto error; }] *)
Definition guard (b : bool) (e : elf_error) : L unit := if b then fail e else mret tt.
(** A memory access. *)
Definition access {A} (o : option A) : L A := Ok <$> o.

(** ** Reading the file *)

Section Reading.
Context (elf : list Z).

(** [n] bytes at [off]; [None]: not all of them are in the file. *)
Definition read_bytes (off : Z) (n : nat) : option (list Z) :=
  if (0 <=? off) && (off + Z.of_nat n <=? Z.of_nat (length elf)) then Some (bytes_at elf off n) else None.

(** A field of [n] bytes, little-endian. *)
Definition read_field (off : Z) (n : nat) : L Z := access (le_decode <$> read_bytes off n).

(** [bounds_check]; [None] is NULL. *)
Definition bounds_check (off size : Z) : option Z :=
  if (u64 (off + size) >? Z.of_nat (length elf)) || (u64 (off + size) <? off) then None else Some off.

(** [!strcmp(elf + off, s)]: reads up to the first difference. *)
Fixpoint streq (off : Z) (s : list Z) : L bool :=
  b ← read_field off 1;
  match s with
  | [] => mret (b =? 0)
  | c :: s' => if b =? c then streq (off + 1) s' else mret false
  end.

(** The characters of a C string in [bs]; [None]: it does not end there. *)
Fixpoint chars_until_nul (bs : list Z) : option (list Z) :=
  match bs with
  | [] => None
  | b :: bs' => if b =? 0 then Some [] else cons b <$> chars_until_nul bs'
  end.

Definition string_of_bytes (bs : list Z) : string := string_of_list_ascii (map (fun b => ascii_of_N (Z.to_N b)) bs).

(** The C string at [off]. *)
Definition c_string (off : Z) : L string :=
  access (if (0 <=? off) && (off <=? Z.of_nat (length elf))
          then string_of_bytes <$> chars_until_nul (drop (Z.to_nat off) elf) else None).

(** *** The structures of elf.h, by the offset of their first byte *)

Definition SIZEOF_EHDR : Z := 64.
Definition SIZEOF_POINTER : Z := 8.
Definition SIZEOF_SYM : Z := 24.
Definition SIZEOF_REL : Z := 16.

Definition e_ident (i : Z) : L Z := read_field i 1.
Definition e_type : L Z := read_field 16 2.
Definition e_machine : L Z := read_field 18 2.
Definition e_shoff : L Z := read_field 40 8.
Definition e_shentsize : L Z := read_field 58 2.
Definition e_shnum : L Z := read_field 60 2.

Definition sh_name (shdr : Z) : L Z := read_field shdr 4.
Definition sh_type (shdr : Z) : L Z := read_field (shdr + 4) 4.
Definition sh_flags (shdr : Z) : L Z := read_field (shdr + 8) 8.
Definition sh_offset (shdr : Z) : L Z := read_field (shdr + 24) 8.
Definition sh_size (shdr : Z) : L Z := read_field (shdr + 32) 8.
Definition sh_link (shdr : Z) : L Z := read_field (shdr + 40) 4.
Definition sh_info (shdr : Z) : L Z := read_field (shdr + 44) 4.

Record Elf64_Sym : Type := Sym {
  st_name : Z;  (* uint32_t *)
  st_info : Z;  (* uint8_t *)
  st_shndx : Z;  (* uint16_t *)
  st_value : Z;  (* uint64_t *)
  st_size : Z;  (* uint64_t *)
}.

Definition read_sym (off : Z) : L Elf64_Sym :=
  name ← read_field off 4;
  info ← read_field (off + 4) 1;
  shndx ← read_field (off + 6) 2;
  value ← read_field (off + 8) 8;
  size ← read_field (off + 16) 8;
  mret (Sym name info shndx value size).

Record Elf64_Rel : Type := Rel {
  r_offset : Z;  (* uint64_t *)
  r_info : Z;  (* uint64_t *)
}.

Definition read_rel (off : Z) : L Elf64_Rel :=
  o ← read_field off 8;
  i ← read_field (off + 8) 8;
  mret (Rel o i).
End Reading.

Definition ELF64_ST_TYPE (info : Z) : Z := info .& 0xf.
Definition ELF64_R_SYM (info : Z) : Z := info .>> 32.
Definition ELF64_R_TYPE (info : Z) : Z := info .& 0xffffffff.

Definition MAX_SECTIONS : Z := 32.
Definition ELFCLASS64 : Z := 2.
Definition ELFDATA2LSB : Z := 1.
Definition ELFOSABI_NONE : Z := 0.
Definition ET_REL : Z := 1.
Definition EM_NONE : Z := 0.
Definition EM_BPF : Z := 247.
Definition SHT_PROGBITS : Z := 1.
Definition SHT_SYMTAB : Z := 2.
Definition SHT_STRTAB : Z := 3.
Definition SHT_REL : Z := 9.
Definition SHF_WRITE : Z := 1.
Definition SHF_ALLOC : Z := 2.
Definition SHF_EXECINSTR : Z := 4.
Definition STT_FUNC : Z := 2.
Definition R_BPF_64_64 : Z := 1.
Definition R_BPF_64_32 : Z := 10.
Definition R_BPF_64_32_LEGACY : Z := 2.

(** ** Data of the loader *)

Record section : Type := MkSection {
  shdr : Z;  (* offset of the header *)
  data : Z;  (* offset of the contents *)
  size : Z;  (* uint64_t *)
}.

Record relocated_function : Type := RelocatedFunction {
  rf_name : Z;  (* offset of the name *)
  rf_shdr : Z;  (* offset of the section header *)
  native_data : Z;  (* offset of the instructions in the file *)
  linked_data : Z;  (* their position in the linked program *)
  native_section_start : Z;  (* uint64_t *)
  rf_size : Z;  (* uint64_t *)
  landed : Z;  (* uint64_t; index of the first instruction *)
}.

(** The array [sections] with its initialised entries. *)
Definition section_at (sections : list section) (i : Z) : L section :=
  access (if 0 <=? i then sections !! Z.to_nat i else None).

(** ** The stages of [ubpf_load_elf_ex] *)

(** The checks of the header; gives the number of sections. *)
Definition check_header (elf : list Z) : L Z :=
  guard (negb (bool_decide (is_Some (bounds_check elf 0 SIZEOF_EHDR)))) NotEnoughData;;
  m0 ← e_ident elf 0; m1 ← e_ident elf 1; m2 ← e_ident elf 2; m3 ← e_ident elf 3;
  guard (negb ((m0 =? 0x7f) && (m1 =? 0x45) && (m2 =? 0x4c) && (m3 =? 0x46))) WrongMagic;;
  class ← e_ident elf 4;
  guard (negb (class =? ELFCLASS64)) WrongClass;;
  order ← e_ident elf 5;
  guard (negb (order =? ELFDATA2LSB)) WrongByteOrder;;
  version ← e_ident elf 6;
  guard (negb (version =? 1)) WrongVersion;;
  osabi ← e_ident elf 7;
  guard (negb (osabi =? ELFOSABI_NONE)) WrongOsAbi;;
  type ← e_type elf;
  guard (negb (type =? ET_REL)) WrongType;;
  machine ← e_machine elf;
  guard (negb (machine =? EM_NONE) && negb (machine =? EM_BPF)) (WrongMachine machine);;
  shnum ← e_shnum elf;
  guard (shnum >? MAX_SECTIONS) TooManySections;;
  mret shnum.

(** The array of the section headers, read from [offset] on. *)
Fixpoint parse_sections (elf : list Z) (count : nat) (offset : Z) : L (list section) :=
  match count with
  | O => mret []
  | S count' =>
      match bounds_check elf offset SIZEOF_POINTER with
      | None => fail BadSectionHeader
      | Some hdr =>
          entsize ← e_shentsize elf;
          o ← sh_offset elf hdr;
          n ← sh_size elf hdr;
          match bounds_check elf o n with
          | None => fail BadSection
          | Some d =>
              rest ← parse_sections elf count' (u64 (offset + entsize));
              mret (MkSection hdr d n :: rest)
          end
      end
  end.

(** The first section of a type. *)
Fixpoint find_section (elf : list Z) (type : Z) (sections : list section) : L (option section) :=
  match sections with
  | [] => mret None
  | s :: sections' =>
      t ← sh_type elf s.(shdr);
      if t =? type then mret (Some s) else find_section elf type sections'
  end.

(** Whether a section holds instructions. *)
Definition is_executable (elf : list Z) (hdr : Z) : L bool :=
  type ← sh_type elf hdr;
  if negb (type =? SHT_PROGBITS) then mret false
  else
    flags ← sh_flags elf hdr;
    mret (flags =? SHF_ALLOC .| SHF_EXECINSTR).

(** [".text"] *)
Definition dot_text : list Z := [0x2e; 0x74; 0x65; 0x78; 0x74].

(** The state of the loop over the symbols: the array of functions, the index of
    its next entry and the size of the program ([unsigned int]s). *)
Record symbol_state : Type := SymbolState {
  functions : list (option relocated_function);
  total_functions : Z;
  linked_program_size : Z;
}.

(** [relocated_functions[i] = rf] *)
Definition store_function (i : Z) (rf : relocated_function) (fs : list (option relocated_function))
    : L (list (option relocated_function)) :=
  if (0 <=? i) && (i <? Z.of_nat (length fs)) then mret (<[Z.to_nat i := Some rf]> fs) else undefined_behaviour.

(** The function a symbol stands for. *)
Definition symbol_function (elf : list Z) (sections : list section) (strtab : section) (sym : Elf64_Sym)
    : L relocated_function :=
  guard (sym.(st_name) >=? u32 strtab.(size)) BadFunctionName;;
  guard (sym.(st_shndx) >? Z.of_nat (length sections)) BadFunctionSection;;
  s ← section_at sections sym.(st_shndx);
  executable ← is_executable elf s.(shdr);
  (* the message formats the number [st_name] with %s *)
  (if negb executable then undefined_behaviour else mret tt);;
  mret (RelocatedFunction (strtab.(data) + sym.(st_name)) s.(shdr) (s.(data) + sym.(st_value)) 0 sym.(st_value)
          sym.(st_size) 0).

(** Whether it is the main function. *)
Definition is_main (elf : list Z) (strtab : section) (main_function_name : option (list Z)) (rf : relocated_function)
    : L bool :=
  match main_function_name with
  | Some name => streq elf rf.(rf_name) name
  | None =>
      section_name ← sh_name elf rf.(rf_shdr);
      in_text ← streq elf (strtab.(data) + section_name) dot_text;
      mret (in_text && (rf.(native_section_start) =? 0))
  end.

(** One turn of the loop over the symbols; [alloc] is the answer of [calloc]. *)
Definition add_symbol (elf : list Z) (sections : list section) (strtab : section) (main_function_name : option (list Z))
    (alloc : bool) (sym : Elf64_Sym) (st : symbol_state) : L symbol_state :=
  if negb (ELF64_ST_TYPE sym.(st_info) =? STT_FUNC) then mret st
  else
    rf ← symbol_function elf sections strtab sym;
    let size := u32 (st.(linked_program_size) + rf.(rf_size)) in
    main ← is_main elf strtab main_function_name rf;
    let i := if main : bool then 0 else st.(total_functions) in
    let total := if main : bool then st.(total_functions) else u32 (st.(total_functions) + 1) in
    fs ← store_function i rf st.(functions);
    guard (negb alloc) ElfOutOfMemory;;
    mret (SymbolState fs total size).

Fixpoint add_symbols (elf : list Z) (sections : list section) (strtab : section) (main_function_name : option (list Z))
    (alloc : nat -> bool) (symbols : Z) (count : nat) (st : symbol_state) : L symbol_state :=
  match count with
  | O => mret st
  | S count' =>
      sym ← read_sym elf symbols;
      st ← add_symbol elf sections strtab main_function_name (alloc count') sym st;
      add_symbols elf sections strtab main_function_name alloc (symbols + SIZEOF_SYM) count' st
  end.

(** [relocated_functions[0 .. total_functions - 1]], none of them NULL. *)
Definition functions_of (st : symbol_state) : L (list relocated_function) :=
  access (mapM id (take (Z.to_nat st.(total_functions)) st.(functions))).

(** The functions one after the other. *)
Fixpoint link_functions (elf : list Z) (fs : list relocated_function) (spot : Z) (program : list Z)
    : L (list Z * list relocated_function) :=
  match fs with
  | [] => mret (program, [])
  | f :: fs' =>
      code ← access (read_bytes elf f.(native_data) (Z.to_nat f.(rf_size)));
      program ← (if spot + f.(rf_size) <=? Z.of_nat (length program) then mret (write_bytes program spot code)
                 else undefined_behaviour);
      let f := RelocatedFunction f.(rf_name) f.(rf_shdr) f.(native_data) spot f.(native_section_start) f.(rf_size)
                 (spot / 8) in
      '(program, fs'') ← link_functions elf fs' (spot + f.(rf_size)) program;
      mret (program, f :: fs'')
  end.

(** *** Relocations *)

(** Reads and writes of the linked program. *)
Definition program_field (program : list Z) (off : Z) (n : nat) : L Z := read_field program off n.
Definition program_write (program : list Z) (off : Z) (bs : list Z) : L (list Z) :=
  if (0 <=? off) && (off + Z.of_nat (length bs) <=? Z.of_nat (length program)) then mret (write_bytes program off bs)
  else undefined_behaviour.

(** The fields of the instruction at [inst]. *)
Definition inst_opcode (program : list Z) (inst : Z) : L Z := program_field program inst 1.
Definition inst_src (program : list Z) (inst : Z) : L Z := b ← program_field program (inst + 1) 1; mret (b .>> 4).
Definition inst_imm (program : list Z) (inst : Z) : L Z := v ← program_field program (inst + 4) 4; mret (s32 v).
Definition set_inst_imm (program : list Z) (inst imm : Z) : L (list Z) := program_write program (inst + 4) (le_encode 4 imm).

(** The first function that contains byte [offset] of the section at [hdr]. *)
Definition contains (hdr offset : Z) (f : relocated_function) : bool :=
  (hdr =? f.(rf_shdr)) && (offset >=? f.(native_section_start)) && (offset <? u64 (f.(native_section_start) + f.(rf_size))).

(** The first function that starts at byte [offset] of the section at [hdr]. *)
Definition starts_at (hdr offset : Z) (f : relocated_function) : bool :=
  (hdr =? f.(rf_shdr)) && (offset =? f.(native_section_start)).

Definition find_function (p : relocated_function -> bool) (fs : list relocated_function) : option relocated_function :=
  head (filter (fun f => p f = true) fs).

Section Relocate.
(** The data relocation function of the host (function pointer, user data, data
    of the section, its size, name, value and size of the symbol), and the address
    of the file. *)
Context (data_relocation : Z -> Z -> Z -> Z -> Z -> Z -> Z -> Z) (elf_base : Z).
Context (vm : ubpf_vm) (elf : list Z) (sections : list section) (strtab : section) (fs : list relocated_function).

(** [R_BPF_64_64]: the address of data, into both halves of an LDDW. *)
Definition relocate_data (applies_to : section) (relocation : Elf64_Rel) (sym : Elf64_Sym) (inst : Z) (program : list Z)
    : L (list Z) :=
  guard (u64 (relocation.(r_offset) + 8) >? applies_to.(size)) BadDataRelocationOffset;;
  guard (sym.(st_shndx) >? Z.of_nat (length sections)) BadDataRelocationIndex;;
  map ← section_at sections sym.(st_shndx);
  type ← sh_type elf map.(shdr);
  flags ← (if negb (type =? SHT_PROGBITS) then mret 0 else sh_flags elf map.(shdr));
  guard (negb (type =? SHT_PROGBITS) || negb (flags =? SHF_ALLOC .| SHF_WRITE)) BadDataRelocationSection;;
  guard (u64 (sym.(st_size) + sym.(st_value)) >? map.(size)) BadDataRelocationSize;;
  opcode ← inst_opcode program inst;
  guard (negb (opcode =? opcode_of EBPF_OP_LDDW)) BadDataRelocationInstruction;;
  guard (u64 (relocation.(r_offset) + 16) >? applies_to.(size)) BadDataRelocationOffset;;
  guard (vm.(data_relocation_function) =? 0) NoDataRelocationFunction;;
  let imm := u64 (data_relocation vm.(data_relocation_function) vm.(data_relocation_user_data)
                    (elf_base + map.(data)) map.(size) (elf_base + strtab.(data) + sym.(st_name)) sym.(st_value)
                    sym.(st_size)) in
  program ← set_inst_imm program inst (u32 imm);
  set_inst_imm program (inst + 8) (u32 (imm .>> 32)).

(** [R_BPF_64_32]: a call of a local function, or of a helper by name. *)
Definition relocate_call (sym : Elf64_Sym) (inst index : Z) (program : list Z) : L (list Z) :=
  src ← inst_src program inst;
  if src =? 1 then
    imm ← inst_imm program inst;
    (if negb ((INT32_MIN <=? (imm + 1) * 8) && ((imm + 1) * 8 <=? INT32_MAX)) then undefined_behaviour else mret tt);;
    let offset_in_target_section := u32 ((imm + 1) * 8) in
    target_section ← section_at sections sym.(st_shndx);
    match find_function (starts_at target_section.(shdr) offset_in_target_section) fs with
    | None => fail UnknownCallTarget
    | Some target => set_inst_imm program inst (target.(landed) - (index + 1))
    end
  else
    name ← c_string elf (strtab.(data) + sym.(st_name));
    let imm := ubpf_lookup_registered_function vm name in
    guard (imm =? UINT32_MAX) (UnknownHelper name);;
    set_inst_imm program inst imm.

(** One relocation. *)
Definition relocate (applies_to symtab : section) (relocation : Elf64_Rel) (program : list Z) : L (list Z) :=
  guard (ELF64_R_SYM relocation.(r_info) >=? u32 (symtab.(size) / SIZEOF_SYM)) BadRelocationSymbol;;
  sym ← read_sym elf (symtab.(data) + SIZEOF_SYM * ELF64_R_SYM relocation.(r_info));
  guard (sym.(st_name) >=? u32 strtab.(size)) BadRelocationName;;
  match find_function (contains applies_to.(shdr) relocation.(r_offset)) fs with
  | None => fail RelocationOutsideFunctions
  | Some source_function =>
      let delta := relocation.(r_offset) - source_function.(native_section_start) in
      let inst := source_function.(linked_data) + delta in
      let index := source_function.(landed) + delta / 8 in
      let type := ELF64_R_TYPE relocation.(r_info) in
      if type =? R_BPF_64_64 then relocate_data applies_to relocation sym inst program
      else if (type =? R_BPF_64_32_LEGACY) || (type =? R_BPF_64_32) then relocate_call sym inst index program
      else mret program
  end.

Fixpoint relocate_all (applies_to symtab : section) (rs : Z) (count : nat) (program : list Z) : L (list Z) :=
  match count with
  | O => mret program
  | S count' =>
      relocation ← read_rel elf rs;
      program ← relocate applies_to symtab relocation program;
      relocate_all applies_to symtab (rs + SIZEOF_REL) count' program
  end.

(** One section: its relocations, if it has any that apply to instructions. *)
Definition relocate_section (relo_section : section) (program : list Z) : L (list Z) :=
  type ← sh_type elf relo_section.(shdr);
  if negb (type =? SHT_REL) then mret program
  else
    info ← sh_info elf relo_section.(shdr);
    link ← sh_link elf relo_section.(shdr);
    applies_to ← section_at sections (s32 info);
    executable ← is_executable elf applies_to.(shdr);
    if negb executable then mret program
    else
      guard (s32 link >=? Z.of_nat (length sections)) BadRelocationSymtab;;
      symtab ← section_at sections (s32 link);
      relocate_all applies_to symtab relo_section.(data) (Z.to_nat (relo_section.(size) / SIZEOF_REL)) program.

Fixpoint relocate_sections (todo : list section) (program : list Z) : L (list Z) :=
  match todo with
  | [] => mret program
  | s :: todo' => program ← relocate_section s program; relocate_sections todo' program
  end.
End Relocate.

(** ** The loader *)

(** The answers of [calloc]: for the array of functions (of a size), for each
    function, and for the linked program (of a size). *)
Record elf_allocs : Type := ElfAllocs {
  alloc_functions : Z -> bool;
  alloc_function : nat -> bool;
  alloc_program : Z -> bool;
}.

(** Everything before the call of [ubpf_load]: the linked program. *)
Definition link_elf (data_relocation : Z -> Z -> Z -> Z -> Z -> Z -> Z -> Z) (elf_base : Z) (allocs : elf_allocs)
    (vm : ubpf_vm) (elf : list Z) (main_function_name : option (list Z)) : L (list Z) :=
  section_count ← check_header elf;
  shoff ← e_shoff elf;
  sections ← parse_sections elf (Z.to_nat section_count) shoff;
  strtab ← find_section elf SHT_STRTAB sections;
  match strtab with
  | None => fail NoStringTable
  | Some strtab =>
      symtab ← find_section elf SHT_SYMTAB sections;
      match symtab with
      | None => fail NoSymbolTable
      | Some symtab =>
          (* symtab_size is an int *)
          let total_symbols := u64 (s32 symtab.(size)) / SIZEOF_SYM in
          guard (negb (allocs.(alloc_functions) (8 * total_symbols))) ElfOutOfMemory;;
          st ← add_symbols elf sections strtab main_function_name allocs.(alloc_function) symtab.(data)
                 (Z.to_nat total_symbols) (SymbolState (replicate (Z.to_nat total_symbols) None) 1 0);
          main ← access (st.(functions) !! 0%nat);
          guard (negb (bool_decide (is_Some main))) MainNotFound;;
          guard (negb (allocs.(alloc_program) st.(linked_program_size))) ElfOutOfMemory;;
          fs ← functions_of st;
          '(program, fs) ← link_functions elf fs 0 (replicate (Z.to_nat st.(linked_program_size)) 0);
          relocate_sections data_relocation elf_base vm elf sections strtab fs sections program
      end
  end.

(** [None]: undefined behaviour. *)
Definition ubpf_load_elf_ex `{HostEnv} (data_relocation : Z -> Z -> Z -> Z -> Z -> Z -> Z -> Z) (elf_base : Z)
    (allocs : elf_allocs) (os : os_calls) (vm : ubpf_vm) (elf : list Z) (main_function_name : option (list Z))
    : option (ubpf_vm * result unit (elf_error + load_error)) :=
  match link_elf data_relocation elf_base allocs vm elf main_function_name with
  | None => None
  | Some (Err e) => Some (vm, Err (inl e))
  | Some (Ok program) =>
      '(vm, r) ← ubpf_load vm os program;
      Some (vm, match r with Ok _ => Ok tt | Err e => Err (inr e) end)
  end.

Definition ubpf_load_elf `{HostEnv} (data_relocation : Z -> Z -> Z -> Z -> Z -> Z -> Z -> Z) (elf_base : Z)
    (allocs : elf_allocs) (os : os_calls) (vm : ubpf_vm) (elf : list Z)
    : option (ubpf_vm * result unit (elf_error + load_error)) :=
  ubpf_load_elf_ex data_relocation elf_base allocs os vm elf None.

(** ** An object file, for evaluation *)

Definition shdr_bytes (name type flags offset size link info : Z) : list Z :=
  le_encode 4 name ++ le_encode 4 type ++ le_encode 8 flags ++ le_encode 8 0 ++ le_encode 8 offset ++ le_encode 8 size ++
  le_encode 4 link ++ le_encode 4 info ++ le_encode 8 8 ++ le_encode 8 0.
Definition sym_bytes (sym : Elf64_Sym) : list Z :=
  le_encode 4 sym.(st_name) ++ le_encode 1 sym.(st_info) ++ [0] ++ le_encode 2 sym.(st_shndx) ++
  le_encode 8 sym.(st_value) ++ le_encode 8 sym.(st_size).
Definition rel_bytes (offset sym type : Z) : list Z := le_encode 8 offset ++ le_encode 8 (sym .<< 32 .| type).

(** [main: lddw r1, data; call foo; call f; exit] and [f: mov r0, 1; exit], with
    [f] first in the section. *)
Definition sample_text : list Z :=
  bytes_of_insts [Inst 0xb7 0 0 0 1; Inst 0x95 0 0 0 0;
                  Inst 0x18 1 0 0 0; Inst 0 0 0 0 0; Inst 0x85 0 0 0 (-1); Inst 0x85 0 1 0 (-1); Inst 0x95 0 0 0 0].
(** ["", "main", "f", "foo", ".text", "data"] *)
Definition sample_strtab : list Z :=
  [0;  0x6d; 0x61; 0x69; 0x6e; 0;  0x66; 0;  0x66; 0x6f; 0x6f; 0;  0x2e; 0x74; 0x65; 0x78; 0x74; 0;  0x64; 0x61; 0x74; 0x61; 0;  0].
Definition sample_data : list Z := [1; 2; 3; 4; 5; 6; 7; 8].
Definition sample_symtab : list Z :=
  sym_bytes (Sym 0 0 0 0 0) ++ sym_bytes (Sym 6 2 1 0 16) ++ sym_bytes (Sym 1 2 1 16 40) ++ sym_bytes (Sym 8 0 0 0 0) ++
  sym_bytes (Sym 18 1 2 0 8).
Definition sample_rel : list Z := rel_bytes 16 4 R_BPF_64_64 ++ rel_bytes 32 3 R_BPF_64_32 ++ rel_bytes 40 1 R_BPF_64_32.

Definition elf_header (shoff shnum : Z) : list Z :=
  [0x7f; 0x45; 0x4c; 0x46; 2; 1; 1; 0] ++ replicate 8 0 ++ le_encode 2 ET_REL ++ le_encode 2 EM_BPF ++ le_encode 4 1 ++
  le_encode 8 0 ++ le_encode 8 0 ++ le_encode 8 shoff ++ le_encode 4 0 ++ le_encode 2 64 ++ le_encode 2 0 ++ le_encode 2 0 ++
  le_encode 2 64 ++ le_encode 2 shnum ++ le_encode 2 2.

(** Header, contents, section headers. *)
Definition sample_elf : list Z :=
  elf_header 320 6 ++ sample_text ++ sample_data ++ sample_strtab ++ sample_symtab ++ sample_rel ++
  shdr_bytes 0 0 0 0 0 0 0 ++
  shdr_bytes 12 SHT_PROGBITS (SHF_ALLOC .| SHF_EXECINSTR) 64 56 0 0 ++
  shdr_bytes 18 SHT_PROGBITS (SHF_ALLOC .| SHF_WRITE) 120 8 0 0 ++
  shdr_bytes 0 SHT_STRTAB 0 128 24 0 0 ++
  shdr_bytes 0 SHT_SYMTAB 0 152 120 3 0 ++
  shdr_bytes 0 SHT_REL 0 272 48 4 1.

Definition main_name : list Z := [0x6d; 0x61; 0x69; 0x6e].
Definition all_allocs : elf_allocs := ElfAllocs (fun _ => true) (fun _ => true) (fun _ => true).
Definition sample_vm : ubpf_vm :=
  let vm := default (zeroed_vm JitNull) (ubpf_create JitNull (fun _ => true)) in
  let vm := (ubpf_register vm (fun _ _ _ => true) 7 (Some "foo"%string) 4096).1 in
  (ubpf_register_data_relocation vm 0 8192).1.
(** The relocation function gives the address of the data. *)
Definition sample_relocation (fn user data size name value sym_size : Z) : Z := data + value.
