(* ===== verification/ElfSound.v ===== *)
(** * ElfSound: what the ELF loader does

    The layout of the functions, the instructions the relocations make, and the
    files on which the loader reads outside its data.  The link as a whole and its
    composition with [ubpf_load] are in ElfLink. *)

From Stdlib Require Import ZArith Lia Bool Ascii String.
From stdpp Require Import base list gmap strings numbers.
From S2P Require Import Prelude Ebpf InstValid Mem Vm Validate Load Alu JitSupport JitAsm Elf.

Local Open Scope Z_scope.
Local Open Scope cbits_scope.

(** ** The program as instructions *)

Lemma insts_lookup code k :
  (8 * k + 8 <= length code)%nat ->
  insts_of_bytes code !! k = Some (inst_of_u64 (le_decode (bytes_at code (8 * Z.of_nat k) 8))).
Proof.
  revert code; induction k as [| k IH]; intros code Hl.
  - do 8 (destruct code as [| ? code]; [cbn in Hl; lia |]). reflexivity.
  - do 8 (destruct code as [| ? code]; [cbn in Hl; lia |]). cbn [insts_of_bytes lookup list_lookup].
    cbn [length] in Hl. rewrite IH by lia. unfold bytes_at. do 4 f_equal.
    replace (Z.to_nat (8 * Z.of_nat (S k))) with (8 + 8 * k)%nat by lia. replace (Z.to_nat (8 * Z.of_nat k)) with (8 * k)%nat by lia.
    reflexivity.
Qed.

(** The instruction with another immediate. *)
Definition set_imm (inst : ebpf_inst) (v : Z) : ebpf_inst :=
  Inst inst.(opcode) inst.(dst) inst.(src) inst.(offset) (s32 v).

Lemma inst_of_u64_high lo hi hi' :
  0 <= lo < 2 ^ 32 -> inst_of_u64 (lo + 2 ^ 32 * hi) = set_imm (inst_of_u64 (lo + 2 ^ 32 * hi')) hi.
Proof.
  intros Hlo. unfold inst_of_u64, set_imm. cbn [opcode dst src offset imm].
  assert (forall x, (lo + 2 ^ 32 * x) / 2 ^ 32 = x) as E32 by (intros x; rewrite Z.mul_comm, Z.div_add, Z.div_small by lia; lia).
  assert (forall x, (lo + 2 ^ 32 * x) / 2 ^ 16 = lo / 2 ^ 16 + x * 2 ^ 16) as E16.
  { intros x. change (2 ^ 32) with (2 ^ 16 * 2 ^ 16). rewrite <- Z.mul_assoc, (Z.mul_comm (2 ^ 16)), Z.div_add by lia. lia. }
  assert (forall x, (lo + 2 ^ 32 * x) / 2 ^ 12 = lo / 2 ^ 12 + (x * 2 ^ 16) * 2 ^ 4) as E12.
  { intros x. change (2 ^ 32) with (2 ^ 12 * (2 ^ 16 * 2 ^ 4)). rewrite <- Z.mul_assoc, (Z.mul_comm (2 ^ 12)), Z.div_add by lia. lia. }
  assert (forall x, (lo + 2 ^ 32 * x) / 2 ^ 8 = lo / 2 ^ 8 + (x * 2 ^ 20) * 2 ^ 4) as E8.
  { intros x. change (2 ^ 32) with (2 ^ 8 * (2 ^ 20 * 2 ^ 4)). rewrite <- Z.mul_assoc, (Z.mul_comm (2 ^ 8)), Z.div_add by lia. lia. }
  assert (forall x, (lo + 2 ^ 32 * x) mod 2 ^ 8 = lo mod 2 ^ 8) as E0.
  { intros x. change (2 ^ 32) with (2 ^ 24 * 2 ^ 8). replace (2 ^ 24 * 2 ^ 8 * x) with (x * 2 ^ 24 * 2 ^ 8) by lia. by rewrite Z.mod_add by lia. }
  rewrite !E0, !E8, !E12, !E16, !E32. rewrite !Z.mod_add by lia. f_equal.
  rewrite <- (sext_wrap 16 (_ + hi * _)), <- (sext_wrap 16 (_ + hi' * _)) by lia. unfold wrap. by rewrite !Z.mod_add by lia.
Qed.

Lemma byte_ok_bytes_at code off n : Forall byte_ok code -> Forall byte_ok (bytes_at code off n).
Proof. intros H. unfold bytes_at. by apply Forall_take, Forall_drop. Qed.

Lemma length_bytes_at code off n :
  0 <= off -> off + Z.of_nat n <= Z.of_nat (length code) -> length (bytes_at code off n) = n.
Proof. intros. unfold bytes_at. rewrite length_take, length_drop. lia. Qed.

Lemma insts_lookup_none code k : (length code < 8 * k + 8)%nat -> insts_of_bytes code !! k = None.
Proof.
  intros Hl. apply lookup_ge_None_2. pose proof (length_insts_of_bytes code) as Hn.
  assert (Z.of_nat (length code) / 8 <= Z.of_nat k); [| lia]. apply Z.lt_succ_r, Z.div_lt_upper_bound; lia.
Qed.

Lemma insts_length_write code off bs :
  0 <= off -> off + Z.of_nat (length bs) <= Z.of_nat (length code) ->
  length (insts_of_bytes (write_bytes code off bs)) = length (insts_of_bytes code).
Proof.
  intros. apply Nat2Z.inj. rewrite !length_insts_of_bytes. by rewrite length_write_bytes.
Qed.

(** Writing the immediate of an instruction changes that instruction only. *)
Lemma insts_set_imm code k v inst :
  Forall byte_ok code -> insts_of_bytes code !! k = Some inst ->
  insts_of_bytes (write_bytes code (8 * Z.of_nat k + 4) (le_encode 4 v)) = <[k := set_imm inst v]> (insts_of_bytes code).
Proof.
  intros Hb Hk. destruct (decide (8 * k + 8 <= length code)%nat) as [Hl | Hl].
  2:{ rewrite insts_lookup_none in Hk by lia. done. }
  pose proof (length_le_encode 4 v) as L4.
  assert (length (write_bytes code (8 * Z.of_nat k + 4) (le_encode 4 v)) = length code) as Lw by (apply length_write_bytes; lia).
  apply list_eq. intros j. destruct (decide (8 * j + 8 <= length code)%nat) as [Hj | Hj].
  2:{ rewrite insts_lookup_none by lia. rewrite list_lookup_insert_ne by lia. by rewrite insts_lookup_none by lia. }
  rewrite insts_lookup by lia. destruct (decide (j = k)) as [-> | Hne].
  - rewrite list_lookup_insert_eq by by eapply lookup_lt_Some. rewrite insts_lookup in Hk by lia. injection Hk as <-.
    rewrite !(bytes_at_split _ _ 4 4) by lia. change (Z.of_nat 4) with 4. rewrite !le_decode_app.
    rewrite bytes_at_write_ne by lia.
    pose proof (bytes_at_write_eq code (8 * Z.of_nat k + 4) (le_encode 4 v)) as E. rewrite L4 in E. rewrite E by lia.
    rewrite length_bytes_at by lia. change (8 * Z.of_nat 4) with 32.
    pose proof (le_decode_range _ (byte_ok_bytes_at code (8 * Z.of_nat k) 4 Hb)) as Hr. rewrite length_bytes_at in Hr by lia.
    rewrite (inst_of_u64_high _ (le_decode (le_encode 4 v)) (le_decode (bytes_at code (8 * Z.of_nat k + 4) 4))) by done.
    rewrite le_decode_encode. change (8 * Z.of_nat 4) with 32. unfold set_imm. by rewrite sext_wrap by lia.
  - rewrite list_lookup_insert_ne by done. rewrite insts_lookup by lia. rewrite bytes_at_write_ne by lia. done.
Qed.

(** The fields the relocations read. *)
Lemma read_field_in elf off n v :
  read_field elf off n = Some (Ok v) ->
  0 <= off /\ off + Z.of_nat n <= Z.of_nat (length elf) /\ v = le_decode (bytes_at elf off n).
Proof.
  unfold read_field, access, read_bytes. destruct ((0 <=? off) && _) eqn:E; [| discriminate]. cbn. intros [= <-].
  bools. lia.
Qed.

Lemma program_write_ok program off bs program' :
  program_write program off bs = Some (Ok program') ->
  0 <= off /\ off + Z.of_nat (length bs) <= Z.of_nat (length program) /\ program' = write_bytes program off bs.
Proof.
  unfold program_write. destruct ((0 <=? off) && _) eqn:E; [| discriminate]. intros [= <-]. bools.
  split_and!; [lia | lia | done].
Qed.

Lemma inst_field_values program k :
  Forall byte_ok program -> (8 * k + 8 <= length program)%nat ->
  forall inst, insts_of_bytes program !! k = Some inst ->
  le_decode (bytes_at program (8 * Z.of_nat k) 1) = inst.(opcode) /\
  le_decode (bytes_at program (8 * Z.of_nat k + 1) 1) .>> 4 = inst.(src) /\
  s32 (le_decode (bytes_at program (8 * Z.of_nat k + 4) 4)) = inst.(imm).
Proof.
  intros Hb Hl inst Hk. rewrite insts_lookup in Hk by done. injection Hk as <-.
  set (o := 8 * Z.of_nat k). assert (0 <= o) by lia. assert (o + 8 <= Z.of_nat (length program)) as Ho by lia.
  rewrite (bytes_at_split _ o 1 7), (bytes_at_split _ (o + Z.of_nat 1) 1 6), (bytes_at_split _ (o + Z.of_nat 1 + Z.of_nat 1) 2 4) by lia.
  replace (o + Z.of_nat 1 + Z.of_nat 1 + Z.of_nat 2) with (o + 4) by lia. replace (o + Z.of_nat 1 + Z.of_nat 1) with (o + 2) by lia.
  change (Z.of_nat 1) with 1. rewrite !le_decode_app. rewrite !length_bytes_at by lia.
  pose proof (fun off n => le_decode_range _ (byte_ok_bytes_at program off n Hb)) as Hr.
  pose proof (Hr o 1%nat) as R0. pose proof (Hr (o + 1) 1%nat) as R1. pose proof (Hr (o + 2) 2%nat) as R2.
  pose proof (Hr (o + 4) 4%nat) as R3. rewrite !length_bytes_at in R0, R1, R2, R3 by lia.
  set (b0 := le_decode (bytes_at program o 1)) in *. set (b1 := le_decode (bytes_at program (o + 1) 1)) in *.
  set (b2 := le_decode (bytes_at program (o + 2) 2)) in *. set (b3 := le_decode (bytes_at program (o + 4) 4)) in *.
  change (8 * Z.of_nat 1) with 8 in *. change (8 * Z.of_nat 2) with 16 in *. change (8 * Z.of_nat 4) with 32 in *.
  unfold inst_of_u64. cbn [opcode src imm]. split_and!.
  - rewrite Z.mul_comm, Z.mod_add by lia. by rewrite Z.mod_small by lia.
  - rewrite Z.shiftr_div_pow2 by lia. change (2 ^ 12) with (2 ^ 8 * 2 ^ 4). rewrite <- Z.div_div by lia.
    rewrite (Z.mul_comm (2 ^ 8) (b1 + _)), Z.div_add, (Z.div_small b0), Z.add_0_l by lia.
    replace (b1 + 2 ^ 8 * (b2 + 2 ^ 16 * b3)) with (b1 + (2 ^ 4 * (b2 + 2 ^ 16 * b3)) * 2 ^ 4) by lia.
    rewrite Z.div_add by lia. rewrite (Z.mul_comm (2 ^ 4) (b2 + _)), Z.mod_add by lia. rewrite Z.mod_small; [done |].
    split; [apply Z.div_pos; lia | apply Z.div_lt_upper_bound; lia].
  - f_equal. replace (b0 + 2 ^ 8 * (b1 + 2 ^ 8 * (b2 + 2 ^ 16 * b3))) with (b0 + 2 ^ 8 * b1 + 2 ^ 16 * b2 + b3 * 2 ^ 32) by lia.
    rewrite Z.div_add, Z.div_small by lia. done.
Qed.

(** ** Steps that succeed *)

Lemma L_bind_ok {A B} (m : L A) (f : A -> L B) b :
  m ≫= f = Some (Ok b) <-> exists a, m = Some (Ok a) /\ f a = Some (Ok b).
Proof.
  unfold mbind, L_bind. destruct m as [[a | e] |]; split.
  - eauto.
  - by intros (a' & [= <-] & ?).
  - discriminate.
  - by intros (a' & ? & _).
  - discriminate.
  - by intros (a' & ? & _).
Qed.

Lemma guard_ok b e u : guard b e = Some (Ok u) <-> b = false.
Proof. unfold guard. destruct b, u; split; done. Qed.

Lemma set_inst_imm_ok program k v program' inst :
  Forall byte_ok program -> insts_of_bytes program !! k = Some inst ->
  set_inst_imm program (8 * Z.of_nat k) v = Some (Ok program') ->
  insts_of_bytes program' = <[k := set_imm inst v]> (insts_of_bytes program) /\ Forall byte_ok program'.
Proof.
  intros Hb Hk Hw. apply program_write_ok in Hw as (H0 & Hl & ->). split; [by apply insts_set_imm |].
  unfold write_bytes. apply Forall_app. split; [by apply Forall_take |]. apply Forall_app.
  split; [apply le_encode_bytes | by apply Forall_drop].
Qed.

Lemma set_inst_imm_defined program k v :
  (8 * k + 8 <= length program)%nat -> exists program', set_inst_imm program (8 * Z.of_nat k) v = Some (Ok program').
Proof.
  intros Hl. unfold set_inst_imm, program_write. rewrite length_le_encode.
  rewrite (proj2 (Z.leb_le 0 _)), (proj2 (Z.leb_le _ _)) by lia. by eexists.
Qed.

Lemma lookup_name_sound i names name :
  lookup_name_from i names name <> UINT32_MAX ->
  exists k, names !! k = Some (Some name) /\ lookup_name_from i names name = i + Z.of_nat k.
Proof.
  revert i; induction names as [| n names IH]; intros i; cbn [lookup_name_from]; [done |].
  case_bool_decide as E.
  - intros _. exists 0%nat. split; [by rewrite E | lia].
  - intros H. destruct (IH _ H) as (k & Hk & ->). exists (S k). split; [done | lia].
Qed.

Lemma find_function_sound p fs f : find_function p fs = Some f -> f ∈ fs /\ p f = true.
Proof.
  unfold find_function. intros H%head_Some_elem_of. apply list_elem_of_filter in H. tauto.
Qed.

(** ** The layout *)

(** The bytes of a function in the file. *)
Definition native_code (elf : list Z) (f : relocated_function) : list Z := bytes_at elf f.(native_data) (Z.to_nat f.(rf_size)).

(** The functions from position [spot] on, with their positions. *)
Inductive laid_from (elf program : list Z) : Z -> list relocated_function -> list relocated_function -> Prop :=
| LaidNil spot : laid_from elf program spot [] []
| LaidCons spot f f' fs fs' :
    f' = RelocatedFunction f.(rf_name) f.(rf_shdr) f.(native_data) spot f.(native_section_start) f.(rf_size) (spot / 8) ->
    bytes_at program spot (Z.to_nat f.(rf_size)) = native_code elf f ->
    spot + f.(rf_size) <= Z.of_nat (length program) ->
    laid_from elf program (spot + f.(rf_size)) fs fs' -> laid_from elf program spot (f :: fs) (f' :: fs').

Lemma read_bytes_in elf off n bs :
  read_bytes elf off n = Some bs -> 0 <= off /\ off + Z.of_nat n <= Z.of_nat (length elf) /\ bs = bytes_at elf off n.
Proof. unfold read_bytes. destruct ((0 <=? off) && _) eqn:E; [| discriminate]. intros [= <-]. bools. split_and!; [lia | lia | done]. Qed.

(** Linking writes from [spot] on only. *)
Lemma link_functions_laid elf fs spot program program' fs' :
  0 <= spot -> Forall (fun f => 0 <= f.(rf_size)) fs ->
  link_functions elf fs spot program = Some (Ok (program', fs')) ->
  length program' = length program /\ take (Z.to_nat spot) program' = take (Z.to_nat spot) program /\
  laid_from elf program' spot fs fs'.
Proof.
  intros H0 Hfs. revert spot program program' fs' H0; induction Hfs as [| f fs Hf _ IH]; intros spot program program' fs' H0 Hrun.
  - injection Hrun as <- <-. split_and!; [done | done | constructor].
  - cbn [link_functions] in Hrun. apply L_bind_ok in Hrun as (code & Hcode & Hrun).
    unfold access in Hcode. destruct (read_bytes _ _ _) as [bs |] eqn:Er; [| discriminate]. injection Hcode as <-.
    apply read_bytes_in in Er as (Hn0 & Hn1 & ->). fold (native_code elf f) in Hrun.
    assert (Z.of_nat (length (native_code elf f)) = f.(rf_size)) as Lc by (unfold native_code; rewrite length_bytes_at; lia).
    destruct (Z.leb_spec (spot + f.(rf_size)) (Z.of_nat (length program))) as [Hfit |]; [| discriminate].
    apply L_bind_ok in Hrun as (p1 & [= <-] & Hrun). cbn [rf_size] in Hrun.
    apply L_bind_ok in Hrun as ([p2 fs2] & Hrec & [= <- <-]).
    apply IH in Hrec as (Hlen & Hpre & Hlaid); [| lia].
    rewrite length_write_bytes in Hlen by lia. split; [done |].
    assert (take (Z.to_nat (spot + f.(rf_size))) p2 = take (Z.to_nat spot) program ++ native_code elf f) as E.
    { rewrite Hpre. unfold write_bytes. rewrite app_assoc. apply take_app_length'.
      rewrite length_app, length_take. lia. }
    assert (take (Z.to_nat spot) p2 = take (Z.to_nat spot) program) as E1.
    { replace (Z.to_nat spot) with (Z.to_nat spot `min` Z.to_nat (spot + f.(rf_size)))%nat at 1 by lia. rewrite <- take_take, E.
      apply take_app_length'. rewrite length_take. lia. }
    split; [done |]. constructor; [done | | lia | done].
    unfold bytes_at. apply (f_equal (drop (Z.to_nat spot))) in E.
    rewrite drop_app_length' in E by (rewrite length_take; lia). rewrite <- E.
    rewrite take_drop_commute. do 2 f_equal. lia.
Qed.


(** The sizes of the functions before. *)
Fixpoint sizes (fs : list relocated_function) : Z :=
  match fs with
  | [] => 0
  | f :: fs' => f.(rf_size) + sizes fs'
  end.

Lemma laid_from_lookup elf program spot fs fs' i f :
  laid_from elf program spot fs fs' -> fs !! i = Some f ->
  exists f', fs' !! i = Some f' /\ f'.(linked_data) = spot + sizes (take i fs) /\ f'.(landed) = f'.(linked_data) / 8 /\
    f'.(rf_name) = f.(rf_name) /\ f'.(rf_size) = f.(rf_size) /\
    bytes_at program f'.(linked_data) (Z.to_nat f.(rf_size)) = native_code elf f.
Proof.
  intros Hl. revert i; induction Hl as [| spot g g' fs fs' -> Hb Hfit Hl IH]; intros i; [by rewrite lookup_nil |].
  destruct i as [| i]; cbn [lookup list_lookup].
  - intros [= <-]. eexists. split; [reflexivity |]. cbn. rewrite Z.add_0_r. done.
  - intros Hi. destruct (IH _ Hi) as (f' & Hf' & El & Er). exists f'. split; [done |]. split; [| done].
    rewrite El. cbn [take sizes]. lia.
Qed.

Lemma laid_from_length elf program spot fs fs' : laid_from elf program spot fs fs' -> length fs' = length fs.
Proof. induction 1; cbn; lia. Qed.

(** With whole instructions in every function, positions are indices. *)
Definition aligned (bound : Z) (f : relocated_function) : Prop :=
  f.(linked_data) = 8 * f.(landed) /\ 0 <= f.(landed) /\ 0 <= f.(rf_size) /\ 8 * f.(landed) + f.(rf_size) <= bound.

Lemma laid_from_aligned elf program spot fs fs' :
  laid_from elf program spot fs fs' -> 0 <= spot -> spot mod 8 = 0 ->
  Forall (fun f => 0 <= f.(rf_size) /\ f.(rf_size) mod 8 = 0) fs -> Forall (aligned (Z.of_nat (length program))) fs'.
Proof.
  intros Hl. induction Hl as [| spot f f' fs fs' -> Hb Hfit Hl IH]; intros H0 Hs Hfs; [constructor |].
  apply list.Forall_cons in Hfs as [[Hf Hm] Hfs]. constructor.
  - unfold aligned. cbn. pose proof (Z.div_mod spot 8 ltac:(lia)). pose proof (Z.div_pos spot 8 H0 ltac:(lia)). lia.
  - apply IH; [lia | | done]. rewrite Z.add_mod, Hs, Hm by lia. done.
Qed.

(** ** Relocations *)

Section Relocations.
Context (data_relocation : Z -> Z -> Z -> Z -> Z -> Z -> Z -> Z) (elf_base : Z).
Context (vm : ubpf_vm) (elf : list Z) (sections : list section) (strtab : section) (fs : list relocated_function).

Lemma relocate_call_local sym k program program' inst :
  Forall byte_ok program -> insts_of_bytes program !! k = Some inst -> inst.(src) = 1 ->
  relocate_call vm elf sections strtab fs sym (8 * Z.of_nat k) (Z.of_nat k) program = Some (Ok program') ->
  exists sec target, section_at sections sym.(st_shndx) = Some (Ok sec) /\
    find_function (starts_at sec.(shdr) (u32 ((inst.(imm) + 1) * 8))) fs = Some target /\
    insts_of_bytes program' = <[k := set_imm inst (target.(landed) - (Z.of_nat k + 1))]> (insts_of_bytes program).
Proof.
  intros Hb Hk Hs Hrun. assert (8 * k + 8 <= length program)%nat as Hl.
  { destruct (decide (8 * k + 8 <= length program)%nat); [done |]. by rewrite insts_lookup_none in Hk by lia. }
  destruct (inst_field_values program k Hb Hl inst Hk) as (_ & Hsrc & Himm).
  unfold relocate_call, inst_src, inst_imm, program_field in Hrun.
  apply L_bind_ok in Hrun as (s & Hr & Hrun). apply L_bind_ok in Hr as (b & (_ & _ & ->)%read_field_in & [= <-]).
  rewrite Hsrc, Hs in Hrun. change (1 =? 1) with true in Hrun. cbv iota in Hrun.
  apply L_bind_ok in Hrun as (v & Hr & Hrun). apply L_bind_ok in Hr as (b & (_ & _ & ->)%read_field_in & [= <-]).
  rewrite Himm in Hrun. apply L_bind_ok in Hrun as (u & _ & Hrun).
  apply L_bind_ok in Hrun as (sec & Hsec & Hrun). cbv zeta in Hrun.
  destruct (find_function _ fs) as [target |] eqn:Ef; [| discriminate].
  destruct (set_inst_imm_ok _ _ _ _ _ Hb Hk Hrun) as [E _]. by exists sec, target.
Qed.

Lemma relocate_call_helper sym k program program' inst :
  Forall byte_ok program -> insts_of_bytes program !! k = Some inst -> inst.(src) <> 1 ->
  relocate_call vm elf sections strtab fs sym (8 * Z.of_nat k) (Z.of_nat k) program = Some (Ok program') ->
  exists name idx, c_string elf (strtab.(data) + sym.(st_name)) = Some (Ok name) /\
    vm.(ext_func_names) !! idx = Some (Some name) /\
    insts_of_bytes program' = <[k := set_imm inst (Z.of_nat idx)]> (insts_of_bytes program).
Proof.
  intros Hb Hk Hs Hrun. assert (8 * k + 8 <= length program)%nat as Hl.
  { destruct (decide (8 * k + 8 <= length program)%nat); [done |]. by rewrite insts_lookup_none in Hk by lia. }
  destruct (inst_field_values program k Hb Hl inst Hk) as (_ & Hsrc & _).
  unfold relocate_call, inst_src, program_field in Hrun.
  apply L_bind_ok in Hrun as (s & Hr & Hrun). apply L_bind_ok in Hr as (b & (_ & _ & ->)%read_field_in & [= <-]).
  rewrite Hsrc, (proj2 (Z.eqb_neq _ _) Hs) in Hrun. apply L_bind_ok in Hrun as (name & Hname & Hrun). cbv zeta in Hrun.
  apply L_bind_ok in Hrun as (u & Hg%guard_ok & Hrun). apply Z.eqb_neq in Hg.
  destruct (lookup_name_sound 0 _ _ Hg) as (idx & Hidx & E). unfold ubpf_lookup_registered_function in Hrun. rewrite E in Hrun.
  destruct (set_inst_imm_ok _ _ _ _ _ Hb Hk Hrun) as [E' _]. by exists name, idx.
Qed.

(** Both halves of an LDDW. *)
Lemma relocate_data_run applies_to r sym k program program' inst inst2 :
  Forall byte_ok program -> insts_of_bytes program !! k = Some inst -> insts_of_bytes program !! S k = Some inst2 ->
  relocate_data data_relocation elf_base vm elf sections strtab applies_to r sym (8 * Z.of_nat k) program = Some (Ok program') ->
  exists sec v, section_at sections sym.(st_shndx) = Some (Ok sec) /\
    v = u64 (data_relocation vm.(data_relocation_function) vm.(data_relocation_user_data) (elf_base + sec.(data)) sec.(size)
               (elf_base + strtab.(data) + sym.(st_name)) sym.(st_value) sym.(st_size)) /\
    u64 (sym.(st_size) + sym.(st_value)) <= sec.(size) /\
    inst.(opcode) = opcode_of EBPF_OP_LDDW /\
    insts_of_bytes program' = <[S k := set_imm inst2 (u32 (v .>> 32))]> (<[k := set_imm inst (u32 v)]> (insts_of_bytes program)).
Proof.
  intros Hb Hk Hk2 Hrun. assert (8 * k + 8 <= length program)%nat as Hl.
  { destruct (decide (8 * k + 8 <= length program)%nat); [done |]. by rewrite insts_lookup_none in Hk by lia. }
  destruct (inst_field_values program k Hb Hl inst Hk) as (Hopc & _ & _). unfold relocate_data in Hrun.
  apply L_bind_ok in Hrun as (u1 & _ & Hrun). apply L_bind_ok in Hrun as (u2 & _ & Hrun).
  apply L_bind_ok in Hrun as (sec & Hsec & Hrun). apply L_bind_ok in Hrun as (ty & _ & Hrun).
  apply L_bind_ok in Hrun as (fl & _ & Hrun). apply L_bind_ok in Hrun as (u3 & _ & Hrun).
  apply L_bind_ok in Hrun as (u4 & Hsize%guard_ok & Hrun). apply L_bind_ok in Hrun as (opc & Hr & Hrun).
  unfold inst_opcode, program_field in Hr. apply read_field_in in Hr as (_ & _ & ->). rewrite Hopc in Hrun.
  apply L_bind_ok in Hrun as (u5 & Hlddw%guard_ok & Hrun). apply L_bind_ok in Hrun as (u6 & _ & Hrun).
  apply L_bind_ok in Hrun as (u7 & _ & Hrun). cbv zeta in Hrun. set (v := u64 _) in Hrun.
  apply L_bind_ok in Hrun as (p1 & Hw1 & Hw2).
  destruct (set_inst_imm_ok _ _ _ _ _ Hb Hk Hw1) as [E1 Hb1].
  replace (8 * Z.of_nat k + 8) with (8 * Z.of_nat (S k)) in Hw2 by lia.
  assert (insts_of_bytes p1 !! S k = Some inst2) as Hk2' by (rewrite E1, list_lookup_insert_ne by lia; done).
  destruct (set_inst_imm_ok _ _ _ _ _ Hb1 Hk2' Hw2) as [E2 _]. exists sec, v. rewrite E2, E1.
  apply negb_false_iff, Z.eqb_eq in Hlddw. split_and!; try done. lia.
Qed.
End Relocations.

(** *** The value of a relocated LDDW *)
Lemma lddw_value v : 0 <= v < 2 ^ 64 -> u32 (s32 (u32 v)) .| u64 (u64 (s32 (u32 (v .>> 32))) .<< 32) = v.
Proof.
  intros Hv. rewrite wrap_sext, wrap_wrap by lia.
  assert (0 <= v .>> 32 < 2 ^ 32) as Hh.
  { rewrite Z.shiftr_div_pow2 by lia. split; [apply Z.div_pos; lia | apply Z.div_lt_upper_bound; lia]. }
  rewrite (wrap_id 32 (v .>> 32)) by done. set (h := v .>> 32) in *.
  assert (exists q, s32 h = h + q * 2 ^ 32) as [q Eq].
  { unfold sext. cbv zeta. rewrite wrap_id by done. destruct (_ <? _); [exists 0 | exists (-1)]; lia. }
  assert (u64 (u64 (s32 h) .<< 32) = h * 2 ^ 32) as ->.
  { rewrite Z.shiftl_mul_pow2, wrap_mul_l, Eq by lia. unfold wrap.
    replace ((h + q * 2 ^ 32) * 2 ^ 32) with (h * 2 ^ 32 + q * 2 ^ 64) by lia. rewrite Z.mod_add by lia.
    apply Z.mod_small. lia. }
  pose proof (wrap_range 32 v ltac:(lia)). rewrite lor_low_high by lia.
  unfold h. rewrite Z.shiftr_div_pow2 by lia. unfold wrap. pose proof (Z.div_mod v (2 ^ 32) ltac:(lia)). lia.
Qed.

(** One relocation that is applied: its symbol, the function it is in, and the
    instruction it changes. *)
Lemma relocate_inv data_relocation elf_base vm elf sections strtab fs applies_to symtab r program program' bound source :
  relocate data_relocation elf_base vm elf sections strtab fs applies_to symtab r program = Some (Ok program') ->
  Forall (aligned bound) fs -> find_function (contains applies_to.(shdr) r.(r_offset)) fs = Some source ->
  (r.(r_offset) - source.(native_section_start)) mod 8 = 0 ->
  exists sym k, read_sym elf (symtab.(data) + SIZEOF_SYM * ELF64_R_SYM r.(r_info)) = Some (Ok sym) /\
    Z.of_nat k = source.(landed) + (r.(r_offset) - source.(native_section_start)) / 8 /\
    (if ELF64_R_TYPE r.(r_info) =? R_BPF_64_64
     then relocate_data data_relocation elf_base vm elf sections strtab applies_to r sym (8 * Z.of_nat k) program
     else if (ELF64_R_TYPE r.(r_info) =? R_BPF_64_32_LEGACY) || (ELF64_R_TYPE r.(r_info) =? R_BPF_64_32)
     then relocate_call vm elf sections strtab fs sym (8 * Z.of_nat k) (Z.of_nat k) program
     else mret program) = Some (Ok program').
Proof.
  intros Hrun Hal Hf Hm. unfold relocate in Hrun. apply L_bind_ok in Hrun as (u1 & _ & Hrun).
  apply L_bind_ok in Hrun as (sym & Hsym & Hrun). apply L_bind_ok in Hrun as (u2 & _ & Hrun). rewrite Hf in Hrun.
  cbv zeta in Hrun. apply find_function_sound in Hf as [Hin Hc]. rewrite list.Forall_forall in Hal.
  destruct (Hal _ Hin) as (El & Hl0 & _). unfold contains in Hc. bools.
  pose proof (Z.div_mod (r_offset r - native_section_start source) 8 ltac:(lia)) as Hdm. rewrite Hm in Hdm.
  assert (0 <= (r_offset r - native_section_start source) / 8) by (apply Z.div_pos; lia).
  exists sym, (Z.to_nat (landed source + (r_offset r - native_section_start source) / 8)).
  rewrite Z2Nat.id by lia. split; [done |]. split; [done |].
  by replace (8 * (landed source + (r_offset r - native_section_start source) / 8))
    with (linked_data source + (r_offset r - native_section_start source)) by lia.
Qed.

Lemma linked_aligned elf fs0 n program fs :
  link_functions elf fs0 0 (replicate n 0) = Some (Ok (program, fs)) ->
  Forall (fun f => 0 <= f.(rf_size) /\ f.(rf_size) mod 8 = 0) fs0 ->
  Forall (aligned (Z.of_nat n)) fs.
Proof.
  intros Hlink Hsz. destruct (link_functions_laid elf fs0 0 (replicate n 0) program fs) as (Hl & _ & Hlaid);
    [lia | apply (List.Forall_impl _ (fun f Hf => proj1 Hf) Hsz) | done |].
  rewrite length_replicate in Hl. rewrite <- Hl. by eapply laid_from_aligned.
Qed.

(** ** Properties *)

(** C24: A relocated call of a local function reaches it: after the relocation the
    instruction calls the index at which the function landed whose start in its
    section the call named before, and no other instruction changes. *)
Theorem elf_local_call_lands (data_relocation : Z -> Z -> Z -> Z -> Z -> Z -> Z -> Z) (elf_base : Z) (vm : ubpf_vm)
    (elf : list Z) (sections : list section) (strtab applies_to symtab : section)
    (fs0 fs : list relocated_function) (n : nat) (linked program program' : list Z) (r : Elf64_Rel)
    (source : relocated_function) (k : nat) (inst : ebpf_inst) :
  link_functions elf fs0 0 (replicate n 0) = Some (Ok (linked, fs)) ->
  Forall (fun f => 0 <= f.(rf_size) /\ f.(rf_size) mod 8 = 0) fs0 -> Z.of_nat n < 2 ^ 31 ->
  Forall byte_ok program ->
  relocate data_relocation elf_base vm elf sections strtab fs applies_to symtab r program = Some (Ok program') ->
  ELF64_R_TYPE r.(r_info) = R_BPF_64_32 \/ ELF64_R_TYPE r.(r_info) = R_BPF_64_32_LEGACY ->
  find_function (contains applies_to.(shdr) r.(r_offset)) fs = Some source ->
  (r.(r_offset) - source.(native_section_start)) mod 8 = 0 ->
  Z.of_nat k = source.(landed) + (r.(r_offset) - source.(native_section_start)) / 8 ->
  insts_of_bytes program !! k = Some inst -> inst.(src) = 1 -> length program = n ->
  exists sym sec target inst',
    read_sym elf (symtab.(data) + SIZEOF_SYM * ELF64_R_SYM r.(r_info)) = Some (Ok sym) /\
    section_at sections sym.(st_shndx) = Some (Ok sec) /\ target ∈ fs /\ target.(rf_shdr) = sec.(shdr) /\
    target.(native_section_start) = u32 ((inst.(imm) + 1) * 8) /\
    inst' = set_imm inst inst'.(imm) /\ call_target (Z.of_nat k) inst' = target.(landed) /\
    insts_of_bytes program' = <[k := inst']> (insts_of_bytes program).
Proof.
  intros Hlink Hsz Hn Hb Hrun Hty Hf Hm Hk Hinst Hsrc Hlen. pose proof (linked_aligned _ _ _ _ _ Hlink Hsz) as Hal.
  destruct (relocate_inv _ _ _ _ _ _ _ _ _ _ _ _ _ _ Hrun Hal Hf Hm) as (sym & k' & Hsym & Hk' & Hcall).
  assert (k' = k) as -> by lia.
  assert (relocate_call vm elf sections strtab fs sym (8 * Z.of_nat k) (Z.of_nat k) program = Some (Ok program')) as Hc.
  { destruct Hty as [E | E]; rewrite E in Hcall; exact Hcall. }
  destruct (relocate_call_local vm elf sections strtab fs sym k program program' inst Hb Hinst Hsrc Hc)
    as (sec & target & Hsec & Hft & E).
  apply find_function_sound in Hft as [Hin Hst]. unfold starts_at in Hst. bools.
  pose proof Hal as Hal'. rewrite list.Forall_forall in Hal'. destruct (Hal' _ Hin) as (_ & Hl0 & Hts & Hl1).
  apply lookup_lt_Some in Hinst as Hki. pose proof (length_insts_of_bytes program) as Hli.
  assert (Z.of_nat (length program) / 8 <= Z.of_nat (length program)) by (apply Z.div_le_upper_bound; lia).
  exists sym, sec, target, (set_imm inst (target.(landed) - (Z.of_nat k + 1))). split_and!; try done.
  - unfold set_imm. cbn [imm opcode dst src offset]. by rewrite (sext_id 32 (s32 _)) by (lia || (apply sext_range; lia)).
  - unfold call_target, set_imm. cbn [imm].
    rewrite <- (sext_wrap 32 (s32 (landed target - (Z.of_nat k + 1)) + 1)), <- (wrap_add_l 32 (s32 _)), wrap_sext, wrap_add_l, sext_wrap by lia.
    rewrite (sext_id 32 (landed target - (Z.of_nat k + 1) + 1)), sext_id; unfold signed_fits; lia.
Qed.

Lemma byte_ok_check l : forallb (fun b => (0 <=? b) && (b <? 256)) l = true -> Forall byte_ok l.
Proof.
  induction l as [| b l IH]; cbn [forallb]; [constructor |]. intros [Hb Hl]%andb_true_iff. constructor; [| auto].
  unfold byte_ok. bools. lia.
Qed.

(** The stages of the object file of Elf.v, for evaluation. *)
Definition sample_sections : list section :=
  match parse_sections sample_elf 6 320 with Some (Ok s) => s | _ => [] end.
Definition sample_section (i : nat) : section := default (MkSection 0 0 0) (sample_sections !! i).
Definition sample_functions : list relocated_function :=
  match add_symbols sample_elf sample_sections (sample_section 3) (Some main_name) (fun _ => true) 152 5
          (SymbolState (replicate 5 None) 1 0) with
  | Some (Ok st) => match functions_of st with Some (Ok fs) => fs | _ => [] end
  | _ => []
  end.
Definition sample_linked : list Z * list relocated_function :=
  match link_functions sample_elf sample_functions 0 (replicate 56 0) with Some (Ok p) => p | _ => ([], []) end.

Lemma elf_local_call_lands_witness :
  exists target inst', target ∈ sample_linked.2 /\ call_target 3 inst' = target.(landed) /\ target.(landed) = 5.
Proof.
  destruct (elf_local_call_lands sample_relocation 0 sample_vm sample_elf sample_sections (sample_section 3)
    (sample_section 1) (sample_section 4) sample_functions sample_linked.2 56 sample_linked.1 sample_linked.1
    (match relocate sample_relocation 0 sample_vm sample_elf sample_sections (sample_section 3) sample_linked.2
             (sample_section 1) (sample_section 4) (Rel 40 (1 .<< 32 .| R_BPF_64_32)) sample_linked.1 with
     | Some (Ok p) => p | _ => [] end)
    (Rel 40 (1 .<< 32 .| R_BPF_64_32)) (RelocatedFunction 129 384 80 0 16 40 0) 3 (Inst 0x85 0 1 0 (-1)))
    as (sym & sec & target & inst' & _ & _ & Hin & _ & Hstart & _ & Hc & _).
  - vm_compute. reflexivity.
  - vm_compute. repeat constructor; congruence.
  - lia.
  - apply byte_ok_check. vm_compute. reflexivity.
  - vm_compute. reflexivity.
  - vm_compute. by left.
  - vm_compute. reflexivity.
  - vm_compute. reflexivity.
  - vm_compute. reflexivity.
  - vm_compute. reflexivity.
  - reflexivity.
  - vm_compute. reflexivity.
  - exists target, inst'. split; [exact Hin |]. split; [exact Hc |].
    vm_compute in Hin. apply elem_of_cons in Hin as [-> | Hin]; [vm_compute in Hstart; discriminate |].
    apply elem_of_cons in Hin as [-> | Hin]; [reflexivity | by apply elem_of_nil in Hin].
Defined.

(** A relocated call of a helper calls the helper registered under the name of
    the symbol, and no other instruction changes. *)
Theorem elf_helper_call_by_name (data_relocation : Z -> Z -> Z -> Z -> Z -> Z -> Z -> Z) (elf_base : Z) (vm : ubpf_vm)
    (elf : list Z) (sections : list section) (strtab applies_to symtab : section)
    (fs0 fs : list relocated_function) (n : nat) (linked program program' : list Z) (r : Elf64_Rel)
    (source : relocated_function) (k : nat) (inst : ebpf_inst) :
  link_functions elf fs0 0 (replicate n 0) = Some (Ok (linked, fs)) ->
  Forall (fun f => 0 <= f.(rf_size) /\ f.(rf_size) mod 8 = 0) fs0 ->
  Forall byte_ok program ->
  relocate data_relocation elf_base vm elf sections strtab fs applies_to symtab r program = Some (Ok program') ->
  ELF64_R_TYPE r.(r_info) = R_BPF_64_32 \/ ELF64_R_TYPE r.(r_info) = R_BPF_64_32_LEGACY ->
  find_function (contains applies_to.(shdr) r.(r_offset)) fs = Some source ->
  (r.(r_offset) - source.(native_section_start)) mod 8 = 0 ->
  Z.of_nat k = source.(landed) + (r.(r_offset) - source.(native_section_start)) / 8 ->
  insts_of_bytes program !! k = Some inst -> inst.(src) <> 1 ->
  exists sym name idx,
    read_sym elf (symtab.(data) + SIZEOF_SYM * ELF64_R_SYM r.(r_info)) = Some (Ok sym) /\
    c_string elf (strtab.(data) + sym.(st_name)) = Some (Ok name) /\
    vm.(ext_func_names) !! idx = Some (Some name) /\
    insts_of_bytes program' = <[k := set_imm inst (Z.of_nat idx)]> (insts_of_bytes program).
Proof.
  intros Hlink Hsz Hb Hrun Hty Hf Hm Hk Hinst Hsrc. pose proof (linked_aligned _ _ _ _ _ Hlink Hsz) as Hal.
  destruct (relocate_inv _ _ _ _ _ _ _ _ _ _ _ _ _ _ Hrun Hal Hf Hm) as (sym & k' & Hsym & Hk' & Hcall).
  assert (k' = k) as -> by lia.
  assert (relocate_call vm elf sections strtab fs sym (8 * Z.of_nat k) (Z.of_nat k) program = Some (Ok program')) as Hc.
  { destruct Hty as [E | E]; rewrite E in Hcall; exact Hcall. }
  destruct (relocate_call_helper vm elf sections strtab fs sym k program program' inst Hb Hinst Hsrc Hc)
    as (name & idx & Hname & Hidx & E). by exists sym, name, idx.
Qed.

Lemma elf_helper_call_by_name_witness :
  exists name idx, sample_vm.(ext_func_names) !! idx = Some (Some name) /\ name = "foo"%string.
Proof.
  destruct (elf_helper_call_by_name sample_relocation 0 sample_vm sample_elf sample_sections (sample_section 3)
    (sample_section 1) (sample_section 4) sample_functions sample_linked.2 56 sample_linked.1 sample_linked.1
    (match relocate sample_relocation 0 sample_vm sample_elf sample_sections (sample_section 3) sample_linked.2
             (sample_section 1) (sample_section 4) (Rel 32 (3 .<< 32 .| R_BPF_64_32)) sample_linked.1 with
     | Some (Ok p) => p | _ => [] end)
    (Rel 32 (3 .<< 32 .| R_BPF_64_32)) (RelocatedFunction 129 384 80 0 16 40 0) 2 (Inst 0x85 0 0 0 (-1)))
    as (sym & name & idx & Hsym & Hname & Hidx & _).
  - vm_compute. reflexivity.
  - vm_compute. repeat constructor; congruence.
  - apply byte_ok_check. vm_compute. reflexivity.
  - vm_compute. reflexivity.
  - vm_compute. by left.
  - vm_compute. reflexivity.
  - vm_compute. reflexivity.
  - vm_compute. reflexivity.
  - vm_compute. reflexivity.
  - vm_compute. congruence.
  - exists name, idx. split; [exact Hidx |].
    vm_compute in Hsym. injection Hsym as <-. vm_compute in Hname. injection Hname as <-. reflexivity.
Defined.

(** C26: A relocated LDDW loads the value the data relocation function gave for the
    data: its two halves are the low and the high 32 bits, the data of the symbol
    is inside its section, and no other instruction changes. *)
Theorem elf_data_relocation_value (data_relocation : Z -> Z -> Z -> Z -> Z -> Z -> Z -> Z) (elf_base : Z) (vm : ubpf_vm)
    (elf : list Z) (sections : list section) (strtab applies_to symtab : section)
    (fs0 fs : list relocated_function) (n : nat) (linked program program' : list Z) (r : Elf64_Rel)
    (source : relocated_function) (k : nat) (inst inst2 : ebpf_inst) :
  link_functions elf fs0 0 (replicate n 0) = Some (Ok (linked, fs)) ->
  Forall (fun f => 0 <= f.(rf_size) /\ f.(rf_size) mod 8 = 0) fs0 ->
  Forall byte_ok program ->
  relocate data_relocation elf_base vm elf sections strtab fs applies_to symtab r program = Some (Ok program') ->
  ELF64_R_TYPE r.(r_info) = R_BPF_64_64 ->
  find_function (contains applies_to.(shdr) r.(r_offset)) fs = Some source ->
  (r.(r_offset) - source.(native_section_start)) mod 8 = 0 ->
  Z.of_nat k = source.(landed) + (r.(r_offset) - source.(native_section_start)) / 8 ->
  insts_of_bytes program !! k = Some inst -> insts_of_bytes program !! S k = Some inst2 ->
  exists sym sec lo hi v,
    read_sym elf (symtab.(data) + SIZEOF_SYM * ELF64_R_SYM r.(r_info)) = Some (Ok sym) /\
    section_at sections sym.(st_shndx) = Some (Ok sec) /\ u64 (sym.(st_size) + sym.(st_value)) <= sec.(size) /\
    v = u64 (data_relocation vm.(data_relocation_function) vm.(data_relocation_user_data) (elf_base + sec.(data)) sec.(size)
               (elf_base + strtab.(data) + sym.(st_name)) sym.(st_value) sym.(st_size)) /\
    u32 lo.(imm) .| u64 (u64 hi.(imm) .<< 32) = v /\ inst.(opcode) = opcode_of EBPF_OP_LDDW /\
    lo = set_imm inst lo.(imm) /\ hi = set_imm inst2 hi.(imm) /\
    insts_of_bytes program' = <[S k := hi]> (<[k := lo]> (insts_of_bytes program)).
Proof.
  intros Hlink Hsz Hb Hrun Hty Hf Hm Hk Hinst Hinst2. pose proof (linked_aligned _ _ _ _ _ Hlink Hsz) as Hal.
  destruct (relocate_inv _ _ _ _ _ _ _ _ _ _ _ _ _ _ Hrun Hal Hf Hm) as (sym & k' & Hsym & Hk' & Hcall).
  assert (k' = k) as -> by lia. rewrite Hty in Hcall. change (R_BPF_64_64 =? R_BPF_64_64) with true in Hcall. cbv iota in Hcall.
  destruct (relocate_data_run data_relocation elf_base vm elf sections strtab applies_to r sym k program program' inst inst2
    Hb Hinst Hinst2 Hcall) as (sec & v & Hsec & Hv & Hsize & Hop & E).
  exists sym, sec, (set_imm inst (u32 v)), (set_imm inst2 (u32 (v .>> 32))), v. split_and!; try done.
  - unfold set_imm. cbn [imm]. apply lddw_value. rewrite Hv. apply wrap_range. lia.
  - unfold set_imm. cbn [imm opcode dst src offset]. by rewrite (sext_id 32 (s32 _)) by (lia || (apply sext_range; lia)).
  - unfold set_imm. cbn [imm opcode dst src offset]. by rewrite (sext_id 32 (s32 _)) by (lia || (apply sext_range; lia)).
Qed.

Lemma elf_data_relocation_value_witness :
  exists lo hi, u32 lo.(imm) .| u64 (u64 hi.(imm) .<< 32) = 0x500000000 + 120 /\ lo.(opcode) = 0x18.
Proof.
  destruct (elf_data_relocation_value sample_relocation 0x500000000 sample_vm sample_elf sample_sections (sample_section 3)
    (sample_section 1) (sample_section 4) sample_functions sample_linked.2 56 sample_linked.1 sample_linked.1
    (match relocate sample_relocation 0x500000000 sample_vm sample_elf sample_sections (sample_section 3) sample_linked.2
             (sample_section 1) (sample_section 4) (Rel 16 (4 .<< 32 .| R_BPF_64_64)) sample_linked.1 with
     | Some (Ok p) => p | _ => [] end)
    (Rel 16 (4 .<< 32 .| R_BPF_64_64)) (RelocatedFunction 129 384 80 0 16 40 0) 0 (Inst 0x18 1 0 0 0) (Inst 0 0 0 0 0))
    as (sym & sec & lo & hi & v & _ & Hsec & _ & Hv & Hval & _ & Hlo & _ & E).
  - vm_compute. reflexivity.
  - vm_compute. repeat constructor; congruence.
  - apply byte_ok_check. vm_compute. reflexivity.
  - vm_compute. reflexivity.
  - vm_compute. reflexivity.
  - vm_compute. reflexivity.
  - vm_compute. reflexivity.
  - vm_compute. reflexivity.
  - vm_compute. reflexivity.
  - vm_compute. reflexivity.
  - exists lo, hi. split; [| rewrite Hlo; reflexivity].
    apply (f_equal (fun l => (default (Inst 0 0 0 0 0) (l !! 0%nat), default (Inst 0 0 0 0 0) (l !! 1%nat)))) in E.
    vm_compute in E. injection E as <- <-. vm_compute. reflexivity.
Defined.

(** *** Files the loader does not survive *)

(** The object file with its symbols replaced (the same number of them). *)
Definition with_symbols (symbols : list Elf64_Sym) : list Z := write_bytes sample_elf 152 (symbols ≫= sym_bytes).

(** The loader reads outside its data on malformed files where it means to report
    an error: a last section header cut after its first 32 bytes (only eight bytes
    of a header are checked), a function symbol whose section index is the number
    of sections, a function longer than the file, a function symbol in a section
    without code (its message formats a number as a string), and a file with no
    main function in which every symbol is a function. *)
Theorem elf_undefined_behaviour :
  let load elf := link_elf sample_relocation 0 all_allocs sample_vm elf (Some main_name) in
  let f := Sym 6 2 1 0 16 in
  let main := Sym 1 2 1 16 40 in
  let null := Sym 0 0 0 0 0 in
  load (take 672 sample_elf) = None /\
  load (with_symbols [null; Sym 6 2 6 0 16; main; null; null]) = None /\
  load (with_symbols [null; Sym 6 2 1 0 1000; main; null; null]) = None /\
  load (with_symbols [null; Sym 6 2 2 0 16; main; null; null]) = None /\
  load (with_symbols [f; f; f; f; f]) = None /\
  load (with_symbols [null; f; null; null; null]) = Some (Err MainNotFound).
Proof. vm_compute. repeat split; reflexivity. Qed.
