(* ===== verification/ElfLink.v ===== *)
(** * ElfLink: from the symbols of an object file to the program of the VM

    The functions the symbol table names, their order in the linked program, what
    the relocations leave alone, and with them what a VM is loaded with when
    [ubpf_load_elf_ex] returns 0. *)

From Stdlib Require Import ZArith Lia Bool.
From stdpp Require Import base list gmap strings numbers.
From S2P Require Import Prelude Ebpf InstValid Mem Vm Validate Load JitSupport Elf ElfSound.

Local Open Scope Z_scope.
Local Open Scope cbits_scope.

(** ** The functions of the symbol table *)

Section Symbols.
Context (elf : list Z) (sections : list section) (strtab : section) (main_function_name : option (list Z)).

(** The function symbols in their order, each with whether it is the main one. *)
Fixpoint function_symbols (symbols : Z) (count : nat) : L (list (relocated_function * bool)) :=
  match count with
  | O => mret []
  | S count' =>
      sym ← read_sym elf symbols;
      if negb (ELF64_ST_TYPE sym.(st_info) =? STT_FUNC) then function_symbols (symbols + SIZEOF_SYM) count'
      else
        rf ← symbol_function elf sections strtab sym;
        main ← is_main elf strtab main_function_name rf;
        rest ← function_symbols (symbols + SIZEOF_SYM) count';
        mret ((rf, main) :: rest)
  end.

(** The main function, the last of them if there are several, and the others. *)
Definition main_of (l : list (relocated_function * bool)) : option relocated_function :=
  list.last (fst <$> filter (fun p => p.2 = true) l).
Definition others_of (l : list (relocated_function * bool)) : list relocated_function :=
  fst <$> filter (fun p => p.2 = false) l.

(** The state of the loop after the functions [l], with an array of [n] entries. *)
Record symbols_seen (n : nat) (l : list (relocated_function * bool)) (st : symbol_state) : Prop := SymbolsSeen {
  sn_length : length st.(functions) = n;
  sn_main : (0 < n)%nat -> st.(functions) !! 0%nat = Some (main_of l);
  sn_others : forall j f, others_of l !! j = Some f -> st.(functions) !! S j = Some (Some f);
  sn_total : st.(total_functions) = 1 + Z.of_nat (length (others_of l));
}.

Lemma main_of_snoc l f b : main_of (l ++ [(f, b)]) = if b : bool then Some f else main_of l.
Proof.
  unfold main_of. rewrite list.filter_app, fmap_app. destruct b.
  - change (fst <$> filter _ [(f, true)]) with [f]. apply list.last_snoc.
  - change (fst <$> filter _ [(f, false)]) with (@nil relocated_function). by rewrite app_nil_r.
Qed.

Lemma others_of_snoc l f b : others_of (l ++ [(f, b)]) = others_of l ++ (if b : bool then [] else [f]).
Proof. unfold others_of. rewrite list.filter_app, fmap_app. by destruct b. Qed.

Lemma store_function_ok i rf fs fs' :
  store_function i rf fs = Some (Ok fs') -> 0 <= i < Z.of_nat (length fs) /\ fs' = <[Z.to_nat i := Some rf]> fs.
Proof. unfold store_function. destruct ((0 <=? i) && _) eqn:E; [| discriminate]. intros [= <-]. bools. split; [lia | done]. Qed.

(** One function more. *)
Lemma symbols_seen_snoc n l st rf (b : bool) fs size :
  Z.of_nat n < 2 ^ 32 -> symbols_seen n l st ->
  store_function (if b then 0 else st.(total_functions)) rf st.(functions) = Some (Ok fs) ->
  symbols_seen n (l ++ [(rf, b)])
    (SymbolState fs (if b then st.(total_functions) else u32 (st.(total_functions) + 1)) size).
Proof.
  intros Hn [Hl Hm Ho Ht] [Hi ->]%store_function_ok. constructor; cbn [functions total_functions].
  - by rewrite length_insert.
  - intros H0. rewrite main_of_snoc. destruct b.
    + by rewrite list_lookup_insert_eq by lia.
    + rewrite list_lookup_insert_ne by lia. by apply Hm.
  - intros j f. rewrite others_of_snoc. destruct b.
    + rewrite app_nil_r. intros Hj. rewrite list_lookup_insert_ne by lia. by apply Ho.
    + intros [Hj | [Hge Hj]]%lookup_app_Some.
      * pose proof (lookup_lt_Some _ _ _ Hj). rewrite list_lookup_insert_ne by lia. by apply Ho.
      * apply list_lookup_singleton_Some in Hj as [Hj <-]. replace (S j) with (Z.to_nat (total_functions st)) by lia.
        by rewrite list_lookup_insert_eq by lia.
  - rewrite others_of_snoc. destruct b; [by rewrite app_nil_r |]. rewrite length_app, Ht. cbn [length].
    rewrite wrap_id by lia. lia.
Qed.

Lemma add_symbols_seen n alloc count symbols l st st' :
  Z.of_nat n < 2 ^ 32 -> symbols_seen n l st ->
  add_symbols elf sections strtab main_function_name alloc symbols count st = Some (Ok st') ->
  exists l', function_symbols symbols count = Some (Ok l') /\ symbols_seen n (l ++ l') st'.
Proof.
  intros Hn. revert symbols l st; induction count as [| count IH]; intros symbols l st Hs Hrun.
  - injection Hrun as <-. exists []. by rewrite app_nil_r.
  - cbn [add_symbols function_symbols] in *. apply L_bind_ok in Hrun as (sym & Hsym & Hrun).
    apply L_bind_ok in Hrun as (st1 & Hadd & Hrun). rewrite Hsym. cbn [mbind L_bind]. unfold add_symbol in Hadd.
    destruct (negb _); [injection Hadd as <-; by apply (IH _ _ _ Hs Hrun) |].
    apply L_bind_ok in Hadd as (rf & Hrf & Hadd). apply L_bind_ok in Hadd as (b & Hb & Hadd). cbv zeta in Hadd.
    apply L_bind_ok in Hadd as (fs & Hfs & Hadd). apply L_bind_ok in Hadd as (u & _ & [= <-]).
    destruct (IH _ _ _ (symbols_seen_snoc _ _ _ _ _ _ _ Hn Hs Hfs) Hrun) as (l' & Hl' & Hs').
    exists ((rf, b) :: l'). rewrite Hrf. cbn [mbind L_bind]. rewrite Hb. cbn [mbind L_bind].
    rewrite Hl'. split; [done |]. by rewrite <- app_assoc in Hs'.
Qed.

Lemma read_sym_in off sym : read_sym elf off = Some (Ok sym) -> 0 <= off /\ off + SIZEOF_SYM <= Z.of_nat (length elf).
Proof.
  unfold read_sym. intros H. apply L_bind_ok in H as (a & [Ha _]%read_field_in & H).
  do 3 apply L_bind_ok in H as (? & _ & H). apply L_bind_ok in H as (e & (_ & He & _)%read_field_in & _).
  unfold SIZEOF_SYM. lia.
Qed.

(** The symbols are in the file. *)
Lemma add_symbols_count alloc count symbols st st' :
  add_symbols elf sections strtab main_function_name alloc symbols count st = Some (Ok st') ->
  count = 0%nat \/ (0 <= symbols /\ symbols + SIZEOF_SYM * Z.of_nat count <= Z.of_nat (length elf)).
Proof.
  revert symbols st; induction count as [| count IH]; intros symbols st Hrun; [by left | right].
  cbn [add_symbols] in Hrun. apply L_bind_ok in Hrun as (sym & [H0 H1]%read_sym_in & Hrun).
  apply L_bind_ok in Hrun as (st1 & _ & Hrun). destruct (IH _ _ Hrun) as [-> | [_ H2]]; lia.
Qed.

(** The functions that are linked: the main one, then the others in their order. *)
Lemma functions_of_seen n l st fs :
  symbols_seen n l st -> (0 < n)%nat -> functions_of st = Some (Ok fs) -> exists f0, main_of l = Some f0 /\ fs = f0 :: others_of l.
Proof.
  intros [Hl Hm Ho Ht] Hn. unfold functions_of, access. rewrite Ht.
  replace (Z.to_nat (1 + Z.of_nat (length (others_of l)))) with (S (length (others_of l))) by lia.
  destruct (mapM id _) as [k |] eqn:E; [| discriminate]. intros [= <-]. apply mapM_Some in E.
  specialize (Hm Hn). destruct (functions st) as [| o rest]; [done |]. injection Hm as ->. cbn [take] in E.
  apply Forall2_cons_inv_l in E as (f0 & k' & Hf0 & E & ->). exists f0. split; [exact Hf0 |]. f_equal.
  assert (take (length (others_of l)) rest = Some <$> others_of l) as Et.
  { apply list_eq. intros i. destruct (others_of l !! i) as [f |] eqn:Ei.
    - pose proof (lookup_lt_Some _ _ _ Ei). rewrite lookup_take_lt by lia. rewrite list_lookup_fmap, Ei. exact (Ho i f Ei).
    - apply lookup_ge_None in Ei. rewrite lookup_take_ge by lia. symmetry. apply lookup_ge_None. by rewrite length_fmap. }
  rewrite Et, Forall2_fmap_l in E. clear - E. induction E as [| f g fs gs [= ->] _ IH]; [done | by rewrite IH].
Qed.
End Symbols.

Lemma symbols_seen_start n : symbols_seen n [] (SymbolState (replicate n None) 1 0).
Proof.
  constructor; cbn [functions total_functions]; [apply length_replicate | | done | done].
  intros Hn. by apply lookup_replicate_2.
Qed.

(** ** The linked program *)

(** [program], before its relocations, is what the file's tables say: the main function
    of the symbol table first, then the others in their order, each with the code it
    has in the file. *)
Record links (elf : list Z) (main_function_name : option (list Z)) (sections : list section) (strtab : section)
    (l : list (relocated_function * bool)) (f0 : relocated_function) (program : list Z) (fs : list relocated_function)
    : Prop := Links {
  lk_sections : exists count shoff, check_header elf = Some (Ok count) /\ e_shoff elf = Some (Ok shoff) /\
    parse_sections elf (Z.to_nat count) shoff = Some (Ok sections);
  lk_strtab : find_section elf SHT_STRTAB sections = Some (Ok (Some strtab));
  lk_symbols : exists symtab, find_section elf SHT_SYMTAB sections = Some (Ok (Some symtab)) /\
    function_symbols elf sections strtab main_function_name symtab.(data)
      (Z.to_nat (u64 (s32 symtab.(size)) / SIZEOF_SYM)) = Some (Ok l);
  lk_main : main_of l = Some f0;
  lk_count : length fs = S (length (others_of l));
  lk_placed : forall i f, (f0 :: others_of l) !! i = Some f -> exists f', fs !! i = Some f' /\
    f'.(rf_name) = f.(rf_name) /\ f'.(rf_shdr) = f.(rf_shdr) /\ f'.(native_section_start) = f.(native_section_start) /\
    f'.(rf_size) = f.(rf_size) /\ f'.(linked_data) = sizes (take i (f0 :: others_of l)) /\
    f'.(landed) = f'.(linked_data) / 8 /\ f'.(linked_data) + f.(rf_size) <= Z.of_nat (length program) /\
    bytes_at program f'.(linked_data) (Z.to_nat f.(rf_size)) = bytes_at elf f.(native_data) (Z.to_nat f.(rf_size));
}.

Lemma laid_from_placed elf program spot fs fs' i f :
  laid_from elf program spot fs fs' -> fs !! i = Some f -> exists f', fs' !! i = Some f' /\
    f'.(rf_name) = f.(rf_name) /\ f'.(rf_shdr) = f.(rf_shdr) /\ f'.(native_section_start) = f.(native_section_start) /\
    f'.(rf_size) = f.(rf_size) /\ f'.(linked_data) = spot + sizes (take i fs) /\
    f'.(landed) = f'.(linked_data) / 8 /\ f'.(linked_data) + f.(rf_size) <= Z.of_nat (length program) /\
    bytes_at program f'.(linked_data) (Z.to_nat f.(rf_size)) = bytes_at elf f.(native_data) (Z.to_nat f.(rf_size)).
Proof.
  intros Hl. revert i; induction Hl as [| spot g g' fs fs' -> Hb Hfit Hl IH]; intros i; [by rewrite lookup_nil |].
  destruct i as [| i]; cbn [lookup list_lookup].
  - intros [= <-]. eexists. split; [reflexivity |]. cbn. rewrite Z.add_0_r. by split_and!.
  - intros Hi. destruct (IH _ Hi) as (f' & Hf' & E1 & E2 & E3 & E4 & El & Er). exists f'. split_and!; try done; [| apply Er ..].
    rewrite El. cbn [take sizes]. lia.
Qed.

(** Sizes are unsigned. *)
Lemma function_symbols_sizes elf sections strtab main symbols count l :
  Forall byte_ok elf -> function_symbols elf sections strtab main symbols count = Some (Ok l) ->
  Forall (fun p => 0 <= p.1.(rf_size)) l.
Proof.
  intros Hb. revert symbols l; induction count as [| count IH]; intros symbols l Hrun; cbn [function_symbols] in Hrun;
    [injection Hrun as <-; constructor |].
  apply L_bind_ok in Hrun as (sym & Hsym & Hrun). destruct (negb _); [by eapply IH |].
  apply L_bind_ok in Hrun as (rf & Hrf & Hrun). apply L_bind_ok in Hrun as (b & _ & Hrun).
  apply L_bind_ok in Hrun as (rest & Hrest & [= <-]). constructor; [| by eapply IH]. cbn [fst].
  unfold symbol_function in Hrf. do 5 apply L_bind_ok in Hrf as (? & _ & Hrf). injection Hrf as <-. cbn [rf_size].
  unfold read_sym in Hsym. do 4 apply L_bind_ok in Hsym as (? & _ & Hsym).
  apply L_bind_ok in Hsym as (sz & (_ & _ & ->)%read_field_in & [= <-]). cbn [st_size].
  apply (le_decode_range _ (byte_ok_bytes_at elf (symbols + 16) 8 Hb)).
Qed.

Lemma main_of_elem l f0 : main_of l = Some f0 -> (f0, true) ∈ l.
Proof.
  unfold main_of. intros H%list.last_Some_elem_of. apply list_elem_of_fmap in H as ([f b] & -> & H).
  apply list_elem_of_filter in H as [E H]. cbn in *. by subst b.
Qed.

Lemma others_of_elem l f : f ∈ others_of l -> (f, false) ∈ l.
Proof.
  unfold others_of. intros H. apply list_elem_of_fmap in H as ([g b] & -> & H).
  apply list_elem_of_filter in H as [E H]. cbn in *. by subst b.
Qed.

Lemma linked_functions_all (P : relocated_function -> Prop) l f0 :
  Forall (fun p => P p.1) l -> main_of l = Some f0 -> Forall P (f0 :: others_of l).
Proof.
  intros Hall Hm. rewrite list.Forall_forall in Hall. apply list.Forall_forall. intros f [-> | Hf]%elem_of_cons.
  - exact (Hall _ (main_of_elem _ _ Hm)).
  - exact (Hall _ (others_of_elem _ _ Hf)).
Qed.

(** What [link_elf] has done when it succeeds. *)
Lemma link_elf_inv data_relocation elf_base allocs vm elf main program :
  Forall byte_ok elf -> Z.of_nat (length elf) < 2 ^ 32 ->
  link_elf data_relocation elf_base allocs vm elf main = Some (Ok program) ->
  exists sections strtab l f0 n linked fs,
    links elf main sections strtab l f0 linked fs /\ Forall (fun p => 0 <= p.1.(rf_size)) l /\
    link_functions elf (f0 :: others_of l) 0 (replicate n 0) = Some (Ok (linked, fs)) /\
    relocate_sections data_relocation elf_base vm elf sections strtab fs sections linked = Some (Ok program).
Proof.
  intros Hb Hlen Hrun. unfold link_elf in Hrun. apply L_bind_ok in Hrun as (count & Hcount & Hrun).
  apply L_bind_ok in Hrun as (shoff & Hshoff & Hrun). apply L_bind_ok in Hrun as (sections & Hsec & Hrun).
  apply L_bind_ok in Hrun as ([strtab |] & Hstr & Hrun); [| discriminate].
  apply L_bind_ok in Hrun as ([symtab |] & Hsym & Hrun); [| discriminate]. cbv zeta in Hrun.
  set (total := u64 (s32 symtab.(size)) / SIZEOF_SYM) in *.
  apply L_bind_ok in Hrun as (u1 & _ & Hrun). apply L_bind_ok in Hrun as (st & Hst & Hrun).
  apply L_bind_ok in Hrun as (m0 & Hm0 & Hrun). apply L_bind_ok in Hrun as (u2 & _ & Hrun).
  apply L_bind_ok in Hrun as (u3 & _ & Hrun). apply L_bind_ok in Hrun as (fs0 & Hfs0 & Hrun).
  apply L_bind_ok in Hrun as ([linked fs] & Hlink & Hrun).
  assert (Z.of_nat (Z.to_nat total) < 2 ^ 32) as Hn.
  { destruct (add_symbols_count _ _ _ _ _ _ _ _ _ Hst) as [-> | [H0 H1]]; [lia |]. unfold SIZEOF_SYM in H1. lia. }
  destruct (add_symbols_seen elf sections strtab main _ _ _ _ [] _ _ Hn (symbols_seen_start _) Hst) as (l & Hl & Hseen).
  cbn [app] in Hseen. assert (0 < Z.to_nat total)%nat as Hpos.
  { rewrite <- (sn_length _ _ _ Hseen). unfold access in Hm0. destruct (functions st); [discriminate | cbn; lia]. }
  destruct (functions_of_seen _ _ _ _ Hseen Hpos Hfs0) as (f0 & Hmain & ->).
  pose proof (function_symbols_sizes _ _ _ _ _ _ _ Hb Hl) as Hsizes.
  pose proof (linked_functions_all (fun f => 0 <= f.(rf_size)) l f0 Hsizes Hmain) as Hs.
  destruct (link_functions_laid elf (f0 :: others_of l) 0 _ linked fs (Z.le_refl 0) Hs Hlink) as (_ & _ & Hlaid).
  exists sections, strtab, l, f0, (Z.to_nat st.(linked_program_size)), linked, fs. split_and!; try done.
  constructor; [by exists count, shoff | done | by exists symtab | done | by rewrite (laid_from_length _ _ _ _ _ Hlaid) |].
  intros i f Hi. by apply (laid_from_placed _ _ _ _ _ _ _ Hlaid).
Qed.

(** ** What relocations leave alone *)

(** The two instructions differ in their immediates at most. *)
Definition same_but_imm (i i' : ebpf_inst) : Prop :=
  i'.(opcode) = i.(opcode) /\ i'.(dst) = i.(dst) /\ i'.(src) = i.(src) /\ i'.(offset) = i.(offset).

Definition immediates_only (p p' : list Z) : Prop :=
  Forall byte_ok p' /\ Forall2 same_but_imm (insts_of_bytes p) (insts_of_bytes p').

Lemma immediates_only_refl p : Forall byte_ok p -> immediates_only p p.
Proof. intros Hb. split; [done |]. apply Forall_Forall2_diag, list.Forall_forall. by intros i _. Qed.

Lemma immediates_only_trans p1 p2 p3 : immediates_only p1 p2 -> immediates_only p2 p3 -> immediates_only p1 p3.
Proof.
  intros [_ H1] [Hb H2]. split; [done |]. clear Hb. revert H2. generalize (insts_of_bytes p3).
  induction H1 as [| x y l1 l2 Hxy _ IH]; intros l3 H2; inversion H2 as [| ? z ? l3' Hyz H3]; subst; [constructor |].
  constructor; [| by apply IH]. unfold same_but_imm in *. destruct Hxy as (? & ? & ? & ?), Hyz as (? & ? & ? & ?).
  split_and!; congruence.
Qed.

Lemma set_inst_imm_only p k v p' :
  Forall byte_ok p -> set_inst_imm p (8 * Z.of_nat k) v = Some (Ok p') -> immediates_only p p'.
Proof.
  intros Hb Hw. destruct (insts_of_bytes p !! k) as [inst |] eqn:Hk.
  - destruct (set_inst_imm_ok _ _ _ _ _ Hb Hk Hw) as [E Hb']. split; [done |]. rewrite E.
    apply Forall2_same_length_lookup. split; [by rewrite length_insert |]. intros i x y Hx.
    destruct (decide (i = k)) as [-> | Hne].
    + rewrite list_lookup_insert_eq by (by eapply lookup_lt_Some). intros [= <-]. rewrite Hk in Hx. injection Hx as <-. done.
    + rewrite list_lookup_insert_ne by done. intros Hy. rewrite Hx in Hy. by injection Hy as <-.
  - exfalso. apply program_write_ok in Hw as (_ & Hl & _). rewrite length_le_encode in Hl. apply lookup_ge_None in Hk.
    pose proof (length_insts_of_bytes p) as Hi. assert (Z.of_nat k + 1 <= Z.of_nat (length p) / 8); [| lia].
    apply Z.div_le_lower_bound; lia.
Qed.

Section Frame.
Context (data_relocation : Z -> Z -> Z -> Z -> Z -> Z -> Z -> Z) (elf_base : Z).
Context (vm : ubpf_vm) (elf : list Z) (sections : list section) (strtab : section) (fs : list relocated_function).

(** Whole instructions: every function starts at one, in its section and in the program. *)
Definition placed_at_instruction (f : relocated_function) : Prop :=
  0 <= f.(linked_data) /\ f.(linked_data) mod 8 = 0 /\ f.(native_section_start) mod 8 = 0.

Hypothesis Hfs : Forall placed_at_instruction fs.

Lemma relocate_call_only sym k index program program' :
  Forall byte_ok program ->
  relocate_call vm elf sections strtab fs sym (8 * Z.of_nat k) index program = Some (Ok program') ->
  immediates_only program program'.
Proof.
  intros Hb Hrun. unfold relocate_call in Hrun. apply L_bind_ok in Hrun as (s & _ & Hrun). destruct (s =? 1).
  - do 3 apply L_bind_ok in Hrun as (? & _ & Hrun). destruct (find_function _ fs); [| discriminate].
    by eapply set_inst_imm_only.
  - do 2 apply L_bind_ok in Hrun as (? & _ & Hrun). by eapply set_inst_imm_only.
Qed.

Lemma relocate_data_only applies_to r sym k program program' :
  Forall byte_ok program ->
  relocate_data data_relocation elf_base vm elf sections strtab applies_to r sym (8 * Z.of_nat k) program = Some (Ok program') ->
  immediates_only program program'.
Proof.
  intros Hb Hrun. unfold relocate_data in Hrun. do 11 apply L_bind_ok in Hrun as (? & _ & Hrun). cbv zeta in Hrun.
  apply L_bind_ok in Hrun as (p1 & H1 & H2). pose proof (set_inst_imm_only _ _ _ _ Hb H1) as Ho.
  replace (8 * Z.of_nat k + 8) with (8 * Z.of_nat (S k)) in H2 by lia.
  eapply immediates_only_trans; [exact Ho |]. eapply set_inst_imm_only; [apply Ho | exact H2].
Qed.

Lemma relocate_only applies_to symtab r program program' :
  Forall byte_ok program -> r.(r_offset) mod 8 = 0 ->
  relocate data_relocation elf_base vm elf sections strtab fs applies_to symtab r program = Some (Ok program') ->
  immediates_only program program'.
Proof using Hfs.
  intros Hb H8 Hrun. unfold relocate in Hrun. do 3 apply L_bind_ok in Hrun as (? & _ & Hrun).
  destruct (find_function _ fs) as [f |] eqn:Ef; [| discriminate]. cbv zeta in Hrun.
  apply find_function_sound in Ef as [Hin Hc]. rewrite list.Forall_forall in Hfs. destruct (Hfs _ Hin) as (H0 & Hl & Hn).
  unfold contains in Hc. bools. set (d := r.(r_offset) - f.(native_section_start)) in *.
  assert ((f.(linked_data) + d) mod 8 = 0) as Hm.
  { unfold d. rewrite Z.add_mod, Zminus_mod, Hl, H8, Hn by lia. done. }
  assert (exists k, f.(linked_data) + d = 8 * Z.of_nat k) as [k Ek].
  { exists (Z.to_nat ((f.(linked_data) + d) / 8)). pose proof (Z.div_mod (f.(linked_data) + d) 8 ltac:(lia)) as Hdm.
    pose proof (Z.div_pos (f.(linked_data) + d) 8). unfold d in *. lia. }
  rewrite Ek in Hrun. destruct (_ =? _); [by eapply relocate_data_only |].
  destruct (_ || _); [by eapply relocate_call_only |]. injection Hrun as <-. by apply immediates_only_refl.
Qed.

Lemma relocate_all_only applies_to symtab count rs program program' :
  Forall byte_ok program ->
  (forall j r, (j < count)%nat -> read_rel elf (rs + SIZEOF_REL * Z.of_nat j) = Some (Ok r) -> r.(r_offset) mod 8 = 0) ->
  relocate_all data_relocation elf_base vm elf sections strtab fs applies_to symtab rs count program = Some (Ok program') ->
  immediates_only program program'.
Proof using Hfs.
  intros Hb. revert rs program Hb; induction count as [| count IH]; intros rs program Hb H8 Hrun; cbn [relocate_all] in Hrun.
  - injection Hrun as <-. by apply immediates_only_refl.
  - apply L_bind_ok in Hrun as (r & Hr & Hrun). apply L_bind_ok in Hrun as (p1 & H1 & Hrun).
    apply relocate_only in H1; [| done | apply (H8 0%nat); [lia |]; rewrite Z.mul_0_r, Z.add_0_r; exact Hr].
    eapply immediates_only_trans; [exact H1 |]. apply (IH (rs + SIZEOF_REL)); [apply H1 | | done].
    intros j r' Hj Hr'. apply (H8 (S j) r'); [lia |]. rewrite <- Hr'. f_equal. lia.
Qed.
End Frame.

(** The relocations of code are of whole instructions. *)
Definition relocations_aligned (elf : list Z) (sections : list section) : Prop :=
  forall s info applies_to, s ∈ sections -> sh_type elf s.(shdr) = Some (Ok SHT_REL) ->
    sh_info elf s.(shdr) = Some (Ok info) -> section_at sections (s32 info) = Some (Ok applies_to) ->
    is_executable elf applies_to.(shdr) = Some (Ok true) ->
    forall j r, (j < Z.to_nat (s.(size) / SIZEOF_REL))%nat ->
      read_rel elf (s.(data) + SIZEOF_REL * Z.of_nat j) = Some (Ok r) -> r.(r_offset) mod 8 = 0.

Lemma relocate_sections_only data_relocation elf_base vm elf sections strtab fs todo program program' :
  Forall placed_at_instruction fs -> relocations_aligned elf sections -> todo ⊆ sections -> Forall byte_ok program ->
  relocate_sections data_relocation elf_base vm elf sections strtab fs todo program = Some (Ok program') ->
  immediates_only program program'.
Proof.
  intros Hfs Hal. revert program; induction todo as [| s todo IH]; intros program Hsub Hb Hrun; cbn [relocate_sections] in Hrun.
  - injection Hrun as <-. by apply immediates_only_refl.
  - apply L_bind_ok in Hrun as (p1 & H1 & Hrun). assert (immediates_only program p1) as Ho.
    { unfold relocate_section in H1. apply L_bind_ok in H1 as (ty & Hty & H1).
      destruct (Z.eqb_spec ty SHT_REL) as [-> |]; cbn [negb] in H1; [| injection H1 as <-; by apply immediates_only_refl].
      apply L_bind_ok in H1 as (info & Hinfo & H1). apply L_bind_ok in H1 as (link & _ & H1).
      apply L_bind_ok in H1 as (applies_to & Happ & H1). apply L_bind_ok in H1 as (ex & Hex & H1).
      destruct ex; cbn [negb] in H1; [| injection H1 as <-; by apply immediates_only_refl].
      apply L_bind_ok in H1 as (u & _ & H1). apply L_bind_ok in H1 as (symtab & _ & H1).
      eapply relocate_all_only; [exact Hfs | exact Hb | | exact H1].
      apply (Hal s info applies_to); try done. apply Hsub. left. }
    eapply immediates_only_trans; [exact Ho |]. apply IH; [| apply Ho | done]. intros x Hx. apply Hsub. by right.
Qed.

(** ** Instructions of the functions *)

Lemma bytes_at_inside code off n o k :
  0 <= off -> 0 <= o -> o + Z.of_nat k <= Z.of_nat n -> bytes_at (bytes_at code off n) o k = bytes_at code (off + o) k.
Proof.
  intros H0 Ho Hk. unfold bytes_at. rewrite take_drop_commute, take_take, Nat.min_l, <- take_drop_commute, drop_drop by lia.
  do 2 f_equal. lia.
Qed.

(** The instruction at index [j] of code that is in [program] at index [p]. *)
Lemma insts_at program code p n j inst :
  bytes_at program (8 * Z.of_nat p) n = code -> 8 * Z.of_nat p + Z.of_nat n <= Z.of_nat (length program) ->
  insts_of_bytes code !! j = Some inst -> insts_of_bytes program !! (p + j)%nat = Some inst.
Proof.
  intros E Hl Hj. assert (length code = n) as Lc by (subst code; apply length_bytes_at; lia).
  destruct (decide (8 * j + 8 <= length code)%nat) as [Hf |]; [| by rewrite insts_lookup_none in Hj by lia].
  rewrite insts_lookup in Hj by lia. rewrite insts_lookup by lia. rewrite <- Hj, <- E.
  rewrite bytes_at_inside by lia. do 4 f_equal. lia.
Qed.

Lemma sizes_aligned fs i : Forall (fun f => 0 <= f.(rf_size) /\ f.(rf_size) mod 8 = 0) fs ->
  0 <= sizes (take i fs) /\ sizes (take i fs) mod 8 = 0.
Proof.
  intros H. revert i; induction H as [| f fs [H0 H8] _ IH]; intros [| i]; cbn [take sizes]; try (by split).
  destruct (IH i) as [I0 I8]. split; [lia |]. by rewrite Z.add_mod, H8, I8 by lia.
Qed.

(** The functions are whole instructions, at whole instructions of their sections. *)
Definition functions_aligned (l : list (relocated_function * bool)) : Prop :=
  Forall (fun p => p.1.(rf_size) mod 8 = 0 /\ p.1.(native_section_start) mod 8 = 0) l.

(** The bytes of the linked program are bytes. *)
Lemma link_functions_bytes elf fs spot program program' fs' :
  Forall byte_ok elf -> Forall byte_ok program -> link_functions elf fs spot program = Some (Ok (program', fs')) -> Forall byte_ok program'.
Proof.
  intros Hb. revert spot program program' fs'; induction fs as [| f fs IH]; intros spot program program' fs' Hp Hrun; cbn [link_functions] in Hrun.
  - by injection Hrun as <- <-.
  - apply L_bind_ok in Hrun as (code & Hcode & Hrun). unfold access in Hcode.
    destruct (read_bytes _ _ _) as [bs |] eqn:Er; [| discriminate]. injection Hcode as <-. apply read_bytes_in in Er as (_ & _ & ->).
    apply L_bind_ok in Hrun as (p1 & Hp1 & Hrun). apply L_bind_ok in Hrun as ([p2 fs2] & Hrec & [= <- <-]).
    eapply IH; [| exact Hrec]. destruct (_ <=? _); [| discriminate]. injection Hp1 as <-. unfold write_bytes.
    apply Forall_app. split; [by apply Forall_take |]. apply Forall_app. split; [by apply byte_ok_bytes_at | by apply Forall_drop].
Qed.

(** Every instruction of every function is in the relocated program. *)
Lemma linked_instructions data_relocation elf_base vm elf main sections strtab l f0 n linked fs program i f j inst :
  Forall byte_ok elf -> links elf main sections strtab l f0 linked fs -> Forall (fun p => 0 <= p.1.(rf_size)) l ->
  link_functions elf (f0 :: others_of l) 0 (replicate n 0) = Some (Ok (linked, fs)) ->
  relocate_sections data_relocation elf_base vm elf sections strtab fs sections linked = Some (Ok program) ->
  functions_aligned l -> relocations_aligned elf sections ->
  (f0 :: others_of l) !! i = Some f -> insts_of_bytes (bytes_at elf f.(native_data) (Z.to_nat f.(rf_size))) !! j = Some inst ->
  exists inst', insts_of_bytes program !! (Z.to_nat (sizes (take i (f0 :: others_of l)) / 8) + j)%nat = Some inst' /\
    same_but_imm inst inst'.
Proof.
  intros Hb Hlk Hsz Hlf Hre Hfa Hra Hi Hj. pose proof (lk_main _ _ _ _ _ _ _ _ Hlk) as Hm.
  pose proof (linked_functions_all (fun g => g.(rf_size) mod 8 = 0 /\ g.(native_section_start) mod 8 = 0) l f0 Hfa Hm) as Ha.
  pose proof (linked_functions_all (fun g => 0 <= g.(rf_size)) l f0 Hsz Hm) as H0.
  assert (Forall (fun g => 0 <= g.(rf_size) /\ g.(rf_size) mod 8 = 0) (f0 :: others_of l)) as Hal.
  { rewrite list.Forall_forall in Ha, H0. apply list.Forall_forall. intros g Hg. split; [by apply H0 | by apply Ha]. }
  assert (Forall placed_at_instruction fs) as Hpl.
  { apply Forall_lookup_2. intros k g' Hg'. pose proof (lookup_lt_Some _ _ _ Hg') as Hk. rewrite (lk_count _ _ _ _ _ _ _ _ Hlk) in Hk.
    destruct (lookup_lt_is_Some_2 (f0 :: others_of l) k Hk) as [g Hg].
    destruct (lk_placed _ _ _ _ _ _ _ _ Hlk k g Hg) as (g2 & Hg2 & _ & _ & En & _ & El & _). rewrite Hg' in Hg2. injection Hg2 as <-.
    unfold placed_at_instruction. rewrite El, En. destruct (sizes_aligned _ k Hal). split_and!; [done .. |].
    by apply (Forall_lookup_1 _ _ _ _ Ha Hg). }
  assert (Forall byte_ok linked) as Hbl.
  { eapply link_functions_bytes; [exact Hb | | exact Hlf]. apply Forall_replicate. unfold byte_ok. lia. }
  destruct (relocate_sections_only _ _ _ _ _ _ _ _ _ _ Hpl Hra ltac:(done) Hbl Hre) as [_ Hsame].
  destruct (lk_placed _ _ _ _ _ _ _ _ Hlk i f Hi) as (f' & _ & _ & _ & _ & _ & El & _ & Hfit & Hcode).
  destruct (sizes_aligned _ i Hal) as [Hs0 Hs8]. set (p := sizes (take i (f0 :: others_of l))) in *.
  pose proof (Z.div_mod p 8 ltac:(lia)) as Hdm. pose proof (Z.div_pos p 8 Hs0 ltac:(lia)) as Hp0.
  assert (8 * Z.of_nat (Z.to_nat (p / 8)) = p) as E8 by lia.
  pose proof (Forall_lookup_1 _ _ _ _ H0 Hi) as Hf0. cbv beta in Hf0.
  pose proof (insts_at linked _ (Z.to_nat (p / 8)) (Z.to_nat f.(rf_size)) j inst ltac:(rewrite E8, <- El; exact Hcode) ltac:(lia) Hj) as Hin.
  destruct (Forall2_lookup_l _ _ _ _ _ Hsame Hin) as (inst' & Hi' & Hs). by exists inst'.
Qed.

(** ** Properties *)

(** C25: The functions of an object file (of less than 4 GiB) are laid out one after the
    other, the main function first: when linking succeeds, the function the symbol
    table gives as the main one (by its name, or as the first of [.text]) is at the
    start of the linked program, the other function symbols follow in their order,
    each at the sum of the sizes before it, with the code it has in the file, and
    [landed] is that position in instructions.  Only the relocations follow. *)
Theorem elf_functions_laid_out (data_relocation : Z -> Z -> Z -> Z -> Z -> Z -> Z -> Z) (elf_base : Z)
    (allocs : elf_allocs) (vm : ubpf_vm) (elf : list Z) (main : option (list Z)) (program : list Z) :
  Forall byte_ok elf -> Z.of_nat (length elf) < 2 ^ 32 ->
  link_elf data_relocation elf_base allocs vm elf main = Some (Ok program) ->
  exists sections strtab l f0 linked fs,
    links elf main sections strtab l f0 linked fs /\
    (exists f0', fs !! 0%nat = Some f0' /\ f0'.(linked_data) = 0 /\ f0'.(landed) = 0 /\ f0'.(rf_name) = f0.(rf_name)) /\
    relocate_sections data_relocation elf_base vm elf sections strtab fs sections linked = Some (Ok program).
Proof.
  intros Hb Hl Hrun. destruct (link_elf_inv _ _ _ _ _ _ _ Hb Hl Hrun) as (sections & strtab & l & f0 & n & linked & fs & Hlk & _ & _ & Hre).
  exists sections, strtab, l, f0, linked, fs. split; [done |]. split; [| done].
  destruct (lk_placed _ _ _ _ _ _ _ _ Hlk 0 f0 eq_refl) as (f' & Hf' & En & _ & _ & _ & El & Ea & _). cbn in El.
  exists f'. by rewrite Ea, El.
Qed.

Lemma elf_functions_laid_out_witness :
  exists program l f0, link_elf sample_relocation 0x500000000 all_allocs sample_vm sample_elf (Some main_name) = Some (Ok program) /\
    main_of l = Some f0 /\ f0.(native_section_start) = 16 /\ length (others_of l) = 1%nat.
Proof.
  destruct (link_elf sample_relocation 0x500000000 all_allocs sample_vm sample_elf (Some main_name)) as [[program | e] |] eqn:E;
    [| vm_compute in E; discriminate E ..].
  destruct (elf_functions_laid_out sample_relocation 0x500000000 all_allocs sample_vm sample_elf (Some main_name) program)
    as (sections & strtab & l & f0 & linked & fs & Hlk & _); [apply byte_ok_check; vm_compute; reflexivity | vm_compute; reflexivity | exact E |].
  exists program, l, f0. split; [reflexivity |]. destruct Hlk as [(count & shoff & Hc & Ho & Hs) Hstr (symtab & Hsym & Hf) Hm _ _].
  split; [exact Hm |]. vm_compute in Hc. injection Hc as <-. vm_compute in Ho. injection Ho as <-. vm_compute in Hs. injection Hs as <-.
  vm_compute in Hstr. injection Hstr as <-. vm_compute in Hsym. injection Hsym as <-. vm_compute in Hf. injection Hf as <-.
  vm_compute in Hm. injection Hm as <-. split; reflexivity.
Defined.

(** C28: what [ubpf_load_elf_ex] loads (from a file of less than 4 GiB).  When it returns 0
    the VM, which had no code, is loaded with the linked program, and, when the
    functions and the relocations of code are at whole instructions, every
    instruction of every function of the symbol table is in it, the main function's at
    the start and the others' at the sum of the sizes before them, with its opcode,
    registers and offset: relocations change immediates only.  An error in the file
    leaves the VM as it is; after an error of [ubpf_load] a VM that had code is as it
    was, and one that had none has none. *)
Theorem elf_loads_functions `{HostEnv} (data_relocation : Z -> Z -> Z -> Z -> Z -> Z -> Z -> Z) (elf_base : Z)
    (allocs : elf_allocs) (os : os_calls) (vm vm' : ubpf_vm) (elf : list Z) (main : option (list Z))
    (r : result unit (elf_error + load_error)) :
  os_sound os -> Forall byte_ok elf -> Z.of_nat (length elf) < 2 ^ 32 ->
  ubpf_load_elf_ex data_relocation elf_base allocs os vm elf main = Some (vm', r) ->
  match r with
  | Ok _ => exists sections strtab l f0 linked fs prog,
      links elf main sections strtab l f0 linked fs /\ vm.(insts) = 0 /\ loaded vm' prog /\
      (functions_aligned l -> relocations_aligned elf sections ->
       forall i f j inst, (f0 :: others_of l) !! i = Some f ->
         insts_of_bytes (bytes_at elf f.(native_data) (Z.to_nat f.(rf_size))) !! j = Some inst ->
         exists inst', prog !! (Z.to_nat (sizes (take i (f0 :: others_of l)) / 8) + j)%nat = Some inst' /\
           same_but_imm inst inst')
  | Err (inl e) => link_elf data_relocation elf_base allocs vm elf main = Some (Err e) /\ vm' = vm
  | Err (inr e) => (vm.(insts) <> 0 -> vm' = vm /\ e = AlreadyLoaded) /\ (vm.(insts) = 0 -> vm'.(insts) = 0)
  end.
Proof.
  intros Hos Hb Hlen. unfold ubpf_load_elf_ex.
  destruct (link_elf _ _ _ _ _ _) as [[program | e] |] eqn:Hlink; [| by intros [= <- <-] | discriminate].
  destruct (ubpf_load vm os program) as [[vm1 r1] |] eqn:E; [| discriminate]. cbn [mbind option_bind].
  destruct (load_result _ _ _ _ _ Hos E) as [_ Hr]. intros [= <- <-]. destruct r1 as [[] | e]; [| exact Hr].
  destruct Hr as [Hz Hld].
  destruct (link_elf_inv _ _ _ _ _ _ _ Hb Hlen Hlink) as (sections & strtab & l & f0 & n & linked & fs & Hlk & Hsz & Hlf & Hre).
  exists sections, strtab, l, f0, linked, fs, (insts_of_bytes program). split_and!; [done .. |].
  intros Hfa Hra i f j inst Hi Hj. eapply linked_instructions; done.
Qed.

Definition sample_loaded : ubpf_vm * result unit (elf_error + load_error) :=
  default (sample_vm, Ok tt)
    (@ubpf_load_elf_ex null_host sample_relocation 0x500000000 all_allocs test_os sample_vm sample_elf (Some main_name)).

Lemma sample_relocations_aligned : relocations_aligned sample_elf sample_sections.
Proof.
  intros s info applies_to Hs Hty _ _ _ j r Hj Hr. vm_compute in Hs.
  repeat (apply elem_of_cons in Hs as [-> | Hs]; [try (vm_compute in Hty; discriminate Hty) |]); [| by apply elem_of_nil in Hs].
  vm_compute in Hj. destruct j as [| [| [| j]]]; [vm_compute in Hr; injection Hr as <-; reflexivity .. | lia].
Qed.

Lemma elf_loads_functions_witness :
  exists prog inst', @loaded null_host sample_loaded.1 prog /\ prog !! 0%nat = Some inst' /\ inst'.(opcode) = 0x18.
Proof.
  destruct (@elf_loads_functions null_host sample_relocation 0x500000000 all_allocs test_os sample_vm sample_loaded.1 sample_elf
    (Some main_name) (Ok tt) test_os_sound) as (sections & strtab & l & f0 & linked & fs & prog & Hlk & _ & Hld & Hall).
  - apply byte_ok_check. vm_compute. reflexivity.
  - vm_compute. reflexivity.
  - vm_compute. reflexivity.
  - destruct Hlk as [(count & shoff & Hc & Ho & Hs) Hstr (symtab & Hsym & Hf) Hm _ _].
    assert (sections = sample_sections) as ->.
    { vm_compute in Hc. injection Hc as <-. vm_compute in Ho. injection Ho as <-. vm_compute in Hs. injection Hs as <-. reflexivity. }
    vm_compute in Hstr. injection Hstr as <-. vm_compute in Hsym. injection Hsym as <-. vm_compute in Hf. injection Hf as <-.
    vm_compute in Hm. injection Hm as <-.
    destruct (Hall ltac:(vm_compute; repeat constructor) sample_relocations_aligned 0%nat _ 0%nat (Inst 0x18 1 0 0 0) eq_refl)
      as (inst' & Hi & Ho' & _); [vm_compute; reflexivity |].
    exists prog, inst'. split; [exact Hld |]. split; [exact Hi | rewrite Ho'; reflexivity].
Defined.
