(* ===== verification/Lifecycle.v ===== *)
(** * Lifecycle: the calls of the library on one VM, in any order

    The public functions that change a VM as one step relation, the invariant every
    VM reached from [ubpf_create] satisfies, and with it the composition of the
    components: what [ubpf_load] accepts on such a VM, [ubpf_compile] compiles. *)

From Stdlib Require Import ZArith Lia Bool.
From stdpp Require Import base list gmap strings numbers relations.
From S2P Require Import Prelude Ebpf InstValid Mem Vm Validate Load Checks Interp SafeAlu SafeTags Safe JitSupport JitAsm JitLink JitProg.
From S2P Require Import Arm64Cost Arm64Trans Arm64Result.
From S2P Require Import X86Result Jit Elf.

Local Open Scope Z_scope.

(** ** The calls *)

Section Api.
Context `{HostEnv}.

(** One call, with any arguments and any results of the system calls it makes. *)
Inductive api_call : ubpf_vm -> ubpf_vm -> Prop :=
| ApiToggleBoundsCheck vm b : api_call vm (ubpf_toggle_bounds_check vm b).1
| ApiToggleBlinding vm b : api_call vm (ubpf_toggle_constant_blinding vm b).1
| ApiToggleUndefined vm b : api_call vm (ubpf_toggle_undefined_behavior_check vm b).1
| ApiToggleReadonly vm b : api_call vm (ubpf_toggle_readonly_bytecode vm b).1
| ApiErrorPrint vm f : api_call vm (ubpf_set_error_print vm f)
| ApiUnwindIndex vm idx : api_call vm (ubpf_set_unwind_function_index vm idx).1
| ApiPointerSecret vm s : api_call vm (ubpf_set_pointer_secret vm s).1
| ApiDataRelocation vm c f : api_call vm (ubpf_register_data_relocation vm c f).1
| ApiBoundsCheck vm c f : api_call vm (ubpf_register_data_bounds_check vm c f).1
| ApiInstructionLimit vm n : api_call vm (ubpf_set_instruction_limit vm n).1.1
| ApiStackUsage vm f c : api_call vm (ubpf_register_stack_usage_calculator vm f c).1
| ApiDebug vm c f : api_call vm (ubpf_register_debug_fn vm c f).1
| ApiCodeSize vm n : 0 <= n < 2 ^ 64 -> api_call vm (ubpf_set_jit_code_size vm n).1
| ApiSetRegisters vm regs : api_call vm (ubpf_set_registers vm regs)
| ApiProfile vm p : api_call vm (ubpf_set_execution_profile_impl vm p).1
| ApiRegister vm mprotect idx name fn : 0 <= idx -> api_call vm (ubpf_register vm mprotect idx name fn).1
| ApiDispatcher vm mprotect f v : api_call vm (ubpf_register_external_dispatcher vm mprotect f v).1
| ApiSafeHelper vm mprotect d : api_call vm (ubpf_register_safe_helper_impl vm mprotect d).1
| ApiSafeRegion vm r : api_call vm (ubpf_register_safe_region_impl vm r).1
| ApiLoad vm os code vm' r : os_sound os -> ubpf_load vm os code = Some (vm', r) -> api_call vm vm'
| ApiLoadElf vm relocation base allocs os elf main vm' r :
    os_sound os -> ubpf_load_elf_ex relocation base allocs os vm elf main = Some (vm', r) -> api_call vm vm'
| ApiUnload vm calloc_ok vm' : ubpf_unload_code vm calloc_ok = Some vm' -> api_call vm vm'
| ApiCompile vm env os errmsg mode vm' ptr msg log :
    ubpf_compile_ex env os vm errmsg mode = Some (vm', ptr, msg, log) -> api_call vm vm'
| ApiTranslate vm env buffer size errmsg mode vm' buffer' size' msg r :
    ubpf_translate_ex env vm buffer size errmsg mode = Some (vm', buffer', size', msg, r) -> api_call vm vm'
| ApiExec vm fuel args alloc garbage m : api_call vm (ubpf_exec_ex fuel vm args alloc garbage m).1.

(** The VMs the calls lead to. *)
Definition api_reaches : ubpf_vm -> ubpf_vm -> Prop := rtc api_call.

(** ** The invariant *)

(** The fields have the sizes and ranges the C types and the allocations give
    them, there is compiled code only with a program, and a program only with a
    stack-usage table. *)
Record vm_typed (target : jit_target) (vm : ubpf_vm) : Prop := VmTyped {
  vt_target : vm.(jit_functions) = target;
  vt_helpers : length vm.(ext_funcs) = 64%nat;
  vt_names : length vm.(ext_func_names) = 64%nat;
  vt_safe_helpers : length vm.(safe_helpers) = 64%nat;
  vt_safe_regions : length vm.(safe_regions) = 64%nat;
  vt_usages : usages_typed vm;
  vt_limit : signed_fits 32 vm.(instruction_limit);
  vt_unwind : signed_fits 32 vm.(unwind_stack_extension_index);
  vt_buffer : 0 <= vm.(jitter_buffer_size) < 2 ^ 64;
  vt_jitted : vm.(insts) = 0 -> vm.(jitted) = 0;
  vt_table : vm.(insts) <> 0 -> vm.(local_func_stack_usage) <> None;
  vt_code : vm.(insts) <> 0 -> 0 <= vm.(num_insts) < UBPF_MAX_INSTS /\ vm.(num_insts) <= Z.of_nat (length vm.(insts_data)) /\
    exists flags, vm.(int_funcs) = Some flags /\ Z.of_nat (length flags) = vm.(num_insts);
}.

(** What the invariant depends on. *)
Definition same_shape (vm vm' : ubpf_vm) : Prop :=
  vm'.(jit_functions) = vm.(jit_functions) /\ length vm'.(ext_funcs) = length vm.(ext_funcs) /\
  length vm'.(ext_func_names) = length vm.(ext_func_names) /\ length vm'.(safe_helpers) = length vm.(safe_helpers) /\
  length vm'.(safe_regions) = length vm.(safe_regions) /\ vm'.(local_func_stack_usage) = vm.(local_func_stack_usage) /\
  vm'.(instruction_limit) = vm.(instruction_limit) /\ vm'.(unwind_stack_extension_index) = vm.(unwind_stack_extension_index) /\
  vm'.(jitter_buffer_size) = vm.(jitter_buffer_size) /\ vm'.(insts) = vm.(insts) /\ vm'.(num_insts) = vm.(num_insts) /\
  vm'.(insts_data) = vm.(insts_data) /\ vm'.(int_funcs) = vm.(int_funcs).

Lemma same_shape_typed target vm vm' :
  vm_typed target vm -> same_shape vm vm' -> (vm.(insts) = 0 -> vm'.(jitted) = 0) -> vm_typed target vm'.
Proof.
  intros [? ? ? ? ? Hu ? ? ? ? ? ?] (E1 & E2 & E3 & E4 & E5 & E6 & E7 & E8 & E9 & E10 & E11 & E12 & E13) Hj.
  constructor; unfold usages_typed, usage_table in *; rewrite ?E1, ?E2, ?E3, ?E4, ?E5, ?E6, ?E7, ?E8, ?E9, ?E10, ?E11, ?E12, ?E13; done.
Qed.

Lemma update_jitted_shape vm mprotect update :
  same_shape vm (update_jitted vm mprotect update).1 /\ (update_jitted vm mprotect update).1.(jitted) = vm.(jitted).
Proof.
  unfold update_jitted. destruct (decide _); [| done]. destruct (negb _); [done |].
  destruct (update _); destruct (negb _); done.
Qed.

Lemma register_typed target vm mprotect idx name fn :
  vm_typed target vm -> vm_typed target (ubpf_register vm mprotect idx name fn).1.
Proof.
  intros Ht. unfold ubpf_register. destruct (_ <=? _); [done |].
  match goal with |- context [update_jitted ?v _ ?u] => destruct (update_jitted_shape v mprotect u) as [Hs Hj]; set (vm1 := v) in * end.
  eapply (same_shape_typed _ vm1); [| exact Hs | rewrite Hj].
  - eapply same_shape_typed; [exact Ht | | apply Ht]. unfold same_shape, vm1. cbn. rewrite !length_insert. done.
  - apply Ht.
Qed.

Lemma dispatcher_typed target vm mprotect f v :
  vm_typed target vm -> vm_typed target (ubpf_register_external_dispatcher vm mprotect f v).1.
Proof.
  intros Ht. unfold ubpf_register_external_dispatcher.
  match goal with |- context [update_jitted ?v _ ?u] => destruct (update_jitted_shape v mprotect u) as [Hs Hj]; set (vm1 := v) in * end.
  eapply (same_shape_typed _ vm1); [| exact Hs | rewrite Hj; apply Ht]. by eapply same_shape_typed; [exact Ht | | apply Ht].
Qed.

Lemma safe_helper_typed target vm mprotect d :
  vm_typed target vm -> vm_typed target (ubpf_register_safe_helper_impl vm mprotect d).1.
Proof.
  intros Ht. unfold ubpf_register_safe_helper_impl. destruct d as [d |]; [| done]. destruct (_ || _); [done |].
  destruct (result_kind_of _); [| done]. destruct (_ && _); [done |]. destruct (_ && _); [done |].
  pose proof (register_typed target vm mprotect d.(hd_index) d.(hd_name) d.(hd_fn) Ht) as Hr.
  destruct (ubpf_register _ _ _ _ _) as [vm1 r]. cbn [fst] in Hr. destruct (negb _); [done |]. cbn [fst].
  eapply same_shape_typed; [exact Hr | | apply Hr]. unfold same_shape. cbn. by rewrite length_insert.
Qed.

Lemma safe_region_typed target vm r : vm_typed target vm -> vm_typed target (ubpf_register_safe_region_impl vm r).1.
Proof.
  intros Ht. unfold ubpf_register_safe_region_impl. destruct r as [r |]; [| done]. destruct (region_kind_of _); [| done].
  do 4 (destruct (_ : bool); [done |]). destruct (region_slot _ _ _ _); [| done].
  eapply same_shape_typed; [exact Ht | | apply Ht]. unfold same_shape. cbn. by rewrite length_insert.
Qed.

(** *** Loading *)

Lemma load_loop_usages source i vm vm' :
  load_loop vm i source = Some vm' -> vm'.(local_func_stack_usage) = vm.(local_func_stack_usage).
Proof.
  revert i vm; induction source as [| inst source IH]; intros i vm; cbn [load_loop]; [by intros [= <-] |].
  destruct (is_local_call inst); [| intros E%IH; exact E].
  destruct (int_funcs vm); [| done]. destruct (_ <? _); [| done]. intros E%IH. exact E.
Qed.

Lemma load_store_usages vm os n source vm' r :
  load_store vm os n source = Some (vm', r) -> vm'.(local_func_stack_usage) = vm.(local_func_stack_usage).
Proof.
  unfold load_store. destruct (negb _); [by intros [= <-] |].
  destruct (load_loop _ _ _) as [vm1 |] eqn:E; [| done]. apply load_loop_usages in E. cbn [mbind option_bind].
  destruct (_ && _); intros [= <-]; exact E.
Qed.

Lemma load_allocate_usages vm os n : (load_allocate vm os n).1.(local_func_stack_usage) = vm.(local_func_stack_usage).
Proof. unfold load_allocate. destruct (readonly_bytecode_enabled vm); [destruct (os_mmap _ _) | destruct (os_malloc _ _)]; done. Qed.

Lemma load_usages vm os code vm' r :
  ubpf_load vm os code = Some (vm', r) ->
  (usages_typed vm -> usages_typed vm') /\ (vm.(local_func_stack_usage) <> None -> vm'.(local_func_stack_usage) <> None).
Proof.
  unfold ubpf_load. destruct (negb _); [by intros [= <-] |]. destruct (negb _); [by intros [= <-] |].
  destruct (negb _); [by intros [= <-] |]. destruct (_ && bool_decide _); [done |].
  pose proof (validate_extends vm os.(os_validate_calloc_ok) (insts_of_bytes code)) as (_ & _ & Hx & Hn).
  destruct (validate _ _ _) as [vm1 [[] | e]]; cbn [fst] in Hx, Hn; [| by intros [= <- _]].
  pose proof (load_allocate_usages vm1 os (Z.of_nat (length code))) as Ha.
  destruct (load_allocate _ _ _) as [vm2 ok]. cbn [fst] in Ha. unfold usages_typed, usage_table in *.
  destruct ok; cbn [negb]; [intros E%load_store_usages | intros [= <- _]]; rewrite ?E, Ha; auto.
Qed.

Lemma forget_code_fields vm vm' :
  forget_code vm' = forget_code vm ->
  vm'.(jit_functions) = vm.(jit_functions) /\ vm'.(ext_funcs) = vm.(ext_funcs) /\ vm'.(ext_func_names) = vm.(ext_func_names) /\
  vm'.(safe_helpers) = vm.(safe_helpers) /\ vm'.(safe_regions) = vm.(safe_regions) /\
  vm'.(instruction_limit) = vm.(instruction_limit) /\ vm'.(unwind_stack_extension_index) = vm.(unwind_stack_extension_index) /\
  vm'.(jitter_buffer_size) = vm.(jitter_buffer_size) /\ vm'.(jitted) = vm.(jitted) /\
  vm'.(execution_profile) = vm.(execution_profile) /\ vm'.(jitted_result) = vm.(jitted_result).
Proof. unfold forget_code. destruct vm, vm'. cbn. intros [=]. subst. split_and!; reflexivity. Qed.

Lemma load_typed target vm os code vm' r :
  os_sound os -> ubpf_load vm os code = Some (vm', r) -> vm_typed target vm -> vm_typed target vm'.
Proof.
  intros Hos E Ht. destruct (load_usages _ _ _ _ _ E) as [Hu Hn]. specialize (Hu (vt_usages _ _ Ht)).
  pose proof (load_table _ _ _ _ _ E) as Htab. destruct (load_result vm os code vm' r Hos E) as [Hfc Hr].
  destruct (forget_code_fields _ _ Hfc) as (E1 & E2 & E3 & E4 & E5 & E6 & E7 & E8 & E9 & _).
  destruct r as [[] | e].
  - destruct Hr as [Hz Hld]. destruct Ht. constructor; rewrite ?E1, ?E2, ?E3, ?E4, ?E5, ?E6, ?E7, ?E8, ?E9; try done.
    { intros Hz'. by destruct (ld_insts _ _ Hld). }
    { intros _. apply Hn, Htab. by left. }
    intros _. destruct (ld_int_funcs _ _ Hld) as (flags & Ef & Hl & _). pose proof (vd_length _ _ (ld_validated _ _ Hld)) as Hlen.
    pose proof (ld_num_insts _ _ Hld) as Hnum. split; [lia |]. split; [| exists flags; split; [done | lia]].
    destruct (decide (vm'.(num_insts) = 0)); [lia |].
    pose proof (ld_fetch _ _ Hld (vm'.(num_insts) - 1) ltac:(lia)) as Hf.
    destruct (lookup_lt_is_Some_2 (insts_of_bytes code) (Z.to_nat (vm'.(num_insts) - 1)) ltac:(lia)) as [x Hx].
    rewrite Hx in Hf. apply fmap_Some in Hf as (w & Hw & _). apply lookup_lt_Some in Hw. lia.
  - destruct Hr as [H1 H2]. destruct (decide (vm.(insts) = 0)) as [Hz | Hz].
    + specialize (H2 Hz). destruct Ht. constructor; rewrite ?E1, ?E2, ?E3, ?E4, ?E5, ?E6, ?E7, ?E8, ?E9; done || auto.
    + by destruct (H1 Hz) as [-> _].
Qed.

Lemma unload_typed target vm ok vm' : ubpf_unload_code vm ok = Some vm' -> vm_typed target vm -> vm_typed target vm'.
Proof.
  unfold ubpf_unload_code. intros E [? ? ? ? ? _ ? ? ? _ _ _].
  set (vm1 := if negb (jitted _ =? 0) then _ else _) in E.
  assert (forget_code vm1 = forget_code (set_jitted_size vm1.(jitted_size) (set_jitted_code vm1.(jitted_code) (set_jitted 0 vm))) /\
    vm1.(insts) = vm.(insts) /\ usage_table vm1 = ∅) as (Hf & Hi & Hu).
  { unfold vm1. cbn [jitted set_local_func_stack_usage]. destruct (Z.eqb_spec vm.(jitted) 0) as [Ej |]; cbn [negb]; [| split; [done |]; split; [done | by destruct ok]].
    split; [unfold forget_code; destruct vm; cbn in *; by subst |]. split; [done |]. by destruct ok. }
  destruct (forget_code_fields _ _ Hf) as (E1 & E2 & E3 & E4 & E5 & E6 & E7 & E8 & E9 & _). cbn in E1, E2, E3, E4, E5, E6, E7, E8, E9.
  clearbody vm1. assert (exists vm2, vm' = set_int_funcs None vm2 /\ forget_code vm2 = forget_code vm1 /\ vm2.(insts) = 0 /\
    usage_table vm2 = ∅) as (vm2 & -> & Hf2 & Hz & Hu2).
  { destruct (Z.eqb_spec vm1.(insts) 0); cbn [negb mbind option_bind] in E.
    - injection E as <-. by exists vm1.
    - destruct (insts_owner vm1), (readonly_bytecode_enabled vm1); cbn [mbind option_bind] in E; try discriminate;
        injection E as <-; eexists; (split; [reflexivity |]); done. }
  destruct (forget_code_fields _ _ Hf2) as (G1 & G2 & G3 & G4 & G5 & G6 & G7 & G8 & G9 & _).
  constructor; cbn; rewrite ?G1, ?G2, ?G3, ?G4, ?G5, ?G6, ?G7, ?G8, ?G9, ?E1, ?E2, ?E3, ?E4, ?E5, ?E6, ?E7, ?E8, ?E9; try done.
  unfold usages_typed. change (usage_table (set_int_funcs None vm2)) with (usage_table vm2). rewrite Hu2. apply map_Forall_empty.
Qed.

(** *** Compiling and running *)

Lemma translate_shape env vm buffer size errmsg mode vm' buffer' size' msg r :
  ubpf_translate_ex env vm buffer size errmsg mode = Some (vm', buffer', size', msg, r) ->
  same_shape vm vm' /\ vm'.(jitted) = vm.(jitted).
Proof.
  unfold ubpf_translate_ex. destruct (decide _); [by intros [= <-] |].
  destruct (jit_translate _ _ _ _ _ _) as [[[[res e] b] s] |]; [| done]. by intros [= <-].
Qed.

Lemma same_shape_trans vm vm' vm'' : same_shape vm vm' -> same_shape vm' vm'' -> same_shape vm vm''.
Proof. unfold same_shape. intros. intuition congruence. Qed.

Lemma compile_typed target env os vm errmsg mode vm' ptr msg log :
  ubpf_compile_ex env os vm errmsg mode = Some (vm', ptr, msg, log) -> vm_typed target vm -> vm_typed target vm'.
Proof.
  intros E Ht. assert (same_shape vm vm' /\ (vm.(insts) = 0 -> vm'.(jitted) = 0)) as [Hs Hj]; [| by eapply same_shape_typed].
  pose proof (vt_jitted _ _ Ht) as Hz. revert E. unfold ubpf_compile_ex, compile_out. destruct (decide _); [by intros [= <-] |].
  destruct (_ && _ && _); [by intros [= <-] |]. fold (without_code vm).
  set (p := if negb (jitted vm =? 0) then _ else _).
  assert (same_shape vm p.1 /\ p.1.(jitted) = 0) as [Hs1 Hj1].
  { unfold p. destruct (Z.eqb_spec vm.(jitted) 0); done. }
  destruct p as [vm1 log1]. cbn [fst] in *. assert (vm1.(insts) = vm.(insts)) as Ei by apply Hs1. rewrite Ei.
  destruct (Z.eqb_spec vm.(insts) 0) as [| Hne]; [by intros [= <-] |]. destruct (negb _); [by intros [= <-] |].
  destruct (ubpf_translate_ex _ _ _ _ _ _) as [[[[[vm2 b] sz] m] r] |] eqn:Et; [| done].
  apply translate_shape in Et as [Hs2 Hj2]. pose proof (same_shape_trans _ _ _ Hs1 Hs2) as Hs3. cbn [mbind option_bind].
  destruct (r <? 0); [by intros [= <-] |]. destruct (os_map os sz); [| by intros [= <-]]. destruct (_ <? _); [done |].
  destruct (negb _); by intros [= <-].
Qed.

Lemma exec_typed target vm fuel args alloc garbage m :
  vm_typed target vm -> vm_typed target (ubpf_exec_ex fuel vm args alloc garbage m).1.
Proof.
  intros Ht. assert (vm_typed target (set_execution_started true vm)) as Hs by (by eapply same_shape_typed; [exact Ht | | apply Ht]).
  unfold ubpf_exec_ex, ubpf_exec_ex_safe, ubpf_exec_ex_legacy. destruct (decide _), (_ =? 0); try done.
  - destruct (_ && _); [done |]. by destruct (negb _).
  - by destruct (_ && _).
Qed.

(** *** The invariant is kept by every call *)

Lemma api_call_typed target vm vm' : api_call vm vm' -> vm_typed target vm -> vm_typed target vm'.
Proof.
  intros Hc Ht. destruct Hc;
    try (by eapply same_shape_typed; [exact Ht | | apply Ht]);
    try (unfold ubpf_set_error_print, ubpf_set_unwind_function_index, ubpf_set_pointer_secret, ubpf_register_data_relocation,
           ubpf_register_data_bounds_check, ubpf_register_debug_fn;
         destruct (_ : bool); by eapply same_shape_typed; [exact Ht | | apply Ht]).
  - unfold ubpf_set_unwind_function_index. destruct (negb _); [done |]. destruct Ht. constructor; try done. apply sext_range. lia.
  - destruct Ht. constructor; try done. apply sext_range. lia.
  - destruct Ht. by constructor.
  - unfold ubpf_set_execution_profile_impl. destruct (profile_of p); [| done].
    destruct (_ || _); [done |]. by eapply same_shape_typed; [exact Ht | | apply Ht].
  - by apply register_typed.
  - by apply dispatcher_typed.
  - by apply safe_helper_typed.
  - by apply safe_region_typed.
  - by eapply load_typed.
  - unfold ubpf_load_elf_ex in *. destruct (link_elf _ _ _ _ _ _) as [[program | e] |]; [| by simplify_eq | done].
    destruct (ubpf_load vm os program) as [[vm2 r2] |] eqn:El; [| done]. cbn [mbind option_bind] in *. simplify_eq. by eapply load_typed.
  - by eapply unload_typed.
  - by eapply compile_typed.
  - match goal with H : ubpf_translate_ex _ _ _ _ _ _ = _ |- _ => apply translate_shape in H as [Hs Hj] end.
    eapply same_shape_typed; [exact Ht | exact Hs | rewrite Hj; apply Ht].
  - by apply exec_typed.
Qed.

Lemma created_typed target alloc vm : ubpf_create target alloc = Some vm -> vm_typed target vm.
Proof.
  unfold ubpf_create. do 4 (destruct (negb _); [done |]). intros [= <-].
  by constructor; cbn; rewrite ?length_replicate.
Qed.

Lemma reached_typed target alloc vm vm' : ubpf_create target alloc = Some vm -> api_reaches vm vm' -> vm_typed target vm'.
Proof.
  intros Hc%created_typed Hr. induction Hr as [| vm1 vm2 vm3 H1 _ IH]; [done |]. apply IH. by eapply api_call_typed.
Qed.
End Api.

(** ** Compiling what was loaded *)

(** The buffers in which a program is sure to be compiled. *)
Definition buffer_fits (target : jit_target) (prog : list ebpf_inst) (size : Z) : Prop :=
  match target with
  | JitX86_64 =>
      672 + 160 * Z.of_nat (length prog) <= size /\ size + 16 < 2 ^ 32 /\ 3 + 5 * Z.of_nat (length prog) <= UBPF_MAX_INSTS
  | JitArm64 => 612 + 232 * Z.of_nat (length prog) <= size <= ARM_CODE_LIMIT
  | JitNull => False
  end.

(** The system calls and allocations of a compilation succeed. *)
Record jit_allowed (env : jit_env) (os : jit_os) (size : Z) : Prop := JitAllowed {
  ja_map : length env.(env_register_map) = 11%nat;
  ja_alloc : forall k, env.(env_alloc) k = true;
  ja_calloc : os.(Jit.os_calloc_ok) = true;
  ja_mmap : forall n, 0 < n <= size -> exists address, os.(os_map) n = Some address /\ 0 < address /\ address + n < 2 ^ 64;
  ja_protect : forall address n, os.(os_protect) address n = true;
}.

Lemma loaded_compiles `{HostEnv} target env os vm prog errmsg mode :
  vm_typed target vm -> loaded vm prog -> vm.(jitted) = 0 -> vm.(execution_profile) <> UBPF_EXECUTION_PROFILE_SAFE ->
  buffer_fits target prog vm.(jitter_buffer_size) -> jit_allowed env os vm.(jitter_buffer_size) ->
  exists vm' address log, ubpf_compile_ex env os vm errmsg mode = Some (vm', address, None, log) /\
    0 < address /\ vm'.(jitted) = address /\ code_matches vm' /\ loaded vm' prog.
Proof.
  intros Ht Hld Hj Hp Hb [Hm Ha Hc Hmap Hpr].
  assert (Z.of_nat (length vm.(ext_funcs)) = MAX_EXT_FUNCS) as Hh by (rewrite (vt_helpers _ _ Ht); done).
  assert (Z.of_nat (length (replicate (Z.to_nat vm.(jitter_buffer_size)) 0)) = vm.(jitter_buffer_size)) as Hl
    by (rewrite length_replicate; pose proof (vt_buffer _ _ Ht); lia).
  assert (cached vm mode = false) as Hca by (unfold cached; by rewrite Hj).
  assert (exists (BE : BackEnd target), jit_ready (BE := BE) env os vm prog) as [BE Hr].
  { destruct target; [exists x86_back_end | exists arm_back_end | done]; constructor; try done; try apply Ht;
      (constructor; rewrite ?Hl; try done; try apply Hb; apply Ht). }
  destruct (compile_ready env os vm prog errmsg mode Hr Hca) as (vm' & a & sz & E & Ea & Hpos & _ & Hcm & _ & Hld').
  by exists vm', a, (drop_log vm ++ [Mapped a sz]).
Qed.

(** ** Properties *)

(** C14: every VM that the calls of the library lead to from [ubpf_create], in any order
    and with any results of the system calls (the unchecked [calloc] of an unload
    included), has its type: the tables of helper functions, names, safe helpers and
    safe regions have their 64 entries, the sizes, limits and indices are in the range
    of their C types, every cached stack usage is a [uint16_t], a VM without a program
    has no compiled code, and one with a program has its stack-usage table, and an
    instruction array and function marks of its length.  A VM without a program may
    have lost its stack-usage table, to an unload that could not allocate it. *)
Theorem api_keeps_vm_typed `{HostEnv} (target : jit_target) (alloc : nat -> bool) (vm vm' : ubpf_vm) :
  ubpf_create target alloc = Some vm -> api_reaches vm vm' -> vm_typed target vm'.
Proof. apply reached_typed. Qed.

Lemma api_keeps_vm_typed_witness :
  length (ubpf_register (created_on JitArm64) (fun _ _ _ => true) 3 None 4096).1.(ext_funcs) = 64%nat.
Proof.
  apply (vt_helpers JitArm64). eapply (@api_keeps_vm_typed null_host JitArm64 (fun _ => true)); [reflexivity |].
  apply rtc_once. apply (ApiRegister (created_on JitArm64) (fun _ _ _ => true) 3 None 4096). lia.
Defined.

(** C15: the composition of loading and compiling: on a VM the calls of the library
    lead to whose execution profile is not the safe one, a program [ubpf_load] accepts
    is compiled by [ubpf_compile_ex] on both targets, when the configured buffer size
    is in the range for its length and the system calls and allocations succeed: the call returns the address of executable code that holds
    the VM's dispatcher and helpers, and the program is still loaded. *)
Theorem api_load_then_compile `{HostEnv} (target : jit_target) (alloc : nat -> bool) (vm0 vm vm1 : ubpf_vm) (los : os_calls)
    (code : list Z) (env : jit_env) (os : jit_os) (errmsg : option jit_error) (mode : JitMode) :
  ubpf_create target alloc = Some vm0 -> api_reaches vm0 vm -> os_sound los -> ubpf_load vm los code = Some (vm1, Ok tt) ->
  vm.(execution_profile) <> UBPF_EXECUTION_PROFILE_SAFE ->
  buffer_fits target (insts_of_bytes code) vm.(jitter_buffer_size) -> jit_allowed env os vm.(jitter_buffer_size) ->
  exists vm2 address log, ubpf_compile_ex env os vm1 errmsg mode = Some (vm2, address, None, log) /\
    0 < address /\ vm2.(jitted) = address /\ code_matches vm2 /\ loaded vm2 (insts_of_bytes code).
Proof.
  intros Hc Hr Hos Hl Hp Hb Ha. pose proof (reached_typed _ _ _ _ Hc Hr) as Ht. pose proof (load_typed _ _ _ _ _ _ Hos Hl Ht) as Ht1.
  destruct (load_result vm los code vm1 (Ok tt) Hos Hl) as [Hfc [Hz Hld]].
  destruct (forget_code_fields _ _ Hfc) as (_ & _ & _ & _ & _ & _ & _ & E8 & E9 & E10 & _).
  apply (loaded_compiles target); rewrite ?E8, ?E9, ?E10; try done. by apply Ht.
Qed.

Lemma api_load_then_compile_witness :
  exists vm2 address log, ubpf_compile_ex test_env test_jit_os arm_vm None BasicJitMode = Some (vm2, address, None, log) /\
    0 < address.
Proof.
  destruct (@api_load_then_compile null_host JitArm64 (fun _ => true) (created_on JitArm64) (created_on JitArm64) arm_vm test_os
    jit_code test_env test_jit_os None BasicJitMode) as (vm2 & address & log & E & Ha & _).
  - reflexivity.
  - constructor.
  - apply test_os_sound.
  - vm_compute. reflexivity.
  - vm_compute. congruence.
  - vm_compute. split; congruence.
  - constructor; [reflexivity | reflexivity | reflexivity | | reflexivity]. intros n Hn. exists 65536.
    split; [reflexivity |]. change (jitter_buffer_size (created_on JitArm64)) with 65536 in Hn. lia.
  - exists vm2, address, log. split; [exact E | exact Ha].
Defined.
