(* ===== verification/Plugin.v ===== *)
(** * Plugin: the conformance-test plugin and its helpers

    ubpf_plugin/ubpf_plugin.cc runs one program given as hexadecimal text; the
    fuzzer and the conformance suite start it as a process.  Modelled here: the
    text format (with its printer, [bytes_to_hex_string] of
    libfuzzer/libfuzz_harness.cc), the argument list, the helpers of
    ubpf_plugin/test_helpers.h as an embedder of the VM, and [main].

    A C++ string is a list of characters.  The mathematics and string libraries
    are the record [c_library]; the machine code that [main] calls when it was
    asked for the JIT is an argument. *)

From Stdlib Require Import ZArith Lia Bool Ascii String.
From stdpp Require Import base list gmap strings numbers.
From S2P Require Import Prelude Ebpf InstValid Mem Vm Validate Load Alu Checks Interp InterpSound SafeTags Safe Jit.

Local Open Scope Z_scope.
Local Open Scope cbits_scope.

(** ** Text *)

Abbreviation text := (list ascii).

Definition text_of (s : string) : text := Strings.String.list_ascii_of_string s.
Definition char_code (c : ascii) : Z := Z.of_N (N_of_ascii c).
Definition char_of (z : Z) : ascii := ascii_of_N (Z.to_N z).

Definition SPACE : ascii := char_of 32.

(** [std::hex] prints lower-case digits. *)
Definition hex_digit (d : Z) : ascii := char_of (if d <? 10 then 48 + d else 87 + d).

Definition hex_value (c : ascii) : option Z :=
  let z := char_code c in
  if (48 <=? z) && (z <=? 57) then Some (z - 48)
  else if (97 <=? z) && (z <=? 102) then Some (z - 87)
  else if (65 <=? z) && (z <=? 70) then Some (z - 55)
  else None.

(** [isspace] *)
Definition is_space (c : ascii) : bool :=
  let z := char_code c in (z =? 32) || ((9 <=? z) && (z <=? 13)).

Fixpoint skip_spaces (s : text) : text :=
  match s with
  | c :: s' => if is_space c then skip_spaces s' else s
  | [] => []
  end.

(** The digits at the head of [s], read after [acc]; [None] when there are none. *)
Fixpoint read_digits (acc : option Z) (s : text) : option Z :=
  match s with
  | c :: s' =>
      match hex_value c with
      | Some d => read_digits (Some (16 * default 0 acc + d)) s'
      | None => acc
      end
  | [] => acc
  end.

(** [0x] is a prefix when a digit follows, else the digit zero. *)
Definition skip_prefix (s : text) : text :=
  match s with
  | c0 :: c1 :: c2 :: s' =>
      if (char_code c0 =? 48) && ((char_code c1 =? 120) || (char_code c1 =? 88)) &&
         bool_decide (is_Some (hex_value c2))
      then c2 :: s' else s
  | _ => s
  end.

(** [std::stoi(value, nullptr, 16)]: [None] when it throws, on a string without
    digits or on a number that is not an [int]. *)
Definition stoi16 (s : text) : option Z :=
  let s := skip_spaces s in
  let '(negative, s) :=
    match s with
    | c :: s' => if char_code c =? 45 then (true, s') else if char_code c =? 43 then (false, s') else (false, s)
    | [] => (false, [])
    end in
  v ← read_digits None (skip_prefix s);
  let v := if (negative : bool) then - v else v in
  if (INT32_MIN <=? v) && (v <=? INT32_MAX) then Some v else None.

(** [while (std::getline(ss, value, ' '))]: the values in turn; [cur] holds the
    characters of the current one in reverse.  What follows the last blank counts
    only when it is not empty. *)
Fixpoint getline_all (cur : text) (s : text) : list text :=
  match s with
  | [] => if bool_decide (cur = []) then [] else [rev cur]
  | c :: s' => if bool_decide (c = SPACE) then rev cur :: getline_all [] s' else getline_all (c :: cur) s'
  end.

(** Values [stoi] throws on are ignored, the others cut to a byte. *)
Definition base16_decode (input : text) : list Z :=
  u8 <$> omap stoi16 (getline_all [] input).

(** [std::setw(2) << std::setfill('0')] of a byte, blanks in between. *)
Definition hex_byte (b : Z) : text := [hex_digit (b / 16); hex_digit (b mod 16)].

Fixpoint bytes_to_hex_from (bytes : list Z) : text :=
  match bytes with
  | [] => []
  | b :: bytes' => SPACE :: hex_byte b ++ bytes_to_hex_from bytes'
  end.

Definition bytes_to_hex_string (bytes : list Z) : text :=
  match bytes with
  | [] => []
  | b :: bytes' => hex_byte b ++ bytes_to_hex_from bytes'
  end.

(** The vector has room for the whole instructions only, [memcpy] copies every
    byte: [None] is the write past its end. *)
Definition bytes_to_ebpf_inst (bytes : list Z) : option (list ebpf_inst) :=
  if Z.of_nat (length bytes) mod 8 =? 0 then Some (insts_of_bytes bytes) else None.

(** ** The helpers of test_helpers.h *)

Record c_library : Type := CLibrary {
  c_sqrt : Z -> Z;  (* std::sqrt of an integer, cut to an integer *)
  c_strcmp : Z -> Z -> memory -> option Z;  (* strcmp, an int; None: it reads an unmapped byte *)
}.

Definition gather_bytes (a b c d e : Z) : Z :=
  ((a .& 0xff) .<< 32) .| ((b .& 0xff) .<< 24) .| ((c .& 0xff) .<< 16) .| ((d .& 0xff) .<< 8) .| (e .& 0xff).

(** [p[i] ^= 42] for [n] bytes; [None]: a byte is not mapped. *)
Fixpoint memfrob_bytes (m : memory) (p : Z) (n : nat) : option memory :=
  match n with
  | O => Some m
  | S n' => b ← m !! p; memfrob_bytes (<[p := b .^ 42]> m) (p + 1) n'
  end.

Section Helpers.
Variable lib : c_library.

(** [helper_functions]: the map from an index to its function. *)
Definition helper_functions (idx : Z) : option (Z -> Z -> Z -> Z -> Z -> memory -> option (Z * memory)) :=
  if idx =? 0 then Some (fun a b c d e m => Some (gather_bytes a b c d e, m))
  else if idx =? 1 then Some (fun a b _ _ _ m => m' ← memfrob_bytes m a (Z.to_nat b); Some (0, m'))
  else if idx =? 2 then Some (fun _ _ _ _ _ m => Some (0, m))
  else if idx =? 3 then Some (fun a _ _ _ _ m => Some (u64 (lib.(c_sqrt) a), m))
  else if idx =? 4 then Some (fun a b _ _ _ m => v ← lib.(c_strcmp) a b m; Some (u64 v, m))
  else if idx =? 5 then Some (fun a _ _ _ _ m => Some (a, m))
  else None.

Definition helper_indices : list Z := [0; 1; 2; 3; 4; 5].

(** A call of helper [idx]; [None] is undefined: the helper touches memory that is not
    mapped, or there is none (the map's [operator[]] gives NULL). *)
Definition call_test_helper (idx a b c d e : Z) (m : memory) : option (Z * memory) :=
  f ← helper_functions idx; f a b c d e m.

Definition test_helpers_dispatcher (p0 p1 p2 p3 p4 idx cookie : Z) (m : memory) : option (Z * memory) :=
  call_test_helper idx p0 p1 p2 p3 p4 m.

Definition test_helpers_validater (idx : Z) : bool := bool_decide (is_Some (helper_functions idx)).

(** Where the functions are in the address space of the process. *)
Record plugin_image : Type := PluginImage {
  helper_at : Z -> Z;
  dispatcher_at : Z;
  validater_at : Z;
}.

Record image_ok (img : plugin_image) : Prop := ImageOk {
  io_helpers : forall i, i ∈ helper_indices -> img.(helper_at) i <> 0;
  io_distinct : forall i j, i ∈ helper_indices -> j ∈ helper_indices -> img.(helper_at) i = img.(helper_at) j -> i = j;
  io_dispatcher : img.(dispatcher_at) <> 0;
  io_validater : img.(validater_at) <> 0;
}.

(** The helper whose code is at [fn]. *)
Definition helper_index (img : plugin_image) (fn : Z) : Z :=
  default (-1) (snd <$> list_find (fun i => img.(helper_at) i = fn) helper_indices).

Definition plugin_host (img : plugin_image) : HostEnv := {|
  call_helper fn a b c d e cookie m := call_test_helper (helper_index img fn) a b c d e m;
  call_dispatcher fn a b c d e idx cookie m := test_helpers_dispatcher a b c d e idx cookie m;
  call_validate fn idx vm := test_helpers_validater idx;
  call_bounds_check _ _ _ _ _ := false;
  call_stack_usage _ _ _ _ := 0;
  call_debug _ _ _ _ _ _ _ _ m := m;
  host_granted _ := False;
|}.

End Helpers.

(** [register_safe_helpers]: a descriptor per entry, until one is refused. *)
Fixpoint register_safe_helpers (img : plugin_image) (mprotect : Z -> Z -> prot -> bool) (keys : list Z) (vm : ubpf_vm)
    : ubpf_vm * Z :=
  match keys with
  | [] => (vm, 0)
  | key :: keys' =>
      let '(vm, r) := ubpf_register_safe_helper_impl vm mprotect
                        (Some (HelperDescriptor key (Some "unnamed"%string) (img.(helper_at) key) 0 0 0)) in
      if negb (r =? 0) then (vm, -1) else register_safe_helpers img mprotect keys' vm
  end.

(** The loop of [main] that registers the helpers one by one. *)
Fixpoint register_helpers (img : plugin_image) (mprotect : Z -> Z -> prot -> bool) (keys : list Z) (vm : ubpf_vm)
    : ubpf_vm * Z :=
  match keys with
  | [] => (vm, 0)
  | key :: keys' =>
      let '(vm, r) := ubpf_register vm mprotect key (Some "unnamed"%string) (img.(helper_at) key) in
      if negb (r =? 0) then (vm, 1) else register_helpers img mprotect keys' vm
  end.

(** [ubpf_register_external_dispatcher(vm, nullptr, ...)], then the helpers. *)
Definition use_indexed_helpers (img : plugin_image) (mprotect : Z -> Z -> prot -> bool) (vm : ubpf_vm) : ubpf_vm * Z :=
  register_helpers img mprotect helper_indices
    (ubpf_register_external_dispatcher vm mprotect 0 img.(validater_at)).1.

(** ** The argument list *)

Inductive plugin_failure : Type :=
| MissingProgram | MissingProfile | InvalidProfile | InvalidArguments
| NoVm | ProfileRefused | SafeHelperRefused | UnwindIndexRefused | LoadFailed (e : load_error)
| CompileFailed | HelperRefused | CopyFailed | ExtendedCompileFailed | ExecFailed | NoExternalStack
| ResultsDiffer.

Record plugin_options : Type := PluginOptions {
  opt_jit : bool;
  opt_profile : ubpf_execution_profile;
  opt_program : text;
  opt_memory : text;
}.

Definition starts_with_dashes (s : text) : bool :=
  match s with c0 :: c1 :: _ => (char_code c0 =? 45) && (char_code c1 =? 45) | _ => false end.

Definition is_arg (a : text) (s : string) : bool := bool_decide (a = text_of s).

(** [while (args.size() > 0 && args[0].starts_with("--"))]: the options and the
    arguments that are left. *)
Fixpoint parse_options (args : list text) (o : plugin_options) : result (plugin_options * list text) plugin_failure :=
  match args with
  | [] => Ok (o, [])
  | a :: rest =>
      if negb (starts_with_dashes a) then Ok (o, args)
      else if is_arg a "--program" then
        match rest with
        | [] => Err MissingProgram
        | p :: rest' => parse_options rest' (PluginOptions o.(opt_jit) o.(opt_profile) p o.(opt_memory))
        end
      else if is_arg a "--jit" then
        parse_options rest (PluginOptions true o.(opt_profile) o.(opt_program) o.(opt_memory))
      else if is_arg a "--interpret" then
        parse_options rest (PluginOptions false o.(opt_profile) o.(opt_program) o.(opt_memory))
      else if is_arg a "--profile" then
        match rest with
        | [] => Err MissingProfile
        | p :: rest' =>
            if is_arg p "safe" then
              parse_options rest'
                (PluginOptions o.(opt_jit) UBPF_EXECUTION_PROFILE_SAFE o.(opt_program) o.(opt_memory))
            else if negb (is_arg p "legacy") then Err InvalidProfile
            else parse_options rest' o
        end
      else if is_arg a "--debug" then parse_options rest o
      else Ok (o, args)
  end.

(** The arguments behind the name of the program. *)
Definition parse_args (args : list text) : result plugin_options plugin_failure :=
  let '(memory, args) :=
    match args with
    | a :: rest => if negb (starts_with_dashes a) then (a, rest) else ([], args)
    | [] => ([], [])
    end in
  match parse_options args (PluginOptions false UBPF_EXECUTION_PROFILE_LEGACY [] memory) with
  | Err e => Err e
  | Ok (o, (_ :: _) :: _) => Err InvalidArguments
  | Ok (o, _) => Ok o
  end.

(** ** main *)

Inductive plugin_end : Type :=
| Prints (value : Z)  (* exit code 0 *)
| Reports (why : plugin_failure)  (* exit code 1 or -1 *)
| PluginUndefined
| StillRunning.  (* the fuel of a run ran out *)

(** What one run of the interpreter meets: its fuel, the contents of the register
    file, the address of its stack, the answers to its allocations. *)
Record run_env : Type := RunEnv {
  run_fuel : nat;
  run_garbage : list Z;
  run_stack : Z;
  run_alloc : nat -> bool;
}.

(** The process: its image, the VM the platform selects, the answers of the
    system to each call, the address of the vector [usable_program_memory], the
    machine. *)
Record plugin_env : Type := PluginEnv {
  pe_library : c_library;
  pe_image : plugin_image;
  pe_target : jit_target;
  pe_stdin : text;
  pe_blinding : option text;  (* UBPF_ENABLE_CONSTANT_BLINDING *)
  pe_create : nat -> bool;
  pe_load : os_calls;
  pe_mprotect : Z -> Z -> prot -> bool;
  pe_vector : Z;
  pe_runs : nat -> run_env;
  pe_calloc_ok : bool;  (* the external stack *)
  pe_jit : nat -> jit_env * jit_os;
  pe_copy : Z;  (* mmap of the copy *)
  (* a call of compiled code: its bytes, where they are, memory, length, stack *)
  pe_native : list Z -> Z -> Z -> Z -> option (Z * Z) -> memory -> Z * memory;
}.

(** [memcpy] into a buffer the process owns. *)
Definition place (a : Z) (bytes : list Z) (m : memory) : memory :=
  list_to_map (imap (fun i b => (a + Z.of_nat i, b)) bytes) ∪ m.

Section Main.
Variable env : plugin_env.
#[local] Instance main_host : HostEnv := plugin_host env.(pe_library) env.(pe_image).

(** [usable_program_memory = memory], then [.data()] unless it is empty. *)
Definition reset_memory (memory : list Z) (m : gmap Z Z) : gmap Z Z := place env.(pe_vector) memory m.
Definition memory_pointer (memory : list Z) : Z := if bool_decide (memory = []) then 0 else env.(pe_vector).

(** One [ubpf_exec], continued with its value and the memory it leaves. *)
Definition run_exec (n : nat) (vm : ubpf_vm) (memory : list Z) (m : gmap Z Z)
    (k : ubpf_vm -> Z -> gmap Z Z -> plugin_end) : plugin_end :=
  let r := env.(pe_runs) n in
  let '(vm, res) := ubpf_exec r.(run_fuel) vm (memory_pointer memory) (Z.of_nat (length memory)) r.(run_stack)
                      r.(run_alloc) r.(run_garbage) (reset_memory memory m) in
  match res with
  | Some (Returned v m) => k vm v m
  | Some (Error _) => Reports ExecFailed
  | Some UndefinedBehaviour => PluginUndefined
  | None => StillRunning
  end.

(** One [ubpf_exec_ex] on a zeroed stack of 512 bytes. *)
Definition run_exec_ex (n : nat) (vm : ubpf_vm) (memory : list Z) (m : gmap Z Z)
    (k : ubpf_vm -> Z -> plugin_end) : plugin_end :=
  if negb env.(pe_calloc_ok) then Reports NoExternalStack
  else
    let r := env.(pe_runs) n in
    let '(vm, res) := ubpf_exec_ex r.(run_fuel) vm
                        (ExecArgs (memory_pointer memory) (Z.of_nat (length memory)) r.(run_stack) 512)
                        r.(run_alloc) r.(run_garbage)
                        (reset_memory memory (place r.(run_stack) (replicate 512 0) m)) in
    match res with
    | Some (Returned v m) => k vm v
    | Some (Error _) => Reports ExecFailed
    | Some UndefinedBehaviour => PluginUndefined
    | None => StillRunning
    end.

Definition main_interpret_safe (vm : ubpf_vm) (memory : list Z) (m : gmap Z Z) : plugin_end :=
  run_exec 0 vm memory m (fun vm v1 m =>
  run_exec_ex 1 vm memory m (fun vm v2 =>
  if v1 =? v2 then Prints v1 else Reports ResultsDiffer)).

(** The value of the third run is not compared. *)
Definition main_interpret_legacy (vm : ubpf_vm) (memory : list Z) (m : gmap Z Z) : plugin_end :=
  run_exec 0 vm memory m (fun vm v1 m =>
  let '(vm, r) := use_indexed_helpers env.(pe_image) env.(pe_mprotect) vm in
  if negb (r =? 0) then Reports HelperRefused
  else
    run_exec 1 vm memory m (fun vm v2 m =>
    run_exec_ex 2 vm memory m (fun vm v3 =>
    if v1 =? v2 then Prints v1 else Reports ResultsDiffer))).

Definition main_jit (vm : ubpf_vm) (memory : list Z) (m : gmap Z Z) : plugin_end :=
  let p := memory_pointer memory in
  let len := Z.of_nat (length memory) in
  match ubpf_compile (env.(pe_jit) 0%nat).1 (env.(pe_jit) 0%nat).2 vm None with
  | None => PluginUndefined
  | Some (vm, fn, _, _) =>
      if fn =? 0 then Reports CompileFailed
      else
        let '(v1, m) := env.(pe_native) vm.(jitted_code) fn p len None (reset_memory memory m) in
        let '(vm, r) := use_indexed_helpers env.(pe_image) env.(pe_mprotect) vm in
        if negb (r =? 0) then Reports HelperRefused
        else
          let '(v2, m) := env.(pe_native) vm.(jitted_code) fn p len None (reset_memory memory m) in
          match ubpf_copy_jit vm (replicate (Z.to_nat vm.(jitted_size)) 0) vm.(jitted_size) with
          | Err _ => Reports CopyFailed
          | Ok copy =>
              let '(v3, m) := env.(pe_native) copy env.(pe_copy) p len None (reset_memory memory m) in
              match ubpf_compile_ex (env.(pe_jit) 1%nat).1 (env.(pe_jit) 1%nat).2 vm None ExtendedJitMode with
              | None => PluginUndefined
              | Some (vm, fn_ex, _, _) =>
                  if fn_ex =? 0 then Reports ExtendedCompileFailed
                  else
                    let stack := (env.(pe_runs) 0%nat).(run_stack) in
                    let '(v4, m) := env.(pe_native) vm.(jitted_code) fn_ex p len (Some (stack, 512))
                                      (reset_memory memory (place stack (replicate 512 0) m)) in
                    if negb (v1 =? v2) || negb (v2 =? v3) || negb (v1 =? v4) then Reports ResultsDiffer
                    else Prints v1
              end
          end
  end.

(** The VM is configured and the program loaded. *)
Definition main_prepare (o : plugin_options) (program : list ebpf_inst) : option (result ubpf_vm plugin_failure) :=
  match ubpf_create env.(pe_target) env.(pe_create) with
  | None => Some (Err NoVm)
  | Some vm =>
      let '(vm, r) := ubpf_set_execution_profile_impl vm
                        (if bool_decide (o.(opt_profile) = UBPF_EXECUTION_PROFILE_SAFE) then 1 else 0) in
      if negb (r =? 0) then Some (Err ProfileRefused)
      else
        let '(vm, r) :=
          if bool_decide (o.(opt_profile) = UBPF_EXECUTION_PROFILE_SAFE)
          then register_safe_helpers env.(pe_image) env.(pe_mprotect) helper_indices vm
          else ((ubpf_register_external_dispatcher vm env.(pe_mprotect) env.(pe_image).(dispatcher_at)
                   env.(pe_image).(validater_at)).1, 0) in
        if negb (r =? 0) then Some (Err SafeHelperRefused)
        else
          let vm := if bool_decide (env.(pe_blinding) = Some (text_of "1"))
                    then (ubpf_toggle_constant_blinding vm true).1 else vm in
          let '(vm, r) := ubpf_set_unwind_function_index vm 5 in
          if negb (r =? 0) then Some (Err UnwindIndexRefused)
          else
            match ubpf_load vm env.(pe_load) (bytes_of_insts program) with
            | None => None
            | Some (_, Err e) => Some (Err (LoadFailed e))
            | Some (vm, Ok _) => Some (Ok vm)
            end
  end.

Definition plugin_main (args : list text) (m : gmap Z Z) : plugin_end :=
  match parse_args args with
  | Err e => Reports e
  | Ok o =>
      let program_string := if bool_decide (o.(opt_program) = []) then env.(pe_stdin) else o.(opt_program) in
      match bytes_to_ebpf_inst (base16_decode program_string) with
      | None => PluginUndefined
      | Some program =>
          let memory := base16_decode o.(opt_memory) in
          match main_prepare o program with
          | None => PluginUndefined
          | Some (Err e) => Reports e
          | Some (Ok vm) =>
              if o.(opt_jit) then main_jit vm memory m
              else if bool_decide (o.(opt_profile) = UBPF_EXECUTION_PROFILE_SAFE) then main_interpret_safe vm memory m
              else main_interpret_legacy vm memory m
          end
      end
  end.

End Main.

(** [std::cout << std::hex << value << std::endl] *)
Fixpoint to_hex (n : nat) (v : Z) (acc : text) : text :=
  match n with
  | O => acc
  | S n' =>
      let acc := hex_digit (v mod 16) :: acc in
      if v / 16 =? 0 then acc else to_hex n' (v / 16) acc
  end.

Definition print_result (v : Z) : text := to_hex 16 (u64 v) [] ++ [char_of 10].

(** The plugin as a process: what it writes to its output when it exits with 0. *)
Definition plugin_process (env : plugin_env) (m : gmap Z Z) (args : list text) : option text :=
  match plugin_main env args m with
  | Prints v => Some (print_result v)
  | _ => None
  end.

(** ** Lemmas on text *)

Definition byte_token_ok (b : Z) : bool :=
  bool_decide (stoi16 (hex_byte b) = Some b) && bool_decide (SPACE ∉ hex_byte b).

Lemma all_byte_tokens : forallb byte_token_ok (seqZ 0 256) = true.
Proof. vm_compute. reflexivity. Qed.

Lemma byte_token b : byte_ok b -> stoi16 (hex_byte b) = Some b /\ SPACE ∉ hex_byte b.
Proof.
  intros Hb. pose proof (proj1 (forallb_forall _ _) all_byte_tokens b) as Hx.
  unfold byte_token_ok in Hx. rewrite andb_true_iff, !bool_decide_eq_true in Hx. apply Hx.
  apply list_elem_of_In, elem_of_seqZ. unfold byte_ok in Hb. lia.
Qed.

(** Characters other than the blank are gathered. *)
Lemma getline_word w cur s : SPACE ∉ w -> getline_all cur (w ++ s) = getline_all (rev w ++ cur) s.
Proof.
  revert cur. induction w as [| c w IH]; intros cur Hw; [done |].
  apply not_elem_of_cons in Hw as [Hc Hw]. cbn [app getline_all]. rewrite bool_decide_eq_false_2 by done.
  rewrite (IH (c :: cur) Hw). cbn [rev]. by rewrite <- app_assoc.
Qed.

Lemma getline_rest bytes b :
  Forall byte_ok bytes -> byte_ok b ->
  getline_all (rev (hex_byte b)) (bytes_to_hex_from bytes) = hex_byte <$> (b :: bytes).
Proof.
  intros Hbs. revert b. induction Hbs as [| b' bytes Hb' _ IH]; intros b Hb; [by cbn |].
  cbn [bytes_to_hex_from getline_all]. rewrite bool_decide_eq_true_2, rev_involutive by done.
  rewrite getline_word, app_nil_r by (by apply byte_token). by rewrite IH.
Qed.

Lemma decode_tokens bytes : Forall byte_ok bytes -> omap stoi16 (hex_byte <$> bytes) = bytes.
Proof.
  induction 1 as [| b bytes Hb _ IH]; [done |]. cbn [fmap list_fmap omap list_omap].
  rewrite (proj1 (byte_token b Hb)). by f_equal.
Qed.

Lemma bytes_fit bytes : Forall byte_ok bytes -> u8 <$> bytes = bytes.
Proof.
  induction 1 as [| b bytes Hb _ IH]; [done |]. cbn. rewrite IH. f_equal. apply wrap_id.
  unfold byte_ok in Hb. lia.
Qed.

(** Decoding what [bytes_to_hex_string] prints gives the bytes back. *)
Lemma hex_decodes bytes : Forall byte_ok bytes -> base16_decode (bytes_to_hex_string bytes) = bytes.
Proof.
  intros Hbs. unfold base16_decode, bytes_to_hex_string. destruct Hbs as [| b bytes Hb Hbs]; [done |].
  rewrite getline_word, app_nil_r by (by apply byte_token). rewrite getline_rest by done.
  rewrite decode_tokens by (by constructor). apply bytes_fit. by constructor.
Qed.

(** What the readers of numbers look at, of a hexadecimal digit. *)
Definition digit_read_ok (d : Z) : bool :=
  let c := hex_digit d in
  bool_decide (hex_value c = Some d) && negb (is_space c) &&
  forallb (fun z => negb (char_code c =? z)) [32; 9; 10; 13; 43; 45; 88; 120].

Lemma all_digits_read : forallb digit_read_ok (seqZ 0 16) = true.
Proof. vm_compute. reflexivity. Qed.

Record is_digit (c : ascii) (d : Z) : Prop := IsDigit {
  dg_value : hex_value c = Some d;
  dg_space : is_space c = false;
  dg_other : forall z, z ∈ [32; 9; 10; 13; 43; 45; 88; 120] -> (char_code c =? z) = false;
}.

Lemma hex_digit_read d : 0 <= d < 16 -> is_digit (hex_digit d) d.
Proof.
  intros Hd. pose proof (proj1 (forallb_forall _ _) all_digits_read d) as Hx.
  unfold digit_read_ok in Hx. rewrite !andb_true_iff, bool_decide_eq_true, negb_true_iff in Hx.
  destruct Hx as ((H1 & H2) & H3); [apply list_elem_of_In, elem_of_seqZ; lia |]. constructor; [done | done |].
  intros z Hz. apply list_elem_of_In in Hz. pose proof (proj1 (forallb_forall _ _) H3 z Hz) as Hx.
  by apply negb_true_iff in Hx.
Qed.

Definition digits (s : text) : Prop := Forall (fun c => exists d, is_digit c d) s.

Lemma to_hex_digits n v acc : digits acc -> digits (to_hex n v acc).
Proof.
  revert v acc. induction n as [| n IH]; intros v acc Ha; cbn [to_hex]; [done |].
  assert (digits (hex_digit (v mod 16) :: acc)) as Hc.
  { constructor; [| done]. exists (v mod 16). apply hex_digit_read, Z.mod_pos_bound. lia. }
  destruct (_ =? _); [done | by apply IH].
Qed.

Lemma to_hex_cons n v acc : exists c s, to_hex (S n) v acc = c :: s.
Proof.
  revert v acc. induction n as [| n IH]; intros v acc; cbn [to_hex]; [destruct (_ =? _); eauto |].
  destruct (_ =? _); [eauto | apply IH].
Qed.

Lemma read_to_hex n v acc a :
  0 <= v < 16 ^ Z.of_nat n -> (0 < n)%nat ->
  exists k, 0 <= k /\ read_digits a (to_hex n v acc) = read_digits (Some (default 0 a * 16 ^ k + v)) acc.
Proof.
  revert v acc. induction n as [| n IH]; intros v acc Hv Hn; [lia |].
  rewrite Nat2Z.inj_succ, Z.pow_succ_r in Hv by lia. cbn [to_hex].
  pose proof (Z.div_mod v 16 ltac:(lia)) as Hdm. pose proof (Z.mod_pos_bound v 16 ltac:(lia)) as Hm.
  pose proof (dg_value _ _ (hex_digit_read _ Hm)) as Hd.
  assert (0 <= v / 16 < 16 ^ Z.of_nat n) as Hq.
  { split; [apply Z.div_pos; lia | apply Z.div_lt_upper_bound; lia]. }
  destruct (Z.eqb_spec (v / 16) 0) as [E | E].
  - exists 1. split; [lia |]. cbn [read_digits]. rewrite Hd. do 2 f_equal. lia.
  - destruct n as [| n]; [cbn in Hq; lia |].
    destruct (IH (v / 16) (hex_digit (v mod 16) :: acc) Hq ltac:(lia)) as (k & Hk & ->).
    exists (k + 1). split; [lia |]. cbn [read_digits default]. rewrite Hd, Z.pow_add_r by lia.
    change (16 ^ 1) with 16. do 2 f_equal. cbn [from_option id]. lia.
Qed.

(** ** Dispatcher and table *)

Lemma helper_functions_indices lib idx : is_Some (helper_functions lib idx) <-> idx ∈ helper_indices.
Proof.
  unfold helper_functions, helper_indices. rewrite !list_elem_of_In. cbn [In].
  repeat match goal with |- context [idx =? ?n] =>
    destruct (Z.eqb_spec idx n) as [-> | ?]; [split; [tauto | by eexists] |] end.
  split; [by intros [] | intuition congruence].
Qed.

Lemma helper_index_at img i : image_ok img -> i ∈ helper_indices -> helper_index img (img.(helper_at) i) = i.
Proof.
  intros Hio Hi. unfold helper_index.
  destruct (list_find_elem_of (fun j => img.(helper_at) j = img.(helper_at) i) helper_indices i Hi eq_refl)
    as [[n j] E].
  rewrite E. cbn. apply list_find_Some in E as (Hj & Ej & _).
  apply (io_distinct _ Hio); [by eapply list_elem_of_lookup_2 | done | done].
Qed.

(** The VM once the dispatcher is gone and the helpers are in the table. *)
Definition with_table (funcs : list Z) (names : list (option string)) (validater : Z) (vm : ubpf_vm) : ubpf_vm :=
  set_ext_funcs funcs (set_ext_func_names names (set_dispatcher 0 (set_dispatcher_validate validater vm))).

Lemma register_with_table mprotect idx name fn funcs names validater vm :
  vm.(jitted_result).(compile_result) <> UBPF_JIT_COMPILE_SUCCESS -> idx < MAX_EXT_FUNCS ->
  ubpf_register (with_table funcs names validater vm) mprotect idx name fn =
    (with_table (<[Z.to_nat idx := fn]> funcs) (<[Z.to_nat idx := name]> names) validater vm, 0).
Proof.
  intros Hc Hi. unfold ubpf_register, update_jitted. destruct (Z.leb_spec MAX_EXT_FUNCS idx); [lia |].
  rewrite decide_False by done. by destruct vm.
Qed.

(** Every key of the list is registered, and nothing else changes. *)
Lemma register_helpers_table img mprotect keys funcs names validater vm :
  vm.(jitted_result).(compile_result) <> UBPF_JIT_COMPILE_SUCCESS -> Forall (fun i => 0 <= i < MAX_EXT_FUNCS) keys ->
  length funcs = 64%nat ->
  exists funcs' names',
    register_helpers img mprotect keys (with_table funcs names validater vm) =
      (with_table funcs' names' validater vm, 0) /\
    forall i, 0 <= i < MAX_EXT_FUNCS ->
      i ∈ keys \/ funcs !! Z.to_nat i = Some (img.(helper_at) i) -> funcs' !! Z.to_nat i = Some (img.(helper_at) i).
Proof.
  intros Hc Hk. revert funcs names. induction Hk as [| key keys Hkey _ IH]; intros funcs names Hl.
  { exists funcs, names. split; [done |]. intros i _ [Hi | Hi]; [by apply elem_of_nil in Hi | done]. }
  cbn [register_helpers]. rewrite register_with_table by (done || lia). cbn [Z.eqb negb].
  destruct (IH (<[Z.to_nat key := img.(helper_at) key]> funcs) (<[Z.to_nat key := Some "unnamed"%string]> names))
    as (funcs' & names' & E & Hf); [by rewrite length_insert |].
  exists funcs', names'. split; [exact E |]. intros i Hr Hi. apply Hf; [done |].
  unfold MAX_EXT_FUNCS in *.
  destruct (decide (i = key)) as [-> | Hne]; [right; apply list_lookup_insert_eq; lia |].
  rewrite list_lookup_insert_ne by lia. rewrite elem_of_cons in Hi. destruct Hi as [[? | ?] | ?]; [done | by left | by right].
Qed.

Lemma helper_indices_bounds : Forall (fun i => 0 <= i < MAX_EXT_FUNCS) helper_indices.
Proof. unfold helper_indices, MAX_EXT_FUNCS. repeat constructor; lia. Qed.

Lemma indexed_helpers_registered img mprotect vm :
  vm.(jitted_result).(compile_result) <> UBPF_JIT_COMPILE_SUCCESS -> length vm.(ext_funcs) = 64%nat ->
  exists funcs names,
    use_indexed_helpers img mprotect vm = (with_table funcs names img.(validater_at) vm, 0) /\
    forall i, i ∈ helper_indices -> funcs !! Z.to_nat i = Some (img.(helper_at) i).
Proof.
  intros Hc Hl. unfold use_indexed_helpers, ubpf_register_external_dispatcher, update_jitted.
  rewrite decide_False by done. cbn [fst].
  replace (set_dispatcher_validate (validater_at img) (set_dispatcher 0 vm))
    with (with_table vm.(ext_funcs) vm.(ext_func_names) (validater_at img) vm) by (by destruct vm).
  destruct (register_helpers_table img mprotect helper_indices vm.(ext_funcs) vm.(ext_func_names)
              (validater_at img) vm Hc helper_indices_bounds Hl) as (funcs & names & E & Hf).
  exists funcs, names. split; [exact E |]. intros i Hi. apply Hf; [| by left].
  exact (proj1 (list.Forall_forall _ _) helper_indices_bounds i Hi).
Qed.

(** *** The helpers keep memory *)

Lemma mem_extends_refl m : mem_ok m -> mem_extends m m.
Proof. by split. Qed.

Lemma memfrob_extends n m p m' : mem_ok m -> memfrob_bytes m p n = Some m' -> mem_extends m m'.
Proof.
  revert m p. induction n as [| n IH]; intros m p Hm; cbn [memfrob_bytes]; [intros [= <-]; by apply mem_extends_refl |].
  destruct (m !! p) as [b |] eqn:Eb; [| discriminate]. cbn [mbind option_bind]. intros E.
  assert (byte_ok (b .^ 42)) as Hb.
  { pose proof (Hm _ _ Eb) as Hx. unfold byte_ok in *. apply (lxor_fits 8); lia. }
  destruct (IH (<[p := b .^ 42]> m) (p + 1)) as [H1 H2]; [by apply map_Forall_insert_2 | done |].
  split; [done |]. etransitivity; [| exact H2]. by rewrite dom_insert_lookup_L by eauto.
Qed.

Lemma test_helper_extends lib idx a b c d e m r m' :
  call_test_helper lib idx a b c d e m = Some (r, m') -> mem_ok m -> mem_extends m m'.
Proof.
  unfold call_test_helper, helper_functions. intros E Hm.
  repeat (destruct (_ =? _); [cbn [mbind option_bind] in E; try (injection E as <- <-; by apply mem_extends_refl) |]);
    [.. | discriminate E].
  - destruct (memfrob_bytes _ _ _) eqn:Ef; [| discriminate E]. injection E as <- <-. by eapply memfrob_extends.
  - destruct (c_strcmp lib a b m); [| discriminate E]. injection E as <- <-. by apply mem_extends_refl.
Qed.

#[export] Instance plugin_host_sound lib img : HostSound (plugin_host lib img).
Proof.
  constructor; cbn; [intros; by eapply test_helper_extends .. | intros; by apply mem_extends_refl | done].
Qed.

(** A call of a helper the loader accepted has a callee. *)
Lemma loaded_external_call `{HostEnv} vm prog k inst :
  loaded vm prog -> prog !! k = Some inst -> calls_out inst = true -> external_call_ok vm inst.(imm).
Proof.
  intros Hld Hf Hcall. unfold calls_out in Hcall. apply andb_true_iff in Hcall as [Hop Hsrc].
  apply Z.eqb_eq in Hop, Hsrc. pose proof (lookup_lt_Some _ _ _ Hf) as Hlt.
  assert (start prog (Z.of_nat k)) as Hs.
  { eapply validated_nonzero_start; [apply Hld | lia |]. unfold inst_at. rewrite Nat2Z.id, Hf. cbn. by rewrite Hop. }
  destruct (vd_checked _ _ (ld_validated _ _ Hld) _ inst Hs) as [op [Hsw _ _ _ Hg]]; [by rewrite Nat2Z.id |].
  rewrite Hop in Hsw. replace op with EBPF_OP_CALL in Hg by (vm_compute in Hsw; congruence).
  destruct Hg as [(_ & Hx) | (Hs1 & _)]; [done | lia].
Qed.

Section Dispatch.
Variables (lib : c_library) (img : plugin_image).
#[local] Instance dispatch_host : HostEnv := plugin_host lib img.
Variables (vm : ubpf_vm) (prog : list ebpf_inst) (args : exec_args).
Variables (funcs : list Z) (names : list (option string)) (validater : Z).
Hypothesis Himg : image_ok img.
Hypothesis Hld : loaded vm prog.
Hypothesis Hdisp : vm.(dispatcher) <> 0.
Hypothesis Hfuncs : forall i, i ∈ helper_indices -> funcs !! Z.to_nat i = Some (img.(helper_at) i).
#[local] Abbreviation vm' := (with_table funcs names validater vm).

(** A call the loader accepted names a helper of the map. *)
Lemma fetched_call_index k inst :
  0 < vm.(num_insts) -> k < vm.(num_insts) -> ubpf_fetch_instruction vm k = Some inst -> calls_out inst = true ->
  inst.(imm) ∈ helper_indices.
Proof using Hld Hdisp.
  intros H0 Hk Hf Hcall. replace (ubpf_fetch_instruction vm k) with (ubpf_fetch_instruction vm (Z.max 0 k)) in Hf.
  2: { unfold ubpf_fetch_instruction. by replace (Z.to_nat (Z.max 0 k)) with (Z.to_nat k) by lia. }
  rewrite (ld_fetch _ _ Hld) in Hf by lia.
  destruct (loaded_external_call vm prog _ inst Hld Hf Hcall) as (_ & [(_ & vm0 & Hv) | (Hd & _)]); [| done].
  cbn in Hv. unfold test_helpers_validater in Hv. apply bool_decide_eq_true in Hv.
  by apply (helper_functions_indices lib).
Qed.

Lemma external_call_same inst st :
  inst.(imm) ∈ helper_indices -> exec_external_call vm' args inst st = exec_external_call vm args inst st.
Proof using Himg Hdisp Hfuncs.
  intros Hi. unfold exec_external_call. cbn [with_table dispatcher set_ext_funcs set_ext_func_names set_dispatcher
    set_dispatcher_validate ext_funcs unwind_stack_extension_index].
  rewrite (proj2 (Z.eqb_neq _ _) Hdisp). cbn [Z.eqb negb]. rewrite (Hfuncs _ Hi).
  replace (inst.(imm) <? 0) with false.
  2: { symmetry. apply Z.ltb_ge. unfold helper_indices in Hi. rewrite !elem_of_cons, elem_of_nil in Hi. lia. }
  cbn [of_option bind_outcome]. rewrite (proj2 (Z.eqb_neq _ _) (io_helpers _ Himg _ Hi)).
  cbn [call_helper call_dispatcher dispatch_host plugin_host]. by rewrite helper_index_at.
Qed.

Lemma switch_same k inst st :
  (calls_out inst = true -> inst.(imm) ∈ helper_indices) ->
  exec_switch vm' args k inst st = exec_switch vm args k inst st.
Proof using Himg Hdisp Hfuncs.
  intros Hc. unfold exec_switch. destruct (switch_op inst.(opcode)) as [op |] eqn:Hop; [| done].
  apply switch_op_sound in Hop. destruct (neg_overflows _ _); [done |].
  destruct (exec_alu _ _ _ _ _); [done |]. destruct (exec_endian _ _ _); [done |].
  destruct (exec_condition _ _ _ _); [done |]. unfold exec_other.
  destruct (load_shape op) as [[] |]; [done |]. destruct (store_shape op) as [[] |]; [done |].
  destruct op; try done. unfold exec_call. destruct (Z.eqb_spec inst.(src) 0) as [E |]; [| done].
  apply external_call_same, Hc. unfold calls_out. rewrite <- Hop, E. done.
Qed.

Lemma step_same st : 0 < vm.(num_insts) -> step vm' args st = step vm args st.
Proof using All.
  intros H0. unfold step.
  change (num_insts vm') with (num_insts vm).
  destruct (Z.leb_spec vm.(num_insts) st.(pc)) as [| Hpc]; [done |]. cbn [negb require bind_outcome].
  change (count_instruction vm' st) with (count_instruction vm st).
  destruct (count_instruction vm st) as [st1 | |]; [| done ..]. cbn [bind_outcome].
  change (enter_function vm' st1) with (enter_function vm st1).
  destruct (enter_function vm st1) as [st2 | |]; [| done ..]. cbn [bind_outcome].
  change (ubpf_fetch_instruction vm' st.(pc)) with (ubpf_fetch_instruction vm st.(pc)).
  destruct (ubpf_fetch_instruction vm st.(pc)) as [inst |] eqn:Hf; [| done]. cbn [of_option bind_outcome].
  change (ubpf_validate_shadow_register vm') with (ubpf_validate_shadow_register vm).
  destruct (ubpf_validate_shadow_register _ _ _ _); [| done]. cbn [of_result bind_outcome].
  change (call_debug_function vm') with (call_debug_function vm).
  rewrite switch_same; [done |]. by apply (fetched_call_index st.(pc)).
Qed.

Lemma exec_loop_same fuel st : 0 < vm.(num_insts) -> exec_loop vm' args fuel st = exec_loop vm args fuel st.
Proof using All.
  intros H0. revert st. induction fuel as [| fuel IH]; intros st; cbn [exec_loop]; [done |].
  rewrite step_same by done. destruct (step vm args st) as [[] | |]; [apply IH | done ..].
Qed.

End Dispatch.

Lemma started_with_table funcs names v vm :
  set_execution_started true (with_table funcs names v vm) = with_table funcs names v (set_execution_started true vm).
Proof. by destruct vm. Qed.

Lemma loaded_started `{HostEnv} vm prog : loaded vm prog -> loaded (set_execution_started true vm) prog.
Proof. intros []. constructor; try done. by apply (validated_frame vm). Qed.

(** C22: the two ways in which the plugin offers its helpers are the same to a
    program: replacing the dispatcher by registrations of the helpers one by one
    succeeds, and the interpreter then ends in the same way, with the same value
    and memory or the same error, from every start. *)
Theorem dispatcher_equals_indexed (lib : c_library) (img : plugin_image) (vm vm' : ubpf_vm) (prog : list ebpf_inst)
    (mprotect : Z -> Z -> prot -> bool) (args : exec_args) (fuel : nat) (calloc_ok : bool) (garbage : list Z)
    (m : memory) (r : Z) :
  image_ok img -> @loaded (plugin_host lib img) vm prog -> vm.(dispatcher) = img.(dispatcher_at) ->
  vm.(jitted_result).(compile_result) <> UBPF_JIT_COMPILE_SUCCESS -> length vm.(ext_funcs) = 64%nat ->
  use_indexed_helpers img mprotect vm = (vm', r) ->
  r = 0 /\ vm'.(dispatcher) = 0 /\
  (@ubpf_exec_ex_legacy (plugin_host lib img) fuel vm' args calloc_ok garbage m).2 =
  (@ubpf_exec_ex_legacy (plugin_host lib img) fuel vm args calloc_ok garbage m).2.
Proof.
  intros Himg Hld Hd Hc Hl Hreg.
  destruct (indexed_helpers_registered img mprotect vm Hc Hl) as (funcs & names & E & Hf).
  rewrite E in Hreg. injection Hreg as <- <-. split; [done |]. split; [done |].
  unfold ubpf_exec_ex_legacy. change (insts (with_table _ _ _ vm)) with (insts vm).
  destruct (insts vm =? 0); [done |]. cbv zeta. rewrite started_with_table.
  set (vm1 := set_execution_started true vm).
  change (undefined_behavior_check_enabled (with_table _ _ _ vm1)) with (undefined_behavior_check_enabled vm1).
  destruct (_ && _); [done |]. cbn [snd].
  change (initial_state (with_table _ _ _ vm1)) with (initial_state vm1).
  apply loaded_started in Hld. fold vm1 in Hld.
  destruct (Z.ltb_spec 0 vm1.(num_insts)) as [H0 | H0].
  - apply (exec_loop_same lib img vm1 prog args); try done. cbn. rewrite Hd. apply Himg.
  - destruct fuel as [| fuel]; [done |]. cbn [exec_loop]. unfold step.
    change (pc (initial_state vm1 args garbage m)) with 0.
    change (num_insts (with_table _ _ _ vm1)) with (num_insts vm1).
    destruct (Z.leb_spec vm1.(num_insts) 0); [done | lia].
Qed.

(** ** A run of the plugin *)

Definition test_library : c_library := CLibrary Z.sqrt (fun _ _ _ => Some 0).
Definition test_image : plugin_image := PluginImage (fun i => 4096 + 16 * i) 8192 8208.

Lemma test_image_ok : image_ok test_image.
Proof.
  constructor; cbn; try done.
  - intros i Hi. unfold helper_indices in Hi. rewrite !elem_of_cons, elem_of_nil in Hi. lia.
  - intros i j _ _. lia.
Qed.

Definition test_plugin_env : plugin_env := {|
  pe_library := test_library;
  pe_image := test_image;
  pe_target := JitArm64;
  pe_stdin := [];
  pe_blinding := None;
  pe_create _ := true;
  pe_load := test_os;
  pe_mprotect _ _ _ := true;
  pe_vector := 65536;
  pe_runs n := RunEnv 100 (replicate 16 0) (131072 + 8192 * Z.of_nat n) (fun _ => true);
  pe_calloc_ok := true;
  pe_jit _ := (test_env, test_jit_os);
  pe_copy := 1048576;
  pe_native _ _ _ _ _ m := (0, m);
|}.

(** [mov r1, 49; call 3 (sqrti); exit] *)
Definition sqrt_program : list ebpf_inst := [Inst 0xb7 1 0 0 49; Inst 0x85 0 0 0 3; Inst 0x95 0 0 0 0].

Example plugin_prints_seven :
  plugin_main test_plugin_env [text_of "--program"; bytes_to_hex_string (bytes_of_insts sqrt_program)] ∅ = Prints 7.
Proof. vm_compute. reflexivity. Qed.

Definition sqrt_vm : ubpf_vm :=
  match main_prepare test_plugin_env (PluginOptions false UBPF_EXECUTION_PROFILE_LEGACY [] []) sqrt_program with
  | Some (Ok vm) => vm
  | _ => zeroed_vm JitNull
  end.

Definition sqrt_base : ubpf_vm :=
  (ubpf_set_unwind_function_index (ubpf_register_external_dispatcher
     (default (zeroed_vm JitNull) (ubpf_create JitArm64 (fun _ => true))) (fun _ _ _ => true) 8192 8208).1 5).1.

Lemma sqrt_loaded : @loaded (plugin_host test_library test_image) sqrt_vm (insts_of_bytes (bytes_of_insts sqrt_program)).
Proof.
  destruct (@load_outcome (plugin_host test_library test_image) sqrt_base test_os (bytes_of_insts sqrt_program)
              test_os_sound ltac:(discriminate)) as (vm' & r & E & _ & Hr).
  destruct r as [[] | e].
  - replace sqrt_vm with vm'; [apply Hr |]. vm_compute in E. injection E as <-. vm_compute. reflexivity.
  - exfalso. vm_compute in E. discriminate.
Qed.

Lemma dispatcher_equals_indexed_witness :
  exists vm', use_indexed_helpers test_image (fun _ _ _ => true) sqrt_vm = (vm', 0) /\
  (@ubpf_exec_ex_legacy (plugin_host test_library test_image) 10 vm' (ExecArgs 0 0 4096 0) true (replicate 16 0) ∅).2 =
  Some (Returned 7 ∅).
Proof.
  destruct (use_indexed_helpers test_image (fun _ _ _ => true) sqrt_vm) as [vm' r] eqn:E.
  destruct (dispatcher_equals_indexed test_library test_image sqrt_vm vm'
              (insts_of_bytes (bytes_of_insts sqrt_program)) (fun _ _ _ => true) (ExecArgs 0 0 4096 0) 10 true
              (replicate 16 0) ∅ r test_image_ok sqrt_loaded)
    as (-> & _ & Hx); [vm_compute; reflexivity | vm_compute; discriminate | vm_compute; reflexivity | exact E |].
  exists vm'. split; [reflexivity |]. rewrite Hx. vm_compute. reflexivity.
Defined.

(** A program text whose length is not a multiple of eight bytes is copied past
    the end of the vector of instructions. *)
Theorem partial_instruction_overflows (env : plugin_env) (args : list text) (o : plugin_options) (m : gmap Z Z) :
  parse_args args = Ok o -> o.(opt_program) <> [] ->
  Z.of_nat (length (base16_decode o.(opt_program))) mod 8 <> 0 ->
  plugin_main env args m = PluginUndefined.
Proof.
  intros Hp Hne Hlen. unfold plugin_main. rewrite Hp, bool_decide_eq_false_2 by done.
  unfold bytes_to_ebpf_inst. by rewrite (proj2 (Z.eqb_neq _ _) Hlen).
Qed.
