(* ===== verification/Fuzz.v ===== *)
(** * Fuzz: the fuzzing harness

    libfuzzer/libfuzz_harness.cc compares the interpreter, compiled code and an
    optional external VM on inputs of the fuzzer.  Modelled here: the split of an
    input into a program and a memory, the context handed to the program, the
    classification of addresses and the bounds-check function built on it, the
    configuration of the VM, the runs, the exchange with the external VM (the
    plugin of [Plugin]) and [LLVMFuzzerTestOneInput].

    The verifier is a library: its verdict on a program is an argument.  The
    optional comparison with the verifier's invariants (off by default) and the
    printing of traces are not modelled. *)

From Stdlib Require Import ZArith Lia Bool Ascii String.
From stdpp Require Import base list gmap strings numbers.
From S2P Require Import Prelude Ebpf InstValid Mem Vm Validate Load Alu Checks Interp InterpSound SafeTags Safe Jit Plugin.

Local Open Scope Z_scope.
Local Open Scope cbits_scope.

(** ** The input *)

(** The bytes [start, start + n) of a buffer; [None]: outside of it. *)
Definition read_range (data : list Z) (start n : Z) : option (list Z) :=
  if (0 <=? start) && (start + n <=? Z.of_nat (length data))
  then Some (take (Z.to_nat n) (drop (Z.to_nat start) data)) else None.

(** The program and the memory, [Some None] for an input that is refused, [None]
    for a read outside of the input.  [memory] is the vector as the caller has
    it; it is left alone when the input has no memory. *)
Definition split_input (data memory : list Z) : option (option (list Z * list Z)) :=
  let size := Z.of_nat (length data) in
  if size <? 4 then Some None
  else
    let program_length := le_decode (take 4 data) in
    let memory_length := u32 (size - 4 - program_length) in
    if size <? program_length then Some None
    else if program_length =? 0 then Some None
    else if size <? u32 (program_length + 4) then Some None
    else if negb (program_length mod 8 =? 0) then Some None
    else
      memory ← (if 0 <? memory_length then read_range data (4 + program_length) memory_length else Some memory);
      program ← read_range data 4 program_length;
      Some (Some (program, memory)).

(** ** The context and the bounds check *)

Record ubpf_context_t : Type := Context_ {
  ctx_data : Z;
  ctx_data_end : Z;
  original_data : Z;
  original_data_end : Z;
  ctx_stack_start : Z;
  ctx_stack_end : Z;
  program_start : Z;
  program_end : Z;
}.

Definition CONTEXT_SIZE : Z := 64.

(** Where a vector of [n] elements at [a] has its data. *)
Definition vector_data (a : Z) (v : list Z) : Z := if bool_decide (v = []) then 0 else a.

Definition ubpf_context_from (program_at memory_at stack_at : Z) (program_code memory ubpf_stack : list Z)
    : ubpf_context_t :=
  let data := vector_data memory_at memory in
  let data_end := u64 (data + Z.of_nat (length memory)) in
  let stack := vector_data stack_at ubpf_stack in
  let program := vector_data program_at program_code in
  Context_ data data_end data data_end stack (u64 (stack + Z.of_nat (length ubpf_stack)))
    program (u64 (program + Z.of_nat (length program_code))).

Definition context_bytes (c : ubpf_context_t) : list Z :=
  le_encode 8 c.(ctx_data) ++ le_encode 8 c.(ctx_data_end) ++ le_encode 8 c.(original_data) ++
  le_encode 8 c.(original_data_end) ++ le_encode 8 c.(ctx_stack_start) ++ le_encode 8 c.(ctx_stack_end) ++
  le_encode 8 c.(program_start) ++ le_encode 8 c.(program_end).

Inductive address_type_t : Type := Packet | Context | Stack | Map | Unknown.

#[export] Instance address_type_eq_dec : EqDecision address_type_t.
Proof. solve_decision. Defined.

(** The fields the functions of the harness read, from the context at [context]
    in memory. *)
Definition context_field (m : memory) (context : Z) (i : Z) : Z := default 0 (deref m (context + 8 * i) 8).

Definition ubpf_classify_address (m : memory) (context register_value : Z) : address_type_t :=
  let stack_start := context_field m context 4 in
  let stack_end := context_field m context 5 in
  let context_end := u64 (context + CONTEXT_SIZE) in
  let packet_start := context_field m context 2 in
  let packet_end := context_field m context 3 in
  if (stack_start <=? register_value) && (register_value <? stack_end) then Stack
  else if (context <=? register_value) && (register_value <? context_end) then Context
  else if (packet_start <=? register_value) && (register_value <? packet_end) then Packet
  else Unknown.

(** [bounds_check]: the first and the last byte are classified. *)
Definition fuzz_bounds_check (m : memory) (context addr size : Z) : bool :=
  if bool_decide (ubpf_classify_address m context addr = Unknown) then false
  else if bool_decide (ubpf_classify_address m context (u64 (addr + size - 1)) = Unknown) then false
  else true.

(** The harness as the embedder. *)
Definition fuzz_host (lib : c_library) (img : plugin_image) : HostEnv := {|
  call_helper fn a b c d e cookie m := call_test_helper lib (helper_index img fn) a b c d e m;
  call_dispatcher fn a b c d e idx cookie m := test_helpers_dispatcher lib a b c d e idx cookie m;
  call_validate fn idx vm := test_helpers_validater lib idx;
  call_bounds_check fn ctx addr size m := fuzz_bounds_check m ctx addr size;
  call_stack_usage _ _ _ _ := 0;
  call_debug _ _ _ _ _ _ _ _ m := m;
  host_granted _ := False;
|}.

(** ** The runs *)

Record fuzz_env : Type := FuzzEnv {
  fe_library : c_library;
  fe_image : plugin_image;
  fe_target : jit_target;
  fe_create : nat -> bool;
  fe_load : os_calls;
  fe_mprotect : Z -> Z -> prot -> bool;
  fe_bounds_fn : Z;  (* the address of bounds_check *)
  fe_debug_fn : Z;  (* of ubpf_debug_function *)
  fe_print_fn : Z;  (* of capture_printf *)
  fe_context : Z;  (* of the local context *)
  fe_program : Z;  (* of the vectors *)
  fe_memory : Z;
  fe_stack : Z;
  fe_stack_left : list Z;  (* the stack a failed run leaves *)
  fe_garbage : list Z;
  fe_alloc : nat -> bool;
  fe_jit : jit_env * jit_os;
  fe_native : list Z -> Z -> Z -> Z -> option (Z * Z) -> memory -> Z * memory;
  (* options *)
  fe_use_jit : bool;
  fe_use_interpreter : bool;
  fe_verify : bool;
  fe_verifier : list Z -> bool;  (* verify_bpf_byte_code *)
  fe_external_vm : text;  (* the path; empty: none *)
  fe_plugin : list text -> option text;  (* its output; None: it failed *)
}.

Section Harness.
Variable env : fuzz_env.
#[local] Instance harness_host : HostEnv := fuzz_host env.(fe_library) env.(fe_image).

(** [None]: undefined behaviour; [Some None]: no VM. *)
Definition create_ubpf_vm (program_code : list Z) : option (option ubpf_vm) :=
  match ubpf_create env.(fe_target) env.(fe_create) with
  | None => Some None
  | Some vm =>
      let vm := (ubpf_toggle_undefined_behavior_check vm true).1 in
      let vm := ubpf_set_error_print vm env.(fe_print_fn) in
      match ubpf_load vm env.(fe_load) program_code with
      | None => None
      | Some (_, Err _) => Some None
      | Some (vm, Ok _) =>
          let vm := (ubpf_toggle_bounds_check vm true).1 in
          let '(vm, r) := ubpf_register_external_dispatcher vm env.(fe_mprotect) env.(fe_image).(dispatcher_at)
                            env.(fe_image).(validater_at) in
          if negb (r =? 0) then Some None
          else
            let '(vm, _, r) := ubpf_set_instruction_limit vm 10000 in
            if negb (r =? 0) then Some None else Some (Some vm)
      end
  end.

(** The address space with the vectors and the context in place. *)
Definition harness_memory (program_code memory ubpf_stack : list Z) (m : gmap Z Z) : gmap Z Z :=
  let c := ubpf_context_from env.(fe_program) env.(fe_memory) env.(fe_stack) program_code memory ubpf_stack in
  place env.(fe_context) (context_bytes c)
    (place env.(fe_stack) ubpf_stack (place env.(fe_memory) memory (place env.(fe_program) program_code m))).

Definition STACK_BYTES : nat := 3 * 4096.

(** The stack as a run left it. *)
Definition stack_after (m : gmap Z Z) : list Z := default [] (load_bytes m env.(fe_stack) STACK_BYTES).

Inductive call_end : Type :=
| Result (value : Z) (ubpf_stack : list Z)  (* returns true *)
| NotRun  (* returns false *)
| Throws
| CallUndefined
| CallRuns.  (* out of fuel *)

Definition harness_args : exec_args :=
  ExecArgs env.(fe_context) CONTEXT_SIZE env.(fe_stack) (Z.of_nat STACK_BYTES).

(** The VM with the harness's debug and bounds functions. *)
Definition harness_vm (vm : ubpf_vm) : ubpf_vm :=
  (ubpf_register_data_bounds_check (ubpf_register_debug_fn vm env.(fe_context) env.(fe_debug_fn)).1
     env.(fe_context) env.(fe_bounds_fn)).1.

Definition call_ubpf_interpreter (fuel : nat) (program_code memory ubpf_stack : list Z) (m : gmap Z Z) : call_end :=
  match create_ubpf_vm program_code with
  | None => CallUndefined
  | Some None => NotRun
  | Some (Some vm) =>
      match (ubpf_exec_ex fuel (harness_vm vm) harness_args env.(fe_alloc) env.(fe_garbage)
               (harness_memory program_code memory ubpf_stack m)).2 with
      | None => CallRuns
      | Some UndefinedBehaviour => CallUndefined
      | Some (Error _) => if env.(fe_verify) then Throws else Result 0 env.(fe_stack_left)
      | Some (Returned v m) => Result v (stack_after m)
      end
  end.

Definition call_ubpf_jit (program_code memory ubpf_stack : list Z) (m : gmap Z Z) : call_end :=
  match create_ubpf_vm program_code with
  | None => CallUndefined
  | Some None => NotRun
  | Some (Some vm) =>
      match ubpf_compile_ex env.(fe_jit).1 env.(fe_jit).2 vm None ExtendedJitMode with
      | None => CallUndefined
      | Some (vm, fn, _, _) =>
          if fn =? 0 then Throws
          else
            let '(v, m) := env.(fe_native) vm.(jitted_code) fn env.(fe_context) CONTEXT_SIZE
                             (Some (env.(fe_stack), Z.of_nat STACK_BYTES))
                             (harness_memory program_code memory ubpf_stack m) in
            Result v (stack_after m)
      end
  end.

(** *** The external VM *)

Definition dangerous_chars : text := text_of ";&|<>`$()".

(** [result_str.erase(...)] of blanks at both ends: space, tab, newline, return. *)
Definition is_trimmed (c : ascii) : bool :=
  let z := char_code c in (z =? 32) || (z =? 9) || (z =? 10) || (z =? 13).

Fixpoint trim_left (s : text) : text :=
  match s with
  | c :: s' => if is_trimmed c then trim_left s' else s
  | [] => []
  end.

Definition trim (s : text) : text := rev (trim_left (rev (trim_left s))).

(** [std::stoull(result_str, nullptr, 16)]: a sign negates in [uint64_t]. *)
Definition stoull16 (s : text) : option Z :=
  let s := skip_spaces s in
  let '(negative, s) :=
    match s with
    | c :: s' => if char_code c =? 45 then (true, s') else if char_code c =? 43 then (false, s') else (false, s)
    | [] => (false, [])
    end in
  v ← read_digits None (skip_prefix s);
  if v <=? UINT64_MAX then Some (if (negative : bool) then u64 (- v) else v) else None.

(** The command line [plugin_path "memory" --program "program"], as the shell
    hands it over. *)
Definition call_external_vm (plugin_path : text) (program_code memory : list Z) : option Z :=
  if bool_decide (plugin_path = []) then None
  else if bool_decide (Exists (fun c => c ∈ dangerous_chars) plugin_path) then None
  else
    result_str ← env.(fe_plugin) [bytes_to_hex_string memory; text_of "--program"; bytes_to_hex_string program_code];
    let result_str := trim result_str in
    if bool_decide (result_str = []) then None else stoull16 result_str.

Inductive fuzz_end : Type :=
| FuzzReturns (code : Z)
| FuzzThrows
| FuzzUndefined
| FuzzRuns.

(** The comparisons at the end. *)
Definition compare_results (interpreter_result jit_result : Z) (external : option Z) : fuzz_end :=
  if env.(fe_use_jit) && env.(fe_use_interpreter) && negb (interpreter_result =? jit_result) then FuzzThrows
  else
    match external with
    | Some external_result =>
        if env.(fe_use_interpreter) && negb (interpreter_result =? external_result) then FuzzThrows
        else if env.(fe_use_jit) && negb (jit_result =? external_result) then FuzzThrows
        else FuzzReturns 0
    | None => FuzzReturns 0
    end.

(** A stage that is switched off leaves zero; otherwise its result goes on. *)
Definition stage (enabled : bool) (run : call_end) (ubpf_stack : list Z) (k : Z -> list Z -> fuzz_end) : fuzz_end :=
  if negb enabled then k 0 ubpf_stack
  else
    match run with
    | Result v ubpf_stack => k v ubpf_stack
    | NotRun => FuzzReturns 0
    | Throws => FuzzThrows
    | CallUndefined => FuzzUndefined
    | CallRuns => FuzzRuns
    end.

Definition LLVMFuzzerTestOneInput (fuel : nat) (data : list Z) (m : gmap Z Z) : fuzz_end :=
  match split_input data [] with
  | None => FuzzUndefined
  | Some None => FuzzReturns (-1)
  | Some (Some (program, memory)) =>
      if env.(fe_verify) && negb (env.(fe_verifier) program) then FuzzReturns 0
      else
        stage env.(fe_use_interpreter) (call_ubpf_interpreter fuel program memory (replicate STACK_BYTES 0) m)
          (replicate STACK_BYTES 0) (fun interpreter_result ubpf_stack =>
        match split_input data memory with
        | Some (Some (program, memory)) =>
            stage env.(fe_use_jit) (call_ubpf_jit program memory ubpf_stack m) ubpf_stack (fun jit_result _ =>
            compare_results interpreter_result jit_result
              (call_external_vm env.(fe_external_vm) program memory))
        | _ => FuzzUndefined
        end)
  end.

End Harness.

(** ** Properties of the split *)

Lemma read_range_ok data start n :
  0 <= start -> start + n <= Z.of_nat (length data) ->
  read_range data start n = Some (take (Z.to_nat n) (drop (Z.to_nat start) data)).
Proof.
  intros H1 H2. unfold read_range.
  by rewrite (proj2 (Z.leb_le _ _) H1), (proj2 (Z.leb_le _ _) H2).
Qed.

(** The length of the program an input announces. *)
Lemma announced_range data : Forall byte_ok data -> (4 <= length data)%nat -> 0 <= le_decode (take 4 data) < 2 ^ 32.
Proof.
  intros Hb Hl. pose proof (le_decode_range (take 4 data)) as Hx. rewrite length_take_le in Hx by lia.
  apply Hx. by apply Forall_take.
Qed.

(** The tests of the code accept exactly these lengths. *)
Definition announced_ok (size n : Z) : Prop := 0 < n /\ n mod 8 = 0 /\ 4 + n <= size.

Lemma split_input_cases data :
  Forall byte_ok data -> Z.of_nat (length data) < 2 ^ 32 ->
  let n := le_decode (take 4 data) in
  split_input data [] =
    Some (if decide (4 <= Z.of_nat (length data) /\ announced_ok (Z.of_nat (length data)) n)
          then Some (take (Z.to_nat n) (drop 4 data), drop (Z.to_nat (4 + n)) data)
          else None).
Proof.
  intros Hb Hs n. unfold split_input, announced_ok. fold n.
  destruct (Z.ltb_spec (Z.of_nat (length data)) 4); [rewrite decide_False by lia; done |].
  pose proof (announced_range data Hb ltac:(lia)) as Hn. fold n in Hn.
  destruct (Z.ltb_spec (Z.of_nat (length data)) n); [rewrite decide_False by lia; done |].
  destruct (Z.eqb_spec n 0); [rewrite decide_False by lia; done |].
  destruct (Z.eqb_spec (n mod 8) 0) as [H8 | H8]; cbn [negb].
  2: { rewrite decide_False by lia. by destruct (_ <? u32 _). }
  assert (n + 4 < 2 ^ 32) as Hfit.
  { assert (2 ^ 32 mod 8 = 0) by done. pose proof (Z.div_mod n 8). lia. }
  rewrite (wrap_id 32) by lia.
  destruct (Z.ltb_spec (Z.of_nat (length data)) (n + 4)); [rewrite decide_False by lia; done |].
  rewrite decide_True by lia. rewrite (wrap_id 32) by lia.
  rewrite (read_range_ok data 4 n) by lia.
  destruct (Z.ltb_spec 0 (Z.of_nat (length data) - 4 - n)).
  - rewrite read_range_ok by lia. cbn [mbind option_bind]. do 3 f_equal.
    rewrite take_ge; [done |]. rewrite length_drop. lia.
  - cbn [mbind option_bind]. rewrite (drop_ge data (Z.to_nat (4 + n))) by lia. done.
Qed.

Lemma announced_length data program memory :
  data = le_encode 4 (Z.of_nat (length program)) ++ program ++ memory -> Z.of_nat (length data) < 2 ^ 32 ->
  le_decode (take 4 data) = Z.of_nat (length program).
Proof.
  intros E Hs. rewrite E, take_app_length' by (by rewrite length_le_encode). rewrite le_decode_encode.
  apply (wrap_id 32). rewrite E, !length_app in Hs. lia.
Qed.

(** C37: the harness takes an input (of less than 2^32 bytes) apart exactly when it is
    the length of a program in four bytes, the program (whole instructions, at least
    one) and the memory; it then finds that program and that memory, refuses every
    other input and never reads outside of one, in spite of the 32-bit sums in its tests. *)
Theorem split_input_exact (data program memory : list Z) :
  Forall byte_ok data -> Z.of_nat (length data) < 2 ^ 32 ->
  is_Some (split_input data []) /\
  (split_input data [] = Some (Some (program, memory)) <->
   data = le_encode 4 (Z.of_nat (length program)) ++ program ++ memory /\
   program <> [] /\ Z.of_nat (length program) mod 8 = 0).
Proof.
  intros Hb Hs. rewrite split_input_cases by done. split; [by eexists |].
  set (n := le_decode (take 4 data)). case_decide as Hd.
  - destruct Hd as (H4 & Hn0 & Hn8 & Hn). pose proof (announced_range data Hb ltac:(lia)) as Hr. fold n in Hr.
    split.
    + intros [= <- <-]. rewrite length_take_le by (rewrite length_drop; lia). rewrite Z2Nat.id by lia.
      split; [| split; [| done]].
      * rewrite <- (take_drop 4 data) at 1. f_equal.
        -- unfold n. rewrite <- (le_encode_decode (take 4 data)) at 1; [| by apply Forall_take].
           by rewrite length_take_le by lia.
        -- rewrite <- (take_drop (Z.to_nat n) (drop 4 data)) at 1. f_equal. rewrite drop_drop. f_equal. lia.
      * intros E. apply (f_equal length) in E. rewrite length_take_le in E by (rewrite length_drop; lia).
        cbn in E. lia.
    + intros (E & Hne & H8).
      assert (length (le_encode 4 (Z.of_nat (length program))) = 4%nat) as L4 by apply length_le_encode.
      assert (n = Z.of_nat (length program)) as En by (by apply (announced_length data program memory)).
      rewrite En, E, drop_app_length' by done. rewrite Nat2Z.id, take_app_length.
      rewrite app_assoc, drop_app_length'; [done |]. rewrite length_app, L4. lia.
  - split; [discriminate |]. intros (E & Hne & H8). destruct Hd.
    assert (length (le_encode 4 (Z.of_nat (length program))) = 4%nat) as L4 by apply length_le_encode.
    assert (0 < length program)%nat by (destruct program; [done | cbn; lia]).
    assert (n = Z.of_nat (length program)) as -> by (by apply (announced_length data program memory)).
    rewrite E, !length_app, L4. unfold announced_ok. lia.
Qed.

Lemma split_input_exact_witness :
  split_input ([8; 0; 0; 0] ++ [0x95; 0; 0; 0; 0; 0; 0; 0] ++ [1; 2]) [] =
  Some (Some ([0x95; 0; 0; 0; 0; 0; 0; 0], [1; 2])).
Proof.
  refine (proj2 (proj2 (split_input_exact _ _ _ _ _)) _); [repeat constructor; lia | cbn; lia |].
  split; [reflexivity |]. split; [discriminate | reflexivity].
Defined.

(** ** The exchange with the external VM *)

Lemma trim_left_digits c s d : is_digit c d -> trim_left (c :: s) = c :: s.
Proof.
  intros Hc. cbn [trim_left]. unfold is_trimmed. by rewrite !(dg_other _ _ Hc) by set_solver.
Qed.

Lemma trim_digits s : digits s -> s <> [] -> trim (s ++ [char_of 10]) = s.
Proof.
  intros Hs Hne. unfold trim. destruct Hs as [| c s [d Hd] Hs]; [done |].
  cbn [app]. rewrite (trim_left_digits c _ d Hd).
  change (c :: s ++ [char_of 10]) with ((c :: s) ++ [char_of 10]). rewrite rev_app_distr. cbn [rev app].
  change (trim_left (char_of 10 :: rev s ++ [c])) with (trim_left (rev s ++ [c])).
  destruct (rev s) as [| c' s'] eqn:E.
  - cbn [app]. rewrite (trim_left_digits c _ d Hd). by destruct s as [| ? s]; [| apply app_eq_nil in E as [_ ?]].
  - assert (exists d', is_digit c' d') as [d' Hd'].
    { apply (proj1 (list.Forall_forall _ _) Hs). rewrite <- (rev_involutive s), E. cbn [rev]. set_solver. }
    cbn [app]. rewrite (trim_left_digits c' _ d' Hd'). rewrite <- (rev_involutive s), E.
    change (c' :: s' ++ [c]) with ((c' :: s') ++ [c]). by rewrite rev_app_distr.
Qed.

Lemma skip_prefix_digits s : digits s -> skip_prefix s = s.
Proof.
  intros Hs. destruct Hs as [| c0 s _ Hs]; [done |]. destruct Hs as [| c1 s [d Hd] Hs]; [done |].
  destruct s as [| c2 s]; [done |]. cbn [skip_prefix].
  rewrite !(dg_other _ _ Hd) by set_solver. by rewrite andb_false_r.
Qed.

Lemma stoull16_digits c s d :
  is_digit c d -> digits s ->
  stoull16 (c :: s) = v ← read_digits None (c :: s); if v <=? UINT64_MAX then Some v else None.
Proof.
  intros Hc Hs. unfold stoull16. cbn [skip_spaces]. rewrite (dg_space _ _ Hc).
  rewrite !(dg_other _ _ Hc) by set_solver. rewrite skip_prefix_digits; [done |]. constructor; eauto.
Qed.

Lemma result_roundtrip v : stoull16 (trim (print_result v)) = Some (u64 v).
Proof.
  unfold print_result. pose proof (wrap_range 64 v ltac:(lia)) as Hv.
  pose proof (to_hex_digits 16 (u64 v) [] ltac:(constructor)) as Hd.
  destruct (read_to_hex 16 (u64 v) [] None) as (k & _ & Hk); [cbn; lia | lia |].
  destruct (to_hex_cons 15 (u64 v) []) as (c & s & E). rewrite E in *.
  rewrite trim_digits by done. inversion Hd as [| ? ? [d Hc] Hs]; subst.
  rewrite (stoull16_digits c s d) by done. rewrite Hk. cbn [read_digits mbind option_bind default].
  rewrite Z.mul_0_l, Z.add_0_l. by rewrite (proj2 (Z.leb_le _ _)) by (unfold UINT64_MAX; lia).
Qed.

Lemma print_result_trimmed v : trim (print_result v) <> [].
Proof. intros E. pose proof (result_roundtrip v) as H. rewrite E in H. discriminate. Qed.

(** No argument of hexadecimal text looks like an option. *)
Lemma hex_no_dashes bytes : Forall byte_ok bytes -> starts_with_dashes (bytes_to_hex_string bytes) = false.
Proof.
  intros Hb. destruct Hb as [| b bytes Hb _]; [done |]. cbn [bytes_to_hex_string hex_byte app starts_with_dashes].
  assert (is_digit (hex_digit (b / 16)) (b / 16)) as Hd.
  { apply hex_digit_read. unfold byte_ok in Hb. split; [apply Z.div_pos; lia | apply Z.div_lt_upper_bound; lia]. }
  by rewrite (dg_other _ _ Hd) by set_solver.
Qed.

Lemma plugin_reads_arguments program memory :
  Forall byte_ok program -> Forall byte_ok memory ->
  parse_args [bytes_to_hex_string memory; text_of "--program"; bytes_to_hex_string program] =
    Ok (PluginOptions false UBPF_EXECUTION_PROFILE_LEGACY (bytes_to_hex_string program) (bytes_to_hex_string memory)).
Proof. intros Hp Hm. unfold parse_args. by rewrite hex_no_dashes. Qed.

(** The path passes the check for characters of the shell. *)
Definition path_accepted (path : text) : Prop := path <> [] /\ ~ Exists (fun c => c ∈ dangerous_chars) path.

(** C27: with the plugin as its external VM, the harness gets the value of a run
    of the very program and memory it handed over: the two hexadecimal texts come
    out of the plugin's argument list as the bytes that went in, and the value it
    prints is the value the harness reads.  When the plugin fails the harness has
    no value. *)
Theorem external_vm_runs_input (env : fuzz_env) (penv : plugin_env) (m : gmap Z Z) (path : text)
    (program memory : list Z) :
  env.(fe_plugin) = plugin_process penv m -> path_accepted path ->
  Forall byte_ok program -> program <> [] -> Z.of_nat (length program) mod 8 = 0 -> Forall byte_ok memory ->
  call_external_vm env path program memory =
    match main_prepare penv (PluginOptions false UBPF_EXECUTION_PROFILE_LEGACY (bytes_to_hex_string program)
                               (bytes_to_hex_string memory)) (insts_of_bytes program) with
    | Some (Ok vm) =>
        match main_interpret_legacy penv vm memory m with
        | Prints v => Some (u64 v)
        | _ => None
        end
    | _ => None
    end.
Proof.
  intros Hplug [Hp1 Hp2] Hb Hne H8 Hm. unfold call_external_vm.
  rewrite !bool_decide_eq_false_2 by done. rewrite Hplug. unfold plugin_process, plugin_main.
  rewrite plugin_reads_arguments by done. cbn [opt_program opt_memory opt_jit opt_profile].
  rewrite (bool_decide_eq_false_2 (bytes_to_hex_string program = [])) by (by destruct program).
  rewrite !hex_decodes by done. unfold bytes_to_ebpf_inst. rewrite H8. cbn [Z.eqb].
  destruct (main_prepare _ _ _) as [[vm | e] |]; [| done ..].
  rewrite (bool_decide_eq_false_2 (UBPF_EXECUTION_PROFILE_LEGACY = _)) by done.
  destruct (main_interpret_legacy _ _ _ _) as [v | | |]; [| done ..]. cbn [mbind option_bind].
  rewrite bool_decide_eq_false_2 by apply print_result_trimmed. apply result_roundtrip.
Qed.

(** A process with the plugin as its external VM. *)
Definition test_fuzz_env : fuzz_env := {|
  fe_library := test_library;
  fe_image := test_image;
  fe_target := JitArm64;
  fe_create _ := true;
  fe_load := test_os;
  fe_mprotect _ _ _ := true;
  fe_bounds_fn := 12288;
  fe_debug_fn := 12304;
  fe_print_fn := 12320;
  fe_context := 1048576;
  fe_program := 2097152;
  fe_memory := 3145728;
  fe_stack := 4194304;
  fe_stack_left := [];
  fe_garbage := replicate 16 0;
  fe_alloc _ := true;
  fe_jit := (test_env, test_jit_os);
  fe_native _ _ _ _ _ m := (7, m);
  fe_use_jit := true;
  fe_use_interpreter := true;
  fe_verify := false;
  fe_verifier _ := true;
  fe_external_vm := text_of "plugin";
  fe_plugin := plugin_process test_plugin_env ∅;
|}.

Lemma external_vm_runs_input_witness :
  call_external_vm test_fuzz_env (text_of "plugin") (bytes_of_insts sqrt_program) [1; 2] = Some 7.
Proof.
  rewrite (external_vm_runs_input test_fuzz_env test_plugin_env ∅ (text_of "plugin") (bytes_of_insts sqrt_program) [1; 2]);
    [vm_compute; reflexivity | reflexivity | | | discriminate | reflexivity | repeat constructor; lia].
  - split; [discriminate |]. apply (bool_decide_unpack _). vm_compute. exact I.
  - apply (bool_decide_unpack _). vm_compute. exact I.
Defined.

(** ** The bounds check of the harness *)

(** The context at [context] says what [ubpf_context_from] wrote: a stack and a
    packet that do not wrap around. *)
Record context_intact (m : memory) (context stack stack_len packet packet_len : Z) : Prop := ContextIntact {
  ci_stack : context_field m context 4 = stack;
  ci_stack_end : context_field m context 5 = stack + stack_len;
  ci_packet : context_field m context 2 = packet;
  ci_packet_end : context_field m context 3 = packet + packet_len;
  ci_context : 0 <= context /\ context + CONTEXT_SIZE < 2 ^ 64;
}.

(** Two regions with a gap of [n] bytes between them. *)
Definition apart (n a la b lb : Z) : Prop := a + la + n <= b \/ b + lb + n <= a.

Lemma fuzz_bounds_classified m context addr size :
  fuzz_bounds_check m context addr size = true <->
  ubpf_classify_address m context addr <> Unknown /\ ubpf_classify_address m context (u64 (addr + size - 1)) <> Unknown.
Proof. unfold fuzz_bounds_check. repeat case_bool_decide; split; (done || by intros []). Qed.

Lemma classified_known m context stack stack_len packet packet_len v :
  context_intact m context stack stack_len packet packet_len ->
  ubpf_classify_address m context v <> Unknown <->
  stack <= v < stack + stack_len \/ context <= v < context + CONTEXT_SIZE \/ packet <= v < packet + packet_len.
Proof.
  intros [E1 E2 E3 E4 Hc]. unfold ubpf_classify_address, CONTEXT_SIZE in *.
  rewrite E1, E2, E3, E4, (wrap_id 64) by lia.
  repeat match goal with
  | |- context [?x <=? ?y] => destruct (Z.leb_spec x y); cbn [andb]
  | |- context [?x <? ?y] => destruct (Z.ltb_spec x y); cbn [andb]
  end; intuition (discriminate || lia).
Qed.

(** While the context says what the harness wrote, and its three regions are
    at least [size] bytes apart, the bounds check of the harness accepts exactly
    the accesses that lie inside the stack, the context or the packet, though it
    looks at the first and the last byte only. *)
Theorem fuzz_bounds_exact (m : memory) (context stack stack_len packet packet_len addr size : Z) :
  context_intact m context stack stack_len packet packet_len ->
  apart size stack stack_len context CONTEXT_SIZE -> apart size stack stack_len packet packet_len ->
  apart size context CONTEXT_SIZE packet packet_len ->
  0 < size -> 0 <= addr -> addr + size <= UINT64_MAX ->
  fuzz_bounds_check m context addr size = true <->
  inside addr size stack stack_len \/ inside addr size context CONTEXT_SIZE \/ inside addr size packet packet_len.
Proof.
  intros Hi H1 H2 H3 Hs Ha He. rewrite fuzz_bounds_classified. unfold UINT64_MAX in He.
  rewrite (wrap_id 64) by lia. rewrite !(classified_known _ _ _ _ _ _ _ Hi).
  unfold inside, apart, CONTEXT_SIZE in *. lia.
Qed.

Definition sample_context : memory :=
  place 1048576 (context_bytes (ubpf_context_from 2097152 3145728 4194304 [0x95] [1; 2; 3] (replicate 16 0))) ∅.

Lemma fuzz_bounds_exact_witness : fuzz_bounds_check sample_context 1048576 4194312 8 = true.
Proof.
  refine (proj2 (fuzz_bounds_exact sample_context 1048576 4194304 16 3145728 3 4194312 8 _ _ _ _ _ _ _) _);
    [constructor; [vm_compute; reflexivity .. |] | ..]; unfold apart, CONTEXT_SIZE, UINT64_MAX, inside; lia.
Defined.

(** The context is inside the memory the program may write.  This program, which
    no verifier has seen, moves the ends of the stack in it to the ends of the
    address space: its next load is accepted and reads unmapped memory. *)
Definition forging_program : list ebpf_inst :=
  [Inst 0x7a 1 0 32 0; Inst 0x7a 1 0 40 (-1); Inst 0xb7 3 0 0 4096; Inst 0x79 0 3 0 0; Inst 0x95 0 0 0 0].

Theorem bounds_can_be_forged :
  fuzz_bounds_check (harness_memory test_fuzz_env (bytes_of_insts forging_program) [] [] ∅)
    test_fuzz_env.(fe_context) 4096 8 = false /\
  call_ubpf_interpreter test_fuzz_env 10 (bytes_of_insts forging_program) [] [] ∅ =
    CallUndefined.
Proof. split; vm_compute; reflexivity. Qed.

(** ** What the harness runs *)

(** The VM the harness loads a program on, before it registers its dispatcher. *)
Record fresh_vm (vm : ubpf_vm) : Prop := FreshVm {
  fv_dispatcher : vm.(dispatcher) = 0;
  fv_funcs : vm.(ext_funcs) = replicate 64 0;
  fv_profile : vm.(execution_profile) = UBPF_EXECUTION_PROFILE_LEGACY;
  fv_jit : vm.(jitted_result).(compile_result) = UBPF_JIT_COMPILE_FAILURE;
}.

Lemma created_fresh target alloc vm print :
  ubpf_create target alloc = Some vm ->
  fresh_vm (ubpf_set_error_print (ubpf_toggle_undefined_behavior_check vm true).1 print).
Proof.
  unfold ubpf_create. repeat (destruct (negb _); [discriminate |]). intros [= <-].
  unfold ubpf_set_error_print. by destruct (_ =? _).
Qed.

Lemma fresh_forget vm vm' : forget_code vm' = forget_code vm -> fresh_vm vm -> fresh_vm vm'.
Proof.
  intros E [H1 H2 H3 H4]. constructor.
  - transitivity (dispatcher (forget_code vm')); [done |]. by rewrite E.
  - transitivity (ext_funcs (forget_code vm')); [done |]. by rewrite E.
  - transitivity (execution_profile (forget_code vm')); [done |]. by rewrite E.
  - transitivity (compile_result (jitted_result (forget_code vm'))); [done |]. by rewrite E.
Qed.

(** Without a dispatcher and with an empty table no call of a helper is loaded. *)
Lemma fresh_no_helper_calls `{HostEnv} vm prog :
  fresh_vm vm -> loaded vm prog -> Forall (fun inst => calls_out inst = false) prog.
Proof.
  intros Hf Hld. apply Forall_lookup. intros k inst Hk. destruct (calls_out inst) eqn:Hc; [| done].
  destruct (loaded_external_call vm prog k inst Hld Hk Hc) as (_ & [(Hd & _) | (_ & Hlt & Hne)]).
  - by rewrite (fv_dispatcher _ Hf) in Hd.
  - rewrite (fv_funcs _ Hf) in Hne. destruct Hne.
    destruct (replicate 64 0 !! Z.to_nat inst.(imm)) as [v |] eqn:E; [| done].
    by apply lookup_replicate in E as [-> _].
Qed.

(** The VM the harness gets for a program: loaded, with its limit. *)
Lemma created_vm env code vm :
  os_sound env.(fe_load) -> create_ubpf_vm env code = Some (Some vm) ->
  exists vm0, fresh_vm vm0 /\ @loaded (harness_host env) vm0 (insts_of_bytes code) /\
    vm = (ubpf_set_instruction_limit
            (set_dispatcher_validate env.(fe_image).(validater_at)
               (set_dispatcher env.(fe_image).(dispatcher_at) (set_bounds_check_enabled true vm0))) 10000).1.1.
Proof.
  intros Hos. unfold create_ubpf_vm. destruct (ubpf_create _ _) as [vm1 |] eqn:Ec; [| discriminate].
  apply (created_fresh _ _ _ env.(fe_print_fn)) in Ec. cbv zeta. set (vm2 := ubpf_set_error_print _ _) in *.
  destruct (@ubpf_load (harness_host env) vm2 env.(fe_load) code) as [[vm3 r] |] eqn:El; [| discriminate].
  destruct (@load_result (harness_host env) _ _ _ _ _ Hos El) as [Hfr Hr]. cbn [mbind option_bind].
  destruct r as [[] | e]; [| discriminate]. destruct Hr as [_ Hld].
  pose proof (fresh_forget _ _ Hfr Ec) as Hf3. unfold ubpf_register_external_dispatcher, update_jitted.
  rewrite decide_False; [| cbn; by rewrite (fv_jit _ Hf3)]. cbn [Z.eqb negb ubpf_set_instruction_limit].
  intros [= <-]. by exists vm3.
Qed.

Lemma harness_vm_fields env vm :
  (harness_vm env vm).(execution_profile) = vm.(execution_profile) /\
  (harness_vm env vm).(instruction_limit) = vm.(instruction_limit).
Proof. unfold harness_vm, ubpf_register_debug_fn, ubpf_register_data_bounds_check. by repeat case_match. Qed.

(** C20: whatever program the fuzzer finds, the harness's run of the interpreter
    ends: a program that is loaded makes no call of a helper, because the
    dispatcher is registered only after it, and within 10001 turns of the loop the
    run is over. *)
Theorem fuzz_run_ends (env : fuzz_env) (code memory ubpf_stack : list Z) (m : gmap Z Z) (vm : ubpf_vm) :
  os_sound env.(fe_load) -> create_ubpf_vm env code = Some (Some vm) ->
  Forall (fun inst => calls_out inst = false) (insts_of_bytes code) /\
  call_ubpf_interpreter env (S (Z.to_nat 10000)) code memory ubpf_stack m <> CallRuns.
Proof.
  intros Hos Hc. destruct (created_vm env code vm Hos Hc) as (vm0 & Hf & Hld & ->).
  split; [by apply (@fresh_no_helper_calls (harness_host env) vm0) |].
  unfold call_ubpf_interpreter. rewrite Hc. set (vm := harness_vm env _).
  assert (vm.(execution_profile) = UBPF_EXECUTION_PROFILE_LEGACY) as Hp
    by (etransitivity; [apply harness_vm_fields | apply (fv_profile _ Hf)]).
  assert (vm.(instruction_limit) = 10000) as Hl by (etransitivity; [apply harness_vm_fields | done]).
  unfold ubpf_exec_ex.
  rewrite decide_False by (by rewrite Hp). unfold ubpf_exec_ex_legacy.
  destruct (insts vm =? 0); cbn [snd]; [by destruct (fe_verify env) |].
  destruct (_ && _); cbn [snd]; [by destruct (fe_verify env) |].
  set (st := initial_state _ _ _ _).
  destruct (@exec_loop_limit (harness_host env) (set_execution_started true vm)
              (harness_args env) (Z.to_nat 10000) st) as [r Hr]; [by cbn; rewrite Hl | |].
  { change (limit st) with (vm.(instruction_limit)). rewrite Hl. lia. }
  rewrite Hr.
  destruct r; try discriminate. by destruct (fe_verify env).
Qed.

Lemma fuzz_run_ends_witness :
  call_ubpf_interpreter test_fuzz_env (S (Z.to_nat 10000)) (bytes_of_insts forging_program) [] [] ∅ <> CallRuns.
Proof.
  destruct (create_ubpf_vm test_fuzz_env (bytes_of_insts forging_program)) as [[vm |] |] eqn:E.
  - exact (proj2 (fuzz_run_ends test_fuzz_env (bytes_of_insts forging_program) [] [] ∅ vm test_os_sound E)).
  - exfalso. vm_compute in E. discriminate.
  - exfalso. vm_compute in E. discriminate.
Defined.
