(* ===== verification/Runner.v ===== *)
(** * Runner: the command-line runner

    vm/test.c, the sample embedder: it reads a program (instructions or an object
    file), configures a VM, loads and runs the program and prints the value.
    Modelled here: its relocation and bounds-check functions over the table of
    maps, its map helpers over memory, the registration of its helpers and
    [main] from the options [getopt_long] found to the exit code.  Reading files
    and printing are not modelled; the contents of the files are arguments. *)

From Stdlib Require Import ZArith Lia Bool Ascii String.
From stdpp Require Import base list gmap strings numbers.
From S2P Require Import Prelude Ebpf InstValid Mem Vm Validate Load Alu Checks Interp InterpSound SafeTags Safe Jit Elf ElfSound Plugin.

Local Open Scope Z_scope.
Local Open Scope cbits_scope.

(** ** Maps *)

(** [struct bpf_map_def] (bpf/bpf.h), as far as it is used. *)
Record bpf_map_def : Type := MapDef {
  def_type : Z;
  def_key_size : Z;
  def_value_size : Z;
  def_max_entries : Z;
}.

Definition BPF_MAP_TYPE_ARRAY : Z := 2.
Definition MAP_DEF_SIZE : Z := 28.
Definition MAP_ENTRY_SIZE : Z := 48.

Record map_entry_t : Type := MapEntry {
  map_definition : bpf_map_def;
  map_name : list Z;
  array : Z;
}.

(** The globals: the address of the array of entries, the entries in it, its
    capacity; the copy of the global data. *)
Record runner_globals : Type := Globals {
  _map_entries : Z;
  entries : list map_entry_t;
  _map_entries_capacity : Z;
  _global_data : Z;
  _global_data_size : Z;
}.

Definition initial_globals : runner_globals := Globals 0 [] 0 0 0.

Definition entry_address (g : runner_globals) (i : nat) : Z := g.(_map_entries) + MAP_ENTRY_SIZE * Z.of_nat i.

(** The copy is made on the first call; [calloc] gives its address. *)
Definition do_data_relocation (calloc : Z -> Z) (g : runner_globals) (map_data_size symbol_offset : Z)
    : runner_globals * Z :=
  let g := if g.(_global_data) =? 0
           then Globals g.(_map_entries) g.(entries) g.(_map_entries_capacity) (calloc map_data_size) map_data_size
           else g in
  (g, u64 (g.(_global_data) + symbol_offset)).

Definition data_relocation_bounds_check_function (g : runner_globals) (addr size : Z) : bool :=
  (g.(_global_data) <=? addr) && (u64 (addr + size) <=? u64 (g.(_global_data) + g.(_global_data_size))).

(** [*(struct bpf_map_def* )(map_data + symbol_offset)]; [None]: outside the section. *)
Definition read_map_def (map_data : list Z) (symbol_offset : Z) : option bpf_map_def :=
  if (0 <=? symbol_offset) && (symbol_offset + MAP_DEF_SIZE <=? Z.of_nat (length map_data)) then
    let field i := le_decode (take 4 (drop (Z.to_nat (symbol_offset + 4 * i)) map_data)) in
    Some (MapDef (field 0) (field 1) (field 2) (field 3))
  else None.

(** The entry with this name, from index [i] on. *)
Fixpoint find_entry (name : list Z) (es : list map_entry_t) (i : nat) : option nat :=
  match es with
  | [] => None
  | e :: es' => if bool_decide (e.(map_name) = name) then Some i else find_entry name es' (S i)
  end.

(** The value is the address of the entry, 0 for a definition that is refused.
    [realloc] gives the array's new address, [calloc] that of the map's storage. *)
Definition do_map_relocation (realloc : Z -> Z -> Z) (calloc : Z -> Z -> Z) (g : runner_globals)
    (map_data symbol_name : list Z) (symbol_offset symbol_size : Z) : option (runner_globals * Z) :=
  def ← read_map_def map_data symbol_offset;
  if symbol_size <? MAP_DEF_SIZE then Some (g, 0)
  else if negb (def.(def_type) =? BPF_MAP_TYPE_ARRAY) then Some (g, 0)
  else if negb (def.(def_key_size) =? 4) then Some (g, 0)
  else
    match find_entry symbol_name g.(entries) 0 with
    | Some i => Some (g, entry_address g i)
    | None =>
        let g :=
          if Z.of_nat (length g.(entries)) =? g.(_map_entries_capacity) then
            let capacity := if g.(_map_entries_capacity) =? 0 then 4 else g.(_map_entries_capacity) * 2 in
            Globals (realloc g.(_map_entries) (capacity * MAP_ENTRY_SIZE)) g.(entries) capacity
              g.(_global_data) g.(_global_data_size)
          else g in
        let e := MapEntry def symbol_name (calloc def.(def_max_entries) def.(def_value_size)) in
        Some (Globals g.(_map_entries) (g.(entries) ++ [e]) g.(_map_entries_capacity) g.(_global_data)
                g.(_global_data_size), entry_address g (length g.(entries)))
    end.

Definition storage_size (e : map_entry_t) : Z :=
  u64 (e.(map_definition).(def_max_entries) * e.(map_definition).(def_value_size)).

Definition map_relocation_bounds_check_function (g : runner_globals) (addr size : Z) : bool :=
  existsb (fun e => (e.(array) <=? addr) && (u64 (addr + size) <=? u64 (e.(array) + storage_size e))) g.(entries).

(** *** Map helpers

    [map] is the address of an entry; [None] when it is none, or when memory that
    is not mapped is touched. *)

Definition entry_at (g : runner_globals) (map : Z) : option map_entry_t :=
  let i := (map - g.(_map_entries)) / MAP_ENTRY_SIZE in
  if (0 <=? i) && (map =? entry_address g (Z.to_nat i)) then g.(entries) !! Z.to_nat i else None.

Definition element_address (e : map_entry_t) (index : Z) : Z :=
  u64 (e.(array) + index * e.(map_definition).(def_value_size)).

(** Entries of other types make the helpers exit; none is ever created. *)
Definition bpf_map_lookup_elem_impl (g : runner_globals) (map key : Z) (m : memory) : option Z :=
  e ← entry_at g map;
  if negb (e.(map_definition).(def_type) =? BPF_MAP_TYPE_ARRAY) then None
  else
    index ← deref m key 4;
    if e.(map_definition).(def_max_entries) <=? index then Some 0 else Some (element_address e index).

Definition bpf_map_update_elem_impl (g : runner_globals) (map key value : Z) (m : memory) : option (Z * memory) :=
  e ← entry_at g map;
  if negb (e.(map_definition).(def_type) =? BPF_MAP_TYPE_ARRAY) then None
  else
    index ← deref m key 4;
    if e.(map_definition).(def_max_entries) <=? index then Some (-1, m)
    else
      bytes ← load_bytes m value (Z.to_nat e.(map_definition).(def_value_size));
      m ← store_bytes m (element_address e index) bytes;
      Some (0, m).

Definition bpf_map_delete_elem_impl (g : runner_globals) (map key : Z) (m : memory) : option (Z * memory) :=
  e ← entry_at g map;
  if negb (e.(map_definition).(def_type) =? BPF_MAP_TYPE_ARRAY) then None
  else
    index ← deref m key 4;
    if e.(map_definition).(def_max_entries) <=? index then Some (-1, m)
    else
      m ← store_bytes m (element_address e index) (replicate (Z.to_nat e.(map_definition).(def_value_size)) 0);
      Some (0, m).

(** ** The runner as an embedder *)

Definition MAP_LOOKUP : Z := 6.
Definition MAP_UPDATE : Z := 7.
Definition MAP_DELETE : Z := 8.

Record runner_env : Type := RunnerEnv {
  re_library : c_library;
  re_trash : Z;  (* what the void function trash_registers leaves in the result register *)
  re_helper_at : Z -> Z;  (* the address of each helper *)
  re_relocation_at : Z;  (* of the relocation function *)
  re_bounds_at : Z;  (* of the bounds-check function *)
  re_calculator_at : Z;  (* of stack_usage_calculator *)
  re_target : jit_target;
  re_secret : Z;
  re_blinding : option text;  (* UBPF_ENABLE_CONSTANT_BLINDING *)
  re_create : nat -> bool;
  re_load : os_calls;
  re_unload : bool;  (* the calloc of ubpf_unload_code *)
  re_mprotect : Z -> Z -> prot -> bool;
  re_relocation : Z -> Z -> Z -> Z -> Z -> Z -> Z -> Z;  (* the answers of the relocation function *)
  re_elf_base : Z;
  re_elf_allocs : elf_allocs;
  re_memory : Z;  (* the address of the memory file's contents *)
  re_run : run_env;
  re_jit : jit_env * jit_os;
  re_native : list Z -> Z -> Z -> Z -> option (Z * Z) -> memory -> Z * memory;
}.

Definition stack_usage_calculator : Z := 32.

(** The helpers by index; [None] is undefined behaviour, as the access to memory that
    is not mapped.  [memfrob] returns its first argument, the others that test_helpers.h
    has too do the same here. *)
Definition call_runner_helper (env : runner_env) (g : runner_globals) (idx a b c d e : Z) (m : memory)
    : option (Z * memory) :=
  if idx =? 1 then (m' ← memfrob_bytes m a (Z.to_nat b); Some (a, m'))
  else if idx =? 2 then Some (env.(re_trash), m)
  else if idx =? 3 then Some (u32 (env.(re_library).(c_sqrt) (u32 a)), m)
  else if idx =? MAP_LOOKUP then (v ← bpf_map_lookup_elem_impl g a b m; Some (v, m))
  else if idx =? MAP_UPDATE then bpf_map_update_elem_impl g a b c m
  else if idx =? MAP_DELETE then bpf_map_delete_elem_impl g a b m
  else call_test_helper env.(re_library) idx a b c d e m.

Definition runner_indices : list Z := [0; 1; 2; 3; 4; 5; MAP_LOOKUP; MAP_UPDATE; MAP_DELETE].

Definition runner_index (env : runner_env) (fn : Z) : Z :=
  default (-1) (snd <$> list_find (fun i => env.(re_helper_at) i = fn) runner_indices).

(** The option [-d] selects the relocation functions. *)
Definition runner_bounds_check (data_relocation : bool) (g : runner_globals) (addr size : Z) : bool :=
  if data_relocation then data_relocation_bounds_check_function g addr size
  else map_relocation_bounds_check_function g addr size.

(** What the bounds functions are there to grant: the copy of the global data, or
    the storage of the maps. *)
Definition runner_grants (data_relocation : bool) (g : runner_globals) (i : Z) : Prop :=
  if data_relocation then g.(_global_data) <= i < g.(_global_data) + g.(_global_data_size)
  else Exists (fun e => e.(array) <= i < e.(array) + storage_size e) g.(entries).

Definition runner_host (env : runner_env) (data_relocation : bool) (g : runner_globals) : HostEnv := {|
  call_helper fn a b c d e cookie m := call_runner_helper env g (runner_index env fn) a b c d e m;
  call_dispatcher _ _ _ _ _ _ _ _ m := None;  (* none is registered *)
  call_validate _ _ _ := false;
  call_bounds_check fn ctx addr size m := runner_bounds_check data_relocation g addr size;
  call_stack_usage _ _ _ _ := stack_usage_calculator;
  call_debug _ _ _ _ _ _ _ _ m := m;
  host_granted := runner_grants data_relocation g;
|}.

(** ** Registration *)

Definition runner_name (idx : Z) : option string :=
  ["gather_bytes"; "memfrob"; "trash_registers"; "sqrti"; "strcmp_ext"; "unwind"; "bpf_map_lookup_elem";
   "bpf_map_update_elem"; "bpf_map_delete_elem"]%string !! Z.to_nat idx.

Definition register_safe_scalar_helper (env : runner_env) (vm : ubpf_vm) (index : Z) : ubpf_vm * Z :=
  ubpf_register_safe_helper_impl vm env.(re_mprotect)
    (Some (HelperDescriptor index (runner_name index) (env.(re_helper_at) index) 0 0 0)).

Definition register_plain (env : runner_env) (vm : ubpf_vm) (index : Z) : ubpf_vm * Z :=
  ubpf_register vm env.(re_mprotect) index (runner_name index) (env.(re_helper_at) index).

(** A chain of [||]: the first registration that fails ends it. *)
Fixpoint register_chain (register : ubpf_vm -> Z -> ubpf_vm * Z) (indices : list Z) (vm : ubpf_vm) : ubpf_vm * Z :=
  match indices with
  | [] => (vm, 0)
  | i :: indices' =>
      let '(vm, r) := register vm i in
      if negb (r =? 0) then (vm, -1) else register_chain register indices' vm
  end.

Definition register_functions (env : runner_env) (vm : ubpf_vm) (profile : ubpf_execution_profile) : ubpf_vm * Z :=
  let '(vm, r) :=
    if bool_decide (profile = UBPF_EXECUTION_PROFILE_SAFE)
    then register_chain (register_safe_scalar_helper env) [0; 1; 2; 3; 4; 5] vm
    else register_chain (register_plain env) [0; 1; 2; 3; 4; 5] vm in
  if negb (r =? 0) then (vm, -1)
  else
    let vm := (ubpf_set_unwind_function_index vm 5).1 in
    register_chain (register_plain env) [MAP_LOOKUP; MAP_UPDATE; MAP_DELETE] vm.

(** ** main *)

Record runner_options : Type := RunnerOptions {
  ro_mem : option text;
  ro_main : option (list Z);
  ro_profile : ubpf_execution_profile;
  ro_jit : bool;
  ro_unload : bool;
  ro_reload : bool;
  ro_data : bool;
}.

Definition default_options : runner_options :=
  RunnerOptions None None UBPF_EXECUTION_PROFILE_LEGACY false false false false.

Definition parse_execution_profile (value : text) : option ubpf_execution_profile :=
  if bool_decide (value = text_of "legacy") then Some UBPF_EXECUTION_PROFILE_LEGACY
  else if bool_decide (value = text_of "safe") then Some UBPF_EXECUTION_PROFILE_SAFE
  else None.

(** What [getopt_long] returns, with [optarg]. *)
Inductive getopt_result : Type :=
| OptMem (optarg : text)
| OptMain (optarg : text)
| OptProfile (optarg : text)
| OptJit | OptData
| OptRegisterOffset (optarg : text)
| OptHelp | OptUnload | OptReload
| OptOther.

(** The loop: the options, or the exit code it returns with. *)
Fixpoint parse_getopt (opts : list getopt_result) (o : runner_options) : result runner_options Z :=
  match opts with
  | [] => Ok o
  | OptMem f :: opts' => parse_getopt opts' (RunnerOptions (Some f) o.(ro_main) o.(ro_profile) o.(ro_jit)
                                               o.(ro_unload) o.(ro_reload) o.(ro_data))
  | OptMain f :: opts' => parse_getopt opts' (RunnerOptions o.(ro_mem) (Some (char_code <$> f)) o.(ro_profile)
                                                o.(ro_jit) o.(ro_unload) o.(ro_reload) o.(ro_data))
  | OptProfile p :: opts' =>
      match parse_execution_profile p with
      | None => Err 1
      | Some p => parse_getopt opts' (RunnerOptions o.(ro_mem) o.(ro_main) p o.(ro_jit)
                                        o.(ro_unload) o.(ro_reload) o.(ro_data))
      end
  | OptJit :: opts' => parse_getopt opts' (RunnerOptions o.(ro_mem) o.(ro_main) o.(ro_profile) true
                                             o.(ro_unload) o.(ro_reload) o.(ro_data))
  | OptData :: opts' => parse_getopt opts' (RunnerOptions o.(ro_mem) o.(ro_main) o.(ro_profile) o.(ro_jit)
                                              o.(ro_unload) o.(ro_reload) true)
  | OptRegisterOffset _ :: opts' => parse_getopt opts' o
  | OptHelp :: _ => Err 0
  | OptUnload :: opts' => parse_getopt opts' (RunnerOptions o.(ro_mem) o.(ro_main) o.(ro_profile) o.(ro_jit)
                                                true o.(ro_reload) o.(ro_data))
  | OptReload :: opts' => parse_getopt opts' (RunnerOptions o.(ro_mem) o.(ro_main) o.(ro_profile) o.(ro_jit)
                                                o.(ro_unload) true o.(ro_data))
  | OptOther :: _ => Err 1
  end.

Inductive runner_end : Type :=
| RunnerPrints (value : Z)  (* exit code 0 *)
| RunnerExits (code : Z)  (* nothing printed on stdout *)
| RunnerUndefined
| RunnerRuns.  (* the fuel of the run ran out *)

Definition ELF_MAGIC : list Z := [0x7f; 0x45; 0x4c; 0x46].

Section RunnerMain.
Variables (env : runner_env) (g : runner_globals) (o : runner_options).
#[local] Instance runner_main_host : HostEnv := runner_host env o.(ro_data) g.

(** The configuration before the code is loaded. *)
Definition runner_setup : option (result ubpf_vm Z) :=
  match ubpf_create env.(re_target) env.(re_create) with
  | None => Some (Err 1)
  | Some vm =>
      let vm := if bool_decide (env.(re_blinding) = Some (text_of "1")) ||
                   bool_decide (env.(re_blinding) = Some (text_of "true"))
                then (ubpf_toggle_constant_blinding vm true).1 else vm in
      let vm := (ubpf_register_data_relocation vm 0 env.(re_relocation_at)).1 in
      let vm := (ubpf_register_data_bounds_check vm 0 env.(re_bounds_at)).1 in
      let '(vm, r) := ubpf_set_pointer_secret vm env.(re_secret) in
      if negb (r =? 0) then Some (Err 1)
      else
        let '(vm, r) := ubpf_set_execution_profile_impl vm
                          (if bool_decide (o.(ro_profile) = UBPF_EXECUTION_PROFILE_SAFE) then 1 else 0) in
        if negb (r =? 0) then (_ ← ubpf_destroy vm env.(re_unload); Some (Err 1))
        else
          let '(vm, r) := register_functions env vm o.(ro_profile) in
          if negb (r =? 0) then (_ ← ubpf_destroy vm env.(re_unload); Some (Err 1))
          else Some (Ok (ubpf_register_stack_usage_calculator vm env.(re_calculator_at) 0).1)
  end.

(** One pass of the label [load]: the VM, and whether [rv] is 0. *)
Definition load_code (code : list Z) (vm : ubpf_vm) : option (ubpf_vm * bool) :=
  if bool_decide (take 4 code = ELF_MAGIC) then
    '(vm, r) ← ubpf_load_elf_ex env.(re_relocation) env.(re_elf_base) env.(re_elf_allocs) env.(re_load) vm code o.(ro_main);
    Some (vm, match r with Ok _ => true | Err _ => false end)
  else
    '(vm, r) ← ubpf_load vm env.(re_load) code;
    Some (vm, match r with Ok _ => true | Err _ => false end).

(** The passes with the [goto]s: a second pass after [-U] or [-R]. *)
Definition load_passes (code : list Z) (vm : ubpf_vm) : option (ubpf_vm * bool) :=
  '(vm, ok) ← load_code code vm;
  if o.(ro_unload) then (vm ← ubpf_unload_code vm env.(re_unload); load_code code vm)
  else if o.(ro_reload) then load_code code vm
  else Some (vm, ok).

Definition runner_run (vm : ubpf_vm) (mem : option (list Z)) (m : gmap Z Z) : runner_end :=
  let p := match mem with Some _ => env.(re_memory) | None => 0 end in
  let bytes := default [] mem in
  let len := Z.of_nat (length bytes) in
  let m := place env.(re_memory) bytes m in
  if o.(ro_jit) then
    match ubpf_compile env.(re_jit).1 env.(re_jit).2 vm None with
    | None => RunnerUndefined
    | Some (vm, fn, _, _) =>
        if fn =? 0 then RunnerExits 1
        else RunnerPrints (env.(re_native) vm.(jitted_code) fn p len None m).1
    end
  else
    let r := env.(re_run) in
    match (ubpf_exec r.(run_fuel) vm p len r.(run_stack) r.(run_alloc) r.(run_garbage) m).2 with
    | Some (Returned v _) => RunnerPrints v
    | Some (Error _) => RunnerPrints UINT64_MAX
    | Some UndefinedBehaviour => RunnerUndefined
    | None => RunnerRuns
    end.

(** From the options on; [code] and [mem] are the contents of the files. *)
Definition runner_load_and_run (code : list Z) (mem : option (list Z)) (m : gmap Z Z) : runner_end :=
  match runner_setup with
  | None => RunnerUndefined
  | Some (Err code) => RunnerExits code
  | Some (Ok vm) =>
      match load_passes code vm with
      | None => RunnerUndefined
      | Some (vm, ok) =>
          if negb ok then (match ubpf_destroy vm env.(re_unload) with Some _ => RunnerExits 1 | None => RunnerUndefined end)
          else runner_run vm mem m
      end
  end.

End RunnerMain.

(** [files] reads a file ([None]: it fails); [left] are the arguments behind the
    options. *)
Definition runner_main (env : runner_env) (g : runner_globals) (opts : list getopt_result) (left : list text)
    (files : text -> option (list Z)) (m : gmap Z Z) : runner_end :=
  match parse_getopt opts default_options with
  | Err code => RunnerExits code
  | Ok o =>
      if o.(ro_unload) && o.(ro_reload) then RunnerExits 1
      else
        match left with
        | [code_filename] =>
            match files code_filename with
            | None => RunnerExits 1
            | Some code =>
                match o.(ro_mem) with
                | None => runner_load_and_run env g o code None m
                | Some f =>
                    match files f with
                    | None => RunnerExits 1
                    | Some bytes => runner_load_and_run env g o code (Some bytes) m
                    end
                end
            end
        | _ => RunnerExits 1
        end
  end.

(** ** The VM before the load *)

Record clean_vm (p : ubpf_execution_profile) (vm : ubpf_vm) : Prop := CleanVm {
  cl_insts : vm.(insts) = 0;
  cl_data : vm.(insts_data) = [];
  cl_owner : vm.(insts_owner) = FromMmap;
  cl_num : vm.(num_insts) = 0;
  cl_size : vm.(insts_alloc_size) = 0;
  cl_funcs : vm.(int_funcs) = None;
  cl_usage : vm.(local_func_stack_usage) = Some ∅;
  cl_dispatcher : vm.(dispatcher) = 0;
  cl_helpers : length vm.(ext_funcs) = Z.to_nat MAX_EXT_FUNCS;
  cl_jitted : vm.(jitted) = 0;
  cl_readonly : vm.(readonly_bytecode_enabled) = true;
  cl_bounds : vm.(bounds_check_enabled) = true;
  cl_profile : vm.(execution_profile) = p;
  cl_result : vm.(jitted_result).(compile_result) = UBPF_JIT_COMPILE_FAILURE;
}.

Lemma clean_created target alloc vm : ubpf_create target alloc = Some vm -> clean_vm UBPF_EXECUTION_PROFILE_LEGACY vm.
Proof. unfold ubpf_create. repeat (destruct (negb _); [discriminate |]). intros [= <-]. by constructor. Qed.

Lemma clean_forget p vm : clean_vm p vm -> set_insts_owner FromMmap (forget_code vm) = vm.
Proof. destruct vm. intros []. cbn in *. by subst. Qed.

Lemma clean_update p vm mprotect f : clean_vm p vm -> update_jitted vm mprotect f = (vm, 0).
Proof. intros Hc. unfold update_jitted. rewrite decide_False; [done |]. by rewrite (cl_result _ _ Hc). Qed.

Lemma clean_register p vm mprotect i name fn : clean_vm p vm -> clean_vm p (ubpf_register vm mprotect i name fn).1.
Proof.
  intros Hc. unfold ubpf_register. destruct (_ <=? _); [done |].
  rewrite (clean_update p); destruct Hc; constructor; try done; cbn; by rewrite length_insert.
Qed.

Lemma clean_register_safe p vm mprotect d : clean_vm p vm -> clean_vm p (ubpf_register_safe_helper_impl vm mprotect d).1.
Proof.
  intros Hc. unfold ubpf_register_safe_helper_impl. destruct d as [d |]; [| done].
  repeat (case_match; try done).
  all: match goal with H : ubpf_register _ _ ?i ?n ?f = (?v, _) |- _ =>
         pose proof (clean_register p vm mprotect i n f Hc) as Hr; rewrite H in Hr; cbn in Hr end; try done.
  all: destruct Hr; by constructor.
Qed.

Lemma clean_chain p register indices vm :
  (forall vm i, clean_vm p vm -> clean_vm p (register vm i).1) -> clean_vm p vm -> clean_vm p (register_chain register indices vm).1.
Proof.
  intros Hr. revert vm. induction indices as [| i indices IH]; intros vm Hc; [done |]. cbn [register_chain].
  specialize (Hr vm i Hc). destruct (register vm i) as [vm1 r]. destruct (negb _); [done | by apply IH].
Qed.

Lemma clean_functions p env vm profile : clean_vm p vm -> clean_vm p (register_functions env vm profile).1.
Proof.
  intros Hc. unfold register_functions.
  assert (forall indices vm, clean_vm p vm -> clean_vm p (register_chain (register_plain env) indices vm).1) as Hp.
  { intros indices vm0. apply clean_chain. intros. by apply clean_register. }
  destruct (if bool_decide _ then _ else _) as [vm1 r] eqn:E.
  assert (clean_vm p vm1) as Hc1.
  { case_bool_decide; [| by specialize (Hp [0; 1; 2; 3; 4; 5] vm Hc); rewrite E in Hp].
    pose proof (clean_chain p (register_safe_scalar_helper env) [0; 1; 2; 3; 4; 5] vm) as Hs. rewrite E in Hs.
    apply Hs; [| done]. intros. by apply clean_register_safe. }
  destruct (negb _); [done |]. apply Hp. unfold ubpf_set_unwind_function_index.
  destruct (negb _); [done |]. destruct Hc1. by constructor.
Qed.

Lemma clean_setup env o vm : runner_setup env o = Some (Ok vm) -> clean_vm o.(ro_profile) vm.
Proof.
  unfold runner_setup. destruct (ubpf_create _ _) as [vm0 |] eqn:Ec; [| discriminate].
  apply clean_created in Ec. cbv zeta. set (vm1 := if _ || _ then _ else vm0).
  assert (clean_vm UBPF_EXECUTION_PROFILE_LEGACY vm1) as H1.
  { unfold vm1. destruct (_ || _); [destruct Ec; by constructor | done]. }
  set (vm2 := (ubpf_register_data_bounds_check _ _ _).1).
  assert (clean_vm UBPF_EXECUTION_PROFILE_LEGACY vm2) as H2.
  { unfold vm2, ubpf_register_data_bounds_check, ubpf_register_data_relocation. destruct H1.
    repeat case_match; by constructor. }
  unfold ubpf_set_pointer_secret. rewrite (cl_insts _ _ H2). cbn [Z.eqb negb].
  set (vm3 := set_pointer_secret _ vm2).
  assert (clean_vm UBPF_EXECUTION_PROFILE_LEGACY vm3) as H3 by (destruct H2; by constructor).
  unfold ubpf_set_execution_profile_impl.
  rewrite (cl_insts _ _ H3), (cl_jitted _ _ H3). cbn [Z.eqb negb orb].
  set (z := if bool_decide _ then 1 else 0).
  replace (profile_of z) with (Some o.(ro_profile)) by (unfold z; by destruct (ro_profile o)).
  destruct (execution_started vm3); [cbn; by destruct (ubpf_destroy vm3 _) |]. cbn [Z.eqb negb].
  set (vm4 := set_execution_profile _ vm3).
  assert (clean_vm o.(ro_profile) vm4) as H4 by (destruct H3; by constructor).
  pose proof (clean_functions _ env vm4 o.(ro_profile) H4) as H5.
  destruct (register_functions env vm4 _) as [vm5 r]. cbn in H5.
  destruct (negb _); [cbn; by destruct (ubpf_destroy vm5 _) |]. intros [= <-]. destruct H5. by constructor.
Qed.

(** *** The table of helpers *)

(** The helpers at [indices] are in the table. *)
Definition has_helpers (env : runner_env) (indices : list Z) (vm : ubpf_vm) : Prop :=
  forall i, i ∈ indices -> vm.(ext_funcs) !! Z.to_nat i = Some (env.(re_helper_at) i).

Lemma register_has p env vm i done :
  clean_vm p vm -> 0 <= i < MAX_EXT_FUNCS -> Forall (fun j => 0 <= j) done -> has_helpers env done vm ->
  has_helpers env (i :: done) (register_plain env vm i).1.
Proof.
  intros Hc Hi Hd Hh. unfold register_plain, ubpf_register. destruct (Z.leb_spec MAX_EXT_FUNCS i); [lia |].
  match goal with |- context [update_jitted ?v _ _] => assert (clean_vm p v) as Hc1 end.
  { destruct Hc; constructor; try done. cbn. by rewrite length_insert. }
  rewrite (clean_update p) by done. cbn [fst]. intros j Hj. cbn [ext_funcs set_ext_func_names set_ext_funcs].
  destruct (decide (j = i)) as [-> | Hne].
  - apply list_lookup_insert_eq. rewrite (cl_helpers _ _ Hc). lia.
  - apply elem_of_cons in Hj as [-> | Hj]; [done |]. rewrite list.Forall_forall in Hd. specialize (Hd j Hj). cbv beta in Hd.
    rewrite list_lookup_insert_ne by lia. by apply Hh.
Qed.

Lemma chain_has p env indices vm done :
  clean_vm p vm -> Forall (fun i => 0 <= i < MAX_EXT_FUNCS) indices -> Forall (fun j => 0 <= j) done -> has_helpers env done vm ->
  (register_chain (register_plain env) indices vm).2 = 0 ->
  has_helpers env (rev indices ++ done) (register_chain (register_plain env) indices vm).1.
Proof.
  intros Hc Hi. revert vm done Hc; induction Hi as [| i indices Hi _ IH]; intros vm done Hc Hd Hh; [done |].
  cbn [register_chain]. pose proof (register_has p env vm i done Hc Hi Hd Hh) as H1.
  pose proof (clean_register p vm env.(re_mprotect) i (runner_name i) (env.(re_helper_at) i) Hc) as Hc1.
  fold (register_plain env vm i) in Hc1. destruct (register_plain env vm i) as [vm1 r]. cbn [fst] in H1, Hc1.
  destruct (negb _); [done |]. intros Hr. cbn [rev]. rewrite <- app_assoc. cbn [app].
  apply IH; [done | constructor; [lia | done] | done | done].
Qed.

Lemma functions_have env vm :
  clean_vm UBPF_EXECUTION_PROFILE_LEGACY vm ->
  (register_functions env vm UBPF_EXECUTION_PROFILE_LEGACY).2 = 0 ->
  has_helpers env runner_indices (register_functions env vm UBPF_EXECUTION_PROFILE_LEGACY).1.
Proof.
  intros Hc. unfold register_functions. rewrite bool_decide_eq_false_2 by done.
  pose proof (chain_has _ env [0; 1; 2; 3; 4; 5] vm [] Hc) as H1.
  pose proof (clean_chain _ (register_plain env) [0; 1; 2; 3; 4; 5] vm ltac:(intros; by apply clean_register) Hc) as Hc1.
  destruct (register_chain _ _ vm) as [vm1 r]. cbn [fst snd] in *. destruct (Z.eqb_spec r 0) as [-> |]; cbn [negb]; [| done].
  intros Hr. set (vm2 := (ubpf_set_unwind_function_index vm1 5).1) in *.
  assert (clean_vm UBPF_EXECUTION_PROFILE_LEGACY vm2 /\ vm2.(ext_funcs) = vm1.(ext_funcs)) as [Hc2 E2].
  { unfold vm2, ubpf_set_unwind_function_index. destruct (negb _); [done |]. split; [destruct Hc1; by constructor | done]. }
  assert (has_helpers env (rev [0; 1; 2; 3; 4; 5]) vm2) as H2.
  { unfold has_helpers. rewrite E2. apply (H1 ltac:(repeat constructor; done) ltac:(constructor) ltac:(intros ? []%elem_of_nil) eq_refl). }
  pose proof (chain_has _ env [MAP_LOOKUP; MAP_UPDATE; MAP_DELETE] vm2 (rev [0; 1; 2; 3; 4; 5]) Hc2 ltac:(repeat constructor; done)
    ltac:(repeat constructor; lia) H2 Hr) as H3.
  intros i Hi. apply H3. unfold runner_indices in Hi. cbn. rewrite !elem_of_cons, elem_of_nil in Hi |- *. tauto.
Qed.

Lemma setup_has env o vm :
  o.(ro_profile) = UBPF_EXECUTION_PROFILE_LEGACY -> runner_setup env o = Some (Ok vm) -> has_helpers env runner_indices vm.
Proof.
  intros Hp. unfold runner_setup. destruct (ubpf_create _ _) as [vm0 |] eqn:Ec; [| discriminate]. cbv zeta. rewrite Hp.
  change (if bool_decide _ then 1 else 0) with 0.
  destruct (ubpf_set_pointer_secret _ _) as [vm3 r3] eqn:E3. destruct (negb _); [discriminate |].
  destruct (ubpf_set_execution_profile_impl vm3 0) as [vm4 r4] eqn:E4. destruct (negb _); [by destruct (ubpf_destroy vm4 _) |].
  assert (clean_vm UBPF_EXECUTION_PROFILE_LEGACY vm4) as Hc.
  { apply clean_created in Ec. revert E3 E4. unfold ubpf_set_pointer_secret, ubpf_register_data_bounds_check, ubpf_register_data_relocation,
      ubpf_set_execution_profile_impl. cbn [profile_of Z.eqb].
    intros E3 E4. destruct Ec. repeat (case_match; simplify_eq/=); by constructor. }
  pose proof (functions_have env vm4 Hc) as Hh. destruct (register_functions env vm4 _) as [vm5 r5]. cbn [fst snd] in Hh.
  destruct (Z.eqb_spec r5 0) as [-> |]; cbn [negb]; [| by destruct (ubpf_destroy vm5 _)]. intros [= <-]. by apply Hh.
Qed.

(** The helpers have addresses of their own. *)
Definition helpers_distinct (env : runner_env) : Prop :=
  forall i j, i ∈ runner_indices -> j ∈ runner_indices -> env.(re_helper_at) i = env.(re_helper_at) j -> i = j.

Lemma runner_index_at env i : helpers_distinct env -> i ∈ runner_indices -> runner_index env (env.(re_helper_at) i) = i.
Proof.
  intros Hd Hi. unfold runner_index.
  destruct (list_find_elem_of (fun j => env.(re_helper_at) j = env.(re_helper_at) i) runner_indices i Hi eq_refl)
    as [[n j] E].
  rewrite E. cbn. apply list_find_Some in E as (Hj & Ej & _). apply Hd; [by eapply list_elem_of_lookup_2 | done | done].
Qed.

(** What a load leaves alone. *)
Lemma load_code_spec env g o code vm vm' ok :
  os_sound env.(re_load) -> load_code env g o code vm = Some (vm', ok) ->
  forget_code vm' = forget_code vm /\
  (ok = true -> exists prog, @loaded (runner_host env o.(ro_data) g) vm' prog /\
     (take 4 code <> ELF_MAGIC -> prog = insts_of_bytes code)).
Proof.
  intros Hos. unfold load_code. case_bool_decide.
  - unfold ubpf_load_elf_ex. destruct (link_elf _ _ _ _ _ _) as [[program | e] |]; [| by intros [= <- <-] | discriminate].
    destruct (@ubpf_load (runner_main_host env g o) vm env.(re_load) program) as [[vm1 r] |] eqn:E; [| discriminate].
    destruct (@load_result (runner_main_host env g o) _ _ _ _ _ Hos E) as [Hf Hr].
    intros [= <- <-]. split; [done |]. destruct r as [[] | e]; [| done]. intros _. exists (insts_of_bytes program).
    split; [apply Hr | done].
  - destruct (@ubpf_load (runner_main_host env g o) vm env.(re_load) code) as [[vm1 r] |] eqn:E; [| discriminate].
    destruct (@load_result (runner_main_host env g o) _ _ _ _ _ Hos E) as [Hf Hr].
    intros [= <- <-]. split; [done |]. destruct r as [[] | e]; [| done]. intros _. exists (insts_of_bytes code).
    split; [apply Hr | done].
Qed.

(** Unloading gives back the VM that was loaded. *)
Lemma unload_clean env g o p code vm vm' :
  os_sound env.(re_load) -> clean_vm p vm -> load_code env g o code vm = Some (vm', true) ->
  ubpf_unload_code vm' true = Some vm.
Proof.
  intros Hos Hc Hl. destruct (load_code_spec _ _ _ _ _ _ _ Hos Hl) as [Hf Hld].
  destruct (Hld eq_refl) as (prog & Hprog & _).
  assert (jitted vm' = 0) as Hj by (change (jitted (forget_code vm') = 0); rewrite Hf; apply Hc).
  rewrite (@unload_loaded (runner_host env o.(ro_data) g) vm' prog true Hprog Hj), Hf.
  rewrite (ld_owner _ _ Hprog). change (readonly_bytecode_enabled vm') with (readonly_bytecode_enabled (forget_code vm')).
  rewrite Hf. cbn [readonly_bytecode_enabled forget_code]. change (readonly_bytecode_enabled (forget_code vm))
    with (readonly_bytecode_enabled vm). rewrite (cl_readonly _ _ Hc). f_equal. by eapply clean_forget.
Qed.

Definition with_unload (o : runner_options) (unload reload : bool) : runner_options :=
  RunnerOptions o.(ro_mem) o.(ro_main) o.(ro_profile) o.(ro_jit) unload reload o.(ro_data).

(** The two test options of the runner.  After a load that succeeds, [-U]
    (unload and load again, the allocation of the unload succeeding) leads to the same VM and so to the same end of the
    program as no option; [-R] (load again) is refused for instructions, and the
    runner exits with 1 and prints nothing. *)
Theorem runner_unload_reload (env : runner_env) (g : runner_globals) (o : runner_options) (code : list Z)
    (mem : option (list Z)) (m : gmap Z Z) (vm vm' : ubpf_vm) :
  os_sound env.(re_load) -> env.(re_unload) = true -> runner_setup env o = Some (Ok vm) ->
  load_code env g o code vm = Some (vm', true) ->
  runner_load_and_run env g (with_unload o true false) code mem m =
    runner_load_and_run env g (with_unload o false false) code mem m /\
  (take 4 code <> ELF_MAGIC ->
   runner_load_and_run env g (with_unload o false true) code mem m = RunnerExits 1).
Proof.
  intros Hos Hu Hs Hl. pose proof (clean_setup _ _ _ Hs) as Hc.
  assert (forall u r, runner_setup env (with_unload o u r) = Some (Ok vm)) as Hs' by done.
  assert (forall u r vm, load_code env g (with_unload o u r) code vm = load_code env g o code vm) as Hl' by done.
  unfold runner_load_and_run. rewrite !Hs'. unfold load_passes. cbn [ro_unload ro_reload with_unload].
  rewrite !Hl', Hl. cbn [mbind option_bind]. split.
  - rewrite Hu, (unload_clean env g o _ code vm vm' Hos Hc Hl). cbn [mbind option_bind]. by rewrite Hl', Hl.
  - intros Hne. rewrite Hl'. destruct (load_code_spec _ _ _ _ _ _ _ Hos Hl) as [_ Hld].
    destruct (Hld eq_refl) as (prog & Hprog & _). unfold load_code. rewrite bool_decide_eq_false_2 by done.
    unfold ubpf_load. change (UBPF_EBPF_STACK_SIZE mod 8 =? 0) with true. cbn [negb].
    rewrite (proj2 (Z.eqb_neq _ _) (ld_insts _ _ Hprog)). cbn [negb mbind option_bind].
    unfold ubpf_destroy. assert (jitted vm' = 0) as Hj.
    { change (jitted (forget_code vm') = 0). destruct (load_code_spec _ _ _ _ _ _ _ Hos Hl) as [-> _]. apply Hc. }
    by rewrite (@unload_loaded (runner_host env o.(ro_data) g) vm' prog _ Hprog Hj).
Qed.

(** ** The embedder's promise *)

(** The storage of every map, and the global data, lie in the address space. *)
Record globals_ok (g : runner_globals) : Prop := GlobalsOk {
  go_data : 0 <= g.(_global_data) /\ 0 <= g.(_global_data_size) /\
            g.(_global_data) + g.(_global_data_size) < 2 ^ 64;
  go_entries : Forall (fun e => 0 <= e.(array) /\ e.(array) + storage_size e < 2 ^ 64) g.(entries);
}.

Lemma update_extends g map key value m r m' :
  mem_ok m -> bpf_map_update_elem_impl g map key value m = Some (r, m') -> mem_extends m m'.
Proof.
  intros Hm. unfold bpf_map_update_elem_impl. destruct (entry_at g map) as [e |]; [| discriminate].
  cbn [mbind option_bind]. destruct (negb _); [discriminate |]. destruct (deref m key 4); [| discriminate].
  cbn [mbind option_bind]. destruct (_ <=? _); [intros [= <- <-]; by apply mem_extends_refl |].
  destruct (load_bytes _ _ _) as [bytes |] eqn:El; [| discriminate]. cbn [mbind option_bind].
  destruct (store_bytes _ _ _) as [m1 |] eqn:Es; [| discriminate]. intros [= <- <-]. split.
  - eapply store_bytes_ok; [done | by eapply load_bytes_ok | done].
  - apply store_bytes_spec in Es as [[-> _] _]. done.
Qed.

Lemma delete_extends g map key m r m' :
  mem_ok m -> bpf_map_delete_elem_impl g map key m = Some (r, m') -> mem_extends m m'.
Proof.
  intros Hm. unfold bpf_map_delete_elem_impl. destruct (entry_at g map) as [e |]; [| discriminate].
  cbn [mbind option_bind]. destruct (negb _); [discriminate |]. destruct (deref m key 4); [| discriminate].
  cbn [mbind option_bind]. destruct (_ <=? _); [intros [= <- <-]; by apply mem_extends_refl |].
  destruct (store_bytes _ _ _) as [m1 |] eqn:Es; [| discriminate]. intros [= <- <-]. split.
  - eapply store_bytes_ok; [done | | done]. apply Forall_replicate. unfold byte_ok. lia.
  - apply store_bytes_spec in Es as [[-> _] _]. done.
Qed.

Lemma runner_helper_extends env g idx a b c d e m r m' :
  call_runner_helper env g idx a b c d e m = Some (r, m') -> mem_ok m -> mem_extends m m'.
Proof.
  unfold call_runner_helper. intros E Hm.
  repeat (destruct (_ =? _); [try (injection E as <- <-; by apply mem_extends_refl) |]); [.. | by eapply test_helper_extends].
  - destruct (memfrob_bytes _ _ _) eqn:Ef; [| discriminate E]. injection E as <- <-. by eapply memfrob_extends.
  - destruct (bpf_map_lookup_elem_impl _ _ _ _); [| discriminate E]. injection E as <- <-. by apply mem_extends_refl.
  - by eapply update_extends.
  - by eapply delete_extends.
Qed.

(** A range the check of the runner accepts: an access that does not wrap around
    is inside it. *)
Lemma range_check start len addr size i :
  0 <= size -> addr + size <= UINT64_MAX -> 0 <= start -> start + len < 2 ^ 64 -> 0 <= len ->
  (start <=? addr) && (u64 (addr + size) <=? u64 (start + len)) = true ->
  addr <= i < addr + size -> start <= i < start + len.
Proof.
  intros Hs Hend H0 Hfit Hl Hb Hi. apply andb_true_iff in Hb as [H1 H2]. apply Z.leb_le in H1, H2.
  unfold UINT64_MAX in Hend. rewrite !(wrap_id 64) in H2 by lia. lia.
Qed.

(** The interface the interpreter is verified against. *)
Lemma runner_host_sound env d g : globals_ok g -> HostSound (runner_host env d g).
Proof.
  intros [Hd He]. constructor; cbn.
  - intros. by eapply runner_helper_extends.
  - done.
  - intros. by apply mem_extends_refl.
  - intros fn ctx addr size m i Hb Hs Hend Hi. unfold runner_grants, runner_bounds_check in *. destruct d.
    + eapply range_check; [exact Hs | exact Hend | apply Hd | apply Hd | apply Hd | exact Hb | exact Hi].
    + unfold map_relocation_bounds_check_function in Hb. apply existsb_exists in Hb as (e & Hin & Hb).
      apply list_elem_of_In in Hin. apply list.Exists_exists. exists e. split; [done |].
      destruct (proj1 (list.Forall_forall _ _) He e Hin) as [Ha Hfit].
      eapply range_check; [exact Hs | exact Hend | exact Ha | exact Hfit | | exact Hb | exact Hi].
      apply (wrap_range 64). lia.
Qed.

(** ** Running a program *)

(** What a run finds: a stack of the right size, sixteen registers, the mapped
    addresses its bounds function grants. *)
Record run_ok (env : runner_env) (d : bool) (g : runner_globals) (mem : option (list Z)) (m : memory) : Prop := RunOk {
  rk_globals : globals_ok g;
  rk_memory : Forall byte_ok (default [] mem) /\ 0 <= env.(re_memory) /\
              env.(re_memory) + Z.of_nat (length (default [] mem)) < 2 ^ 64;
  rk_stack : 0 <= env.(re_run).(run_stack) /\ env.(re_run).(run_stack) + UBPF_EBPF_STACK_SIZE < 2 ^ 64 /\
             mapped m env.(re_run).(run_stack) UBPF_EBPF_STACK_SIZE;
  rk_registers : registers_ok env.(re_run).(run_garbage);
  rk_alloc : env.(re_run).(run_alloc) 0%nat = true;
  rk_bytes : mem_ok m;
  rk_granted : forall i, runner_grants d g i -> is_Some (m !! i);
}.

Lemma place_lookup a bytes m i :
  place a bytes m !! i =
    if decide (a <= i < a + Z.of_nat (length bytes)) then bytes !! Z.to_nat (i - a) else m !! i.
Proof.
  unfold place. set (l := imap _ bytes).
  assert (forall j v, (j, v) ∈ l <-> a <= j /\ bytes !! Z.to_nat (j - a) = Some v) as Hl.
  { intros j v. unfold l. rewrite elem_of_lookup_imap. split.
    - intros (k & y & [= -> ->] & Hk). split; [lia |]. by replace (Z.to_nat (a + Z.of_nat k - a)) with k by lia.
    - intros [Hj Hv]. exists (Z.to_nat (j - a)), v. split; [f_equal; lia | done]. }
  assert (NoDup l.*1) as Hnd.
  { unfold l. apply NoDup_alt. intros p q x Hp Hq.
    apply list_lookup_fmap_Some in Hp as ([j v] & -> & Hp). apply list_lookup_fmap_Some in Hq as ([k w] & Ek & Hq).
    apply list_lookup_imap_Some in Hp as (y & _ & [= -> ->]). apply list_lookup_imap_Some in Hq as (z & _ & [= -> ->]).
    cbn in Ek. lia. }
  case_decide as Hi.
  - destruct (lookup_lt_is_Some_2 bytes (Z.to_nat (i - a))) as [v Hv]; [lia |]. rewrite Hv.
    apply lookup_union_Some_l, elem_of_list_to_map_1; [done |]. apply Hl. split; [lia | done].
  - apply lookup_union_r, not_elem_of_list_to_map_1. intros Hin. apply list_elem_of_fmap in Hin as ([j v] & -> & Hin).
    apply Hl in Hin as [H1 H2]. apply lookup_lt_Some in H2. cbn in Hi. lia.
Qed.

Lemma place_ok a bytes m : Forall byte_ok bytes -> mem_ok m -> mem_ok (place a bytes m).
Proof.
  intros Hb Hm i v. rewrite place_lookup. case_decide; [| apply Hm]. intros Hv.
  by apply (Forall_lookup_1 _ _ _ _ Hb Hv).
Qed.

Lemma place_mapped a bytes m i : is_Some (m !! i) \/ a <= i < a + Z.of_nat (length bytes) -> is_Some (place a bytes m !! i).
Proof.
  intros Hi. rewrite place_lookup. case_decide as Hd; [| tauto]. apply lookup_lt_is_Some_2. lia.
Qed.

(** The helpers that touch no memory: gather_bytes, trash_registers, sqrti, unwind. *)
Definition pure_helpers : list Z := [0; 2; 3; 5].

Definition calls_pure_helpers (prog : list ebpf_inst) : Prop :=
  Forall (fun inst => calls_out inst = true -> inst.(imm) ∈ pure_helpers) prog.

Lemma runner_calls_defined env d g vm args prog :
  helpers_distinct env -> vm.(dispatcher) = 0 -> has_helpers env runner_indices vm -> calls_pure_helpers prog ->
  calls_defined (runner_host env d g) vm args prog.
Proof.
  intros Hd Hdisp Hh Hp inst st Hin Hc _. unfold calls_pure_helpers in Hp. rewrite list.Forall_forall in Hp. specialize (Hp inst Hin Hc).
  assert (inst.(imm) ∈ runner_indices) as Hi.
  { unfold pure_helpers in Hp. rewrite !elem_of_cons, elem_of_nil in Hp.
    destruct Hp as [-> | [-> | [-> | [-> | []]]]]; apply (bool_decide_unpack _); vm_compute; exact I. }
  unfold helper_outcome. cbv zeta. rewrite Hdisp. cbn [Z.eqb negb]. rewrite (Hh _ Hi).
  cbn [mbind option_bind call_helper runner_host]. rewrite runner_index_at by done.
  unfold pure_helpers in Hp. rewrite !elem_of_cons, elem_of_nil in Hp.
  destruct Hp as [-> | [-> | [-> | [-> | []]]]]; eexists; reflexivity.
Qed.

(** C16: the runner makes a safe embedder.  In the legacy profile and without the JIT, a
    loaded program without 32-bit NEG that calls no helper but those that touch no
    memory (gather_bytes, trash_registers, sqrti, unwind) never makes the interpreter
    do anything undefined, however long it runs: the table the runner registers leads
    to those helpers, and its bounds-check function (for global data as for maps)
    discharges what the interpreter asks of its embedder.  The memory, the stack and
    what that function grants are mapped, the system calls and allocations succeed,
    and the helpers have addresses of their own. *)
Theorem runner_run_defined (env : runner_env) (g : runner_globals) (o : runner_options) (code : list Z)
    (mem : option (list Z)) (m : gmap Z Z) (vm vm' : ubpf_vm) (prog : list ebpf_inst) :
  os_sound env.(re_load) -> runner_setup env o = Some (Ok vm) -> load_code env g o code vm = Some (vm', true) ->
  @loaded (runner_host env o.(ro_data) g) vm' prog -> has_no_neg32 prog -> helpers_distinct env -> calls_pure_helpers prog ->
  o.(ro_profile) = UBPF_EXECUTION_PROFILE_LEGACY -> o.(ro_jit) = false ->
  run_ok env o.(ro_data) g mem m ->
  runner_run env g o vm' mem m <> RunnerUndefined.
Proof.
  intros Hos Hs Hl Hld Hn Hdist Hpure Hp Hj Hrun. pose proof (clean_setup _ _ _ Hs) as Hc.
  destruct (load_code_spec _ _ _ _ _ _ _ Hos Hl) as [Hf _].
  assert (vm'.(bounds_check_enabled) = true) as Hb.
  { change (bounds_check_enabled (forget_code vm') = true). rewrite Hf. apply (cl_bounds _ _ Hc). }
  assert (vm'.(execution_profile) <> UBPF_EXECUTION_PROFILE_SAFE) as Hprof.
  { change (execution_profile (forget_code vm') <> UBPF_EXECUTION_PROFILE_SAFE). rewrite Hf.
    change (execution_profile (forget_code vm)) with (execution_profile vm). by rewrite (cl_profile _ _ Hc), Hp. }
  destruct Hrun as [Hg (Hm1 & Hm2 & Hm3) (Hs1 & Hs2 & Hs3) Hreg Hal Hbytes Hgr].
  unfold runner_run. rewrite Hj. unfold ubpf_exec, ubpf_exec_ex. rewrite decide_False by done. rewrite Hal.
  set (args := ExecArgs _ _ _ _). set (m1 := place _ _ m).
  assert (args_ok args) as Ha.
  { split; [| done]. unfold args. constructor; cbn -[Z.pow UBPF_EBPF_STACK_SIZE]; unfold fits64.
    - destruct mem; cbn in *; lia.
    - lia.
    - change UBPF_EBPF_STACK_SIZE with 4096 in *. lia. }
  assert (@regions_mapped (runner_main_host env g o) args m1) as Hr.
  { split; [| split].
    - unfold args. cbn -[Z.of_nat]. intros Hne _ i Hi. apply place_mapped. right. by destruct mem.
    - intros i Hi. apply place_mapped. left. by apply Hs3.
    - intros i Hi. apply place_mapped. left. by apply Hgr. }
  assert (calls_defined (runner_main_host env g o) vm' args prog) as Hcalls.
  { apply runner_calls_defined; try done.
    - change (dispatcher (forget_code vm') = 0). rewrite Hf. apply (cl_dispatcher _ _ Hc).
    - intros i Hi. change (ext_funcs (forget_code vm') !! Z.to_nat i = Some (env.(re_helper_at) i)). rewrite Hf.
      by apply (setup_has env o vm Hp Hs). }
  pose proof (exec_never_undefined (runner_main_host env g o) (runner_host_sound env o.(ro_data) g Hg) vm' args prog
                env.(re_run).(run_garbage) m1 env.(re_run).(run_fuel) Hld Hb Hn Hcalls Ha Hreg
                ltac:(by apply place_ok) Hr) as Hnu.
  destruct (ubpf_exec_ex_legacy _ _ _ _ _ _) as [vm2 [[v m2 | e |] |]]; cbn in *; [discriminate .. | done | discriminate].
Qed.

(** ** Map operations *)

(** The entry at [map] is an array whose storage is mapped. *)
Record map_at (g : runner_globals) (map : Z) (e : map_entry_t) (m : memory) : Prop := MapAt {
  ma_entry : entry_at g map = Some e;
  ma_type : e.(map_definition).(def_type) = BPF_MAP_TYPE_ARRAY;
  ma_sizes : 0 <= e.(map_definition).(def_max_entries) /\ 0 < e.(map_definition).(def_value_size);
  ma_storage : 0 < e.(array) /\
    e.(array) + e.(map_definition).(def_max_entries) * e.(map_definition).(def_value_size) < 2 ^ 64;
  ma_mapped : mapped m e.(array) (e.(map_definition).(def_max_entries) * e.(map_definition).(def_value_size));
}.

(** The abstract map: an array of [max_entries] values. *)
Definition map_value (e : map_entry_t) (m : memory) (i : Z) : option (list Z) :=
  if (0 <=? i) && (i <? e.(map_definition).(def_max_entries))
  then load_bytes m (element_address e i) (Z.to_nat e.(map_definition).(def_value_size))
  else None.

Section MapOperations.
Variables (g : runner_globals) (map : Z) (e : map_entry_t) (m : memory).
Hypothesis Hmap : map_at g map e m.
#[local] Abbreviation size := (e.(map_definition).(def_value_size)).
#[local] Abbreviation count := (e.(map_definition).(def_max_entries)).

(** The elements lie inside the storage, one behind the other. *)
Lemma element_inside i : 0 <= i < count ->
  element_address e i = e.(array) + i * size /\ 0 < element_address e i /\
  inside (element_address e i) size e.(array) (count * size).
Proof using Hmap.
  intros Hi. destruct Hmap as [_ _ [Hn Hs] [Ha Hfit] _].
  assert (0 <= i * size <= (count - 1) * size) as Hr by nia.
  assert (element_address e i = e.(array) + i * size) as E by (apply (wrap_id 64); lia).
  rewrite E. unfold inside. split; [done |]. split; [lia |]. nia.
Qed.

Lemma elements_disjoint i j : 0 <= i < count -> 0 <= j < count -> i <> j ->
  element_address e i + size <= element_address e j \/ element_address e j + size <= element_address e i.
Proof using Hmap.
  intros Hi Hj Hne. destruct (element_inside i Hi) as [-> _]. destruct (element_inside j Hj) as [-> _].
  destruct Hmap as [_ _ [_ Hs] _ _]. nia.
Qed.

(** Storing a value in one element leaves the others. *)
Lemma store_element i bytes m' :
  0 <= i < count -> length bytes = Z.to_nat size -> store_bytes m (element_address e i) bytes = Some m' ->
  changes_only (element_address e i) size m m' /\
  forall j, map_value e m' j = if j =? i then Some bytes else map_value e m j.
Proof using Hmap.
  intros Hi Hlen Hst. pose proof (ma_sizes _ _ _ _ Hmap) as [_ Hs].
  apply store_bytes_spec in Hst as [Hc Hl]. rewrite Hlen, Z2Nat.id in * by lia. split; [done |].
  intros j. unfold map_value. destruct (Z.eqb_spec j i) as [-> | Hne].
  - rewrite (proj2 (Z.leb_le _ _)), (proj2 (Z.ltb_lt _ _)) by lia. done.
  - destruct (Z.leb_spec 0 j), (Z.ltb_spec j count); try done. cbn [andb].
    apply load_bytes_frame. intros a Ha. apply Hc. rewrite Z2Nat.id in Ha by lia.
    destruct (elements_disjoint i j); lia.
Qed.

Lemma store_element_succeeds i bytes :
  0 <= i < count -> length bytes = Z.to_nat size -> is_Some (store_bytes m (element_address e i) bytes).
Proof using Hmap.
  intros Hi Hlen. apply store_bytes_mapped. rewrite Hlen, Z2Nat.id by (destruct Hmap as [_ _ [_ ?] _ _]; lia).
  eapply mapped_inside; [apply (ma_mapped _ _ _ _ Hmap) |]. by apply element_inside.
Qed.

End MapOperations.

(** C29: the map helpers of the runner implement an array of values: for a key the
    program can read, [bpf_map_update_elem] stores the value under it and changes
    no other value, [bpf_map_delete_elem] puts zeros there, [bpf_map_lookup_elem]
    returns the address of the value; a key that is too large gets -1 or NULL and
    changes nothing.  No byte outside of the element changes. *)
Theorem map_operations (g : runner_globals) (map key value index : Z) (e : map_entry_t) (bytes : list Z) (m : memory) :
  map_at g map e m -> deref m key 4 = Some index -> 0 <= index ->
  load_bytes m value (Z.to_nat e.(map_definition).(def_value_size)) = Some bytes ->
  let count := e.(map_definition).(def_max_entries) in
  let size := e.(map_definition).(def_value_size) in
  (index < count ->
   bpf_map_lookup_elem_impl g map key m = Some (element_address e index) /\ element_address e index <> 0 /\
   (exists m', bpf_map_update_elem_impl g map key value m = Some (0, m') /\
      changes_only (element_address e index) size m m' /\
      forall j, map_value e m' j = if j =? index then Some bytes else map_value e m j) /\
   (exists m', bpf_map_delete_elem_impl g map key m = Some (0, m') /\
      changes_only (element_address e index) size m m' /\
      forall j, map_value e m' j = if j =? index then Some (replicate (Z.to_nat size) 0) else map_value e m j)) /\
  (count <= index ->
   bpf_map_lookup_elem_impl g map key m = Some 0 /\
   bpf_map_update_elem_impl g map key value m = Some (-1, m) /\
   bpf_map_delete_elem_impl g map key m = Some (-1, m)).
Proof.
  intros Hmap Hk Hi0 Hv count size. unfold bpf_map_lookup_elem_impl, bpf_map_update_elem_impl, bpf_map_delete_elem_impl.
  rewrite (ma_entry _ _ _ _ Hmap). cbn [mbind option_bind]. rewrite (ma_type _ _ _ _ Hmap), Hk.
  cbn [Z.eqb BPF_MAP_TYPE_ARRAY Pos.eqb negb mbind option_bind]. fold count size in Hv |- *. split; intros Hi.
  - rewrite (proj2 (Z.leb_gt _ _) Hi). rewrite Hv. cbn [mbind option_bind].
    destruct (element_inside g map e m Hmap index ltac:(lia)) as (_ & Hne & _).
    split; [done |]. split; [lia |]. pose proof (load_bytes_length _ _ _ _ Hv) as Hlen. split.
    + destruct (store_element_succeeds g map e m Hmap index bytes ltac:(lia) Hlen) as [m' Hm']. rewrite Hm'.
      exists m'. split; [done |]. by apply (store_element g map e m Hmap).
    + destruct (store_element_succeeds g map e m Hmap index (replicate (Z.to_nat size) 0) ltac:(lia)) as [m' Hm'];
        [apply length_replicate |]. rewrite Hm'. exists m'. split; [done |].
      apply (store_element g map e m Hmap); [lia | apply length_replicate | done].
  - by rewrite (proj2 (Z.leb_le _ _) Hi).
Qed.

(** ** Map pointers *)

(** The entries of the maps stay where they are only while the array has room:
    the fifth map makes the runner move it, and the addresses the loader has put
    into the program for the first four maps are no longer those of an entry. *)
Theorem map_pointers_go_stale (realloc calloc : Z -> Z -> Z) (g : runner_globals) (i : nat) (data name : list Z)
    (def : bpf_map_def) :
  length g.(entries) = 4%nat -> g.(_map_entries_capacity) = 4 -> (i < 4)%nat ->
  find_entry name g.(entries) 0 = None -> read_map_def data 0 = Some def ->
  def.(def_type) = BPF_MAP_TYPE_ARRAY -> def.(def_key_size) = 4 ->
  let moved := realloc g.(_map_entries) (8 * MAP_ENTRY_SIZE) in
  g.(_map_entries) + 4 * MAP_ENTRY_SIZE <= moved ->
  is_Some (entry_at g (entry_address g i)) /\
  exists g' p, do_map_relocation realloc calloc g data name 0 MAP_DEF_SIZE = Some (g', p) /\
    entry_at g' (entry_address g i) = None.
Proof.
  intros Hl Hcap Hi Hfind Hdef Ht Hk moved Hmoved.
  assert (entry_at g (entry_address g i) = g.(entries) !! i) as Hat.
  { unfold entry_at, entry_address.
    replace ((_ - _) / MAP_ENTRY_SIZE) with (Z.of_nat i) by (apply Z.div_unique_exact; unfold MAP_ENTRY_SIZE; lia).
    rewrite Nat2Z.id, Z.eqb_refl, (proj2 (Z.leb_le _ _)) by lia. done. }
  split; [rewrite Hat; apply lookup_lt_is_Some_2; lia |].
  unfold do_map_relocation. rewrite Hdef. cbn [mbind option_bind]. rewrite Z.ltb_irrefl, Ht, Hk, Hfind.
  cbn [Z.eqb BPF_MAP_TYPE_ARRAY Pos.eqb negb]. rewrite Hl, Hcap. change (Z.of_nat 4 =? 4) with true.
  do 2 eexists. split; [reflexivity |]. unfold entry_at. cbn [_map_entries].
  match goal with |- context [(entry_address g i - ?a) / _] => change a with moved end.
  assert ((entry_address g i - moved) / MAP_ENTRY_SIZE < 0) as Hneg.
  { apply Z.div_lt_upper_bound; unfold entry_address, MAP_ENTRY_SIZE in *; lia. }
  by rewrite (proj2 (Z.leb_gt _ _) Hneg).
Qed.

(** ** A run of the runner *)

Definition test_runner_env : runner_env := {|
  re_library := test_library;
  re_trash := 0xf0;
  re_helper_at i := 4096 + 16 * i;
  re_relocation_at := 8192;
  re_bounds_at := 8208;
  re_calculator_at := 8224;
  re_target := JitX86_64;
  re_secret := 12345;
  re_blinding := None;
  re_create _ := true;
  re_load := test_os;
  re_unload := true;
  re_mprotect _ _ _ := true;
  re_relocation _ _ _ _ _ _ _ := 0;
  re_elf_base := 0;
  re_elf_allocs := all_allocs;
  re_memory := 65536;
  re_run := RunEnv 100 (replicate 16 0) 131072 (fun _ => true);
  re_jit := (test_env, test_jit_os);
  re_native _ _ _ _ _ m := (0, m);
|}.

(** [ldxb r1, [r1+1]; call sqrti; exit] *)
Definition byte_program : list Z := bytes_of_insts [Inst 0x71 1 1 1 0; Inst 0x85 0 0 0 3; Inst 0x95 0 0 0 0].

Example runner_prints_byte :
  runner_main test_runner_env initial_globals [OptMem (text_of "m")] [text_of "p"]
    (fun f => Some (if bool_decide (f = text_of "p") then byte_program else [10; 20; 30])) ∅ = RunnerPrints 4.
Proof. vm_compute. reflexivity. Qed.

Definition byte_setup : ubpf_vm :=
  match runner_setup test_runner_env default_options with Some (Ok vm) => vm | _ => zeroed_vm JitNull end.
Definition byte_vm : ubpf_vm :=
  match load_code test_runner_env initial_globals default_options byte_program byte_setup with
  | Some (vm, _) => vm
  | None => byte_setup
  end.

Lemma byte_setup_ok : runner_setup test_runner_env default_options = Some (Ok byte_setup).
Proof. vm_compute. reflexivity. Qed.

Lemma byte_load_ok :
  load_code test_runner_env initial_globals default_options byte_program byte_setup = Some (byte_vm, true).
Proof. vm_compute. reflexivity. Qed.

Lemma runner_unload_reload_witness :
  runner_load_and_run test_runner_env initial_globals (with_unload default_options true false) byte_program
    (Some [10; 20; 30]) ∅ = RunnerPrints 4 /\
  runner_load_and_run test_runner_env initial_globals (with_unload default_options false true) byte_program
    (Some [10; 20; 30]) ∅ = RunnerExits 1.
Proof.
  destruct (runner_unload_reload test_runner_env initial_globals default_options byte_program (Some [10; 20; 30]) ∅
              byte_setup byte_vm test_os_sound eq_refl byte_setup_ok byte_load_ok) as [-> Hr].
  split; [vm_compute; reflexivity |]. apply Hr. discriminate.
Defined.

Lemma byte_loaded : @loaded (runner_host test_runner_env false initial_globals) byte_vm (insts_of_bytes byte_program).
Proof.
  destruct (proj2 (load_code_spec test_runner_env initial_globals default_options byte_program
              byte_setup byte_vm true test_os_sound byte_load_ok) eq_refl) as (prog & Hld & Hp).
  rewrite <- Hp by discriminate. exact Hld.
Qed.

(** The stack of the run: 4096 bytes. *)
Definition stack_memory : memory := place 131072 (replicate 4096 0) ∅.

Lemma runner_run_defined_witness :
  runner_run test_runner_env initial_globals default_options byte_vm (Some [10; 20; 30]) stack_memory <> RunnerUndefined.
Proof.
  apply (runner_run_defined test_runner_env initial_globals default_options byte_program (Some [10; 20; 30]) stack_memory
           byte_setup byte_vm (insts_of_bytes byte_program) test_os_sound byte_setup_ok byte_load_ok byte_loaded);
    [repeat (apply Forall_cons_2; [vm_compute; discriminate |]); constructor
    | intros i j _ _ Hij; cbn in Hij; lia
    | repeat (apply Forall_cons_2; [intros Hc; vm_compute in Hc; (discriminate || (apply (bool_decide_unpack _); vm_compute; exact I)) |]); constructor
    | reflexivity | reflexivity |].
  constructor.
  - split; [cbn; lia | constructor].
  - split; [repeat constructor; lia | cbn; lia].
  - unfold stack_memory. change (run_stack (re_run test_runner_env)) with 131072. change UBPF_EBPF_STACK_SIZE with 4096.
    split; [lia |]. split; [lia |]. intros i Hi. apply place_mapped. right. rewrite length_replicate. lia.
  - apply demo_registers.
  - reflexivity.
  - apply place_ok; [| apply map_Forall_empty]. apply Forall_replicate. unfold byte_ok. lia.
  - intros i Hi. cbn in Hi. by inversion Hi.
Defined.

(** A map of two values of four bytes, a key and a value. *)
Definition test_entry : map_entry_t := MapEntry (MapDef 2 4 4 2) [109] 8192.
Definition test_globals : runner_globals := Globals 4096 [test_entry] 4 0 0.
Definition test_map_memory : memory :=
  place 8192 (replicate 8 0) (place 100 [1; 0; 0; 0] (place 200 [9; 8; 7; 6] ∅)).

Lemma map_operations_witness :
  exists m', bpf_map_update_elem_impl test_globals 4096 100 200 test_map_memory = Some (0, m') /\
    map_value test_entry m' 1 = Some [9; 8; 7; 6] /\ map_value test_entry m' 0 = Some [0; 0; 0; 0].
Proof.
  destruct (map_operations test_globals 4096 100 200 1 test_entry [9; 8; 7; 6] test_map_memory) as [Hin _];
    [| vm_compute; reflexivity | lia | vm_compute; reflexivity |].
  - constructor; [vm_compute; reflexivity | reflexivity | cbn; lia | cbn; lia |].
    intros i Hi. cbn in Hi. apply place_mapped. right. cbn. lia.
  - destruct Hin as (_ & _ & (m' & Hu & _ & Hv) & _); [cbn; lia |].
    exists m'. split; [exact Hu |]. split; rewrite Hv; vm_compute; reflexivity.
Defined.
